(* ===== verification/_CoqProject ===== *)
-Q . S2P
Prelude.v
GoStd.v
GoSHA256.v
GoTime.v
GoJSON.v
Model.v
Channel.v
Database.v
DeviceProjection.v
DeviceMessages.v
OutboxTransitions.v
InboxTransitions.v
LifecycleAdmin.v
Access.v
DeviceMutations.v
DeviceLifecycle.v
Unprovision.v
DeviceCreation.v
DeviceClaims.v
ClaimTransfer.v
Provisioning.v
Broker.v
OutboxWorker.v
InboxWorker.v
System.v
LifecycleHTTP.v
Entitlements.v
ProductApply.v
DependencyGraph.v
PlatformServices.v
ServiceCatalog.v
ServiceRegistry.v
ServiceGrants.v
Requests.v
Pipeline.v
ClaimInvariants.v
EmailDelivery.v
EmailOutbox.v
EmailWorker.v
EmailDeliveries.v
CloudDeletion.v
DeletionStore.v
DeletionCoordinator.v
DeletionPreflight.v
DeletionJobs.v
DeletionWorker.v
DeletionInvariants.v
DeletionSaga.v
DeletionAgreement.v
DeletionEvidence.v
DeletionOutcomes.v
