(* ===== verification/Prelude.v ===== *)
(** * RTK Account Manager: verification library

    The account manager registers devices of brand clouds, lets users claim and
    provision them, and drives the cloud services that do the work by messages:
    an API call writes a command row next to the state it changes (outbox), a
    worker publishes it, result events come back through a second worker
    (inbox) and are projected on the device.  E-mail leaves the same way,
    through an outbox of its own.  A cloud is deleted by a saga: a coordinator
    alternates transactions with calls to the billing service and to the
    services that hold the cloud's resources.  The development models this core of the Go
    program, src/internal, as executable functions on explicit states.

    ** Conventions

    A store operation is a function of the monad [M S A = S → res A * S]
    (Prelude.v): a Go function that returns an error is one that gives [Err];
    [transaction f] gives back the state it started in when [f] fails, as
    ROLLBACK does.  The state of the relational store is [DB] (Database.v),
    one finite map or list per table.  What the program reads from outside (the
    clock, random bytes, [gen_random_uuid()], brokers, gateways, other
    services, the outcome of COMMIT) is part of the state, an oracle in it, or
    an argument, and the theorems hold for every value of it.  Integers keep
    their width: an [int32] column refuses what does not fit ([int4_range]),
    [int64] and [time.Duration] arithmetic wraps ([wrap64]).  Times are instants in
    nanoseconds; [pg_timestamptz] rounds to the microseconds a column keeps.

    ** Parts

    Language and libraries: GoStd.v (strings), GoSHA256.v, GoTime.v (time.Time
    and RFC 3339), GoJSON.v (encoding/json into [any] and into structs).

    Data: Model.v (internal/model), Channel.v (internal/channel: envelopes and
    the fourteen payloads), Database.v (the tables of migrations/ with the
    constraints and triggers that bear on the modelled statements).

    Store (internal/store), one file per Go file or concern:
    DeviceProjection.v, DeviceMessages.v, OutboxTransitions.v,
    InboxTransitions.v, LifecycleAdmin.v, Access.v, DeviceMutations.v,
    DeviceLifecycle.v, Unprovision.v, DeviceCreation.v, DeviceClaims.v,
    ClaimTransfer.v, EmailOutbox.v; Entitlements.v (what a device may use of the
    services of its product, with the tables added to [DB] in [EntitlementDB]) and
    ProductApply.v (jobs that move every device of a product to its newest grant);
    DependencyGraph.v, PlatformServices.v, ServiceCatalog.v, ServiceRegistry.v and
    ServiceGrants.v (store/platform_services.go: the registry of services, the
    catalog of their options, every run of the registry, and the grants of products);
    and for cloud deletions CloudDeletion.v
    (tables, constraints, triggers), DeletionStore.v (transactions),
    DeletionCoordinator.v and DeletionPreflight.v (the code that calls other
    services between transactions, as programs of calls), DeletionJobs.v.  Each names its sources; a definition has
    the name of the Go function where Rocq allows it, and a part of a function
    has a name of its own.

    API and workers: Provisioning.v (internal/api/provisioning.go), Broker.v
    (internal/broker), OutboxWorker.v, InboxWorker.v, EmailDelivery.v
    (internal/emaildelivery), EmailWorker.v, DeletionWorker.v (internal/worker), LifecycleHTTP.v
    (internal/lifecyclehttp: the publisher that delivers a command by HTTP and hands the
    result to the inbox worker).  A worker is
    written against type classes that are the Go interfaces, and its theorems are
    proved from the contract it needs of them ([OutboxContract] and the like).

    Compositions: System.v instantiates the interfaces with the store and an
    oracle for the brokers ([World]); EmailDeliveries.v does so for e-mail
    ([MailWorld]); DeletionSaga.v interleaves programs of calls, with every
    fault between two calls, against any Billing that keeps a contract
    ([Billing], with an instance in DeletionAgreement.v); Requests.v is the store as a transition system ([request],
    [handle], [reachable]), of which Pipeline.v and ClaimInvariants.v prove
    invariants.

    ** What the theorems show

    - Messages: accepted envelopes have well-formed payloads (Channel.v); a
      lease is exclusive until it ends, a published message is final, and an inbox transition
      writes message, operation and device together or not at all; an event is acknowledged
      only when it is settled, handling it again later changes nothing unless something
      opens the message again (an operator's requeue does), a finished operation absorbs
      late results, and a malformed event becomes a dead letter; by HTTP, every answer to
      a command becomes an accepted event, a publication that succeeds has settled its
      result, and a command whose result is stored cannot be published again.
    - Devices: presence reports may arrive in any order and leave the same row but for
      [updated_at]; a device reported ready
      has current evidence; a provisioning creates one command however often
      it is sent, carries a grant that earlier records vouch for, and needs
      authority, an open cloud, and keys a user may write.
    - Entitlements: a snapshot stays within a grant of the product and is queued
      as it is recorded, once per operation; a job takes exactly the devices its
      preview showed, each from the baseline the preview showed to the job's grant,
      and is completed when the Video Cloud has acknowledged all of them.
    - Platform services: whatever is registered and published, the options of an
      environment have one owner each, and their requirements are met and acyclic;
      the catalog offers exactly what runs, a selection that is accepted can be
      delivered and comes in the order of the codes, its recorded grant verifies, and every change of the catalog counts.
    - Claims: a claim token is good for one device, claim, token and device
      stay in one organization, the quota of an evaluation organization holds, and the
      reservation protocol of a transfer gives back what it was granted when it fails, and
      survives a lost answer to COMMIT.
    - E-mail: the outbox refines an abstract machine ([phase_step]); an attempt
      is recorded once; a message is queued once per key; rounds end,
      account for what they did, and settle every message after [maxAttempts]
      quiet rounds; payloads survive encryption; retry delays stay in bounds.
    - Cloud deletion: whatever is interleaved, crashes or answers late, the
      account manager's decision agrees with what Billing did, both refine one
      protocol, a producer is released only when the account can no longer be
      closed (DeletionAgreement.v, by the invariants of DeletionInvariants.v and
      DeletionSaga.v); a cloud is eligible only in runs of one shape, with complete and unexpired
      evidence between two readings of the cloud (DeletionEvidence.v); a completion leaves nothing usable, requests are
      idempotent, and unfinished deletions are claimed again (DeletionOutcomes.v).
    - All runs: what is never rewritten or removed, keys and foreign keys (Pipeline.v).

    ** Bounds and fuel

    Fuel bounds two kinds of recursion.  The searches over requirements ([visit],
    [selectable]) start with one more than there are options, and never use it up
    ([requirements_check_correct], [selectable_finds]).  Loops of workers run for an explicit
    measure of time: [inbox_Run] and [outbox_Run] a number of rounds, [email_RunOnce] a
    schedule of goroutine numbers; a result says when the time was too short,
    and the theorems give a time that is enough (three turns per goroutine for a
    round to end; [maxAttempts] rounds for the e-mail outbox to drain).  The fuel of [retry_loop] is the number of the attempt,
    which bounds the loop's iterations; the theorem on it gives the result in closed form.

    ** Not modelled

    - Concurrency inside the database: a transaction runs alone, so row locks
      (SELECT ... FOR UPDATE) have no effect; statements that skip locked rows see
      all rows.  Text is taken to be UTF-8 without NUL and ids to be UUIDs
      (EmailOutbox.v has the check where the program can violate it).
    - HTTP routing and JSON binding, sessions, metrics and logging; handlers
      start from the decoded request.
    - Adapters: Azure Event Hubs, HTTP clients, SMTP, Redis, OIDC, PKCS#11
      and PKI clients.  They are behind the interfaces above.
    - The Video Cloud, the mail gateway, the factory service: arguments.  Billing and the
      producers of a deletion: the calls of a program ([call]); their HTTP clients are not modelled.
    - Key handling of the e-mail cipher, e-mail templates, and the two averaged ages of
      the e-mail counts (floating point over all rows).
    - Administration of clouds, members, products and accounts: their rows are
      tables the model reads; ownership handoff, billing, configuration
      and schema migration. *)

From stdpp Require Export base tactics option list gmap strings fin_maps sets relations sorting.
From stdpp Require Import pretty.
From Stdlib Require Export Ascii ZArith Lia.

Declare Scope rtk_scope.
Delimit Scope rtk_scope with rtk.

(** ** Errors

    Go compares errors by identity along the [Unwrap] chain ([errors.Is]) and
    by the first value of the chain that has a method ([errors.As]).  The
    sentinels of [internal/store/store.go] are constructors; [ErrText] is an
    [errors.New] or a [fmt.Errorf] without [%w]; [ErrWrap] is a [fmt.Errorf]
    with a final [%w]; [ErrJoin] is [errors.Join] of two errors;
    [ErrPublish] is an error with a transient flag: [broker.publishError], or
    [emaildelivery.DeliveryError] in the e-mail worker.  [ErrNoRows] is
    pgx's, [ErrPg] a statement refused by the schema (constraint or trigger
    named), [ErrCanceled] is [context.Canceled].  [ErrBlockers] is
    [cloudDeletionBlockers] of store/cloud_deletion.go, with what it carries,
    and [ErrHTTP] is [billinghandoff.HTTPError]. *)

(** model.CloudBlocker *)
Record CloudBlocker := mkBlocker {
  Blocker_Code : string;
  Blocker_Retryable : bool;
  Blocker_Count : option Z;
  Blocker_BalanceMinor : option Z;
}.

#[export] Instance CloudBlocker_eq_dec : EqDecision CloudBlocker.
Proof. solve_decision. Defined.

Inductive error :=
  | ErrNotFound
  | ErrDisabled
  | ErrConflict
  | ErrNotProvisioned
  | ErrEvaluationQuotaExceeded
  | ErrClaimExpired
  | ErrClaimAlreadyClaimed
  | ErrClaimRevoked
  | ErrClaimCrossOrganization
  | ErrClaimUnsupportedCategory
  | ErrClaimUnsupportedService
  | ErrClaimServiceOptionsMismatch
  | ErrDeviceItemProfileDisabled
  | ErrClaimInvalidState
  | ErrClaimEvidenceRequired
  | ErrClaimLifecycleBound
  | ErrClaimLifecycleCheckUnavailable
  | ErrCloudManagedPresence
  | ErrReservedDeviceMetadata
  | ErrEmailOutboxEncryptionUnavailable
  | ErrAccountNotActivated
  | ErrInvalidManagedCloudWrite
  | ErrDeveloperCloudLimitExceeded
  | ErrHandoffUnavailable
  | ErrHandoffFinancialBlocked
  | ErrHandoffBalanceNegative
  | ErrHandoffSnapshotNotReady
  | ErrHandoffLeaseLost
  | ErrCloudDeletionBlocked
  | ErrBlockers (blockers : list CloudBlocker)
  | ErrHTTP (status : Z) (code : string)
  | ErrNoRows
  | ErrCanceled
  | ErrPg (constraint : string)
  | ErrText (message : string)
  | ErrWrap (prefix : string) (inner : error)
  | ErrJoin (first second : error)
  | ErrPublish (inner : error) (transient : bool).

#[export] Instance error_eq_dec : EqDecision error.
Proof. solve_decision. Defined.

(** [err.Error()]. *)
Fixpoint error_text (e : error) : string :=
  match e with
  | ErrNotFound => "not found"
  | ErrDisabled => "resource is disabled"
  | ErrConflict => "conflict"
  | ErrNotProvisioned => "device is not provisioned"
  | ErrEvaluationQuotaExceeded => "evaluation device quota exceeded"
  | ErrClaimExpired => "claim token expired"
  | ErrClaimAlreadyClaimed => "claim token already claimed"
  | ErrClaimRevoked => "claim token revoked"
  | ErrClaimCrossOrganization => "claim token belongs to another organization"
  | ErrClaimUnsupportedCategory => "claim token category is unsupported"
  | ErrClaimUnsupportedService => "claim token service option is unsupported"
  | ErrClaimServiceOptionsMismatch =>
      "claim token service options do not match device item profile"
  | ErrDeviceItemProfileDisabled => "device item profile is disabled"
  | ErrClaimInvalidState => "claim token state does not allow this operation"
  | ErrClaimEvidenceRequired => "claim override requires operator evidence"
  | ErrClaimLifecycleBound => "claim is bound to a video cloud lifecycle"
  | ErrClaimLifecycleCheckUnavailable => "video cloud lifecycle check is unavailable"
  | ErrCloudManagedPresence => "cloud-managed device presence cannot be set by a human"
  | ErrReservedDeviceMetadata => "device metadata contains a service-owned key"
  | ErrEmailOutboxEncryptionUnavailable => "email outbox encryption is not configured"
  | ErrAccountNotActivated => "account must complete email activation"
  | ErrInvalidManagedCloudWrite => "invalid cloud name, description or idempotency key"
  | ErrDeveloperCloudLimitExceeded => "developer brand cloud limit exceeded"
  | ErrHandoffUnavailable => "trusted ownership handoff evidence unavailable"
  | ErrHandoffFinancialBlocked => "ownership handoff financial conditions not satisfied"
  | ErrHandoffBalanceNegative =>
      "balance_negative: ownership handoff financial conditions not satisfied"
  | ErrHandoffSnapshotNotReady =>
      "handoff requires fresh settled balance and preparation evidence"
  | ErrHandoffLeaseLost => "handoff worker lease lost"
  | ErrCloudDeletionBlocked | ErrBlockers _ => "cloud deletion preflight or lifecycle blocked"
  | ErrHTTP status code => String.append "billing handoff rejected ("
      (String.append (pretty status) (String.append ", " (String.append code ")")))
  | ErrNoRows => "no rows in result set"
  | ErrCanceled => "context canceled"
  | ErrPg constraint => constraint
  | ErrText message => message
  | ErrWrap prefix inner => String.append prefix (String.append ": " (error_text inner))
  | ErrJoin first second =>
      String.append (error_text first) (String.append (String (ascii_of_nat 10) EmptyString) (error_text second))
  | ErrPublish inner _ => error_text inner
  end.

(** [errors.Is(err, target)] for a sentinel target. *)
Fixpoint errors_Is (e target : error) : bool :=
  bool_decide (e = target) ||
  match e with
  | ErrWrap _ inner => errors_Is inner target
  | ErrJoin first second => errors_Is first target || errors_Is second target
  | ErrPublish inner _ => errors_Is inner target
  | ErrHandoffBalanceNegative => bool_decide (ErrHandoffFinancialBlocked = target)
  | ErrBlockers _ => bool_decide (ErrCloudDeletionBlocked = target)
  | _ => false
  end.

(** ** Results and the state-and-error monad

    A Go function [func (s *Store) F(ctx, in) (T, error)] becomes
    [F : in -> M DB T]: it reads and writes the state and ends with a value or
    an error.  The state an erroneous call leaves behind is kept; only
    [transaction] (BEGIN ... COMMIT with a deferred ROLLBACK) restores it. *)
Inductive res (A : Type) :=
  | Ok (a : A)
  | Err (e : error).
Arguments Ok {A} a.
Arguments Err {A} e.

#[export] Instance res_eq_dec `{EqDecision A} : EqDecision (res A).
Proof. solve_decision. Defined.

#[export] Instance res_ret : MRet res := λ A a, Ok a.
#[export] Instance res_bind : MBind res := λ A B f r,
  match r with Ok a => f a | Err e => Err e end.
#[export] Instance res_fmap : FMap res := λ A B f r,
  match r with Ok a => Ok (f a) | Err e => Err e end.

Lemma res_bind_ok {A B} (r : res A) (f : A → res B) b :
  (r ≫= f) = Ok b ↔ ∃ a, r = Ok a ∧ f a = Ok b.
Proof. destruct r; cbn; naive_solver. Qed.

(** [r ;; k] for a check [r]. *)
Lemma res_seq_ok {A} (r : res unit) (k : res A) b :
  (r ;; k) = Ok b ↔ r = Ok tt ∧ k = Ok b.
Proof. destruct r as [[]|]; cbn; naive_solver. Qed.

Definition is_ok {A} (r : res A) : bool :=
  match r with Ok _ => true | Err _ => false end.

Definition M (S A : Type) : Type := S → res A * S.

#[export] Instance M_ret S : MRet (M S) := λ A a s, (Ok a, s).
#[export] Instance M_bind S : MBind (M S) := λ A B f m s,
  match m s with
  | (Ok a, s') => f a s'
  | (Err e, s') => (Err e, s')
  end.

Section combinators.
Context {S : Type}.

Definition throw {A} (e : error) : M S A := λ s, (Err e, s).
Definition gets {A} (f : S → A) : M S A := λ s, (Ok (f s), s).
Definition modify (f : S → S) : M S unit := λ s, (Ok tt, f s).
Definition lift_res {A} (r : res A) : M S A := λ s, (r, s).

(** [v, err := m] where the caller looks at [err] itself. *)
Definition attempt {A} (m : M S A) : M S (res A) := λ s,
  let '(r, s') := m s in (Ok r, s').

(** [if b { return err }]. *)
Definition reject_if (b : bool) (e : error) : M S unit :=
  if b then throw e else mret tt.

(** A query that returns at most one row, [pgx.ErrNoRows] mapped to [e]. *)
Definition row_or {A} (e : error) (o : option A) : M S A :=
  match o with Some a => mret a | None => throw e end.

(** [tx := Begin(); defer tx.Rollback(); ...; tx.Commit()]. *)
Definition transaction {A} (m : M S A) : M S A := λ s,
  match m s with
  | (Ok a, s') => (Ok a, s')
  | (Err e, _) => (Err e, s)
  end.
End combinators.

(** Run a computation on a part of a larger state. *)
Definition zoom {S T A} (get : T → S) (put : S → T → T) (m : M S A) : M T A := λ t,
  let '(r, s') := m (get t) in (r, put s' t).

Section combinator_lemmas.
Context {S : Type}.

Lemma bind_ok {A B} (m : M S A) (f : A → M S B) s b s'' :
  (m ≫= f) s = (Ok b, s'') ↔ ∃ a s', m s = (Ok a, s') ∧ f a s' = (Ok b, s'').
Proof.
  unfold mbind, M_bind. split.
  - destruct (m s) as [[a|e] s']; intros H; [eauto | done].
  - intros (a & s' & Hm & Hf). by rewrite Hm.
Qed.

Lemma bind_err {A B} (m : M S A) (f : A → M S B) s e s'' :
  (m ≫= f) s = (Err e, s'') ↔
    m s = (Err e, s'') ∨ ∃ a s', m s = (Ok a, s') ∧ f a s' = (Err e, s'').
Proof.
  unfold mbind, M_bind. destruct (m s) as [[a|e'] s'] eqn:Hm; split.
  - eauto 6.
  - intros [?|(? & ? & ? & ?)]; [done | by simplify_eq].
  - naive_solver.
  - intros [?|(? & ? & ? & ?)]; by simplify_eq.
Qed.

Lemma bind_ret_l {A B} (a : A) (f : A → M S B) s : (mret a ≫= f) s = f a s.
Proof. done. Qed.

Lemma transaction_ok {A} (m : M S A) s a s' :
  transaction m s = (Ok a, s') ↔ m s = (Ok a, s').
Proof. unfold transaction. destruct (m s) as [[?|?] ?]; naive_solver. Qed.

(** A failed transaction leaves no trace. *)
Lemma transaction_err {A} (m : M S A) s e s' :
  transaction m s = (Err e, s') → s' = s.
Proof. unfold transaction. destruct (m s) as [[?|?] ?]; naive_solver. Qed.

Lemma transaction_err_iff {A} (m : M S A) s e s' :
  transaction m s = (Err e, s') ↔ s' = s ∧ ∃ s1, m s = (Err e, s1).
Proof. unfold transaction. destruct (m s) as [[?|?] ?]; naive_solver. Qed.

Lemma reject_if_ok b e (s s' : S) u :
  reject_if b e s = (Ok u, s') ↔ b = false ∧ s' = s.
Proof. destruct b, u; cbv; naive_solver. Qed.

Lemma row_or_ok {A} e (o : option A) (s s' : S) a :
  row_or e o s = (Ok a, s') ↔ o = Some a ∧ s' = s.
Proof. destruct o; cbv; naive_solver. Qed.

Lemma lift_res_ok {A} (r : res A) (s s' : S) a :
  lift_res r s = (Ok a, s') ↔ r = Ok a ∧ s' = s.
Proof. destruct r; cbv; naive_solver. Qed.
(** The same at the head of a computation. *)
Lemma bind_gets_ok {A B} (f : S → A) (k : A → M S B) s b s' :
  (gets f ≫= k) s = (Ok b, s') ↔ k (f s) s = (Ok b, s').
Proof. done. Qed.
Lemma bind_reject_ok {B} c e (k : unit → M S B) s b s' :
  (reject_if c e ≫= k) s = (Ok b, s') ↔ c = false ∧ k tt s = (Ok b, s').
Proof. destruct c; cbv; naive_solver. Qed.
Lemma bind_row_ok {A B} e (o : option A) (k : A → M S B) s b s' :
  (row_or e o ≫= k) s = (Ok b, s') ↔ ∃ a, o = Some a ∧ k a s = (Ok b, s').
Proof. destruct o; cbv; naive_solver. Qed.
Lemma bind_lift_ok {A B} (r : res A) (k : A → M S B) s b s' :
  (lift_res r ≫= k) s = (Ok b, s') ↔ ∃ a, r = Ok a ∧ k a s = (Ok b, s').
Proof. destruct r; cbv; naive_solver. Qed.
(** The same as equations. *)
Lemma bind_gets_run {A B} (f : S → A) (k : A → M S B) s : (gets f ≫= k) s = k (f s) s.
Proof. done. Qed.
Lemma bind_reject_run {B} (b : bool) e (k : unit → M S B) s :
  (reject_if b e ≫= k) s = if b then (Err e, s) else k tt s.
Proof. by destruct b. Qed.
End combinator_lemmas.

(** Running a computation on a concrete state: a boolean test of the outcome is all
    that is evaluated. *)
Definition succeeds_with {S A} (test : A → S → bool) (m : M S A) (s : S) : bool :=
  match m s with
  | (Ok a, s') => test a s'
  | (Err _, _) => false
  end.

Lemma run_check {S A} (test : A → S → bool) (m : M S A) s :
  succeeds_with test m s = true → ∃ a s', m s = (Ok a, s') ∧ test a s' = true.
Proof. unfold succeeds_with. destruct (m s) as [[a|e] s']; [eauto | done]. Qed.

Lemma run_succeeds {S A} (m : M S A) s :
  succeeds_with (λ _ _, true) m s = true → ∃ a s', m s = (Ok a, s').
Proof. intros (a & s' & H & _)%run_check. eauto. Qed.

(** A computation that never changes the state. *)
Definition read_only {S A} (m : M S A) : Prop := ∀ s, (m s).2 = s.

Create HintDb rtk.
Create Rewrite HintDb rtk.
Create Rewrite HintDb checks.

Section read_only_lemmas.
Context {S : Type}.

Lemma read_only_ret {A} (a : A) : read_only (S:=S) (mret a).
Proof. done. Qed.
Lemma read_only_throw {A} e : read_only (S:=S) (A:=A) (throw e).
Proof. done. Qed.
Lemma read_only_gets {A} (f : S → A) : read_only (gets f).
Proof. done. Qed.
Lemma read_only_lift {A} (r : res A) : read_only (S:=S) (lift_res r).
Proof. done. Qed.
Lemma read_only_row_or {A} e (o : option A) : read_only (S:=S) (row_or e o).
Proof. by destruct o. Qed.
Lemma read_only_reject_if b e : read_only (S:=S) (reject_if b e).
Proof. by destruct b. Qed.
Lemma read_only_bind {A B} (m : M S A) (f : A → M S B) :
  read_only m → (∀ a, read_only (f a)) → read_only (m ≫= f).
Proof.
  intros Hm Hf s. unfold mbind, M_bind. specialize (Hm s).
  destruct (m s) as [[a|e] s']; simpl in *; subst; [apply Hf | done].
Qed.
Lemma read_only_attempt {A} (m : M S A) : read_only m → read_only (attempt m).
Proof. intros Hm s. unfold attempt. specialize (Hm s). by destruct (m s). Qed.
Lemma read_only_transaction {A} (m : M S A) : read_only m → read_only (transaction m).
Proof. intros Hm s. unfold transaction. specialize (Hm s). by destruct (m s) as [[]]. Qed.
Lemma read_only_ok {A} (m : M S A) s r s' : read_only m → m s = (r, s') → s' = s.
Proof. intros Hm H. specialize (Hm s). by rewrite H in Hm. Qed.
End read_only_lemmas.

#[export] Hint Resolve read_only_ret read_only_throw read_only_gets read_only_lift
  read_only_row_or read_only_reject_if read_only_bind read_only_attempt
  read_only_transaction : rtk.

(** A computation that writes last: when it fails it has changed nothing. *)
Definition writes_last {S A} (m : M S A) : Prop := ∀ s e s', m s = (Err e, s') → s' = s.

Section writes_last_lemmas.
Context {S : Type}.

Lemma writes_last_read_only {A} (m : M S A) : read_only m → writes_last m.
Proof. intros Hm s e s'. by apply read_only_ok. Qed.
Lemma writes_last_write {A} (f : S → S) (a : A) : writes_last (modify f ;; mret a).
Proof. done. Qed.
Lemma writes_last_bind {A B} (m : M S A) (f : A → M S B) :
  read_only m → (∀ a, writes_last (f a)) → writes_last (m ≫= f).
Proof.
  intros Hm Hf s e s' [H|(a & s1 & H1 & H2)]%bind_err.
  - by apply (read_only_ok _ _ _ _ Hm) in H.
  - apply (read_only_ok _ _ _ _ Hm) in H1 as ->. by eapply Hf.
Qed.
Lemma writes_last_transaction {A} (m : M S A) : writes_last (transaction m).
Proof. intros s e s'. apply transaction_err. Qed.
End writes_last_lemmas.

#[export] Hint Resolve writes_last_read_only writes_last_write writes_last_bind
  writes_last_transaction : rtk.

(** Every run of a computation, successful or not, relates its states by [R]. *)
Definition steps {S A} (R : relation S) (m : M S A) : Prop := ∀ s r s', m s = (r, s') → R s s'.

Section steps_lemmas.
Context {S : Type} (R : relation S) `{!PreOrder R}.

Lemma steps_ret {A} (a : A) : steps R (mret a).
Proof. intros s r s' [= _ <-]. reflexivity. Qed.
Lemma steps_throw {A} e : steps R (throw (A:=A) e).
Proof. intros s r s' [= _ <-]. reflexivity. Qed.
Lemma steps_bind {A B} (m : M S A) (f : A → M S B) :
  steps R m → (∀ a, steps R (f a)) → steps R (m ≫= f).
Proof.
  intros Hm Hf s r s'. unfold mbind, M_bind. destruct (m s) as [[a|e] s1] eqn:E.
  - intros H. etrans; [by eapply Hm|by eapply Hf].
  - intros [= _ <-]. by eapply Hm.
Qed.
Lemma steps_attempt {A} (m : M S A) : steps R m → steps R (attempt m).
Proof.
  intros Hm s r s'. unfold attempt. destruct (m s) as [r1 s1] eqn:E. intros [= _ <-]. by eapply Hm.
Qed.
End steps_lemmas.

#[export] Hint Resolve steps_ret steps_throw steps_bind steps_attempt : rtk.

(** ** Lists *)

Lemma forallb_Forall {A} (f : A → bool) l : forallb f l = true ↔ Forall (λ x, f x = true) l.
Proof.
  induction l as [|x l IH]; simpl; [split; [constructor | done]|].
  by rewrite andb_true_iff, IH, Forall_cons.
Qed.

(** ** Tactics *)

(** Take a successful monadic run apart, one bind at a time. *)
Ltac inv_run :=
  repeat match goal with
  | H : (_ ≫= _) _ = (Ok _, _) |- _ =>
      let a := fresh "a" in let s := fresh "s" in
      apply bind_ok in H as (a & s & ? & H); simpl in *
  | H : transaction _ _ = (Ok _, _) |- _ => rewrite transaction_ok in H
  | H : reject_if _ _ _ = (Ok _, _) |- _ => apply reject_if_ok in H as [? ?]
  | H : row_or _ _ _ = (Ok _, _) |- _ => apply row_or_ok in H as [? ?]
  | H : lift_res _ _ = (Ok _, _) |- _ => apply lift_res_ok in H as [? ?]
  | H : gets _ _ = (Ok _, _) |- _ => unfold gets in H
  | H : modify _ _ = (Ok _, _) |- _ => unfold modify in H
  | H : mret _ _ = (Ok _, _) |- _ => unfold mret, M_ret in H
  | H : throw _ _ = (Ok _, _) |- _ => discriminate H
  | H : (Ok _, _) = (Ok _, _) |- _ => injection H as H; subst
  | _ => progress simplify_eq
  end.

(** Evaluate the monad's plumbing in the goal. *)
Ltac run_simpl :=
  repeat (unfold mbind, M_bind, mret, M_ret, gets, modify, throw, row_or, reject_if,
            lift_res, attempt, transaction in *; simpl in *).

Ltac destruct_bools :=
  repeat match goal with
  | H : (_ && _) = true |- _ => apply andb_true_iff in H as [? ?]
  | H : (_ || _) = false |- _ => apply orb_false_iff in H as [? ?]
  | H : negb _ = true |- _ => apply negb_true_iff in H
  | H : negb _ = false |- _ => apply negb_false_iff in H
  | H : bool_decide _ = true |- _ => apply bool_decide_eq_true in H
  | H : bool_decide _ = false |- _ => apply bool_decide_eq_false in H
  end.
