(* ===== verification/GoStd.v ===== *)
(** * The parts of Go's standard library the modelled code uses

    Strings are byte strings ([string] of [ascii]).  [strings.TrimSpace] strips
    the Unicode white space of the UTF-8 text; [strings.ToLower] is modelled on
    ASCII letters (its callers hand the result to a hex check, which refuses
    every other letter).  [time.Time] is an instant with a zone offset. *)

From S2P Require Export Prelude.

Local Open Scope Z_scope.

Abbreviation bytes := (list ascii).

Definition byte_is (n : N) (c : ascii) : bool := (N_of_ascii c =? n)%N.
Definition byte_in (lo hi : N) (c : ascii) : bool :=
  (lo <=? N_of_ascii c)%N && (N_of_ascii c <=? hi)%N.

Definition to_bytes (s : string) : bytes := String.list_ascii_of_string s.
Definition of_bytes (l : bytes) : string := String.string_of_list_ascii l.
Definition str_len (s : string) : Z := Z.of_nat (String.length s).

(** [int64] arithmetic wraps. *)
Definition wrap64 (z : Z) : Z := (z + 2 ^ 63) mod 2 ^ 64 - 2 ^ 63.

Lemma wrap64_id z : - 2 ^ 63 ≤ z < 2 ^ 63 → wrap64 z = z.
Proof. unfold wrap64. intros. rewrite Z.mod_small; lia. Qed.

(** ** package strings *)

Definition ascii_space (c : ascii) : bool := byte_in 9 13 c || byte_is 32 c.
(** U+0085, U+00A0 *)
Definition space2 (c1 c2 : ascii) : bool := byte_is 194 c1 && (byte_is 133 c2 || byte_is 160 c2).
(** U+1680, U+2000..U+200A, U+2028, U+2029, U+202F, U+205F, U+3000 *)
Definition space3 (c1 c2 c3 : ascii) : bool :=
  (byte_is 225 c1 && byte_is 154 c2 && byte_is 128 c3) ||
  (byte_is 226 c1 && byte_is 128 c2 &&
     (byte_in 128 138 c3 || byte_is 168 c3 || byte_is 169 c3 || byte_is 175 c3)) ||
  (byte_is 226 c1 && byte_is 129 c2 && byte_is 159 c3) ||
  (byte_is 227 c1 && byte_is 128 c2 && byte_is 128 c3).

(** Remove one white-space rune at the head, given the tests for runes of two
    and three bytes in reading order. *)
Definition strip_head (sp2 : ascii → ascii → bool) (sp3 : ascii → ascii → ascii → bool)
    (l : bytes) : option bytes :=
  match l with
  | [] => None
  | c1 :: r1 =>
      if ascii_space c1 then Some r1 else
      match r1 with
      | [] => None
      | c2 :: r2 =>
          if sp2 c1 c2 then Some r2 else
          match r2 with
          | [] => None
          | c3 :: r3 => if sp3 c1 c2 c3 then Some r3 else None
          end
      end
  end.

Fixpoint trim_head (fuel : nat) sp2 sp3 (l : bytes) : bytes :=
  match fuel with
  | O => l
  | S fuel =>
      match strip_head sp2 sp3 l with
      | Some r => trim_head fuel sp2 sp3 r
      | None => l
      end
  end.

Definition trim_left (l : bytes) : bytes := trim_head (length l) space2 space3 l.
Definition trim_right (l : bytes) : bytes :=
  reverse (trim_head (length l) (λ a b, space2 b a) (λ a b c, space3 c b a) (reverse l)).

Definition TrimSpace (s : string) : string :=
  of_bytes (trim_right (trim_left (to_bytes s))).

(** [strings.TrimSpace(s) == ""] *)
Definition blank (s : string) : bool := bool_decide (TrimSpace s = "").

Definition lower_ascii (c : ascii) : ascii :=
  if byte_in 65 90 c then ascii_of_N (N_of_ascii c + 32) else c.
Definition upper_ascii (c : ascii) : ascii :=
  if byte_in 97 122 c then ascii_of_N (N_of_ascii c - 32) else c.
Definition ToLower (s : string) : string := of_bytes (lower_ascii <$> to_bytes s).

Definition HasPrefix (s prefix : string) : bool := String.prefix prefix s.

(** The case folding of [encoding/json]'s field lookup, on ASCII letters. *)
Definition fold_name (s : string) : string := of_bytes (upper_ascii <$> to_bytes s).

(** [%q] (strconv.Quote): printable text, with the quote and the backslash
    escaped and control characters as [\xNN]; bytes from 128 on stay. *)
Definition hex_char (n : N) : ascii :=
  if (n <? 10)%N then ascii_of_N (48 + n) else ascii_of_N (87 + n).
Definition quote_char (c : ascii) : bytes :=
  if byte_is 34 c || byte_is 92 c then [ascii_of_N 92; c]
  else if byte_is 9 c then [ascii_of_N 92; "t"%char]
  else if byte_is 10 c then [ascii_of_N 92; "n"%char]
  else if byte_is 13 c then [ascii_of_N 92; "r"%char]
  else if (N_of_ascii c <? 32)%N || byte_is 127 c then
    [ascii_of_N 92; "x"%char; hex_char (N_of_ascii c / 16); hex_char (N_of_ascii c mod 16)]
  else [c].
Definition quote (s : string) : string :=
  of_bytes ([ascii_of_N 34] ++ (to_bytes s ≫= quote_char) ++ [ascii_of_N 34]).

(** ** package encoding/hex *)

Definition hex_value (c : ascii) : option N :=
  if byte_in 48 57 c then Some (N_of_ascii c - 48)%N
  else if byte_in 97 102 c then Some (N_of_ascii c - 87)%N
  else if byte_in 65 70 c then Some (N_of_ascii c - 55)%N
  else None.

Definition is_hex (c : ascii) : bool := bool_decide (is_Some (hex_value c)).

Fixpoint hex_decode (l : bytes) : option bytes :=
  match l with
  | [] => Some []
  | [_] => None
  | h :: l :: r =>
      h ← hex_value h; l ← hex_value l; rest ← hex_decode r;
      Some (ascii_of_N (h * 16 + l) :: rest)
  end.

(** [hex.DecodeString] *)
Definition hex_DecodeString (s : string) : option bytes := hex_decode (to_bytes s).

(** [hex.EncodeToString] *)
Definition hex_byte (b : N) : bytes := [hex_char (b / 16); hex_char (b mod 16)].
Definition hex_EncodeToString (data : list N) : string := of_bytes (data ≫= hex_byte).

(** ** package encoding/base64, StdEncoding *)

Definition b64_char (n : N) : ascii :=
  if (n <? 26)%N then ascii_of_N (65 + n)
  else if (n <? 52)%N then ascii_of_N (71 + n)
  else if (n <? 62)%N then ascii_of_N (n - 4)
  else if (n =? 62)%N then "+"%char else "/"%char.

Definition b64_value (c : ascii) : option N :=
  if byte_in 65 90 c then Some (N_of_ascii c - 65)%N
  else if byte_in 97 122 c then Some (N_of_ascii c - 71)%N
  else if byte_in 48 57 c then Some (N_of_ascii c + 4)%N
  else if byte_is 43 c then Some 62%N
  else if byte_is 47 c then Some 63%N
  else None.

Definition pad_char : ascii := "="%char.

Fixpoint b64_encode (l : bytes) : bytes :=
  match l with
  | [] => []
  | [a] =>
      let a := N_of_ascii a in
      [b64_char (a / 4); b64_char (a mod 4 * 16); pad_char; pad_char]
  | [a; b] =>
      let a := N_of_ascii a in let b := N_of_ascii b in
      [b64_char (a / 4); b64_char (a mod 4 * 16 + b / 16); b64_char (b mod 16 * 4); pad_char]
  | a :: b :: c :: r =>
      let a := N_of_ascii a in let b := N_of_ascii b in let c := N_of_ascii c in
      b64_char (a / 4) :: b64_char (a mod 4 * 16 + b / 16) ::
      b64_char (b mod 16 * 4 + c / 64) :: b64_char (c mod 64) :: b64_encode r
  end.

Fixpoint b64_decode (l : bytes) : option bytes :=
  match l with
  | [] => Some []
  | w :: x :: y :: z :: r =>
      w ← b64_value w; x ← b64_value x;
      let a := ascii_of_N (w * 4 + x / 16) in
      if byte_is 61 y && byte_is 61 z then (if r is [] then Some [a] else None)
      else
        y ← b64_value y;
        let b := ascii_of_N (x mod 16 * 16 + y / 4) in
        if byte_is 61 z then (if r is [] then Some [a; b] else None)
        else
          z ← b64_value z;
          rest ← b64_decode r;
          Some (a :: b :: ascii_of_N (y mod 4 * 64 + z) :: rest)
  | _ => None
  end.

Definition b64_EncodeToString (s : string) : string := of_bytes (b64_encode (to_bytes s)).
(** Line breaks inside the text are ignored, as the decoder does. *)
Definition b64_DecodeString (s : string) : option string :=
  of_bytes <$> b64_decode (filter (λ c, byte_is 10 c || byte_is 13 c = false) (to_bytes s)).

(** ** package unicode/utf8 *)

Definition cont (c : ascii) : bool := byte_in 128 191 c.

(** The bytes after the first rune, when the text starts with a well-formed one. *)
Definition next_rune (l : bytes) : option bytes :=
  match l with
  | [] => None
  | c1 :: r1 =>
      if byte_in 0 127 c1 then Some r1 else
      match r1 with
      | [] => None
      | c2 :: r2 =>
          if byte_in 194 223 c1 && cont c2 then Some r2 else
          match r2 with
          | [] => None
          | c3 :: r3 =>
              if cont c3 && ((byte_is 224 c1 && byte_in 160 191 c2) ||
                   (byte_in 225 236 c1 && cont c2) || (byte_is 237 c1 && byte_in 128 159 c2) ||
                   (byte_in 238 239 c1 && cont c2)) then Some r3 else
              match r3 with
              | [] => None
              | c4 :: r4 =>
                  if cont c3 && cont c4 && ((byte_is 240 c1 && byte_in 144 191 c2) ||
                       (byte_in 241 243 c1 && cont c2) || (byte_is 244 c1 && byte_in 128 143 c2))
                  then Some r4 else None
              end
          end
      end
  end.

Fixpoint valid_runes (fuel : nat) (l : bytes) : bool :=
  match l, fuel with
  | [], _ => true
  | _, O => false
  | _, S fuel => match next_rune l with Some r => valid_runes fuel r | None => false end
  end.

(** [utf8.Valid] *)
Definition utf8_Valid (s : string) : bool := valid_runes (String.length s) (to_bytes s).

(** [utf8.RuneError] as text: U+FFFD. *)
Definition RuneError : bytes := [ascii_of_N 239; ascii_of_N 191; ascii_of_N 189].

(** Every maximal run of bytes that start no rune becomes one replacement. *)
Fixpoint valid_or_replaced (fuel : nat) (in_run : bool) (repl l : bytes) : bytes :=
  match l, fuel with
  | [], _ => []
  | _, O => l
  | c :: r, S fuel =>
      match next_rune l with
      | Some rest =>
          take (length l - length rest) l ++ valid_or_replaced fuel false repl rest
      | None => (if in_run then [] else repl) ++ valid_or_replaced fuel true repl r
      end
  end.

(** [strings.ToValidUTF8(s, string(utf8.RuneError))] *)
Definition ToValidUTF8 (s : string) : string :=
  of_bytes (valid_or_replaced (String.length s) false RuneError (to_bytes s)).

(** ** Lemmas *)

(** Check a decidable fact below a bound by evaluation. *)
Lemma N_below (f : N → bool) (bound : nat) (n : N) :
  forallb (λ k, f (N.of_nat k)) (seq 0 bound) = true → (n < N.of_nat bound)%N → f n = true.
Proof.
  rewrite forallb_Forall, Forall_forall. intros H Hn. rewrite <-(N2Nat.id n).
  apply H, elem_of_seq. lia.
Qed.

Lemma b64_value_char n : (n < 64)%N → b64_value (b64_char n) = Some n.
Proof.
  intros Hn. pose proof (N_below (λ n, bool_decide (b64_value (b64_char n) = Some n)) 64 n) as H.
  eapply bool_decide_eq_true_1. apply H; [by vm_compute | done].
Qed.

(** The alphabet holds neither the padding nor line breaks. *)
Definition plain_char (c : ascii) : bool :=
  negb (byte_is 61 c) && negb (byte_is 10 c || byte_is 13 c).
Lemma b64_char_plain n : (n < 64)%N → plain_char (b64_char n) = true.
Proof. intros Hn. apply (N_below (λ n, plain_char (b64_char n)) 64 n); [by vm_compute | done]. Qed.

Lemma N_of_ascii_lt c : (N_of_ascii c < 256)%N.
Proof. apply N_ascii_bounded. Qed.

(** Bounds and recombinations of six-bit groups. *)
Ltac bits :=
  repeat match goal with
  | |- context [N_of_ascii ?c] =>
      pose proof (N_of_ascii_lt c); generalize dependent (N_of_ascii c); intros
  end;
  zify; Z.to_euclidean_division_equations; lia.

(** Three bytes at a time. *)
Lemma bytes_ind3 (P : bytes → Prop) :
  P [] → (∀ a, P [a]) → (∀ a b, P [a; b]) → (∀ a b c r, P r → P (a :: b :: c :: r)) → ∀ l, P l.
Proof.
  intros H0 H1 H2 H3 l. assert (∀ n l, (length l < n)%nat → P l) as H;
    [|apply (H (S (length l))); lia].
  induction n as [|n IH]; [lia|]. intros [|a [|b [|c r]]] Hl; simpl in *; auto.
  apply H3, IH. lia.
Qed.

Lemma ascii_eq n c : n = N_of_ascii c → ascii_of_N n = c.
Proof. intros ->. apply ascii_N_embedding. Qed.

Lemma b64_char_not_pad n : (n < 64)%N → byte_is 61 (b64_char n) = false.
Proof. intros Hn%b64_char_plain. unfold plain_char in Hn. by destruct (byte_is 61 _). Qed.

#[local] Arguments b64_char : simpl never.
#[local] Arguments b64_value : simpl never.
#[local] Arguments byte_is : simpl never.
#[local] Arguments N.div : simpl never.
#[local] Arguments N.modulo : simpl never.
#[local] Arguments N.mul : simpl never.
#[local] Arguments N.add : simpl never.

Lemma b64_decode_encode l : b64_decode (b64_encode l) = Some l.
Proof.
  induction l as [|a|a b|a b c r IH] using bytes_ind3; [done|..]; simpl.
  - rewrite !b64_value_char by bits. simpl. rewrite (ascii_eq _ a) by bits. done.
  - rewrite !b64_value_char by bits. simpl. rewrite b64_char_not_pad by bits. simpl.
    rewrite (ascii_eq _ a), (ascii_eq _ b) by bits. done.
  - rewrite !b64_value_char by bits. simpl. rewrite !b64_char_not_pad by bits. simpl.
    rewrite IH. simpl.
    rewrite (ascii_eq _ a), (ascii_eq _ b), (ascii_eq _ c) by bits. done.
Qed.

Lemma b64_encode_no_breaks l :
  Forall (λ c, (byte_is 10 c || byte_is 13 c) = false) (b64_encode l).
Proof.
  assert (∀ n, (n < 64)%N → (byte_is 10 (b64_char n) || byte_is 13 (b64_char n)) = false) as H.
  { intros n Hn%b64_char_plain. unfold plain_char in Hn. by destruct (_ || _), (byte_is 61 _). }
  induction l as [|a|a b|a b c r IH] using bytes_ind3; simpl;
    repeat (constructor; [first [reflexivity | apply H; bits]|]); done || constructor.
Qed.

Lemma filter_all {A} (P : A → Prop) `{∀ x, Decision (P x)} l : Forall P l → filter P l = l.
Proof.
  induction 1 as [|x l Hx _ IH]; [done|]. rewrite filter_cons_True by done. by rewrite IH.
Qed.

Lemma b64_DecodeString_EncodeToString s : b64_DecodeString (b64_EncodeToString s) = Some s.
Proof.
  unfold b64_DecodeString, b64_EncodeToString, to_bytes, of_bytes.
  rewrite String.list_ascii_of_string_of_list_ascii.
  rewrite filter_all by apply b64_encode_no_breaks.
  rewrite b64_decode_encode. simpl. by rewrite String.string_of_list_ascii_of_string.
Qed.

(** Text that is already valid is its own valid form. *)
Lemma next_rune_suffix l r : next_rune l = Some r → ∃ p, p ≠ [] ∧ l = p ++ r.
Proof.
  unfold next_rune. destruct l as [|c1 [|c2 [|c3 [|c4 r4]]]]; repeat (case_match; try done);
    intros; simplify_eq;
    first [by exists [c1] | by exists [c1; c2] | by exists [c1; c2; c3] | by exists [c1; c2; c3; c4]].
Qed.

#[local] Arguments next_rune : simpl never.
Lemma valid_or_replaced_valid fuel b repl l :
  valid_runes fuel l = true → valid_or_replaced fuel b repl l = l.
Proof.
  revert b l. induction fuel as [|fuel IH]; intros b [|c l]; try done.
  cbn [valid_runes valid_or_replaced].
  destruct (next_rune (c :: l)) as [r|] eqn:Hr; [|done].
  intros Hv. rewrite IH by done.
  destruct (next_rune_suffix _ _ Hr) as (p & _ & E). rewrite E, length_app.
  replace (length p + length r - length r)%nat with (length p) by lia.
  by rewrite take_app_length.
Qed.

Lemma ToValidUTF8_valid s : utf8_Valid s = true → ToValidUTF8 s = s.
Proof.
  unfold utf8_Valid, ToValidUTF8. intros H. rewrite valid_or_replaced_valid by done.
  unfold to_bytes, of_bytes. apply String.string_of_list_ascii_of_string.
Qed.

(** Trimming twice is trimming once. *)
Section trimming.
Context (sp2 : ascii → ascii → bool) (sp3 : ascii → ascii → ascii → bool).

Lemma strip_head_suffix l r : strip_head sp2 sp3 l = Some r → ∃ p, p ≠ [] ∧ l = p ++ r.
Proof.
  unfold strip_head. destruct l as [|c1 [|c2 [|c3 l]]]; repeat (case_match; try done);
    intros; simplify_eq;
    first [by exists [c1] | by exists [c1; c2] | by exists [c1; c2; c3]].
Qed.

Lemma strip_head_app l r q : strip_head sp2 sp3 l = Some r → is_Some (strip_head sp2 sp3 (l ++ q)).
Proof.
  unfold strip_head. destruct l as [|c1 [|c2 [|c3 l]]]; simpl; repeat (case_match; try done).
Qed.

Lemma trim_head_fixed fuel l : strip_head sp2 sp3 l = None → trim_head fuel sp2 sp3 l = l.
Proof. intros H. destruct fuel; simpl; [done|]. by rewrite H. Qed.

Lemma trim_head_stripped fuel l :
  (length l ≤ fuel)%nat → strip_head sp2 sp3 (trim_head fuel sp2 sp3 l) = None.
Proof.
  revert l. induction fuel as [|fuel IH]; intros l Hl.
  - by destruct l; [|simpl in Hl; lia].
  - simpl. destruct (strip_head sp2 sp3 l) as [r|] eqn:E; [|done].
    apply IH. apply strip_head_suffix in E as ([|x p] & ? & ->); [done|].
    simpl in Hl. rewrite length_app in Hl. lia.
Qed.

Lemma trim_head_suffix fuel l : ∃ p, l = p ++ trim_head fuel sp2 sp3 l.
Proof.
  revert l. induction fuel as [|fuel IH]; intros l; simpl; [by exists []|].
  destruct (strip_head sp2 sp3 l) as [r|] eqn:E; [|by exists []].
  apply strip_head_suffix in E as (p & _ & ->). destruct (IH r) as [p' Hp].
  exists (p ++ p'). by rewrite <-app_assoc, <-Hp.
Qed.
End trimming.

Lemma trim_right_fixed l :
  strip_head (λ a b, space2 b a) (λ a b c, space3 c b a) (reverse l) = None → trim_right l = l.
Proof. intros H. unfold trim_right. by rewrite trim_head_fixed, reverse_involutive. Qed.

Lemma trim_right_prefix l : ∃ q, l = trim_right l ++ q.
Proof.
  unfold trim_right. destruct (trim_head_suffix (λ a b, space2 b a) (λ a b c, space3 c b a)
    (length l) (reverse l)) as [p Hp].
  exists (reverse p). rewrite <-reverse_app, <-Hp. by rewrite reverse_involutive.
Qed.

Lemma TrimSpace_idemp s : TrimSpace (TrimSpace s) = TrimSpace s.
Proof.
  unfold TrimSpace, to_bytes, of_bytes. f_equal.
  rewrite String.list_ascii_of_string_of_list_ascii.
  set (l := trim_left (String.list_ascii_of_string s)).
  assert (strip_head space2 space3 l = None) as Hl by by apply trim_head_stripped.
  assert (strip_head space2 space3 (trim_right l) = None) as Hr.
  { destruct (trim_right_prefix l) as [q Hq].
    destruct (strip_head space2 space3 (trim_right l)) as [r|] eqn:E; [|done].
    apply (strip_head_app _ _ _ _ q) in E as [? E]. rewrite <-Hq in E. congruence. }
  unfold trim_left at 1. rewrite trim_head_fixed by done.
  apply trim_right_fixed. unfold trim_right. rewrite reverse_involutive.
  apply trim_head_stripped. by rewrite length_reverse.
Qed.

Lemma blank_TrimSpace s : blank (TrimSpace s) = blank s.
Proof. unfold blank. by rewrite TrimSpace_idemp. Qed.

(** Text whose head is not white space is not blank. *)
Lemma trim_head_all_space fuel m :
  trim_head fuel (λ a b, space2 b a) (λ a b c, space3 c b a) (reverse m) = [] → m ≠ [] →
  is_Some (strip_head space2 space3 m).
Proof.
  revert m. induction fuel as [|fuel IH]; intros m; simpl.
  - intros H Hm. destruct Hm. by rewrite <-(reverse_involutive m), H.
  - destruct (strip_head _ _ (reverse m)) as [r|] eqn:E; [|intros H Hm; destruct Hm;
      by rewrite <-(reverse_involutive m), H].
    intros H _.
    assert (∃ p, m = reverse r ++ p ∧ is_Some (strip_head space2 space3 p)) as (p & -> & Hp).
    { unfold strip_head in E. rewrite <-(reverse_involutive m).
      destruct (reverse m) as [|c1 l]; [done|]. destruct (ascii_space c1) eqn:Ea.
      { injection E as <-. exists [c1]. rewrite reverse_cons. split; [done|]. simpl. by rewrite Ea. }
      destruct l as [|c2 l]; [done|]. destruct (space2 c2 c1) eqn:Eb.
      { injection E as <-. exists [c2; c1]. rewrite !reverse_cons, <-app_assoc. split; [done|].
        simpl. rewrite Eb. by destruct (ascii_space c2). }
      destruct l as [|c3 l]; [done|]. destruct (space3 c3 c2 c1) eqn:Ec; [|done].
      injection E as <-. exists [c3; c2; c1]. rewrite !reverse_cons, <-!app_assoc. split; [done|].
      simpl. rewrite Ec. by destruct (ascii_space c3), (space2 c3 c2). }
    destruct (decide (reverse r = [])) as [->|Hne]; [by rewrite app_nil_l|].
    rewrite <-(reverse_involutive r) in H. apply IH in H as [x Hx]; [|done].
    by eapply strip_head_app.
Qed.

Lemma blank_head l : strip_head space2 space3 l = None → l ≠ [] → blank (of_bytes l) = false.
Proof.
  intros Hs Hl. unfold blank. apply bool_decide_eq_false. unfold TrimSpace, to_bytes, of_bytes.
  rewrite String.list_ascii_of_string_of_list_ascii. unfold trim_left. rewrite trim_head_fixed by done.
  intros E. assert (trim_right l = []) as E'.
  { by destruct (trim_right l). }
  unfold trim_right in E'. destruct (trim_head_all_space (length l) l) as [x Hx]; [|done|congruence].
  apply (f_equal reverse) in E'. by rewrite reverse_involutive in E'.
Qed.

Lemma TrimSpace_head s : blank s = false →
  strip_head space2 space3 (to_bytes (TrimSpace s)) = None ∧ to_bytes (TrimSpace s) ≠ [].
Proof.
  intros Hb. split.
  - unfold TrimSpace, to_bytes, of_bytes. rewrite String.list_ascii_of_string_of_list_ascii.
    set (l := trim_left _). assert (strip_head space2 space3 l = None) as Hl by by apply trim_head_stripped.
    destruct (trim_right_prefix l) as [q Hq].
    destruct (strip_head space2 space3 (trim_right l)) as [r|] eqn:E; [|done].
    apply (strip_head_app _ _ _ _ q) in E as [? E]. rewrite <-Hq in E. congruence.
  - intros E. unfold blank in Hb. apply bool_decide_eq_false in Hb. destruct Hb.
    by destruct (TrimSpace s).
Qed.

(** Text of printable ASCII without blanks is not trimmed. *)
Definition printable (c : ascii) : bool := byte_in 33 126 c.

Lemma printable_not_space c1 c2 c3 :
  printable c1 = true → printable c2 = true → printable c3 = true →
  ascii_space c1 = false ∧ space2 c1 c2 = false ∧ space3 c1 c2 c3 = false.
Proof.
  unfold printable, ascii_space, space2, space3, byte_in, byte_is. intros H1 H2 H3.
  rewrite andb_true_iff, !N.leb_le in H1, H2, H3.
  assert (∀ k, (k < 33 ∨ 126 < k)%N → ∀ c, (33 ≤ N_of_ascii c ∧ N_of_ascii c ≤ 126)%N →
    (N_of_ascii c =? k)%N = false) as Hk by (intros k Hk c Hc; apply N.eqb_neq; lia).
  rewrite !(Hk 32%N), !(Hk 194%N), !(Hk 225%N), !(Hk 226%N), !(Hk 227%N) by (done || lia).
  split_and!; try done. rewrite !orb_false_iff, andb_false_iff, !N.leb_gt. split; [right; lia|done].
Qed.

Lemma strip_head_printable sp2 sp3 l :
  (∀ a b, printable a = true → printable b = true → sp2 a b = false) →
  (∀ a b c, printable a = true → printable b = true → printable c = true → sp3 a b c = false) →
  Forall (λ c, printable c = true) l → strip_head sp2 sp3 l = None.
Proof.
  intros H2 H3 Hl. unfold strip_head.
  destruct l as [|c1 [|c2 [|c3 l]]]; repeat apply Forall_cons in Hl as [? Hl]; [done|..];
    (rewrite (proj1 (printable_not_space c1 c1 c1 ltac:(done) ltac:(done) ltac:(done))));
    [done|by rewrite H2|by rewrite H2, H3].
Qed.

Lemma TrimSpace_printable s : Forall (λ c, printable c = true) (to_bytes s) → TrimSpace s = s.
Proof.
  intros H. unfold TrimSpace, trim_left. rewrite trim_head_fixed, trim_right_fixed.
  - apply String.string_of_list_ascii_of_string.
  - apply strip_head_printable; [| |by apply Forall_reverse].
    + intros a b ??. by apply (printable_not_space b a a).
    + intros a b c ???. by apply (printable_not_space c b a).
  - apply strip_head_printable; [| |done].
    + intros a b ??. by apply (printable_not_space a b b).
    + intros a b c ???. by apply (printable_not_space a b c).
Qed.

Lemma hex_char_printable n : (n < 16)%N → printable (hex_char n) = true.
Proof. intros H. apply (N_below (λ n, printable (hex_char n)) 16 n); [by vm_compute|lia]. Qed.

Lemma hex_EncodeToString_printable data :
  Forall (λ b, b < 256)%N data →
  Forall (λ c, printable c = true) (to_bytes (hex_EncodeToString data)).
Proof.
  intros H. unfold hex_EncodeToString, to_bytes, of_bytes.
  rewrite String.list_ascii_of_string_of_list_ascii.
  induction H as [|b data Hb _ IH]; [constructor|]. rewrite bind_cons.
  apply Forall_app. split; [|done]. unfold hex_byte.
  repeat constructor; apply hex_char_printable; [apply N.Div0.div_lt_upper_bound|apply N.mod_lt]; lia.
Qed.
