(* ===== verification/GoSHA256.v ===== *)
(** * crypto/sha256

    [Sum256] of a byte slice, on numbers below 2^32 (FIPS 180-4).  The digest
    is a list of 32 bytes. *)

From S2P Require Export GoStd.

Local Open Scope N_scope.

Definition word (x : N) : N := x mod 2 ^ 32.
Definition rotr (n x : N) : N := N.lor (N.shiftr x n) (word (N.shiftl x (32 - n))).
Definition not32 (x : N) : N := N.lxor x (2 ^ 32 - 1).

(** The constants of the standard: the first 32 bits of the fractional parts of the
    cube roots of the first 64 primes, and of the square roots of the first eight. *)
Definition prime (n : N) : bool :=
  forallb (λ d, negb (n mod N.of_nat d =? 0)) (seq 2 (N.to_nat n - 2)).
Definition primes (bound : nat) : list N := filter (λ n, prime n = true) (N.of_nat <$> seq 2 (bound - 2)).

(** The integer cube root, bit by bit from [2^k] down. *)
Fixpoint cube_root (k : nat) (root n : N) : N :=
  match k with
  | O => root
  | S k =>
      let next := root + 2 ^ N.of_nat k in
      cube_root k (if next * next * next <=? n then next else root) n
  end.

Definition sha_K : list N :=
  Eval vm_compute in (λ p, word (cube_root 36 0 (N.shiftl p 96))) <$> primes 312.

(** The eight working variables. *)
Definition digest : Type := N * N * N * N * N * N * N * N.
Definition sha_init : digest :=
  Eval vm_compute in
    match (λ p, word (N.sqrt (N.shiftl p 64))) <$> primes 20 with
    | [a; b; c; d; e; f; g; h] => (a, b, c, d, e, f, g, h)
    | _ => (0, 0, 0, 0, 0, 0, 0, 0)
    end.

(** The message, a one bit, zeros, and the length in bits in eight bytes. *)
Definition big_endian (k : nat) (x : N) : list N :=
  (λ i, N.shiftr x (8 * N.of_nat i) mod 256) <$> reverse (seq 0 k).
Definition sha_pad (data : list N) : list N :=
  let n := N.of_nat (length data) in
  data ++ [128] ++ repeat 0 (N.to_nat ((55 + 64 - n mod 64) mod 64)) ++ big_endian 8 (8 * n).

Fixpoint words (data : list N) : list N :=
  match data with
  | a :: b :: c :: d :: rest =>
      (a * 2 ^ 24 + b * 2 ^ 16 + c * 2 ^ 8 + d) :: words rest
  | _ => []
  end.

(** The message schedule, newest word first: [n] more words. *)
Fixpoint schedule (n : nat) (w : list N) : list N :=
  match n with
  | O => w
  | S n =>
      let at_ i := nth i w 0 in
      let w15 := at_ 14%nat in
      let w2 := at_ 1%nat in
      let s0 := N.lxor (N.lxor (rotr 7 w15) (rotr 18 w15)) (N.shiftr w15 3) in
      let s1 := N.lxor (N.lxor (rotr 17 w2) (rotr 19 w2)) (N.shiftr w2 10) in
      schedule n (word (at_ 15%nat + s0 + at_ 6%nat + s1) :: w)
  end.

Definition sha_round (v : digest) (kw : N * N) : digest :=
  let '(a, b, c, d, e, f, g, h) := v in
  let s1 := N.lxor (N.lxor (rotr 6 e) (rotr 11 e)) (rotr 25 e) in
  let ch := N.lxor (N.land e f) (N.land (not32 e) g) in
  let t1 := word (h + s1 + ch + kw.1 + kw.2) in
  let s0 := N.lxor (N.lxor (rotr 2 a) (rotr 13 a)) (rotr 22 a) in
  let maj := N.lxor (N.lxor (N.land a b) (N.land a c)) (N.land b c) in
  (word (t1 + s0 + maj), a, b, c, word (d + t1), e, f, g).

Definition sha_block (v : digest) (block : list N) : digest :=
  let w := reverse (schedule 48 (reverse block)) in
  let '(a, b, c, d, e, f, g, h) := v in
  let '(a', b', c', d', e', f', g', h') := foldl sha_round v (zip sha_K w) in
  (word (a + a'), word (b + b'), word (c + c'), word (d + d'),
   word (e + e'), word (f + f'), word (g + g'), word (h + h')).

(** Blocks of sixteen words; [fuel] bounds their number. *)
Fixpoint sha_blocks (fuel : nat) (v : digest) (ws : list N) : digest :=
  match fuel, ws with
  | S fuel, _ :: _ => sha_blocks fuel (sha_block v (take 16 ws)) (drop 16 ws)
  | _, _ => v
  end.

Definition Sum256 (data : list N) : list N :=
  let ws := words (sha_pad data) in
  let '(a, b, c, d, e, f, g, h) := sha_blocks (length ws) sha_init ws in
  [a; b; c; d; e; f; g; h] ≫= big_endian 4.

(** [sha256.Sum256([]byte(s))] in hexadecimal. *)
Definition sha256_hex (s : string) : string :=
  hex_EncodeToString (Sum256 (N_of_ascii <$> to_bytes s)).

(** The standard's test vectors. *)
Lemma sha256_abc :
  sha256_hex "abc" = "ba7816bf8f01cfea414140de5dae2223b00361a396177a9cb410ff61f20015ad".
Proof. vm_compute. reflexivity. Qed.
Lemma sha256_empty :
  sha256_hex "" = "e3b0c44298fc1c149afbf4c8996fb92427ae41e4649b934ca495991b7852b855".
Proof. vm_compute. reflexivity. Qed.
Lemma sha256_two_blocks :
  sha256_hex "abcdbcdecdefdefgefghfghighijhijkijkljklmklmnlmnomnopnopq" =
  "248d6a61d20638b8e5c026930c3e6039a33ce45964ff2167f6ecedd419db06c1".
Proof. vm_compute. reflexivity. Qed.

(** A digest has 32 bytes, whatever the data. *)
Lemma length_Sum256 data : length (Sum256 data) = 32%nat.
Proof.
  unfold Sum256. destruct (sha_blocks _ _ _) as [[[[[[[a b] c] d] e] f] g] h]. done.
Qed.

Lemma length_hex_EncodeToString data :
  String.length (hex_EncodeToString data) = (2 * length data)%nat.
Proof.
  unfold hex_EncodeToString, of_bytes.
  transitivity (length (data ≫= hex_byte)).
  - induction (data ≫= hex_byte) as [|c l IH]; simpl; [done|]. by rewrite IH.
  - induction data as [|b data IH]; [done|]. rewrite bind_cons, length_app, IH. simpl. lia.
Qed.

Lemma length_sha256_hex s : String.length (sha256_hex s) = 64%nat.
Proof. unfold sha256_hex. by rewrite length_hex_EncodeToString, length_Sum256. Qed.

Lemma big_endian_bytes k x : Forall (λ b, b < 256)%N (big_endian k x).
Proof.
  unfold big_endian. apply Forall_fmap, Forall_forall. intros i _. simpl.
  apply N.mod_lt. lia.
Qed.

(** A hexadecimal digest has no blanks and is not blank. *)
Lemma TrimSpace_sha256_hex s : TrimSpace (sha256_hex s) = sha256_hex s.
Proof.
  apply TrimSpace_printable, hex_EncodeToString_printable. unfold Sum256.
  destruct (sha_blocks _ _ _) as [[[[[[[a b] c] d] e] f] g] h].
  apply Forall_forall. intros x (y & Hx & _)%list_elem_of_bind.
  by apply (proj1 (Forall_forall _ _) (big_endian_bytes 4 y)).
Qed.

Lemma blank_sha256_hex s : blank (sha256_hex s) = false.
Proof.
  unfold blank. rewrite TrimSpace_sha256_hex. apply bool_decide_eq_false. intros H.
  pose proof (length_sha256_hex s) as Hl. by rewrite H in Hl.
Qed.
