(* ===== verification/GoTime.v ===== *)
(** * [time.Time] and its JSON text

    An instant is a number of nanoseconds since the Unix epoch together with
    the offset, in seconds, of the zone it is shown in.  [time_text] and
    [parse_time] are [Time.MarshalJSON]/[UnmarshalJSON] without the quotes
    (RFC 3339, years 0 to 9999). *)

From S2P Require Export GoStd.

Local Open Scope Z_scope.

Record Time := mkTime { t_nanos : Z; t_offset : Z }.

#[export] Instance Time_eq_dec : EqDecision Time.
Proof. solve_decision. Defined.

Definition Microsecond : Z := 1000.
Definition Second : Z := 1000000000.
Definition Minute : Z := 60 * Second.
Definition Hour : Z := 60 * Minute.

(** January 1, year 1, 00:00:00 UTC. *)
Definition zero_time : Time := mkTime (-62135596800 * Second) 0.
Definition IsZero (t : Time) : bool := t_nanos t =? -62135596800 * Second.
Definition UTC (t : Time) : Time := mkTime (t_nanos t) 0.
Definition Add (t : Time) (d : Z) : Time := mkTime (t_nanos t + d) (t_offset t).
Definition Before (t u : Time) : bool := t_nanos t <? t_nanos u.
Definition After (t u : Time) : bool := t_nanos u <? t_nanos t.
Definition Equal (t u : Time) : bool := t_nanos t =? t_nanos u.
(** [t.Truncate(time.Microsecond)]: down to a multiple since the zero time. *)
Definition Truncate_us (t : Time) : Time :=
  mkTime (t_nanos t - t_nanos t mod Microsecond) (t_offset t).

(** A [timestamptz] column keeps the instant to the microsecond. *)
Definition pg_timestamptz (t : Time) : Time := UTC (Truncate_us t).

(** ** The proleptic Gregorian calendar, days since 1970-01-01 *)

Definition days_from_civil (y m d : Z) : Z :=
  let y' := if m <=? 2 then y - 1 else y in
  let era := y' / 400 in
  let yoe := y' mod 400 in
  let mp := (m + 9) mod 12 in
  let doy := (153 * mp + 2) / 5 + d - 1 in
  let doe := yoe * 365 + yoe / 4 - yoe / 100 + doy in
  era * 146097 + doe - 719468.

Definition civil_from_days (z : Z) : Z * Z * Z :=
  let z := z + 719468 in
  let era := z / 146097 in
  let doe := z mod 146097 in
  let yoe := (doe - doe / 1460 + doe / 36524 - doe / 146096) / 365 in
  let doy := doe - (365 * yoe + yoe / 4 - yoe / 100) in
  let mp := (5 * doy + 2) / 153 in
  let d := doy - (153 * mp + 2) / 5 + 1 in
  let m := if mp <? 10 then mp + 3 else mp - 9 in
  let y := yoe + era * 400 in
  ((if m <=? 2 then y + 1 else y), m, d).

Definition is_leap (y : Z) : bool :=
  (y mod 4 =? 0) && (negb (y mod 100 =? 0) || (y mod 400 =? 0)).
Definition days_in (y m : Z) : Z :=
  if m =? 2 then (if is_leap y then 29 else 28)
  else if (m =? 4) || (m =? 6) || (m =? 9) || (m =? 11) then 30 else 31.

(** ** Printing *)

Definition digit (n : Z) : ascii := ascii_of_N (48 + Z.to_N n).
(** [n] in [k] decimal digits. *)
Fixpoint pad (k : nat) (n : Z) : bytes :=
  match k with
  | O => []
  | S k => pad k (n / 10) ++ [digit (n mod 10)]
  end.

Fixpoint drop_zeros (l : bytes) : bytes :=
  match l with
  | c :: r => if byte_is 48 c then drop_zeros r else l
  | [] => []
  end.
Definition fraction_text (n : Z) : bytes :=
  if n =? 0 then [] else "."%char :: reverse (drop_zeros (reverse (pad 9 n))).

Definition zone_text (off : Z) : bytes :=
  if off =? 0 then ["Z"%char] else
  let a := Z.abs off / 60 in
  (if off <? 0 then "-"%char else "+"%char) :: pad 2 (a / 60) ++ [":"%char] ++ pad 2 (a mod 60).

Definition time_text (t : Time) : string :=
  let local := t_nanos t + t_offset t * Second in
  let secs := local / Second in
  let sod := secs mod 86400 in
  let '(y, m, d) := civil_from_days (secs / 86400) in
  of_bytes (pad 4 y ++ ["-"%char] ++ pad 2 m ++ ["-"%char] ++ pad 2 d ++ ["T"%char] ++
    pad 2 (sod / 3600) ++ [":"%char] ++ pad 2 (sod mod 3600 / 60) ++ [":"%char] ++
    pad 2 (sod mod 60) ++ fraction_text (local mod Second) ++ zone_text (t_offset t)).

(** ** Parsing *)

Definition digit_value (c : ascii) : option Z :=
  if byte_in 48 57 c then Some (Z.of_N (N_of_ascii c) - 48) else None.

Fixpoint digits (acc : Z) (l : bytes) : option Z :=
  match l with
  | [] => Some acc
  | c :: r => v ← digit_value c; digits (acc * 10 + v) r
  end.

(** [k] digits at the head, within bounds. *)
Definition take_uint (k : nat) (lo hi : Z) (l : bytes) : option (Z * bytes) :=
  if Nat.eqb (length (take k l)) k then
    v ← digits 0 (take k l);
    if (lo <=? v) && (v <=? hi) then Some (v, drop k l) else None
  else None.

Definition take_char (c : ascii) (l : bytes) : option bytes :=
  match l with
  | d :: r => if Ascii.eqb c d then Some r else None
  | [] => None
  end.

Fixpoint span_digits (l : bytes) : bytes * bytes :=
  match l with
  | c :: r => if byte_in 48 57 c then let '(a, b) := span_digits r in (c :: a, b) else ([], l)
  | [] => ([], [])
  end.

(** The fraction of a second: nine digits count, further ones are dropped. *)
Definition parse_fraction (l : bytes) : option (Z * bytes) :=
  match l with
  | c :: r =>
      if byte_is 46 c then
        match span_digits r with
        | ([], _) => None
        | (ds, rest) =>
            n ← digits 0 (take 9 (ds ++ repeat "0"%char 9)); Some (n, rest)
        end
      else Some (0, l)
  | [] => Some (0, l)
  end.

Definition parse_zone (l : bytes) : option Z :=
  match l with
  | ["Z"%char] => Some 0
  | sign :: r =>
      '(h, r) ← take_uint 2 0 23 r;
      r ← take_char ":"%char r;
      '(m, r) ← take_uint 2 0 59 r;
      match r with
      | [] =>
          if byte_is 43 sign then Some ((h * 60 + m) * 60)
          else if byte_is 45 sign then Some (- ((h * 60 + m) * 60))
          else None
      | _ => None
      end
  | [] => None
  end.

Definition parse_time (s : string) : option Time :=
  '(y, l) ← take_uint 4 0 9999 (to_bytes s);
  l ← take_char "-"%char l; '(m, l) ← take_uint 2 1 12 l;
  l ← take_char "-"%char l; '(d, l) ← take_uint 2 1 (days_in y m) l;
  l ← take_char "T"%char l; '(hh, l) ← take_uint 2 0 23 l;
  l ← take_char ":"%char l; '(mm, l) ← take_uint 2 0 59 l;
  l ← take_char ":"%char l; '(ss, l) ← take_uint 2 0 59 l;
  '(ns, l) ← parse_fraction l;
  off ← parse_zone l;
  Some (mkTime (((days_from_civil y m d * 86400 + hh * 3600 + mm * 60 + ss) - off) * Second + ns) off).

(** [Time.MarshalJSON] refuses a year that has not four digits and a zone of a day or more. *)
Definition Year (t : Time) : Z :=
  (civil_from_days ((t_nanos t + t_offset t * Second) / Second / 86400)).1.1.
Definition marshalable (t : Time) : bool :=
  (0 <=? Year t) && (Year t <=? 9999) && (Z.abs (t_offset t) <? 86400).

Definition is_digit (c : ascii) : bool := byte_in 48 57 c.

Example time_text_epoch : time_text (mkTime 0 0) = "1970-01-01T00:00:00Z".
Proof. reflexivity. Qed.
Example time_text_zero : time_text zero_time = "0001-01-01T00:00:00Z".
Proof. reflexivity. Qed.
Example parse_time_offset :
  parse_time "2024-02-29T23:59:59.0120+02:30" = Some (mkTime 1709242199012000000 9000).
Proof. reflexivity. Qed.
Example time_text_offset :
  time_text (mkTime 1709242199012000000 9000) = "2024-02-29T23:59:59.012+02:30".
Proof. reflexivity. Qed.

(** ** Decimal digits read back *)

Lemma digit_value_digit n : 0 ≤ n < 10 → digit_value (digit n) = Some n.
Proof.
  intros Hn. unfold digit_value, digit, byte_in.
  rewrite N_ascii_embedding by lia.
  rewrite (proj2 (N.leb_le _ _)), (proj2 (N.leb_le _ _)) by lia. simpl. f_equal. lia.
Qed.

Lemma digits_app acc l d : digits acc (l ++ [d]) = (a ← digits acc l; v ← digit_value d; Some (a * 10 + v)).
Proof.
  revert acc. induction l as [|c l IH]; intros acc; simpl.
  - by destruct (digit_value d).
  - destruct (digit_value c); simpl; [apply IH|done].
Qed.

Lemma digits_pad k n : 0 ≤ n < 10 ^ Z.of_nat k → digits 0 (pad k n) = Some n.
Proof.
  revert n. induction k as [|k IH]; intros n Hn; simpl.
  - simpl in Hn. f_equal. lia.
  - rewrite digits_app, IH; simpl.
    + pose proof (Z.mod_pos_bound n 10). rewrite digit_value_digit by lia. simpl. f_equal. 
      rewrite (Z.div_mod n 10) at 3; lia.
    + rewrite Nat2Z.inj_succ, Z.pow_succ_r in Hn by lia.
      split; [apply Z.div_pos; lia|]. apply Z.div_lt_upper_bound; lia.
Qed.

Lemma digits_drop_zeros l : digits 0 (drop_zeros l) = digits 0 l.
Proof.
  induction l as [|c l IH]; simpl; [done|]. destruct (byte_is 48 c) eqn:E; [|done].
  rewrite IH. unfold byte_is in E. unfold digit_value, byte_in.
  apply N.eqb_eq in E. rewrite E. done.
Qed.


(** ** The calendar reads back *)

(** The day of a 400-year era, as a year that starts in March and a day of it. *)
Lemma doe_year doe : 0 ≤ doe < 146097 →
  let yoe := (doe - doe / 1460 + doe / 36524 - doe / 146096) / 365 in
  let doy := doe - (365 * yoe + yoe / 4 - yoe / 100) in
  0 ≤ yoe ≤ 399 ∧ 0 ≤ doy ≤ 365 ∧
  (doy = 365 → (yoe + 1) mod 4 = 0 ∧ ((yoe + 1) mod 100 ≠ 0 ∨ (yoe + 1) mod 400 = 0)).
Proof.
  intros H yoe doy. subst yoe doy. split; [|split]; [Z.to_euclidean_division_equations; lia..|].
  intros Hd. split; Z.to_euclidean_division_equations; lia.
Qed.

Lemma doy_month doy : 0 ≤ doy ≤ 365 →
  let mp := (5 * doy + 2) / 153 in
  let d := doy - (153 * mp + 2) / 5 + 1 in
  0 ≤ mp ≤ 11 ∧ 1 ≤ d ≤ 31 ∧ ((mp = 1 ∨ mp = 3 ∨ mp = 6 ∨ mp = 8) → d ≤ 30) ∧
  (mp = 11 → d ≤ 29 ∧ (d = 29 → doy = 365)).
Proof. intros H mp d. subst mp d. Z.to_euclidean_division_equations. lia. Qed.

Lemma is_leap_era y era : is_leap (y + era * 400) = is_leap y.
Proof.
  unfold is_leap. replace ((y + era * 400) mod 4) with (y mod 4) by (Z.to_euclidean_division_equations; lia).
  replace ((y + era * 400) mod 100) with (y mod 100) by (Z.to_euclidean_division_equations; lia).
  by rewrite Z_mod_plus_full.
Qed.

(** A day number is the day number of its date, which is a date of the calendar. *)
Lemma days_from_civil_from_days z y m d : civil_from_days z = (y, m, d) →
  days_from_civil y m d = z ∧ 1 ≤ m ≤ 12 ∧ 1 ≤ d ≤ days_in y m.
Proof.
  unfold civil_from_days, days_from_civil. set (era := (z + 719468) / 146097).
  set (doe := (z + 719468) mod 146097).
  assert (0 ≤ doe < 146097) as Hdoe by (apply Z.mod_pos_bound; lia).
  assert (z = era * 146097 + doe - 719468) as Hz.
  { pose proof (Z.div_mod (z + 719468) 146097). subst era doe. lia. }
  clearbody era doe. subst z. pose proof (doe_year doe Hdoe) as Hy. cbv zeta in Hy.
  set (yoe := (doe - doe / 1460 + doe / 36524 - doe / 146096) / 365) in *.
  set (doy := doe - (365 * yoe + yoe / 4 - yoe / 100)) in *.
  destruct Hy as (Hyoe & Hdoy & Hleap). pose proof (doy_month doy Hdoy) as Hm. cbv zeta in Hm.
  assert (doe = doy + (365 * yoe + yoe / 4 - yoe / 100)) as Edoe by (subst doy; lia).
  set (mp := (5 * doy + 2) / 153) in *. clearbody mp doy yoe.
  destruct Hm as (Hmp & Hd & H30 & H29). intros [= <- <- <-].
  set (m := if mp <? 10 then mp + 3 else mp - 9).
  assert ((m + 9) mod 12 = mp) as ->.
  { subst m. destruct (Z.ltb_spec mp 10).
    - replace (mp + 3 + 9) with (mp + 1 * 12) by lia. rewrite Z_mod_plus_full. apply Z.mod_small. lia.
    - rewrite Z.mod_small; lia. }
  assert ((if m <=? 2 then (if m <=? 2 then yoe + era * 400 + 1 else yoe + era * 400) - 1
           else if m <=? 2 then yoe + era * 400 + 1 else yoe + era * 400) = yoe + era * 400) as ->
    by (destruct (m <=? 2); lia).
  rewrite Z.div_add, Z_mod_plus_full, (Z.div_small yoe), (Z.mod_small yoe) by lia.
  split; [lia|]. split; [subst m; destruct (Z.ltb_spec mp 10); lia|]. split; [lia|].
  unfold days_in. destruct (Z.eqb_spec m 2) as [Em|Em].
  - assert (mp = 11) by (subst m; destruct (Z.ltb_spec mp 10); lia). destruct (H29 H) as [? H365].
    rewrite Em. cbn [Z.leb Z.compare Pos.compare Pos.compare_cont].
    replace (yoe + era * 400 + 1) with (yoe + 1 + era * 400) by lia. rewrite is_leap_era.
    destruct (is_leap (yoe + 1)) eqn:El; [lia|].
    destruct (decide (doy - (153 * mp + 2) / 5 + 1 = 29)) as [E|E]; [|lia].
    destruct (Hleap (H365 E)) as [H4 H100]. unfold is_leap in El.
    rewrite H4 in El. cbn [Z.eqb andb] in El. destruct H100 as [H100|H400].
    + apply Z.eqb_neq in H100. rewrite H100 in El. done.
    + rewrite H400 in El. rewrite orb_true_r in El. done.
  - destruct (Z.eqb_spec m 4); [|destruct (Z.eqb_spec m 6); [|destruct (Z.eqb_spec m 9);
      [|destruct (Z.eqb_spec m 11)]]]; cbn [orb]; try lia;
    apply H30; subst m; destruct (Z.ltb_spec mp 10); lia.
Qed.

(** ** RFC 3339 reads back *)

Lemma length_pad k n : length (pad k n) = k.
Proof. revert n. induction k as [|k IH]; intros n; simpl; [done|]. rewrite length_app, IH. simpl. lia. Qed.

Lemma take_uint_pad k lo hi n rest : 0 ≤ n < 10 ^ Z.of_nat k → lo ≤ n ≤ hi →
  take_uint k lo hi (pad k n ++ rest) = Some (n, rest).
Proof.
  intros Hn Hb. unfold take_uint. rewrite take_app_length' by (symmetry; apply length_pad).
  rewrite drop_app_length' by (symmetry; apply length_pad). rewrite length_pad, Nat.eqb_refl, digits_pad by done.
  simpl. rewrite (proj2 (Z.leb_le _ _)), (proj2 (Z.leb_le _ _)) by lia. done.
Qed.

Lemma take_char_cons c rest : take_char c (c :: rest) = Some rest.
Proof. unfold take_char. by rewrite Ascii.eqb_refl. Qed.

Ltac read_pad := rewrite take_uint_pad by (cbn; lia); cbn [mbind option_bind app].
Ltac read_char := rewrite take_char_cons; cbn [mbind option_bind].

Lemma digit_is_digit n : 0 ≤ n < 10 → is_digit (digit n) = true.
Proof.
  intros Hn. unfold is_digit, digit, byte_in. rewrite N_ascii_embedding by lia.
  by rewrite (proj2 (N.leb_le _ _)), (proj2 (N.leb_le _ _)) by lia.
Qed.
Lemma pad_digits k n : Forall (λ c, is_digit c = true) (pad k n).
Proof.
  revert n. induction k as [|k IH]; intros n; simpl; [constructor|].
  apply Forall_app. split; [apply IH|]. repeat constructor. apply digit_is_digit.
  apply Z.mod_pos_bound. lia.
Qed.
Lemma pad_nonzero k n : 0 < n < 10 ^ Z.of_nat k → Exists (λ c, byte_is 48 c = false) (pad k n).
Proof.
  revert n. induction k as [|k IH]; intros n Hn; simpl; [simpl in Hn; lia|].
  rewrite Nat2Z.inj_succ, Z.pow_succ_r in Hn by lia. apply Exists_app.
  destruct (decide (n / 10 = 0)) as [E|E].
  - right. constructor. unfold byte_is, digit. pose proof (Z.div_mod n 10).
    pose proof (Z.mod_pos_bound n 10). rewrite N_ascii_embedding by lia. apply N.eqb_neq. lia.
  - left. apply IH. pose proof (Z.div_pos n 10). split; [lia|]. apply Z.div_lt_upper_bound; lia.
Qed.

(** Dropped zeros come back as padding. *)
Lemma drop_zeros_pad l : ∃ k, l = repeat "0"%char k ++ drop_zeros l.
Proof.
  induction l as [|c l [k IH]]; [by exists O|]. simpl. destruct (byte_is 48 c) eqn:E; [|by exists O].
  exists (S k). simpl. rewrite <-IH. f_equal. unfold byte_is in E. apply N.eqb_eq in E.
  by rewrite <-(ascii_N_embedding c), E.
Qed.
Lemma drop_zeros_nil l : drop_zeros l = [] → Forall (λ c, byte_is 48 c = true) l.
Proof. induction l as [|c l IH]; simpl; [constructor|]. destruct (byte_is 48 c) eqn:E; [auto|done]. Qed.
Lemma repeat_snoc {A} (x : A) k : x :: repeat x k = repeat x k ++ [x].
Proof. induction k as [|k IH]; [done|]. simpl. by rewrite <-IH. Qed.
Lemma reverse_repeat {A} (x : A) k : reverse (repeat x k) = repeat x k.
Proof.
  induction k as [|k IH]; [done|]. simpl repeat at 1. rewrite reverse_cons, IH. simpl.
  by rewrite <-repeat_snoc.
Qed.

Lemma take_repeat_le {A} (x : A) k n : (k ≤ n)%nat → take k (repeat x n) = repeat x k.
Proof. revert n. induction k as [|k IH]; intros [|n] Hk; simpl; [done..|lia|]. f_equal. apply IH. lia. Qed.

Lemma span_digits_app ds rest : Forall (λ c, is_digit c = true) ds →
  match rest with c :: _ => is_digit c = false | [] => True end →
  span_digits (ds ++ rest) = (ds, rest).
Proof.
  intros Hd Hr. induction Hd as [|c ds Hc Hd IH]; simpl.
  - destruct rest as [|c rest]; [done|]. simpl. unfold is_digit in Hr. by rewrite Hr.
  - unfold is_digit in Hc. by rewrite Hc, IH.
Qed.

Lemma zone_head off : ∃ c r, zone_text off = c :: r ∧ is_digit c = false ∧ byte_is 46 c = false.
Proof.
  unfold zone_text. destruct (off =? 0); [by eexists _, _|]. destruct (off <? 0); by eexists _, _.
Qed.

Lemma parse_fraction_text n off : 0 ≤ n < Second →
  parse_fraction (fraction_text n ++ zone_text off) = Some (n, zone_text off).
Proof.
  intros Hn. destruct (zone_head off) as (c & r & Ez & Hc & Hdot). unfold fraction_text.
  destruct (Z.eqb_spec n 0) as [->|Hnz].
  - rewrite Ez. cbn [app parse_fraction]. by rewrite Hdot.
  - rewrite <-app_comm_cons. unfold parse_fraction. change (byte_is 46 ".") with true. cbv iota.
    set (ds := reverse (drop_zeros (reverse (pad 9 n)))).
    destruct (drop_zeros_pad (reverse (pad 9 n))) as [k Hk].
    assert (pad 9 n = ds ++ repeat "0"%char k) as Ep.
    { apply (f_equal reverse) in Hk. rewrite reverse_involutive, reverse_app, reverse_repeat in Hk. done. }
    assert (length ds + k = 9)%nat as Hlen.
    { rewrite <-(length_pad 9 n), Ep, length_app, repeat_length. done. }
    rewrite span_digits_app; [|by pose proof (pad_digits 9 n) as Hd; rewrite Ep in Hd; apply Forall_app in Hd as [? _]
      |by rewrite Ez].
    assert (ds ≠ []) as Hne.
    { intros E. assert (drop_zeros (reverse (pad 9 n)) = []) as E'.
      { subst ds. apply (f_equal reverse) in E. by rewrite reverse_involutive in E. }
      apply drop_zeros_nil in E'. rewrite Forall_forall in E'.
      destruct (proj1 (Exists_exists _ _) (pad_nonzero 9 n ltac:(unfold Second in Hn; lia))) as (x & Hx & Hf).
      rewrite (E' x) in Hf; [done|]. by apply elem_of_reverse. }
    destruct ds as [|d ds'] eqn:Eds; [done|]. rewrite <-Eds in *.
    assert (take 9 (ds ++ repeat "0"%char 9) = pad 9 n) as ->.
    { rewrite Ep. rewrite take_app_ge by lia. f_equal. replace (9 - length ds)%nat with k by lia. by rewrite take_repeat_le by lia. }
    rewrite digits_pad by (unfold Second in Hn; lia). done.
Qed.

Lemma parse_zone_signed sign l : l ≠ [] → parse_zone (sign :: l) =
  ('(h, r) ← take_uint 2 0 23 l;
   r ← take_char ":"%char r;
   '(m, r) ← take_uint 2 0 59 r;
   match r with
   | [] => if byte_is 43 sign then Some ((h * 60 + m) * 60)
           else if byte_is 45 sign then Some (- ((h * 60 + m) * 60)) else None
   | _ => None
   end).
Proof. intros H. destruct l; [done|]. by destruct sign as [[][][][][][][][]]. Qed.

Lemma parse_zone_text off : Z.abs off < 86400 → off mod 60 = 0 → parse_zone (zone_text off) = Some off.
Proof.
  intros Ha Hm. unfold zone_text. destruct (Z.eqb_spec off 0) as [->|Hz]; [done|].
  assert (Z.abs off / 60 * 60 = Z.abs off) as Em.
  { rewrite Z.mul_comm, <-Z_div_exact_full_2; [done|lia|]. destruct (Z.abs_eq_or_opp off) as [->| ->]; [done|].
    rewrite Z.mod_opp_l_z; lia. }
  set (a := Z.abs off / 60) in *.
  assert (0 ≤ a / 60 ≤ 23 ∧ 0 ≤ a mod 60 ≤ 59 ∧ a / 60 * 60 + a mod 60 = a) as (Hh & Hmm & Es).
  { subst a. pose proof (Z.div_mod (Z.abs off / 60) 60). pose proof (Z.mod_pos_bound (Z.abs off / 60) 60).
    assert (0 ≤ Z.abs off / 60 < 1440).
    { split; [apply Z.div_pos; lia|apply Z.div_lt_upper_bound; lia]. }
    split; [|lia]. split; [apply Z.div_pos; lia|].
    assert (Z.abs off / 60 / 60 < 24) by (apply Z.div_lt_upper_bound; lia). lia. }
  assert (∀ sign : ascii, sign ≠ "Z"%char →
    parse_zone (sign :: pad 2 (a / 60) ++ [":"%char] ++ pad 2 (a mod 60)) =
      if byte_is 43 sign then Some ((a / 60 * 60 + a mod 60) * 60)
      else if byte_is 45 sign then Some (- ((a / 60 * 60 + a mod 60) * 60)) else None) as Hp.
  { intros sign Hs. rewrite parse_zone_signed by done. unfold mbind, option_bind.
    rewrite take_uint_pad by (cbn; lia). cbn [app]. rewrite take_char_cons.
    replace (pad 2 (a mod 60)) with (pad 2 (a mod 60) ++ []) by apply app_nil_r.
    by rewrite take_uint_pad by (cbn; lia). }
  destruct (Z.ltb_spec off 0).
  - rewrite Hp by done. cbn. rewrite Es. f_equal. lia.
  - rewrite Hp by done. cbn. rewrite Es. f_equal. lia.
Qed.

(** A time that is marshaled is read back, when its zone is a whole number of minutes. *)
Lemma parse_time_text t : marshalable t = true → t_offset t mod 60 = 0 → parse_time (time_text t) = Some t.
Proof.
  unfold marshalable, Year, time_text, parse_time. set (local := t_nanos t + t_offset t * Second).
  set (secs := local / Second). destruct (civil_from_days (secs / 86400)) as [[y m] d] eqn:Ec. cbn [fst].
  rewrite !andb_true_iff, !Z.leb_le, Z.ltb_lt. intros [[Hy1 Hy2] Ho] Hz.
  apply days_from_civil_from_days in Ec as (Ed & Hm & Hd).
  assert (days_in y m ≤ 31) as Hdi.
  { unfold days_in. repeat case_match; lia. }
  set (sod := secs mod 86400). assert (0 ≤ sod < 86400) as Hsod by (apply Z.mod_pos_bound; lia).
  assert (0 ≤ local mod Second < Second) as Hns by (apply Z.mod_pos_bound; unfold Second; lia).
  assert (0 ≤ sod / 3600 ≤ 23 ∧ 0 ≤ sod mod 3600 / 60 ≤ 59 ∧ 0 ≤ sod mod 60 ≤ 59 ∧
    sod / 3600 * 3600 + sod mod 3600 / 60 * 60 + sod mod 60 = sod) as (Hh & Hmi & Hs & Esod).
  { clear -Hsod. Z.to_euclidean_division_equations. lia. }
  cbv zeta. unfold to_bytes, of_bytes. rewrite String.list_ascii_of_string_of_list_ascii.
  do 5 (read_pad; read_char). read_pad.
  rewrite parse_fraction_text by done. cbn [mbind option_bind]. rewrite parse_zone_text by done.
  cbn [mbind option_bind]. rewrite Ed. f_equal. destruct t as [n off]. cbn [t_nanos t_offset] in *. f_equal.
  pose proof (Z.div_mod secs 86400). fold sod in H. pose proof (Z.div_mod local Second ltac:(done)) as Hl. fold secs in Hl.
  unfold local in *. unfold Second in *. lia.
Qed.
