(* ===== verification/GoJSON.v ===== *)
(** * [encoding/json] values and decoding into Go values

    [any] is both a value held in a Go [any] and a parsed JSON document: the
    constructor [ATime] is a [time.Time] held in memory, which the encoder
    turns into text.  Number literals are integers ([AInt]) or others, kept as
    their literal ([AFloat]); integers beyond 2^53 do not lose precision here.
    A [json.RawMessage] is a text together with the value it denotes, or with
    the scanner's error when it is not one JSON value. *)

From S2P Require Export GoTime.

Local Open Scope Z_scope.

#[warnings="-register-all"]
Inductive any :=
  | ANil
  | ABool (b : bool)
  | AInt (z : Z)
  | AFloat (literal : string)
  | AString (s : string)
  | ATime (t : Time)
  | ASlice (l : list any)
  | AMap (m : list (string * any)).

#[export] Instance any_eq_dec : EqDecision any.
Proof.
  unfold EqDecision, Decision. fix go 1.
  intros [|b|z|s|s|t|l|m] [|b'|z'|s'|s'|t'|l'|m']; try (right; discriminate).
  - by left.
  - destruct (decide (b = b')); [left | right]; congruence.
  - destruct (decide (z = z')); [left | right]; congruence.
  - destruct (decide (s = s')); [left | right]; congruence.
  - destruct (decide (s = s')); [left | right]; congruence.
  - destruct (decide (t = t')); [left | right]; congruence.
  - assert ({l = l'} + {l ≠ l'}) as [|]; [|left; congruence|right; congruence].
    revert l'. induction l as [|x l IH]; intros [|x' l']; try (right; discriminate); [by left|].
    destruct (go x x'); [|right; congruence].
    destruct (IH l'); [left|right]; congruence.
  - assert ({m = m'} + {m ≠ m'}) as [|]; [|left; congruence|right; congruence].
    revert m'. induction m as [|[k x] m IH]; intros [|[k' x'] m']; try (right; discriminate); [by left|].
    destruct (go x x'); [|right; congruence].
    destruct (decide (k = k')); [|right; congruence].
    destruct (IH m'); [left|right]; congruence.
Defined.

(** Induction through the nested lists. *)
Section any_induction.
Context (P : any → Prop).
Context (Hnil : P ANil) (Hbool : ∀ b, P (ABool b)) (Hint : ∀ z, P (AInt z))
  (Hfloat : ∀ s, P (AFloat s)) (Hstring : ∀ s, P (AString s)) (Htime : ∀ t, P (ATime t))
  (Hslice : ∀ l, Forall P l → P (ASlice l))
  (Hmap : ∀ m, Forall (λ kv, P kv.2) m → P (AMap m)).

Fixpoint any_nested_ind (v : any) : P v :=
  match v with
  | ANil => Hnil
  | ABool b => Hbool b
  | AInt z => Hint z
  | AFloat s => Hfloat s
  | AString s => Hstring s
  | ATime t => Htime t
  | ASlice l => Hslice l
      ((fix go l : Forall P l :=
          match l with
          | [] => Forall_nil_2 _
          | x :: l => Forall_cons_2 _ _ _ (any_nested_ind x) (go l)
          end) l)
  | AMap m => Hmap m
      ((fix go m : Forall (λ kv, P kv.2) m :=
          match m with
          | [] => Forall_nil_2 _
          | (k, x) :: m => Forall_cons_2 _ (k, x) _ (any_nested_ind x) (go m)
          end) m)
  end.
End any_induction.

(** [map[string]any]; the nil map is the empty one where the code does not
    tell them apart. *)
Abbreviation jsonmap := (gmap string any).

(** ** What the encoder writes, as a value *)

(** Members in key order, the last value of a repeated key winning. *)
Fixpoint put_member (k : string) (v : any) (m : list (string * any)) : list (string * any) :=
  match m with
  | [] => [(k, v)]
  | (k', v') :: r =>
      match String.compare k k' with
      | Eq => (k, v) :: r
      | Lt => (k, v) :: m
      | Gt => (k', v') :: put_member k v r
      end
  end.
Definition sort_members (m : list (string * any)) : list (string * any) :=
  foldl (λ acc kv, put_member kv.1 kv.2 acc) [] m.

Fixpoint canon (v : any) : any :=
  match v with
  | ATime t => AString (time_text t)
  | ASlice l => ASlice (map canon l)
  | AMap m => AMap (sort_members (map (λ kv, (kv.1, canon kv.2)) m))
  | _ => v
  end.

(** [json.Marshal] of a map, read back: what a jsonb column holds. *)
Definition marshalJSONMap (value : jsonmap) : jsonmap := canon <$> value.

Definition members (m : jsonmap) : list (string * any) := sort_members (map_to_list m).
Definition map_of_members (m : list (string * any)) : jsonmap :=
  foldl (λ acc kv, <[kv.1 := kv.2]> acc) ∅ m.

(** The text, for the few places that look at bytes. *)
Definition dec_text (z : Z) : string :=
  let digits := drop_zeros (pad 20 (Z.abs z)) in
  of_bytes ((if z <? 0 then ["-"%char] else []) ++ (if z =? 0 then ["0"%char] else digits)).

Definition escape_char (c : ascii) : bytes :=
  if byte_is 34 c || byte_is 92 c then [ascii_of_N 92; c]
  else if byte_is 8 c then [ascii_of_N 92; "b"%char]
  else if byte_is 9 c then [ascii_of_N 92; "t"%char]
  else if byte_is 10 c then [ascii_of_N 92; "n"%char]
  else if byte_is 12 c then [ascii_of_N 92; "f"%char]
  else if byte_is 13 c then [ascii_of_N 92; "r"%char]
  else if (N_of_ascii c <? 32)%N || byte_is 60 c || byte_is 62 c || byte_is 38 c then
    [ascii_of_N 92; "u"%char; "0"%char; "0"%char;
     hex_char (N_of_ascii c / 16); hex_char (N_of_ascii c mod 16)]
  else [c].
Definition string_text (s : string) : bytes :=
  [ascii_of_N 34] ++ (to_bytes s ≫= escape_char) ++ [ascii_of_N 34].

Fixpoint commas (l : list bytes) : bytes :=
  match l with
  | [] => []
  | [x] => x
  | x :: r => x ++ [","%char] ++ commas r
  end.

Fixpoint json_bytes (v : any) : bytes :=
  match v with
  | ANil => to_bytes "null"
  | ABool b => to_bytes (if b then "true" else "false")
  | AInt z => to_bytes (dec_text z)
  | AFloat l => to_bytes l
  | AString s => string_text s
  | ATime t => string_text (time_text t)
  | ASlice l => ["["%char] ++ commas (map json_bytes l) ++ ["]"%char]
  | AMap m =>
      ["{"%char] ++ commas (map (λ kv, string_text kv.1 ++ [":"%char] ++ json_bytes kv.2) m)
      ++ ["}"%char]
  end.
Definition json_text (v : any) : string := of_bytes (json_bytes v).

(** ** json.RawMessage *)

Inductive RawMessage :=
  | RawValue (text : string) (v : any)
  | RawInvalid (text err : string).

#[export] Instance RawMessage_eq_dec : EqDecision RawMessage.
Proof. solve_decision. Defined.

Definition raw_text (r : RawMessage) : string :=
  match r with RawValue text _ => text | RawInvalid text _ => text end.
Definition raw_marshal (m : jsonmap) : RawMessage :=
  let v := AMap (members (marshalJSONMap m)) in RawValue (json_text v) v.

(** ** Decoding *)

Definition kind_name (v : any) : string :=
  match v with
  | ANil => "null" | ABool _ => "bool" | AInt _ | AFloat _ => "number"
  | AString _ | ATime _ => "string" | ASlice _ => "array" | AMap _ => "object"
  end.

Definition type_error {A} (v : any) (into : string) : res A :=
  Err (ErrText ("json: cannot unmarshal " +:+ kind_name v +:+ " into Go " +:+ into)).

(** [json.Unmarshal(raw, &m)] for [m map[string]any]; [None] is the nil map. *)
Definition unmarshal_map (r : RawMessage) : res (option jsonmap) :=
  match r with
  | RawInvalid _ err => Err (ErrText err)
  | RawValue _ (AMap m) => Ok (Some (canon <$> map_of_members m))
  | RawValue _ ANil => Ok None
  | RawValue _ v => type_error v "value of type map[string]interface {}"
  end.

(** The Go type of a struct field, as far as decoding tells types apart. *)
Inductive field_kind :=
  | KString | KStringPtr | KBool | KInt64 | KInt64Ptr | KTime | KStrings | KMap | KRaw.

(** A struct type: the JSON names of its fields with their types.  A decoded
    struct is the finite map of the fields that were given a value; the others
    keep the zero value of their type. *)
Abbreviation schema := (list (string * field_kind)).
Abbreviation fields := (gmap string any).

(** A member goes to the field of that name, else to the first whose name
    equals it under case folding. *)
Definition find_field (sc : schema) (key : string) : option (string * field_kind) :=
  match list_find (λ f, f.1 = key) sc with
  | Some (_, f) => Some f
  | None => snd <$> list_find (λ f, fold_name f.1 = fold_name key) sc
  end.

Definition int64_range (z : Z) : bool := (- 2 ^ 63 <=? z) && (z <? 2 ^ 63).

Fixpoint decode_strings (name : string) (l : list any) : res (list any) :=
  match l with
  | [] => Ok []
  | AString s :: l => rest ← decode_strings name l; Ok (AString s :: rest)
  | ANil :: l => rest ← decode_strings name l; Ok (AString "" :: rest)
  | v :: _ => type_error v ("struct field " +:+ name +:+ " of type string")
  end.

(** Store one member: [null] leaves a scalar as it is and clears a pointer,
    a slice or a map; a repeated map member adds to the map decoded so far. *)
Definition decode_field (name : string) (k : field_kind) (v : any) (t : fields) : res fields :=
  let wrong ty := type_error v ("struct field " +:+ name +:+ " of type " +:+ ty) in
  match k, v with
  | (KString | KStringPtr), AString _ => Ok (<[name := v]> t)
  | KString, ANil => Ok t
  | KStringPtr, ANil => Ok (delete name t)
  | (KString | KStringPtr), _ => wrong "string"
  | KBool, ABool _ => Ok (<[name := v]> t)
  | KBool, ANil => Ok t
  | KBool, _ => wrong "bool"
  | KInt64, ANil => Ok t
  | KInt64Ptr, ANil => Ok (delete name t)
  | (KInt64 | KInt64Ptr), AInt z => if int64_range z then Ok (<[name := v]> t) else wrong "int64"
  | (KInt64 | KInt64Ptr), _ => wrong "int64"
  | KTime, AString s =>
      match parse_time s with
      | Some time => Ok (<[name := ATime time]> t)
      | None => Err (ErrText ("parsing time " +:+ quote s))
      end
  | KTime, ANil => Ok t
  | KTime, _ => Err (ErrText "Time.UnmarshalJSON: input is not a JSON string")
  | KStrings, ASlice l => ss ← decode_strings name l; Ok (<[name := ASlice ss]> t)
  | KStrings, ANil => Ok (delete name t)
  | KStrings, _ => wrong "[]string"
  | KMap, AMap m =>
      let old := match t !! name with Some (AMap m0) => m0 | _ => [] end in
      Ok (<[name := AMap (members (canon <$> map_of_members (old ++ m)))]> t)
  | KMap, ANil => Ok (delete name t)
  | KMap, _ => wrong "map[string]interface {}"
  | KRaw, _ => Ok (<[name := v]> t)
  end.

Fixpoint decode_members (sc : schema) (ms : list (string * any)) (t : fields) : res fields :=
  match ms with
  | [] => Ok t
  | (key, v) :: ms =>
      match find_field sc key with
      | None => Err (ErrText ("json: unknown field " +:+ quote key))
      | Some (name, k) => t ← decode_field name k v t; decode_members sc ms t
      end
  end.

(** [decoder.DisallowUnknownFields(); decoder.Decode(&t)]. *)
Definition decode_struct (sc : schema) (v : any) : res fields :=
  match v with
  | AMap ms => decode_members sc ms ∅
  | ANil => Ok ∅
  | _ => type_error v "struct"
  end.

(** [json.Unmarshal] into a struct: members no field answers to are skipped. *)
Fixpoint unmarshal_members (sc : schema) (ms : list (string * any)) (t : fields) : res fields :=
  match ms with
  | [] => Ok t
  | (key, v) :: ms =>
      match find_field sc key with
      | None => unmarshal_members sc ms t
      | Some (name, k) => t ← decode_field name k v t; unmarshal_members sc ms t
      end
  end.
Definition unmarshal_struct (sc : schema) (r : RawMessage) : res fields :=
  match r with
  | RawInvalid _ err => Err (ErrText err)
  | RawValue _ (AMap ms) => unmarshal_members sc ms ∅
  | RawValue _ ANil => Ok ∅
  | RawValue _ v => type_error v "struct"
  end.

(** Reading the fields of a decoded struct. *)
Definition get_string (t : fields) (name : string) : string :=
  match t !! name with Some (AString s) => s | _ => "" end.
Definition get_bool (t : fields) (name : string) : bool :=
  match t !! name with Some (ABool b) => b | _ => false end.
Definition get_int_ptr (t : fields) (name : string) : option Z :=
  match t !! name with Some (AInt z) => Some z | _ => None end.
Definition get_int (t : fields) (name : string) : Z := default 0 (get_int_ptr t name).
Definition get_time (t : fields) (name : string) : Time :=
  match t !! name with Some (ATime x) => x | _ => zero_time end.
Definition get_strings (t : fields) (name : string) : list string :=
  match t !! name with
  | Some (ASlice l) => omap (λ v, match v with AString s => Some s | _ => None end) l
  | _ => []
  end.
Definition get_map (t : fields) (name : string) : option jsonmap :=
  match t !! name with Some (AMap m) => Some (map_of_members m) | _ => None end.

(** ** Encoding structs *)

(** [omitempty] *)
Definition member_string (name v : string) : list (string * any) :=
  if bool_decide (v = "") then [] else [(name, AString v)].
Definition member_int (name : string) (v : Z) : list (string * any) :=
  if v =? 0 then [] else [(name, AInt v)].
Definition member_ptr {A} (make : A → any) (name : string) (v : option A) : list (string * any) :=
  match v with Some v => [(name, make v)] | None => [] end.

(** A string as [json.Marshal] writes it: every byte that belongs to no rune becomes U+FFFD. *)
Fixpoint valid_or_escaped (fuel : nat) (l : bytes) : bytes :=
  match l, fuel with
  | [], _ => []
  | _, O => l
  | _ :: r, S fuel =>
      match next_rune l with
      | Some rest => take (length l - length rest) l ++ valid_or_escaped fuel rest
      | None => RuneError ++ valid_or_escaped fuel r
      end
  end.
Definition json_string (s : string) : string := of_bytes (valid_or_escaped (String.length s) (to_bytes s)).

(** ** Lemmas *)

Lemma string_compare_refl s : String.compare s s = Eq.
Proof.
  induction s as [|c s IH]; [done|]. simpl. unfold Ascii.compare.
  by rewrite N.compare_refl.
Qed.

Definition str_lt (a b : string) : Prop := String.compare a b = Lt.

Lemma str_lt_spec a b : str_lt a b ↔ (a ≤ b)%string ∧ a ≠ b.
Proof.
  unfold str_lt, String.le, String.leb.
  pose proof (String.compare_eq_iff a b) as Heq.
  destruct (String.compare a b) eqn:E; split; intros H; try done.
  - destruct H as [_ []]. by apply Heq.
  - split; [done|]. intros ->. by rewrite string_compare_refl in E.
  - by destruct H.
Qed.

Lemma str_lt_trans a b c : str_lt a b → str_lt b c → str_lt a c.
Proof.
  rewrite !str_lt_spec. intros [H1 N1] [H2 N2]. split; [by etrans|].
  intros ->. apply N1. by apply (anti_symm String.le).
Qed.

Lemma str_lt_gt a b : str_lt a b → String.compare b a = Gt.
Proof. unfold str_lt. intros H. rewrite String.compare_antisym, H. done. Qed.

Lemma str_gt_lt a b : String.compare a b = Gt → str_lt b a.
Proof. unfold str_lt. intros H. rewrite String.compare_antisym, H. done. Qed.

Definition member_lt (a b : string * any) : Prop := str_lt a.1 b.1.
Definition members_sorted : list (string * any) → Prop := StronglySorted member_lt.

Lemma put_member_keys k v m kv :
  kv ∈ put_member k v m → kv = (k, v) ∨ kv ∈ m.
Proof.
  induction m as [|[k' v'] m IH]; simpl; [set_solver|].
  destruct (String.compare k k'); set_solver.
Qed.

Lemma put_member_sorted k v m : members_sorted m → members_sorted (put_member k v m).
Proof.
  unfold members_sorted.
  induction 1 as [|[k' v'] m Hm IH Hall]; simpl; [repeat constructor|].
  destruct (String.compare k k') eqn:E.
  - apply String.compare_eq_iff in E as ->. constructor; [done|].
    eapply Forall_impl; [exact Hall|]. done.
  - constructor; [by constructor|]. constructor; [done|].
    eapply Forall_impl; [exact Hall|]. intros x. unfold member_lt. simpl.
    by apply str_lt_trans.
  - constructor; [done|]. apply Forall_forall. intros x [->|Hx]%put_member_keys.
    + by apply str_gt_lt.
    + by eapply Forall_forall in Hall; [|exact Hx].
Qed.

Lemma sort_members_sorted m : members_sorted (sort_members m).
Proof.
  unfold sort_members.
  assert (∀ acc, members_sorted acc → members_sorted
    (foldl (λ acc kv, put_member kv.1 kv.2 acc) acc m)) as H; [|apply H; constructor].
  induction m as [|[k v] m IH]; intros acc Hacc; [done|].
  apply IH. by apply put_member_sorted.
Qed.

Lemma put_member_last k v m :
  Forall (λ kv, str_lt kv.1 k) m → put_member k v m = m ++ [(k, v)].
Proof.
  induction 1 as [|[k' v'] m Hk _ IH]; [done|]. simpl in *.
  rewrite (str_lt_gt _ _ Hk). by rewrite IH.
Qed.

Lemma sort_members_id m : members_sorted m → sort_members m = m.
Proof.
  unfold sort_members.
  assert (∀ acc, members_sorted (acc ++ m) →
    foldl (λ acc kv, put_member kv.1 kv.2 acc) acc m = acc ++ m) as H; [|apply (H [])].
  induction m as [|[k v] m IH]; intros acc Hs; [by rewrite app_nil_r|].
  simpl. rewrite put_member_last.
  - rewrite IH; by rewrite <-app_assoc.
  - apply Forall_forall. intros x Hx.
    apply list_elem_of_split in Hx as (l1 & l2 & ->). clear IH.
    unfold members_sorted in Hs. rewrite <-app_assoc in Hs.
    induction l1 as [|y l1 IH]; simpl in Hs; inversion Hs as [|?? Hs' Hall]; subst; [|by apply IH].
    apply (proj1 (Forall_forall _ _) Hall (k, v)). set_solver.
Qed.

Lemma sorted_fmap_keys (f : any → any) m :
  members_sorted m → members_sorted (map (λ kv, (kv.1, f kv.2)) m).
Proof.
  induction 1 as [|[k v] m Hm IH Hall]; simpl; constructor; [done|].
  apply Forall_map. eapply Forall_impl; [exact Hall|]. done.
Qed.

Lemma put_member_map (f : any → any) k v m :
  map (λ kv, (kv.1, f kv.2)) (put_member k v m) = put_member k (f v) (map (λ kv, (kv.1, f kv.2)) m).
Proof.
  induction m as [|[k' v'] m IH]; [done|]. simpl.
  destruct (String.compare k k'); simpl; by rewrite ?IH.
Qed.

Lemma sort_members_map (f : any → any) m :
  map (λ kv, (kv.1, f kv.2)) (sort_members m) = sort_members (map (λ kv, (kv.1, f kv.2)) m).
Proof.
  unfold sort_members. change [] with (map (λ kv : string * any, (kv.1, f kv.2)) []) at 2.
  generalize (@nil (string * any)) as acc.
  induction m as [|[k v] m IH]; intros acc; [done|]. simpl.
  rewrite IH. by rewrite put_member_map.
Qed.

(** Encoding what was decoded from an encoding changes nothing. *)
Lemma canon_idemp v : canon (canon v) = canon v.
Proof.
  induction v as [| | | | | |l IH|m IH] using any_nested_ind; try done; simpl; f_equal.
  - induction IH as [|v l Hv _ IHl]; [done|]. simpl. by rewrite Hv, IHl.
  - rewrite sort_members_map.
    rewrite sort_members_id by apply sort_members_sorted. f_equal.
    induction IH as [|[k v] m Hv _ IHm]; [done|]. simpl in *. by rewrite Hv, IHm.
Qed.

Lemma marshalJSONMap_lookup (m : jsonmap) k :
  marshalJSONMap m !! k = canon <$> m !! k.
Proof. apply lookup_fmap. Qed.

Lemma marshalJSONMap_empty : marshalJSONMap ∅ = ∅.
Proof. apply fmap_empty. Qed.

Lemma marshalJSONMap_idemp m : marshalJSONMap (marshalJSONMap m) = marshalJSONMap m.
Proof.
  apply map_eq. intros k. rewrite !marshalJSONMap_lookup.
  destruct (m !! k); simpl; [by rewrite canon_idemp | done].
Qed.

#[export] Hint Rewrite marshalJSONMap_lookup marshalJSONMap_empty marshalJSONMap_idemp : rtk.

(** What is not blank stays so when it is cut and escaped. *)
Lemma space2_lead c1 c2 : space2 c1 c2 = true → N_of_ascii c1 = 194%N.
Proof. unfold space2, byte_is. rewrite andb_true_iff, N.eqb_eq. tauto. Qed.
Lemma space3_lead c1 c2 c3 : space3 c1 c2 c3 = true → (225 ≤ N_of_ascii c1 ≤ 227)%N.
Proof. unfold space3, byte_is, byte_in. rewrite !orb_true_iff, !andb_true_iff, !N.eqb_eq. lia. Qed.

Lemma strip_head_app_none l x :
  strip_head space2 space3 l = None → l ≠ [] →
  (length l = 1%nat → ∀ c, head l = Some c → (N_of_ascii c < 128)%N) →
  (length l = 2%nat → ∀ c, head l = Some c → (N_of_ascii c < 224)%N) →
  strip_head space2 space3 (l ++ x) = None.
Proof.
  intros Hs Hl H1 H2. destruct l as [|c1 [|c2 [|c3 l]]]; [done|..|
    simpl in *; by destruct (ascii_space c1), (space2 c1 c2), (space3 c1 c2 c3)].
  - specialize (H1 eq_refl c1 eq_refl). simpl in *. destruct (ascii_space c1); [done|].
    destruct x as [|c2 x]; [done|]. destruct (space2 c1 c2) eqn:E; [apply space2_lead in E; lia|].
    destruct x as [|c3 x]; [done|]. destruct (space3 c1 c2 c3) eqn:E3; [apply space3_lead in E3; lia|done].
  - specialize (H2 eq_refl c1 eq_refl). simpl in *. destruct (ascii_space c1); [done|].
    destruct (space2 c1 c2); [done|]. destruct x as [|c3 x]; [done|].
    destruct (space3 c1 c2 c3) eqn:E3; [apply space3_lead in E3; lia|done].
Qed.

Lemma next_rune_lead l rest : next_rune l = Some rest →
  ∃ p, l = p ++ rest ∧ p ≠ [] ∧
  (length p = 1%nat → ∀ c, head p = Some c → (N_of_ascii c < 128)%N) ∧
  (length p = 2%nat → ∀ c, head p = Some c → (N_of_ascii c < 224)%N).
Proof.
  unfold next_rune. destruct l as [|c1 r1]; [done|]. destruct (byte_in 0 127 c1) eqn:E1.
  { intros [= <-]. exists [c1]. split_and!; [done..| |done]. intros _ c [= <-].
    unfold byte_in in E1. rewrite andb_true_iff, !N.leb_le in E1. lia. }
  destruct r1 as [|c2 r2]; [done|]. destruct (byte_in 194 223 c1 && cont c2) eqn:E2.
  { intros [= <-]. exists [c1; c2]. split_and!; [done..|]. intros _ c [= <-].
    unfold byte_in in E2. rewrite !andb_true_iff, !N.leb_le in E2. lia. }
  destruct r2 as [|c3 r3]; [done|]. case_match.
  { intros [= <-]. exists [c1; c2; c3]. by split_and!. }
  destruct r3 as [|c4 r4]; [done|]. case_match; [|done].
  intros [= <-]. exists [c1; c2; c3; c4]. by split_and!.
Qed.

Lemma escaped_head fuel l : (length l ≤ fuel)%nat → strip_head space2 space3 l = None → l ≠ [] →
  strip_head space2 space3 (valid_or_escaped fuel l) = None ∧ valid_or_escaped fuel l ≠ [].
Proof.
  intros Hf Hs Hl. destruct fuel as [|fuel]; [by destruct l; simpl in Hf; [|lia]|].
  destruct l as [|c1 r1]; [done|]. cbn [valid_or_escaped].
  destruct (next_rune (c1 :: r1)) as [rest|] eqn:E; [|split; [reflexivity|done]].
  apply next_rune_lead in E as (p & E & Hp & H1 & H2). rewrite E, length_app.
  replace (length p + length rest - length rest)%nat with (length p) by lia.
  rewrite take_app_length. split; [|by destruct p]. apply strip_head_app_none; [|done..].
  destruct (strip_head space2 space3 p) as [x|] eqn:Ep; [|done].
  apply (strip_head_app _ _ _ _ rest) in Ep as [y Ey]. rewrite <-E in Ey. congruence.
Qed.

Lemma json_string_not_blank s : 
  strip_head space2 space3 (to_bytes s) = None → to_bytes s ≠ [] → blank (json_string s) = false.
Proof.
  intros Hs Hn. destruct (escaped_head (String.length s) (to_bytes s)) as [H1 H2]; try done.
  - apply Nat.eq_le_incl. clear. induction s; simpl; [done|]. f_equal. done.
  - by apply blank_head.
Qed.
