(* ===== verification/Model.v ===== *)
(** * The data model: internal/model/model.go and the schema's value domains

    Go's string enumerations whose values the schema's CHECK constraints close
    are inductive types with the source's constants as constructors.
    [DeviceStatus] is also the target of a conversion from message text, hence
    its constructor for any other text.  Pointers are options. *)

From S2P Require Export GoJSON.

Inductive Role := RoleOwner | RoleAdmin | RoleMember | RoleViewer.
Inductive OrganizationKind := OrganizationKindCustomerOrg | OrganizationKindBrandCloud.
Inductive OrganizationStatus := OrganizationStatusActive | OrganizationStatusDisabled.

Inductive DeviceCategory := DeviceCategoryIPCamera | DeviceCategoryMQTT | DeviceCategoryGeneric.

Definition DeviceCategory_text (category : DeviceCategory) : string :=
  match category with
  | DeviceCategoryIPCamera => "ip_camera"
  | DeviceCategoryMQTT => "mqtt_device"
  | DeviceCategoryGeneric => "generic"
  end.

Inductive OrganizationTier := OrganizationTierEvaluation | OrganizationTierCommercial.
Inductive DeviceItemProfileStatus :=
  | DeviceItemProfileStatusActive | DeviceItemProfileStatusDisabled.

Inductive DeviceStatus :=
  | DeviceStatusUnknown
  | DeviceStatusOnline
  | DeviceStatusOffline
  | DeviceStatusDisabled
  | DeviceStatusOther (text : string).

(** [model.DeviceStatus(text)] *)
Definition DeviceStatus_of_text (text : string) : DeviceStatus :=
  if bool_decide (text = "unknown") then DeviceStatusUnknown
  else if bool_decide (text = "online") then DeviceStatusOnline
  else if bool_decide (text = "offline") then DeviceStatusOffline
  else if bool_decide (text = "disabled") then DeviceStatusDisabled
  else DeviceStatusOther text.

Inductive VideoCloudActivationStatus :=
  | VideoCloudActivationStatusPending
  | VideoCloudActivationStatusActivated
  | VideoCloudActivationStatusFailed
  | VideoCloudActivationStatusDeactivated.

Definition VideoCloudActivationStatus_text (s : VideoCloudActivationStatus) : string :=
  match s with
  | VideoCloudActivationStatusPending => "pending"
  | VideoCloudActivationStatusActivated => "activated"
  | VideoCloudActivationStatusFailed => "failed"
  | VideoCloudActivationStatusDeactivated => "deactivated"
  end.

Inductive DeviceReadinessState :=
  | DeviceReadinessStateActivationPending
  | DeviceReadinessStateActivationFailed
  | DeviceReadinessStateTransportPending
  | DeviceReadinessStateReady
  | DeviceReadinessStateDeactivationPending
  | DeviceReadinessStateDeactivationFailed
  | DeviceReadinessStateDeactivated
  | DeviceReadinessStateDisabled.

Inductive ProductReadinessState :=
  | ProductReadinessStateRegistered
  | ProductReadinessStateClaimPending
  | ProductReadinessStateLocalOnboardingPending
  | ProductReadinessStateCloudActivationPending
  | ProductReadinessStateActivated
  | ProductReadinessStateOnline
  | ProductReadinessStateFailed
  | ProductReadinessStateDeactivationPending
  | ProductReadinessStateDeactivated.

(** The metadata keys the video cloud projection owns. *)
Definition DeviceMetadataVideoCloudDevid : string := "video_cloud_devid".
Definition DeviceMetadataVideoCloudActivationStatus : string := "video_cloud_activation_status".
Definition DeviceMetadataVideoCloudActivityID : string := "video_cloud_activity_id".
Definition DeviceMetadataVideoCloudActivatedAt : string := "video_cloud_activated_at".
Definition DeviceMetadataVideoCloudDeactivatedAt : string := "video_cloud_deactivated_at".
Definition DeviceMetadataVideoCloudClipPublicKey : string := "video_cloud_clip_public_key".
Definition DeviceMetadataVideoCloudTransferReservationID : string :=
  "video_cloud_transfer_reservation_id".
Definition DeviceMetadataVideoCloudLastError : string := "video_cloud_last_error".
Definition DeviceMetadataServiceOptions : string := "service_options".

Inductive DeviceOperationType :=
  | DeviceOperationTypeProvision
  | DeviceOperationTypeDeactivate
  | DeviceOperationTypeUnprovision
  | DeviceOperationTypeEntitlementUpdate.

Definition DeviceOperationType_text (t : DeviceOperationType) : string :=
  match t with
  | DeviceOperationTypeProvision => "provision"
  | DeviceOperationTypeDeactivate => "deactivate"
  | DeviceOperationTypeUnprovision => "unprovision"
  | DeviceOperationTypeEntitlementUpdate => "entitlement_update"
  end.

Inductive DeviceOperationStatus :=
  | DeviceOperationStatusPending
  | DeviceOperationStatusPublished
  | DeviceOperationStatusSucceeded
  | DeviceOperationStatusFailed
  | DeviceOperationStatusRetrying
  | DeviceOperationStatusDeadLettered.

Definition DeviceOperationStatus_text (s : DeviceOperationStatus) : string :=
  match s with
  | DeviceOperationStatusPending => "pending"
  | DeviceOperationStatusPublished => "published"
  | DeviceOperationStatusSucceeded => "succeeded"
  | DeviceOperationStatusFailed => "failed"
  | DeviceOperationStatusRetrying => "retrying"
  | DeviceOperationStatusDeadLettered => "dead_lettered"
  end.

Inductive DeviceMessageOutboxStatus :=
  | DeviceMessageOutboxStatusPending
  | DeviceMessageOutboxStatusPublished
  | DeviceMessageOutboxStatusRetrying
  | DeviceMessageOutboxStatusDeadLettered.

Inductive DeviceMessageInboxStatus :=
  | DeviceMessageInboxStatusProcessed
  | DeviceMessageInboxStatusFailed
  | DeviceMessageInboxStatusRetrying
  | DeviceMessageInboxStatusDeadLettered.

#[export] Instance Role_eq_dec : EqDecision Role.
Proof. solve_decision. Defined.
#[export] Instance OrganizationKind_eq_dec : EqDecision OrganizationKind.
Proof. solve_decision. Defined.
#[export] Instance OrganizationStatus_eq_dec : EqDecision OrganizationStatus.
Proof. solve_decision. Defined.
#[export] Instance OrganizationTier_eq_dec : EqDecision OrganizationTier.
Proof. solve_decision. Defined.
#[export] Instance DeviceItemProfileStatus_eq_dec : EqDecision DeviceItemProfileStatus.
Proof. solve_decision. Defined.
#[export] Instance DeviceCategory_eq_dec : EqDecision DeviceCategory.
Proof. solve_decision. Defined.
#[export] Instance DeviceStatus_eq_dec : EqDecision DeviceStatus.
Proof. solve_decision. Defined.
#[export] Instance DeviceReadinessState_eq_dec : EqDecision DeviceReadinessState.
Proof. solve_decision. Defined.
#[export] Instance ProductReadinessState_eq_dec : EqDecision ProductReadinessState.
Proof. solve_decision. Defined.
#[export] Instance DeviceOperationType_eq_dec : EqDecision DeviceOperationType.
Proof. solve_decision. Defined.
#[export] Instance DeviceOperationStatus_eq_dec : EqDecision DeviceOperationStatus.
Proof. solve_decision. Defined.
#[export] Instance DeviceMessageOutboxStatus_eq_dec : EqDecision DeviceMessageOutboxStatus.
Proof. solve_decision. Defined.
#[export] Instance DeviceMessageInboxStatus_eq_dec : EqDecision DeviceMessageInboxStatus.
Proof. solve_decision. Defined.

(** ** Entities *)

Record User := mkUser {
  User_ID : string;
  User_Email : string;
  User_EmailVerified : bool;
  User_SignupPendingVerification : bool;
  User_PlatformAdmin : bool; (* column [users.platform_admin] *)
  User_DisabledAt : option Time;
}.

Record Organization := mkOrganization {
  Organization_ID : string;
  Organization_Name : string;
  Organization_Kind : OrganizationKind;
  Organization_Status : OrganizationStatus;
  Organization_Tier : OrganizationTier;
  Organization_EvaluationDeviceQuota : Z;
  Organization_DeletedAt : option Time; (* column [organizations.deleted_at] *)
}.

(** [access_scope] of a viewer: every product, or the listed ones. *)
Inductive CloudViewerScope := ScopeAllProducts | ScopeProducts (product_ids : list string).

Record Member := mkMember {
  Member_OrganizationID : string;
  Member_UserID : string;
  Member_Role : Role;
  Member_AccessScope : option CloudViewerScope;
  Member_DisabledAt : option Time;
}.

(** The columns of [devices] that [scanDevice] reads; the grant revisions of
    the Go struct are filled in by the read handlers, not by the row. *)
Record Device := mkDevice {
  Device_ID : string;
  Device_OrganizationID : string;
  Device_Name : string;
  Device_Category : DeviceCategory;
  Device_SerialNumber : option string;
  Device_MACAddress : option string;
  Device_Manufacturer : option string;
  Device_Model : option string;
  Device_Status : DeviceStatus;
  Device_LastSeenAt : option Time;
  Device_Metadata : jsonmap;
  Device_CreatedAt : Time;
  Device_UpdatedAt : Time;
  Device_DisabledAt : option Time;
  Device_DeviceItemProfileID : option string;
}.

(** A product: the columns a claim token is made from. *)
Record DeviceItemProfile := mkProfile {
  Profile_ID : string;
  Profile_BrandCloudID : string;
  Profile_ProfileKey : string;
  Profile_Status : DeviceItemProfileStatus;
  Profile_Category : DeviceCategory;
  Profile_Manufacturer : option string;
  Profile_Model : option string;
  Profile_MetadataDefaults : jsonmap;
  Profile_CAProfile : string;
  Profile_IssuerProfile : string;
  Profile_ServiceOptions : list string;
  Profile_DisabledAt : option Time;
}.

(** The category of a token is any text: its table has no CHECK on it. *)
Record DeviceClaimToken := mkClaimToken {
  Token_ID : string;
  Token_OrganizationID : option string;
  Token_CreatedBy : option string;
  Token_DeviceItemProfileID : option string;
  Token_Category : string;
  Token_VideoCloudDevid : string;
  Token_ActivityID : string;
  Token_ClipPublicKey : string;
  Token_ServiceOptions : list string;
  Token_Metadata : jsonmap;
  Token_Notes : option string;
  Token_ExpiresAt : Time;
  Token_ClaimedAt : option Time;
  Token_RevokedAt : option Time;
  Token_CreatedAt : Time;
  Token_UpdatedAt : Time;
}.

Record DeviceClaim := mkDeviceClaim {
  DeviceClaim_ID : string;
  DeviceClaim_TokenID : string;
  DeviceClaim_OrganizationID : string;
  DeviceClaim_DeviceID : string;
  DeviceClaim_ClaimedBy : string;
  DeviceClaim_Status : string;
  DeviceClaim_ProvisionInput : jsonmap;
  DeviceClaim_CreatedAt : Time;
  DeviceClaim_UpdatedAt : Time;
}.

Record AuditEvent := mkAuditEvent {
  AuditEvent_EventType : string;
  AuditEvent_ActorUserID : option string;
  AuditEvent_OrganizationID : option string;
  AuditEvent_SubjectType : string;
  AuditEvent_SubjectID : string;
  AuditEvent_Payload : jsonmap;
  AuditEvent_CreatedAt : Time;
}.

Record DeviceOperation := mkDeviceOperation {
  DeviceOperation_ID : string;
  DeviceOperation_OperationID : string;
  DeviceOperation_CorrelationID : string;
  DeviceOperation_OrganizationID : string;
  DeviceOperation_DeviceID : string;
  DeviceOperation_OperationType : DeviceOperationType;
  DeviceOperation_Status : DeviceOperationStatus;
  DeviceOperation_RequestedBy : option string;
  DeviceOperation_RequestPayload : jsonmap;
  DeviceOperation_ResultPayload : jsonmap;
  DeviceOperation_ErrorCode : option string;
  DeviceOperation_ErrorMessage : option string;
  DeviceOperation_Retryable : option bool;
  DeviceOperation_CreatedAt : Time;
  DeviceOperation_UpdatedAt : Time;
  DeviceOperation_CompletedAt : option Time;
}.

Record DeviceMessageOutbox := mkDeviceMessageOutbox {
  Outbox_ID : string;
  Outbox_MessageID : string;
  Outbox_OperationID : string;
  Outbox_CorrelationID : string;
  Outbox_CausationID : option string;
  Outbox_Stream : string;
  Outbox_MessageType : string;
  Outbox_SchemaVersion : string;
  Outbox_PartitionKey : string;
  Outbox_Payload : jsonmap;
  Outbox_Status : DeviceMessageOutboxStatus;
  Outbox_AttemptCount : Z;
  Outbox_LastError : option string;
  Outbox_AvailableAt : Time;
  Outbox_PublishedAt : option Time;
  Outbox_CreatedAt : Time;
  Outbox_UpdatedAt : Time;
}.

Record DeviceMessageInbox := mkDeviceMessageInbox {
  Inbox_ID : string;
  Inbox_MessageID : string;
  Inbox_OperationID : string;
  Inbox_CorrelationID : string;
  Inbox_CausationID : option string;
  Inbox_Stream : string;
  Inbox_MessageType : string;
  Inbox_SchemaVersion : string;
  Inbox_PartitionKey : string;
  Inbox_Payload : jsonmap;
  Inbox_Status : DeviceMessageInboxStatus;
  Inbox_AttemptCount : Z;
  Inbox_LastError : option string;
  Inbox_ReceivedAt : Time;
  Inbox_ProcessedAt : option Time;
  Inbox_CreatedAt : Time;
  Inbox_UpdatedAt : Time;
}.
