(* ===== verification/Channel.v ===== *)
(** * internal/channel: message envelopes and payloads

    The constants, the envelope, the fourteen payload structs with their
    [Validate] and [PartitionKey] methods, the table of message types and
    [Envelope.ValidateAndDecode], which both workers run on every message.
    A payload struct is a record, its method [Validate] the definition
    [<struct>_Validate]; [Payload] is the Go interface as a sum of them.  The
    theorems say exactly which envelopes are accepted, that accepted message
    types follow their stream, and what the field checks mean. *)

From S2P Require Export Model.

Local Open Scope Z_scope.

Definition SchemaVersionV1 := "1.0".
Definition StreamAccountVideoCommands := "account.video.commands".
Definition StreamVideoAccountEvents := "video.account.events".
Definition ServiceAccountManager := "rtk_account_manager".
Definition ServiceRealtekVideoCloud := "realtek_video_server".

(** The [MessageType] constants; the type itself is open text. *)
Abbreviation MessageType := string (only parsing).
Definition MessageTypeDeviceProvisionRequested : MessageType := "DeviceProvisionRequested".
Definition MessageTypeDeviceProvisionSucceeded : MessageType := "DeviceProvisionSucceeded".
Definition MessageTypeDeviceProvisionFailed : MessageType := "DeviceProvisionFailed".
Definition MessageTypeDeviceDeactivateRequested : MessageType := "DeviceDeactivateRequested".
Definition MessageTypeDeviceDeactivateSucceeded : MessageType := "DeviceDeactivateSucceeded".
Definition MessageTypeDeviceDeactivateFailed : MessageType := "DeviceDeactivateFailed".
Definition MessageTypeDeviceUnprovisionRequested : MessageType := "DeviceUnprovisionRequested".
Definition MessageTypeDeviceUnprovisionSucceeded : MessageType := "DeviceUnprovisionSucceeded".
Definition MessageTypeDeviceUnprovisionFailed : MessageType := "DeviceUnprovisionFailed".
Definition MessageTypeDeviceEntitlementSnapshotRequested : MessageType :=
  "DeviceEntitlementSnapshotRequested".
Definition MessageTypeDeviceEntitlementSnapshotSucceeded : MessageType :=
  "DeviceEntitlementSnapshotSucceeded".
Definition MessageTypeDeviceEntitlementSnapshotFailed : MessageType :=
  "DeviceEntitlementSnapshotFailed".
Definition MessageTypeDeviceOnlineChanged : MessageType := "DeviceOnlineChanged".
Definition MessageTypeDeviceMetadataChanged : MessageType := "DeviceMetadataChanged".

Definition OnlineStatusOnline := "online".
Definition OnlineStatusOffline := "offline".

(** ** The envelope *)

Record Envelope := mkEnvelope {
  MessageID : string;
  CorrelationID : string;
  CausationID : string;
  OperationID : string;
  SourceService : string;
  TargetService : string;
  Envelope_MessageType : MessageType;
  SchemaVersion : string;
  PartitionKey : string;
  OccurredAt : Time;
  Envelope_Payload : RawMessage;
}.

(** ** The payload structs *)

Record DeviceProvisionRequestedPayload := mkProvisionRequested {
  PR_OrgID : string; PR_AccountDeviceID : string; PR_VideoCloudDevid : string;
  PR_ActivityID : string; PR_ClipPublicKey : string; PR_ServiceOptions : list string;
  PR_ProductID : string; PR_ProductServiceRevision : option Z;
  PR_ServiceGrantSHA256 : string; PR_LogRetentionDays : option Z;
  PR_TransferReservationID : string; PR_RequestedBy : string }.

Record DeviceProvisionSucceededPayload := mkProvisionSucceeded {
  PS_OrgID : string; PS_AccountDeviceID : string; PS_VideoCloudDevid : string;
  PS_ActivityID : string; PS_ActivatedAt : Time }.

Record DeviceProvisionFailedPayload := mkProvisionFailed {
  PF_OrgID : string; PF_AccountDeviceID : string; PF_VideoCloudDevid : string;
  PF_ActivityID : string; PF_ErrorCode : string; PF_ErrorMessage : string;
  PF_Retryable : bool; PF_FailedAt : Time }.

Record DeviceDeactivateRequestedPayload := mkDeactivateRequested {
  DR_OrgID : string; DR_AccountDeviceID : string; DR_VideoCloudDevid : string;
  DR_ActivityID : string; DR_RequestedBy : string; DR_Reason : string }.

Record DeviceDeactivateSucceededPayload := mkDeactivateSucceeded {
  DS_OrgID : string; DS_AccountDeviceID : string; DS_VideoCloudDevid : string;
  DS_ActivityID : string; DS_DeactivatedAt : Time }.

Record DeviceDeactivateFailedPayload := mkDeactivateFailed {
  DF_OrgID : string; DF_AccountDeviceID : string; DF_VideoCloudDevid : string;
  DF_ActivityID : string; DF_ErrorCode : string; DF_ErrorMessage : string;
  DF_Retryable : bool; DF_FailedAt : Time }.

Record DeviceUnprovisionRequestedPayload := mkUnprovisionRequested {
  UR_OrgID : string; UR_AccountDeviceID : string; UR_VideoCloudDevid : string;
  UR_RequestedBy : string; UR_Reason : string; UR_PlatformOverride : bool;
  UR_UnprovisionedAt : Time }.

Record DeviceUnprovisionSucceededPayload := mkUnprovisionSucceeded {
  US_OrgID : string; US_AccountDeviceID : string; US_VideoCloudDevid : string;
  US_UnprovisionedAt : Time }.

Record DeviceUnprovisionFailedPayload := mkUnprovisionFailed {
  UF_OrgID : string; UF_AccountDeviceID : string; UF_VideoCloudDevid : string;
  UF_ErrorCode : string; UF_ErrorMessage : string; UF_Retryable : bool; UF_FailedAt : Time }.

Record DeviceEntitlementSnapshotRequestedPayload := mkEntitlementSnapshotRequested {
  ER_OrgID : string; ER_AccountDeviceID : string; ER_VideoCloudDevid : string;
  ER_ProductID : string; ER_ProductServiceRevision : Z; ER_ServiceGrantSHA256 : string;
  ER_PlatformEntitlementRevision : Z; ER_ServiceOptions : list string;
  ER_LogRetentionDays : option Z; ER_State : string; ER_RequestedBy : string }.

Record DeviceEntitlementSnapshotSucceededPayload := mkEntitlementSnapshotSucceeded {
  ES_OrgID : string; ES_AccountDeviceID : string; ES_VideoCloudDevid : string;
  ES_PlatformEntitlementRevision : Z; ES_AppliedAt : Time }.

Record DeviceEntitlementSnapshotFailedPayload := mkEntitlementSnapshotFailed {
  EF_OrgID : string; EF_AccountDeviceID : string; EF_VideoCloudDevid : string;
  EF_PlatformEntitlementRevision : Z; EF_ErrorCode : string; EF_ErrorMessage : string;
  EF_Retryable : bool; EF_FailedAt : Time }.

Record DeviceOnlineChangedPayload := mkOnlineChanged {
  OC_OrgID : string; OC_AccountDeviceID : string; OC_VideoCloudDevid : string;
  OC_Status : string; OC_LastSeenAt : Time }.

Record DeviceMetadataChangedPayload := mkMetadataChanged {
  MC_OrgID : string; MC_AccountDeviceID : string; MC_VideoCloudDevid : string;
  MC_Metadata : option jsonmap }.

Inductive Payload :=
  | ProvisionRequested (p : DeviceProvisionRequestedPayload)
  | ProvisionSucceeded (p : DeviceProvisionSucceededPayload)
  | ProvisionFailed (p : DeviceProvisionFailedPayload)
  | DeactivateRequested (p : DeviceDeactivateRequestedPayload)
  | DeactivateSucceeded (p : DeviceDeactivateSucceededPayload)
  | DeactivateFailed (p : DeviceDeactivateFailedPayload)
  | UnprovisionRequested (p : DeviceUnprovisionRequestedPayload)
  | UnprovisionSucceeded (p : DeviceUnprovisionSucceededPayload)
  | UnprovisionFailed (p : DeviceUnprovisionFailedPayload)
  | EntitlementSnapshotRequested (p : DeviceEntitlementSnapshotRequestedPayload)
  | EntitlementSnapshotSucceeded (p : DeviceEntitlementSnapshotSucceededPayload)
  | EntitlementSnapshotFailed (p : DeviceEntitlementSnapshotFailedPayload)
  | OnlineChanged (p : DeviceOnlineChangedPayload)
  | MetadataChanged (p : DeviceMetadataChangedPayload).

(** ** Field checks *)

Definition fieldError {A} (field message : string) : res A :=
  Err (ErrText (field +:+ " " +:+ message)).

Definition requireNonBlank (field value : string) : res unit :=
  if blank value then fieldError field "must be non-empty" else Ok tt.

Fixpoint validateRequiredStrings (fields : list (string * string)) : res unit :=
  match fields with
  | [] => Ok tt
  | (name, value) :: fields => requireNonBlank name value ;; validateRequiredStrings fields
  end.

(** [value[i:j]] for [i <= j <= len(value)] *)
Definition slice (i j : nat) (value : string) : string :=
  of_bytes (take (j - i) (drop i (to_bytes value))).
Definition byte_at (i : nat) (c : ascii) (value : string) : bool :=
  bool_decide (to_bytes value !! i = Some c).

Definition isUUID (value : string) : bool :=
  if negb (str_len value =? 36) then false
  else
    let segments := [slice 0 8 value; slice 9 13 value; slice 14 18 value;
                     slice 19 23 value; slice 24 36 value] in
    if negb (byte_at 8 "-" value) || negb (byte_at 13 "-" value) ||
       negb (byte_at 18 "-" value) || negb (byte_at 23 "-" value) then false
    else forallb (λ segment, bool_decide (is_Some (hex_DecodeString segment))) segments.

Definition requireUUID (field value : string) : res unit :=
  requireNonBlank field value ;;
  if negb (isUUID value) then fieldError field "must be a UUID" else Ok tt.

Definition validateLifecyclePayloadIDs (orgID accountDeviceID : string) : res unit :=
  requireUUID "payload.org_id" orgID ;;
  requireUUID "payload.account_device_id" accountDeviceID.

Definition validateUTC (field : string) (value : Time) : res unit :=
  if negb (t_offset value =? 0) then fieldError field "must use UTC" else Ok tt.

(** [if value.IsZero() { return fieldError(field, "must be set") }] *)
Definition requireSet (field : string) (value : Time) : res unit :=
  if IsZero value then fieldError field "must be set" else Ok tt.

(** [^[a-z][a-z0-9_]{0,63}$] *)
Definition lower_letter : ascii → bool := byte_in 97 122.
Definition option_char (c : ascii) : bool := lower_letter c || byte_in 48 57 c || byte_is 95 c.
Definition serviceOptionCodePattern (option : string) : bool :=
  match to_bytes option with
  | [] => false
  | c :: rest => lower_letter c && forallb option_char rest && (length rest <=? 63)%nat
  end.

Fixpoint validateServiceOptions_loop (field : string) (seen : gset string)
    (options : list string) : res unit :=
  match options with
  | [] => Ok tt
  | option :: options =>
      if negb (serviceOptionCodePattern option) then
        fieldError field "must contain valid service option codes"
      else if bool_decide (option ∈ seen) then fieldError field "must not contain duplicates"
      else validateServiceOptions_loop field ({[option]} ∪ seen) options
  end.

Definition validateServiceOptions (field : string) (options : list string) : res unit :=
  if (64 <? length options)%nat then fieldError field "must not exceed 64 options"
  else validateServiceOptions_loop field ∅ options.

Definition validateLogRetentionDays (options : list string) (days : option Z) : res unit :=
  match days with
  | None => Ok tt
  | Some days =>
      if (negb (days =? 7) && negb (days =? 30) && negb (days =? 90))
         || negb (bool_decide ("device_logging" ∈ options))
      then fieldError "payload.log_retention_days" "requires device_logging and 7, 30, or 90 days"
      else Ok tt
  end.

(** [len(s) != 64 || s != strings.ToLower(s)], then [hex.DecodeString(s)] *)
Definition lower64 (s : string) : bool := (str_len s =? 64) && bool_decide (s = ToLower s).
Definition hex_ok (s : string) : bool := bool_decide (is_Some (hex_DecodeString s)).

(** ** [Validate] *)

Definition DeviceProvisionRequestedPayload_Validate (p : DeviceProvisionRequestedPayload)
    : res unit :=
  validateLifecyclePayloadIDs (PR_OrgID p) (PR_AccountDeviceID p) ;;
  (if negb (bool_decide (PR_TransferReservationID p = "")) then
     if negb (lower64 (PR_TransferReservationID p)) then
       fieldError "payload.transfer_reservation_id" "must be lowercase SHA-256 hex"
     else if negb (hex_ok (PR_TransferReservationID p)) then
       fieldError "payload.transfer_reservation_id" "must be lowercase SHA-256 hex"
     else Ok tt
   else Ok tt) ;;
  validateServiceOptions "payload.service_options" (PR_ServiceOptions p) ;;
  validateLogRetentionDays (PR_ServiceOptions p) (PR_LogRetentionDays p) ;;
  (if negb (bool_decide (PR_ProductID p = "")) || bool_decide (is_Some (PR_ProductServiceRevision p))
      || negb (bool_decide (PR_ServiceGrantSHA256 p = "")) then
     requireUUID "payload.product_id" (PR_ProductID p) ;;
     if match PR_ProductServiceRevision p with None => true | Some r => r <? 1 end then
       fieldError "payload.product_service_revision" "must be positive"
     else if bool_decide (PR_ServiceOptions p = []) || negb (lower64 (PR_ServiceGrantSHA256 p)) then
       fieldError "payload.service_grant_sha256" "requires services and a lowercase SHA-256 digest"
     else if negb (hex_ok (PR_ServiceGrantSHA256 p)) then
       fieldError "payload.service_grant_sha256" "must be SHA-256 hex"
     else Ok tt
   else Ok tt) ;;
  validateRequiredStrings
    [("payload.video_cloud_devid", PR_VideoCloudDevid p);
     ("payload.activity_id", PR_ActivityID p);
     ("payload.clip_public_key", PR_ClipPublicKey p);
     ("payload.requested_by", PR_RequestedBy p)].

Definition DeviceProvisionSucceededPayload_Validate (p : DeviceProvisionSucceededPayload)
    : res unit :=
  validateLifecyclePayloadIDs (PS_OrgID p) (PS_AccountDeviceID p) ;;
  validateRequiredStrings
    [("payload.video_cloud_devid", PS_VideoCloudDevid p);
     ("payload.activity_id", PS_ActivityID p)] ;;
  requireSet "payload.activated_at" (PS_ActivatedAt p) ;;
  validateUTC "payload.activated_at" (PS_ActivatedAt p).

Definition DeviceProvisionFailedPayload_Validate (p : DeviceProvisionFailedPayload) : res unit :=
  validateLifecyclePayloadIDs (PF_OrgID p) (PF_AccountDeviceID p) ;;
  validateRequiredStrings
    [("payload.video_cloud_devid", PF_VideoCloudDevid p);
     ("payload.activity_id", PF_ActivityID p);
     ("payload.error_code", PF_ErrorCode p);
     ("payload.error_message", PF_ErrorMessage p)] ;;
  requireSet "payload.failed_at" (PF_FailedAt p) ;;
  validateUTC "payload.failed_at" (PF_FailedAt p).

Definition DeviceDeactivateRequestedPayload_Validate (p : DeviceDeactivateRequestedPayload)
    : res unit :=
  validateLifecyclePayloadIDs (DR_OrgID p) (DR_AccountDeviceID p) ;;
  validateRequiredStrings
    [("payload.video_cloud_devid", DR_VideoCloudDevid p);
     ("payload.requested_by", DR_RequestedBy p);
     ("payload.reason", DR_Reason p)].

Definition DeviceDeactivateSucceededPayload_Validate (p : DeviceDeactivateSucceededPayload)
    : res unit :=
  validateLifecyclePayloadIDs (DS_OrgID p) (DS_AccountDeviceID p) ;;
  validateRequiredStrings [("payload.video_cloud_devid", DS_VideoCloudDevid p)] ;;
  requireSet "payload.deactivated_at" (DS_DeactivatedAt p) ;;
  validateUTC "payload.deactivated_at" (DS_DeactivatedAt p).

Definition DeviceDeactivateFailedPayload_Validate (p : DeviceDeactivateFailedPayload) : res unit :=
  validateLifecyclePayloadIDs (DF_OrgID p) (DF_AccountDeviceID p) ;;
  validateRequiredStrings
    [("payload.video_cloud_devid", DF_VideoCloudDevid p);
     ("payload.error_code", DF_ErrorCode p);
     ("payload.error_message", DF_ErrorMessage p)] ;;
  requireSet "payload.failed_at" (DF_FailedAt p) ;;
  validateUTC "payload.failed_at" (DF_FailedAt p).

Definition DeviceUnprovisionRequestedPayload_Validate (p : DeviceUnprovisionRequestedPayload)
    : res unit :=
  validateLifecyclePayloadIDs (UR_OrgID p) (UR_AccountDeviceID p) ;;
  validateRequiredStrings
    [("payload.video_cloud_devid", UR_VideoCloudDevid p);
     ("payload.requested_by", UR_RequestedBy p);
     ("payload.reason", UR_Reason p)] ;;
  requireSet "payload.unprovisioned_at" (UR_UnprovisionedAt p) ;;
  validateUTC "payload.unprovisioned_at" (UR_UnprovisionedAt p).

Definition DeviceUnprovisionSucceededPayload_Validate (p : DeviceUnprovisionSucceededPayload)
    : res unit :=
  validateLifecyclePayloadIDs (US_OrgID p) (US_AccountDeviceID p) ;;
  validateRequiredStrings [("payload.video_cloud_devid", US_VideoCloudDevid p)] ;;
  requireSet "payload.unprovisioned_at" (US_UnprovisionedAt p) ;;
  validateUTC "payload.unprovisioned_at" (US_UnprovisionedAt p).

Definition DeviceUnprovisionFailedPayload_Validate (p : DeviceUnprovisionFailedPayload)
    : res unit :=
  validateLifecyclePayloadIDs (UF_OrgID p) (UF_AccountDeviceID p) ;;
  validateRequiredStrings
    [("payload.video_cloud_devid", UF_VideoCloudDevid p);
     ("payload.error_code", UF_ErrorCode p);
     ("payload.error_message", UF_ErrorMessage p)] ;;
  requireSet "payload.failed_at" (UF_FailedAt p) ;;
  validateUTC "payload.failed_at" (UF_FailedAt p).

Definition DeviceEntitlementSnapshotRequestedPayload_Validate
    (p : DeviceEntitlementSnapshotRequestedPayload) : res unit :=
  validateLifecyclePayloadIDs (ER_OrgID p) (ER_AccountDeviceID p) ;;
  requireUUID "payload.product_id" (ER_ProductID p) ;;
  validateRequiredStrings
    [("payload.video_cloud_devid", ER_VideoCloudDevid p);
     ("payload.requested_by", ER_RequestedBy p)] ;;
  (if (ER_ProductServiceRevision p <? 1) || (ER_PlatformEntitlementRevision p <? 1) then
     fieldError "payload.platform_entitlement_revision" "revisions must be positive"
   else if negb (lower64 (ER_ServiceGrantSHA256 p)) then
     fieldError "payload.service_grant_sha256" "must be SHA-256 hex"
   else if negb (hex_ok (ER_ServiceGrantSHA256 p)) then
     fieldError "payload.service_grant_sha256" "must be SHA-256 hex"
   else if bool_decide (ER_ServiceOptions p = []) then
     fieldError "payload.service_options" "must be set"
   else Ok tt) ;;
  validateServiceOptions "payload.service_options" (ER_ServiceOptions p) ;;
  validateLogRetentionDays (ER_ServiceOptions p) (ER_LogRetentionDays p) ;;
  if negb (bool_decide (ER_State p = "active")) && negb (bool_decide (ER_State p = "suspended"))
     && negb (bool_decide (ER_State p = "revoked")) then
    fieldError "payload.state" "unsupported entitlement state"
  else Ok tt.

Definition DeviceEntitlementSnapshotSucceededPayload_Validate
    (p : DeviceEntitlementSnapshotSucceededPayload) : res unit :=
  validateLifecyclePayloadIDs (ES_OrgID p) (ES_AccountDeviceID p) ;;
  requireNonBlank "payload.video_cloud_devid" (ES_VideoCloudDevid p) ;;
  (if (ES_PlatformEntitlementRevision p <? 1) || IsZero (ES_AppliedAt p) then
     fieldError "payload.platform_entitlement_revision" "revision and applied_at are required"
   else Ok tt) ;;
  validateUTC "payload.applied_at" (ES_AppliedAt p).

Definition DeviceEntitlementSnapshotFailedPayload_Validate
    (p : DeviceEntitlementSnapshotFailedPayload) : res unit :=
  validateLifecyclePayloadIDs (EF_OrgID p) (EF_AccountDeviceID p) ;;
  validateRequiredStrings
    [("payload.video_cloud_devid", EF_VideoCloudDevid p);
     ("payload.error_code", EF_ErrorCode p);
     ("payload.error_message", EF_ErrorMessage p)] ;;
  (if (EF_PlatformEntitlementRevision p <? 1) || IsZero (EF_FailedAt p) then
     fieldError "payload.platform_entitlement_revision" "revision and failed_at are required"
   else Ok tt) ;;
  validateUTC "payload.failed_at" (EF_FailedAt p).

Definition DeviceOnlineChangedPayload_Validate (p : DeviceOnlineChangedPayload) : res unit :=
  validateLifecyclePayloadIDs (OC_OrgID p) (OC_AccountDeviceID p) ;;
  validateRequiredStrings [("payload.video_cloud_devid", OC_VideoCloudDevid p)] ;;
  (if negb (bool_decide (OC_Status p = OnlineStatusOnline))
      && negb (bool_decide (OC_Status p = OnlineStatusOffline)) then
     fieldError "payload.status" ("unsupported value " +:+ quote (OC_Status p))
   else Ok tt) ;;
  requireSet "payload.last_seen_at" (OC_LastSeenAt p) ;;
  validateUTC "payload.last_seen_at" (OC_LastSeenAt p).

Definition DeviceMetadataChangedPayload_Validate (p : DeviceMetadataChangedPayload) : res unit :=
  validateLifecyclePayloadIDs (MC_OrgID p) (MC_AccountDeviceID p) ;;
  validateRequiredStrings [("payload.video_cloud_devid", MC_VideoCloudDevid p)] ;;
  if MC_Metadata p is None then fieldError "payload.metadata" "must be set" else Ok tt.

(** The interface's two methods. *)
Definition Payload_Validate (p : Payload) : res unit :=
  match p with
  | ProvisionRequested p => DeviceProvisionRequestedPayload_Validate p
  | ProvisionSucceeded p => DeviceProvisionSucceededPayload_Validate p
  | ProvisionFailed p => DeviceProvisionFailedPayload_Validate p
  | DeactivateRequested p => DeviceDeactivateRequestedPayload_Validate p
  | DeactivateSucceeded p => DeviceDeactivateSucceededPayload_Validate p
  | DeactivateFailed p => DeviceDeactivateFailedPayload_Validate p
  | UnprovisionRequested p => DeviceUnprovisionRequestedPayload_Validate p
  | UnprovisionSucceeded p => DeviceUnprovisionSucceededPayload_Validate p
  | UnprovisionFailed p => DeviceUnprovisionFailedPayload_Validate p
  | EntitlementSnapshotRequested p => DeviceEntitlementSnapshotRequestedPayload_Validate p
  | EntitlementSnapshotSucceeded p => DeviceEntitlementSnapshotSucceededPayload_Validate p
  | EntitlementSnapshotFailed p => DeviceEntitlementSnapshotFailedPayload_Validate p
  | OnlineChanged p => DeviceOnlineChangedPayload_Validate p
  | MetadataChanged p => DeviceMetadataChangedPayload_Validate p
  end.

Definition Payload_PartitionKey (p : Payload) : string :=
  match p with
  | ProvisionRequested p => PR_AccountDeviceID p
  | ProvisionSucceeded p => PS_AccountDeviceID p
  | ProvisionFailed p => PF_AccountDeviceID p
  | DeactivateRequested p => DR_AccountDeviceID p
  | DeactivateSucceeded p => DS_AccountDeviceID p
  | DeactivateFailed p => DF_AccountDeviceID p
  | UnprovisionRequested p => UR_AccountDeviceID p
  | UnprovisionSucceeded p => US_AccountDeviceID p
  | UnprovisionFailed p => UF_AccountDeviceID p
  | EntitlementSnapshotRequested p => ER_AccountDeviceID p
  | EntitlementSnapshotSucceeded p => ES_AccountDeviceID p
  | EntitlementSnapshotFailed p => EF_AccountDeviceID p
  | OnlineChanged p => OC_AccountDeviceID p
  | MetadataChanged p => MC_AccountDeviceID p
  end.

(** ** Decoding: the structs' JSON fields *)

Definition ids : schema :=
  [("org_id", KString); ("account_device_id", KString); ("video_cloud_devid", KString)].
Definition failure : schema :=
  [("error_code", KString); ("error_message", KString); ("retryable", KBool);
   ("failed_at", KTime)].

(** The JSON fields of the struct behind a payload. *)
Definition payload_schema (p : Payload) : schema :=
  match p with
  | ProvisionRequested _ => ids ++
      [("activity_id", KString); ("clip_public_key", KString); ("service_options", KStrings);
       ("product_id", KString); ("product_service_revision", KInt64Ptr);
       ("service_grant_sha256", KString); ("log_retention_days", KInt64Ptr);
       ("transfer_reservation_id", KString); ("requested_by", KString)]
  | ProvisionSucceeded _ => ids ++ [("activity_id", KString); ("activated_at", KTime)]
  | ProvisionFailed _ => ids ++ [("activity_id", KString)] ++ failure
  | DeactivateRequested _ => ids ++
      [("activity_id", KString); ("requested_by", KString); ("reason", KString)]
  | DeactivateSucceeded _ => ids ++ [("activity_id", KString); ("deactivated_at", KTime)]
  | DeactivateFailed _ => ids ++ [("activity_id", KString)] ++ failure
  | UnprovisionRequested _ => ids ++
      [("requested_by", KString); ("reason", KString); ("platform_override", KBool);
       ("unprovisioned_at", KTime)]
  | UnprovisionSucceeded _ => ids ++ [("unprovisioned_at", KTime)]
  | UnprovisionFailed _ => ids ++ failure
  | EntitlementSnapshotRequested _ => ids ++
      [("product_id", KString); ("product_service_revision", KInt64);
       ("service_grant_sha256", KString); ("platform_entitlement_revision", KInt64);
       ("service_options", KStrings); ("log_retention_days", KInt64Ptr); ("state", KString);
       ("requested_by", KString)]
  | EntitlementSnapshotSucceeded _ => ids ++
      [("platform_entitlement_revision", KInt64); ("applied_at", KTime)]
  | EntitlementSnapshotFailed _ => ids ++ [("platform_entitlement_revision", KInt64)] ++ failure
  | OnlineChanged _ => ids ++ [("status", KString); ("last_seen_at", KTime)]
  | MetadataChanged _ => ids ++ [("metadata", KMap)]
  end.

(** The struct of the same type as [p] with the decoded fields. *)
Definition payload_of (p : Payload) (t : fields) : Payload :=
  let str := get_string t in
  let org := str "org_id" in
  let dev := str "account_device_id" in
  let vid := str "video_cloud_devid" in
  match p with
  | ProvisionRequested _ => ProvisionRequested (mkProvisionRequested org dev vid
      (str "activity_id") (str "clip_public_key") (get_strings t "service_options")
      (str "product_id") (get_int_ptr t "product_service_revision") (str "service_grant_sha256")
      (get_int_ptr t "log_retention_days") (str "transfer_reservation_id") (str "requested_by"))
  | ProvisionSucceeded _ => ProvisionSucceeded (mkProvisionSucceeded org dev vid
      (str "activity_id") (get_time t "activated_at"))
  | ProvisionFailed _ => ProvisionFailed (mkProvisionFailed org dev vid
      (str "activity_id") (str "error_code") (str "error_message")
      (get_bool t "retryable") (get_time t "failed_at"))
  | DeactivateRequested _ => DeactivateRequested (mkDeactivateRequested org dev vid
      (str "activity_id") (str "requested_by") (str "reason"))
  | DeactivateSucceeded _ => DeactivateSucceeded (mkDeactivateSucceeded org dev vid
      (str "activity_id") (get_time t "deactivated_at"))
  | DeactivateFailed _ => DeactivateFailed (mkDeactivateFailed org dev vid
      (str "activity_id") (str "error_code") (str "error_message")
      (get_bool t "retryable") (get_time t "failed_at"))
  | UnprovisionRequested _ => UnprovisionRequested (mkUnprovisionRequested org dev vid
      (str "requested_by") (str "reason") (get_bool t "platform_override")
      (get_time t "unprovisioned_at"))
  | UnprovisionSucceeded _ => UnprovisionSucceeded (mkUnprovisionSucceeded org dev vid
      (get_time t "unprovisioned_at"))
  | UnprovisionFailed _ => UnprovisionFailed (mkUnprovisionFailed org dev vid
      (str "error_code") (str "error_message") (get_bool t "retryable") (get_time t "failed_at"))
  | EntitlementSnapshotRequested _ =>
      EntitlementSnapshotRequested (mkEntitlementSnapshotRequested org dev vid
      (str "product_id") (get_int t "product_service_revision") (str "service_grant_sha256")
      (get_int t "platform_entitlement_revision") (get_strings t "service_options")
      (get_int_ptr t "log_retention_days") (str "state") (str "requested_by"))
  | EntitlementSnapshotSucceeded _ =>
      EntitlementSnapshotSucceeded (mkEntitlementSnapshotSucceeded org dev vid
      (get_int t "platform_entitlement_revision") (get_time t "applied_at"))
  | EntitlementSnapshotFailed _ =>
      EntitlementSnapshotFailed (mkEntitlementSnapshotFailed org dev vid
      (get_int t "platform_entitlement_revision") (str "error_code") (str "error_message")
      (get_bool t "retryable") (get_time t "failed_at"))
  | OnlineChanged _ => OnlineChanged (mkOnlineChanged org dev vid
      (str "status") (get_time t "last_seen_at"))
  | MetadataChanged _ => MetadataChanged (mkMetadataChanged org dev vid (get_map t "metadata"))
  end.

(** [decodeStrictJSON(raw, p)]: unknown fields and trailing text are errors. *)
Definition decodeStrictJSON_payload (raw : RawMessage) (p : Payload) : res Payload :=
  match raw with
  | RawInvalid _ err => Err (ErrText err)
  | RawValue _ v => t ← decode_struct (payload_schema p) v; Ok (payload_of p t)
  end.

(** [decodeStrictJSON(raw, &decoded)] for [map[string]json.RawMessage]: only
    the keys are looked at. *)
Definition decodeStrictJSON_keys (raw : RawMessage) : res (list string) :=
  match raw with
  | RawInvalid _ err => Err (ErrText err)
  | RawValue _ (AMap ms) => Ok ms.*1
  | RawValue _ ANil => Ok []
  | RawValue _ v => type_error v "value of type map[string]json.RawMessage"
  end.

Fixpoint requireJSONFields_loop (decoded : list string) (prefix : string)
    (fields : list string) : res unit :=
  match fields with
  | [] => Ok tt
  | field :: fields =>
      if bool_decide (field ∈ decoded) then requireJSONFields_loop decoded prefix fields
      else fieldError (prefix +:+ "." +:+ field) "must be set"
  end.
Definition requireJSONFields (raw : RawMessage) (prefix : string) (fields : list string)
    : res unit :=
  if bool_decide (fields = []) then Ok tt
  else decoded ← decodeStrictJSON_keys raw; requireJSONFields_loop decoded prefix fields.

Definition envelope_schema : schema :=
  [("message_id", KString); ("correlation_id", KString); ("causation_id", KString);
   ("operation_id", KString); ("source_service", KString); ("target_service", KString);
   ("message_type", KString); ("schema_version", KString); ("partition_key", KString);
   ("occurred_at", KTime); ("payload", KRaw)].

(** [json.Unmarshal(data, &envelope)].  The payload's text is reprinted from
    its value: only whether it is empty matters later. *)
Definition Envelope_UnmarshalJSON (data : RawMessage) : res Envelope :=
  match data with
  | RawInvalid _ err => Err (ErrText err)
  | RawValue _ v =>
      t ← decode_struct envelope_schema v;
      let str := get_string t in
      Ok (mkEnvelope (str "message_id") (str "correlation_id") (str "causation_id")
            (str "operation_id") (str "source_service") (str "target_service")
            (str "message_type") (str "schema_version") (str "partition_key")
            (get_time t "occurred_at")
            match t !! "payload" with
            | Some v => RawValue (json_text v) v
            | None => RawInvalid "" "EOF"
            end)
  end.

(** ** The table of message types *)

Record messageSpec := mkSpec {
  stream : string;
  sourceService : string;
  targetService : string;
  requiredJSONFields : list string;
  newPayload : Payload;
}.

(** The struct with every field at its zero value. *)
Definition command_spec (required : list string) (zero : Payload) : messageSpec :=
  mkSpec StreamAccountVideoCommands ServiceAccountManager ServiceRealtekVideoCloud required
    (payload_of zero ∅).
Definition event_spec (required : list string) (zero : Payload) : messageSpec :=
  mkSpec StreamVideoAccountEvents ServiceRealtekVideoCloud ServiceAccountManager required
    (payload_of zero ∅).

Definition messageSpecs : list (MessageType * messageSpec) :=
  [(MessageTypeDeviceProvisionRequested, command_spec []
      (ProvisionRequested (mkProvisionRequested "" "" "" "" "" [] "" None "" None "" "")));
   (MessageTypeDeviceProvisionSucceeded, event_spec []
      (ProvisionSucceeded (mkProvisionSucceeded "" "" "" "" zero_time)));
   (MessageTypeDeviceProvisionFailed, event_spec ["retryable"]
      (ProvisionFailed (mkProvisionFailed "" "" "" "" "" "" false zero_time)));
   (MessageTypeDeviceDeactivateRequested, command_spec []
      (DeactivateRequested (mkDeactivateRequested "" "" "" "" "" "")));
   (MessageTypeDeviceDeactivateSucceeded, event_spec []
      (DeactivateSucceeded (mkDeactivateSucceeded "" "" "" "" zero_time)));
   (MessageTypeDeviceDeactivateFailed, event_spec ["retryable"]
      (DeactivateFailed (mkDeactivateFailed "" "" "" "" "" "" false zero_time)));
   (MessageTypeDeviceUnprovisionRequested, command_spec ["platform_override"]
      (UnprovisionRequested (mkUnprovisionRequested "" "" "" "" "" false zero_time)));
   (MessageTypeDeviceUnprovisionSucceeded, event_spec []
      (UnprovisionSucceeded (mkUnprovisionSucceeded "" "" "" zero_time)));
   (MessageTypeDeviceUnprovisionFailed, event_spec ["retryable"]
      (UnprovisionFailed (mkUnprovisionFailed "" "" "" "" "" false zero_time)));
   (MessageTypeDeviceEntitlementSnapshotRequested, command_spec []
      (EntitlementSnapshotRequested
        (mkEntitlementSnapshotRequested "" "" "" "" 0 "" 0 [] None "" "")));
   (MessageTypeDeviceEntitlementSnapshotSucceeded, event_spec []
      (EntitlementSnapshotSucceeded (mkEntitlementSnapshotSucceeded "" "" "" 0 zero_time)));
   (MessageTypeDeviceEntitlementSnapshotFailed, event_spec ["retryable"]
      (EntitlementSnapshotFailed
        (mkEntitlementSnapshotFailed "" "" "" 0 "" "" false zero_time)));
   (MessageTypeDeviceOnlineChanged, event_spec []
      (OnlineChanged (mkOnlineChanged "" "" "" "" zero_time)));
   (MessageTypeDeviceMetadataChanged, event_spec []
      (MetadataChanged (mkMetadataChanged "" "" "" None)))].

Definition spec_for (messageType : MessageType) : option messageSpec :=
  snd ∘ snd <$> list_find (λ kv, kv.1 = messageType) messageSpecs.

Record Route := mkRoute {
  Route_Stream : string;
  Route_SourceService : string;
  Route_TargetService : string;
}.

Definition RouteForMessageType (messageType : MessageType) : res Route :=
  match spec_for messageType with
  | None => Err (ErrText ("unsupported message type " +:+ quote messageType))
  | Some spec => Ok (mkRoute (stream spec) (sourceService spec) (targetService spec))
  end.

(** ** Envelope.ValidateAndDecode *)

Definition must_use (field : string) (messageType : MessageType) (value : string) : res unit :=
  fieldError field ("message type " +:+ quote messageType +:+ " must use " +:+ quote value).

Definition ValidateAndDecode (e : Envelope) (expectedStream : string) : res Payload :=
  requireNonBlank "message_id" (MessageID e) ;;
  requireNonBlank "correlation_id" (CorrelationID e) ;;
  requireNonBlank "operation_id" (OperationID e) ;;
  requireNonBlank "source_service" (SourceService e) ;;
  requireNonBlank "target_service" (TargetService e) ;;
  requireNonBlank "message_type" (Envelope_MessageType e) ;;
  requireNonBlank "schema_version" (SchemaVersion e) ;;
  requireNonBlank "partition_key" (PartitionKey e) ;;
  requireSet "occurred_at" (OccurredAt e) ;;
  validateUTC "occurred_at" (OccurredAt e) ;;
  (if bool_decide (raw_text (Envelope_Payload e) = "") then fieldError "payload" "must be set"
   else Ok tt) ;;
  match spec_for (Envelope_MessageType e) with
  | None =>
      fieldError "message_type" ("unsupported value " +:+ quote (Envelope_MessageType e))
  | Some spec =>
      (if negb (bool_decide (SchemaVersion e = SchemaVersionV1)) then
         fieldError "schema_version" ("unsupported value " +:+ quote (SchemaVersion e))
       else Ok tt) ;;
      (if negb (bool_decide (expectedStream = ""))
          && negb (bool_decide (expectedStream = stream spec)) then
         must_use "stream" (Envelope_MessageType e) (stream spec)
       else Ok tt) ;;
      (if negb (bool_decide (SourceService e = sourceService spec)) then
         must_use "source_service" (Envelope_MessageType e) (sourceService spec)
       else Ok tt) ;;
      (if negb (bool_decide (TargetService e = targetService spec)) then
         must_use "target_service" (Envelope_MessageType e) (targetService spec)
       else Ok tt) ;;
      requireJSONFields (Envelope_Payload e) "payload" (requiredJSONFields spec) ;;
      payload ← match decodeStrictJSON_payload (Envelope_Payload e) (newPayload spec) with
                | Ok payload => Ok payload
                | Err err => Err (ErrWrap "payload" err)
                end;
      Payload_Validate payload ;;
      if negb (bool_decide (PartitionKey e = Payload_PartitionKey payload)) then
        fieldError "partition_key" "must equal payload.account_device_id"
      else Ok payload
  end.

(** Envelope.Validate *)
Definition Envelope_Validate (e : Envelope) (expectedStream : string) : res unit :=
  _ ← ValidateAndDecode e expectedStream; Ok tt.

(** ** What the checks mean *)

Lemma requireNonBlank_ok field value :
  requireNonBlank field value = Ok tt ↔ blank value = false.
Proof. unfold requireNonBlank. destruct (blank value); done. Qed.

Lemma validateRequiredStrings_ok l :
  validateRequiredStrings l = Ok tt ↔ Forall (λ nv, blank nv.2 = false) l.
Proof.
  induction l as [|[n v] l IH]; simpl.
  - split; [constructor | done].
  - by rewrite res_seq_ok, requireNonBlank_ok, IH, Forall_cons.
Qed.

Lemma requireUUID_ok field value :
  requireUUID field value = Ok tt ↔ blank value = false ∧ isUUID value = true.
Proof.
  unfold requireUUID. rewrite res_seq_ok, requireNonBlank_ok.
  destruct (isUUID value); simpl; naive_solver.
Qed.

Lemma requireSet_ok field value : requireSet field value = Ok tt ↔ IsZero value = false.
Proof. unfold requireSet. destruct (IsZero value); done. Qed.

Lemma validateUTC_ok field value : validateUTC field value = Ok tt ↔ t_offset value = 0.
Proof. unfold validateUTC. destruct (Z.eqb_spec (t_offset value) 0); naive_solver. Qed.

Lemma fieldError_not_ok {A} f m (a : A) : fieldError f m ≠ Ok a.
Proof. done. Qed.

(** A check written [if b { return fieldError(...) }]. *)
Lemma check_ok (b : bool) e : (if b then Err e else Ok tt) = Ok tt ↔ b = false.
Proof. destruct b; naive_solver. Qed.

Lemma negb_bool_decide_false `{Decision P} : negb (bool_decide P) = false ↔ P.
Proof. by rewrite negb_false_iff, bool_decide_eq_true. Qed.

#[export] Hint Rewrite @res_seq_ok requireNonBlank_ok validateRequiredStrings_ok requireUUID_ok
  requireSet_ok validateUTC_ok check_ok @negb_bool_decide_false : checks.

Lemma validateLifecyclePayloadIDs_ok o d :
  validateLifecyclePayloadIDs o d = Ok tt ↔
    (blank o = false ∧ isUUID o = true) ∧ blank d = false ∧ isUUID d = true.
Proof. unfold validateLifecyclePayloadIDs. by autorewrite with checks. Qed.
#[export] Hint Rewrite validateLifecyclePayloadIDs_ok : checks.

(** *** Service options *)

Lemma validateServiceOptions_loop_ok field seen options :
  validateServiceOptions_loop field seen options = Ok tt ↔
    Forall (λ o, serviceOptionCodePattern o = true) options ∧ NoDup options ∧
    Forall (.∉ seen) options.
Proof.
  revert seen. induction options as [|o l IH]; intros seen; simpl.
  { repeat split; constructor. }
  rewrite !Forall_cons, NoDup_cons.
  destruct (serviceOptionCodePattern o) eqn:E; simpl; [|naive_solver].
  case_bool_decide as Hs; [naive_solver|].
  rewrite IH, !Forall_forall. set_solver.
Qed.

(** *** UUIDs *)

Lemma hex_decode_some l :
  is_Some (hex_decode l) ↔ Forall (λ c, is_hex c = true) l ∧ Nat.Even (length l).
Proof.
  assert (∀ n, (length l ≤ n)%nat → is_Some (hex_decode l) ↔
    Forall (λ c, is_hex c = true) l ∧ Nat.Even (length l)) as H; [|by eapply H].
  intros n. revert l. induction n as [|n IH]; intros [|h [|l r]] Hn; simpl in *; try lia.
  1-2: split; [repeat constructor; by exists 0%nat|eauto].
  - split; [intros []; done|]. intros [_ [k Hk]]. lia.
  - rewrite !Forall_cons, Nat.Even_succ_succ. unfold is_hex at 1 2.
    rewrite !bool_decide_eq_true.
    trans (is_Some (hex_value h) ∧ is_Some (hex_value l) ∧ is_Some (hex_decode r)).
    + destruct (hex_value h), (hex_value l), (hex_decode r); simpl;
        unfold is_Some; naive_solver.
    + rewrite IH by lia. tauto.
Qed.

Lemma hex_DecodeString_some s :
  is_Some (hex_DecodeString s) ↔
    Forall (λ c, is_hex c = true) (to_bytes s) ∧ Nat.Even (length (to_bytes s)).
Proof. apply hex_decode_some. Qed.

Lemma to_of_bytes l : to_bytes (of_bytes l) = l.
Proof. apply String.list_ascii_of_string_of_list_ascii. Qed.
Lemma of_to_bytes s : of_bytes (to_bytes s) = s.
Proof. apply String.string_of_list_ascii_of_string. Qed.
Lemma length_to_bytes s : length (to_bytes s) = String.length s.
Proof. induction s; simpl; congruence. Qed.
#[export] Hint Rewrite to_of_bytes of_to_bytes length_to_bytes : rtk.

(** Groups of hexadecimal digits of lengths 8, 4, 4, 4, 12 joined by dashes. *)
Definition uuid_shape (l : bytes) : Prop :=
  ∃ a b c d e, l = a ++ ["-"%char] ++ b ++ ["-"%char] ++ c ++ ["-"%char] ++ d ++ ["-"%char] ++ e
    ∧ length a = 8%nat ∧ length b = 4%nat ∧ length c = 4%nat ∧ length d = 4%nat
    ∧ length e = 12%nat ∧ Forall (λ x, is_hex x = true) (a ++ b ++ c ++ d ++ e).

(** Name the elements of a list of known length. *)
Ltac explode l H :=
  destruct l as [|? l]; cbn [length] in H;
  [ first [ discriminate H | clear H ]
  | first [ discriminate H | injection H as H; explode l H ] ].

Lemma isUUID_shape v : isUUID v = true ↔ uuid_shape (to_bytes v).
Proof.
  unfold isUUID, byte_at, slice, str_len, uuid_shape. simpl.
  rewrite <-length_to_bytes. generalize (to_bytes v) as l. intros l. split.
  - destruct (Z.eqb_spec (Z.of_nat (length l)) 36) as [Hlen|]; simpl; [|done].
    do 4 (case_bool_decide; simpl; [|done]).
    rewrite !andb_true_iff, !bool_decide_eq_true, !hex_DecodeString_some, !to_of_bytes.
    intros ([H8 _] & [H9 _] & [H14 _] & [H19 _] & [H24 _] & _).
    exists (take 8 l), (take 4 (drop 9 l)), (take 4 (drop 14 l)), (take 4 (drop 19 l)),
      (take 12 (drop 24 l)).
    rewrite !Forall_app. assert (length l = 36%nat) as Hl by lia. clear Hlen.
    explode l Hl. cbn in *. simplify_eq. split_and!; done.
  - intros (a & b & c & d & e & -> & Ha & Hb & Hc & Hd & He & Hhex).
    rewrite !Forall_app in Hhex. destruct Hhex as (H1 & H2 & H3 & H4 & H5).
    explode a Ha. explode b Hb. explode c Hc. explode d Hd. explode e He.
    cbn [app length take drop lookup list_lookup Nat.sub].
    change (Z.of_nat 36 =? 36) with true. rewrite !bool_decide_true by done. cbn [negb orb forallb].
    rewrite !andb_true_iff, !bool_decide_eq_true, !hex_DecodeString_some, !to_of_bytes.
    split_and!; try done; by apply Nat.even_spec.
Qed.

(** ** Which envelopes are accepted *)

(** The message type a payload struct belongs to. *)
Definition message_type_of (p : Payload) : MessageType :=
  match p with
  | ProvisionRequested _ => MessageTypeDeviceProvisionRequested
  | ProvisionSucceeded _ => MessageTypeDeviceProvisionSucceeded
  | ProvisionFailed _ => MessageTypeDeviceProvisionFailed
  | DeactivateRequested _ => MessageTypeDeviceDeactivateRequested
  | DeactivateSucceeded _ => MessageTypeDeviceDeactivateSucceeded
  | DeactivateFailed _ => MessageTypeDeviceDeactivateFailed
  | UnprovisionRequested _ => MessageTypeDeviceUnprovisionRequested
  | UnprovisionSucceeded _ => MessageTypeDeviceUnprovisionSucceeded
  | UnprovisionFailed _ => MessageTypeDeviceUnprovisionFailed
  | EntitlementSnapshotRequested _ => MessageTypeDeviceEntitlementSnapshotRequested
  | EntitlementSnapshotSucceeded _ => MessageTypeDeviceEntitlementSnapshotSucceeded
  | EntitlementSnapshotFailed _ => MessageTypeDeviceEntitlementSnapshotFailed
  | OnlineChanged _ => MessageTypeDeviceOnlineChanged
  | MetadataChanged _ => MessageTypeDeviceMetadataChanged
  end.

(** The types the two streams carry: the CHECK constraints of the outbox and
    inbox tables list the same names. *)
Definition command_types : list MessageType :=
  [MessageTypeDeviceProvisionRequested; MessageTypeDeviceDeactivateRequested;
   MessageTypeDeviceUnprovisionRequested; MessageTypeDeviceEntitlementSnapshotRequested].
Definition event_types : list MessageType :=
  [MessageTypeDeviceProvisionSucceeded; MessageTypeDeviceProvisionFailed;
   MessageTypeDeviceDeactivateSucceeded; MessageTypeDeviceDeactivateFailed;
   MessageTypeDeviceUnprovisionSucceeded; MessageTypeDeviceUnprovisionFailed;
   MessageTypeDeviceEntitlementSnapshotSucceeded; MessageTypeDeviceEntitlementSnapshotFailed;
   MessageTypeDeviceOnlineChanged; MessageTypeDeviceMetadataChanged].

Definition command_route : Route :=
  mkRoute StreamAccountVideoCommands ServiceAccountManager ServiceRealtekVideoCloud.
Definition event_route : Route :=
  mkRoute StreamVideoAccountEvents ServiceRealtekVideoCloud ServiceAccountManager.

Lemma spec_for_in t spec : spec_for t = Some spec → (t, spec) ∈ messageSpecs.
Proof.
  unfold spec_for. intros H. apply fmap_Some in H as ([i [k v]] & Hf & ->).
  apply list_find_Some in Hf as (Hi & Hk & _). simpl in *. subst k.
  by eapply list_elem_of_lookup_2.
Qed.

(** Case analysis on the entry of the table. *)
Ltac spec_cases H :=
  apply spec_for_in in H; unfold messageSpecs in H;
  repeat (apply elem_of_cons in H as [H|H]); [..|by apply not_elem_of_nil in H]; simplify_eq.

Lemma message_type_of_payload_of p t : message_type_of (payload_of p t) = message_type_of p.
Proof. by destruct p. Qed.

Lemma spec_for_type t spec : spec_for t = Some spec → message_type_of (newPayload spec) = t.
Proof. intros H. spec_cases H; done. Qed.

Lemma decodeStrictJSON_payload_type raw p p' :
  decodeStrictJSON_payload raw p = Ok p' → message_type_of p' = message_type_of p.
Proof.
  destruct raw; simpl; [|done]. rewrite res_bind_ok. intros (t & _ & [= <-]).
  apply message_type_of_payload_of.
Qed.

Record accepted (e : Envelope) (expectedStream : string) (p : Payload) (spec : messageSpec)
    : Prop := {
  acc_ids : Forall (λ s, blank s = false)
    [MessageID e; CorrelationID e; OperationID e; SourceService e; TargetService e;
     Envelope_MessageType e; SchemaVersion e; PartitionKey e];
  acc_set : IsZero (OccurredAt e) = false;
  acc_utc : t_offset (OccurredAt e) = 0;
  acc_spec : spec_for (Envelope_MessageType e) = Some spec;
  acc_version : SchemaVersion e = SchemaVersionV1;
  acc_stream : expectedStream = "" ∨ expectedStream = stream spec;
  acc_source : SourceService e = sourceService spec;
  acc_target : TargetService e = targetService spec;
  acc_fields : requireJSONFields (Envelope_Payload e) "payload" (requiredJSONFields spec) = Ok tt;
  acc_decode : decodeStrictJSON_payload (Envelope_Payload e) (newPayload spec) = Ok p;
  acc_valid : Payload_Validate p = Ok tt;
  acc_key : PartitionKey e = Payload_PartitionKey p;
}.

Lemma ValidateAndDecode_accepted e s p :
  ValidateAndDecode e s = Ok p → ∃ spec, accepted e s p spec.
Proof.
  unfold ValidateAndDecode. autorewrite with checks.
  intros (?&?&?&?&?&?&?&?&?&?&?& H).
  destruct (spec_for (Envelope_MessageType e)) as [spec|] eqn:Hs; [|done]. exists spec.
  rewrite !res_seq_ok, res_bind_ok in H. unfold must_use, fieldError in H.
  rewrite !check_ok, !negb_bool_decide_false in H.
  destruct H as (? & Hst & ? & ? & ? & p' & Hd & H).
  rewrite res_seq_ok in H. destruct H as [? H].
  destruct (decodeStrictJSON_payload _ _) eqn:E; [|done]. injection Hd as <-.
  case_bool_decide as Hk; simpl in H; [|done]. injection H as <-.
  constructor; try done.
  - by repeat constructor.
  - rewrite andb_false_iff, !negb_bool_decide_false in Hst. done.
Qed.

Lemma Payload_Validate_partition_key p :
  Payload_Validate p = Ok tt → isUUID (Payload_PartitionKey p) = true.
Proof.
  destruct p; simpl;
  match goal with |- ?f _ = _ → _ => unfold f end;
  rewrite res_seq_ok, validateLifecyclePayloadIDs_ok; naive_solver.
Qed.

(** C39: [Envelope.ValidateAndDecode] accepts only well-formed messages: the decoded struct is the
    one of the message type, the stream and the two services are the type's route, the
    schema version is 1.0, the time is set and in UTC, no envelope identifier is blank, the
    payload passes its own checks, and the partition key is the payload's device id, a UUID. *)
Theorem ValidateAndDecode_sound e expectedStream p :
  ValidateAndDecode e expectedStream = Ok p →
  message_type_of p = Envelope_MessageType e ∧
  (∃ r, RouteForMessageType (message_type_of p) = Ok r ∧
     (expectedStream ≠ "" → Route_Stream r = expectedStream) ∧
     Route_SourceService r = SourceService e ∧ Route_TargetService r = TargetService e) ∧
  SchemaVersion e = "1.0" ∧ IsZero (OccurredAt e) = false ∧ t_offset (OccurredAt e) = 0 ∧
  blank (MessageID e) = false ∧ blank (CorrelationID e) = false ∧ blank (OperationID e) = false ∧
  Payload_Validate p = Ok tt ∧
  PartitionKey e = Payload_PartitionKey p ∧ uuid_shape (to_bytes (PartitionKey e)).
Proof.
  intros [spec H]%ValidateAndDecode_accepted.
  pose proof (acc_ids _ _ _ _ H) as Hids. rewrite !Forall_cons in Hids.
  pose proof (acc_key _ _ _ _ H) as Hk.
  assert (message_type_of p = Envelope_MessageType e) as Ht.
  { erewrite decodeStrictJSON_payload_type by apply (acc_decode _ _ _ _ H).
    apply spec_for_type, H. }
  repeat match goal with |- _ ∧ _ => split end; try apply H; try tauto.
  - unfold RouteForMessageType. rewrite Ht, (acc_spec _ _ _ _ H).
    eexists; split; [done|]. simpl.
    rewrite <-(acc_source _ _ _ _ H), <-(acc_target _ _ _ _ H).
    split; [|done]. destruct (acc_stream _ _ _ _ H); [done|auto].
  - apply isUUID_shape. rewrite Hk. apply Payload_Validate_partition_key, H.
Qed.

(** The table of message types has one direction per type: the four commands go out on
    [account.video.commands] from the account manager, the ten events come in on
    [video.account.events] from the video cloud, and every other type is refused. *)
Theorem RouteForMessageType_directions t r :
  RouteForMessageType t = Ok r ↔
    (t ∈ command_types ∧ r = command_route) ∨ (t ∈ event_types ∧ r = event_route).
Proof.
  split.
  - unfold RouteForMessageType. destruct (spec_for t) as [spec|] eqn:H; [|done].
    intros [= <-]. spec_cases H; unfold command_types, event_types; set_solver.
  - unfold command_types, event_types.
    intros [[H ->]|[H ->]]; repeat (apply elem_of_cons in H as [->|H]; [reflexivity|]);
      by apply not_elem_of_nil in H.
Qed.

(** [validateServiceOptions] accepts exactly the lists of at most 64 distinct codes of the
    form [a-z][a-z0-9_]*, at most 64 characters each. *)
Theorem validateServiceOptions_spec field options :
  validateServiceOptions field options = Ok tt ↔
    (length options ≤ 64)%nat ∧ NoDup options ∧
    Forall (λ o, ∃ c rest, to_bytes o = c :: rest ∧ (length rest ≤ 63)%nat ∧
      lower_letter c = true ∧ Forall (λ x, option_char x = true) rest) options.
Proof.
  assert (∀ o, serviceOptionCodePattern o = true ↔
    ∃ c rest, to_bytes o = c :: rest ∧ (length rest ≤ 63)%nat ∧
      lower_letter c = true ∧ Forall (λ x, option_char x = true) rest) as Hp.
  { intros o. unfold serviceOptionCodePattern. destruct (to_bytes o) as [|c rest]; [naive_solver|].
    rewrite !andb_true_iff, forallb_Forall, Nat.leb_le. naive_solver. }
  unfold validateServiceOptions. destruct (Nat.ltb_spec 64 (length options)); [naive_solver lia|].
  rewrite validateServiceOptions_loop_ok.
  assert (Forall (.∉ (∅ : gset string)) options) by (apply Forall_forall; set_solver).
  pose proof (Forall_iff _ options _ Hp). naive_solver.
Qed.

(** A presence event as the video cloud sends it. *)
Definition sample_uuid : string := "6f1c2d3e-0a1b-4c5d-8e9f-001122334455".
Definition sample_org : string := "00000000-0000-4000-8000-000000000001".
Definition sample_time : Time := mkTime (1700000000 * Second) 0.

Definition sample_online_payload : any :=
  AMap [("org_id", AString sample_org); ("account_device_id", AString sample_uuid);
        ("video_cloud_devid", AString "devid-1"); ("status", AString "online");
        ("last_seen_at", AString "2023-11-14T22:13:20Z")].

Definition sample_online_event : Envelope :=
  mkEnvelope "evt-1" "corr-1" "" "op-1" ServiceRealtekVideoCloud ServiceAccountManager
    MessageTypeDeviceOnlineChanged "1.0" sample_uuid sample_time
    (RawValue "{...}" sample_online_payload).

Definition sample_online : Payload :=
  OnlineChanged (mkOnlineChanged sample_org sample_uuid "devid-1" "online" sample_time).

Lemma sample_online_accepted :
  ValidateAndDecode sample_online_event StreamVideoAccountEvents = Ok sample_online.
Proof. vm_compute. reflexivity. Qed.

Lemma ValidateAndDecode_sound_witness :
  message_type_of sample_online = MessageTypeDeviceOnlineChanged ∧
  uuid_shape (to_bytes sample_uuid).
Proof.
  pose proof (ValidateAndDecode_sound _ _ _ sample_online_accepted) as H.
  split; apply H.
Defined.

(** A struct whose boolean must be spelled out in the JSON text: absent, it
    would silently read as false. *)
Definition explicit_member (p : Payload) : option string :=
  match p with
  | ProvisionFailed _ | DeactivateFailed _ | UnprovisionFailed _ | EntitlementSnapshotFailed _ =>
      Some "retryable"
  | UnprovisionRequested _ => Some "platform_override"
  | _ => None
  end.

Lemma explicit_member_payload_of p t : explicit_member (payload_of p t) = explicit_member p.
Proof. by destruct p. Qed.

Lemma explicit_member_required t spec name :
  spec_for t = Some spec → explicit_member (newPayload spec) = Some name →
  name ∈ requiredJSONFields spec.
Proof. intros H Hn. spec_cases H; simpl in *; simplify_eq; set_solver. Qed.

Lemma requireJSONFields_loop_ok ks prefix fs :
  requireJSONFields_loop ks prefix fs = Ok tt ↔ Forall (.∈ ks) fs.
Proof.
  induction fs as [|f fs IH]; simpl; [split; [constructor|done]|].
  rewrite Forall_cons. case_bool_decide; [by rewrite IH; naive_solver | naive_solver].
Qed.

Lemma requireJSONFields_ok raw prefix fs :
  requireJSONFields raw prefix fs = Ok tt → fs ≠ [] →
  ∃ ks, decodeStrictJSON_keys raw = Ok ks ∧ Forall (.∈ ks) fs.
Proof.
  unfold requireJSONFields. case_bool_decide; [done|]. rewrite res_bind_ok.
  intros (ks & ? & ?%requireJSONFields_loop_ok). eauto.
Qed.

(** A failure report is accepted only if its JSON object spells out [retryable], and an
    unprovision command only if it spells out [platform_override]: a missing boolean is never
    read as false. *)
Theorem failure_has_explicit_retryable e expectedStream p name :
  ValidateAndDecode e expectedStream = Ok p → explicit_member p = Some name →
  ∃ text ms, Envelope_Payload e = RawValue text (AMap ms) ∧ name ∈ ms.*1.
Proof.
  intros [spec H]%ValidateAndDecode_accepted Hname.
  assert (name ∈ requiredJSONFields spec) as Hin.
  { eapply explicit_member_required; [apply H|].
    pose proof (acc_decode _ _ _ _ H) as Hd. destruct (Envelope_Payload e); [|done].
    simpl in Hd. rewrite res_bind_ok in Hd. destruct Hd as (t & _ & [= <-]).
    by rewrite explicit_member_payload_of in Hname. }
  destruct (requireJSONFields_ok _ _ _ (acc_fields _ _ _ _ H)) as (ks & Hks & Hall).
  { intros E. rewrite E in Hin. by apply not_elem_of_nil in Hin. }
  rewrite Forall_forall in Hall. apply Hall in Hin.
  destruct (Envelope_Payload e) as [text v|]; [|done].
  destruct v; simpl in Hks; try discriminate Hks; injection Hks as <-; [set_solver | eauto].
Qed.

(** The grant pinned to a provision command is all or nothing: if any of product id, product
    revision and grant digest is given, then all are, the id is a UUID, the revision is
    positive, the digest is 64 lower-case hexadecimal digits, and the services are listed,
    without repetition. *)
Theorem provision_grant_all_or_nothing p :
  DeviceProvisionRequestedPayload_Validate p = Ok tt →
  PR_ProductID p ≠ "" ∨ is_Some (PR_ProductServiceRevision p) ∨ PR_ServiceGrantSHA256 p ≠ "" →
  uuid_shape (to_bytes (PR_ProductID p)) ∧
  (∃ r, PR_ProductServiceRevision p = Some r ∧ 1 ≤ r) ∧
  String.length (PR_ServiceGrantSHA256 p) = 64%nat ∧
  PR_ServiceGrantSHA256 p = ToLower (PR_ServiceGrantSHA256 p) ∧
  Forall (λ c, is_hex c = true) (to_bytes (PR_ServiceGrantSHA256 p)) ∧
  PR_ServiceOptions p ≠ [] ∧ NoDup (PR_ServiceOptions p).
Proof.
  unfold DeviceProvisionRequestedPayload_Validate. rewrite !res_seq_ok.
  intros (_ & _ & Hopts & _ & Hgrant & _) Hany.
  assert (negb (bool_decide (PR_ProductID p = "")) ||
    bool_decide (is_Some (PR_ProductServiceRevision p)) ||
    negb (bool_decide (PR_ServiceGrantSHA256 p = "")) = true) as E.
  { rewrite !orb_true_iff, !negb_true_iff, !bool_decide_eq_false, bool_decide_eq_true. tauto. }
  rewrite E in Hgrant. rewrite res_seq_ok, requireUUID_ok in Hgrant.
  destruct Hgrant as [[_ Hu%isUUID_shape] Hg].
  destruct (PR_ProductServiceRevision p) as [r|] eqn:Hr; [|done].
  destruct (Z.ltb_spec r 1); [done|].
  destruct (_ || _) eqn:Ho in Hg; [done|]. apply orb_false_iff in Ho as [Ho Hl].
  destruct (hex_ok _) eqn:Hh in Hg; [|done].
  apply bool_decide_eq_false in Ho. apply negb_false_iff in Hl.
  unfold lower64, str_len in Hl. apply andb_true_iff in Hl as [Hlen Hlow].
  apply bool_decide_eq_true in Hlow, Hh. apply hex_DecodeString_some in Hh as [Hh _].
  apply Z.eqb_eq in Hlen.
  unfold validateServiceOptions in Hopts. destruct (_ <? _)%nat; [done|].
  apply validateServiceOptions_loop_ok in Hopts.
  split_and!; try tauto; try lia; eauto.
Qed.

Definition sample_digest : string :=
  "00112233445566778899aabbccddeeff00112233445566778899aabbccddeeff".
Definition sample_provision : DeviceProvisionRequestedPayload :=
  mkProvisionRequested sample_org sample_uuid "devid-1" "act-1" "clip" ["device_logging"; "video"]
    sample_org (Some 3) sample_digest (Some 30) "" "user-1".

Lemma provision_grant_all_or_nothing_witness :
  NoDup (PR_ServiceOptions sample_provision) ∧ uuid_shape (to_bytes (PR_ProductID sample_provision)).
Proof.
  pose proof (provision_grant_all_or_nothing sample_provision) as H.
  destruct H as (? & _ & _ & _ & _ & _ & ?).
  - vm_compute. reflexivity.
  - left. discriminate.
  - split; assumption.
Defined.

Definition sample_failed_event : Envelope :=
  mkEnvelope "evt-2" "corr-1" "" "op-1" ServiceRealtekVideoCloud ServiceAccountManager
    MessageTypeDeviceDeactivateFailed "1.0" sample_uuid sample_time
    (RawValue "{...}" (AMap
      [("org_id", AString sample_org); ("account_device_id", AString sample_uuid);
       ("video_cloud_devid", AString "devid-1"); ("error_code", AString "timeout");
       ("error_message", AString "no answer"); ("retryable", ABool true);
       ("failed_at", AString "2023-11-14T22:13:20Z")])).
Definition sample_failed : Payload :=
  DeactivateFailed (mkDeactivateFailed sample_org sample_uuid "devid-1" "" "timeout" "no answer"
    true sample_time).

Lemma failure_has_explicit_retryable_witness :
  ∃ text ms, Envelope_Payload sample_failed_event = RawValue text (AMap ms) ∧
    "retryable" ∈ ms.*1.
Proof.
  apply (failure_has_explicit_retryable sample_failed_event StreamVideoAccountEvents sample_failed).
  - vm_compute. reflexivity.
  - reflexivity.
Defined.
