(* ===== verification/Database.v ===== *)
(** * The tables of migrations/ the pipeline works on

    The state of the store is the contents of the tables, the time [now()] of
    the current transaction and a supply of [gen_random_uuid()].  Tables with a
    unique key are finite maps on it; the others are lists.  This file holds
    the statements more than one query issues: inserts and updates of the
    message tables with the CHECK, UNIQUE and FOREIGN KEY constraints and the
    triggers that apply to them.  Row locks are not modelled: a transaction of
    the model runs alone.  Text is assumed to be UTF-8 without NUL and ids to
    have UUID form, so the casts of parameters do not fail. *)

From S2P Require Export Channel.

Local Open Scope Z_scope.

(** ** Tables the device pipeline only reads

    Claiming a device (DeviceClaims.v) also writes the last ones. *)

Record Role_ := mkRole {
  roles_disabled_at : option Time;
  roles_permissions : list string; (* role_permissions joined with permissions.name *)
}.

Record RoleAssignment := mkRoleAssignment {
  ra_actor_type : string;
  ra_actor_id : string;
  ra_organization_id : option string;
  ra_scope_type : string;
  ra_scope_id : option string;
  ra_role_id : string;
  ra_disabled_at : option Time;
}.

(** product_service_grants *)
Record ProductServiceGrant := mkGrant {
  grant_product_id : string;
  grant_revision : Z;
  grant_brand_cloud_id : string;
  grant_options : any;
  grant_bindings : any;
  grant_snapshot_sha256 : string;
  grant_log_retention_days : option Z;
}.

(** device_claim_tokens: the columns the store reads back, and the hash *)
Record TokenRow := mkTokenRow {
  token_row : DeviceClaimToken;
  token_hash : string;
}.

(** device_claims: the columns the store reads back, and those of an override *)
Record ClaimRow := mkClaimRow {
  claim_row : DeviceClaim;
  claim_overridden_by : option string;
  claim_override_reason : option string;
  claim_override_evidence : jsonmap;
  claim_overridden_at : option Time;
}.

(** factory_enrollment_reservations joined with factory_production_runs *)
Record FactoryRow := mkFactoryRow {
  factory_device_id : string;
  factory_status : string;
  run_device_item_profile_id : string;
  run_brand_cloud_id : string;
  run_product_service_revision : option Z;
}.

Record Registry := mkRegistry {
  users : gmap string User;
  organizations : gmap string Organization;
  organization_members : list Member;
  roles : gmap string Role_;
  role_assignments : list RoleAssignment;
  device_item_profiles : gmap string DeviceItemProfile;
  brand_cloud_product_admissions : list (string * string * string);
  cloud_ownership_handoffs : list (string * string); (* brand_cloud_id, phase *)
  cloud_deletion_operations : list (string * string); (* brand_cloud_id, phase *)
  product_service_grants : list ProductServiceGrant;
  device_claim_tokens : gmap string TokenRow;
  device_claims : gmap string ClaimRow;
  factory_reservations : list FactoryRow;
}.

Record DB := mkDB {
  registry : Registry;
  now : Time;
  gen_random_uuid : nat → string;
  uuid_serial : nat;
  devices : gmap string Device;
  device_group_members : list (string * string); (* group_id, device_id *)
  device_operations : gmap string DeviceOperation;
  device_message_outbox : gmap string DeviceMessageOutbox;
  device_message_inbox : gmap string DeviceMessageInbox;
  audit_events : list AuditEvent;
}.

Definition with_now (t : Time) (db : DB) : DB :=
  mkDB (registry db) t (gen_random_uuid db) (uuid_serial db) (devices db)
    (device_group_members db) (device_operations db) (device_message_outbox db)
    (device_message_inbox db) (audit_events db).
Definition with_registry (r : Registry) (db : DB) : DB :=
  mkDB r (now db) (gen_random_uuid db) (uuid_serial db) (devices db)
    (device_group_members db) (device_operations db) (device_message_outbox db)
    (device_message_inbox db) (audit_events db).
Definition with_devices (ds : gmap string Device) (db : DB) : DB :=
  mkDB (registry db) (now db) (gen_random_uuid db) (uuid_serial db) ds
    (device_group_members db) (device_operations db) (device_message_outbox db)
    (device_message_inbox db) (audit_events db).
Definition with_groups (gs : list (string * string)) (db : DB) : DB :=
  mkDB (registry db) (now db) (gen_random_uuid db) (uuid_serial db) (devices db)
    gs (device_operations db) (device_message_outbox db)
    (device_message_inbox db) (audit_events db).
Definition with_operations (ops : gmap string DeviceOperation) (db : DB) : DB :=
  mkDB (registry db) (now db) (gen_random_uuid db) (uuid_serial db) (devices db)
    (device_group_members db) ops (device_message_outbox db)
    (device_message_inbox db) (audit_events db).
Definition with_outbox (ms : gmap string DeviceMessageOutbox) (db : DB) : DB :=
  mkDB (registry db) (now db) (gen_random_uuid db) (uuid_serial db) (devices db)
    (device_group_members db) (device_operations db) ms
    (device_message_inbox db) (audit_events db).
Definition with_inbox (ms : gmap string DeviceMessageInbox) (db : DB) : DB :=
  mkDB (registry db) (now db) (gen_random_uuid db) (uuid_serial db) (devices db)
    (device_group_members db) (device_operations db) (device_message_outbox db)
    ms (audit_events db).
Definition with_audit (es : list AuditEvent) (db : DB) : DB :=
  mkDB (registry db) (now db) (gen_random_uuid db) (uuid_serial db) (devices db)
    (device_group_members db) (device_operations db) (device_message_outbox db)
    (device_message_inbox db) es.
Definition with_serial (n : nat) (db : DB) : DB :=
  mkDB (registry db) (now db) (gen_random_uuid db) n (devices db)
    (device_group_members db) (device_operations db) (device_message_outbox db)
    (device_message_inbox db) (audit_events db).

(** The claim tables after a claim, in place of the ones before. *)
Definition with_claims (tokens : gmap string TokenRow) (claims : gmap string ClaimRow) (db : DB)
    : DB :=
  let r := registry db in
  with_registry
    (mkRegistry (users r) (organizations r) (organization_members r) (roles r)
       (role_assignments r) (device_item_profiles r) (brand_cloud_product_admissions r)
       (cloud_ownership_handoffs r) (cloud_deletion_operations r) (product_service_grants r)
       tokens claims (factory_reservations r)) db.

(** The rows of a table, in key order. *)
Definition rows_of {A} (table : gmap string A) : list A := (map_to_list table).*2.

Abbreviation Store A := (M DB A).

(** [DEFAULT gen_random_uuid()]: a row that is inserted uses the next value up. *)
Definition next_uuid (db : DB) : string := gen_random_uuid db (uuid_serial db).
Definition use_uuid (db : DB) : DB := with_serial (S (uuid_serial db)) db.

(** ** Constraints and triggers *)

Definition int4_range (z : Z) : bool := (- 2 ^ 31 <=? z) && (z <? 2 ^ 31).

(** [btrim(s) <> ''] strips spaces only. *)
Definition btrim_blank (s : string) : bool := forallb (byte_is 32) (to_bytes s).

(** Trigger [fence_cloud_deletion_write] on device_operations. *)
Definition cloud_deletion_fenced (r : Registry) (org : string) : bool :=
  existsb (λ d, bool_decide (d.1 = org) && negb (bool_decide (d.2 = "canceled")))
    (cloud_deletion_operations r) ||
  match organizations r !! org with
  | Some o => bool_decide (Organization_Kind o = OrganizationKindBrandCloud)
              && bool_decide (is_Some (Organization_DeletedAt o))
  | None => false
  end.
Definition fence_cloud_deletion_write (org : string) : Store unit :=
  db ← gets id;
  reject_if (cloud_deletion_fenced (registry db) org) (ErrPg "cloud_deletion_fence").

Definition valid_device_status (s : DeviceStatus) : bool :=
  match s with DeviceStatusOther _ => false | _ => true end.

Definition outbox_checks (m : DeviceMessageOutbox) : Store unit :=
  reject_if (negb (int4_range (Outbox_AttemptCount m))) (ErrPg "int4") ;;
  reject_if (negb (bool_decide (Outbox_Stream m = StreamAccountVideoCommands)))
    (ErrPg "device_message_outbox_stream_check") ;;
  reject_if (negb (bool_decide (Outbox_MessageType m ∈ command_types)))
    (ErrPg "device_message_outbox_message_type_check") ;;
  reject_if (negb (bool_decide (Outbox_SchemaVersion m = "1.0")))
    (ErrPg "device_message_outbox_schema_version_check") ;;
  reject_if (btrim_blank (Outbox_PartitionKey m))
    (ErrPg "device_message_outbox_partition_key_check") ;;
  reject_if (Outbox_AttemptCount m <? 0) (ErrPg "device_message_outbox_attempt_count_check").

Definition inbox_checks (m : DeviceMessageInbox) : Store unit :=
  reject_if (negb (int4_range (Inbox_AttemptCount m))) (ErrPg "int4") ;;
  reject_if (negb (bool_decide (Inbox_Stream m = StreamVideoAccountEvents)))
    (ErrPg "device_message_inbox_stream_check") ;;
  reject_if (negb (bool_decide (Inbox_MessageType m ∈ event_types)))
    (ErrPg "device_message_inbox_message_type_check") ;;
  reject_if (negb (bool_decide (Inbox_SchemaVersion m = "1.0")))
    (ErrPg "device_message_inbox_schema_version_check") ;;
  reject_if (btrim_blank (Inbox_PartitionKey m))
    (ErrPg "device_message_inbox_partition_key_check") ;;
  reject_if (Inbox_AttemptCount m <? 0) (ErrPg "device_message_inbox_attempt_count_check").

(** ** Statements on device_operations *)

(** INSERT ... ON CONFLICT (operation_id) DO NOTHING RETURNING: [None] when
    the row exists.  The trigger runs first. *)
Definition insert_operation (o : DeviceOperation) : Store (option DeviceOperation) :=
  fence_cloud_deletion_write (DeviceOperation_OrganizationID o) ;;
  db ← gets id;
  if bool_decide (is_Some (device_operations db !! DeviceOperation_OperationID o)) then mret None
  else
    modify (λ db, use_uuid
      (with_operations (<[DeviceOperation_OperationID o := o]> (device_operations db)) db)) ;;
    mret (Some o).

(** The columns every UPDATE of an operation sets. *)
Definition operation_update (status : DeviceOperationStatus) (result : jsonmap)
    (code message : option string) (retryable : option bool) (completed : option Time)
    (updated : Time) (o : DeviceOperation) : DeviceOperation :=
  mkDeviceOperation (DeviceOperation_ID o) (DeviceOperation_OperationID o)
    (DeviceOperation_CorrelationID o) (DeviceOperation_OrganizationID o)
    (DeviceOperation_DeviceID o) (DeviceOperation_OperationType o) status
    (DeviceOperation_RequestedBy o) (DeviceOperation_RequestPayload o) result code message
    retryable (DeviceOperation_CreatedAt o) updated (pg_timestamptz <$> completed).

(** UPDATE device_operations SET ... WHERE operation_id = $1 RETURNING *)
Definition update_operation (operationID : string) (status : DeviceOperationStatus)
    (result : jsonmap) (code message : option string) (retryable : option bool)
    (completed : option Time) : Store (option DeviceOperation) :=
  db ← gets id;
  match device_operations db !! operationID with
  | None => mret None
  | Some o =>
      fence_cloud_deletion_write (DeviceOperation_OrganizationID o) ;;
      let o' := operation_update status result code message retryable completed (now db) o in
      modify (with_operations (<[operationID := o']> (device_operations db))) ;;
      mret (Some o')
  end.

(** ** Statements on the outbox *)

Definition insert_outbox (m : DeviceMessageOutbox) : Store DeviceMessageOutbox :=
  outbox_checks m ;;
  db ← gets id;
  reject_if (bool_decide (is_Some (device_message_outbox db !! Outbox_MessageID m)))
    (ErrPg "device_message_outbox_message_id_key") ;;
  reject_if (bool_decide (device_operations db !! Outbox_OperationID m = None))
    (ErrPg "device_message_outbox_operation_id_fkey") ;;
  modify (λ db, use_uuid
    (with_outbox (<[Outbox_MessageID m := m]> (device_message_outbox db)) db)) ;;
  mret m.

Definition outbox_update (status : DeviceMessageOutboxStatus) (attempts : Z)
    (last_error : option string) (available : Time) (published : option Time) (updated : Time)
    (m : DeviceMessageOutbox) : DeviceMessageOutbox :=
  mkDeviceMessageOutbox (Outbox_ID m) (Outbox_MessageID m) (Outbox_OperationID m)
    (Outbox_CorrelationID m) (Outbox_CausationID m) (Outbox_Stream m) (Outbox_MessageType m)
    (Outbox_SchemaVersion m) (Outbox_PartitionKey m) (Outbox_Payload m) status attempts last_error
    (pg_timestamptz available) (pg_timestamptz <$> published) (Outbox_CreatedAt m) updated.

Definition update_outbox (messageID : string) (status : DeviceMessageOutboxStatus) (attempts : Z)
    (last_error : option string) (available : Time) (published : option Time)
    : Store (option DeviceMessageOutbox) :=
  db ← gets id;
  match device_message_outbox db !! messageID with
  | None => mret None
  | Some m =>
      let m' := outbox_update status attempts last_error available published (now db) m in
      outbox_checks m' ;;
      modify (with_outbox (<[messageID := m']> (device_message_outbox db))) ;;
      mret (Some m')
  end.

(** ** Statements on the inbox *)

(** INSERT ... ON CONFLICT (message_id) DO NOTHING RETURNING *)
Definition insert_inbox (m : DeviceMessageInbox) : Store (option DeviceMessageInbox) :=
  inbox_checks m ;;
  db ← gets id;
  if bool_decide (is_Some (device_message_inbox db !! Inbox_MessageID m)) then mret None
  else
    modify (λ db, use_uuid
      (with_inbox (<[Inbox_MessageID m := m]> (device_message_inbox db)) db)) ;;
    mret (Some m).

Definition inbox_update (status : DeviceMessageInboxStatus) (attempts : Z)
    (last_error : option string) (processed : option Time) (updated : Time)
    (m : DeviceMessageInbox) : DeviceMessageInbox :=
  mkDeviceMessageInbox (Inbox_ID m) (Inbox_MessageID m) (Inbox_OperationID m)
    (Inbox_CorrelationID m) (Inbox_CausationID m) (Inbox_Stream m) (Inbox_MessageType m)
    (Inbox_SchemaVersion m) (Inbox_PartitionKey m) (Inbox_Payload m) status attempts last_error
    (Inbox_ReceivedAt m) (pg_timestamptz <$> processed) (Inbox_CreatedAt m) updated.

Definition update_inbox (messageID : string) (status : DeviceMessageInboxStatus) (attempts : Z)
    (last_error : option string) (processed : option Time)
    : Store (option DeviceMessageInbox) :=
  db ← gets id;
  match device_message_inbox db !! messageID with
  | None => mret None
  | Some m =>
      let m' := inbox_update status attempts last_error processed (now db) m in
      inbox_checks m' ;;
      modify (with_inbox (<[messageID := m']> (device_message_inbox db))) ;;
      mret (Some m')
  end.

(** ** Statements on devices and audit_events *)

(** SELECT ... FROM devices WHERE organization_id = $1 AND id = $2 *)
Definition device_in_org (org id : string) (db : DB) : option Device :=
  d ← devices db !! id; if bool_decide (Device_OrganizationID d = org) then Some d else None.

(** The WHERE clause and a changed row, [updated_at] set by the trigger. *)
Definition device_update (status : DeviceStatus) (last_seen : option Time) (metadata : jsonmap)
    (updated : Time) (disabled : option Time) (d : Device) : Device :=
  mkDevice (Device_ID d) (Device_OrganizationID d) (Device_Name d) (Device_Category d)
    (Device_SerialNumber d) (Device_MACAddress d) (Device_Manufacturer d) (Device_Model d) status
    (pg_timestamptz <$> last_seen) metadata (Device_CreatedAt d) updated disabled
    (Device_DeviceItemProfileID d).

Definition update_device (org id : string) (status : DeviceStatus) (last_seen : option Time)
    (metadata : jsonmap) : Store (option Device) :=
  db ← gets (λ db, db);
  match device_in_org org id db with
  | None => mret None
  | Some d =>
      reject_if (negb (valid_device_status status)) (ErrPg "devices_status_check") ;;
      let d' := device_update status last_seen metadata (now db) (Device_DisabledAt d) d in
      modify (with_devices (<[id := d']> (devices db))) ;;
      mret (Some d')
  end.

Definition insert_audit_event (e : AuditEvent) : Store unit :=
  modify (λ db, with_audit (audit_events db ++ [e]) db).

Lemma elem_of_rows_of {A} (table : gmap string A) x : x ∈ rows_of table ↔ ∃ k, table !! k = Some x.
Proof.
  unfold rows_of. rewrite list_elem_of_fmap. split.
  - intros ([k y] & -> & Hy%elem_of_map_to_list). by exists k.
  - intros [k Hk]. exists (k, x). split; [done|]. by apply elem_of_map_to_list.
Qed.

(** ** ORDER BY and LIMIT *)

(** Rows in the (reflexive) order [before], equal ones as they come. *)
Fixpoint insert_row {A} (before : A → A → bool) (x : A) (rows : list A) : list A :=
  match rows with
  | [] => [x]
  | y :: rows' => if before x y then x :: rows else y :: insert_row before x rows'
  end.
Definition order_by {A} (before : A → A → bool) (rows : list A) : list A :=
  foldr (insert_row before) [] rows.
Definition limit {A} (n : Z) (rows : list A) : list A := take (Z.to_nat n) rows.

(** [a DESC LIMIT 1] on a time, the rows in key order otherwise. *)
Definition latest {A} (created : A → Time) (rows : list A) : option A :=
  head (order_by (λ a b, t_nanos (created b) <=? t_nanos (created a)) rows).

Lemma insert_row_perm {A} before (x : A) rows : insert_row before x rows ≡ₚ x :: rows.
Proof.
  induction rows as [|y rows IH]; simpl; [done|]. destruct (before x y); [done|].
  rewrite IH. apply Permutation_swap.
Qed.

Lemma order_by_perm {A} before (rows : list A) : order_by before rows ≡ₚ rows.
Proof. induction rows as [|x rows IH]; simpl; [done|]. by rewrite insert_row_perm, IH. Qed.

Lemma elem_of_order_by {A} before (x : A) rows : x ∈ order_by before rows ↔ x ∈ rows.
Proof. by rewrite (order_by_perm before rows). Qed.

Lemma latest_in {A} (created : A → Time) rows x : latest created rows = Some x → x ∈ rows.
Proof.
  unfold latest. intros H. rewrite <-elem_of_order_by.
  destruct (order_by _ rows) eqn:E; simplify_eq/=. rewrite E. by left.
Qed.

(** The row [latest] picks is at least as late as every other. *)
Lemma insert_row_head {A} (created : A → Time) x rows :
  head (insert_row (λ a b, t_nanos (created b) <=? t_nanos (created a)) x rows) =
  match head rows with
  | Some y => if t_nanos (created y) <=? t_nanos (created x) then Some x else Some y
  | None => Some x
  end.
Proof. destruct rows as [|y rows]; simpl; [done|]. by destruct (_ <=? _). Qed.

Lemma latest_max {A} (created : A → Time) rows x y :
  latest created rows = Some x → y ∈ rows → t_nanos (created y) ≤ t_nanos (created x).
Proof.
  unfold latest. revert x. induction rows as [|z rows IH]; intros x; simpl; [done|].
  rewrite insert_row_head. intros H [->|Hy]%elem_of_cons.
  - destruct (head _) as [w|]; [|simplify_eq; lia].
    destruct (Z.leb_spec (t_nanos (created w)) (t_nanos (created z))); simplify_eq; lia.
  - destruct (head _) as [w|] eqn:Hw.
    + specialize (IH w eq_refl Hy). destruct (Z.leb_spec (t_nanos (created w)) (t_nanos (created z)));
        simplify_eq; lia.
    + exfalso. apply (proj2 (elem_of_order_by (λ a b, t_nanos (created b) <=? t_nanos (created a)) _ _)) in Hy.
      unfold order_by in Hy, Hw. destruct (foldr _ _ _); [by apply not_elem_of_nil in Hy | done].
Qed.

(** ** What each statement does, as one equation *)

Lemma insert_operation_run o db :
  insert_operation o db =
    if cloud_deletion_fenced (registry db) (DeviceOperation_OrganizationID o)
    then (Err (ErrPg "cloud_deletion_fence"), db)
    else match device_operations db !! DeviceOperation_OperationID o with
         | Some _ => (Ok None, db)
         | None => (Ok (Some o), use_uuid
             (with_operations (<[DeviceOperation_OperationID o := o]> (device_operations db)) db))
         end.
Proof.
  unfold insert_operation, fence_cloud_deletion_write. run_simpl.
  destruct (cloud_deletion_fenced _ _); simpl; [done|].
  by destruct (device_operations db !! _).
Qed.

Lemma update_operation_run i st r c m rt comp db :
  update_operation i st r c m rt comp db =
    match device_operations db !! i with
    | None => (Ok None, db)
    | Some o =>
        if cloud_deletion_fenced (registry db) (DeviceOperation_OrganizationID o)
        then (Err (ErrPg "cloud_deletion_fence"), db)
        else let o' := operation_update st r c m rt comp (now db) o in
             (Ok (Some o'), with_operations (<[i := o']> (device_operations db)) db)
    end.
Proof.
  unfold update_operation, fence_cloud_deletion_write. run_simpl.
  destruct (device_operations db !! i) as [o|]; simpl; [|done].
  by destruct (cloud_deletion_fenced _ _).
Qed.

(** The checks either pass or fail, and change nothing. *)
Definition outbox_row_ok (m : DeviceMessageOutbox) : Prop :=
  0 ≤ Outbox_AttemptCount m < 2 ^ 31 ∧ Outbox_Stream m = StreamAccountVideoCommands ∧
  Outbox_MessageType m ∈ command_types ∧ Outbox_SchemaVersion m = "1.0" ∧
  btrim_blank (Outbox_PartitionKey m) = false.

Definition inbox_row_ok (m : DeviceMessageInbox) : Prop :=
  0 ≤ Inbox_AttemptCount m < 2 ^ 31 ∧ Inbox_Stream m = StreamVideoAccountEvents ∧
  Inbox_MessageType m ∈ event_types ∧ Inbox_SchemaVersion m = "1.0" ∧
  btrim_blank (Inbox_PartitionKey m) = false.

Lemma outbox_checks_run m db :
  (outbox_checks m db = (Ok tt, db) ∧ outbox_row_ok m) ∨
  (∃ e, outbox_checks m db = (Err (ErrPg e), db) ∧ ¬ outbox_row_ok m).
Proof.
  unfold outbox_checks, outbox_row_ok, int4_range. run_simpl.
  destruct (Z.leb_spec (- 2 ^ 31) (Outbox_AttemptCount m)),
    (Z.ltb_spec (Outbox_AttemptCount m) (2 ^ 31)); simpl; try (right; eexists; split; [done|lia]).
  case_bool_decide; simpl; [|right; eexists; split; [done|tauto]].
  case_bool_decide; simpl; [|right; eexists; split; [done|tauto]].
  case_bool_decide; simpl; [|right; eexists; split; [done|tauto]].
  destruct (btrim_blank _); simpl; [right; eexists; split; [done|intros (?&?&?&?&?); done]|].
  destruct (Z.ltb_spec (Outbox_AttemptCount m) 0); simpl;
    [right; eexists; split; [done|lia] | left; split; [done|split_and!; try done; lia]].
Qed.

Lemma inbox_checks_run m db :
  (inbox_checks m db = (Ok tt, db) ∧ inbox_row_ok m) ∨
  (∃ e, inbox_checks m db = (Err (ErrPg e), db) ∧ ¬ inbox_row_ok m).
Proof.
  unfold inbox_checks, inbox_row_ok, int4_range. run_simpl.
  destruct (Z.leb_spec (- 2 ^ 31) (Inbox_AttemptCount m)),
    (Z.ltb_spec (Inbox_AttemptCount m) (2 ^ 31)); simpl; try (right; eexists; split; [done|lia]).
  case_bool_decide; simpl; [|right; eexists; split; [done|tauto]].
  case_bool_decide; simpl; [|right; eexists; split; [done|tauto]].
  case_bool_decide; simpl; [|right; eexists; split; [done|tauto]].
  destruct (btrim_blank _); simpl; [right; eexists; split; [done|intros (?&?&?&?&?); done]|].
  destruct (Z.ltb_spec (Inbox_AttemptCount m) 0); simpl;
    [right; eexists; split; [done|lia] | left; split; [done|split_and!; try done; lia]].
Qed.

(** Use the outcome of a row's checks in a successful run. *)
Ltac use_checks :=
  match goal with
  | H : outbox_checks ?m ?db = (Ok _, _) |- _ =>
      destruct (outbox_checks_run m db) as [[E ?]|(? & E & ?)]; rewrite E in H;
      clear E; simplify_eq
  | H : inbox_checks ?m ?db = (Ok _, _) |- _ =>
      destruct (inbox_checks_run m db) as [[E ?]|(? & E & ?)]; rewrite E in H;
      clear E; simplify_eq
  end.

Lemma insert_outbox_ok m db m' db' :
  insert_outbox m db = (Ok m', db') →
  m' = m ∧ outbox_row_ok m ∧ device_message_outbox db !! Outbox_MessageID m = None ∧
  is_Some (device_operations db !! Outbox_OperationID m) ∧
  db' = use_uuid (with_outbox (<[Outbox_MessageID m := m]> (device_message_outbox db)) db).
Proof.
  unfold insert_outbox. intros H. inv_run. use_checks. destruct_bools.
  split_and!; try done; [by apply eq_None_not_Some | by apply not_eq_None_Some].
Qed.

Lemma update_outbox_ok i st n e av pub db r db' :
  update_outbox i st n e av pub db = (Ok r, db') →
  match device_message_outbox db !! i with
  | None => r = None ∧ db' = db
  | Some m =>
      let m' := outbox_update st n e av pub (now db) m in
      outbox_row_ok m' ∧ r = Some m' ∧
      db' = with_outbox (<[i := m']> (device_message_outbox db)) db
  end.
Proof.
  unfold update_outbox. intros H. inv_run.
  destruct (device_message_outbox _ !! i) as [m|]; inv_run; [|done]. by use_checks.
Qed.

Lemma insert_inbox_ok m db r db' :
  insert_inbox m db = (Ok r, db') →
  inbox_row_ok m ∧
  match device_message_inbox db !! Inbox_MessageID m with
  | Some _ => r = None ∧ db' = db
  | None => r = Some m ∧
      db' = use_uuid (with_inbox (<[Inbox_MessageID m := m]> (device_message_inbox db)) db)
  end.
Proof.
  unfold insert_inbox. intros H. inv_run. use_checks. split; [done|].
  case_bool_decide as E; inv_run.
  - by destruct E as [? ->].
  - apply eq_None_not_Some in E. by rewrite E.
Qed.

Lemma update_inbox_ok i st n e p db r db' :
  update_inbox i st n e p db = (Ok r, db') →
  match device_message_inbox db !! i with
  | None => r = None ∧ db' = db
  | Some m =>
      let m' := inbox_update st n e p (now db) m in
      inbox_row_ok m' ∧ r = Some m' ∧ db' = with_inbox (<[i := m']> (device_message_inbox db)) db
  end.
Proof.
  unfold update_inbox. intros H. inv_run.
  destruct (device_message_inbox _ !! i) as [m|]; inv_run; [|done]. by use_checks.
Qed.

Lemma update_device_ok org i st seen md db r db' :
  update_device org i st seen md db = (Ok r, db') →
  match device_in_org org i db with
  | None => r = None ∧ db' = db
  | Some d =>
      let d' := device_update st seen md (now db) (Device_DisabledAt d) d in
      valid_device_status st = true ∧ r = Some d' ∧
      db' = with_devices (<[i := d']> (devices db)) db
  end.
Proof.
  unfold update_device. intros H. inv_run.
  destruct (device_in_org org i _) as [d|] eqn:E; inv_run; [|done]. by destruct_bools.
Qed.

Lemma device_in_org_some org i db d :
  device_in_org org i db = Some d ↔ devices db !! i = Some d ∧ Device_OrganizationID d = org.
Proof.
  unfold device_in_org. destruct (devices db !! i) as [d'|]; simpl; [|naive_solver].
  case_bool_decide; naive_solver.
Qed.

(** ** A small store, for the examples *)

Definition sample_user : User := mkUser "user-1" "owner@example.com" true false false None.
Definition sample_registry : Registry :=
  mkRegistry {["user-1" := sample_user]}
    {[sample_org := mkOrganization sample_org "Org" OrganizationKindCustomerOrg
        OrganizationStatusActive OrganizationTierCommercial 5 None]}
    [mkMember sample_org "user-1" RoleOwner None None]
    {["role-owner" := mkRole None ["lifecycle_operation.provision"; "lifecycle_operation.deactivate";
        "device.unprovision"; "registry_device.manage"]]}
    [mkRoleAssignment "user" "user-1" (Some sample_org) "organization" (Some sample_org) "role-owner" None]
    ∅ [] [] [] [] ∅ ∅ [].

Definition sample_profile : DeviceItemProfile :=
  mkProfile "product-1" sample_org "camera" DeviceItemProfileStatusActive DeviceCategoryIPCamera
    (Some "Realtek") None (list_to_map [("region", AString "eu")]) "ca-1" "issuer-1" ["mqtt"] None.

Definition sample_metadata : jsonmap :=
  list_to_map [(DeviceMetadataVideoCloudDevid, AString "devid-1");
               (DeviceMetadataVideoCloudActivityID, AString "act-1");
               (DeviceMetadataVideoCloudActivationStatus, AString "pending");
               ("color", AString "red")].
Definition sample_device : Device :=
  mkDevice sample_uuid sample_org "Camera" DeviceCategoryIPCamera None None None None
    DeviceStatusUnknown None sample_metadata sample_time sample_time None None.

Definition sample_operation : DeviceOperation :=
  mkDeviceOperation "id-op-1" "op-1" "corr-1" sample_org sample_uuid DeviceOperationTypeProvision
    DeviceOperationStatusPublished (Some "user-1") ∅ ∅ None None None sample_time sample_time None.

Fixpoint unary (n : nat) : string :=
  match n with O => "" | S n => String "1" (unary n) end.
Definition sample_db : DB :=
  mkDB sample_registry (mkTime (1700000100 * Second) 0) unary 0
    {[sample_uuid := sample_device]} [] {["op-1" := sample_operation]} ∅ ∅ [].
