(* ===== verification/DeviceProjection.v ===== *)
(** * store/device_projection.go: projecting video cloud results on a device

    The inputs built from each result event, [projectDeviceTx] with its fences
    (stale activity, disabled device, presence evidence) and the metadata
    merge.  The theorems: which part of a device a projection can touch, that
    an older activation generation changes nothing, and that presence events
    may arrive in any order. *)

From S2P Require Export Database.

Local Open Scope Z_scope.

Definition projectionMetadataPrefix : string := "video_cloud_".

(** A Go map literal. *)
Definition map_literal (kvs : list (string * any)) : jsonmap := list_to_map kvs.

(** [text, _ := metadata[key].(string)] *)
Definition metadata_string (metadata : jsonmap) (key : string) : string :=
  match metadata !! key with Some (AString s) => s | _ => "" end.

(** A [[]string] as a JSON value. *)
Definition strings_value (l : list string) : any := ASlice (AString <$> l).

Definition PendingProvisionMetadata (videoCloudDevid activityID clipPublicKey : string)
    (serviceOptions : list string) : jsonmap :=
  let metadata := map_literal
    [(DeviceMetadataVideoCloudDevid, AString videoCloudDevid);
     (DeviceMetadataVideoCloudActivityID, AString activityID);
     (DeviceMetadataVideoCloudClipPublicKey, AString clipPublicKey);
     (DeviceMetadataVideoCloudActivationStatus,
        AString (VideoCloudActivationStatus_text VideoCloudActivationStatusPending));
     (DeviceMetadataVideoCloudActivatedAt, ANil);
     (DeviceMetadataVideoCloudDeactivatedAt, ANil);
     (DeviceMetadataVideoCloudLastError, ANil)] in
  if bool_decide (serviceOptions = []) then metadata
  else <[DeviceMetadataServiceOptions := strings_value serviceOptions]> metadata.

Record DeviceProjectionInput := mkProjection {
  Metadata : jsonmap;
  ExpectedActivityID : string;
  Status : option DeviceStatus;
  LastSeenAt : option Time;
  ResetPresence : bool;
  AllowDisabled : bool;
}.

Definition metadata_projection (metadata : jsonmap) : DeviceProjectionInput :=
  mkProjection metadata "" None None false false.

Definition ProvisionSucceededProjection (payload : DeviceProvisionSucceededPayload)
    : DeviceProjectionInput :=
  metadata_projection (map_literal
    [(DeviceMetadataVideoCloudDevid, AString (PS_VideoCloudDevid payload));
     (DeviceMetadataVideoCloudActivityID, AString (PS_ActivityID payload));
     (DeviceMetadataVideoCloudActivationStatus,
        AString (VideoCloudActivationStatus_text VideoCloudActivationStatusActivated));
     (DeviceMetadataVideoCloudActivatedAt, ATime (UTC (PS_ActivatedAt payload)));
     (DeviceMetadataVideoCloudLastError, ANil)]).

(** The [video_cloud_last_error] object of a failure. *)
Definition last_error (code message : string) (retryable : bool) (failedAt : Time)
    (operation : MessageType) : any :=
  AMap (members (map_literal
    [("code", AString code); ("message", AString message); ("retryable", ABool retryable);
     ("failed_at", ATime (UTC failedAt)); ("operation", AString operation);
     ("service", AString ServiceRealtekVideoCloud); ("updated_at", ATime (UTC failedAt))])).

Definition ProvisionFailedProjection (payload : DeviceProvisionFailedPayload)
    : DeviceProjectionInput :=
  metadata_projection (map_literal
    [(DeviceMetadataVideoCloudDevid, AString (PF_VideoCloudDevid payload));
     (DeviceMetadataVideoCloudActivityID, AString (PF_ActivityID payload));
     (DeviceMetadataVideoCloudActivationStatus,
        AString (VideoCloudActivationStatus_text VideoCloudActivationStatusFailed));
     (DeviceMetadataVideoCloudLastError,
        last_error (PF_ErrorCode payload) (PF_ErrorMessage payload) (PF_Retryable payload)
          (PF_FailedAt payload) MessageTypeDeviceProvisionFailed)]).

Definition DeactivateSucceededProjection (payload : DeviceDeactivateSucceededPayload)
    : DeviceProjectionInput :=
  mkProjection (map_literal
    [(DeviceMetadataVideoCloudDevid, AString (DS_VideoCloudDevid payload));
     (DeviceMetadataVideoCloudActivationStatus,
        AString (VideoCloudActivationStatus_text VideoCloudActivationStatusDeactivated));
     (DeviceMetadataVideoCloudDeactivatedAt, ATime (UTC (DS_DeactivatedAt payload)));
     (DeviceMetadataVideoCloudLastError, ANil)])
    "" None None false true.

Definition DeactivateFailedProjection (payload : DeviceDeactivateFailedPayload)
    : DeviceProjectionInput :=
  mkProjection (map_literal
    [(DeviceMetadataVideoCloudDevid, AString (DF_VideoCloudDevid payload));
     (DeviceMetadataVideoCloudLastError,
        last_error (DF_ErrorCode payload) (DF_ErrorMessage payload) (DF_Retryable payload)
          (DF_FailedAt payload) MessageTypeDeviceDeactivateFailed)])
    "" None None false true.

Definition OnlineChangedProjection (payload : DeviceOnlineChangedPayload)
    : DeviceProjectionInput :=
  mkProjection (map_literal [(DeviceMetadataVideoCloudDevid, AString (OC_VideoCloudDevid payload))])
    "" (Some (DeviceStatus_of_text (OC_Status payload))) (Some (UTC (OC_LastSeenAt payload)))
    false false.

(** ** Merging metadata *)

Definition selectProjectionMetadata (metadata : jsonmap) : jsonmap :=
  filter (λ kv, HasPrefix kv.1 projectionMetadataPrefix = true) metadata.

(** The second loop of [applyProjectionMetadata]: a nil value deletes. *)
Definition applyProjectionMetadata (existing patch : jsonmap) : jsonmap :=
  map_fold (λ key value merged,
    if bool_decide (value = ANil) then delete key merged else <[key := value]> merged)
    existing (selectProjectionMetadata patch).

Definition MetadataChangedProjection (payload : DeviceMetadataChangedPayload)
    : DeviceProjectionInput :=
  metadata_projection (selectProjectionMetadata (default ∅ (MC_Metadata payload))).

(** ** projectDeviceTx *)

(** A presence event is stale when it is older than what is stored, or as old
    without turning the device offline. *)
Definition presence_stale (device : Device) (status : DeviceStatus) (at_ : Time) : bool :=
  match Device_LastSeenAt device with
  | None => false
  | Some last =>
      Before at_ last ||
      (Equal at_ last &&
        (bool_decide (Device_Status device = status)
         || negb (bool_decide (status = DeviceStatusOffline))))
  end.

Definition projectDeviceTx (orgID deviceID : string) (input : DeviceProjectionInput)
    : Store Device :=
  db ← gets (λ db, db);
  device ← row_or ErrNotFound (device_in_org orgID deviceID db);
  let expected := TrimSpace (ExpectedActivityID input) in
  let current := metadata_string (Device_Metadata device) DeviceMetadataVideoCloudActivityID in
  if negb (bool_decide (expected = "")) && negb (bool_decide (TrimSpace current = expected)) then
    mret device
  else
    reject_if (bool_decide (is_Some (Device_DisabledAt device)) &&
      (negb (AllowDisabled input) || bool_decide (is_Some (Status input))
       || bool_decide (is_Some (LastSeenAt input)))) ErrDisabled ;;
    let mappedID := metadata_string (Device_Metadata device) DeviceMetadataVideoCloudDevid in
    let projectedID := metadata_string (Metadata input) DeviceMetadataVideoCloudDevid in
    let update :=
      let metadata := marshalJSONMap
        (applyProjectionMetadata (Device_Metadata device) (Metadata input)) in
      let status := if ResetPresence input then DeviceStatusUnknown else Device_Status device in
      let status := default status (Status input) in
      let lastSeenAt := if ResetPresence input then None else Device_LastSeenAt device in
      let lastSeenAt := match LastSeenAt input with Some t => Some t | None => lastSeenAt end in
      row ← update_device orgID deviceID status lastSeenAt metadata;
      row_or ErrNoRows row in
    match Status input with
    | None => update
    | Some status =>
        match LastSeenAt input with
        | None => throw ErrConflict
        | Some at_ =>
            reject_if (blank mappedID || negb (bool_decide (mappedID = projectedID))
                       || IsZero at_) ErrConflict ;;
            if presence_stale device status at_ then mret device else update
        end
    end.

(** [Store.ProjectDevice] *)
Definition ProjectDevice (orgID deviceID : string) (input : DeviceProjectionInput)
    : Store Device :=
  transaction (projectDeviceTx orgID deviceID input).

(** [Store.MergeDeviceMetadata] *)
Definition MergeDeviceMetadata (orgID deviceID : string) (patch : jsonmap) : Store Device :=
  ProjectDevice orgID deviceID (metadata_projection patch).

(** ** The decision, as a function of the row alone *)

Definition stale_activity (d : Device) (input : DeviceProjectionInput) : bool :=
  let expected := TrimSpace (ExpectedActivityID input) in
  let current := metadata_string (Device_Metadata d) DeviceMetadataVideoCloudActivityID in
  negb (bool_decide (expected = "")) && negb (bool_decide (TrimSpace current = expected)).

Definition refused_disabled (d : Device) (input : DeviceProjectionInput) : bool :=
  bool_decide (is_Some (Device_DisabledAt d)) &&
  (negb (AllowDisabled input) || bool_decide (is_Some (Status input))
   || bool_decide (is_Some (LastSeenAt input))).

(** The presence report carries the device's own mapped id and a time. *)
Definition presence_evidence (d : Device) (input : DeviceProjectionInput) (at_ : Time) : bool :=
  let mappedID := metadata_string (Device_Metadata d) DeviceMetadataVideoCloudDevid in
  negb (blank mappedID) &&
  bool_decide (mappedID = metadata_string (Metadata input) DeviceMetadataVideoCloudDevid) &&
  negb (IsZero at_).

Definition projected_row (t : Time) (d : Device) (input : DeviceProjectionInput) : Device :=
  device_update
    (default (if ResetPresence input then DeviceStatusUnknown else Device_Status d) (Status input))
    (match LastSeenAt input with
     | Some seen => Some seen
     | None => if ResetPresence input then None else Device_LastSeenAt d
     end)
    (marshalJSONMap (applyProjectionMetadata (Device_Metadata d) (Metadata input)))
    t (Device_DisabledAt d) d.

(** [Ok None]: nothing to write. *)
Definition projection (t : Time) (d : Device) (input : DeviceProjectionInput)
    : res (option Device) :=
  if stale_activity d input then Ok None
  else if refused_disabled d input then Err ErrDisabled
  else
    let written :=
      let d' := projected_row t d input in
      if valid_device_status (Device_Status d') then Ok (Some d')
      else Err (ErrPg "devices_status_check") in
    match Status input, LastSeenAt input with
    | None, _ => written
    | Some _, None => Err ErrConflict
    | Some status, Some at_ =>
        if negb (presence_evidence d input at_) then Err ErrConflict
        else if presence_stale d status at_ then Ok None else written
    end.

Lemma projectDeviceTx_run org id input db :
  projectDeviceTx org id input db =
    match device_in_org org id db with
    | None => (Err ErrNotFound, db)
    | Some d =>
        match projection (now db) d input with
        | Err e => (Err e, db)
        | Ok None => (Ok d, db)
        | Ok (Some d') => (Ok d', with_devices (<[id := d']> (devices db)) db)
        end
    end.
Proof.
  unfold projectDeviceTx, projection. run_simpl.
  destruct (device_in_org org id db) as [d|] eqn:Hd; simpl; [|done].
  fold (stale_activity d input). destruct (stale_activity d input); [done|].
  fold (refused_disabled d input). destruct (refused_disabled d input); [done|]. simpl.
  assert (∀ st seen md (db' := with_devices
      (<[id := device_update st seen md (now db) (Device_DisabledAt d) d]> (devices db)) db),
    update_device org id st seen md db =
    if valid_device_status st
    then (Ok (Some (device_update st seen md (now db) (Device_DisabledAt d) d)), db')
    else (Err (ErrPg "devices_status_check"), db)) as Hupd.
  { intros st seen md. unfold update_device. run_simpl. rewrite Hd.
    by destruct (valid_device_status st). }
  unfold projected_row. destruct (Status input) as [st|], (LastSeenAt input) as [seen|]; simpl;
    rewrite ?Hupd; try done; try by destruct (valid_device_status _).
  unfold presence_evidence.
  destruct (blank _); [done|]. case_bool_decide; simpl; [|done].
  destruct (IsZero seen); simpl; [done|]. destruct (presence_stale _ _ _); [done|].
  rewrite Hupd. by destruct (valid_device_status st).
Qed.

(** Whatever the outcome, a projection changes at most this row of [devices]. *)
Lemma projectDeviceTx_frame org id input db r db' :
  projectDeviceTx org id input db = (r, db') →
  db' = with_devices (devices db') db ∧ ∀ i, i ≠ id → devices db' !! i = devices db !! i.
Proof.
  rewrite projectDeviceTx_run. destruct db, (device_in_org org id _) as [d|];
    [|by intros [= <- <-]].
  destruct (projection _ d input) as [[d'|]|]; intros [= <- <-]; try done.
  split; [done|]. intros i Hi. simpl. by rewrite lookup_insert_ne.
Qed.

(** ** The metadata merge *)

Lemma applyProjectionMetadata_lookup existing patch key :
  applyProjectionMetadata existing patch !! key =
    if HasPrefix key projectionMetadataPrefix then
      match patch !! key with
      | None => existing !! key
      | Some ANil => None
      | Some value => Some value
      end
    else existing !! key.
Proof.
  unfold applyProjectionMetadata.
  assert (∀ m : jsonmap, map_fold (λ key value merged,
      if bool_decide (value = ANil) then delete key merged else <[key := value]> merged)
      existing m !! key =
    match m !! key with None => existing !! key | Some ANil => None | Some v => Some v end) as H.
  { intros m. apply (map_fold_weak_ind (λ r m, r !! key =
      match m !! key with None => existing !! key | Some ANil => None | Some v => Some v end));
      [done|].
    intros k v m' r Hk IH. case_bool_decide as Hv; [subst v|];
      (destruct (decide (k = key)) as [->|Hne]; simplify_map_eq; [|by rewrite IH]);
      [done | by destruct v]. }
  rewrite H. unfold selectProjectionMetadata. rewrite map_lookup_filter.
  destruct (patch !! key) as [v|]; simpl; [|by destruct (HasPrefix key _)].
  by destruct (HasPrefix key projectionMetadataPrefix).
Qed.

(** A map as a jsonb column returns it. *)
Definition canonical (m : jsonmap) : Prop := marshalJSONMap m = m.

Lemma marshalJSONMap_canonical m : canonical (marshalJSONMap m).
Proof. apply marshalJSONMap_idemp. Qed.

Lemma projection_some t d input d' :
  projection t d input = Ok (Some d') → d' = projected_row t d input.
Proof.
  unfold projection. destruct (stale_activity d input), (refused_disabled d input); try done.
  destruct (Status input), (LastSeenAt input); try done;
    repeat (case_match; try done); intros; simplify_eq; done.
Qed.

Lemma projectDeviceTx_ok org id input db d' db' :
  projectDeviceTx org id input db = (Ok d', db') →
  ∃ d, device_in_org org id db = Some d ∧
    ((projection (now db) d input = Ok None ∧ d' = d ∧ db' = db) ∨
     (projection (now db) d input = Ok (Some d') ∧ d' = projected_row (now db) d input ∧
      db' = with_devices (<[id := d']> (devices db)) db)).
Proof.
  rewrite projectDeviceTx_run. destruct (device_in_org org id db) as [d|]; [|done].
  intros H. exists d. split; [done|].
  destruct (projection _ d input) as [[r|]|] eqn:E; simplify_eq; [right|left]; [|done].
  split_and!; [done| |done]. by eapply projection_some.
Qed.

(** A projection writes status, last-seen time and the [video_cloud_] keys only: the device
    keeps its identity, owner, descriptive fields, product and disabled mark, every other
    metadata key keeps its value, and every other row and table is untouched. *)
Theorem projection_footprint org id input db d d' db' :
  device_in_org org id db = Some d → canonical (Device_Metadata d) →
  projectDeviceTx org id input db = (Ok d', db') →
  (Device_ID d', Device_OrganizationID d', Device_Name d', Device_Category d',
   Device_SerialNumber d', Device_MACAddress d', Device_Manufacturer d', Device_Model d',
   Device_CreatedAt d', Device_DisabledAt d', Device_DeviceItemProfileID d') =
  (Device_ID d, Device_OrganizationID d, Device_Name d, Device_Category d,
   Device_SerialNumber d, Device_MACAddress d, Device_Manufacturer d, Device_Model d,
   Device_CreatedAt d, Device_DisabledAt d, Device_DeviceItemProfileID d) ∧
  (∀ key, HasPrefix key "video_cloud_" = false →
     Device_Metadata d' !! key = Device_Metadata d !! key) ∧
  devices db' !! id = Some d' ∧ (∀ i, i ≠ id → devices db' !! i = devices db !! i) ∧
  db' = with_devices (devices db') db.
Proof.
  intros Hd Hcan H.
  destruct (projectDeviceTx_frame _ _ _ _ _ _ H) as [Hdb Hother].
  apply projectDeviceTx_ok in H as (d0 & Hd0 & H). rewrite Hd in Hd0. injection Hd0 as <-.
  destruct H as [(_ & -> & ->)|(_ & -> & ->)].
  - apply device_in_org_some in Hd as [Hd _]. done.
  - split_and!; try done; [|by simpl; rewrite lookup_insert_eq].
    intros key Hkey. simpl. rewrite marshalJSONMap_lookup, applyProjectionMetadata_lookup.
    unfold projectionMetadataPrefix. rewrite Hkey. by rewrite <-marshalJSONMap_lookup, Hcan.
Qed.

(** *** Presence reports *)

(** A report that passes [projectDeviceTx]'s checks for this device. *)
Record presence_report (d : Device) (p : DeviceOnlineChangedPayload) : Prop := {
  report_devid : OC_VideoCloudDevid p = metadata_string (Device_Metadata d) DeviceMetadataVideoCloudDevid;
  report_status : OC_Status p = OnlineStatusOnline ∨ OC_Status p = OnlineStatusOffline;
  report_set : IsZero (OC_LastSeenAt p) = false;
  (* whole microseconds, the resolution of last_seen_at *)
  report_aligned : pg_timestamptz (UTC (OC_LastSeenAt p)) = UTC (OC_LastSeenAt p);
}.

(** A device presence reports apply to. *)
Record reachable_device (d : Device) : Prop := {
  reachable_enabled : Device_DisabledAt d = None;
  reachable_devid : blank (metadata_string (Device_Metadata d) DeviceMetadataVideoCloudDevid) = false;
}.

Definition presence_step (t : Time) (d : Device) (p : DeviceOnlineChangedPayload) : Device :=
  let status := DeviceStatus_of_text (OC_Status p) in
  let at_ := UTC (OC_LastSeenAt p) in
  if presence_stale d status at_ then d
  else device_update status (Some at_) (marshalJSONMap (Device_Metadata d)) t (Device_DisabledAt d) d.

Lemma metadata_string_some m key s : metadata_string m key = s → s ≠ "" → m !! key = Some (AString s).
Proof. unfold metadata_string. destruct (m !! key) as [[]|]; naive_solver. Qed.

Lemma metadata_string_marshal m key :
  blank (metadata_string m key) = false → metadata_string (marshalJSONMap m) key = metadata_string m key.
Proof.
  intros H. destruct (m !! key) as [v|] eqn:E; unfold metadata_string in *;
    rewrite marshalJSONMap_lookup, E in *; simpl; [|done].
  destruct v; try done; by rewrite bool_decide_false in H.
Qed.

Lemma blank_empty : blank "" = true.
Proof. reflexivity. Qed.

(** The mapped id is already there, so the merge writes nothing new. *)
Lemma apply_same_devid d p :
  reachable_device d → presence_report d p →
  applyProjectionMetadata (Device_Metadata d) (Metadata (OnlineChangedProjection p)) =
  Device_Metadata d.
Proof.
  intros Hd Hp. apply map_eq. intros key. rewrite applyProjectionMetadata_lookup.
  destruct (HasPrefix key projectionMetadataPrefix); [|done].
  unfold OnlineChangedProjection, map_literal; simpl.
  destruct (decide (key = DeviceMetadataVideoCloudDevid)) as [->|Hne]; simplify_map_eq; [|done].
  symmetry. apply metadata_string_some; [by rewrite (report_devid _ _ Hp)|].
  intros E. pose proof (reachable_devid _ Hd) as H. by rewrite <-(report_devid _ _ Hp), E in H.
Qed.

Lemma report_status_cases d p :
  presence_report d p →
  DeviceStatus_of_text (OC_Status p) = DeviceStatusOnline ∨
  DeviceStatus_of_text (OC_Status p) = DeviceStatusOffline.
Proof. intros H. destruct (report_status _ _ H) as [->| ->]; [left|right]; done. Qed.

(** On such a device a report acts as [presence_step] and always succeeds. *)
Lemma project_presence_one org id d p db :
  device_in_org org id db = Some d → reachable_device d → presence_report d p →
  projectDeviceTx org id (OnlineChangedProjection p) db =
    (Ok (presence_step (now db) d p),
     with_devices (<[id := presence_step (now db) d p]> (devices db)) db).
Proof.
  intros Hd Hr Hp. rewrite projectDeviceTx_run, Hd. unfold projection.
  assert (stale_activity d (OnlineChangedProjection p) = false) as -> by done.
  unfold refused_disabled. rewrite (reachable_enabled _ Hr). simpl.
  assert (presence_evidence d (OnlineChangedProjection p) (UTC (OC_LastSeenAt p)) = true) as ->.
  { unfold presence_evidence. rewrite (reachable_devid _ Hr). simpl.
    rewrite bool_decide_true by (symmetry; apply (report_devid _ _ Hp)). simpl.
    pose proof (report_set _ _ Hp) as Hset. unfold IsZero in *. simpl. by rewrite Hset. }
  unfold presence_step. simpl.
  destruct (presence_stale _ _ _) eqn:E; simpl.
  - apply device_in_org_some in Hd as [Hd _]. rewrite insert_id by done. by destruct db.
  - unfold projected_row. rewrite (apply_same_devid _ _ Hr Hp). simpl.
    by destruct (report_status_cases _ _ Hp) as [->| ->].
Qed.

Lemma presence_step_metadata t d p :
  Device_Metadata (presence_step t d p) = Device_Metadata d ∨
  Device_Metadata (presence_step t d p) = marshalJSONMap (Device_Metadata d).
Proof. unfold presence_step. destruct (presence_stale _ _ _); eauto. Qed.

Lemma presence_step_devid t d p :
  reachable_device d →
  metadata_string (Device_Metadata (presence_step t d p)) DeviceMetadataVideoCloudDevid =
  metadata_string (Device_Metadata d) DeviceMetadataVideoCloudDevid.
Proof.
  intros H. destruct (presence_step_metadata t d p) as [->| ->]; [done|].
  apply metadata_string_marshal, H.
Qed.

Lemma presence_step_reachable t d p : reachable_device d → reachable_device (presence_step t d p).
Proof.
  intros H. split.
  - unfold presence_step. destruct (presence_stale _ _ _); apply H.
  - rewrite presence_step_devid by done. apply H.
Qed.

Lemma presence_step_report t d p q :
  reachable_device d → presence_report d q → presence_report (presence_step t d p) q.
Proof.
  intros Hd Hq. split; try apply Hq. rewrite presence_step_devid by done. apply Hq.
Qed.

(** Reports are ordered by time, an offline one after an online one of the
    same instant. *)
Definition presence_key (at_ : Time) (status : DeviceStatus) : Z :=
  2 * t_nanos at_ + (if bool_decide (status = DeviceStatusOffline) then 1 else 0).
Definition report_key (p : DeviceOnlineChangedPayload) : Z :=
  presence_key (UTC (OC_LastSeenAt p)) (DeviceStatus_of_text (OC_Status p)).
Definition device_key (d : Device) : option Z :=
  (λ last, presence_key last (Device_Status d)) <$> Device_LastSeenAt d.

Lemma presence_stale_key d p :
  presence_report d p →
  presence_stale d (DeviceStatus_of_text (OC_Status p)) (UTC (OC_LastSeenAt p)) =
  match device_key d with None => false | Some k => report_key p <=? k end.
Proof.
  intros Hp. unfold presence_stale, device_key, report_key, presence_key.
  destruct (Device_LastSeenAt d) as [l|]; simpl; [|done].
  unfold Before, Equal. simpl.
  destruct (report_status_cases _ _ Hp) as [->| ->]; simpl;
    repeat case_bool_decide; try congruence;
    destruct (Z.ltb_spec (t_nanos (OC_LastSeenAt p)) (t_nanos l)),
      (Z.eqb_spec (t_nanos (OC_LastSeenAt p)) (t_nanos l)); simpl; symmetry;
    (apply Z.leb_le || apply Z.leb_gt); lia.
Qed.

Definition presence_update (t : Time) (d : Device) (p : DeviceOnlineChangedPayload) : Device :=
  device_update (DeviceStatus_of_text (OC_Status p)) (Some (UTC (OC_LastSeenAt p)))
    (marshalJSONMap (Device_Metadata d)) t (Device_DisabledAt d) d.

Lemma presence_step_key t d p :
  presence_report d p →
  presence_step t d p =
    if match device_key d with None => false | Some k => report_key p <=? k end
    then d else presence_update t d p.
Proof. intros Hp. unfold presence_step. by rewrite presence_stale_key. Qed.

Lemma presence_update_key t d p :
  presence_report d p → device_key (presence_update t d p) = Some (report_key p).
Proof.
  intros Hp. unfold device_key, presence_update. simpl. by rewrite (report_aligned _ _ Hp).
Qed.

Lemma presence_update_twice t d p q :
  presence_update t (presence_update t d p) q = presence_update t d q.
Proof. unfold presence_update, device_update. simpl. by rewrite marshalJSONMap_idemp. Qed.

Lemma presence_update_same_key t d p q :
  presence_report d p → presence_report d q → report_key p = report_key q →
  presence_update t d p = presence_update t d q.
Proof.
  intros Hp Hq Hk. unfold report_key, presence_key in Hk.
  assert (t_nanos (OC_LastSeenAt p) = t_nanos (OC_LastSeenAt q) ∧
    DeviceStatus_of_text (OC_Status p) = DeviceStatus_of_text (OC_Status q)) as [Ht Hs].
  { simpl in Hk. destruct (report_status_cases _ _ Hp) as [E|E], (report_status_cases _ _ Hq) as [F|F];
      rewrite E, F in *; simpl in Hk; split; done || lia. }
  unfold presence_update. rewrite Hs. unfold UTC. by rewrite Ht.
Qed.

Lemma presence_step_comm t d p q :
  reachable_device d → presence_report d p → presence_report d q →
  presence_step t (presence_step t d p) q = presence_step t (presence_step t d q) p.
Proof.
  intros Hd Hp Hq.
  rewrite (presence_step_key t (presence_step t d p)) by by apply presence_step_report.
  rewrite (presence_step_key t (presence_step t d q)) by by apply presence_step_report.
  rewrite (presence_step_key t d p), (presence_step_key t d q) by done.
  destruct (device_key d) as [k|] eqn:Ek.
  - destruct (Z.leb_spec (report_key p) k), (Z.leb_spec (report_key q) k);
      rewrite ?Ek, ?presence_update_key, ?presence_update_twice by done;
      repeat match goal with |- context [?a <=? ?b] => destruct (Z.leb_spec a b) end;
      try done; try lia; by apply presence_update_same_key; first [done | lia].
  - rewrite !presence_update_key, !presence_update_twice by done.
    repeat match goal with |- context [?a <=? ?b] => destruct (Z.leb_spec a b) end;
      try done; try lia; by apply presence_update_same_key; first [done | lia].
Qed.

(** Reports handled one after the other, each in a transaction of its own that
    starts at a time of its own. *)
Fixpoint project_presence (org id : string) (ps : list (Time * DeviceOnlineChangedPayload)) : Store unit :=
  match ps with
  | [] => mret tt
  | (t, p) :: ps =>
      modify (with_now t) ;;
      ProjectDevice org id (OnlineChangedProjection p) ;;
      project_presence org id ps
  end.

(** The row after them. *)
Definition presence_steps (d : Device) (ps : list (Time * DeviceOnlineChangedPayload)) : Device :=
  foldl (λ d tp, presence_step tp.1 d tp.2) d ps.

Lemma presence_step_in_org t org id d p db :
  device_in_org org id db = Some d →
  device_in_org org id (with_devices (<[id := presence_step t d p]> (devices db)) db) =
  Some (presence_step t d p).
Proof.
  rewrite !device_in_org_some. intros [Hd Ho]. simpl. rewrite lookup_insert_eq. split; [done|].
  unfold presence_step. by destruct (presence_stale _ _ _).
Qed.

Lemma presence_reports_step t d p ps :
  reachable_device d → Forall (presence_report d) ps →
  Forall (presence_report (presence_step t d p)) ps.
Proof. intros Hd H. eapply Forall_impl; [exact H|]. intros q. by apply presence_step_report. Qed.

Lemma project_presence_run org id d ps db :
  device_in_org org id db = Some d → reachable_device d → Forall (presence_report d) ps.*2 →
  ∃ t, project_presence org id ps db =
    (Ok tt, with_now t (with_devices (<[id := presence_steps d ps]> (devices db)) db)).
Proof.
  revert d db. induction ps as [|[t p] ps IH]; intros d db Hd Hr Hps; simpl.
  - exists (now db). apply device_in_org_some in Hd as [Hd _]. unfold presence_steps. simpl.
    rewrite insert_id by done. by destruct db.
  - simpl in Hps. apply Forall_cons in Hps as [Hp Hps].
    unfold ProjectDevice, transaction, modify, mbind, M_bind.
    rewrite (project_presence_one _ _ d) by done.
    destruct (IH (presence_step t d p) (with_devices (<[id := presence_step t d p]> (devices db))
      (with_now t db))) as [t' E].
    + by apply (presence_step_in_org t org id d p (with_now t db)).
    + by apply presence_step_reachable.
    + by apply presence_reports_step.
    + exists t'. etrans; [exact E|]. simpl. by rewrite insert_insert_eq.
Qed.

(** *** The time of the last update aside *)

Definition updated_at (t : Time) (d : Device) : Device :=
  mkDevice (Device_ID d) (Device_OrganizationID d) (Device_Name d) (Device_Category d)
    (Device_SerialNumber d) (Device_MACAddress d) (Device_Manufacturer d) (Device_Model d)
    (Device_Status d) (Device_LastSeenAt d) (Device_Metadata d) (Device_CreatedAt d) t
    (Device_DisabledAt d) (Device_DeviceItemProfileID d).

(** The same row but for [updated_at], which is when it was last written. *)
Definition same_but_updated (d d' : Device) : Prop := updated_at zero_time d = updated_at zero_time d'.

#[export] Instance same_but_updated_equivalence : Equivalence same_but_updated.
Proof. unfold same_but_updated. split; red; congruence. Qed.

Lemma updated_at_twice t u d : updated_at t (updated_at u d) = updated_at t d.
Proof. done. Qed.

Lemma updated_at_step u t d p :
  updated_at u (presence_step t d p) = updated_at u (presence_step u (updated_at u d) p).
Proof.
  unfold presence_step.
  change (presence_stale (updated_at u d) (DeviceStatus_of_text (OC_Status p)) (UTC (OC_LastSeenAt p)))
    with (presence_stale d (DeviceStatus_of_text (OC_Status p)) (UTC (OC_LastSeenAt p))).
  by destruct (presence_stale _ _ _).
Qed.

Lemma updated_at_id u d : Device_UpdatedAt d = u → updated_at u d = d.
Proof. intros <-. by destruct d. Qed.

Lemma presence_step_updated u d p : Device_UpdatedAt d = u → Device_UpdatedAt (presence_step u d p) = u.
Proof. unfold presence_step. by destruct (presence_stale _ _ _). Qed.

(** As if all had been handled at one time. *)
Lemma updated_at_steps u d ps :
  updated_at u (presence_steps d ps) = foldl (presence_step u) (updated_at u d) ps.*2.
Proof.
  unfold presence_steps. revert d. induction ps as [|[t p] ps IH]; intros d; simpl; [done|].
  rewrite IH, updated_at_step. f_equal. apply updated_at_id. by apply presence_step_updated.
Qed.

Lemma foldl_presence_perm t d ps qs :
  ps ≡ₚ qs → reachable_device d → Forall (presence_report d) ps →
  foldl (presence_step t) d ps = foldl (presence_step t) d qs.
Proof.
  intros Hperm. revert d. induction Hperm as [|p ps qs _ IH|p q ps|ps qs rs H1 IH1 _ IH2];
    intros d Hd Hps; simpl.
  - done.
  - apply Forall_cons in Hps as [Hp Hps].
    apply IH; [by apply presence_step_reachable | by apply presence_reports_step].
  - rewrite !Forall_cons in Hps. destruct Hps as (Hp & Hq & _).
    by rewrite presence_step_comm.
  - rewrite IH1 by done. apply IH2; [done|]. by rewrite <-H1.
Qed.

Lemma reports_updated u d ps :
  Forall (presence_report d) ps → Forall (presence_report (updated_at u d)) ps.
Proof. intros H. eapply Forall_impl; [exact H|]. intros p []. by split. Qed.

Lemma presence_steps_perm d ps qs :
  ps.*2 ≡ₚ qs.*2 → reachable_device d → Forall (presence_report d) ps.*2 →
  same_but_updated (presence_steps d ps) (presence_steps d qs).
Proof.
  intros Hperm Hd Hps. unfold same_but_updated. rewrite !updated_at_steps.
  apply foldl_presence_perm; [done| |by apply reports_updated]. destruct Hd. by split.
Qed.

(** C38: Presence reports may arrive in any order and at any times.  Take reports about an enabled device
    with a mapped id, which name that id, say "online" or "offline" and carry a time in whole
    microseconds (what the column holds), and handle them in two orders, every one in a
    transaction of its own whenever it arrives: both succeed, the device's row ends up the same but for [updated_at],
    and nothing else has changed. *)
Theorem presence_order_irrelevant org id d ps qs db :
  device_in_org org id db = Some d → reachable_device d → Forall (presence_report d) ps.*2 →
  ps.*2 ≡ₚ qs.*2 →
  ∃ d1 d2 t1 t2, project_presence org id ps db =
      (Ok tt, with_now t1 (with_devices (<[id := d1]> (devices db)) db)) ∧
    project_presence org id qs db = (Ok tt, with_now t2 (with_devices (<[id := d2]> (devices db)) db)) ∧
    same_but_updated d1 d2.
Proof.
  intros Hd Hr Hps Hperm. exists (presence_steps d ps), (presence_steps d qs).
  destruct (project_presence_run org id d ps db) as [t1 E1]; [done..|].
  destruct (project_presence_run org id d qs db) as [t2 E2]; [done|done|by rewrite <-Hperm|].
  exists t1, t2. split_and!; [done|done|by apply presence_steps_perm].
Qed.

Lemma presence_steps_max d ps :
  reachable_device d → Forall (presence_report d) ps.*2 →
  let d' := presence_steps d ps in
  (∀ k, device_key d = Some k → ∃ k', device_key d' = Some k' ∧ k ≤ k') ∧
  (∀ p, p ∈ ps.*2 → ∃ k', device_key d' = Some k' ∧ report_key p ≤ k') ∧
  (d' = d ∨ ∃ p, p ∈ ps.*2 ∧ Device_Status d' = DeviceStatus_of_text (OC_Status p) ∧
     Device_LastSeenAt d' = Some (UTC (OC_LastSeenAt p))).
Proof.
  unfold presence_steps. revert d. induction ps as [|[t p] ps IH]; intros d Hd Hps; simpl in *.
  { split_and!; [eauto using Z.le_refl | set_solver | by left]. }
  apply Forall_cons in Hps as [Hp Hps].
  destruct (IH (presence_step t d p)) as (H1 & H2 & H3);
    [by apply presence_step_reachable | by apply presence_reports_step |].
  rewrite presence_step_key in * by done.
  destruct (device_key d) as [k|] eqn:Ek.
  - destruct (Z.leb_spec (report_key p) k).
    + split_and!; [intros ? [= <-]; by apply H1| |set_solver].
      intros q [->|Hq]%elem_of_cons; [|by eauto].
      destruct (H1 k Ek) as (k' & ? & ?). exists k'. split; [done|lia].
    + rewrite presence_update_key in H1 by done. destruct (H1 _ eq_refl) as (k' & Hk' & ?).
      split_and!.
      * intros ? [= <-]. exists k'. split; [done|lia].
      * intros q [->|Hq]%elem_of_cons; [eauto|by eauto].
      * destruct H3 as [->|(q & ? & ?)]; right; [exists p | exists q]; [|set_solver].
        split_and!; [set_solver|done|]. simpl. by rewrite (report_aligned _ _ Hp).
  - rewrite presence_update_key in H1 by done. destruct (H1 _ eq_refl) as (k' & Hk' & ?).
    split_and!; [done| |].
    + intros q [->|Hq]%elem_of_cons; [eauto|by eauto].
    + destruct H3 as [->|(q & ? & ?)]; right; [exists p | exists q]; [|set_solver].
      split_and!; [set_solver|done|]. simpl. by rewrite (report_aligned _ _ Hp).
Qed.

(** After any reports the device shows the latest of them or what it showed before, never
    anything older: its last-seen time and status are those of a report that no handled
    report and no earlier state is after (offline after online at the same instant). *)
Theorem presence_shows_latest org id d ps db :
  device_in_org org id db = Some d → reachable_device d → Forall (presence_report d) ps.*2 →
  ∃ d' db', project_presence org id ps db = (Ok tt, db') ∧ devices db' !! id = Some d' ∧
    (∀ k, device_key d = Some k → ∃ k', device_key d' = Some k' ∧ k ≤ k') ∧
    (∀ p, p ∈ ps.*2 → ∃ k', device_key d' = Some k' ∧ report_key p ≤ k') ∧
    (d' = d ∨ ∃ p, p ∈ ps.*2 ∧ Device_Status d' = DeviceStatus_of_text (OC_Status p) ∧
       Device_LastSeenAt d' = Some (UTC (OC_LastSeenAt p))).
Proof.
  intros Hd Hr Hps. destruct (project_presence_run org id d ps db) as [t E]; [done..|].
  do 2 eexists. split; [exact E|].
  split; [by simpl; rewrite lookup_insert_eq|]. by apply presence_steps_max.
Qed.

(** A result of an older activation generation changes nothing: when the result names an
    activity and the device records another one, the projection succeeds and leaves the store
    as it was, whatever else the result says. *)
Theorem stale_activity_changes_nothing org id input db d :
  device_in_org org id db = Some d →
  TrimSpace (ExpectedActivityID input) ≠ "" →
  TrimSpace (metadata_string (Device_Metadata d) DeviceMetadataVideoCloudActivityID) ≠
    TrimSpace (ExpectedActivityID input) →
  ProjectDevice org id input db = (Ok d, db).
Proof.
  intros Hd He Hc. unfold ProjectDevice, transaction. rewrite projectDeviceTx_run, Hd.
  unfold projection, stale_activity. by rewrite !bool_decide_false by done.
Qed.

(** A disabled device takes no presence report, and no other projection that does not allow
    disabled devices: both end in [ErrDisabled] and change nothing; only the result of a
    deactivation still lands. *)
Theorem disabled_device_refuses_projection org id input db d :
  device_in_org org id db = Some d → Device_DisabledAt d ≠ None →
  blank (ExpectedActivityID input) = true →
  ProjectDevice org id input db =
    if negb (AllowDisabled input) || bool_decide (is_Some (Status input))
       || bool_decide (is_Some (LastSeenAt input))
    then (Err ErrDisabled, db)
    else let d' := projected_row (now db) d input in
         if valid_device_status (Device_Status d')
         then (Ok d', with_devices (<[id := d']> (devices db)) db)
         else (Err (ErrPg "devices_status_check"), db).
Proof.
  intros Hd Hdis Hb. unfold ProjectDevice, transaction. rewrite projectDeviceTx_run, Hd.
  unfold projection, stale_activity, refused_disabled. unfold blank in Hb. rewrite Hb. simpl.
  rewrite bool_decide_true by by apply not_eq_None_Some. simpl.
  destruct (AllowDisabled input); simpl; [|done].
  destruct (Status input); simpl; [done|]. destruct (LastSeenAt input); simpl; [done|].
  destruct (valid_device_status _); done.
Qed.

(** ** The hypotheses at work *)

Definition sample_activation : DeviceProjectionInput :=
  ProvisionSucceededProjection
    (mkProvisionSucceeded sample_org sample_uuid "devid-1" "act-1" sample_time).

Lemma projection_footprint_witness :
  ∃ d' db', projectDeviceTx sample_org sample_uuid sample_activation sample_db = (Ok d', db') ∧
    Device_Metadata d' !! "color" = Some (AString "red").
Proof.
  destruct (run_succeeds (projectDeviceTx sample_org sample_uuid sample_activation) sample_db)
    as (d' & db' & E); [vm_compute; reflexivity|].
  exists d', db'. split; [exact E|].
  destruct (projection_footprint sample_org sample_uuid sample_activation sample_db sample_device
    d' db') as (_ & H & _).
  - vm_compute; reflexivity.
  - vm_compute; reflexivity.
  - exact E.
  - rewrite (H "color"); vm_compute; reflexivity.
Defined.

Definition sample_report (secs : Z) (status : string) : DeviceOnlineChangedPayload :=
  mkOnlineChanged sample_org sample_uuid "devid-1" status (mkTime (secs * Second) 0).

Definition sample_deliveries : list (Time * DeviceOnlineChangedPayload) :=
  [(mkTime (1700000070 * Second) 0, sample_report 1700000050 "online");
   (mkTime (1700000071 * Second) 0, sample_report 1700000060 "offline")].
(** The other way round, and later. *)
Definition sample_late_deliveries : list (Time * DeviceOnlineChangedPayload) :=
  [(mkTime (1700000080 * Second) 0, sample_report 1700000060 "offline");
   (mkTime (1700000090 * Second) 0, sample_report 1700000050 "online")].

Lemma sample_reports :
  reachable_device sample_device ∧ Forall (presence_report sample_device) sample_deliveries.*2.
Proof.
  split; [split; reflexivity|].
  repeat constructor; try reflexivity; (left; reflexivity) || (right; reflexivity).
Qed.

Lemma presence_order_irrelevant_witness :
  ∃ d1 d2 t1 t2, project_presence sample_org sample_uuid sample_deliveries sample_db =
      (Ok tt, with_now t1 (with_devices (<[sample_uuid := d1]> (devices sample_db)) sample_db)) ∧
    project_presence sample_org sample_uuid sample_late_deliveries sample_db =
      (Ok tt, with_now t2 (with_devices (<[sample_uuid := d2]> (devices sample_db)) sample_db)) ∧
    same_but_updated d1 d2.
Proof.
  apply (presence_order_irrelevant _ _ sample_device).
  - vm_compute; reflexivity.
  - apply sample_reports.
  - apply sample_reports.
  - apply Permutation_swap.
Defined.

Lemma presence_shows_latest_witness :
  ∃ d' db', project_presence sample_org sample_uuid sample_deliveries sample_db = (Ok tt, db') ∧
    devices db' !! sample_uuid = Some d'.
Proof.
  destruct (presence_shows_latest sample_org sample_uuid sample_device sample_deliveries sample_db)
    as (d' & db' & H1 & H2 & _).
  - vm_compute; reflexivity.
  - apply sample_reports.
  - apply sample_reports.
  - eauto.
Defined.

Lemma stale_activity_changes_nothing_witness :
  ProjectDevice sample_org sample_uuid
    (mkProjection (map_literal [(DeviceMetadataVideoCloudDevid, AString "devid-2")]) "act-0"
      None None false false) sample_db = (Ok sample_device, sample_db).
Proof.
  apply stale_activity_changes_nothing.
  - vm_compute; reflexivity.
  - vm_compute. discriminate.
  - vm_compute. discriminate.
Defined.

Definition sample_disabled : Device :=
  device_update DeviceStatusDisabled None sample_metadata sample_time (Some sample_time)
    sample_device.
Definition sample_disabled_db : DB := with_devices {[sample_uuid := sample_disabled]} sample_db.

Lemma disabled_device_refuses_projection_witness :
  ProjectDevice sample_org sample_uuid (OnlineChangedProjection (sample_report 1700000050 "online"))
    sample_disabled_db = (Err ErrDisabled, sample_disabled_db).
Proof.
  rewrite (disabled_device_refuses_projection _ _ _ _ sample_disabled).
  - vm_compute; reflexivity.
  - vm_compute; reflexivity.
  - vm_compute. discriminate.
  - reflexivity.
Defined.
