(* ===== verification/DeviceMessages.v ===== *)
(** * store/device_messages.go: operations, outbox and inbox rows

    Create-or-get of operations and inbox rows with the comparison that turns a
    repeated call into the stored row or [ErrConflict], the outbox claim with
    its lease, and the comparison of inbox payload snapshots across the two
    formats the worker has used. *)

From S2P Require Export DeviceProjection.

Local Open Scope Z_scope.

Record DeviceOperationCreateInput := mkOperationCreate {
  OCI_OperationID : string; OCI_CorrelationID : string; OCI_OrganizationID : string;
  OCI_DeviceID : string; OCI_OperationType : DeviceOperationType;
  OCI_Status : DeviceOperationStatus; OCI_RequestedBy : option string;
  OCI_RequestPayload : jsonmap; OCI_ResultPayload : jsonmap; OCI_ErrorCode : option string;
  OCI_ErrorMessage : option string; OCI_Retryable : option bool; OCI_CompletedAt : option Time }.

Record DeviceOperationUpdateInput := mkOperationUpdate {
  OUI_Status : DeviceOperationStatus; OUI_ResultPayload : jsonmap; OUI_ErrorCode : option string;
  OUI_ErrorMessage : option string; OUI_Retryable : option bool; OUI_CompletedAt : option Time }.

Record DeviceMessageOutboxCreateInput := mkOutboxCreate {
  MOC_MessageID : string; MOC_OperationID : string; MOC_CorrelationID : string;
  MOC_CausationID : option string; MOC_Stream : string; MOC_MessageType : string;
  MOC_SchemaVersion : string; MOC_PartitionKey : string; MOC_Payload : jsonmap;
  MOC_Status : DeviceMessageOutboxStatus; MOC_AttemptCount : Z; MOC_LastError : option string;
  MOC_AvailableAt : Time; MOC_PublishedAt : option Time }.

Record DeviceMessageOutboxUpdateInput := mkOutboxUpdate {
  MOU_Status : DeviceMessageOutboxStatus; MOU_AttemptCount : Z; MOU_LastError : option string;
  MOU_AvailableAt : Time; MOU_PublishedAt : option Time }.

Record DeviceMessageInboxCreateInput := mkInboxCreate {
  MIC_MessageID : string; MIC_OperationID : string; MIC_CorrelationID : string;
  MIC_CausationID : option string; MIC_Stream : string; MIC_MessageType : string;
  MIC_SchemaVersion : string; MIC_PartitionKey : string; MIC_Payload : jsonmap;
  MIC_Status : DeviceMessageInboxStatus; MIC_AttemptCount : Z; MIC_LastError : option string;
  MIC_ReceivedAt : Time; MIC_ProcessedAt : option Time }.

Record DeviceMessageInboxUpdateInput := mkInboxUpdate {
  MIU_Status : DeviceMessageInboxStatus; MIU_AttemptCount : Z; MIU_LastError : option string;
  MIU_ProcessedAt : option Time }.

Definition inboxPayloadSnapshotRawKey : string := "_raw_payload".
Definition inboxPayloadSnapshotBase64Key : string := "_raw_payload_base64".
Definition inboxPayloadSnapshotErrorKey : string := "_payload_decode_error".

(** ** Comparisons *)

(** Marshalled maps are compared as the values they denote: the encoder writes
    members in key order, so equal texts and equal values are the same. *)
Definition sameJSONMap (existing want : jsonmap) : bool :=
  bool_decide (marshalJSONMap existing = want).

Definition sameStringPtr (left right : option string) : bool :=
  match left, right with
  | None, None => true
  | Some l, Some r => bool_decide (l = r)
  | _, _ => false
  end.

Definition hasOnlyJSONKeys (value : jsonmap) (allowed : list string) : bool :=
  if negb (bool_decide (size value = length allowed)) then false
  else forallb (λ kv, bool_decide (kv.1 ∈ allowed)) (map_to_list value).

Definition jsonStringValue (value : jsonmap) (key : string) : option string :=
  match value !! key with Some (AString text) => Some text | _ => None end.

Definition sameLegacyMalformedInboxPayload (existing want : jsonmap) : bool :=
  if negb (hasOnlyJSONKeys existing [inboxPayloadSnapshotRawKey; inboxPayloadSnapshotErrorKey])
  then false
  else if negb (hasOnlyJSONKeys want [inboxPayloadSnapshotRawKey; inboxPayloadSnapshotBase64Key;
                                      inboxPayloadSnapshotErrorKey])
       && negb (hasOnlyJSONKeys want [inboxPayloadSnapshotBase64Key; inboxPayloadSnapshotErrorKey])
  then false
  else
    match jsonStringValue existing inboxPayloadSnapshotRawKey,
          jsonStringValue existing inboxPayloadSnapshotErrorKey,
          jsonStringValue want inboxPayloadSnapshotErrorKey with
    | Some existingRaw, Some existingError, Some wantError =>
        if negb (bool_decide (wantError = existingError)) then false
        else match jsonStringValue want inboxPayloadSnapshotRawKey with
             | Some wantRaw => bool_decide (wantRaw = existingRaw)
             | None =>
                 match jsonStringValue want inboxPayloadSnapshotBase64Key with
                 | None => false
                 | Some wantBase64 =>
                     match b64_DecodeString wantBase64 with
                     | None => false
                     | Some payloadBytes => bool_decide (ToValidUTF8 payloadBytes = existingRaw)
                     end
                 end
             end
    | _, _, _ => false
    end.

Definition sameInboxPayload (existing want : jsonmap) : bool :=
  if sameJSONMap existing want then true else sameLegacyMalformedInboxPayload existing want.

Definition compareOperationCreate (existing : DeviceOperation) (input : DeviceOperationCreateInput)
    (requestPayload : jsonmap) : res unit :=
  if negb (bool_decide (DeviceOperation_CorrelationID existing = OCI_CorrelationID input))
     || negb (bool_decide (DeviceOperation_OrganizationID existing = OCI_OrganizationID input))
     || negb (bool_decide (DeviceOperation_DeviceID existing = OCI_DeviceID input))
     || negb (bool_decide (DeviceOperation_OperationType existing = OCI_OperationType input))
     || negb (sameJSONMap (DeviceOperation_RequestPayload existing) requestPayload)
  then Err ErrConflict else Ok tt.

Definition compareInboxCreate (existing : DeviceMessageInbox)
    (input : DeviceMessageInboxCreateInput) (payload : jsonmap) : res unit :=
  if negb (bool_decide (Inbox_OperationID existing = MIC_OperationID input))
     || negb (bool_decide (Inbox_CorrelationID existing = MIC_CorrelationID input))
     || negb (sameStringPtr (Inbox_CausationID existing) (MIC_CausationID input))
     || negb (bool_decide (Inbox_Stream existing = MIC_Stream input))
     || negb (bool_decide (Inbox_MessageType existing = MIC_MessageType input))
     || negb (bool_decide (Inbox_SchemaVersion existing = MIC_SchemaVersion input))
     || negb (bool_decide (Inbox_PartitionKey existing = MIC_PartitionKey input))
     || negb (sameInboxPayload (Inbox_Payload existing) payload)
  then Err ErrConflict else Ok tt.

(** ** Operations *)

Definition requireDeviceInOrganization (orgID deviceID : string) : Store unit :=
  db ← gets (λ db, db);
  reject_if (bool_decide (device_in_org orgID deviceID db = None)) ErrNotFound.

Definition GetDeviceOperation (operationID : string) : Store DeviceOperation :=
  db ← gets (λ db, db); row_or ErrNotFound (device_operations db !! operationID).

(** The row a create input describes. *)
Definition operation_row_of (input : DeviceOperationCreateInput) (db : DB) : DeviceOperation :=
  mkDeviceOperation (next_uuid db) (OCI_OperationID input)
    (OCI_CorrelationID input) (OCI_OrganizationID input) (OCI_DeviceID input)
    (OCI_OperationType input) (OCI_Status input) (OCI_RequestedBy input)
    (marshalJSONMap (OCI_RequestPayload input)) (marshalJSONMap (OCI_ResultPayload input))
    (OCI_ErrorCode input) (OCI_ErrorMessage input) (OCI_Retryable input)
    (now db) (now db) (pg_timestamptz <$> OCI_CompletedAt input).

Definition CreateOrGetDeviceOperation (input : DeviceOperationCreateInput)
    : Store (DeviceOperation * bool) :=
  requireDeviceInOrganization (OCI_OrganizationID input) (OCI_DeviceID input) ;;
  let requestPayload := marshalJSONMap (OCI_RequestPayload input) in
  db ← gets (λ db, db);
  row ← insert_operation (operation_row_of input db);
  match row with
  | Some operation => mret (operation, true)
  | None =>
      existing ← GetDeviceOperation (OCI_OperationID input);
      lift_res (compareOperationCreate existing input requestPayload) ;;
      mret (existing, false)
  end.

Definition UpdateDeviceOperation (operationID : string) (input : DeviceOperationUpdateInput)
    : Store DeviceOperation :=
  row ← update_operation operationID (OUI_Status input) (marshalJSONMap (OUI_ResultPayload input))
    (OUI_ErrorCode input) (OUI_ErrorMessage input) (OUI_Retryable input) (OUI_CompletedAt input);
  row_or ErrNotFound row.

(** ** Outbox *)

Definition validatePartitionKeyMatchesOperation (operationID partitionKey : string) : Store unit :=
  if blank partitionKey then mret tt
  else
    db ← gets (λ db, db);
    operation ← row_or ErrNotFound (device_operations db !! operationID);
    reject_if (negb (bool_decide (DeviceOperation_DeviceID operation = partitionKey))) ErrConflict.

Definition CreateOutboxMessage (input : DeviceMessageOutboxCreateInput)
    : Store DeviceMessageOutbox :=
  checked ← attempt
    (validatePartitionKeyMatchesOperation (MOC_OperationID input) (MOC_PartitionKey input));
  match checked with
  | Err err => reject_if (negb (errors_Is err ErrNotFound)) err
  | Ok _ => mret tt
  end ;;
  db ← gets (λ db, db);
  insert_outbox (mkDeviceMessageOutbox (next_uuid db) (MOC_MessageID input)
    (MOC_OperationID input) (MOC_CorrelationID input) (MOC_CausationID input) (MOC_Stream input)
    (MOC_MessageType input) (MOC_SchemaVersion input) (MOC_PartitionKey input)
    (marshalJSONMap (MOC_Payload input)) (MOC_Status input) (MOC_AttemptCount input)
    (MOC_LastError input) (pg_timestamptz (MOC_AvailableAt input))
    (pg_timestamptz <$> MOC_PublishedAt input) (now db) (now db)).

Definition GetOutboxMessage (messageID : string) : Store DeviceMessageOutbox :=
  db ← gets (λ db, db); row_or ErrNotFound (device_message_outbox db !! messageID).

(** [status IN ('pending', 'retrying') AND available_at <= $1] *)
Definition outbox_ready (readyBefore : Time) (m : DeviceMessageOutbox) : bool :=
  match Outbox_Status m with
  | DeviceMessageOutboxStatusPending | DeviceMessageOutboxStatusRetrying =>
      t_nanos (Outbox_AvailableAt m) <=? t_nanos (pg_timestamptz readyBefore)
  | _ => false
  end.

(** [ORDER BY available_at ASC, created_at ASC] *)
Definition by_available (a b : DeviceMessageOutbox) : bool :=
  (t_nanos (Outbox_AvailableAt a) <? t_nanos (Outbox_AvailableAt b)) ||
  ((t_nanos (Outbox_AvailableAt a) =? t_nanos (Outbox_AvailableAt b)) &&
   (t_nanos (Outbox_CreatedAt a) <=? t_nanos (Outbox_CreatedAt b))).

Definition outbox_candidates (readyBefore : Time) (n : Z) (db : DB) : list DeviceMessageOutbox :=
  limit n (order_by by_available
    (filter (λ m, outbox_ready readyBefore m = true) (map_to_list (device_message_outbox db)).*2)).

Definition ListOutboxMessagesReady (readyBefore : Time) (n : Z)
    : Store (list DeviceMessageOutbox) :=
  reject_if (n <? 0) (ErrPg "LIMIT must not be negative") ;;
  gets (outbox_candidates readyBefore n).

Definition outbox_claim (claimUntil updated : Time) (m : DeviceMessageOutbox)
    : DeviceMessageOutbox :=
  mkDeviceMessageOutbox (Outbox_ID m) (Outbox_MessageID m) (Outbox_OperationID m)
    (Outbox_CorrelationID m) (Outbox_CausationID m) (Outbox_Stream m) (Outbox_MessageType m)
    (Outbox_SchemaVersion m) (Outbox_PartitionKey m) (Outbox_Payload m) (Outbox_Status m)
    (Outbox_AttemptCount m) (Outbox_LastError m) (pg_timestamptz claimUntil)
    (Outbox_PublishedAt m) (Outbox_CreatedAt m) updated.

(** Rows written back under their key. *)
Definition put_outbox_rows (rows : list DeviceMessageOutbox)
    (table : gmap string DeviceMessageOutbox) : gmap string DeviceMessageOutbox :=
  foldr (λ m, <[Outbox_MessageID m := m]>) table rows.

(** Candidates are locked with SKIP LOCKED, leased until [claimUntil], and
    returned by creation time. *)
Definition ClaimOutboxMessagesReady (readyBefore claimUntil : Time) (n : Z)
    : Store (list DeviceMessageOutbox) :=
  reject_if (n <? 0) (ErrPg "LIMIT must not be negative") ;;
  db ← gets (λ db, db);
  let claimed := outbox_claim claimUntil (now db) <$> outbox_candidates readyBefore n db in
  modify (with_outbox (put_outbox_rows claimed (device_message_outbox db))) ;;
  mret (order_by (λ a b, t_nanos (Outbox_CreatedAt a) <=? t_nanos (Outbox_CreatedAt b)) claimed).

Definition UpdateOutboxMessage (messageID : string) (input : DeviceMessageOutboxUpdateInput)
    : Store DeviceMessageOutbox :=
  row ← update_outbox messageID (MOU_Status input) (MOU_AttemptCount input) (MOU_LastError input)
    (MOU_AvailableAt input) (MOU_PublishedAt input);
  row_or ErrNotFound row.

(** ** Inbox *)

Definition GetInboxMessage (messageID : string) : Store DeviceMessageInbox :=
  db ← gets (λ db, db); row_or ErrNotFound (device_message_inbox db !! messageID).

(** The row a create input describes. *)
Definition inbox_row_of (input : DeviceMessageInboxCreateInput) (db : DB) : DeviceMessageInbox :=
  mkDeviceMessageInbox (next_uuid db) (MIC_MessageID input)
    (MIC_OperationID input) (MIC_CorrelationID input) (MIC_CausationID input) (MIC_Stream input)
    (MIC_MessageType input) (MIC_SchemaVersion input) (MIC_PartitionKey input)
    (marshalJSONMap (MIC_Payload input))
    (MIC_Status input) (MIC_AttemptCount input) (MIC_LastError input)
    (pg_timestamptz (MIC_ReceivedAt input)) (pg_timestamptz <$> MIC_ProcessedAt input)
    (now db) (now db).

Definition CreateOrGetInboxMessage (input : DeviceMessageInboxCreateInput)
    : Store (DeviceMessageInbox * bool) :=
  let payload := marshalJSONMap (MIC_Payload input) in
  db ← gets (λ db, db);
  row ← insert_inbox (inbox_row_of input db);
  match row with
  | Some message => mret (message, true)
  | None =>
      existing ← GetInboxMessage (MIC_MessageID input);
      lift_res (compareInboxCreate existing input payload) ;;
      mret (existing, false)
  end.

Definition UpdateInboxMessage (messageID : string) (input : DeviceMessageInboxUpdateInput)
    : Store DeviceMessageInbox :=
  row ← update_inbox messageID (MIU_Status input) (MIU_AttemptCount input) (MIU_LastError input)
    (MIU_ProcessedAt input);
  row_or ErrNotFound row.

(** ** Create-or-get *)

(** The identity a repeated create must agree on. *)
Definition same_operation (o : DeviceOperation) (input : DeviceOperationCreateInput) : Prop :=
  DeviceOperation_CorrelationID o = OCI_CorrelationID input ∧
  DeviceOperation_OrganizationID o = OCI_OrganizationID input ∧
  DeviceOperation_DeviceID o = OCI_DeviceID input ∧
  DeviceOperation_OperationType o = OCI_OperationType input ∧
  marshalJSONMap (DeviceOperation_RequestPayload o) = marshalJSONMap (OCI_RequestPayload input).

Lemma compareOperationCreate_run o input :
  (compareOperationCreate o input (marshalJSONMap (OCI_RequestPayload input)) = Ok tt
     ∧ same_operation o input) ∨
  (compareOperationCreate o input (marshalJSONMap (OCI_RequestPayload input)) = Err ErrConflict
     ∧ ¬ same_operation o input).
Proof.
  unfold compareOperationCreate, same_operation, sameJSONMap.
  repeat (case_bool_decide; simpl; [|right; split; [done|tauto]]). by left.
Qed.

Definition same_inbox_message (m : DeviceMessageInbox) (input : DeviceMessageInboxCreateInput)
    : Prop :=
  Inbox_OperationID m = MIC_OperationID input ∧ Inbox_CorrelationID m = MIC_CorrelationID input ∧
  Inbox_CausationID m = MIC_CausationID input ∧ Inbox_Stream m = MIC_Stream input ∧
  Inbox_MessageType m = MIC_MessageType input ∧ Inbox_SchemaVersion m = MIC_SchemaVersion input ∧
  Inbox_PartitionKey m = MIC_PartitionKey input ∧
  sameInboxPayload (Inbox_Payload m) (marshalJSONMap (MIC_Payload input)) = true.

Lemma sameStringPtr_spec a b : sameStringPtr a b = true ↔ a = b.
Proof. destruct a, b; simpl; rewrite ?bool_decide_eq_true; naive_solver. Qed.

Lemma compareInboxCreate_run m input :
  (compareInboxCreate m input (marshalJSONMap (MIC_Payload input)) = Ok tt
     ∧ same_inbox_message m input) ∨
  (compareInboxCreate m input (marshalJSONMap (MIC_Payload input)) = Err ErrConflict
     ∧ ¬ same_inbox_message m input).
Proof.
  unfold compareInboxCreate, same_inbox_message.
  pose proof (sameStringPtr_spec (Inbox_CausationID m) (MIC_CausationID input)) as Hp.
  do 2 (case_bool_decide; simpl; [|right; split; [done|tauto]]).
  destruct (sameStringPtr _ _); simpl;
    [|right; split; [done|intros (_ & _ & E & _); apply Hp in E; done]].
  repeat (case_bool_decide; simpl; [|right; split; [done|tauto]]).
  destruct (sameInboxPayload _ _); simpl; [left|right]; naive_solver.
Qed.

Lemma CreateOrGetDeviceOperation_run input db :
  CreateOrGetDeviceOperation input db =
    match device_in_org (OCI_OrganizationID input) (OCI_DeviceID input) db with
    | None => (Err ErrNotFound, db)
    | Some _ =>
        if cloud_deletion_fenced (registry db) (OCI_OrganizationID input)
        then (Err (ErrPg "cloud_deletion_fence"), db)
        else match device_operations db !! OCI_OperationID input with
        | Some o =>
            match compareOperationCreate o input (marshalJSONMap (OCI_RequestPayload input)) with
            | Ok _ => (Ok (o, false), db)
            | Err e => (Err e, db)
            end
        | None =>
            let o := operation_row_of input db in
            (Ok (o, true),
             use_uuid (with_operations (<[OCI_OperationID input := o]> (device_operations db)) db))
        end
    end.
Proof.
  unfold CreateOrGetDeviceOperation, requireDeviceInOrganization, GetDeviceOperation.
  unfold mbind, M_bind, gets, reject_if, row_or, lift_res, mret, M_ret.
  destruct (device_in_org _ _ db); simpl; [|done].
  rewrite insert_operation_run. simpl. destruct (cloud_deletion_fenced _ _); [done|].
  destruct (device_operations db !! _) as [o|] eqn:Ho; simpl; [|done].
  rewrite Ho. by destruct (compareOperationCreate _ _ _) as [[]|].
Qed.

(** Creating an operation is idempotent: repeating a successful call returns the stored row,
    marked as not created, and changes nothing. *)
Theorem create_or_get_operation_idempotent input db op created db' :
  CreateOrGetDeviceOperation input db = (Ok (op, created), db') →
  CreateOrGetDeviceOperation input db' = (Ok (op, false), db').
Proof.
  rewrite CreateOrGetDeviceOperation_run. intros H.
  destruct (device_in_org _ _ db) as [d|] eqn:Hd; [|done].
  destruct (cloud_deletion_fenced _ _) eqn:Hf; [done|].
  destruct (device_operations db !! _) as [o|] eqn:Ho.
  - destruct (compareOperationCreate _ _ _) as [u|] eqn:Hc; [|done]. simplify_eq.
    by rewrite CreateOrGetDeviceOperation_run, Hd, Hf, Ho, Hc.
  - injection H as <- <- <-. rewrite CreateOrGetDeviceOperation_run.
    simpl. unfold device_in_org in *. simpl. rewrite Hd, Hf, lookup_insert_eq.
    destruct (compareOperationCreate_run (operation_row_of input db) input)
      as [[-> _]|[_ []]]; [done|].
    unfold same_operation. simpl. by rewrite marshalJSONMap_idemp.
Qed.

(** An operation id stands for one request: a create under a taken id answers with the stored
    row exactly when correlation, organization, device, type and request payload agree, and is
    an [ErrConflict] otherwise; the store is unchanged either way. *)
Theorem operation_id_identifies_request input db o :
  device_operations db !! OCI_OperationID input = Some o →
  device_in_org (OCI_OrganizationID input) (OCI_DeviceID input) db ≠ None →
  cloud_deletion_fenced (registry db) (OCI_OrganizationID input) = false →
  (same_operation o input ∧ CreateOrGetDeviceOperation input db = (Ok (o, false), db)) ∨
  (¬ same_operation o input ∧ CreateOrGetDeviceOperation input db = (Err ErrConflict, db)).
Proof.
  intros Ho Hd Hf. rewrite CreateOrGetDeviceOperation_run, Hf, Ho.
  destruct (device_in_org _ _ db); [|done].
  destruct (compareOperationCreate_run o input) as [[-> ?]|[-> ?]]; auto.
Qed.

Lemma CreateOrGetInboxMessage_ok input db :
  inbox_row_ok (inbox_row_of input db) →
  CreateOrGetInboxMessage input db =
    match device_message_inbox db !! MIC_MessageID input with
    | None => (Ok (inbox_row_of input db, true),
        use_uuid (with_inbox (<[MIC_MessageID input := inbox_row_of input db]>
          (device_message_inbox db)) db))
    | Some m =>
        match compareInboxCreate m input (marshalJSONMap (MIC_Payload input)) with
        | Ok _ => (Ok (m, false), db)
        | Err e => (Err e, db)
        end
    end.
Proof.
  intros Hok. unfold CreateOrGetInboxMessage, GetInboxMessage, insert_inbox.
  unfold mbind, M_bind, gets, row_or, lift_res, mret, M_ret, modify.
  destruct (inbox_checks_run (inbox_row_of input db) db) as [[-> _]|(? & _ & [])]; [|done].
  simpl. destruct (device_message_inbox db !! _) as [m|] eqn:Hm; simpl; [|done].
  rewrite Hm. by destruct (compareInboxCreate _ _ _) as [[]|].
Qed.

Lemma CreateOrGetInboxMessage_row_ok input db m created db' :
  CreateOrGetInboxMessage input db = (Ok (m, created), db') → inbox_row_ok (inbox_row_of input db).
Proof.
  unfold CreateOrGetInboxMessage, insert_inbox, mbind, M_bind, gets.
  destruct (inbox_checks_run (inbox_row_of input db) db) as [[_ H]|(? & E & _)]; [done|].
  by rewrite E.
Qed.

(** The row a create answers with is stored and is the described message. *)
Lemma CreateOrGetInboxMessage_same input db m created db' :
  CreateOrGetInboxMessage input db = (Ok (m, created), db') →
  same_inbox_message m input ∧ device_message_inbox db' !! MIC_MessageID input = Some m ∧
  device_operations db' = device_operations db.
Proof.
  intros H. pose proof (CreateOrGetInboxMessage_row_ok _ _ _ _ _ H) as Hok.
  rewrite CreateOrGetInboxMessage_ok in H by done.
  destruct (device_message_inbox db !! _) as [m0|] eqn:Hm.
  - destruct (compareInboxCreate_run m0 input) as [[E ?]|[E _]]; rewrite E in H; [|done].
    by injection H as <- _ <-.
  - injection H as <- _ <-. simpl. rewrite lookup_insert_eq. split; [|done].
    unfold same_inbox_message, sameInboxPayload, sameJSONMap. simpl.
    rewrite marshalJSONMap_idemp. by rewrite bool_decide_true.
Qed.

(** Receiving a message is idempotent: registering the same inbox message again returns the
    stored row, marked as not created, and changes nothing, at any later time. *)
Theorem create_or_get_inbox_idempotent input db m created db' t :
  CreateOrGetInboxMessage input db = (Ok (m, created), db') →
  CreateOrGetInboxMessage input (with_now t db') = (Ok (m, false), with_now t db').
Proof.
  intros H. pose proof (CreateOrGetInboxMessage_row_ok _ _ _ _ _ H) as Hok.
  destruct (CreateOrGetInboxMessage_same _ _ _ _ _ H) as (Hsame & Hm & _).
  rewrite CreateOrGetInboxMessage_ok by exact Hok. simpl. rewrite Hm.
  by destruct (compareInboxCreate_run m input) as [[-> _]|[_ []]].
Qed.

(** ** Claiming outbox rows *)

(** Every outbox row is stored under its message id. *)
Definition outbox_keyed (db : DB) : Prop :=
  map_Forall (λ k m, Outbox_MessageID m = k) (device_message_outbox db).

Definition ids_of : list DeviceMessageOutbox → list string := fmap Outbox_MessageID.

Lemma keyed_values (t : gmap string DeviceMessageOutbox) :
  map_Forall (λ k m, Outbox_MessageID m = k) t → ids_of (map_to_list t).*2 = (map_to_list t).*1.
Proof.
  intros H. unfold ids_of. rewrite <-list_fmap_compose. apply list_fmap_ext.
  intros i [k m] Hi. simpl. apply list_elem_of_lookup_2, elem_of_map_to_list in Hi. by apply H.
Qed.

Lemma sublist_ids l k : sublist l k → sublist (ids_of l) (ids_of k).
Proof. intros H. induction H; simpl; by constructor. Qed.

Lemma ready_rows_NoDup rb db :
  outbox_keyed db →
  NoDup (ids_of (filter (λ m, outbox_ready rb m = true) (map_to_list (device_message_outbox db)).*2)).
Proof.
  intros Hk. eapply sublist_NoDup; [|apply sublist_ids, sublist_filter].
  rewrite keyed_values by done. apply NoDup_fst_map_to_list.
Qed.

Lemma candidates_spec rb n db :
  outbox_keyed db →
  NoDup (ids_of (outbox_candidates rb n db)) ∧
  (length (outbox_candidates rb n db) ≤ Z.to_nat n)%nat ∧
  (∀ m, m ∈ outbox_candidates rb n db →
     device_message_outbox db !! Outbox_MessageID m = Some m ∧ outbox_ready rb m = true) ∧
  ((length (outbox_candidates rb n db) < Z.to_nat n)%nat →
     ∀ k m, device_message_outbox db !! k = Some m → outbox_ready rb m = true →
       m ∈ outbox_candidates rb n db).
Proof.
  intros Hk. unfold outbox_candidates, limit.
  set (rows := filter _ _).
  assert (∀ m, m ∈ rows ↔ outbox_ready rb m = true ∧ ∃ k, device_message_outbox db !! k = Some m) as Hrows.
  { intros m. unfold rows. rewrite list_elem_of_filter, list_elem_of_fmap.
    split; intros [? H]; (split; [done|]).
    - destruct H as ([k m'] & -> & H%elem_of_map_to_list). eauto.
    - destruct H as [k H]. exists (k, m). by rewrite elem_of_map_to_list. }
  split_and!.
  - eapply sublist_NoDup; [|apply sublist_ids, sublist_take].
    unfold ids_of. rewrite (order_by_perm by_available rows). by apply ready_rows_NoDup.
  - rewrite length_take. lia.
  - intros m Hm. apply elem_of_take in Hm as (i & Hi & _).
    apply list_elem_of_lookup_2, elem_of_order_by, Hrows in Hi as [Hr [k Hi]].
    by rewrite (Hk _ _ Hi).
  - rewrite length_take. intros Hlen k m Hm Hr. rewrite take_ge by lia.
    apply elem_of_order_by, Hrows. eauto.
Qed.

Lemma put_outbox_rows_other rows t k :
  k ∉ ids_of rows → put_outbox_rows rows t !! k = t !! k.
Proof.
  induction rows as [|m rows IH]; simpl; [done|]. rewrite not_elem_of_cons. intros [? ?].
  rewrite lookup_insert_ne by done. auto.
Qed.

Lemma put_outbox_rows_in rows t m :
  NoDup (ids_of rows) → m ∈ rows → put_outbox_rows rows t !! Outbox_MessageID m = Some m.
Proof.
  induction rows as [|m' rows IH]; simpl; [set_solver|].
  rewrite NoDup_cons. intros [Hn Hd] [->|Hm]%elem_of_cons; [apply lookup_insert_eq|].
  rewrite lookup_insert_ne; [by apply IH|]. intros E. apply Hn. rewrite E.
  by apply list_elem_of_fmap_2.
Qed.

Lemma ids_of_claim cu t rows : ids_of (outbox_claim cu t <$> rows) = ids_of rows.
Proof. unfold ids_of. by rewrite <-list_fmap_compose. Qed.

Lemma put_outbox_rows_keyed rows t :
  map_Forall (λ k m, Outbox_MessageID m = k) t →
  map_Forall (λ k m, Outbox_MessageID m = k) (put_outbox_rows rows t).
Proof.
  intros Ht. induction rows as [|m rows IH]; simpl; [done|]. by apply map_Forall_insert_2.
Qed.

Definition claimed_rows (rb cu : Time) (n : Z) (db : DB) : list DeviceMessageOutbox :=
  outbox_claim cu (now db) <$> outbox_candidates rb n db.

Lemma claim_run rb cu n db :
  ClaimOutboxMessagesReady rb cu n db =
    if n <? 0 then (Err (ErrPg "LIMIT must not be negative"), db)
    else (Ok (order_by (λ a b, t_nanos (Outbox_CreatedAt a) <=? t_nanos (Outbox_CreatedAt b))
                (claimed_rows rb cu n db)),
          with_outbox (put_outbox_rows (claimed_rows rb cu n db) (device_message_outbox db)) db).
Proof. unfold ClaimOutboxMessagesReady. run_simpl. by destruct (n <? 0). Qed.

Lemma claim_ok rb cu n db ms db' :
  outbox_keyed db → ClaimOutboxMessagesReady rb cu n db = (Ok ms, db') →
  ms ≡ₚ claimed_rows rb cu n db ∧
  db' = with_outbox (put_outbox_rows (claimed_rows rb cu n db) (device_message_outbox db)) db.
Proof.
  intros Hk. rewrite claim_run. destruct (n <? 0); [done|]. intros [= <- <-].
  split; [apply order_by_perm|done].
Qed.

Lemma claim_leases readyBefore claimUntil n db ms db' :
  outbox_keyed db →
  ClaimOutboxMessagesReady readyBefore claimUntil n db = (Ok ms, db') →
  (length ms ≤ Z.to_nat n)%nat ∧ NoDup (ids_of ms) ∧
  (∀ m, m ∈ ms → ∃ m0, device_message_outbox db !! Outbox_MessageID m = Some m0 ∧
     outbox_ready readyBefore m0 = true ∧ m = outbox_claim claimUntil (now db) m0 ∧
     device_message_outbox db' !! Outbox_MessageID m = Some m) ∧
  (∀ k, k ∉ ids_of ms → device_message_outbox db' !! k = device_message_outbox db !! k) ∧
  ((length ms < Z.to_nat n)%nat → ∀ k m, device_message_outbox db !! k = Some m →
     outbox_ready readyBefore m = true → k ∈ ids_of ms) ∧
  db' = with_outbox (device_message_outbox db') db.
Proof.
  intros Hk H. destruct (candidates_spec readyBefore n db Hk) as (Hnd & Hlen & Hin & Hall).
  apply claim_ok in H as [Hperm ->]; [|done].
  assert (ids_of ms ≡ₚ ids_of (outbox_candidates readyBefore n db)) as Hids.
  { unfold ids_of at 1. rewrite Hperm. apply reflexive_eq, ids_of_claim. }
  assert (length ms = length (outbox_candidates readyBefore n db)) as Hl.
  { rewrite Hperm. apply length_fmap. }
  split_and!.
  - lia.
  - by rewrite Hids.
  - intros m Hm. rewrite Hperm in Hm. pose proof Hm as Hc.
    apply list_elem_of_fmap in Hm as (m0 & -> & Hm0).
    destruct (Hin _ Hm0) as [? ?]. exists m0. split_and!; try done.
    apply (put_outbox_rows_in (claimed_rows _ _ _ _) _ (outbox_claim claimUntil (now db) m0));
      [|exact Hc].
    unfold claimed_rows. by rewrite ids_of_claim.
  - intros k Hnot. rewrite Hids in Hnot. simpl. apply put_outbox_rows_other.
    unfold claimed_rows. by rewrite ids_of_claim.
  - intros Hlt k m Hm Hr. rewrite Hids, <-(Hk _ _ Hm). apply list_elem_of_fmap_2.
    eapply Hall; eauto. lia.
  - done.
Qed.

(** A claim hands out at most [limit] distinct rows that were ready, each leased until
    [claimUntil] and otherwise as stored, leaves every other row alone, and leaves a ready row
    behind only when the limit is reached. *)
Theorem claim_leases_ready_rows readyBefore claimUntil n db ms db' :
  outbox_keyed db →
  ClaimOutboxMessagesReady readyBefore claimUntil n db = (Ok ms, db') →
  (length ms ≤ Z.to_nat n)%nat ∧ NoDup (ids_of ms) ∧
  (∀ m, m ∈ ms → ∃ m0, device_message_outbox db !! Outbox_MessageID m = Some m0 ∧
     outbox_ready readyBefore m0 = true ∧ m = outbox_claim claimUntil (now db) m0 ∧
     device_message_outbox db' !! Outbox_MessageID m = Some m) ∧
  (∀ k, k ∉ ids_of ms → device_message_outbox db' !! k = device_message_outbox db !! k) ∧
  ((length ms < Z.to_nat n)%nat → ∀ k m, device_message_outbox db !! k = Some m →
     outbox_ready readyBefore m = true → k ∈ ids_of ms) ∧
  db' = with_outbox (device_message_outbox db') db.
Proof. apply claim_leases. Qed.

(** A lease is exclusive: while the lease of a claimed row has not run out, no other claim
    returns that row. *)
Theorem claim_lease_exclusive rb1 until1 n1 rb2 until2 n2 db ms1 db1 ms2 db2 t :
  outbox_keyed db →
  ClaimOutboxMessagesReady rb1 until1 n1 db = (Ok ms1, db1) →
  ClaimOutboxMessagesReady rb2 until2 n2 (with_now t db1) = (Ok ms2, db2) →
  t_nanos (pg_timestamptz rb2) < t_nanos (pg_timestamptz until1) →
  ∀ m, m ∈ ids_of ms1 → m ∉ ids_of ms2.
Proof.
  intros Hk H1 H2 Hlt k Hk1 Hk2.
  assert (∀ m, m ∈ ms1 → device_message_outbox db1 !! Outbox_MessageID m = Some m ∧
    outbox_ready rb2 m = false) as Hleased.
  { intros m Hm. destruct (candidates_spec rb1 n1 db Hk) as (Hnd & _ & _ & _).
    apply claim_ok in H1 as [Hperm ->]; [|done]. rewrite Hperm in Hm. split.
    - apply (put_outbox_rows_in (claimed_rows _ _ _ _)); [|done].
      unfold claimed_rows. by rewrite ids_of_claim.
    - apply list_elem_of_fmap in Hm as (m0 & -> & _). unfold outbox_ready. simpl.
      destruct (Outbox_Status m0); try done; apply Z.leb_gt; done. }
  assert (outbox_keyed (with_now t db1)) as Hk'.
  { apply claim_ok in H1 as [_ ->]; [|done]. apply put_outbox_rows_keyed, Hk. }
  destruct (candidates_spec rb2 n2 (with_now t db1) Hk') as (_ & _ & Hin & _).
  apply claim_ok in H2 as [Hperm _]; [|done].
  apply list_elem_of_fmap in Hk1 as (m1 & -> & Hm1).
  apply list_elem_of_fmap in Hk2 as (m2 & Heq & Hm2). rewrite Hperm in Hm2.
  apply list_elem_of_fmap in Hm2 as (m3 & -> & Hm3). apply Hin in Hm3 as [Hm3 Hready].
  destruct (Hleased _ Hm1) as [Hrow Hnot]. simpl in *.
  rewrite <-Heq, Hrow in Hm3. simplify_eq. congruence.
Qed.

(** ** The theorems at work on a small store *)

Definition sample_command_payload : jsonmap :=
  map_literal
    [("org_id", AString sample_org); ("account_device_id", AString sample_uuid);
     ("video_cloud_devid", AString "devid-1"); ("activity_id", AString "act-1");
     ("clip_public_key", AString "key-1"); ("service_options", strings_value ["mqtt"]);
     ("requested_by", AString "user-1")].
(** A provision command, in a given state. *)
Definition sample_outbox (status : DeviceMessageOutboxStatus) (attempts : Z) : DeviceMessageOutbox :=
  mkDeviceMessageOutbox "id-msg-1" "msg-1" "op-1" "corr-1" None StreamAccountVideoCommands
    MessageTypeDeviceProvisionRequested "1.0" sample_uuid sample_command_payload status attempts
    None sample_time None sample_time sample_time.
Definition sample_outbox_db (status : DeviceMessageOutboxStatus) (attempts : Z) : DB :=
  with_outbox {["msg-1" := sample_outbox status attempts]} sample_db.

Definition sample_operation_create : DeviceOperationCreateInput :=
  mkOperationCreate "op-1" "corr-1" sample_org sample_uuid DeviceOperationTypeProvision
    DeviceOperationStatusPending (Some "user-1") ∅ ∅ None None None None.
Definition sample_inbox_create : DeviceMessageInboxCreateInput :=
  mkInboxCreate "evt-1" "op-1" "corr-1" None StreamVideoAccountEvents
    MessageTypeDeviceOnlineChanged "1.0" sample_uuid
    (map_literal [("status", AString "online"); ("org_id", AString sample_org)])
    DeviceMessageInboxStatusRetrying 0 None sample_time None.

Lemma sample_outbox_keyed status attempts : outbox_keyed (sample_outbox_db status attempts).
Proof. by apply map_Forall_singleton. Qed.

Lemma operation_id_identifies_request_witness :
  CreateOrGetDeviceOperation sample_operation_create sample_db =
    (Ok (sample_operation, false), sample_db).
Proof.
  destruct (operation_id_identifies_request sample_operation_create sample_db sample_operation)
    as [[_ H]|[H _]].
  - vm_compute; reflexivity.
  - vm_compute. discriminate.
  - vm_compute; reflexivity.
  - exact H.
  - destruct H. split_and!; vm_compute; reflexivity.
Defined.

Lemma create_or_get_inbox_idempotent_witness :
  ∃ m db', CreateOrGetInboxMessage sample_inbox_create sample_db = (Ok (m, true), db') ∧
    CreateOrGetInboxMessage sample_inbox_create (with_now sample_time db') =
      (Ok (m, false), with_now sample_time db').
Proof.
  destruct (run_check (λ r _, r.2) (CreateOrGetInboxMessage sample_inbox_create) sample_db)
    as ([m [|]] & db' & E & Hc); [vm_compute; reflexivity| |discriminate Hc].
  exists m, db'. split; [exact E|].
  apply (create_or_get_inbox_idempotent _ sample_db m true). exact E.
Defined.

Lemma claim_leases_ready_rows_witness :
  ∃ ms db', ClaimOutboxMessagesReady sample_time (Add sample_time Minute) 10
      (sample_outbox_db DeviceMessageOutboxStatusPending 0) = (Ok ms, db') ∧ "msg-1" ∈ ids_of ms.
Proof.
  destruct (run_check (λ ms _, length ms =? 1)%nat
    (ClaimOutboxMessagesReady sample_time (Add sample_time Minute) 10)
    (sample_outbox_db DeviceMessageOutboxStatusPending 0)) as (ms & db' & E & Hl%Nat.eqb_eq);
    [vm_compute; reflexivity|].
  exists ms, db'. split; [exact E|].
  destruct (claim_leases_ready_rows _ _ _ _ _ _ (sample_outbox_keyed _ _) E)
    as (_ & _ & _ & _ & H & _).
  refine (H _ _ (sample_outbox DeviceMessageOutboxStatusPending 0) _ _).
  - rewrite Hl. change (1 < 10)%nat. lia.
  - vm_compute; reflexivity.
  - vm_compute; reflexivity.
Defined.

Lemma claim_lease_exclusive_witness :
  ∃ ms1 db1 ms2 db2,
    ClaimOutboxMessagesReady sample_time (Add sample_time Minute) 10
      (sample_outbox_db DeviceMessageOutboxStatusPending 0) = (Ok ms1, db1) ∧
    ClaimOutboxMessagesReady (Add sample_time Second) (Add sample_time Hour) 10
      (with_now sample_time db1) = (Ok ms2, db2) ∧
    "msg-1" ∈ ids_of ms1 ∧ "msg-1" ∉ ids_of ms2.
Proof.
  destruct (run_check (λ ms _, bool_decide (ids_of ms = ["msg-1"]))
    (ClaimOutboxMessagesReady sample_time (Add sample_time Minute) 10)
    (sample_outbox_db DeviceMessageOutboxStatusPending 0))
    as (ms1 & db1 & E1 & Hids%bool_decide_eq_true); [vm_compute; reflexivity|].
  destruct (ClaimOutboxMessagesReady (Add sample_time Second) (Add sample_time Hour) 10
    (with_now sample_time db1)) as [[ms2|e] db2] eqn:E2; [|discriminate E2].
  exists ms1, db1, ms2, db2. assert ("msg-1" ∈ ids_of ms1) as H1.
  { rewrite Hids. left. }
  split_and!; [exact E1|exact E2|exact H1|].
  apply (claim_lease_exclusive _ _ _ _ _ _ _ _ _ _ _ _ (sample_outbox_keyed _ _) E1 E2); [|exact H1].
  vm_compute; reflexivity.
Defined.
