(* ===== verification/OutboxTransitions.v ===== *)
(** * store/outbox_worker.go: recording what became of a publication

    [RecordOutboxPublishTransition] compares the row with what the worker had
    claimed, except that a successful publication overrides any other outcome,
    and moves the operation along unless the inbox already finished it.  The
    theorems: a published row is final, a publication never rolls a finished
    operation back, and what the other transitions do to one. *)

From S2P Require Export DeviceMessages.

Local Open Scope Z_scope.

Record OutboxPublishTransitionInput := mkPublishTransition {
  PT_MessageID : string;
  PT_ExpectedMessageStatus : DeviceMessageOutboxStatus;
  PT_ExpectedAttemptCount : Z;
  PT_ExpectedAvailableAt : Time;
  PT_MessageStatus : DeviceMessageOutboxStatus;
  PT_AttemptCount : Z;
  PT_LastError : option string;
  PT_AvailableAt : Time;
  PT_PublishedAt : option Time;
  PT_OperationStatus : DeviceOperationStatus;
  PT_OperationErrorCode : option string;
  PT_OperationErrorMessage : option string;
  PT_OperationRetryable : option bool;
  PT_OperationCompletedAt : option Time;
}.

Record OutboxPublishTransitionResult := mkPublishResult {
  PTR_Message : DeviceMessageOutbox;
  PTR_Operation : DeviceOperation;
}.

Definition isPublishedOutcomeOverride (current : DeviceMessageOutbox)
    (input : OutboxPublishTransitionInput) : bool :=
  bool_decide (PT_MessageStatus input = DeviceMessageOutboxStatusPublished) &&
  negb (bool_decide (Outbox_Status current = DeviceMessageOutboxStatusPublished)).

Definition shouldApplyOutboxPublishTransition (current : DeviceMessageOutbox)
    (input : OutboxPublishTransitionInput) : bool :=
  if bool_decide (Outbox_Status current = PT_ExpectedMessageStatus input)
     && (Outbox_AttemptCount current =? PT_ExpectedAttemptCount input)
     && Equal (Outbox_AvailableAt current) (PT_ExpectedAvailableAt input)
  then true
  else isPublishedOutcomeOverride current input.

Definition shouldRepairOperationForPublishedOverride (status : DeviceOperationStatus) : bool :=
  match status with
  | DeviceOperationStatusPending
  | DeviceOperationStatusPublished
  | DeviceOperationStatusRetrying
  | DeviceOperationStatusDeadLettered => true
  | _ => false
  end.

Definition RecordOutboxPublishTransition (input : OutboxPublishTransitionInput)
    : Store OutboxPublishTransitionResult :=
  transaction (
    db ← gets (λ db, db);
    current ← row_or ErrNotFound (device_message_outbox db !! PT_MessageID input);
    reject_if (negb (shouldApplyOutboxPublishTransition current input)) ErrConflict ;;
    let publishedOverride := isPublishedOutcomeOverride current input in
    let attemptCount :=
      if bool_decide (PT_MessageStatus input = DeviceMessageOutboxStatusPublished)
         && (PT_AttemptCount input <? Outbox_AttemptCount current)
      then Outbox_AttemptCount current else PT_AttemptCount input in
    row ← update_outbox (PT_MessageID input) (PT_MessageStatus input) attemptCount
      (PT_LastError input) (PT_AvailableAt input) (PT_PublishedAt input);
    message ← row_or ErrNoRows row;
    operation ← row_or ErrNotFound (device_operations db !! Outbox_OperationID message);
    if negb publishedOverride
       || shouldRepairOperationForPublishedOverride (DeviceOperation_Status operation)
    then
      row ← update_operation (Outbox_OperationID message) (PT_OperationStatus input)
        (marshalJSONMap ∅) (PT_OperationErrorCode input) (PT_OperationErrorMessage input)
        (PT_OperationRetryable input) (PT_OperationCompletedAt input);
      operation ← row_or ErrNotFound row;
      mret (mkPublishResult message operation)
    else mret (mkPublishResult message operation)).

(** ** What a successful transition does *)

(** The operation is written unless a publication meets a finished one. *)
Definition operation_written (current : DeviceMessageOutbox) (input : OutboxPublishTransitionInput)
    (operation : DeviceOperation) : bool :=
  negb (isPublishedOutcomeOverride current input)
  || shouldRepairOperationForPublishedOverride (DeviceOperation_Status operation).

Definition transition_attempts (current : DeviceMessageOutbox)
    (input : OutboxPublishTransitionInput) : Z :=
  if bool_decide (PT_MessageStatus input = DeviceMessageOutboxStatusPublished)
     && (PT_AttemptCount input <? Outbox_AttemptCount current)
  then Outbox_AttemptCount current else PT_AttemptCount input.

Definition transition_message (t : Time) (current : DeviceMessageOutbox)
    (input : OutboxPublishTransitionInput) : DeviceMessageOutbox :=
  outbox_update (PT_MessageStatus input) (transition_attempts current input) (PT_LastError input)
    (PT_AvailableAt input) (PT_PublishedAt input) t current.

Definition transition_operation (t : Time) (operation : DeviceOperation)
    (input : OutboxPublishTransitionInput) : DeviceOperation :=
  operation_update (PT_OperationStatus input) ∅ (PT_OperationErrorCode input)
    (PT_OperationErrorMessage input) (PT_OperationRetryable input) (PT_OperationCompletedAt input)
    t operation.

Lemma RecordOutboxPublishTransition_ok input db r db' :
  RecordOutboxPublishTransition input db = (Ok r, db') →
  ∃ current operation,
    device_message_outbox db !! PT_MessageID input = Some current ∧
    shouldApplyOutboxPublishTransition current input = true ∧
    device_operations db !! Outbox_OperationID current = Some operation ∧
    let message := transition_message (now db) current input in
    let operation' :=
      if operation_written current input operation then transition_operation (now db) operation input
      else operation in
    outbox_row_ok message ∧
    (operation_written current input operation = true →
      cloud_deletion_fenced (registry db) (DeviceOperation_OrganizationID operation) = false) ∧
    r = mkPublishResult message operation' ∧
    db' = with_operations (<[Outbox_OperationID current := operation']> (device_operations db))
            (with_outbox (<[PT_MessageID input := message]> (device_message_outbox db)) db).
Proof.
  unfold RecordOutboxPublishTransition. intros H. rewrite transaction_ok in H.
  apply bind_ok in H as (db0 & s0 & Hg & H). unfold gets in Hg. simplify_eq.
  apply bind_ok in H as (current & s1 & Hc & H). apply row_or_ok in Hc as [Hc ->].
  apply bind_ok in H as (? & s2 & Ha & H). apply reject_if_ok in Ha as [Ha ->].
  apply negb_false_iff in Ha. fold (transition_attempts current input) in H.
  apply bind_ok in H as (row & s3 & Hu & H). apply update_outbox_ok in Hu. rewrite Hc in Hu.
  destruct Hu as (Hok & -> & ->).
  apply bind_ok in H as (message & s4 & Hm & H). apply row_or_ok in Hm as [[= <-] ->].
  apply bind_ok in H as (operation & s5 & Ho & H). apply row_or_ok in Ho as [Ho ->].
  exists current, operation. do 3 (split; [done|]). split; [done|].
  fold (operation_written current input operation) in H.
  destruct (operation_written current input operation).
  - apply bind_ok in H as (row & s6 & Hu & H). rewrite update_operation_run in Hu. simpl in *.
    rewrite Ho in Hu. destruct (cloud_deletion_fenced _ _) eqn:Hf; [done|]. simplify_eq.
    apply bind_ok in H as (operation' & s7 & Hm & H). apply row_or_ok in Hm as [[= <-] ->].
    unfold mret, M_ret in H. simplify_eq. split; [done|].
    unfold transition_message, transition_operation. by rewrite marshalJSONMap_empty.
  - unfold mret, M_ret in H. simplify_eq. split; [done|]. split; [done|].
    simpl in Ho. by rewrite (insert_id (device_operations _)) by done.
Qed.

Lemma RecordOutboxPublishTransition_err input db e db' :
  RecordOutboxPublishTransition input db = (Err e, db') → db' = db.
Proof. apply transaction_err. Qed.

(** A published message is final: no transition other than the worker's own repeat of it (same
    expected status, attempts and availability) applies, so a late retry or dead letter of
    another worker is an [ErrConflict] and changes nothing. *)
Theorem published_message_is_final input db current :
  device_message_outbox db !! PT_MessageID input = Some current →
  Outbox_Status current = DeviceMessageOutboxStatusPublished →
  PT_ExpectedMessageStatus input ≠ DeviceMessageOutboxStatusPublished →
  RecordOutboxPublishTransition input db = (Err ErrConflict, db).
Proof.
  intros Hm Hs He. unfold RecordOutboxPublishTransition, transaction. run_simpl.
  rewrite Hm. simpl. unfold shouldApplyOutboxPublishTransition, isPublishedOutcomeOverride.
  rewrite Hs. rewrite (bool_decide_false (_ = _)) by congruence. simpl.
  by rewrite andb_false_r.
Qed.

Definition operation_finished (status : DeviceOperationStatus) : Prop :=
  status = DeviceOperationStatusSucceeded ∨ status = DeviceOperationStatusFailed.

(** A publication that arrives after the result never rolls the operation back: when the inbox
    has already finished the operation, recording the publication leaves the operation's row
    exactly as it is while the message becomes published. *)
Theorem late_publication_keeps_result input db current operation r db' :
  device_message_outbox db !! PT_MessageID input = Some current →
  device_operations db !! Outbox_OperationID current = Some operation →
  operation_finished (DeviceOperation_Status operation) →
  PT_MessageStatus input = DeviceMessageOutboxStatusPublished →
  Outbox_Status current ≠ DeviceMessageOutboxStatusPublished →
  RecordOutboxPublishTransition input db = (Ok r, db') →
  PTR_Operation r = operation ∧ device_operations db' = device_operations db ∧
  Outbox_Status (PTR_Message r) = DeviceMessageOutboxStatusPublished ∧
  device_message_outbox db' !! PT_MessageID input = Some (PTR_Message r) ∧
  Outbox_AttemptCount current ≤ Outbox_AttemptCount (PTR_Message r).
Proof.
  intros Hm Ho Hf Hp Hs H.
  apply RecordOutboxPublishTransition_ok in H as (c & o & Hc & _ & Ho' & H). simplify_eq.
  assert (operation_written current input operation = false) as Hw.
  { unfold operation_written, isPublishedOutcomeOverride. rewrite Hp.
    rewrite bool_decide_true, bool_decide_false by done.
    by destruct Hf as [->| ->]. }
  rewrite Hw in H. destruct H as (_ & _ & -> & ->). simpl.
  rewrite insert_id, lookup_insert_eq by done. split_and!; try done.
  unfold transition_attempts. rewrite Hp, bool_decide_true by done. simpl.
  destruct (Z.ltb_spec (PT_AttemptCount input) (Outbox_AttemptCount current)); lia.
Qed.

(** The other outcomes have no such care: a retry or a dead letter the worker records for a
    message it still holds overwrites the operation even when the inbox has already finished
    it, erasing the result and the completion. *)
Theorem late_failure_overwrites_result input db current operation r db' :
  device_message_outbox db !! PT_MessageID input = Some current →
  device_operations db !! Outbox_OperationID current = Some operation →
  PT_MessageStatus input ≠ DeviceMessageOutboxStatusPublished →
  RecordOutboxPublishTransition input db = (Ok r, db') →
  device_operations db' !! Outbox_OperationID current =
    Some (transition_operation (now db) operation input) ∧
  DeviceOperation_ResultPayload (PTR_Operation r) = ∅.
Proof.
  intros Hm Ho Hp H.
  apply RecordOutboxPublishTransition_ok in H as (c & o & Hc & _ & Ho' & H). simplify_eq.
  assert (operation_written current input operation = true) as Hw.
  { unfold operation_written, isPublishedOutcomeOverride. by rewrite bool_decide_false. }
  rewrite Hw in H. destruct H as (_ & _ & -> & ->). simpl. by rewrite lookup_insert_eq.
Qed.

(** ** The theorems at work on a small store *)

(** A worker that claimed the message with no attempts records an outcome. *)
Definition sample_transition (expected status : DeviceMessageOutboxStatus)
    (operation : DeviceOperationStatus) : OutboxPublishTransitionInput :=
  mkPublishTransition "msg-1" expected 0 sample_time status 1 None sample_time None operation
    None None None None.
Definition sample_finished (operationType : DeviceOperationType) : DeviceOperation :=
  mkDeviceOperation "id-op-1" "op-1" "corr-1" sample_org sample_uuid operationType
    DeviceOperationStatusSucceeded (Some "user-1") ∅ {["done" := ABool true]} None None None
    sample_time sample_time (Some sample_time).
Definition sample_finished_db (operationType : DeviceOperationType)
    (status : DeviceMessageOutboxStatus) : DB :=
  with_operations {["op-1" := sample_finished operationType]} (sample_outbox_db status 0).

Lemma published_message_is_final_witness :
  RecordOutboxPublishTransition
    (sample_transition DeviceMessageOutboxStatusPending DeviceMessageOutboxStatusDeadLettered
       DeviceOperationStatusDeadLettered)
    (sample_outbox_db DeviceMessageOutboxStatusPublished 1) =
  (Err ErrConflict, sample_outbox_db DeviceMessageOutboxStatusPublished 1).
Proof.
  apply (published_message_is_final _ _ (sample_outbox DeviceMessageOutboxStatusPublished 1));
    [vm_compute; reflexivity|reflexivity|discriminate].
Defined.

Lemma late_publication_keeps_result_witness :
  ∃ r db', RecordOutboxPublishTransition
      (sample_transition DeviceMessageOutboxStatusPending DeviceMessageOutboxStatusPublished
         DeviceOperationStatusPublished)
      (sample_finished_db DeviceOperationTypeProvision DeviceMessageOutboxStatusPending) = (Ok r, db') ∧
    PTR_Operation r = sample_finished DeviceOperationTypeProvision.
Proof.
  destruct (run_succeeds (RecordOutboxPublishTransition
    (sample_transition DeviceMessageOutboxStatusPending DeviceMessageOutboxStatusPublished
       DeviceOperationStatusPublished))
    (sample_finished_db DeviceOperationTypeProvision DeviceMessageOutboxStatusPending))
    as (r & db' & E); [vm_compute; reflexivity|].
  exists r, db'. split; [exact E|].
  apply (late_publication_keeps_result _ _ (sample_outbox DeviceMessageOutboxStatusPending 0)
    (sample_finished DeviceOperationTypeProvision) _ _) in E as [-> _]; try (vm_compute; reflexivity).
  - left; reflexivity.
  - discriminate.
Defined.
