(* ===== verification/InboxTransitions.v ===== *)
(** * store/inbox_worker.go: recording how an inbox message was handled

    One transaction writes the inbox row, the operation when the message
    reports one, and the device projection.  The theorems: it happens as a
    whole or not at all, and what each part becomes. *)

From S2P Require Export OutboxTransitions.

Local Open Scope Z_scope.

Record InboxProcessTransitionInput := mkProcessTransition {
  IT_MessageID : string;
  IT_MessageStatus : DeviceMessageInboxStatus;
  IT_AttemptCount : Z;
  IT_LastError : option string;
  IT_ProcessedAt : option Time;
  IT_OperationStatus : option DeviceOperationStatus;
  IT_OperationResult : jsonmap;
  IT_OperationErrorCode : option string;
  IT_OperationErrorMessage : option string;
  IT_OperationRetryable : option bool;
  IT_OperationCompletedAt : option Time;
  IT_OrganizationID : string;
  IT_DeviceID : string;
  IT_Projection : option DeviceProjectionInput;
}.

Record InboxProcessTransitionResult := mkProcessResult {
  ITR_Message : DeviceMessageInbox;
  ITR_Operation : option DeviceOperation;
  ITR_Device : option Device;
}.

(** [if in.OperationStatus != nil { ... }] *)
Definition record_operation (input : InboxProcessTransitionInput) (message : DeviceMessageInbox)
    : Store (option DeviceOperation) :=
  match IT_OperationStatus input with
  | None => mret None
  | Some status =>
      let resultPayload := marshalJSONMap (IT_OperationResult input) in
      row ← update_operation (Inbox_OperationID message) status resultPayload
        (IT_OperationErrorCode input) (IT_OperationErrorMessage input)
        (IT_OperationRetryable input) (IT_OperationCompletedAt input);
      operation ← row_or ErrNotFound row;
      reject_if (negb (bool_decide (DeviceOperation_OrganizationID operation
                                    = IT_OrganizationID input))
                 || negb (bool_decide (DeviceOperation_DeviceID operation
                                       = IT_DeviceID input))) ErrConflict ;;
      mret (Some operation)
  end.

(** [if in.Projection != nil { ... }] *)
Definition record_projection (input : InboxProcessTransitionInput) : Store (option Device) :=
  match IT_Projection input with
  | None => mret None
  | Some projection =>
      projected ← projectDeviceTx (IT_OrganizationID input) (IT_DeviceID input) projection;
      mret (Some projected)
  end.

Definition RecordInboxProcessTransition (input : InboxProcessTransitionInput)
    : Store InboxProcessTransitionResult :=
  transaction (
    row ← update_inbox (IT_MessageID input) (IT_MessageStatus input) (IT_AttemptCount input)
      (IT_LastError input) (IT_ProcessedAt input);
    message ← row_or ErrNotFound row;
    operation ← record_operation input message;
    device ← record_projection input;
    mret (mkProcessResult message operation device)).

(** ** What a successful transition does *)

Definition reported_operation (t : Time) (input : InboxProcessTransitionInput)
    (status : DeviceOperationStatus) (operation : DeviceOperation) : DeviceOperation :=
  operation_update status (marshalJSONMap (IT_OperationResult input))
    (IT_OperationErrorCode input) (IT_OperationErrorMessage input)
    (IT_OperationRetryable input) (IT_OperationCompletedAt input) t operation.

Definition processed_message (t : Time) (input : InboxProcessTransitionInput)
    (message : DeviceMessageInbox) : DeviceMessageInbox :=
  inbox_update (IT_MessageStatus input) (IT_AttemptCount input) (IT_LastError input)
    (IT_ProcessedAt input) t message.

(** The operations table after the report. *)
Inductive operation_report (input : InboxProcessTransitionInput) (message : DeviceMessageInbox)
    (db : DB) : gmap string DeviceOperation → Prop :=
  | no_report : IT_OperationStatus input = None →
      operation_report input message db (device_operations db)
  | a_report status operation :
      IT_OperationStatus input = Some status →
      device_operations db !! Inbox_OperationID message = Some operation →
      cloud_deletion_fenced (registry db) (DeviceOperation_OrganizationID operation) = false →
      DeviceOperation_OrganizationID operation = IT_OrganizationID input →
      DeviceOperation_DeviceID operation = IT_DeviceID input →
      operation_report input message db
        (<[Inbox_OperationID message := reported_operation (now db) input status operation]>
           (device_operations db)).

(** The devices table after the projection. *)
Inductive device_projection (input : InboxProcessTransitionInput) (db : DB)
    : gmap string Device → Prop :=
  | no_projection : IT_Projection input = None → device_projection input db (devices db)
  | a_projection p d : IT_Projection input = Some p →
      device_in_org (IT_OrganizationID input) (IT_DeviceID input) db = Some d →
      projection (now db) d p = Ok None →
      device_projection input db (devices db)
  | a_change p d d' : IT_Projection input = Some p →
      device_in_org (IT_OrganizationID input) (IT_DeviceID input) db = Some d →
      projection (now db) d p = Ok (Some d') →
      device_projection input db (<[IT_DeviceID input := d']> (devices db)).

Lemma record_operation_ok input message db r db' :
  record_operation input message db = (Ok r, db') →
  ∃ ops, operation_report input message db ops ∧ db' = with_operations ops db.
Proof.
  unfold record_operation. intros H. destruct (IT_OperationStatus input) as [status|] eqn:Hst.
  - apply bind_ok in H as (row & s5 & Hu & H). rewrite update_operation_run in Hu.
    destruct (device_operations db !! Inbox_OperationID message) as [o|] eqn:Ho;
      [|simplify_eq; done].
    destruct (cloud_deletion_fenced _ _) eqn:Hf; [done|]. injection Hu as <- <-.
    apply bind_ok in H as (o' & s6 & Hr & H). apply row_or_ok in Hr as [[= <-] ->].
    apply bind_ok in H as (? & s7 & Hr & H). apply reject_if_ok in Hr as [Hr ->].
    rewrite orb_false_iff, !negb_bool_decide_false in Hr. destruct Hr as [Ho1 Ho2].
    unfold mret, M_ret in H. simplify_eq. eexists. split; [by eapply a_report|]. done.
  - unfold mret, M_ret in H. simplify_eq. eexists. split; [by constructor|]. by destruct db'.
Qed.

Lemma record_projection_ok input db r db' :
  record_projection input db = (Ok r, db') →
  ∃ devs, device_projection input db devs ∧ db' = with_devices devs db.
Proof.
  unfold record_projection. intros H. destruct (IT_Projection input) as [p|] eqn:Hp.
  - apply bind_ok in H as (d' & s5 & Hproj & H). unfold mret, M_ret in H. simplify_eq.
    rewrite projectDeviceTx_run in Hproj.
    destruct (device_in_org _ _ db) as [d|] eqn:Hd; [|done].
    destruct (projection (now db) d p) as [[d1|]|] eqn:Hpr; simplify_eq.
    + eexists. split; [by eapply a_change|done].
    + exists (devices db'). split; [by eapply a_projection|]. by destruct db'.
  - unfold mret, M_ret in H. simplify_eq. exists (devices db'). split; [by constructor|].
    by destruct db'.
Qed.

(** Writing the inbox and operation rows does not disturb the projection. *)
Lemma device_projection_frame input db ops ms devs :
  device_projection input (with_operations ops (with_inbox ms db)) devs →
  device_projection input db devs.
Proof.
  inversion 1; subst; simpl in *;
    first [by constructor | by eapply a_projection | by eapply a_change | by eapply a_report].
Qed.

Lemma operation_report_frame input message db ms ops :
  operation_report input message (with_inbox ms db) ops → operation_report input message db ops.
Proof.
  inversion 1; subst; simpl in *;
    first [by constructor | by eapply a_projection | by eapply a_change | by eapply a_report].
Qed.

Lemma RecordInboxProcessTransition_ok input db result db' :
  RecordInboxProcessTransition input db = (Ok result, db') →
  ∃ message ops devs,
    device_message_inbox db !! IT_MessageID input = Some message ∧
    inbox_row_ok (processed_message (now db) input message) ∧
    operation_report input message db ops ∧ device_projection input db devs ∧
    ITR_Message result = processed_message (now db) input message ∧
    db' = with_devices devs (with_operations ops (with_inbox
      (<[IT_MessageID input := processed_message (now db) input message]>
        (device_message_inbox db)) db)).
Proof.
  unfold RecordInboxProcessTransition. rewrite transaction_ok. intros H.
  apply bind_ok in H as (row & s1 & Hu & H). apply update_inbox_ok in Hu.
  destruct (device_message_inbox db !! IT_MessageID input) as [message|] eqn:Hm;
    destruct Hu as [Hok Hu]; [destruct Hu as [-> ->]|by rewrite Hok in H].
  fold (processed_message (now db) input message) in *.
  apply bind_ok in H as (message' & s2 & Hr & H). apply row_or_ok in Hr as [[= <-] ->].
  apply bind_ok in H as (operation & s3 & Hop & H).
  apply bind_ok in H as (device & s4 & Hdev & H). unfold mret, M_ret in H. simplify_eq.
  apply record_operation_ok in Hop as (ops & Hops & ->).
  apply record_projection_ok in Hdev as (devs & Hdevs & ->).
  apply device_projection_frame in Hdevs. apply operation_report_frame in Hops.
  exists message, ops, devs. split_and!; try done.
  inversion Hops; subst; [by apply no_report | by eapply (a_report _ message)].
Qed.

(** Handling a message is one step: on success the inbox row has the given status, attempts
    and error, the operation carries the reported result, belongs to the reported device and is
    not fenced by a cloud deletion, the device is projected, and nothing else changes; on any
    error the store is exactly what it was. *)
Theorem inbox_transition_atomic input db r db' :
  RecordInboxProcessTransition input db = (r, db') →
  match r with
  | Err _ => db' = db
  | Ok result =>
      ∃ message ops devs,
        device_message_inbox db !! IT_MessageID input = Some message ∧
        inbox_row_ok (processed_message (now db) input message) ∧
        operation_report input message db ops ∧ device_projection input db devs ∧
        ITR_Message result = processed_message (now db) input message ∧
        db' = with_devices devs (with_operations ops (with_inbox
          (<[IT_MessageID input := processed_message (now db) input message]>
            (device_message_inbox db)) db))
  end.
Proof.
  destruct r as [result|e]; [apply RecordInboxProcessTransition_ok | apply transaction_err].
Qed.

(** ** The theorem at work on a small store *)

Definition sample_inbox (status : DeviceMessageInboxStatus) (attempts : Z) : DeviceMessageInbox :=
  mkDeviceMessageInbox "id-evt-1" "evt-1" "op-1" "corr-1" None StreamVideoAccountEvents
    MessageTypeDeviceOnlineChanged "1.0" sample_uuid
    (map_literal [("status", AString "online"); ("org_id", AString sample_org)]) status attempts
    None sample_time None sample_time sample_time.
Definition sample_inbox_db : DB :=
  with_inbox {["evt-1" := sample_inbox DeviceMessageInboxStatusRetrying 0]} sample_db.
Definition sample_process_transition (org : string) : InboxProcessTransitionInput :=
  mkProcessTransition "evt-1" DeviceMessageInboxStatusProcessed 1 None (Some sample_time)
    (Some DeviceOperationStatusSucceeded) ∅ None None None (Some sample_time) org sample_uuid
    (Some sample_activation).

(** A result for this organization's device lands; one for another's leaves no trace. *)
Lemma inbox_transition_atomic_witness :
  (∃ r db', RecordInboxProcessTransition (sample_process_transition sample_org) sample_inbox_db =
      (Ok r, db') ∧ ITR_Message r = processed_message (now sample_inbox_db)
        (sample_process_transition sample_org) (sample_inbox DeviceMessageInboxStatusRetrying 0)) ∧
  (RecordInboxProcessTransition (sample_process_transition "other") sample_inbox_db).2 =
    sample_inbox_db.
Proof.
  split.
  - destruct (run_succeeds (RecordInboxProcessTransition (sample_process_transition sample_org))
      sample_inbox_db) as (r & db' & E); [vm_compute; reflexivity|].
    exists r, db'. split; [exact E|].
    apply inbox_transition_atomic in E as (m & _ & _ & Hm & _ & _ & _ & -> & _).
    assert (m = sample_inbox DeviceMessageInboxStatusRetrying 0) as ->; [|reflexivity].
    apply (inj Some). rewrite <-Hm. vm_compute; reflexivity.
  - assert (is_ok (RecordInboxProcessTransition (sample_process_transition "other")
      sample_inbox_db).1 = false) as Hfail by (vm_compute; reflexivity).
    destruct (RecordInboxProcessTransition (sample_process_transition "other") sample_inbox_db)
      as [[r|e] db'] eqn:E; [discriminate Hfail|].
    apply inbox_transition_atomic in E. exact E.
Defined.
