(* ===== verification/LifecycleAdmin.v ===== *)
(** * store/lifecycle_admin.go: inspecting and requeueing messages

    The operator's listings and the two requeue operations.  The theorems: a
    requeue resets the message and its operation as a whole, it refuses finished
    operations, and the one operation type that refusal leaves out. *)

From S2P Require Export InboxTransitions.

Local Open Scope Z_scope.

Record OutboxMessageDetail := mkOutboxDetail {
  OMD_Message : DeviceMessageOutbox;
  OMD_Operation : option DeviceOperation;
}.

Record InboxMessageDetail := mkInboxDetail {
  IMD_Message : DeviceMessageInbox;
  IMD_Operation : option DeviceOperation;
}.

(** [ORDER BY updated_at DESC, created_at DESC, message_id ASC] *)
Definition recent_first (ua ca : Time) (ia : string) (ub cb : Time) (ib : string) : bool :=
  if negb (Equal ua ub) then After ua ub
  else if negb (Equal ca cb) then After ca cb
  else String.leb ia ib.

Definition outbox_recent (a b : DeviceMessageOutbox) : bool :=
  recent_first (Outbox_UpdatedAt a) (Outbox_CreatedAt a) (Outbox_MessageID a)
    (Outbox_UpdatedAt b) (Outbox_CreatedAt b) (Outbox_MessageID b).
Definition inbox_recent (a b : DeviceMessageInbox) : bool :=
  recent_first (Inbox_UpdatedAt a) (Inbox_CreatedAt a) (Inbox_MessageID a)
    (Inbox_UpdatedAt b) (Inbox_CreatedAt b) (Inbox_MessageID b).

(** [LIMIT $2 OFFSET $3] *)
Definition page {A} (n offset : Z) (rows : list A) : Store (list A) :=
  reject_if (n <? 0) (ErrPg "LIMIT must not be negative") ;;
  reject_if (offset <? 0) (ErrPg "OFFSET must not be negative") ;;
  mret (take (Z.to_nat n) (drop (Z.to_nat offset) rows)).

Definition ListOutboxMessagesByStatus (statuses : list DeviceMessageOutboxStatus) (n offset : Z)
    : Store (list DeviceMessageOutbox) :=
  if bool_decide (statuses = []) then mret []
  else
    db ← gets (λ db, db);
    page n offset (order_by outbox_recent
      (filter (λ m, Outbox_Status m ∈ statuses) (map_to_list (device_message_outbox db)).*2)).

Definition ListInboxMessagesByStatus (statuses : list DeviceMessageInboxStatus) (n offset : Z)
    : Store (list DeviceMessageInbox) :=
  if bool_decide (statuses = []) then mret []
  else
    db ← gets (λ db, db);
    page n offset (order_by inbox_recent
      (filter (λ m, Inbox_Status m ∈ statuses) (map_to_list (device_message_inbox db)).*2)).

Definition getDeviceOperationOptional (operationID : string) : Store (option DeviceOperation) :=
  found ← attempt (GetDeviceOperation operationID);
  match found with
  | Ok operation => mret (Some operation)
  | Err err => if errors_Is err ErrNotFound then mret None else throw err
  end.

(** The same within a transaction. *)
Definition getDeviceOperationOptionalTx (operationID : string) : Store (option DeviceOperation) :=
  gets (λ db, device_operations db !! operationID).

Definition GetOutboxMessageDetail (messageID : string) : Store OutboxMessageDetail :=
  message ← GetOutboxMessage messageID;
  operation ← getDeviceOperationOptional (Outbox_OperationID message);
  mret (mkOutboxDetail message operation).

Definition GetInboxMessageDetail (messageID : string) : Store InboxMessageDetail :=
  message ← GetInboxMessage messageID;
  operation ← getDeviceOperationOptional (Inbox_OperationID message);
  mret (mkInboxDetail message operation).

Definition isCompletedLifecycleOperationStatus (status : DeviceOperationStatus)
    (operationType : DeviceOperationType) : bool :=
  if negb (bool_decide (operationType = DeviceOperationTypeProvision))
     && negb (bool_decide (operationType = DeviceOperationTypeDeactivate))
     && negb (bool_decide (operationType = DeviceOperationTypeEntitlementUpdate))
  then false
  else bool_decide (status = DeviceOperationStatusSucceeded)
       || bool_decide (status = DeviceOperationStatusFailed).

Definition RequeueOutboxMessage (messageID : string) (availableAt : Time)
    : Store (DeviceMessageOutbox * option DeviceOperation * bool) :=
  transaction (
    db ← gets (λ db, db);
    message ← row_or ErrNotFound (device_message_outbox db !! messageID);
    operation ← row_or ErrNotFound (device_operations db !! Outbox_OperationID message);
    reject_if (isCompletedLifecycleOperationStatus (DeviceOperation_Status operation)
                 (DeviceOperation_OperationType operation)) ErrConflict ;;
    match Outbox_Status message with
    | DeviceMessageOutboxStatusPending => mret (message, Some operation, false)
    | DeviceMessageOutboxStatusRetrying | DeviceMessageOutboxStatusDeadLettered =>
        let availableAt := Truncate_us (UTC availableAt) in
        row ← update_outbox messageID DeviceMessageOutboxStatusPending 0 None availableAt None;
        message ← row_or ErrNoRows row;
        row ← update_operation (DeviceOperation_OperationID operation)
          DeviceOperationStatusPending ∅ None None None None;
        operation ← row_or ErrNoRows row;
        mret (message, Some operation, true)
    | _ => throw ErrConflict
    end).

Definition RequeueInboxMessage (messageID : string)
    : Store (DeviceMessageInbox * option DeviceOperation * bool) :=
  transaction (
    db ← gets (λ db, db);
    message ← row_or ErrNotFound (device_message_inbox db !! messageID);
    operation ← getDeviceOperationOptionalTx (Inbox_OperationID message);
    match Inbox_Status message with
    | DeviceMessageInboxStatusRetrying => mret (message, operation, false)
    | DeviceMessageInboxStatusDeadLettered =>
        row ← update_inbox messageID DeviceMessageInboxStatusRetrying 0 None None;
        message ← row_or ErrNoRows row;
        mret (message, operation, true)
    | _ => throw ErrConflict
    end).

(** ** Requeueing an outbox message *)

Definition requeued_message (t at_ : Time) (m : DeviceMessageOutbox) : DeviceMessageOutbox :=
  outbox_update DeviceMessageOutboxStatusPending 0 None (Truncate_us (UTC at_)) None t m.
Definition requeued_operation (t : Time) (o : DeviceOperation) : DeviceOperation :=
  operation_update DeviceOperationStatusPending ∅ None None None None t o.

(** Every operation row is stored under its operation id. *)
Definition operations_keyed (db : DB) : Prop :=
  map_Forall (λ k o, DeviceOperation_OperationID o = k) (device_operations db).

Definition requeueable (m : DeviceMessageOutbox) : Prop :=
  Outbox_Status m = DeviceMessageOutboxStatusRetrying ∨
  Outbox_Status m = DeviceMessageOutboxStatusDeadLettered.

Lemma RequeueOutboxMessage_run id at_ db m o :
  operations_keyed db →
  device_message_outbox db !! id = Some m → outbox_row_ok m → requeueable m →
  device_operations db !! Outbox_OperationID m = Some o →
  isCompletedLifecycleOperationStatus (DeviceOperation_Status o) (DeviceOperation_OperationType o)
    = false →
  cloud_deletion_fenced (registry db) (DeviceOperation_OrganizationID o) = false →
  RequeueOutboxMessage id at_ db =
    (Ok (requeued_message (now db) at_ m, Some (requeued_operation (now db) o), true),
     with_operations (<[Outbox_OperationID m := requeued_operation (now db) o]>
       (device_operations db))
       (with_outbox (<[id := requeued_message (now db) at_ m]> (device_message_outbox db)) db)).
Proof.
  intros Hk Hm Hok Hr Ho Hc Hf. unfold RequeueOutboxMessage, transaction.
  unfold mbind, M_bind, gets, row_or, reject_if, mret, M_ret.
  rewrite Hm. simpl. rewrite Ho. simpl. rewrite Hc.
  assert (update_outbox id DeviceMessageOutboxStatusPending 0 None (Truncate_us (UTC at_)) None db =
    (Ok (Some (requeued_message (now db) at_ m)),
     with_outbox (<[id := requeued_message (now db) at_ m]> (device_message_outbox db)) db)) as Hu.
  { unfold update_outbox, mbind, M_bind, gets, modify, mret, M_ret.
    simpl. rewrite Hm.
    destruct (outbox_checks_run (requeued_message (now db) at_ m) db) as [[E _]|(? & _ & [])].
    - unfold requeued_message in E. by rewrite E.
    - destruct Hok as (_ & ? & ? & ? & ?). split_and!; try done; simpl; lia. }
  destruct Hr as [-> | ->]; rewrite Hu, update_operation_run; simpl;
    rewrite (Hk _ _ Ho), Ho, Hf; done.
Qed.

(** Requeueing a message that waits for a retry or was dead-lettered makes it pending with no
    attempts, due at the given time, and its operation pending with no result, error or
    completion: exactly these two rows change, provided the operation is not a finished
    provision, deactivation or entitlement update. *)
Theorem requeue_resets_message_and_operation id at_ db m o :
  operations_keyed db →
  device_message_outbox db !! id = Some m → outbox_row_ok m → requeueable m →
  device_operations db !! Outbox_OperationID m = Some o →
  cloud_deletion_fenced (registry db) (DeviceOperation_OrganizationID o) = false →
  (operation_finished (DeviceOperation_Status o) →
   DeviceOperation_OperationType o ≠ DeviceOperationTypeUnprovision →
   RequeueOutboxMessage id at_ db = (Err ErrConflict, db)) ∧
  (¬ operation_finished (DeviceOperation_Status o) →
   RequeueOutboxMessage id at_ db =
    (Ok (requeued_message (now db) at_ m, Some (requeued_operation (now db) o), true),
     with_operations (<[Outbox_OperationID m := requeued_operation (now db) o]>
       (device_operations db))
       (with_outbox (<[id := requeued_message (now db) at_ m]> (device_message_outbox db)) db))).
Proof.
  intros Hk Hm Hok Hr Ho Hf. split.
  - intros Hfin Hty. unfold RequeueOutboxMessage, transaction.
    unfold mbind, M_bind, gets, row_or, reject_if, mret, M_ret. rewrite Hm. simpl. rewrite Ho. simpl.
    unfold isCompletedLifecycleOperationStatus.
    by destruct (DeviceOperation_OperationType o), Hfin as [->| ->].
  - intros Hfin. apply RequeueOutboxMessage_run; try done.
    unfold isCompletedLifecycleOperationStatus. destruct (_ && _); [done|].
    apply orb_false_iff. rewrite !bool_decide_eq_false. unfold operation_finished in Hfin. tauto.
Qed.

(** The refusal leaves unprovisioning out: requeueing the message of an unprovision operation
    that has already succeeded or failed puts the operation back to pending and erases its
    result and completion. *)
Theorem requeue_reopens_finished_unprovision id at_ db m o :
  operations_keyed db →
  device_message_outbox db !! id = Some m → outbox_row_ok m → requeueable m →
  device_operations db !! Outbox_OperationID m = Some o →
  cloud_deletion_fenced (registry db) (DeviceOperation_OrganizationID o) = false →
  DeviceOperation_OperationType o = DeviceOperationTypeUnprovision →
  operation_finished (DeviceOperation_Status o) →
  ∃ m' o' db', RequeueOutboxMessage id at_ db = (Ok (m', Some o', true), db') ∧
    device_operations db' !! Outbox_OperationID m = Some o' ∧
    DeviceOperation_Status o' = DeviceOperationStatusPending ∧
    DeviceOperation_CompletedAt o' = None.
Proof.
  intros Hk Hm Hok Hr Ho Hf Hty Hfin. do 3 eexists. split.
  - apply RequeueOutboxMessage_run; try done.
    unfold isCompletedLifecycleOperationStatus. by rewrite Hty.
  - simpl. by rewrite lookup_insert_eq.
Qed.

(** ** The theorems at work on a small store *)

Lemma sample_outbox_row_ok status attempts :
  0 <= attempts < 2 ^ 31 → outbox_row_ok (sample_outbox status attempts).
Proof.
  intros H. split; [exact H|]. split; [reflexivity|]. split; [left|]. split; [reflexivity|].
  vm_compute; reflexivity.
Qed.

Definition sample_dead_db : DB := sample_outbox_db DeviceMessageOutboxStatusDeadLettered 3.

Lemma requeue_resets_message_and_operation_witness :
  ∃ m o db', RequeueOutboxMessage "msg-1" sample_time sample_dead_db = (Ok (m, Some o, true), db') ∧
    DeviceOperation_Status o = DeviceOperationStatusPending ∧ Outbox_AttemptCount m = 0.
Proof.
  destruct (requeue_resets_message_and_operation "msg-1" sample_time sample_dead_db
    (sample_outbox DeviceMessageOutboxStatusDeadLettered 3) sample_operation) as [_ H].
  - by apply map_Forall_singleton.
  - vm_compute; reflexivity.
  - apply sample_outbox_row_ok. lia.
  - right; reflexivity.
  - vm_compute; reflexivity.
  - vm_compute; reflexivity.
  - rewrite H; [do 3 eexists; split_and!; reflexivity|]. intros [[=]|[=]].
Defined.

Lemma requeue_reopens_finished_unprovision_witness :
  ∃ m' o' db', RequeueOutboxMessage "msg-1" sample_time
      (sample_finished_db DeviceOperationTypeUnprovision DeviceMessageOutboxStatusDeadLettered) =
      (Ok (m', Some o', true), db') ∧
    DeviceOperation_Status o' = DeviceOperationStatusPending.
Proof.
  destruct (requeue_reopens_finished_unprovision "msg-1" sample_time
    (sample_finished_db DeviceOperationTypeUnprovision DeviceMessageOutboxStatusDeadLettered)
    (sample_outbox DeviceMessageOutboxStatusDeadLettered 0)
    (sample_finished DeviceOperationTypeUnprovision)) as (m' & o' & db' & H & _ & Ho & _).
  - by apply map_Forall_singleton.
  - vm_compute; reflexivity.
  - apply sample_outbox_row_ok. lia.
  - right; reflexivity.
  - vm_compute; reflexivity.
  - vm_compute; reflexivity.
  - reflexivity.
  - left; reflexivity.
  - exists m', o', db'. split; [exact H|exact Ho].
Defined.
