(* ===== verification/Access.v ===== *)
(** * Who may change a device: store/acl.go and store/device_user_mutations.go

    The eligibility functions of migrations 052, 054 and 062 as predicates on
    the registry tables, the permission queries built on them, and the
    authorization every human mutation repeats inside its transaction.  The
    theorems: fenced clouds, viewers, products outside a member's admissions,
    and the limits of platform administration. *)

From S2P Require Export LifecycleAdmin.

Local Open Scope Z_scope.

(** ** Migrations: eligibility *)

Definition live_user (u : User) : bool :=
  bool_decide (User_DisabledAt u = None) && negb (User_SignupPendingVerification u).
(** ... AND u.email_verified *)
Definition eligible_user (r : Registry) (user : string) : bool :=
  match users r !! user with
  | Some u => live_user u && User_EmailVerified u
  | None => false
  end.

Definition is_member_of (cloud user : string) (m : Member) : bool :=
  bool_decide (Member_OrganizationID m = cloud) && bool_decide (Member_UserID m = user).
Definition owners (r : Registry) (cloud : string) : list Member :=
  filter (λ m, Member_OrganizationID m = cloud ∧ Member_Role m = RoleOwner)
    (organization_members r).

(** user_can_access_brand_cloud_without_handoff (052) *)
Definition user_can_access_brand_cloud_without_handoff (r : Registry) (actor cloud : string)
    : bool :=
  match organizations r !! cloud with
  | None => false
  | Some o =>
      negb (bool_decide (Organization_Kind o = OrganizationKindBrandCloud)) ||
      (bool_decide (Organization_DeletedAt o = None) &&
       bool_decide (Organization_Status o = OrganizationStatusActive) &&
       existsb (λ m, is_member_of cloud actor m && bool_decide (Member_DisabledAt m = None)
                     && eligible_user r actor) (organization_members r) &&
       (length (owners r cloud) =? 1)%nat &&
       existsb (λ m, bool_decide (Member_DisabledAt m = None) && eligible_user r (Member_UserID m))
         (owners r cloud))
  end.

(** [phase NOT IN ('canceled','succeeded')] and [phase<>'canceled'] *)
Definition handoff_in_progress (r : Registry) (cloud : string) : bool :=
  existsb (λ h, bool_decide (h.1 = cloud) && negb (bool_decide (h.2 = "canceled"))
                && negb (bool_decide (h.2 = "succeeded"))) (cloud_ownership_handoffs r).
Definition deletion_in_progress (r : Registry) (cloud : string) : bool :=
  existsb (λ d, bool_decide (d.1 = cloud) && negb (bool_decide (d.2 = "canceled")))
    (cloud_deletion_operations r).

(** user_can_access_brand_cloud (062) *)
Definition user_can_access_brand_cloud (r : Registry) (actor cloud : string) : bool :=
  user_can_access_brand_cloud_without_handoff r actor cloud
  && negb (handoff_in_progress r cloud) && negb (deletion_in_progress r cloud).

Definition viewer_permissions : list string :=
  ["registry_device.read"; "device_group.read"; "device_tag.read"; "lifecycle_operation.inspect"].

(** brand_cloud_permission_allowed (054) *)
Definition brand_cloud_permission_allowed (r : Registry) (actor cloud permission : string) : bool :=
  negb (existsb (λ m, is_member_of cloud actor m && bool_decide (Member_Role m = RoleViewer))
          (organization_members r))
  || bool_decide (permission ∈ viewer_permissions).

(** user_can_access_brand_cloud_product (054); an absent product is NULL. *)
Definition admitted_member (r : Registry) (cloud actor : string) (product : option string)
    (m : Member) : bool :=
  is_member_of cloud actor m &&
  match Member_Role m with
  | RoleOwner => true
  | RoleViewer =>
      match product with
      | None => false
      | Some p => negb (bool_decide (p = "")) &&
          match Member_AccessScope m with
          | Some ScopeAllProducts => true
          | Some (ScopeProducts ps) => bool_decide (p ∈ ps)
          | None => false
          end
      end
  | RoleAdmin | RoleMember =>
      match product with
      | None => false
      | Some p => bool_decide ((cloud, actor, p) ∈ brand_cloud_product_admissions r)
      end
  end.
Definition user_can_access_brand_cloud_product (r : Registry) (actor cloud : string)
    (product : option string) : bool :=
  user_can_access_brand_cloud r actor cloud &&
  match organizations r !! cloud with
  | None => false
  | Some o =>
      negb (bool_decide (Organization_Kind o = OrganizationKindBrandCloud)) ||
      ((bool_decide (default "" product = "") ||
        bool_decide ((p ← product; Profile_BrandCloudID <$> device_item_profiles r !! p) = Some cloud)) &&
       existsb (admitted_member r cloud actor product) (organization_members r))
  end.

(** ** store/acl.go: permission queries *)

(** The joins every query starts with: an active assignment to a live user of
    an active role that carries the permission. *)
Definition assignment_grants (r : Registry) (user permission : string) (ra : RoleAssignment)
    : bool :=
  bool_decide (ra_actor_type ra = "user") && bool_decide (ra_actor_id ra = user) &&
  bool_decide (ra_disabled_at ra = None) &&
  match roles r !! ra_role_id ra with
  | Some role => bool_decide (roles_disabled_at role = None)
                 && bool_decide (permission ∈ roles_permissions role)
  | None => false
  end &&
  match users r !! user with Some u => live_user u | None => false end.

Definition active_member (r : Registry) (org user : string) : bool :=
  existsb (λ m, is_member_of org user m && bool_decide (Member_DisabledAt m = None))
    (organization_members r).

Definition hasOrganizationPermission (r : Registry) (userID orgID permission : string) : bool :=
  existsb (λ ra,
    assignment_grants r userID permission ra &&
    (bool_decide (orgID = "") || user_can_access_brand_cloud r userID orgID) &&
    brand_cloud_permission_allowed r userID orgID permission &&
    ((bool_decide (ra_scope_type ra = "platform") && bool_decide (orgID = "")) ||
     (bool_decide (ra_scope_type ra = "organization") && bool_decide (ra_scope_id ra = Some orgID)
      && active_member r orgID userID)))
    (role_assignments r).

(** [JOIN organization_members m ON m.organization_id = ra.organization_id] with
    [ra.organization_id = orgID] *)
Definition assigned_in (r : Registry) (user org : string) (ra : RoleAssignment) : bool :=
  bool_decide (ra_organization_id ra = Some org) && active_member r org user.

Definition hasUserPermissionForResource (r : Registry)
    (userID orgID permission scopeType scopeID : string) : bool :=
  let userID := TrimSpace userID in let permission := TrimSpace permission in
  let orgID := TrimSpace orgID in let scopeType := TrimSpace scopeType in
  let scopeID := TrimSpace scopeID in
  existsb (λ ra,
    assignment_grants r userID permission ra && assigned_in r userID orgID ra &&
    (bool_decide (ra_scope_type ra = "organization") ||
     (bool_decide (ra_scope_type ra = scopeType) && bool_decide (ra_scope_id ra = Some scopeID))) &&
    user_can_access_brand_cloud r userID orgID &&
    (negb (bool_decide (scopeType = "product"))
     || user_can_access_brand_cloud_product r userID orgID (Some scopeID)) &&
    brand_cloud_permission_allowed r userID orgID permission)
    (role_assignments r).

Definition HasUserPermissionAnyResource (r : Registry) (userID orgID permission : string) : bool :=
  let userID := TrimSpace userID in let permission := TrimSpace permission in
  let orgID := TrimSpace orgID in
  existsb (λ ra,
    assignment_grants r userID permission ra && assigned_in r userID orgID ra &&
    user_can_access_brand_cloud r userID orgID &&
    brand_cloud_permission_allowed r userID orgID permission)
    (role_assignments r).

(** [value->>'key']: SQL NULL for an absent member and for JSON null. *)
Definition json_member_text (m : jsonmap) (key : string) : option string :=
  match m !! key with
  | None | Some ANil => None
  | Some (AString s) => Some s
  | Some v => Some (json_text v)
  end.

(** [COALESCE(NULLIF(d.metadata->>'region',''),'未設定')] *)
Definition device_region (d : Device) : string :=
  match json_member_text (Device_Metadata d) "region" with
  | None | Some "" => "未設定"
  | Some region => region
  end.

(** The assignment's scope covers the device. *)
Definition scope_covers (groups : list (string * string)) (d : Device) (ra : RoleAssignment)
    : bool :=
  bool_decide (ra_scope_type ra = "organization") ||
  match ra_scope_id ra with
  | None => false
  | Some scope =>
      (bool_decide (ra_scope_type ra = "product")
       && bool_decide (Device_DeviceItemProfileID d = Some scope)) ||
      (bool_decide (ra_scope_type ra = "region") && bool_decide (scope = device_region d)) ||
      (bool_decide (ra_scope_type ra = "device") && bool_decide (scope = Device_ID d)) ||
      (bool_decide (ra_scope_type ra = "group")
       && bool_decide ((scope, Device_ID d) ∈ groups))
  end.

Definition hasUserDevicePermission (userID orgID permission deviceID : string) (db : DB) : bool :=
  let r := registry db in
  match device_in_org orgID deviceID db with
  | None => false
  | Some d =>
      existsb (λ ra,
        assignment_grants r userID permission ra && assigned_in r userID orgID ra &&
        user_can_access_brand_cloud_product r userID orgID (Device_DeviceItemProfileID d) &&
        brand_cloud_permission_allowed r userID orgID permission &&
        scope_covers (device_group_members db) d ra)
        (role_assignments r)
  end.

Definition HasUserDevicePermission (userID orgID permission deviceID : string) : Store bool :=
  gets (hasUserDevicePermission userID orgID permission deviceID).

Definition HasUserPermissionForResource
    (userID orgID permission scopeType scopeID : string) : Store bool :=
  if bool_decide (TrimSpace scopeType = "device") then
    HasUserDevicePermission (TrimSpace userID) (TrimSpace orgID) (TrimSpace permission)
      (TrimSpace scopeID)
  else gets (λ db, hasUserPermissionForResource (registry db) userID orgID permission scopeType scopeID).

Definition platform_permissions : list string :=
  ["quota_request.read"; "quota_request.approve"; "quota_request.decline"; "platform_metrics.read";
   "device.unprovision_override"; "acl.read"; "acl.manage"; "platform.chipset_sdk.read";
   "platform.chipset_sdk.edit"; "platform.chipset_sdk.publish"].
Definition isPlatformPermission (permission : string) : bool :=
  bool_decide (permission ∈ platform_permissions).

Definition IsPlatformAdmin (userID : string) : Store bool :=
  db ← gets (λ db, db);
  u ← row_or ErrNotFound (users (registry db) !! userID);
  if live_user u then mret (User_PlatformAdmin u) else throw ErrNotFound.

Definition HasPermission (userID orgID permission : string) : Store bool :=
  let permission := TrimSpace permission in
  let orgID := TrimSpace orgID in
  if bool_decide (permission = "") then mret false
  else
    admin ←
      (if bool_decide (orgID = "") && isPlatformPermission permission then
         isAdmin ← attempt (IsPlatformAdmin userID);
         match isAdmin with
         | Ok b => mret b
         | Err err => if bool_decide (err = ErrNotFound) then mret false else throw err
         end
       else mret false);
    if admin : bool then mret true
    else gets (λ db, hasOrganizationPermission (registry db) userID orgID permission).

(** ** store/device_user_mutations.go *)

Definition getDeviceForUpdateTx (orgID deviceID : string) : Store Device :=
  db ← gets (λ db, db); row_or ErrNotFound (device_in_org orgID deviceID db).

Definition authorizeDeviceUserMutationTx (actor org device permission : string) : Store unit :=
  db ← gets (λ db, db);
  let r := registry db in
  user ← row_or ErrNotFound (u ← users r !! actor; if live_user u then Some u else None);
  organization ← row_or ErrNotFound
    (o ← organizations r !! org;
     if bool_decide (Organization_DeletedAt o = None) then Some o else None);
  (if negb (bool_decide (device = "")) then _ ← getDeviceForUpdateTx org device; mret tt
   else mret tt) ;;
  if bool_decide (Organization_Kind organization = OrganizationKindBrandCloud)
     || negb (User_PlatformAdmin user)
  then
    let allowed :=
      if bool_decide (device = "") then hasOrganizationPermission r actor org permission
      else hasUserDevicePermission actor org permission device db in
    reject_if (negb allowed) ErrNotFound
  else mret tt.

(** ** What the fences exclude *)

Lemma existsb_true {A} (f : A → bool) l : existsb f l = true ↔ ∃ x, x ∈ l ∧ f x = true.
Proof.
  rewrite existsb_exists. split; intros (x & Hx & ?); exists x; (split; [|done]);
    by apply list_elem_of_In.
Qed.

Definition brand_cloud (r : Registry) (org : string) : Prop :=
  ∃ o, organizations r !! org = Some o ∧ Organization_Kind o = OrganizationKindBrandCloud.

(** A brand cloud a human can work in: active, exactly one owner who is
    eligible, and no ownership handoff or deletion under way. *)
Record cloud_open (r : Registry) (actor cloud : string) : Prop := {
  open_status : ∃ o, organizations r !! cloud = Some o ∧ Organization_DeletedAt o = None ∧
    Organization_Status o = OrganizationStatusActive;
  open_owner : ∃ m, owners r cloud = [m] ∧ Member_DisabledAt m = None ∧
    eligible_user r (Member_UserID m) = true;
  open_member : active_member r cloud actor = true ∧ eligible_user r actor = true;
  open_handoff : ∀ phase, (cloud, phase) ∈ cloud_ownership_handoffs r →
    phase = "canceled" ∨ phase = "succeeded";
  open_deletion : ∀ phase, (cloud, phase) ∈ cloud_deletion_operations r → phase = "canceled";
}.

Lemma handoff_in_progress_false r cloud phase :
  handoff_in_progress r cloud = false → (cloud, phase) ∈ cloud_ownership_handoffs r →
  phase = "canceled" ∨ phase = "succeeded".
Proof.
  intros H Hin. destruct (decide (phase = "canceled")), (decide (phase = "succeeded")); auto.
  exfalso. apply not_true_iff_false in H. apply H, existsb_true. exists (cloud, phase).
  split; [done|]. simpl. by rewrite bool_decide_true, !bool_decide_false by done.
Qed.

Lemma deletion_in_progress_false r cloud phase :
  deletion_in_progress r cloud = false → (cloud, phase) ∈ cloud_deletion_operations r →
  phase = "canceled".
Proof.
  intros H Hin. destruct (decide (phase = "canceled")); auto.
  exfalso. apply not_true_iff_false in H. apply H, existsb_true. exists (cloud, phase).
  split; [done|]. simpl. by rewrite bool_decide_true, bool_decide_false by done.
Qed.

Lemma user_can_access_brand_cloud_open r actor cloud :
  brand_cloud r cloud → user_can_access_brand_cloud r actor cloud = true →
  cloud_open r actor cloud.
Proof.
  intros (o & Ho & Hkind). unfold user_can_access_brand_cloud, user_can_access_brand_cloud_without_handoff.
  rewrite Ho, Hkind. simpl. rewrite !andb_true_iff, !bool_decide_eq_true, !negb_true_iff.
  intros [[((((Hdel & Hst) & Hmem) & Hone) & Hown) Hh] Hd].
  apply existsb_true in Hmem as (m & Hm & Hmb). rewrite !andb_true_iff in Hmb.
  destruct Hmb as [[? ?] ?].
  constructor.
  - eauto.
  - apply Nat.eqb_eq in Hone. destruct (owners r cloud) as [|w [|? ?]]; try done.
    exists w. split; [done|]. simpl in Hown. rewrite orb_false_r in Hown.
    apply andb_true_iff in Hown as [Hw ?]. by apply bool_decide_eq_true in Hw.
  - split; [|done]. apply existsb_true. exists m. split; [done|]. by apply andb_true_iff.
  - intros phase. by apply handoff_in_progress_false.
  - intros phase. by apply deletion_in_progress_false.
Qed.

(** The authorization as one condition; every refusal is [ErrNotFound]. *)
Definition authorized (actor org device permission : string) (db : DB) : bool :=
  match users (registry db) !! actor, organizations (registry db) !! org with
  | Some user, Some o =>
      live_user user && bool_decide (Organization_DeletedAt o = None) &&
      (bool_decide (device = "") || bool_decide (is_Some (device_in_org org device db))) &&
      ((negb (bool_decide (Organization_Kind o = OrganizationKindBrandCloud))
        && User_PlatformAdmin user) ||
       if bool_decide (device = "") then hasOrganizationPermission (registry db) actor org permission
       else hasUserDevicePermission actor org permission device db)
  | _, _ => false
  end.

Lemma authorize_run actor org device permission db :
  authorizeDeviceUserMutationTx actor org device permission db =
    (if authorized actor org device permission db then Ok tt else Err ErrNotFound, db).
Proof.
  unfold authorizeDeviceUserMutationTx, getDeviceForUpdateTx, authorized.
  unfold mbind, M_bind, gets, row_or, reject_if, mret, M_ret, throw.
  destruct (users (registry db) !! actor) as [user|]; simpl; [|done].
  destruct (live_user user); simpl;
    [|by destruct (organizations (registry db) !! org)].
  destruct (organizations (registry db) !! org) as [o|]; simpl; [|done].
  destruct (bool_decide (Organization_DeletedAt o = None)); simpl; [|done].
  destruct (bool_decide (device = "")) eqn:Ed; simpl.
  - destruct (bool_decide (Organization_Kind o = OrganizationKindBrandCloud)),
      (User_PlatformAdmin user), (hasOrganizationPermission _ _ _ _); done.
  - destruct (device_in_org org device db); simpl; [|done].
    destruct (bool_decide (Organization_Kind o = OrganizationKindBrandCloud)),
      (User_PlatformAdmin user), (hasUserDevicePermission _ _ _ _ _); done.
Qed.

Lemma authorized_brand_cloud actor org device permission db :
  brand_cloud (registry db) org → org ≠ "" → authorized actor org device permission db = true →
  user_can_access_brand_cloud (registry db) actor org = true ∧
  brand_cloud_permission_allowed (registry db) actor org permission = true ∧
  (∃ ra, ra ∈ role_assignments (registry db) ∧
     assignment_grants (registry db) actor permission ra = true) ∧
  (device ≠ "" → ∃ d, device_in_org org device db = Some d ∧
     user_can_access_brand_cloud_product (registry db) actor org (Device_DeviceItemProfileID d) = true).
Proof.
  intros (o & Ho & Hk) Horg. unfold authorized. rewrite Ho, Hk.
  destruct (users _ !! actor) as [user|]; [|done].
  rewrite !andb_true_iff. intros [_ H]. simpl in H.
  case_bool_decide as Ed.
  - apply existsb_true in H as (ra & Hra & H). rewrite !andb_true_iff in H.
    destruct H as [[[H1 H2] H3] _]. rewrite bool_decide_false in H2 by done.
    split_and!; eauto. by intros [].
  - unfold hasUserDevicePermission in H. destruct (device_in_org org device db) as [d|]; [|done].
    apply existsb_true in H as (ra & Hra & H). rewrite !andb_true_iff in H.
    destruct H as [[[[H1 _] H2] H3] _]. split_and!; eauto.
    unfold user_can_access_brand_cloud_product in H2. by apply andb_true_iff in H2 as [? _].
Qed.

(** In a brand cloud a human mutation goes through only while the cloud is open to the actor:
    active, with its single eligible owner, the actor an active member with a verified
    account and a role that carries the permission, and neither an ownership handoff nor a
    deletion under way.  Being a platform administrator is not enough. *)
Theorem brand_cloud_mutation_needs_open_cloud actor org device permission db u db' :
  brand_cloud (registry db) org → org ≠ "" →
  authorizeDeviceUserMutationTx actor org device permission db = (Ok u, db') →
  cloud_open (registry db) actor org ∧
  (∃ ra, ra ∈ role_assignments (registry db) ∧
     assignment_grants (registry db) actor permission ra = true) ∧ db' = db.
Proof.
  intros Hb Horg. rewrite authorize_run. intros H.
  destruct (authorized _ _ _ _ _) eqn:E; [|done]. simplify_eq.
  destruct (authorized_brand_cloud _ _ _ _ _ Hb Horg E) as (Ha & _ & Hra & _).
  split_and!; [by apply user_can_access_brand_cloud_open|done|done].
Qed.

(** A viewer of a brand cloud can never be authorized for a permission outside the four
    read permissions, whatever roles it was given and even as a platform administrator; the
    store is unchanged. *)
Theorem viewer_cannot_mutate actor org device permission db m :
  brand_cloud (registry db) org → org ≠ "" →
  m ∈ organization_members (registry db) → Member_OrganizationID m = org →
  Member_UserID m = actor → Member_Role m = RoleViewer →
  permission ∉ viewer_permissions →
  authorizeDeviceUserMutationTx actor org device permission db = (Err ErrNotFound, db).
Proof.
  intros Hb Horg Hm Ho Hu Hr Hp. rewrite authorize_run.
  destruct (authorized _ _ _ _ _) eqn:E; [|done]. exfalso.
  destruct (authorized_brand_cloud _ _ _ _ _ Hb Horg E) as (_ & Ha & _).
  unfold brand_cloud_permission_allowed in Ha. apply orb_true_iff in Ha as [Ha|Ha].
  - apply negb_true_iff, not_true_iff_false in Ha. apply Ha, existsb_true. exists m.
    split; [done|]. unfold is_member_of. by rewrite Ho, Hu, Hr, !bool_decide_true by done.
  - by apply bool_decide_eq_true in Ha.
Qed.

(** An administrator or member of a brand cloud acts only on devices of products it is
    admitted to (and never on a device without a product); only the owner needs no admission. *)
Theorem member_needs_product_admission actor org device permission db d u db' :
  brand_cloud (registry db) org → org ≠ "" → device ≠ "" →
  device_in_org org device db = Some d →
  Forall (λ m, is_member_of org actor m = true →
    Member_Role m = RoleAdmin ∨ Member_Role m = RoleMember) (organization_members (registry db)) →
  authorizeDeviceUserMutationTx actor org device permission db = (Ok u, db') →
  ∃ product, Device_DeviceItemProfileID d = Some product ∧
    (org, actor, product) ∈ brand_cloud_product_admissions (registry db).
Proof.
  intros Hb Horg Hdev Hd Hmem. rewrite authorize_run. intros H.
  destruct (authorized _ _ _ _ _) eqn:E; [|done].
  destruct (authorized_brand_cloud _ _ _ _ _ Hb Horg E) as (_ & _ & _ & Hp).
  destruct (Hp Hdev) as (d' & Hd' & Hacc). simplify_eq.
  destruct Hb as (o & Ho & Hk). unfold user_can_access_brand_cloud_product in Hacc.
  rewrite Ho, Hk in Hacc. simpl in Hacc. rewrite !andb_true_iff in Hacc.
  destruct Hacc as [_ [_ Hex]]. apply existsb_true in Hex as (m & Hm & Hadm).
  rewrite Forall_forall in Hmem. specialize (Hmem m Hm).
  unfold admitted_member in Hadm. apply andb_true_iff in Hadm as [Him Hadm].
  destruct (Hmem Him) as [Hr|Hr]; rewrite Hr in Hadm;
    (destruct (Device_DeviceItemProfileID d) as [p|]; [|done]);
    apply bool_decide_eq_true in Hadm; eauto.
Qed.

(** ** The theorems at work on a brand cloud *)

(** "user-1" owns the cloud; "user-2" has the given role in it, every permission that a role can
    carry here, and admission to the device's product. *)
Definition sample_cloud_registry (role : Role) : Registry :=
  mkRegistry
    {["user-1" := sample_user; "user-2" := mkUser "user-2" "b@example.com" true false false None]}
    {[sample_org := mkOrganization sample_org "Cloud" OrganizationKindBrandCloud
        OrganizationStatusActive OrganizationTierCommercial 5 None]}
    [mkMember sample_org "user-1" RoleOwner None None; mkMember sample_org "user-2" role None None]
    {["role-1" := mkRole None ["registry_device.manage"; "registry_device.read"]]}
    [mkRoleAssignment "user" "user-2" (Some sample_org) "organization" (Some sample_org) "role-1" None]
    {["product-1" := sample_profile]} [(sample_org, "user-2", "product-1")]
    [(sample_org, "canceled")] [] [] ∅ ∅ [].
Definition sample_product_device : Device :=
  mkDevice sample_uuid sample_org "Camera" DeviceCategoryIPCamera None None None None
    DeviceStatusUnknown None sample_metadata sample_time sample_time None (Some "product-1").
Definition sample_cloud_db (role : Role) : DB :=
  with_devices {[sample_uuid := sample_product_device]}
    (with_registry (sample_cloud_registry role) sample_db).

Lemma sample_brand_cloud role : brand_cloud (sample_cloud_registry role) sample_org.
Proof. eexists. split; [apply lookup_insert_eq|reflexivity]. Qed.

Lemma brand_cloud_mutation_needs_open_cloud_witness :
  cloud_open (sample_cloud_registry RoleMember) "user-2" sample_org.
Proof.
  apply (brand_cloud_mutation_needs_open_cloud "user-2" sample_org sample_uuid
    "registry_device.manage" (sample_cloud_db RoleMember) tt (sample_cloud_db RoleMember)).
  - apply sample_brand_cloud.
  - discriminate.
  - vm_compute; reflexivity.
Defined.

Lemma viewer_cannot_mutate_witness :
  authorizeDeviceUserMutationTx "user-2" sample_org sample_uuid "registry_device.manage"
    (sample_cloud_db RoleViewer) = (Err ErrNotFound, sample_cloud_db RoleViewer).
Proof.
  apply (viewer_cannot_mutate _ _ _ _ _ (mkMember sample_org "user-2" RoleViewer None None)).
  - apply sample_brand_cloud.
  - discriminate.
  - right; left.
  - reflexivity.
  - reflexivity.
  - reflexivity.
  - apply (bool_decide_eq_false_1 _). vm_compute; reflexivity.
Defined.

Lemma member_needs_product_admission_witness :
  ∃ product, Device_DeviceItemProfileID sample_product_device = Some product ∧
    (sample_org, "user-2", product) ∈ [(sample_org, "user-2", "product-1")].
Proof.
  apply (member_needs_product_admission "user-2" sample_org sample_uuid "registry_device.manage"
    (sample_cloud_db RoleMember) sample_product_device tt (sample_cloud_db RoleMember)).
  - apply sample_brand_cloud.
  - discriminate.
  - discriminate.
  - vm_compute; reflexivity.
  - constructor; [intros [=]|]. constructor; [intros _; right; reflexivity|constructor].
  - vm_compute; reflexivity.
Defined.
