(* ===== verification/DeviceMutations.v ===== *)
(** * store/device_user_mutations.go: what a human may write on a device

    Every mutation authorizes, writes and audits in one transaction.  The
    theorems: the metadata keys services own are out of reach, and presence of
    a cloud-managed device is never set by hand. *)

From S2P Require Export Access.

Local Open Scope Z_scope.

Record DeviceInput := mkDeviceInput {
  DI_Name : string;
  DI_Category : DeviceCategory;
  DI_SerialNumber : option string;
  DI_MACAddress : option string;
  DI_Manufacturer : option string;
  DI_Model : option string;
  DI_Metadata : jsonmap;
  DI_DeviceItemProfileID : option string; (* only a creation reads it *)
}.

Definition create_audit_event (event : string) (actor org : option string)
    (subjectType subjectID : string) (payload : jsonmap) : Store unit :=
  db ← gets (λ db, db);
  insert_audit_event (mkAuditEvent event actor org subjectType subjectID
    (marshalJSONMap payload) (now db)).

(** [subject] is the id of the device the mutation returns. *)
Definition mutateDeviceAsUser {A} (actor org device event : string) (subject : A → string)
    (mutate : Store A) : Store A :=
  transaction (
    authorizeDeviceUserMutationTx actor org device "registry_device.manage" ;;
    result ← mutate;
    create_audit_event event (Some actor) (Some org) "device" (subject result) ∅ ;;
    mret result).

Definition serviceOwnedDeviceMetadataKey (key : string) : bool :=
  HasPrefix key "video_cloud_" || bool_decide (key = DeviceMetadataServiceOptions) ||
  bool_decide (key = "product_service_revision") ||
  bool_decide (key = "service_grant_sha256") || bool_decide (key = "log_retention_days").

Definition mergeUserDeviceMetadata (incoming current : jsonmap) : res jsonmap :=
  if existsb (λ kv, serviceOwnedDeviceMetadataKey kv.1) (map_to_list incoming)
  then Err ErrReservedDeviceMetadata
  else Ok (filter (λ kv, serviceOwnedDeviceMetadataKey kv.1 = true) current ∪ incoming).

(** Index devices_org_serial_unique. *)
Definition serial_taken (org id : string) (serial : option string) (db : DB) : bool :=
  match serial with
  | None => false
  | Some s => existsb (λ kd, negb (bool_decide (kd.1 = id)) &&
      bool_decide (Device_OrganizationID kd.2 = org) &&
      bool_decide (Device_SerialNumber kd.2 = Some s)) (map_to_list (devices db))
  end.

(** The error when the UPDATE matched no row. *)
Definition no_row_error (found : option Device) : error :=
  match found with
  | Some d => if bool_decide (is_Some (Device_DisabledAt d)) then ErrDisabled else ErrNotFound
  | None => ErrNotFound
  end.

Definition updateDevice (orgID deviceID : string) (input : DeviceInput) : Store Device :=
  db ← gets (λ db, db);
  let found := device_in_org orgID deviceID db in
  d ← row_or (no_row_error found)
    (d ← found; if bool_decide (Device_DisabledAt d = None) then Some d else None);
  reject_if (btrim_blank (DI_Name input)) (ErrPg "devices_name_not_blank") ;;
  reject_if (serial_taken orgID deviceID (DI_SerialNumber input) db)
    (ErrPg "devices_org_serial_unique") ;;
  let d' := mkDevice (Device_ID d) (Device_OrganizationID d) (DI_Name input) (DI_Category input)
    (DI_SerialNumber input) (DI_MACAddress input) (DI_Manufacturer input) (DI_Model input)
    (Device_Status d) (Device_LastSeenAt d) (marshalJSONMap (DI_Metadata input))
    (Device_CreatedAt d) (now db) (Device_DisabledAt d) (Device_DeviceItemProfileID d) in
  modify (with_devices (<[deviceID := d']> (devices db))) ;;
  mret d'.

Definition updateDeviceStatus (orgID deviceID : string) (status : DeviceStatus)
    (lastSeenAt : option Time) : Store Device :=
  db ← gets (λ db, db);
  let found := device_in_org orgID deviceID db in
  d ← row_or (no_row_error found)
    (d ← found;
     if bool_decide (Device_DisabledAt d = None)
        || negb (bool_decide (Device_Status d = DeviceStatusDisabled)) then Some d else None);
  reject_if (negb (valid_device_status status)) (ErrPg "devices_status_check") ;;
  let d' := device_update status
    (match lastSeenAt with Some t => Some t | None => Device_LastSeenAt d end)
    (Device_Metadata d) (now db)
    (if bool_decide (status = DeviceStatusDisabled) then Some (now db) else Device_DisabledAt d) d in
  modify (with_devices (<[deviceID := d']> (devices db))) ;;
  mret d'.

Definition UpdateDeviceAsUser (actor org device : string) (input : DeviceInput) : Store Device :=
  mutateDeviceAsUser actor org device "device.updated" Device_ID (
    current ← getDeviceForUpdateTx org device;
    metadata ← lift_res (mergeUserDeviceMetadata (DI_Metadata input) (Device_Metadata current));
    updateDevice org device (mkDeviceInput (DI_Name input) (DI_Category input)
      (DI_SerialNumber input) (DI_MACAddress input) (DI_Manufacturer input) (DI_Model input)
      metadata (DI_DeviceItemProfileID input))).

Definition claimLifecycleBound (metadata : jsonmap) : bool :=
  match metadata !! DeviceMetadataVideoCloudActivationStatus with
  | None | Some ANil => false
  | Some _ => true
  end.

Definition hasVideoCloudIdentity (metadata : jsonmap) : bool :=
  match metadata !! DeviceMetadataVideoCloudDevid with
  | Some (AString devid) => negb (blank devid)
  | _ => false
  end.

Definition UpdateDeviceStatusAsUser (actor org device : string) (status : DeviceStatus)
    (lastSeenAt : option Time) : Store Device :=
  mutateDeviceAsUser actor org device "device.status.updated" Device_ID (
    current ← getDeviceForUpdateTx org device;
    reject_if (claimLifecycleBound (Device_Metadata current)
               || hasVideoCloudIdentity (Device_Metadata current)) ErrCloudManagedPresence ;;
    updateDeviceStatus org device status lastSeenAt).

(** The row with [disabled_at] set; it keeps an earlier mark. *)
Definition disabled_device (t : Time) (d : Device) : Device :=
  device_update DeviceStatusDisabled (Device_LastSeenAt d) (Device_Metadata d) t
    (match Device_DisabledAt d with Some at_ => Some at_ | None => Some t end) d.

Definition DeleteDeviceAsUser (actor org device : string) : Store unit :=
  _ ← mutateDeviceAsUser actor org device "device.deleted" (λ id, id) (
    modify (λ db,
      match device_in_org org device db with
      | None => db
      | Some d => with_devices (<[device := disabled_device (now db) d]> (devices db)) db
      end) ;;
    mret device);
  mret tt.

(** ** Lemmas *)

Lemma mutateDeviceAsUser_ok {A} actor org device event (subject : A → string) mutate db r db' :
  mutateDeviceAsUser actor org device event subject mutate db = (Ok r, db') →
  authorized actor org device "registry_device.manage" db = true ∧
  ∃ db1, mutate db = (Ok r, db1) ∧
    db' = with_audit (audit_events db1 ++ [mkAuditEvent event (Some actor) (Some org) "device"
      (subject r) ∅ (now db1)]) db1.
Proof.
  unfold mutateDeviceAsUser. rewrite transaction_ok. intros H.
  apply bind_ok in H as ([] & s & Ha & H). rewrite authorize_run in Ha.
  destruct (authorized _ _ _ _ _); [|done]. injection Ha as <-. split; [done|].
  apply bind_ok in H as (r' & db1 & Hm & H). apply bind_ok in H as ([] & s & Hau & H).
  unfold mret, M_ret in H. simplify_eq. exists db1. split; [done|].
  unfold create_audit_event in Hau. run_simpl. injection Hau as <-. by rewrite marshalJSONMap_empty.
Qed.

Lemma mergeUserDeviceMetadata_ok incoming current merged :
  mergeUserDeviceMetadata incoming current = Ok merged →
  (∀ key, serviceOwnedDeviceMetadataKey key = true →
     incoming !! key = None ∧ merged !! key = current !! key) ∧
  (∀ key, serviceOwnedDeviceMetadataKey key = false → merged !! key = incoming !! key).
Proof.
  unfold mergeUserDeviceMetadata. destruct (existsb _ _) eqn:E; [done|]. intros [= <-].
  assert (∀ key, serviceOwnedDeviceMetadataKey key = true → incoming !! key = None) as Hin.
  { intros key Hk. destruct (incoming !! key) as [v|] eqn:Hv; [|done]. exfalso.
    apply not_true_iff_false in E. apply E, existsb_true. exists (key, v).
    by rewrite elem_of_map_to_list. }
  split; intros key Hk.
  - split; [by apply Hin|]. rewrite lookup_union, (Hin _ Hk), map_lookup_filter.
    destruct (current !! key) as [v|]; simpl; [|done]. by rewrite Hk.
  - rewrite lookup_union, map_lookup_filter.
    destruct (current !! key) as [v|]; simpl; [rewrite Hk; simpl|]; by destruct (incoming !! key).
Qed.

Lemma updateDevice_ok org id input db d' db' :
  updateDevice org id input db = (Ok d', db') →
  ∃ d, device_in_org org id db = Some d ∧ Device_DisabledAt d = None ∧
    Device_Metadata d' = marshalJSONMap (DI_Metadata input) ∧
    Device_Status d' = Device_Status d ∧ Device_LastSeenAt d' = Device_LastSeenAt d ∧
    Device_OrganizationID d' = Device_OrganizationID d ∧
    db' = with_devices (<[id := d']> (devices db)) db.
Proof.
  unfold updateDevice. intros H.
  apply bind_ok in H as (? & ? & Hg & H). unfold gets in Hg. simplify_eq.
  apply bind_row_ok in H as (d & Hr & H).
  apply bind_reject_ok in H as [_ H].
  apply bind_reject_ok in H as [_ H].
  run_simpl. simplify_eq. destruct (device_in_org org id _) as [d0|] eqn:E; simplify_eq/=.
  case_bool_decide; simplify_eq. exists d. done.
Qed.

(** A human edit never touches what services own: keys under [video_cloud_], the service
    options and the grant keys keep their values, none of them may be among the submitted keys,
    every other key is what was submitted, and presence is untouched. *)
Theorem user_update_keeps_service_metadata actor org device input db d d' db' :
  device_in_org org device db = Some d → canonical (Device_Metadata d) →
  UpdateDeviceAsUser actor org device input db = (Ok d', db') →
  (∀ key, serviceOwnedDeviceMetadataKey key = true →
     DI_Metadata input !! key = None ∧ Device_Metadata d' !! key = Device_Metadata d !! key) ∧
  (∀ key, serviceOwnedDeviceMetadataKey key = false →
     Device_Metadata d' !! key = canon <$> DI_Metadata input !! key) ∧
  Device_Status d' = Device_Status d ∧ Device_LastSeenAt d' = Device_LastSeenAt d ∧
  devices db' !! device = Some d'.
Proof.
  intros Hd Hcan H. apply mutateDeviceAsUser_ok in H as (_ & db1 & H & ->).
  apply bind_ok in H as (cur & s & Hg & H). unfold getDeviceForUpdateTx in Hg.
  apply bind_ok in Hg as (? & ? & Hx & Hg). unfold gets in Hx. simplify_eq.
  apply row_or_ok in Hg as [Hg ->]. simplify_eq.
  apply bind_ok in H as (merged & s & Hm & H). apply lift_res_ok in Hm as [Hm ->].
  apply updateDevice_ok in H as (d0 & Hd0 & _ & Hmd & Hst & Hls & _ & ->). simplify_eq.
  simpl in Hmd. destruct (mergeUserDeviceMetadata_ok _ _ _ Hm) as [Hown Hother].
  split_and!; try done.
  - intros key Hk. destruct (Hown key Hk) as [? Hmk]. split; [done|].
    rewrite Hmd, marshalJSONMap_lookup, Hmk, <-marshalJSONMap_lookup. by rewrite Hcan.
  - intros key Hk. by rewrite Hmd, marshalJSONMap_lookup, Hother.
  - simpl. apply lookup_insert_eq.
Qed.

(** Nobody sets the presence of a cloud-managed device by hand: once the device has a video
    cloud id or an activation status, [UpdateDeviceStatusAsUser] fails for every actor and
    leaves the store as it was. *)
Theorem cloud_managed_presence_is_not_manual actor org device status seen db d :
  device_in_org org device db = Some d →
  claimLifecycleBound (Device_Metadata d) = true ∨
    hasVideoCloudIdentity (Device_Metadata d) = true →
  ∃ e, (e = ErrNotFound ∨ e = ErrCloudManagedPresence) ∧
    UpdateDeviceStatusAsUser actor org device status seen db = (Err e, db) ∧
    (authorized actor org device "registry_device.manage" db = true → e = ErrCloudManagedPresence).
Proof.
  intros Hd Hb. unfold UpdateDeviceStatusAsUser, mutateDeviceAsUser, transaction, mbind, M_bind.
  rewrite authorize_run. destruct (authorized _ _ _ _ _); [|exists ErrNotFound; naive_solver].
  exists ErrCloudManagedPresence. split_and!; [by right| |done].
  unfold getDeviceForUpdateTx, row_or, gets, mbind, M_bind. rewrite Hd. unfold mret, M_ret.
  assert (claimLifecycleBound (Device_Metadata d) || hasVideoCloudIdentity (Device_Metadata d) = true)
    as -> by (rewrite orb_true_iff; tauto).
  done.
Qed.

(** ** The theorems at work on a small store *)

Definition sample_edit : DeviceInput :=
  mkDeviceInput "Front door" DeviceCategoryIPCamera None None None None
    (map_literal [("color", AString "blue")]) None.

Lemma user_update_keeps_service_metadata_witness :
  ∃ d' db', UpdateDeviceAsUser "user-1" sample_org sample_uuid sample_edit sample_db = (Ok d', db') ∧
    Device_Metadata d' !! DeviceMetadataVideoCloudDevid = Some (AString "devid-1") ∧
    Device_Metadata d' !! "color" = Some (AString "blue").
Proof.
  destruct (run_succeeds (UpdateDeviceAsUser "user-1" sample_org sample_uuid sample_edit) sample_db)
    as (d' & db' & E); [vm_compute; reflexivity|].
  exists d', db'. split; [exact E|].
  apply (user_update_keeps_service_metadata _ _ _ _ _ sample_device) in E as (Hs & Hu & _).
  - split.
    + rewrite (proj2 (Hs DeviceMetadataVideoCloudDevid ltac:(vm_compute; reflexivity))).
      vm_compute; reflexivity.
    + rewrite (Hu "color" ltac:(vm_compute; reflexivity)). vm_compute; reflexivity.
  - vm_compute; reflexivity.
  - vm_compute; reflexivity.
Defined.

Lemma cloud_managed_presence_is_not_manual_witness :
  ∃ e, UpdateDeviceStatusAsUser "user-1" sample_org sample_uuid DeviceStatusOnline None sample_db =
    (Err e, sample_db).
Proof.
  destruct (cloud_managed_presence_is_not_manual "user-1" sample_org sample_uuid DeviceStatusOnline
    None sample_db sample_device) as (e & _ & H & _).
  - vm_compute; reflexivity.
  - left; vm_compute; reflexivity.
  - exists e. exact H.
Defined.
