(* ===== verification/DeviceLifecycle.v ===== *)
(** * Starting lifecycle operations: store/device_lifecycle.go,
    store/provision_grant_pin.go

    Provisioning and deactivation create, in one transaction with the
    authorization, an operation, its outbox command, the device's pending
    projection and an audit event; a repeated request answers with what the
    first one created.  A provision command carries the product's immutable
    service grant, pinned to the revision earlier records vouch for. *)

From S2P Require Export DeviceMutations.

Local Open Scope Z_scope.

Record DeviceLifecycleOperationInput := mkLifecycleInput {
  LI_OperationID : string;
  LI_CorrelationID : string;
  LI_MessageID : string;
  LI_OrganizationID : string;
  LI_DeviceID : string;
  LI_OperationType : DeviceOperationType;
  LI_RequestedBy : option string;
  LI_RequestPayload : jsonmap;
  LI_OutboxMessageType : string;
  LI_OutboxPayload : jsonmap;
  LI_MetadataPatch : jsonmap;
  LI_AllowDisabled : bool;
  LI_Now : Time;
}.

Definition with_payloads (outbox patch : jsonmap) (input : DeviceLifecycleOperationInput)
    : DeviceLifecycleOperationInput :=
  mkLifecycleInput (LI_OperationID input) (LI_CorrelationID input) (LI_MessageID input)
    (LI_OrganizationID input) (LI_DeviceID input) (LI_OperationType input) (LI_RequestedBy input)
    (LI_RequestPayload input) (LI_OutboxMessageType input) outbox patch (LI_AllowDisabled input)
    (LI_Now input).

Record DeviceLifecycleOperationResult := mkLifecycleResult {
  LR_Device : Device;
  LR_Operation : DeviceOperation;
  LR_Message : DeviceMessageOutbox;
  LR_Created : bool;
}.

Record DeviceDeactivationOperationInput := mkDeactivationInput {
  DX_OperationID : string;
  DX_CorrelationID : string;
  DX_MessageID : string;
  DX_OrganizationID : string;
  DX_DeviceID : string;
  DX_RequestedBy : option string;
  DX_Reason : string;
  DX_Now : Time;
}.

(** ** Small helpers *)

(** [lifecycleMetadataString]: the trimmed text and whether there is any. *)
Definition lifecycleMetadataString (metadata : jsonmap) (key : string) : option string :=
  match metadata !! key with
  | Some (AString text) =>
      let text := TrimSpace text in if bool_decide (text = "") then None else Some text
  | _ => None
  end.

Definition stringValue (value : option string) : string := default "" value.

(** [^[0-9a-f]{64}$] *)
Definition handoffEvidenceDigest (s : string) : bool :=
  (str_len s =? 64) && forallb (λ c, byte_in 48 57 c || byte_in 97 102 c) (to_bytes s).

(** [strconv.ParseInt(s, 10, 64)] *)
Definition ParseInt (s : string) : option Z :=
  let unsigned l := match l with [] => None | _ => digits 0 l end in
  v ← match to_bytes s with
      | c :: l =>
          if byte_is 43 c then unsigned l
          else if byte_is 45 c then Z.opp <$> unsigned l
          else unsigned (c :: l)
      | [] => None
      end;
  if int64_range v then Some v else None.

Fixpoint validateProductServiceOptions_loop (seen : gset string) (options : list string)
    : res unit :=
  match options with
  | [] => Ok tt
  | option :: options =>
      if negb (serviceOptionCodePattern option) || bool_decide (option ∈ seen)
      then Err ErrClaimUnsupportedService
      else validateProductServiceOptions_loop ({[option]} ∪ seen) options
  end.
Definition validateProductServiceOptions (options : list string) : res unit :=
  if (64 <? length options)%nat then Err ErrClaimUnsupportedService
  else validateProductServiceOptions_loop ∅ options.

(** The counts of [serviceOptionSetsEqual]. *)
Definition count_in (seen : gmap string nat) (option : string) : nat := default 0%nat (seen !! option).
Definition count_options (options : list string) : gmap string nat :=
  foldl (λ seen option, <[option := S (count_in seen option)]> seen) ∅ options.
Fixpoint take_options (seen : gmap string nat) (options : list string) : bool :=
  match options with
  | [] => true
  | option :: options =>
      if (count_in seen option =? 0)%nat then false
      else take_options (<[option := (count_in seen option - 1)%nat]> seen) options
  end.
Definition serviceOptionSetsEqual (l r : list string) : bool :=
  if negb (length l =? length r)%nat then false
  else take_options (count_options l) r.

(** ** The grant pin *)

Record provisionGrantPin := mkPin { pin_revision : Z; pin_digest : string }.

(** A row of the three evidence queries: product, revision text, digest. *)
Abbreviation pin_row := (option string * option string * option string)%type.

(** One turn of the [read] closure. *)
Definition read_pin (product : string) (pin : option provisionGrantPin) (row : pin_row)
    : res (option provisionGrantPin) :=
  match row with
  | (Some p, Some revisionText, Some digest) =>
      if negb (bool_decide (p = product)) || negb (handoffEvidenceDigest digest) then
        Err ErrConflict
      else match ParseInt revisionText with
        | None => Err ErrConflict
        | Some revision =>
            if revision <? 1 then Err ErrConflict
            else match pin with
              | None => Ok (Some (mkPin revision digest))
              | Some pin' =>
                  if negb (pin_revision pin' =? revision)
                     || negb (bool_decide (pin_digest pin' = digest))
                  then Err ErrConflict else Ok pin
              end
        end
  | _ => Err ErrConflict
  end.
Fixpoint read_pins (product : string) (pin : option provisionGrantPin) (rows : list pin_row)
    : res (option provisionGrantPin) :=
  match rows with
  | [] => Ok pin
  | row :: rows => pin ← read_pin product pin row; read_pins product pin rows
  end.

Definition claim_rows (device : Device) (devid : string) (db : DB) : list pin_row :=
  omap (λ c,
    t ← token_row <$> device_claim_tokens (registry db) !! DeviceClaim_TokenID (claim_row c);
    if bool_decide (DeviceClaim_DeviceID (claim_row c) = Device_ID device)
       && bool_decide (DeviceClaim_OrganizationID (claim_row c) = Device_OrganizationID device)
    then Some
      (if bool_decide (Token_VideoCloudDevid t = devid) then Token_DeviceItemProfileID t else None,
       json_member_text (Token_Metadata t) "product_service_revision",
       json_member_text (Token_Metadata t) "service_grant_sha256")
    else None) (rows_of (device_claims (registry db))).

(** [LEFT JOIN product_service_grants g ON ...] *)
Definition grant_of_revision (r : Registry) (product cloud : string) (revision : option Z)
    : option ProductServiceGrant :=
  revision ← revision;
  head (filter (λ g, grant_product_id g = product ∧ grant_brand_cloud_id g = cloud ∧
    grant_revision g = revision) (product_service_grants r)).

Definition factory_rows (device : Device) (devid : string) (db : DB) : list pin_row :=
  omap (λ f,
    if bool_decide (factory_device_id f = devid) && bool_decide (factory_status f = "issued")
       && bool_decide (run_brand_cloud_id f = Device_OrganizationID device)
    then Some (Some (run_device_item_profile_id f),
      dec_text <$> run_product_service_revision f,
      grant_snapshot_sha256 <$> grant_of_revision (registry db) (run_device_item_profile_id f)
        (run_brand_cloud_id f) (run_product_service_revision f))
    else None) (factory_reservations (registry db)).

Definition lifecycle_rows (device : Device) (devid : string) (db : DB) : list pin_row :=
  omap (λ m,
    o ← device_operations db !! Outbox_OperationID m;
    if bool_decide (DeviceOperation_DeviceID o = Device_ID device)
       && bool_decide (DeviceOperation_OrganizationID o = Device_OrganizationID device)
       && bool_decide (DeviceOperation_OperationType o = DeviceOperationTypeProvision)
       && bool_decide (DeviceOperation_Status o = DeviceOperationStatusSucceeded)
    then Some
      (if bool_decide (json_member_text (Outbox_Payload m) "video_cloud_devid" = Some devid)
       then json_member_text (Outbox_Payload m) "product_id" else None,
       json_member_text (Outbox_Payload m) "product_service_revision",
       json_member_text (Outbox_Payload m) "service_grant_sha256")
    else None) (map_to_list (device_message_outbox db)).*2.

Definition trustedProvisionGrantPinTx (device : Device) (product : string) (outbox : jsonmap)
    : Store (option provisionGrantPin) :=
  let devid := metadata_string outbox "video_cloud_devid" in
  reject_if (blank devid) ErrConflict ;;
  db ← gets (λ db, db);
  pin ← lift_res (read_pins product None (claim_rows device devid db));
  pin ← lift_res (read_pins product pin (factory_rows device devid db));
  lift_res (read_pins product pin (lifecycle_rows device devid db)).

(** ** Binding the grant *)

Definition newest_grant (r : Registry) (product cloud : string) : option ProductServiceGrant :=
  head (order_by (λ a b, grant_revision b <=? grant_revision a)
    (filter (λ g, grant_product_id g = product ∧ grant_brand_cloud_id g = cloud)
      (product_service_grants r))).

(** [json.Unmarshal(raw, &list)] for a [[]string]. *)
Definition unmarshal_strings (v : any) : res (list string) :=
  match v with
  | ASlice l => ss ← decode_strings "" l; Ok (get_strings {["" := ASlice ss]} "")
  | ANil => Ok []
  | _ => type_error v "value of type []string"
  end.

(** The request's own list, when given and not empty, must name the same options. *)
Definition echo_matches (outbox : jsonmap) (approved : list string) : bool :=
  match outbox !! "service_options" with
  | None | Some ANil => true
  | Some echo =>
      match unmarshal_strings echo with
      | Err _ => false
      | Ok requested => bool_decide (requested = []) || serviceOptionSetsEqual requested approved
      end
  end.

Definition bound_outbox (outbox : jsonmap) (approved : list string) (product digest : string)
    (revision : Z) (days : option Z) : jsonmap :=
  let m := <["service_grant_sha256" := AString digest]>
    (<["product_service_revision" := AInt revision]> (<["product_id" := AString product]>
      (<["service_options" := strings_value approved]> outbox))) in
  match days with None => m | Some d => <["log_retention_days" := AInt d]> m end.
Definition bound_patch (patch : jsonmap) (approved : list string) (digest : string)
    (revision : Z) (days : option Z) : jsonmap :=
  let m := match days with None => patch | Some d => <["log_retention_days" := AInt d]> patch end in
  <["service_grant_sha256" := AString digest]> (<["product_service_revision" := AInt revision]>
    (<[DeviceMetadataServiceOptions := strings_value approved]> m)).

Definition bindProvisionServiceGrantTx (device : Device) (input : DeviceLifecycleOperationInput)
    : Store DeviceLifecycleOperationInput :=
  product ← row_or ErrConflict
    (p ← Device_DeviceItemProfileID device; if blank p then None else Some p);
  pin ← trustedProvisionGrantPinTx device product (LI_OutboxPayload input);
  db ← gets (λ db, db);
  grant ← row_or ErrConflict
    match pin with
    | None => newest_grant (registry db) product (Device_OrganizationID device)
    | Some pin =>
        grant_of_revision (registry db) product (Device_OrganizationID device)
          (Some (pin_revision pin))
    end;
  reject_if match pin with
    | None => false
    | Some pin => negb (bool_decide (grant_snapshot_sha256 grant = pin_digest pin))
    end ErrConflict ;;
  approved ← row_or ErrConflict
    match unmarshal_strings (grant_options grant) with
    | Ok approved =>
        if is_ok (validateProductServiceOptions approved) && negb (bool_decide (approved = []))
        then Some approved else None
    | Err _ => None
    end;
  reject_if (negb (echo_matches (LI_OutboxPayload input) approved)) ErrClaimServiceOptionsMismatch ;;
  mret (with_payloads
    (bound_outbox (LI_OutboxPayload input) approved product (grant_snapshot_sha256 grant)
      (grant_revision grant) (grant_log_retention_days grant))
    (bound_patch (LI_MetadataPatch input) approved (grant_snapshot_sha256 grant)
      (grant_revision grant) (grant_log_retention_days grant)) input).

(** ** Operations and messages within the transaction *)

(** The create input [compareOperationCreate] is given. *)
Definition lifecycle_create (input : DeviceLifecycleOperationInput) : DeviceOperationCreateInput :=
  mkOperationCreate (LI_OperationID input) (LI_CorrelationID input) (LI_OrganizationID input)
    (LI_DeviceID input) (LI_OperationType input) DeviceOperationStatusPending
    (LI_RequestedBy input) (LI_RequestPayload input) ∅ None None None None.

Definition createOrGetDeviceOperationTx (input : DeviceLifecycleOperationInput)
    : Store (DeviceOperation * bool) :=
  let requestPayload := marshalJSONMap (LI_RequestPayload input) in
  db ← gets (λ db, db);
  row ← insert_operation (operation_row_of (lifecycle_create input) db);
  match row with
  | Some operation => mret (operation, true)
  | None =>
      existing ← GetDeviceOperation (LI_OperationID input);
      lift_res (compareOperationCreate existing (lifecycle_create input) requestPayload) ;;
      mret (existing, false)
  end.

(** The outbox row of a new operation. *)
Definition lifecycle_message (operation : DeviceOperation) (input : DeviceLifecycleOperationInput)
    (db : DB) : DeviceMessageOutbox :=
  mkDeviceMessageOutbox (next_uuid db) (LI_MessageID input)
    (DeviceOperation_OperationID operation) (DeviceOperation_CorrelationID operation) None
    StreamAccountVideoCommands (LI_OutboxMessageType input) "1.0"
    (DeviceOperation_DeviceID operation) (marshalJSONMap (LI_OutboxPayload input))
    DeviceMessageOutboxStatusPending 0 None (pg_timestamptz (LI_Now input)) None
    (now db) (now db).

Definition createOutboxMessageTx (operation : DeviceOperation)
    (input : DeviceLifecycleOperationInput) : Store DeviceMessageOutbox :=
  db ← gets (λ db, db); insert_outbox (lifecycle_message operation input db).

Definition messages_of (operationID : string) (db : DB) : list DeviceMessageOutbox :=
  filter (λ m, Outbox_OperationID m = operationID) (map_to_list (device_message_outbox db)).*2.

(** Also GetLatestOutboxMessageByOperationID. *)
Definition getLatestOutboxMessageByOperationTx (operationID : string)
    : Store DeviceMessageOutbox :=
  db ← gets (λ db, db); row_or ErrNotFound (latest Outbox_CreatedAt (messages_of operationID db)).

Definition GetLatestDeviceOperationByType (orgID deviceID : string)
    (operationType : DeviceOperationType) : Store DeviceOperation :=
  db ← gets (λ db, db);
  row_or ErrNotFound (latest DeviceOperation_CreatedAt
    (filter (λ o, DeviceOperation_OrganizationID o = orgID ∧ DeviceOperation_DeviceID o = deviceID ∧
       DeviceOperation_OperationType o = operationType)
      (map_to_list (device_operations db)).*2)).

(** ** startDeviceLifecycleOperationTx *)

Definition with_reservation (device : Device) (input : DeviceLifecycleOperationInput)
    : DeviceLifecycleOperationInput :=
  with_payloads
    (match lifecycleMetadataString (Device_Metadata device)
             DeviceMetadataVideoCloudTransferReservationID with
     | Some reservationID =>
         <["transfer_reservation_id" := AString reservationID]> (LI_OutboxPayload input)
     | None => delete "transfer_reservation_id" (LI_OutboxPayload input)
     end) (LI_MetadataPatch input) input.

Definition startDeviceLifecycleOperationTx (device : Device) (input : DeviceLifecycleOperationInput)
    (bindProductGrant : bool) : Store DeviceLifecycleOperationResult :=
  reject_if (negb (LI_AllowDisabled input) && bool_decide (is_Some (Device_DisabledAt device)))
    ErrDisabled ;;
  '(operation, created) ← createOrGetDeviceOperationTx input;
  input ← (if created && bindProductGrant then bindProvisionServiceGrantTx device input
           else mret input);
  let input :=
    if created && bool_decide (LI_OperationType input = DeviceOperationTypeProvision)
    then with_reservation device input else input in
  message ← (if created : bool then createOutboxMessageTx operation input
             else getLatestOutboxMessageByOperationTx (DeviceOperation_OperationID operation));
  device ←
    (if created && (negb (bool_decide (LI_MetadataPatch input = ∅))
                    || bool_decide (LI_OperationType input = DeviceOperationTypeProvision))
     then projectDeviceTx (Device_OrganizationID device) (Device_ID device)
       (mkProjection (LI_MetadataPatch input) "" None None
          (bool_decide (LI_OperationType input = DeviceOperationTypeProvision))
          (LI_AllowDisabled input))
     else mret device);
  (if created : bool then
     create_audit_event
       ("device.lifecycle." +:+ DeviceOperationType_text (LI_OperationType input) +:+ ".requested")
       (LI_RequestedBy input) (Some (LI_OrganizationID input)) "device" (Device_ID device)
       (map_literal [("operation_id", AString (DeviceOperation_OperationID operation))])
   else mret tt) ;;
  mret (mkLifecycleResult device operation message created).

(** [in.RequestedBy == nil || strings.TrimSpace( *in.RequestedBy) == ""] *)
Definition requester (requestedBy : option string) : option string :=
  r ← requestedBy; if blank r then None else Some r.

Definition StartDeviceLifecycleOperation (platformServiceProductWrites : bool)
    (input : DeviceLifecycleOperationInput) : Store DeviceLifecycleOperationResult :=
  requestedBy ← row_or ErrNotFound (requester (LI_RequestedBy input));
  reject_if (negb (bool_decide (LI_OperationType input = DeviceOperationTypeProvision)))
    ErrConflict ;;
  transaction (
    authorizeDeviceUserMutationTx requestedBy (LI_OrganizationID input) (LI_DeviceID input)
      "lifecycle_operation.provision" ;;
    device ← getDeviceForUpdateTx (LI_OrganizationID input) (LI_DeviceID input);
    startDeviceLifecycleOperationTx device input platformServiceProductWrites).

Definition deactivation_lifecycle (input : DeviceDeactivationOperationInput)
    (videoCloudDevid activityID : string) : DeviceLifecycleOperationInput :=
  mkLifecycleInput (DX_OperationID input) (DX_CorrelationID input) (DX_MessageID input)
    (DX_OrganizationID input) (DX_DeviceID input) DeviceOperationTypeDeactivate
    (DX_RequestedBy input)
    (map_literal [("video_cloud_devid", AString videoCloudDevid);
                  ("reason", AString (DX_Reason input))])
    MessageTypeDeviceDeactivateRequested
    (map_literal
      [("org_id", AString (DX_OrganizationID input));
       ("account_device_id", AString (DX_DeviceID input));
       ("video_cloud_devid", AString videoCloudDevid);
       ("activity_id", AString activityID);
       ("requested_by", AString (stringValue (DX_RequestedBy input)));
       ("reason", AString (DX_Reason input))])
    ∅ true (DX_Now input).

Definition StartDeviceDeactivationOperation (input : DeviceDeactivationOperationInput)
    : Store DeviceLifecycleOperationResult :=
  requestedBy ← row_or ErrNotFound (requester (DX_RequestedBy input));
  transaction (
    authorizeDeviceUserMutationTx requestedBy (DX_OrganizationID input) (DX_DeviceID input)
      "lifecycle_operation.deactivate" ;;
    device ← getDeviceForUpdateTx (DX_OrganizationID input) (DX_DeviceID input);
    videoCloudDevid ← row_or ErrNotProvisioned
      (lifecycleMetadataString (Device_Metadata device) DeviceMetadataVideoCloudDevid);
    let activityID := stringValue
      (lifecycleMetadataString (Device_Metadata device) DeviceMetadataVideoCloudActivityID) in
    startDeviceLifecycleOperationTx device
      (deactivation_lifecycle input videoCloudDevid activityID) false).

(** ** Service option sets *)

Definition occurrences (o : string) (l : list string) : nat := length (filter (.= o) l).

Lemma occurrences_cons o x l :
  occurrences o (x :: l) = ((if decide (x = o) then 1 else 0) + occurrences o l)%nat.
Proof. unfold occurrences. rewrite filter_cons. by destruct (decide (x = o)). Qed.

Lemma occurrences_perm o l l' : l ≡ₚ l' → occurrences o l = occurrences o l'.
Proof. intros H. unfold occurrences. by rewrite H. Qed.

Lemma occurrences_in o l : occurrences o l ≠ 0%nat → o ∈ l.
Proof.
  unfold occurrences. intros H. destruct (filter (.= o) l) as [|x k] eqn:E; [done|].
  assert (x ∈ filter (.= o) l) as Hx by (rewrite E; left).
  apply list_elem_of_filter in Hx as [-> ?]. done.
Qed.

Lemma count_options_spec l o : count_in (count_options l) o = occurrences o l.
Proof.
  unfold count_options.
  assert (∀ seen, count_in (foldl (λ seen option, <[option := S (count_in seen option)]> seen) seen l) o
    = (count_in seen o + occurrences o l)%nat) as H.
  { induction l as [|x l IH]; intros seen; simpl; [unfold occurrences; simpl; lia|].
    rewrite IH, occurrences_cons. unfold count_in.
    destruct (decide (x = o)) as [->|]; simplify_map_eq; simpl; lia. }
  rewrite H. unfold count_in. by rewrite lookup_empty.
Qed.

Lemma take_options_submseteq seen l r :
  (∀ o, count_in seen o = occurrences o l) → take_options seen r = true ↔ r ⊆+ l.
Proof.
  revert seen l. induction r as [|o r IH]; intros seen l Hseen; simpl.
  { split; [intros _; apply submseteq_nil_l | done]. }
  destruct (Nat.eqb_spec (count_in seen o) 0) as [E|E].
  - split; [done|]. intros H. exfalso. rewrite Hseen in E.
    apply submseteq_cons_l in H as (k & Hk & _).
    rewrite (occurrences_perm _ _ _ Hk), occurrences_cons, decide_True in E by done. lia.
  - rewrite Hseen in E. apply occurrences_in, elem_of_Permutation in E as [k Hk].
    rewrite (IH _ k).
    + rewrite Hk. split; [by apply submseteq_skip|]. intros (k' & Hk' & Hr)%submseteq_cons_l.
      apply (inj (cons o)) in Hk'. by rewrite Hk'.
    + intros o'. pose proof (Hseen o') as H'.
      rewrite (occurrences_perm _ _ _ Hk), occurrences_cons in H'. unfold count_in in *.
      destruct (decide (o = o')) as [->|]; simplify_map_eq; simpl; lia.
Qed.

Lemma serviceOptionSetsEqual_spec l r : serviceOptionSetsEqual l r = true ↔ l ≡ₚ r.
Proof.
  unfold serviceOptionSetsEqual. destruct (Nat.eqb_spec (length l) (length r)) as [E|E]; simpl.
  - rewrite (take_options_submseteq _ l) by apply count_options_spec. split.
    + intros H. symmetry. apply submseteq_length_Permutation; [done|lia].
    + intros ->. done.
  - split; [done|]. intros H. by apply Permutation_length in H.
Qed.

(** ** The grant a command carries *)

Definition agrees (product : string) (p : provisionGrantPin) (row : pin_row) : Prop :=
  ∃ text, row = (Some product, Some text, Some (pin_digest p)) ∧ ParseInt text = Some (pin_revision p).

Lemma read_pin_ok product pin row pin' :
  read_pin product pin row = Ok pin' →
  ∃ p, pin' = Some p ∧ agrees product p row ∧ (pin = None ∨ pin = Some p).
Proof.
  unfold read_pin, agrees. destruct row as [[[p|] [text|]] [digest|]]; try done.
  destruct (negb (bool_decide (p = product)) || _) eqn:E; [done|].
  apply orb_false_iff in E as [E _]. rewrite negb_bool_decide_false in E. subst p.
  destruct (ParseInt text) as [revision|] eqn:Hp; [|done].
  destruct (revision <? 1); [done|]. destruct pin as [[r d]|].
  - simpl. destruct (Z.eqb_spec r revision) as [->|]; simpl; [|done].
    destruct (bool_decide (d = digest)) eqn:Hd; simpl; [|done].
    apply bool_decide_eq_true in Hd as ->. intros [= <-].
    exists (mkPin revision digest). naive_solver.
  - intros [= <-]. exists (mkPin revision digest). naive_solver.
Qed.

(** A printed integer parses to itself. *)
Lemma ParseInt_dec_text z : int64_range z = true → ParseInt (dec_text z) = Some z.
Proof.
  intros Hr. unfold ParseInt, dec_text.
  assert (- 2 ^ 63 ≤ z < 2 ^ 63) as Hz by (unfold int64_range in Hr; lia).
  rewrite to_of_bytes.
  assert (digits 0 (drop_zeros (pad 20 (Z.abs z))) = Some (Z.abs z)) as Hd.
  { rewrite digits_drop_zeros. apply digits_pad. simpl. lia. }
  destruct (Z.eqb_spec z 0) as [->|Hz0]; [reflexivity|].
  destruct (drop_zeros (pad 20 (Z.abs z))) as [|c r] eqn:E.
  { simpl in Hd. injection Hd. lia. }
  destruct (Z.ltb_spec z 0) as [Hneg|Hpos]; cbn [app].
  - change (byte_is 43 "-"%char) with false. change (byte_is 45 "-"%char) with true.
    cbv iota. rewrite Hd. simpl. replace (- Z.abs z) with z by lia. by rewrite Hr.
  - assert (is_Some (digit_value c)) as [v Hv] by (simpl in Hd; destruct (digit_value c); done).
    unfold digit_value, byte_in in Hv. 
    destruct (48 <=? N_of_ascii c)%N eqn:E1; [|done].
    apply N.leb_le in E1. unfold byte_is.
    rewrite (proj2 (N.eqb_neq (N_of_ascii c) 43)), (proj2 (N.eqb_neq (N_of_ascii c) 45)) by lia.
    rewrite Hd. simpl.
    replace (Z.abs z) with z by lia. by rewrite Hr.
Qed.

Lemma read_pins_ok product pin rows pin' :
  read_pins product pin rows = Ok pin' →
  (∀ p, pin = Some p → pin' = Some p) ∧
  (∀ row, row ∈ rows → ∃ p, pin' = Some p ∧ agrees product p row).
Proof.
  revert pin. induction rows as [|row rows IH]; intros pin; simpl.
  { intros [= <-]. split; [done|set_solver]. }
  rewrite res_bind_ok. intros (pin1 & H1 & H2).
  apply read_pin_ok in H1 as (p & -> & Hrow & Hpin). destruct (IH _ H2) as [Hkeep Hall].
  split.
  - intros p' Hp'. destruct Hpin as [?|?]; simplify_eq. auto.
  - intros row' [->|Hr]%elem_of_cons; [|by apply Hall]. exists p. split; [by apply Hkeep|done].
Qed.

Definition evidence_rows (device : Device) (devid : string) (db : DB) : list pin_row :=
  claim_rows device devid db ++ factory_rows device devid db ++ lifecycle_rows device devid db.

Lemma trustedProvisionGrantPinTx_ok device product outbox db pin db' :
  trustedProvisionGrantPinTx device product outbox db = (Ok pin, db') →
  db' = db ∧ blank (metadata_string outbox "video_cloud_devid") = false ∧
  ∀ row, row ∈ evidence_rows device (metadata_string outbox "video_cloud_devid") db →
    ∃ p, pin = Some p ∧ agrees product p row.
Proof.
  unfold trustedProvisionGrantPinTx. intros H.
  apply bind_reject_ok in H as [Hb H].
  apply bind_ok in H as (? & ? & Hg & H). unfold gets in Hg. simplify_eq.
  apply bind_lift_ok in H as (p1 & H1 & H).
  apply bind_lift_ok in H as (p2 & H2 & H).
  apply lift_res_ok in H as [H3 ->].
  apply read_pins_ok in H1 as [_ A1]. apply read_pins_ok in H2 as [K2 A2].
  apply read_pins_ok in H3 as [K3 A3]. split; [done|]. split; [done|].
  intros row. unfold evidence_rows. rewrite !elem_of_app. intros [Hr|[Hr|Hr]].
  - destruct (A1 _ Hr) as (p & -> & ?). exists p. split; [|done]. by apply K3, K2.
  - destruct (A2 _ Hr) as (p & -> & ?). exists p. split; [|done]. by apply K3.
  - by apply A3.
Qed.

Lemma validateProductServiceOptions_ok options :
  validateProductServiceOptions options = Ok tt → NoDup options ∧
    Forall (λ o, serviceOptionCodePattern o = true) options.
Proof.
  unfold validateProductServiceOptions. destruct (_ <? _)%nat; [done|].
  assert (∀ seen, validateProductServiceOptions_loop seen options = Ok tt →
    NoDup options ∧ Forall (λ o, serviceOptionCodePattern o = true) options ∧
    Forall (.∉ seen) options) as H; [|by intros Ho; apply H in Ho as (? & ? & _)].
  induction options as [|o l IH]; intros seen; simpl; [repeat constructor|].
  destruct (serviceOptionCodePattern o) eqn:E; simpl; [|done].
  case_bool_decide; [done|]. intros Hl. apply IH in Hl as (H1 & H2 & H3).
  rewrite Forall_forall in H3. rewrite NoDup_cons, !Forall_cons, (Forall_forall (.∉ seen)).
  split_and!; set_solver.
Qed.

Lemma grant_of_revision_in r product cloud rev g :
  grant_of_revision r product cloud (Some rev) = Some g →
  g ∈ product_service_grants r ∧ grant_product_id g = product ∧ grant_brand_cloud_id g = cloud ∧
  grant_revision g = rev.
Proof.
  unfold grant_of_revision. simpl. destruct (filter _ _) as [|g' l] eqn:E; [done|]. intros [= ->].
  assert (g ∈ filter (λ g, grant_product_id g = product ∧ grant_brand_cloud_id g = cloud ∧
    grant_revision g = rev) (product_service_grants r)) as H by (rewrite E; left).
  apply list_elem_of_filter in H. tauto.
Qed.

Lemma newest_grant_in r product cloud g :
  newest_grant r product cloud = Some g →
  g ∈ product_service_grants r ∧ grant_product_id g = product ∧ grant_brand_cloud_id g = cloud.
Proof.
  unfold newest_grant. set (rows := filter _ _).
  destruct (order_by _ rows) as [|g' l] eqn:E; [done|]. intros [= ->].
  assert (g ∈ rows) as H.
  { rewrite <-(elem_of_order_by (λ a b, grant_revision b <=? grant_revision a)), E. left. }
  apply list_elem_of_filter in H. tauto.
Qed.

(** What a bound command carries, and which evidence it agrees with. *)
Lemma bindProvisionServiceGrantTx_ok device input db input' db' :
  bindProvisionServiceGrantTx device input db = (Ok input', db') →
  ∃ product grant approved,
    db' = db ∧ Device_DeviceItemProfileID device = Some product ∧
    grant ∈ product_service_grants (registry db) ∧ grant_product_id grant = product ∧
    grant_brand_cloud_id grant = Device_OrganizationID device ∧
    approved ≠ [] ∧ NoDup approved ∧ Forall (λ o, serviceOptionCodePattern o = true) approved ∧
    unmarshal_strings (grant_options grant) = Ok approved ∧
    LI_OutboxPayload input' = bound_outbox (LI_OutboxPayload input) approved product
      (grant_snapshot_sha256 grant) (grant_revision grant) (grant_log_retention_days grant) ∧
    (∀ row, row ∈ evidence_rows device
        (metadata_string (LI_OutboxPayload input) "video_cloud_devid") db →
      agrees product (mkPin (grant_revision grant) (grant_snapshot_sha256 grant)) row).
Proof.
  unfold bindProvisionServiceGrantTx. intros H.
  apply bind_row_ok in H as (product & Hp & H).
  destruct (Device_DeviceItemProfileID device) as [product'|]; simplify_eq/=.
  destruct (blank product'); simplify_eq/=.
  apply bind_ok in H as (pin & ? & Hpin & H).
  apply trustedProvisionGrantPinTx_ok in Hpin as (-> & _ & Hrows).
  apply bind_ok in H as (? & ? & Hg & H). unfold gets in Hg. simplify_eq.
  apply bind_row_ok in H as (grant & Hgr & H).
  apply bind_reject_ok in H as [Hrej H].
  apply bind_row_ok in H as (approved & Happ & H).
  apply bind_reject_ok in H as [_ H].
  unfold mret, M_ret in H. simplify_eq.
  destruct (unmarshal_strings (grant_options grant)) as [a|] eqn:Hu; [|done].
  destruct (validateProductServiceOptions a) as [[]|] eqn:Hv; [|done]. simpl in Happ.
  case_bool_decide; simplify_eq/=. apply validateProductServiceOptions_ok in Hv as [? ?].
  assert (grant ∈ product_service_grants (registry db') ∧ grant_product_id grant = product ∧
    grant_brand_cloud_id grant = Device_OrganizationID device ∧
    (∀ p, pin = Some p → p = mkPin (grant_revision grant) (grant_snapshot_sha256 grant)))
    as (? & ? & ? & Hpineq).
  { destruct pin as [p|].
    - apply grant_of_revision_in in Hgr as (? & ? & ? & ?).
      rewrite negb_bool_decide_false in Hrej. split_and!; try done. intros ? [= <-].
      destruct p; simpl in *; congruence.
    - apply newest_grant_in in Hgr as (? & ? & ?). split_and!; done. }
  exists product, grant, approved. split_and!; try done.
  intros row Hr. destruct (Hrows row Hr) as (p & E & ?). by rewrite <-(Hpineq p E).
Qed.

(** A bound provision command carries a grant of the device's own product and cloud, with valid,
    distinct, non-empty options, and that grant is the one every earlier record of the device
    vouches for: each claim token, issued factory enrolment and successful provisioning names the
    same product, revision and digest, or the command is refused. *)
Theorem bound_grant_is_trusted device input db input' db' :
  bindProvisionServiceGrantTx device input db = (Ok input', db') →
  ∃ product grant approved,
    db' = db ∧ Device_DeviceItemProfileID device = Some product ∧
    grant ∈ product_service_grants (registry db) ∧ grant_product_id grant = product ∧
    grant_brand_cloud_id grant = Device_OrganizationID device ∧
    approved ≠ [] ∧ NoDup approved ∧ Forall (λ o, serviceOptionCodePattern o = true) approved ∧
    unmarshal_strings (grant_options grant) = Ok approved ∧
    LI_OutboxPayload input' = bound_outbox (LI_OutboxPayload input) approved product
      (grant_snapshot_sha256 grant) (grant_revision grant) (grant_log_retention_days grant) ∧
    (∀ row, row ∈ evidence_rows device
        (metadata_string (LI_OutboxPayload input) "video_cloud_devid") db →
      agrees product (mkPin (grant_revision grant) (grant_snapshot_sha256 grant)) row).
Proof. apply bindProvisionServiceGrantTx_ok. Qed.

(** ** What starting an operation does *)

Lemma createOrGetDeviceOperationTx_run input db :
  createOrGetDeviceOperationTx input db =
    if cloud_deletion_fenced (registry db) (LI_OrganizationID input)
    then (Err (ErrPg "cloud_deletion_fence"), db)
    else match device_operations db !! LI_OperationID input with
    | Some o =>
        match compareOperationCreate o (lifecycle_create input)
                (marshalJSONMap (LI_RequestPayload input)) with
        | Ok _ => (Ok (o, false), db)
        | Err e => (Err e, db)
        end
    | None =>
        let o := operation_row_of (lifecycle_create input) db in
        (Ok (o, true),
         use_uuid (with_operations (<[LI_OperationID input := o]> (device_operations db)) db))
    end.
Proof.
  unfold createOrGetDeviceOperationTx, GetDeviceOperation.
  unfold mbind, M_bind, gets, row_or, lift_res, mret, M_ret.
  rewrite insert_operation_run. simpl. destruct (cloud_deletion_fenced _ _); [done|].
  destruct (device_operations db !! _) as [o|] eqn:Ho; simpl; [|done].
  rewrite Ho. by destruct (compareOperationCreate _ _ _) as [[]|].
Qed.

Lemma bindProvisionServiceGrantTx_frame device input db input' db' :
  bindProvisionServiceGrantTx device input db = (Ok input', db') →
  db' = db ∧ ∃ outbox patch, input' = with_payloads outbox patch input.
Proof.
  unfold bindProvisionServiceGrantTx. intros H.
  apply bind_ok in H as (? & ? & Hp & H). apply row_or_ok in Hp as [_ ->].
  apply bind_ok in H as (pin & ? & Hpin & H).
  apply trustedProvisionGrantPinTx_ok in Hpin as (-> & _ & _).
  apply bind_ok in H as (? & ? & Hg & H). unfold gets in Hg. simplify_eq.
  apply bind_ok in H as (? & ? & Hr & H). apply row_or_ok in Hr as [_ ->].
  apply bind_reject_ok in H as [_ H].
  apply bind_ok in H as (? & ? & Hr & H). apply row_or_ok in Hr as [_ ->].
  apply bind_reject_ok in H as [_ H].
  unfold mret, M_ret in H. simplify_eq. eauto.
Qed.

(** The store with the new operation in it. *)
Definition with_new_operation (input : DeviceLifecycleOperationInput) (db : DB) : DB :=
  use_uuid (with_operations
    (<[LI_OperationID input := operation_row_of (lifecycle_create input) db]>
      (device_operations db)) db).

(** The projection a new operation makes. *)
Definition lifecycle_projection (input : DeviceLifecycleOperationInput) : DeviceProjectionInput :=
  mkProjection (LI_MetadataPatch input) "" None None
    (bool_decide (LI_OperationType input = DeviceOperationTypeProvision)) (LI_AllowDisabled input).

Definition lifecycle_event (device : Device) (input : DeviceLifecycleOperationInput) (t : Time)
    : AuditEvent :=
  mkAuditEvent
    ("device.lifecycle." +:+ DeviceOperationType_text (LI_OperationType input) +:+ ".requested")
    (LI_RequestedBy input) (Some (LI_OrganizationID input)) "device" (Device_ID device)
    (marshalJSONMap (map_literal [("operation_id", AString (LI_OperationID input))])) t.

(** The device after the operation's own projection. *)
Definition lifecycle_device (device : Device) (input : DeviceLifecycleOperationInput) (t : Time)
    : Device :=
  if negb (bool_decide (LI_MetadataPatch input = ∅))
     || bool_decide (LI_OperationType input = DeviceOperationTypeProvision)
  then projected_row t device (lifecycle_projection input) else device.

(** The request with the command's final payload. *)
Definition final_input (device : Device) (bindGrant : bool) (input input' : DeviceLifecycleOperationInput)
    (db : DB) : Prop :=
  ∃ bound, (if bindGrant then bindProvisionServiceGrantTx device input db = (Ok bound, db)
            else bound = input) ∧
    input' = if bool_decide (LI_OperationType input = DeviceOperationTypeProvision)
             then with_reservation device bound else bound.

Lemma final_input_fields device bindGrant input input' db :
  final_input device bindGrant input input' db →
  ∃ outbox patch, input' = with_payloads outbox patch input.
Proof.
  intros (bound & Hb & ->).
  assert (∃ outbox patch, bound = with_payloads outbox patch input) as (ob & pt & ->).
  { destruct bindGrant; [by apply bindProvisionServiceGrantTx_frame in Hb as [_ ?]|].
    subst. exists (LI_OutboxPayload input), (LI_MetadataPatch input). by destruct input. }
  case_bool_decide; unfold with_reservation, with_payloads; simpl; eauto.
Qed.

(** The tables after a new operation: its row, its command, the projected
    device and the audit event. *)
Record lifecycle_started (device : Device) (bindGrant : bool)
    (input : DeviceLifecycleOperationInput) (db : DB) (r : DeviceLifecycleOperationResult)
    (db' : DB) : Prop := {
  started_fresh : device_operations db !! LI_OperationID input = None;
  started_message_fresh : device_message_outbox db !! LI_MessageID input = None;
  started_created : LR_Created r = true;
  started_operation : LR_Operation r = operation_row_of (lifecycle_create input) db;
  started_operations : device_operations db' =
    <[LI_OperationID input := LR_Operation r]> (device_operations db);
  started_message : ∃ input', final_input device bindGrant input input' (with_new_operation input db) ∧
    LR_Message r = lifecycle_message (LR_Operation r) input' (with_new_operation input db) ∧
    LR_Device r = lifecycle_device device input' (now db);
  started_message_ok : outbox_row_ok (LR_Message r);
  started_outbox : device_message_outbox db' =
    <[LI_MessageID input := LR_Message r]> (device_message_outbox db);
  started_devices : devices db' = <[Device_ID device := LR_Device r]> (devices db);
  started_audit : audit_events db' = audit_events db ++ [lifecycle_event device input (now db)];
  started_rest : registry db' = registry db ∧ now db' = now db ∧
    device_message_inbox db' = device_message_inbox db ∧
    device_group_members db' = device_group_members db;
}.

Definition enabled_for (device : Device) (input : DeviceLifecycleOperationInput) : Prop :=
  LI_AllowDisabled input = true ∨ Device_DisabledAt device = None.

Lemma start_refused device input :
  negb (LI_AllowDisabled input) && bool_decide (is_Some (Device_DisabledAt device)) = false ↔
  enabled_for device input.
Proof.
  unfold enabled_for. destruct (LI_AllowDisabled input), (Device_DisabledAt device); simpl; naive_solver.
Qed.

Lemma lifecycle_project device input input' db d' db' :
  device_in_org (Device_OrganizationID device) (Device_ID device) db = Some device →
  (if negb (bool_decide (LI_MetadataPatch input' = ∅))
      || bool_decide (LI_OperationType input' = DeviceOperationTypeProvision)
   then projectDeviceTx (Device_OrganizationID device) (Device_ID device)
          (lifecycle_projection input')
   else mret device) db = (Ok d', db') →
  enabled_for device input →
  d' = lifecycle_device device input' (now db) ∧
  db' = with_devices (<[Device_ID device := d']> (devices db)) db.
Proof.
  intros Hd H Hen. unfold lifecycle_device. destruct (_ || _).
  - apply projectDeviceTx_ok in H as (d & Hd' & H). simplify_eq.
    destruct H as [(Hp & -> & ->)|(Hp & -> & ->)]; [|done].
    exfalso. unfold projection in Hp. simpl in Hp.
    unfold stale_activity in Hp. simpl in Hp. destruct (refused_disabled _ _); [done|].
    by destruct (valid_device_status _).
  - unfold mret, M_ret in H. simplify_eq. split; [done|].
    apply device_in_org_some in Hd as [Hd _]. rewrite insert_id by done. by destruct db'.
Qed.

(** The input of the message and the projection, in a run that created the operation. *)
Lemma start_binding device bindGrant input db input' db' :
  (if true && bindGrant then bindProvisionServiceGrantTx device input else mret input) db
    = (Ok input', db') →
  db' = db ∧ final_input device bindGrant input
    (if true && bool_decide (LI_OperationType input' = DeviceOperationTypeProvision)
     then with_reservation device input' else input') db.
Proof.
  intros H. assert (db' = db ∧ LI_OperationType input' = LI_OperationType input) as [-> Hty].
  { destruct bindGrant; simpl in H.
    - by apply bindProvisionServiceGrantTx_frame in H as (-> & ? & ? & ->).
    - unfold mret, M_ret in H. by simplify_eq. }
  split; [done|]. exists input'. rewrite Hty. split; [|done].
  destruct bindGrant; [done|]. simpl in H. unfold mret, M_ret in H. by simplify_eq.
Qed.

Lemma startTx_created device input bindGrant db r db' :
  device_in_org (Device_OrganizationID device) (Device_ID device) db = Some device →
  device_operations db !! LI_OperationID input = None →
  startDeviceLifecycleOperationTx device input bindGrant db = (Ok r, db') →
  lifecycle_started device bindGrant input db r db'.
Proof.
  intros Hd Hfresh H. unfold startDeviceLifecycleOperationTx in H.
  apply bind_reject_ok in H as [Hr H].
  apply start_refused in Hr.
  apply bind_ok in H as ([o created] & s1 & Hop & H).
  rewrite createOrGetDeviceOperationTx_run, Hfresh in Hop.
  destruct (cloud_deletion_fenced _ _); [done|]. injection Hop as <- <- <-.
  fold (with_new_operation input db) in H.
  apply bind_ok in H as (bound & s2 & Hb & H). apply start_binding in Hb as [-> Hfin].
  match type of Hfin with final_input _ _ _ ?i _ => generalize dependent i end.
  clear bound. intros input' Hfin H.
  destruct (final_input_fields _ _ _ _ _ Hfin) as (outbox & patch & ->).
  apply bind_ok in H as (m & s3 & Hm & H). unfold createOutboxMessageTx in Hm.
  apply bind_gets_ok in Hm.
  apply insert_outbox_ok in Hm as (-> & Hok & Hmf & _ & ->).
  apply bind_ok in H as (d' & s4 & Hproj & H).
  apply (lifecycle_project device input) in Hproj as [Hd' ->]; [|exact Hd|exact Hr].
  apply bind_ok in H as (u & s5 & Hau & H). unfold mret, M_ret in H. injection H as <- <-.
  run_simpl. injection Hau as <- <-.
  assert (Device_ID d' = Device_ID device) as Hid.
  { subst d'. unfold lifecycle_device. by destruct (_ || _). }
  split; simpl; try done.
  - eauto.
  - unfold lifecycle_event. by rewrite Hid.
Qed.

Lemma startTx_existing device input bindGrant db o :
  device_operations db !! LI_OperationID input = Some o →
  startDeviceLifecycleOperationTx device input bindGrant db =
    if negb (LI_AllowDisabled input) && bool_decide (is_Some (Device_DisabledAt device))
    then (Err ErrDisabled, db)
    else if cloud_deletion_fenced (registry db) (LI_OrganizationID input)
    then (Err (ErrPg "cloud_deletion_fence"), db)
    else match compareOperationCreate o (lifecycle_create input)
                 (marshalJSONMap (LI_RequestPayload input)),
               latest Outbox_CreatedAt (messages_of (DeviceOperation_OperationID o) db) with
    | Err e, _ => (Err e, db)
    | Ok _, None => (Err ErrNotFound, db)
    | Ok _, Some m => (Ok (mkLifecycleResult device o m false), db)
    end.
Proof.
  intros Ho. unfold startDeviceLifecycleOperationTx, reject_if, mbind, M_bind.
  destruct (_ && _); [done|]. unfold mret, M_ret at 1.
  rewrite createOrGetDeviceOperationTx_run, Ho. destruct (cloud_deletion_fenced _ _); [done|].
  destruct (compareOperationCreate _ _ _) as [u|]; [|done]. simpl.
  unfold getLatestOutboxMessageByOperationTx, mbind, M_bind, gets, row_or, mret, M_ret, throw.
  by destruct (latest _ _).
Qed.

(** Every device row is stored under its id. *)
Definition devices_keyed (db : DB) : Prop := map_Forall (λ k d, Device_ID d = k) (devices db).

(** Every command belongs to an operation (the foreign key). *)
Definition outbox_fk (db : DB) : Prop :=
  map_Forall (λ _ m, is_Some (device_operations db !! Outbox_OperationID m))
    (device_message_outbox db).

Lemma getDeviceForUpdateTx_ok org id db d db' :
  getDeviceForUpdateTx org id db = (Ok d, db') → device_in_org org id db = Some d ∧ db' = db.
Proof.
  unfold getDeviceForUpdateTx. intros H. apply bind_gets_ok in H. by apply row_or_ok in H.
Qed.

Lemma StartDeviceLifecycleOperation_ok writes input db r db' :
  StartDeviceLifecycleOperation writes input db = (Ok r, db') ↔
  ∃ actor device, requester (LI_RequestedBy input) = Some actor ∧
    LI_OperationType input = DeviceOperationTypeProvision ∧
    authorized actor (LI_OrganizationID input) (LI_DeviceID input)
      "lifecycle_operation.provision" db = true ∧
    device_in_org (LI_OrganizationID input) (LI_DeviceID input) db = Some device ∧
    startDeviceLifecycleOperationTx device input writes db = (Ok r, db').
Proof.
  unfold StartDeviceLifecycleOperation. split.
  - intros H. apply bind_row_ok in H as (actor & Ha & H).
    apply bind_ok in H as (? & s & Hr & H). apply reject_if_ok in Hr as [Hr ->].
    rewrite negb_bool_decide_false in Hr. rewrite transaction_ok in H.
    apply bind_ok in H as (? & s & Hauth & H). rewrite authorize_run in Hauth.
    destruct (authorized _ _ _ _ _) eqn:E; [|done]. injection Hauth as _ <-.
    apply bind_ok in H as (device & s & Hd & H). apply getDeviceForUpdateTx_ok in Hd as [Hd ->].
    exists actor, device. done.
  - intros (actor & device & Ha & Hty & Hauth & Hd & H).
    unfold mbind, M_bind, row_or, reject_if, transaction, mret, M_ret. rewrite Ha.
    rewrite bool_decide_true by done. simpl. rewrite authorize_run, Hauth.
    unfold getDeviceForUpdateTx, mbind, M_bind, gets, row_or. rewrite Hd. unfold mret, M_ret.
    by rewrite H.
Qed.

Lemma startTx_created_flag device input bindGrant db r db' :
  device_in_org (Device_OrganizationID device) (Device_ID device) db = Some device →
  startDeviceLifecycleOperationTx device input bindGrant db = (Ok r, db') →
  LR_Created r = true ↔ device_operations db !! LI_OperationID input = None.
Proof.
  intros Hd H. destruct (device_operations db !! LI_OperationID input) as [o|] eqn:Ho.
  - split; [|done]. rewrite (startTx_existing _ _ _ _ o) in H by done.
    repeat (case_match; try done); simplify_eq; done.
  - split; [done|]. intros _. by eapply startTx_created in H as [].
Qed.

Lemma device_in_org_self org id db d :
  devices_keyed db → device_in_org org id db = Some d →
  device_in_org (Device_OrganizationID d) (Device_ID d) db = Some d ∧ Device_ID d = id ∧
  Device_OrganizationID d = org.
Proof.
  intros Hk Hd. pose proof Hd as Hd'. apply device_in_org_some in Hd' as [Hl Ho].
  rewrite Ho. rewrite (Hk _ _ Hl). done.
Qed.

Lemma startTx_guards device input bindGrant db r db' :
  startDeviceLifecycleOperationTx device input bindGrant db = (Ok r, db') →
  enabled_for device input ∧ cloud_deletion_fenced (registry db) (LI_OrganizationID input) = false.
Proof.
  unfold startDeviceLifecycleOperationTx. intros H.
  apply bind_reject_ok in H as [Hen H].
  split; [by apply start_refused|]. apply bind_ok in H as (? & ? & Hop & _).
  rewrite createOrGetDeviceOperationTx_run in Hop. by destruct (cloud_deletion_fenced _ _).
Qed.

Lemma requester_some requestedBy actor :
  requester requestedBy = Some actor → requestedBy = Some actor.
Proof. unfold requester. destruct requestedBy as [a|]; simpl; [|done]. by destruct (blank a). Qed.

(** C34: starting a provisioning for the first time creates, for an authorized requester and a
    device that accepts it, exactly one pending operation and one pending command on the video
    stream, keyed by the device and never attempted; the device's presence is reset, one audit
    event is appended, and no other row of any table changes. *)
Theorem provision_creates_one_command writes input db r db' :
  devices_keyed db →
  StartDeviceLifecycleOperation writes input db = (Ok r, db') → LR_Created r = true →
  ∃ actor device,
    LI_RequestedBy input = Some actor ∧
    authorized actor (LI_OrganizationID input) (LI_DeviceID input)
      "lifecycle_operation.provision" db = true ∧
    device_in_org (LI_OrganizationID input) (LI_DeviceID input) db = Some device ∧
    enabled_for device input ∧ lifecycle_started device writes input db r db' ∧
    DeviceOperation_Status (LR_Operation r) = DeviceOperationStatusPending ∧
    Outbox_Status (LR_Message r) = DeviceMessageOutboxStatusPending ∧
    Outbox_AttemptCount (LR_Message r) = 0 ∧
    Outbox_PartitionKey (LR_Message r) = LI_DeviceID input ∧
    Outbox_OperationID (LR_Message r) = LI_OperationID input ∧
    Outbox_CorrelationID (LR_Message r) = DeviceOperation_CorrelationID (LR_Operation r) ∧
    Device_Status (LR_Device r) = DeviceStatusUnknown ∧ Device_LastSeenAt (LR_Device r) = None.
Proof.
  intros Hk H Hc. apply StartDeviceLifecycleOperation_ok in H as (actor & d & Ha & Hty & Hau & Hd & H).
  destruct (device_in_org_self _ _ _ _ Hk Hd) as (Hself & Hid & Horg).
  pose proof (proj1 (startTx_created_flag _ _ _ _ _ _ Hself H) Hc) as Hfresh.
  destruct (startTx_guards _ _ _ _ _ _ H) as [Hen _].
  pose proof (startTx_created _ _ _ _ _ _ Hself Hfresh H) as Hs.
  exists actor, d. apply requester_some in Ha.
  destruct (started_message _ _ _ _ _ _ Hs) as (i & Hf & Hm & Hdev).
  apply final_input_fields in Hf as (outbox & patch & ->).
  rewrite Hm, Hdev, (started_operation _ _ _ _ _ _ Hs).
  unfold lifecycle_device, lifecycle_projection. simpl. rewrite Hty.
  rewrite (bool_decide_true (DeviceOperationTypeProvision = _)) by done.
  rewrite orb_true_r. split_and!; done.
Qed.

(** The messages of an operation that is not there yet, once it has its first one. *)
Lemma messages_of_fresh op id m (db db' : DB) :
  outbox_fk db → device_operations db !! op = None → Outbox_OperationID m = op →
  device_message_outbox db !! id = None →
  device_message_outbox db' = <[id := m]> (device_message_outbox db) →
  messages_of op db' ≡ₚ [m].
Proof.
  intros Hfk Hop Hm Hid Heq. unfold messages_of. rewrite Heq.
  rewrite (map_to_list_insert _ _ _ Hid), fmap_cons, filter_cons, decide_True by done.
  apply Permutation_skip.
  destruct (filter _ _) as [|x l] eqn:E; [done|]. exfalso.
  assert (x ∈ filter (λ m, Outbox_OperationID m = op)
    (map_to_list (device_message_outbox db)).*2) as Hx by (rewrite E; left).
  apply list_elem_of_filter in Hx as [Hxo Hx].
  apply list_elem_of_fmap in Hx as ([k x'] & -> & Hx%elem_of_map_to_list). simpl in *.
  apply Hfk in Hx as [? Hx]. congruence.
Qed.

Lemma latest_single {A} (created : A → Time) rows x : rows ≡ₚ [x] → latest created rows = Some x.
Proof. intros H. apply Permutation_singleton_r in H. by subst. Qed.

(** A started operation, asked for again. *)
Lemma startTx_replay device bindGrant input db r db' t :
  outbox_fk db → enabled_for device input →
  cloud_deletion_fenced (registry db) (LI_OrganizationID input) = false →
  lifecycle_started device bindGrant input db r db' →
  startDeviceLifecycleOperationTx (LR_Device r) input bindGrant (with_now t db') =
    (Ok (mkLifecycleResult (LR_Device r) (LR_Operation r) (LR_Message r) false), with_now t db').
Proof.
  intros Hfk Hen Hf Hs.
  destruct (started_message _ _ _ _ _ _ Hs) as (i & Hfin & Hm & Hdev).
  apply final_input_fields in Hfin as (outbox & patch & ->).
  assert (Device_DisabledAt (LR_Device r) = Device_DisabledAt device) as Hrd.
  { rewrite Hdev. unfold lifecycle_device. by destruct (_ || _). }
  destruct (started_rest _ _ _ _ _ _ Hs) as (Hreg & _ & _ & _).
  rewrite (startTx_existing _ _ _ _ (LR_Operation r));
    [|simpl; rewrite (started_operations _ _ _ _ _ _ Hs); apply lookup_insert_eq].
  apply start_refused in Hen. simpl. rewrite Hrd, Hen, Hreg, Hf, (started_operation _ _ _ _ _ _ Hs).
  destruct (compareOperationCreate_run (operation_row_of (lifecycle_create input) db)
    (lifecycle_create input)) as [[Hcmp _]|[_ []]];
    [|by unfold same_operation; simpl; rewrite marshalJSONMap_idemp].
  simpl in Hcmp. rewrite Hcmp. unfold messages_of. simpl.
  rewrite (latest_single _ _ (LR_Message r)); [done|].
  apply (messages_of_fresh _ (LI_MessageID input) _ db db'); try done; try apply Hs.
  by rewrite Hm, (started_operation _ _ _ _ _ _ Hs).
Qed.

Lemma started_device device bindGrant input db r db' :
  lifecycle_started device bindGrant input db r db' →
  device_in_org (Device_OrganizationID device) (Device_ID device) db' = Some (LR_Device r).
Proof.
  intros Hs. destruct (started_message _ _ _ _ _ _ Hs) as (i & _ & _ & Hdev).
  apply device_in_org_some. rewrite (started_devices _ _ _ _ _ _ Hs), lookup_insert_eq.
  split; [done|]. rewrite Hdev. unfold lifecycle_device. by destruct (_ || _).
Qed.

(** Repeating a provisioning request is safe: as long as the requester is still authorized,
    a second call with the same request, at any later time, answers with the operation and the
    command the first one stored, reports that nothing was created, and changes nothing. *)
Theorem provision_start_idempotent writes input db r db' t :
  devices_keyed db → outbox_fk db →
  StartDeviceLifecycleOperation writes input db = (Ok r, db') →
  (∀ actor, LI_RequestedBy input = Some actor →
    authorized actor (LI_OrganizationID input) (LI_DeviceID input)
      "lifecycle_operation.provision" (with_now t db') = true) →
  StartDeviceLifecycleOperation writes input (with_now t db') =
    (Ok (mkLifecycleResult (LR_Device r) (LR_Operation r) (LR_Message r) false), with_now t db').
Proof.
  intros Hk Hfk H Hau'.
  apply StartDeviceLifecycleOperation_ok in H as (actor & d & Ha & Hty & Hau & Hd & H).
  destruct (device_in_org_self _ _ _ _ Hk Hd) as (Hself & Hid & Horg).
  destruct (startTx_guards _ _ _ _ _ _ H) as [Hen Hf].
  apply StartDeviceLifecycleOperation_ok. exists actor, (LR_Device r).
  do 2 (split; [done|]). split; [by apply Hau', requester_some|].
  destruct (device_operations db !! LI_OperationID input) as [o|] eqn:Ho.
  - rewrite (startTx_existing _ _ _ _ o) in H by done. apply start_refused in Hen.
    rewrite Hen, Hf in H. destruct (compareOperationCreate _ _ _) as [u|] eqn:Hc; [|done].
    destruct (latest _ _) as [m|] eqn:Hl; [|done]. injection H as <- <-. split; [done|].
    rewrite (startTx_existing _ _ _ _ o) by done. simpl.
    rewrite Hen, Hf, Hc. unfold messages_of in *. simpl. by rewrite Hl.
  - apply startTx_created in H as Hs; [|done|done]. split.
    + rewrite <-Horg, <-Hid. apply (started_device _ _ _ _ _ _ Hs).
    + by apply (startTx_replay d _ _ db).
Qed.

(** ** The theorems at work on a small store *)

Definition sample_provision_input : DeviceLifecycleOperationInput :=
  mkLifecycleInput "op-2" "op-2" "msg-2" sample_org sample_uuid DeviceOperationTypeProvision
    (Some "user-1") (map_literal [("video_cloud_devid", AString "devid-1")])
    MessageTypeDeviceProvisionRequested sample_command_payload
    (PendingProvisionMetadata "devid-1" "act-1" "key-1" ["mqtt"]) false sample_time.

(** A product with one grant, and the device in it. *)
Definition sample_grant : ProductServiceGrant :=
  mkGrant "product-1" 3 sample_org (strings_value ["mqtt"]) (ASlice []) sample_digest (Some 30).
Definition sample_grant_db : DB :=
  with_registry
    (mkRegistry (users sample_registry) (organizations sample_registry)
       (organization_members sample_registry) (roles sample_registry)
       (role_assignments sample_registry) {["product-1" := sample_profile]} [] [] [] [sample_grant]
       ∅ ∅ [])
    sample_db.

Lemma sample_devices_keyed : devices_keyed sample_db.
Proof. by apply map_Forall_singleton. Qed.
Lemma sample_outbox_fk : outbox_fk sample_db.
Proof. apply map_Forall_empty. Qed.

Lemma bound_grant_is_trusted_witness :
  ∃ input' db', bindProvisionServiceGrantTx sample_product_device sample_provision_input
      sample_grant_db = (Ok input', db') ∧ db' = sample_grant_db.
Proof.
  destruct (run_succeeds (bindProvisionServiceGrantTx sample_product_device sample_provision_input)
    sample_grant_db) as (input' & db' & E); [vm_compute; reflexivity|].
  exists input', db'. split; [exact E|].
  apply bound_grant_is_trusted in E as (product & grant & approved & H & _). exact H.
Defined.

Lemma provision_creates_one_command_witness :
  ∃ r db', StartDeviceLifecycleOperation false sample_provision_input sample_db = (Ok r, db') ∧
    Outbox_Status (LR_Message r) = DeviceMessageOutboxStatusPending ∧
    Outbox_PartitionKey (LR_Message r) = sample_uuid.
Proof.
  destruct (run_check (λ r _, LR_Created r) (StartDeviceLifecycleOperation false
    sample_provision_input) sample_db) as (r & db' & E & Hc); [vm_compute; reflexivity|].
  exists r, db'. split; [exact E|].
  destruct (provision_creates_one_command _ _ _ _ _ sample_devices_keyed E)
    as (actor & device & _ & _ & _ & _ & _ & _ & Hs & _ & Hp & _).
  - exact Hc.
  - split; assumption.
Defined.

Lemma provision_start_idempotent_witness :
  ∃ r db', StartDeviceLifecycleOperation false sample_provision_input sample_db = (Ok r, db') ∧
    StartDeviceLifecycleOperation false sample_provision_input (with_now sample_time db') =
      (Ok (mkLifecycleResult (LR_Device r) (LR_Operation r) (LR_Message r) false),
       with_now sample_time db').
Proof.
  destruct (run_check (λ _ db', authorized "user-1" sample_org sample_uuid
      "lifecycle_operation.provision" (with_now sample_time db'))
    (StartDeviceLifecycleOperation false sample_provision_input) sample_db)
    as (r & db' & E & Ha); [vm_compute; reflexivity|].
  exists r, db'. split; [exact E|].
  apply (provision_start_idempotent _ _ _ _ _ _ sample_devices_keyed sample_outbox_fk E).
  intros actor [= <-]. exact Ha.
Defined.
