(* ===== verification/Unprovision.v ===== *)
(** * store/device_unprovision.go: releasing a device

    One transaction authorizes the actor (a member of the cloud, or a platform
    administrator with evidence), queues the unprovision command under the
    device's fixed operation id, audits, and deletes the device.  The theorems:
    what a successful call leaves behind, and what a platform override needs. *)

From S2P Require Export DeviceLifecycle.

Local Open Scope Z_scope.

Record DeviceUnprovisionInput := mkUnprovision {
  UI_OrganizationID : string;
  UI_DeviceID : string;
  UI_ActorUserID : string;
  UI_Reason : string;
  UI_Evidence : jsonmap;
  UI_PlatformOverride : bool;
  UI_Now : Time;
}.

Record DeviceUnprovisionResult := mkUnprovisionResult {
  URes_DeviceID : string;
  URes_OrganizationID : string;
  URes_VideoCloudDevid : string;
  URes_ClaimTokenID : option string;
  URes_ClaimID : option string;
  URes_UnprovisionedAt : Time;
  URes_PlatformOverride : bool;
  URes_Operation : DeviceOperation;
  URes_Message : DeviceMessageOutbox;
}.

Definition DeviceStatus_text (s : DeviceStatus) : string :=
  match s with
  | DeviceStatusUnknown => "unknown"
  | DeviceStatusOnline => "online"
  | DeviceStatusOffline => "offline"
  | DeviceStatusDisabled => "disabled"
  | DeviceStatusOther text => text
  end.

Definition lockPlatformActorTx (actor : string) : Store unit :=
  db ← gets (λ db, db);
  admin ← row_or ErrNotFound
    (u ← users (registry db) !! actor; if live_user u then Some (User_PlatformAdmin u) else None);
  reject_if (negb admin) ErrNotFound.

Definition lockOperationalCloudTx (cloud : string) : Store unit :=
  db ← gets (λ db, db);
  let r := registry db in
  organization ← row_or ErrNotFound
    (o ← organizations r !! cloud;
     if bool_decide (Organization_DeletedAt o = None) then Some o else None);
  reject_if (bool_decide (Organization_Kind organization = OrganizationKindBrandCloud) &&
    negb (existsb (λ m, user_can_access_brand_cloud r (Member_UserID m) cloud) (owners r cloud)))
    ErrNotFound.

(** The device's organization is looked up by device id alone. *)
Definition authorizePlatformDeviceUnprovisionTx (actor device : string) : Store string :=
  lockPlatformActorTx actor ;;
  db ← gets (λ db, db);
  cloud ← row_or ErrNotFound (Device_OrganizationID <$> devices db !! device);
  lockOperationalCloudTx cloud ;;
  mret cloud.

Definition getResolvedClaimByDeviceForUpdateTx (deviceID : string) : Store DeviceClaim :=
  db ← gets (λ db, db);
  row_or ErrNotProvisioned (latest DeviceClaim_CreatedAt
    (filter (λ c, DeviceClaim_DeviceID c = deviceID ∧ DeviceClaim_Status c = "resolved")
      (claim_row <$> rows_of (device_claims (registry db))))).

Definition unprovision_lifecycle (device : Device) (input : DeviceUnprovisionInput)
    (videoCloudDevid reason : string) (unprovisionedAt : Time) : DeviceLifecycleOperationInput :=
  let operationID := "unprovision-" +:+ Device_ID device in
  mkLifecycleInput operationID operationID ("unprovision-message-" +:+ Device_ID device)
    (Device_OrganizationID device) (Device_ID device) DeviceOperationTypeUnprovision
    (Some (UI_ActorUserID input))
    (map_literal
      [("video_cloud_devid", AString videoCloudDevid); ("reason", AString reason);
       ("platform_override", ABool (UI_PlatformOverride input));
       ("unprovisioned_at", ATime unprovisionedAt)])
    MessageTypeDeviceUnprovisionRequested
    (map_literal
      [("org_id", AString (Device_OrganizationID device));
       ("account_device_id", AString (Device_ID device));
       ("video_cloud_devid", AString videoCloudDevid);
       ("requested_by", AString (UI_ActorUserID input)); ("reason", AString reason);
       ("platform_override", ABool (UI_PlatformOverride input));
       ("unprovisioned_at", ATime unprovisionedAt)])
    ∅ true unprovisionedAt.

Definition unprovision_audit (device : Device) (claim : DeviceClaim)
    (input : DeviceUnprovisionInput) (videoCloudDevid reason : string) (unprovisionedAt : Time)
    : jsonmap :=
  map_literal
    [("device_id", AString (Device_ID device));
     ("organization_id", AString (Device_OrganizationID device));
     ("claim_id", AString (DeviceClaim_ID claim));
     ("claim_token_id", AString (DeviceClaim_TokenID claim));
     ("claimed_by", AString (DeviceClaim_ClaimedBy claim));
     ("video_cloud_devid", AString videoCloudDevid);
     ("device_category", AString (DeviceCategory_text (Device_Category device)));
     ("previous_device_status", AString (DeviceStatus_text (Device_Status device)));
     ("reason", AString reason);
     ("evidence", AMap (members (UI_Evidence input)));
     ("platform_override", ABool (UI_PlatformOverride input));
     ("unprovisioned_at", ATime unprovisionedAt)].

(** DELETE FROM devices; the memberships of the device go with it. *)
Definition delete_device (org id : string) : Store unit :=
  db ← gets (λ db, db);
  reject_if (bool_decide (device_in_org org id db = None)) ErrNotFound ;;
  modify (λ db, with_groups (filter (λ gd, gd.2 ≠ id) (device_group_members db))
    (with_devices (delete id (devices db)) db)).

(** [clock] is [time.Now()], read only when the input has no time. *)
Definition unprovisionDeviceTx (clock : Time) (input : DeviceUnprovisionInput)
    : Store DeviceUnprovisionResult :=
  org ← (if UI_PlatformOverride input
         then authorizePlatformDeviceUnprovisionTx (UI_ActorUserID input) (UI_DeviceID input)
         else authorizeDeviceUserMutationTx (UI_ActorUserID input) (UI_OrganizationID input)
                (UI_DeviceID input) "device.unprovision" ;;
              mret (UI_OrganizationID input));
  let now := if IsZero (UI_Now input) then UTC clock else UI_Now input in
  let reason := if blank (UI_Reason input) then "user_unprovision"
                else TrimSpace (UI_Reason input) in
  device ← getDeviceForUpdateTx org (UI_DeviceID input);
  reject_if (bool_decide (is_Some (Device_DisabledAt device))) ErrDisabled ;;
  videoCloudDevid ← row_or ErrNotProvisioned
    (lifecycleMetadataString (Device_Metadata device) DeviceMetadataVideoCloudDevid);
  claim ← getResolvedClaimByDeviceForUpdateTx (Device_ID device);
  let lifecycleInput := unprovision_lifecycle device input videoCloudDevid reason now in
  '(operation, created) ← createOrGetDeviceOperationTx lifecycleInput;
  message ← (if created : bool then createOutboxMessageTx operation lifecycleInput
             else getLatestOutboxMessageByOperationTx (DeviceOperation_OperationID operation));
  create_audit_event "device_unprovisioned" (Some (UI_ActorUserID input))
    (Some (Device_OrganizationID device)) "device" (Device_ID device)
    (unprovision_audit device claim input videoCloudDevid reason now) ;;
  delete_device (Device_OrganizationID device) (Device_ID device) ;;
  mret (mkUnprovisionResult (Device_ID device) (Device_OrganizationID device) videoCloudDevid
    (Some (DeviceClaim_TokenID claim)) (Some (DeviceClaim_ID claim)) now
    (UI_PlatformOverride input) operation message).

Definition UnprovisionDevice (clock : Time) (input : DeviceUnprovisionInput)
    : Store DeviceUnprovisionResult :=
  reject_if (blank (UI_ActorUserID input)) ErrNotFound ;;
  reject_if (UI_PlatformOverride input &&
    (blank (UI_Reason input) || bool_decide (UI_Evidence input = ∅))) ErrClaimEvidenceRequired ;;
  transaction (unprovisionDeviceTx clock input).

(** ** Lemmas *)

Lemma delete_device_ok org id db u db' :
  delete_device org id db = (Ok u, db') →
  is_Some (device_in_org org id db) ∧
  db' = with_groups (filter (λ gd, gd.2 ≠ id) (device_group_members db))
          (with_devices (delete id (devices db)) db).
Proof.
  unfold delete_device. intros H. apply bind_gets_ok in H.
  apply bind_reject_ok in H as [Hr H].
  unfold modify in H. injection H as <- <-. split; [|done].
  apply bool_decide_eq_false in Hr. by apply not_eq_None_Some.
Qed.

Lemma lockOperationalCloudTx_ok cloud db u db' :
  lockOperationalCloudTx cloud db = (Ok u, db') →
  db' = db ∧ (brand_cloud (registry db) cloud →
    ∃ m, m ∈ owners (registry db) cloud ∧
      user_can_access_brand_cloud (registry db) (Member_UserID m) cloud = true).
Proof.
  unfold lockOperationalCloudTx. intros H. apply bind_gets_ok in H.
  apply bind_row_ok in H as (o & Hr & H).
  apply reject_if_ok in H as [H ->]. split; [done|]. intros (o' & Ho & Hk).
  rewrite Ho in Hr. simpl in Hr.
  destruct (bool_decide (Organization_DeletedAt o' = None)); simplify_eq. rewrite Hk in H. simpl in H.
  apply negb_false_iff, existsb_true in H. done.
Qed.

(** What a platform override has established. *)
Record platform_authorized (actor device cloud : string) (db : DB) : Prop := {
  pa_admin : ∃ u, users (registry db) !! actor = Some u ∧ live_user u = true ∧
    User_PlatformAdmin u = true;
  pa_device : Device_OrganizationID <$> devices db !! device = Some cloud;
  pa_owner : brand_cloud (registry db) cloud →
    ∃ m, m ∈ owners (registry db) cloud ∧
      user_can_access_brand_cloud (registry db) (Member_UserID m) cloud = true;
}.

Lemma authorizePlatformDeviceUnprovisionTx_ok actor device db cloud db' :
  authorizePlatformDeviceUnprovisionTx actor device db = (Ok cloud, db') →
  db' = db ∧ platform_authorized actor device cloud db.
Proof.
  unfold authorizePlatformDeviceUnprovisionTx, lockPlatformActorTx. intros H.
  apply bind_ok in H as (? & s & Ha & H).
  apply bind_gets_ok in Ha.
  apply bind_row_ok in Ha as (admin & Hu & Ha).
  apply reject_if_ok in Ha as [Ha ->]. apply negb_false_iff in Ha as ->.
  apply bind_gets_ok in H.
  apply bind_row_ok in H as (c & Hd & H).
  apply bind_ok in H as (? & ? & Hc & H). apply lockOperationalCloudTx_ok in Hc as [-> Hc].
  unfold mret, M_ret in H. injection H as <- <-. split; [done|]. split; [|done|done].
  destruct (users (registry db) !! actor) as [u|]; [|done]. simpl in Hu.
  exists u. by destruct (live_user u) eqn:E; simplify_eq.
Qed.

(** The operation and command of an unprovision, new or as stored. *)
Definition unprovision_queued (input : DeviceLifecycleOperationInput) (o : DeviceOperation)
    (m : DeviceMessageOutbox) (db db1 : DB) : Prop :=
  match device_operations db !! LI_OperationID input with
  | Some o' => o = o' ∧ same_operation o (lifecycle_create input) ∧ db1 = db ∧
      latest Outbox_CreatedAt (messages_of (DeviceOperation_OperationID o) db) = Some m
  | None => o = operation_row_of (lifecycle_create input) db ∧
      m = lifecycle_message o input (with_new_operation input db) ∧ outbox_row_ok m ∧
      db1 = use_uuid (with_outbox (<[LI_MessageID input := m]> (device_message_outbox db))
        (with_new_operation input db))
  end.

Lemma queue_ok input db o m created s db1 :
  createOrGetDeviceOperationTx input db = (Ok (o, created), s) →
  (if created : bool then createOutboxMessageTx o input
   else getLatestOutboxMessageByOperationTx (DeviceOperation_OperationID o)) s = (Ok m, db1) →
  unprovision_queued input o m db db1.
Proof.
  rewrite createOrGetDeviceOperationTx_run. unfold unprovision_queued. intros Ho Hm.
  destruct (cloud_deletion_fenced _ _); [done|].
  destruct (device_operations db !! _) as [o'|] eqn:Hfound.
  - destruct (compareOperationCreate_run o' (lifecycle_create input)) as [[Hc Hs]|[Hc _]];
      simpl in Hc; rewrite Hc in Ho; [|done]. injection Ho as <- <- <-.
    unfold getLatestOutboxMessageByOperationTx in Hm.
    apply bind_gets_ok in Hm.
    by apply row_or_ok in Hm as [? ->].
  - injection Ho as <- <- <-. unfold createOutboxMessageTx in Hm.
    apply bind_gets_ok in Hm.
    by apply insert_outbox_ok in Hm as (-> & ? & _ & _ & ->).
Qed.

Definition unprovision_time (clock : Time) (input : DeviceUnprovisionInput) : Time :=
  if IsZero (UI_Now input) then UTC clock else UI_Now input.
Definition unprovision_reason (input : DeviceUnprovisionInput) : string :=
  if blank (UI_Reason input) then "user_unprovision" else TrimSpace (UI_Reason input).

(** Who was let through, and for which organization. *)
Definition unprovision_authority (input : DeviceUnprovisionInput) (org : string) (db : DB) : Prop :=
  if UI_PlatformOverride input
  then platform_authorized (UI_ActorUserID input) (UI_DeviceID input) org db
  else org = UI_OrganizationID input ∧
    authorized (UI_ActorUserID input) org (UI_DeviceID input) "device.unprovision" db = true.

Lemma unprovision_authority_ok input db org db' :
  (if UI_PlatformOverride input
   then authorizePlatformDeviceUnprovisionTx (UI_ActorUserID input) (UI_DeviceID input)
   else authorizeDeviceUserMutationTx (UI_ActorUserID input) (UI_OrganizationID input)
          (UI_DeviceID input) "device.unprovision" ;;
        mret (UI_OrganizationID input)) db = (Ok org, db') →
  db' = db ∧ unprovision_authority input org db.
Proof.
  unfold unprovision_authority. destruct (UI_PlatformOverride input).
  - apply authorizePlatformDeviceUnprovisionTx_ok.
  - intros H. apply bind_ok in H as (? & s & Ha & H). rewrite authorize_run in Ha.
    destruct (authorized _ _ _ _ _) eqn:E; [|done]. injection Ha as _ <-.
    unfold mret, M_ret in H. by injection H as <- <-.
Qed.

(** The run of a successful transaction. *)
Record unprovisioned (clock : Time) (input : DeviceUnprovisionInput) (db : DB)
    (r : DeviceUnprovisionResult) (db' : DB) (device : Device) (claim : DeviceClaim)
    (devid : string) (db1 : DB) : Prop := {
  un_authority : unprovision_authority input (URes_OrganizationID r) db;
  un_device : device_in_org (URes_OrganizationID r) (UI_DeviceID input) db = Some device;
  un_enabled : Device_DisabledAt device = None;
  un_devid : lifecycleMetadataString (Device_Metadata device) DeviceMetadataVideoCloudDevid = Some devid;
  un_claim : latest DeviceClaim_CreatedAt
    (filter (λ c, DeviceClaim_DeviceID c = Device_ID device ∧ DeviceClaim_Status c = "resolved")
      (claim_row <$> rows_of (device_claims (registry db)))) = Some claim;
  un_queued : unprovision_queued
    (unprovision_lifecycle device input devid (unprovision_reason input) (unprovision_time clock input))
    (URes_Operation r) (URes_Message r) db db1;
  un_result : r = mkUnprovisionResult (Device_ID device) (Device_OrganizationID device) devid
    (Some (DeviceClaim_TokenID claim)) (Some (DeviceClaim_ID claim)) (unprovision_time clock input)
    (UI_PlatformOverride input) (URes_Operation r) (URes_Message r);
  un_state : db' = with_groups
    (filter (λ gd, gd.2 ≠ Device_ID device) (device_group_members db1))
    (with_devices (delete (Device_ID device) (devices db1))
      (with_audit (audit_events db1 ++ [mkAuditEvent "device_unprovisioned"
         (Some (UI_ActorUserID input)) (Some (Device_OrganizationID device)) "device"
         (Device_ID device)
         (marshalJSONMap (unprovision_audit device claim input devid (unprovision_reason input)
            (unprovision_time clock input))) (now db1)]) db1));
}.

Lemma unprovisionDeviceTx_ok clock input db r db' :
  unprovisionDeviceTx clock input db = (Ok r, db') →
  ∃ device claim devid db1, unprovisioned clock input db r db' device claim devid db1.
Proof.
  unfold unprovisionDeviceTx. intros H. fold (unprovision_time clock input) in H.
  fold (unprovision_reason input) in H.
  apply bind_ok in H as (org & s & Ha & H). apply unprovision_authority_ok in Ha as [-> Hauth].
  apply bind_ok in H as (device & s & Hd & H). apply getDeviceForUpdateTx_ok in Hd as [Hd ->].
  assert (Device_OrganizationID device = org) as Horg by by apply device_in_org_some in Hd as [_ ?].
  apply bind_ok in H as (? & s & Hr & H). apply reject_if_ok in Hr as [Hr ->].
  apply bind_row_ok in H as (devid & Hv & H).
  apply bind_ok in H as (claim & s & Hc & H). unfold getResolvedClaimByDeviceForUpdateTx in Hc.
  apply bind_gets_ok in Hc.
  apply row_or_ok in Hc as [Hc ->].
  apply bind_ok in H as ([o created] & s & Ho & H).
  apply bind_ok in H as (m & db1 & Hm & H). pose proof (queue_ok _ _ _ _ _ _ _ Ho Hm) as Hq.
  apply bind_ok in H as (? & s2 & Hau & H). unfold create_audit_event in Hau.
  apply bind_gets_ok in Hau.
  unfold insert_audit_event, modify in Hau. injection Hau as _ <-.
  apply bind_ok in H as (? & s3 & Hdel & H). apply delete_device_ok in Hdel as [_ ->].
  unfold mret, M_ret in H. injection H as <- <-.
  exists device, claim, devid, db1. split; simpl; try done.
  - by rewrite Horg.
  - by rewrite Horg.
  - destruct (Device_DisabledAt device); [|done]. by rewrite bool_decide_true in Hr.
Qed.

Lemma UnprovisionDevice_ok clock input db r db' :
  UnprovisionDevice clock input db = (Ok r, db') →
  (UI_PlatformOverride input = true → blank (UI_Reason input) = false ∧ UI_Evidence input ≠ ∅) ∧
  ∃ device claim devid db1, unprovisioned clock input db r db' device claim devid db1.
Proof.
  unfold UnprovisionDevice. intros H.
  apply bind_reject_ok in H as [_ H].
  apply bind_reject_ok in H as [Hr H].
  rewrite transaction_ok in H. apply unprovisionDeviceTx_ok in H. split; [|done].
  intros Hp. rewrite Hp in Hr. simpl in Hr. by destruct_bools.
Qed.

(** A device is unprovisioned only by someone entitled to: without override the actor is
    authorized for [device.unprovision] on this very device, with override it is a live platform
    administrator who gave a reason and evidence, the device's cloud has an owner in good
    standing, and the device is enabled, mapped to the video cloud and claimed. *)
Theorem unprovision_needs_authority clock input db r db' :
  UnprovisionDevice clock input db = (Ok r, db') →
  unprovision_authority input (URes_OrganizationID r) db ∧
  (UI_PlatformOverride input = true →
     blank (UI_Reason input) = false ∧ UI_Evidence input ≠ ∅ ∧
     (brand_cloud (registry db) (URes_OrganizationID r) →
        ∃ owner, Member_Role owner = RoleOwner ∧
          cloud_open (registry db) (Member_UserID owner) (URes_OrganizationID r))) ∧
  ∃ device claim,
    device_in_org (URes_OrganizationID r) (UI_DeviceID input) db = Some device ∧
    Device_DisabledAt device = None ∧
    metadata_string (Device_Metadata device) DeviceMetadataVideoCloudDevid ≠ "" ∧
    claim ∈ claim_row <$> rows_of (device_claims (registry db)) ∧
    DeviceClaim_DeviceID claim = Device_ID device ∧ DeviceClaim_Status claim = "resolved".
Proof.
  intros H. apply UnprovisionDevice_ok in H as (Hover & device & claim & devid & db1 & Hu).
  pose proof (un_authority _ _ _ _ _ _ _ _ _ Hu) as Hauth. split; [done|]. split.
  - intros Hp. destruct (Hover Hp) as [? ?]. split_and!; try done. intros Hb.
    unfold unprovision_authority in Hauth. rewrite Hp in Hauth.
    destruct (pa_owner _ _ _ _ Hauth Hb) as (m & Hm & Hacc). exists m.
    apply list_elem_of_filter in Hm as [[_ ?] _]. split; [done|].
    by apply user_can_access_brand_cloud_open.
  - exists device, claim. split_and!; try by apply Hu.
    + pose proof (un_devid _ _ _ _ _ _ _ _ _ Hu) as Hv. unfold lifecycleMetadataString in Hv.
      unfold metadata_string.
      destruct (Device_Metadata device !! _) as [[]|]; try done. intros ->. done.
    + pose proof (latest_in _ _ _ (un_claim _ _ _ _ _ _ _ _ _ Hu)) as Hc.
      by apply list_elem_of_filter in Hc as [_ ?].
    + pose proof (latest_in _ _ _ (un_claim _ _ _ _ _ _ _ _ _ Hu)) as Hc.
      by apply list_elem_of_filter in Hc as [[? _] _].
    + pose proof (latest_in _ _ _ (un_claim _ _ _ _ _ _ _ _ _ Hu)) as Hc.
      by apply list_elem_of_filter in Hc as [[_ ?] _].
Qed.

Lemma unprovision_queued_tables input o m db db1 :
  operations_keyed db → outbox_keyed db → unprovision_queued input o m db db1 →
  device_operations db1 !! LI_OperationID input = Some o ∧
  DeviceOperation_OperationType o = LI_OperationType input ∧
  Outbox_OperationID m = LI_OperationID input ∧
  device_message_outbox db1 !! Outbox_MessageID m = Some m ∧
  devices db1 = devices db ∧ device_group_members db1 = device_group_members db ∧
  audit_events db1 = audit_events db ∧ registry db1 = registry db.
Proof.
  intros Hok Hkey. unfold unprovision_queued.
  destruct (device_operations db !! _) as [o'|] eqn:Ho.
  - intros (-> & (_ & _ & _ & Hty & _) & -> & Hl).
    pose proof (latest_in _ _ _ Hl) as Hm. apply list_elem_of_filter in Hm as [Hmo Hm].
    apply list_elem_of_fmap in Hm as ([k m'] & -> & Hm%elem_of_map_to_list). simpl in *.
    rewrite (Hkey _ _ Hm). split_and!; try done. by rewrite Hmo, (Hok _ _ Ho).
  - intros (-> & -> & _ & ->). simpl. rewrite !lookup_insert_eq. done.
Qed.

(** Unprovisioning releases the device: exactly this row leaves [devices], its group
    memberships are gone, the command is in the outbox under the device's own operation, which
    exists and is an unprovision, and the event that records it ends the audit log. *)
Theorem unprovision_releases_device clock input db r db' :
  devices_keyed db → operations_keyed db → outbox_keyed db →
  UnprovisionDevice clock input db = (Ok r, db') →
  URes_DeviceID r = UI_DeviceID input ∧
  devices db' = delete (UI_DeviceID input) (devices db) ∧
  is_Some (devices db !! UI_DeviceID input) ∧
  device_group_members db' = filter (λ gd, gd.2 ≠ UI_DeviceID input) (device_group_members db) ∧
  device_operations db' !! ("unprovision-" +:+ UI_DeviceID input) = Some (URes_Operation r) ∧
  DeviceOperation_OperationType (URes_Operation r) = DeviceOperationTypeUnprovision ∧
  device_message_outbox db' !! Outbox_MessageID (URes_Message r) = Some (URes_Message r) ∧
  Outbox_OperationID (URes_Message r) = "unprovision-" +:+ UI_DeviceID input ∧
  (∃ e, audit_events db' = audit_events db ++ [e] ∧
    AuditEvent_EventType e = "device_unprovisioned" ∧ AuditEvent_SubjectID e = UI_DeviceID input ∧
    AuditEvent_ActorUserID e = Some (UI_ActorUserID input)).
Proof.
  intros Hk Hok Hob H. apply UnprovisionDevice_ok in H as (_ & device & claim & devid & db1 & Hu).
  destruct (device_in_org_self _ _ _ _ Hk (un_device _ _ _ _ _ _ _ _ _ Hu)) as (_ & Hid & _).
  destruct (unprovision_queued_tables _ _ _ _ _ Hok Hob (un_queued _ _ _ _ _ _ _ _ _ Hu))
    as (Ho & Hty & Hmo & Hm & Hdev & Hgr & Hau & _). simpl in *. rewrite Hid in *.
  rewrite (un_state _ _ _ _ _ _ _ _ _ Hu). simpl. rewrite Hid, Hdev, Hgr, Hau.
  split_and!; try done.
  - rewrite (un_result _ _ _ _ _ _ _ _ _ Hu). done.
  - pose proof (un_device _ _ _ _ _ _ _ _ _ Hu) as Hd. apply device_in_org_some in Hd as [-> _]. done.
  - eexists. split; [done|]. done.
Qed.

(** ** The theorems at work on a small store *)

Definition sample_token : TokenRow :=
  mkTokenRow (mkClaimToken "token-1" None None None "ip_camera" "devid-1" "act-1" "key-1" ["mqtt"] ∅
    None (Add sample_time Hour) (Some sample_time) None sample_time sample_time) "hash-1".
Definition sample_claim : ClaimRow :=
  mkClaimRow (mkDeviceClaim "claim-1" "token-1" sample_org sample_uuid "user-1" "resolved" ∅
    sample_time sample_time) None None ∅ None.
Definition sample_claimed_db : DB :=
  with_claims {["token-1" := sample_token]} {["claim-1" := sample_claim]}
    (with_groups [("group-1", sample_uuid)] sample_db).
Definition sample_unprovision : DeviceUnprovisionInput :=
  mkUnprovision sample_org sample_uuid "user-1" "moving out" ∅ false sample_time.

Lemma unprovision_needs_authority_witness :
  ∃ r db', UnprovisionDevice sample_time sample_unprovision sample_claimed_db = (Ok r, db') ∧
    unprovision_authority sample_unprovision (URes_OrganizationID r) sample_claimed_db.
Proof.
  destruct (run_succeeds (UnprovisionDevice sample_time sample_unprovision) sample_claimed_db)
    as (r & db' & E); [vm_compute; reflexivity|].
  exists r, db'. split; [exact E|]. apply (unprovision_needs_authority _ _ _ _ _ E).
Defined.

Lemma unprovision_releases_device_witness :
  ∃ r db', UnprovisionDevice sample_time sample_unprovision sample_claimed_db = (Ok r, db') ∧
    devices db' = delete sample_uuid (devices sample_claimed_db).
Proof.
  destruct (run_succeeds (UnprovisionDevice sample_time sample_unprovision) sample_claimed_db)
    as (r & db' & E); [vm_compute; reflexivity|].
  exists r, db'. split; [exact E|].
  apply (unprovision_releases_device sample_time sample_unprovision sample_claimed_db r db'); [| | |exact E].
  - by apply map_Forall_singleton.
  - by apply map_Forall_singleton.
  - apply map_Forall_empty.
Defined.
