(* ===== verification/DeviceCreation.v ===== *)
(** * Creating devices: store/store.go and store/device_user_mutations.go

    The INSERT of a device with its constraints, the quota of an evaluation
    organization, and the two ways a device is created directly.  Claiming a
    device (DeviceClaims.v) inserts through the same statement. *)

From S2P Require Export Unprovision.

Local Open Scope Z_scope.

(** ** The quota *)

(** SELECT ... FROM devices WHERE organization_id = $1 AND disabled_at IS NULL *)
Definition enabled_devices (org : string) (db : DB) : list Device :=
  filter (λ d, Device_OrganizationID d = org ∧ Device_DisabledAt d = None) (rows_of (devices db)).

Definition lockOrganizationAndCheckQuota (orgID : string) : Store unit :=
  db ← gets (λ db, db);
  organization ← row_or ErrNotFound (organizations (registry db) !! orgID);
  reject_if (bool_decide (Organization_Tier organization = OrganizationTierEvaluation) &&
    (Organization_EvaluationDeviceQuota organization <=? Z.of_nat (length (enabled_devices orgID db))))
    ErrEvaluationQuotaExceeded.

(** ** INSERT INTO devices *)

(** A new row: the defaults of the table, and the given columns. *)
Definition new_device (org name : string) (category : DeviceCategory)
    (serial mac manufacturer model : option string) (metadata : jsonmap) (product : option string)
    (db : DB) : Device :=
  mkDevice (next_uuid db) org name category serial mac manufacturer model DeviceStatusUnknown None
    (marshalJSONMap metadata) (now db) (now db) None product.

Definition insert_device (d : Device) : Store Device :=
  let org := Device_OrganizationID d in
  fence_cloud_deletion_write org ;;
  reject_if (btrim_blank (Device_Name d)) (ErrPg "devices_name_not_blank") ;;
  db ← gets (λ db, db);
  reject_if (bool_decide (is_Some (devices db !! Device_ID d))) (ErrPg "devices_pkey") ;;
  reject_if (serial_taken org (Device_ID d) (Device_SerialNumber d) db)
    (ErrPg "devices_org_serial_unique") ;;
  reject_if (bool_decide (organizations (registry db) !! org = None))
    (ErrPg "devices_organization_id_fkey") ;;
  reject_if match Device_DeviceItemProfileID d with
    | None => false
    | Some p => bool_decide (device_item_profiles (registry db) !! p = None)
    end (ErrPg "devices_device_item_profile_id_fkey") ;;
  modify (λ db, use_uuid (with_devices (<[Device_ID d := d]> (devices db)) db)) ;;
  mret d.

(** ** Creation *)

Definition getDeviceItemProfileByID (profileID : string) : Store DeviceItemProfile :=
  db ← gets (λ db, db); row_or ErrNotFound (device_item_profiles (registry db) !! profileID).

Definition createDeviceTx (orgID : string) (input : DeviceInput) : Store Device :=
  lockOrganizationAndCheckQuota orgID ;;
  db ← gets (λ db, db);
  (match DI_DeviceItemProfileID input with
   | None => mret tt
   | Some product =>
       profile ← row_or ErrNotFound
         (p ← device_item_profiles (registry db) !! product;
          if bool_decide (Profile_BrandCloudID p = orgID) then Some p else None);
       reject_if (negb (bool_decide (Profile_Status profile = DeviceItemProfileStatusActive)))
         ErrNotFound
   end) ;;
  insert_device (new_device orgID (DI_Name input) (DI_Category input) (DI_SerialNumber input)
    (DI_MACAddress input) (DI_Manufacturer input) (DI_Model input) (DI_Metadata input)
    (DI_DeviceItemProfileID input) db).

Definition CreateDevice (orgID : string) (input : DeviceInput) : Store Device :=
  transaction (createDeviceTx orgID input).

(** The locks of the users and of the cloud are not modelled. *)
Definition lockBrandCloudCollaborationTx (cloudID : string) : Store unit :=
  db ← gets (λ db, db);
  _ ← row_or ErrNotFound
    (o ← organizations (registry db) !! cloudID;
     if bool_decide (Organization_Kind o = OrganizationKindBrandCloud)
        && bool_decide (Organization_DeletedAt o = None) then Some o else None);
  mret tt.

Definition authorizeProductUserMutationTx (actor cloud product : string) (platform : bool)
    : Store unit :=
  if platform then
    lockPlatformActorTx actor ;;
    lockOperationalCloudTx cloud
  else
    lockBrandCloudCollaborationTx cloud ;;
    db ← gets (λ db, db);
    let r := registry db in
    let allowed :=
      if bool_decide (product = "") then
        hasOrganizationPermission r actor cloud "registry_device.manage"
        && user_can_access_brand_cloud_product r actor cloud (Some "")
      else hasUserPermissionForResource r actor cloud "registry_device.manage" "product" product in
    reject_if (negb allowed) ErrNotFound.

Definition CreateDeviceAsUser (actor org : string) (input : DeviceInput) : Store Device :=
  mutateDeviceAsUser actor org "" "device.created" Device_ID (
    metadata ← lift_res (mergeUserDeviceMetadata (DI_Metadata input) ∅);
    let product := stringValue (DI_DeviceItemProfileID input) in
    (if bool_decide (product = "") then mret tt else
       authorizeProductUserMutationTx actor org product false ;;
       profile ← getDeviceItemProfileByID product;
       reject_if (negb (bool_decide (Profile_BrandCloudID profile = org))
                  || negb (bool_decide (Profile_Status profile = DeviceItemProfileStatusActive)))
         ErrNotFound) ;;
    createDeviceTx org (mkDeviceInput (DI_Name input) (DI_Category input) (DI_SerialNumber input)
      (DI_MACAddress input) (DI_Manufacturer input) (DI_Model input) metadata
      (DI_DeviceItemProfileID input))).

(** ** Lemmas *)

(** The INSERT as one condition on the row and the store. *)
Definition device_insertable (d : Device) (db : DB) : Prop :=
  cloud_deletion_fenced (registry db) (Device_OrganizationID d) = false ∧
  btrim_blank (Device_Name d) = false ∧ devices db !! Device_ID d = None ∧
  serial_taken (Device_OrganizationID d) (Device_ID d) (Device_SerialNumber d) db = false ∧
  is_Some (organizations (registry db) !! Device_OrganizationID d) ∧
  (∀ p, Device_DeviceItemProfileID d = Some p → is_Some (device_item_profiles (registry db) !! p)).

Lemma insert_device_ok d db d' db' :
  insert_device d db = (Ok d', db') →
  d' = d ∧ device_insertable d db ∧
  db' = use_uuid (with_devices (<[Device_ID d := d]> (devices db)) db).
Proof.
  unfold insert_device, fence_cloud_deletion_write. intros H. inv_run.
  repeat match goal with
  | H : bool_decide _ = false |- _ => apply bool_decide_eq_false in H
  | H : ¬ is_Some _ |- _ => apply eq_None_not_Some in H
  | H : _ ≠ None |- _ => apply not_eq_None_Some in H
  end.
  split_and!; try done. split_and!; try done. intros p Hp. rewrite Hp in *.
  match goal with H : bool_decide _ = false |- _ => apply bool_decide_eq_false in H end.
  by apply not_eq_None_Some.
Qed.

Lemma lockOrganizationAndCheckQuota_ok org db u db' :
  lockOrganizationAndCheckQuota org db = (Ok u, db') →
  db' = db ∧ ∃ o, organizations (registry db) !! org = Some o ∧
    (Organization_Tier o = OrganizationTierEvaluation →
     Z.of_nat (length (enabled_devices org db)) < Organization_EvaluationDeviceQuota o).
Proof.
  unfold lockOrganizationAndCheckQuota. intros H. inv_run. split; [done|].
  eexists. split; [done|]. intros Ht.
  match goal with H : _ && _ = false |- _ => rewrite Ht in H; simpl in H end. lia.
Qed.

Lemma createDeviceTx_ok org input db d db' :
  createDeviceTx org input db = (Ok d, db') →
  lockOrganizationAndCheckQuota org db = (Ok tt, db) ∧
  (∀ product, DI_DeviceItemProfileID input = Some product →
     ∃ p, device_item_profiles (registry db) !! product = Some p ∧ Profile_BrandCloudID p = org ∧
       Profile_Status p = DeviceItemProfileStatusActive) ∧
  d = new_device org (DI_Name input) (DI_Category input) (DI_SerialNumber input)
    (DI_MACAddress input) (DI_Manufacturer input) (DI_Model input) (DI_Metadata input)
    (DI_DeviceItemProfileID input) db ∧
  insert_device d db = (Ok d, db').
Proof.
  unfold createDeviceTx. intros H. apply bind_ok in H as ([] & s & Hq & H).
  destruct (lockOrganizationAndCheckQuota_ok _ _ _ _ Hq) as [-> _].
  apply bind_gets_ok in H.
  apply bind_ok in H as (u & s & Hp & H).
  assert (s = db ∧ ∀ product, DI_DeviceItemProfileID input = Some product →
     ∃ p, device_item_profiles (registry db) !! product = Some p ∧ Profile_BrandCloudID p = org ∧
       Profile_Status p = DeviceItemProfileStatusActive) as [-> Hprod].
  { destruct (DI_DeviceItemProfileID input) as [product|]; [|unfold mret, M_ret in Hp; by simplify_eq].
    inv_run. split; [done|]. intros ? [= <-].
    destruct (device_item_profiles _ !! product) as [p|]; [|done]. simpl in *. exists p.
    repeat case_bool_decide; simplify_eq; done. }
  destruct (insert_device_ok _ _ _ _ H) as [-> _]. done.
Qed.

(** *** The quota counts what is inserted *)

Lemma enabled_insert_fresh org d (db : DB) :
  devices db !! Device_ID d = None →
  length (enabled_devices org (use_uuid (with_devices (<[Device_ID d := d]> (devices db)) db))) =
    (length (enabled_devices org db) +
     if bool_decide (Device_OrganizationID d = org ∧ Device_DisabledAt d = None) then 1 else 0)%nat.
Proof.
  intros Hfresh. unfold enabled_devices, rows_of. simpl.
  rewrite (Permutation_length (l' := filter (λ d, Device_OrganizationID d = org ∧ Device_DisabledAt d = None)
    (((Device_ID d, d) :: map_to_list (devices db)).*2))).
  - rewrite fmap_cons, filter_cons. simpl. case_decide; simpl; [rewrite bool_decide_true by done|
      rewrite bool_decide_false by done]; lia.
  - apply filter_Permutation, fmap_Permutation. by apply map_to_list_insert.
Qed.

(** An evaluation organization has no more enabled devices than its quota. *)
Definition within_quota (db : DB) : Prop :=
  ∀ org o, organizations (registry db) !! org = Some o →
    Organization_Tier o = OrganizationTierEvaluation →
    Z.of_nat (length (enabled_devices org db)) ≤ Organization_EvaluationDeviceQuota o.

Lemma insert_within_quota d db :
  lockOrganizationAndCheckQuota (Device_OrganizationID d) db = (Ok tt, db) →
  device_insertable d db → within_quota db →
  within_quota (use_uuid (with_devices (<[Device_ID d := d]> (devices db)) db)).
Proof.
  intros Hq (_ & _ & Hfresh & _) Hw.
  apply lockOrganizationAndCheckQuota_ok in Hq as (_ & o & Ho & Hlt).
  intros org o' Ho' Ht. rewrite enabled_insert_fresh by done. simpl in Ho'.
  specialize (Hw _ _ Ho' Ht). case_bool_decide as Horg; [|lia].
  destruct Horg as [<- _]. simplify_eq. specialize (Hlt Ht). lia.
Qed.

Lemma createDeviceTx_within_quota org input db d db' :
  createDeviceTx org input db = (Ok d, db') → within_quota db → within_quota db'.
Proof.
  intros (Hq & _ & Hd & Hi)%createDeviceTx_ok Hw. apply insert_device_ok in Hi as (_ & Hi & ->).
  apply insert_within_quota; [|done|done]. by rewrite Hd.
Qed.
