(* ===== verification/DeviceClaims.v ===== *)
(** * store/device_claims.go: claim tokens, and the claim of a device

    A platform administrator creates a token for a physical device; a user who
    presents it gets the device registered in an organization.  This file has
    the tokens (create, list, revoke; store/device_claim_token_administration.go)
    and their resolution; ClaimTransfer.v has the overrides that move a claimed
    device.  The theorems: a token is good for one device, what a claim
    creates, the quota, and that a claimed device pins the grant its token was
    made from. *)

From S2P Require Export DeviceCreation.

Local Open Scope Z_scope.

(** ** Tokens *)

Record DeviceClaimTokenCreateInput := mkTokenCreate {
  CTI_OrganizationID : option string;
  CTI_CreatedBy : option string;
  CTI_DeviceItemProfileID : option string;
  CTI_TokenHash : string;
  CTI_Category : string;
  CTI_VideoCloudDevid : string;
  CTI_ActivityID : string;
  CTI_ClipPublicKey : string;
  CTI_ServiceOptions : list string;
  CTI_Metadata : jsonmap;
  CTI_Notes : option string;
  CTI_ExpiresAt : Time;
  CTI_Now : Time;
}.

(** [now := in.Now; if now.IsZero() { now = time.Now().UTC() }] *)
Definition now_or (clock t : Time) : Time := if IsZero t then UTC clock else t.

Definition claim_service_options : list string :=
  ["mqtt"; "iot_shadow"; "video_streaming"; "video_storage"; "device_logging"].
Fixpoint validateClaimServiceOptions_loop (seen : gset string) (options : list string) : res unit :=
  match options with
  | [] => Ok tt
  | option :: options =>
      if negb (bool_decide (option ∈ claim_service_options)) || bool_decide (option ∈ seen)
      then Err ErrClaimUnsupportedService
      else validateClaimServiceOptions_loop ({[option]} ∪ seen) options
  end.
Definition validateClaimServiceOptions : list string → res unit :=
  validateClaimServiceOptions_loop ∅.

(** What a product puts into the metadata of its tokens. *)
Definition profile_metadata (profile : DeviceItemProfile) (metadata : jsonmap) : jsonmap :=
  let m := <["issuer_profile" := AString (Profile_IssuerProfile profile)]>
    (<["ca_profile" := AString (Profile_CAProfile profile)]>
    (<["profile_key" := AString (Profile_ProfileKey profile)]>
    (<["device_item_profile_id" := AString (Profile_ID profile)]> metadata))) in
  let m := match Profile_Manufacturer profile with
           | Some manufacturer => <["manufacturer" := AString manufacturer]> m
           | None => m
           end in
  let m := match Profile_Model profile with
           | Some model => <["model" := AString model]> m
           | None => m
           end in
  <["metadata_defaults" := AMap (members (Profile_MetadataDefaults profile))]> m.

(** With product writes: the options and the pin of the newest grant. *)
Definition token_grant (profile : DeviceItemProfile) (options : list string) (metadata : jsonmap)
    : Store (list string * jsonmap) :=
  db ← gets (λ db, db);
  grant ← row_or ErrConflict
    (newest_grant (registry db) (Profile_ID profile) (Profile_BrandCloudID profile));
  approved ← lift_res (unmarshal_strings (grant_options grant));
  reject_if (negb (bool_decide (options = [])) && negb (serviceOptionSetsEqual options approved))
    ErrClaimServiceOptionsMismatch ;;
  mret (approved,
    <["service_grant_sha256" := AString (grant_snapshot_sha256 grant)]>
      (<["product_service_revision" := AInt (grant_revision grant)]> metadata)).

(** Without: the product's own options, which a given list must name. *)
Definition token_profile_options (profile : DeviceItemProfile) (options : list string)
    : res (list string) :=
  if bool_decide (options = []) then Ok (Profile_ServiceOptions profile)
  else
    validateProductServiceOptions options ;;
    if serviceOptionSetsEqual options (Profile_ServiceOptions profile) then Ok options
    else Err ErrClaimServiceOptionsMismatch.

(** INSERT INTO device_claim_tokens; a token without organization is not fenced. *)
Definition insert_claim_token (hash : string) (t : DeviceClaimToken) : Store DeviceClaimToken :=
  (match Token_OrganizationID t with
   | Some org => fence_cloud_deletion_write org
   | None => mret tt
   end) ;;
  db ← gets (λ db, db);
  let r := registry db in
  reject_if (bool_decide (is_Some (device_claim_tokens r !! Token_ID t)))
    (ErrPg "device_claim_tokens_pkey") ;;
  reject_if (existsb (λ row, bool_decide (token_hash row = hash)) (rows_of (device_claim_tokens r)))
    (ErrPg "device_claim_tokens_token_hash_key") ;;
  reject_if match Token_OrganizationID t with
    | None => false
    | Some org => bool_decide (organizations r !! org = None)
    end (ErrPg "device_claim_tokens_organization_id_fkey") ;;
  reject_if match Token_CreatedBy t with
    | None => false
    | Some user => bool_decide (users r !! user = None)
    end (ErrPg "device_claim_tokens_created_by_fkey") ;;
  reject_if match Token_DeviceItemProfileID t with
    | None => false
    | Some product => bool_decide (device_item_profiles r !! product = None)
    end (ErrPg "device_claim_tokens_device_item_profile_id_fkey") ;;
  modify (λ db, use_uuid (with_claims
    (<[Token_ID t := mkTokenRow t hash]> (device_claim_tokens (registry db)))
    (device_claims (registry db)) db)) ;;
  mret t.

Definition createDeviceClaimTokenTx (clock : Time) (input : DeviceClaimTokenCreateInput)
    (requireServiceGrant : bool) : Store DeviceClaimToken :=
  let metadata := delete "service_grant_sha256"
    (delete "product_service_revision" (CTI_Metadata input)) in
  '(category, options, metadata, productBound) ←
    match CTI_DeviceItemProfileID input with
    | Some id =>
        if blank id then
          mret (CTI_Category input, CTI_ServiceOptions input, metadata, false)
        else
          profile ← getDeviceItemProfileByID id;
          reject_if (bool_decide (Profile_Status profile = DeviceItemProfileStatusDisabled))
            ErrDeviceItemProfileDisabled ;;
          let text := DeviceCategory_text (Profile_Category profile) in
          let category := if bool_decide (CTI_Category input = "") then text
                          else CTI_Category input in
          reject_if (negb (bool_decide (category = text))) ErrConflict ;;
          '(options, metadata) ←
            (if requireServiceGrant then token_grant profile (CTI_ServiceOptions input) metadata
             else options ← lift_res (token_profile_options profile (CTI_ServiceOptions input));
                  mret (options, metadata));
          mret (category, options, profile_metadata profile metadata, true)
    | None => mret (CTI_Category input, CTI_ServiceOptions input, metadata, false)
    end;
  lift_res (if productBound : bool then validateProductServiceOptions options
            else validateClaimServiceOptions options) ;;
  db ← gets (λ db, db);
  let now := pg_timestamptz (now_or clock (CTI_Now input)) in
  insert_claim_token (CTI_TokenHash input)
    (mkClaimToken (next_uuid db) (CTI_OrganizationID input) (CTI_CreatedBy input)
       (CTI_DeviceItemProfileID input) category (CTI_VideoCloudDevid input) (CTI_ActivityID input)
       (CTI_ClipPublicKey input) options (marshalJSONMap metadata) (CTI_Notes input)
       (pg_timestamptz (CTI_ExpiresAt input)) None None now now).

Definition CreateDeviceClaimToken (clock : Time) (input : DeviceClaimTokenCreateInput)
    : Store DeviceClaimToken :=
  transaction (createDeviceClaimTokenTx clock input false).

Record DeviceClaimTokenPage := mkTokenPage {
  TokenPage_Tokens : list DeviceClaimToken;
  TokenPage_Limit : Z; TokenPage_Offset : Z; TokenPage_Total : Z }.

Definition ListDeviceClaimTokens (limit_ offset : Z) : Store DeviceClaimTokenPage :=
  db ← gets (λ db, db);
  let rows := rows_of (device_claim_tokens (registry db)) in
  reject_if (limit_ <? 0) (ErrPg "LIMIT must not be negative") ;;
  reject_if (offset <? 0) (ErrPg "OFFSET must not be negative") ;;
  mret (mkTokenPage
    (limit limit_ (drop (Z.to_nat offset)
       (order_by (λ a b, t_nanos (Token_CreatedAt b) <=? t_nanos (Token_CreatedAt a))
          (token_row <$> rows))))
    limit_ offset (Z.of_nat (length rows))).

Definition GetDeviceClaimToken (tokenID : string) : Store DeviceClaimToken :=
  db ← gets (λ db, db);
  row_or ErrNotFound (token_row <$> device_claim_tokens (registry db) !! tokenID).

(** The columns the UPDATEs of a token set; the trigger sets [updated_at]. *)
Definition token_update (org : option string) (claimed revoked : option Time) (updated : Time)
    (t : DeviceClaimToken) : DeviceClaimToken :=
  mkClaimToken (Token_ID t) org (Token_CreatedBy t) (Token_DeviceItemProfileID t)
    (Token_Category t) (Token_VideoCloudDevid t) (Token_ActivityID t) (Token_ClipPublicKey t)
    (Token_ServiceOptions t) (Token_Metadata t) (Token_Notes t) (Token_ExpiresAt t)
    claimed revoked (Token_CreatedAt t) updated.

(** UPDATE device_claim_tokens ... WHERE id = $1 RETURNING *)
Definition update_claim_token (id : string) (change : Time → DeviceClaimToken → DeviceClaimToken)
    : Store (option DeviceClaimToken) :=
  db ← gets (λ db, db);
  match device_claim_tokens (registry db) !! id with
  | None => mret None
  | Some row =>
      let t := change (now db) (token_row row) in
      modify (λ db, with_claims
        (<[id := mkTokenRow t (token_hash row)]> (device_claim_tokens (registry db)))
        (device_claims (registry db)) db) ;;
      mret (Some t)
  end.

Definition revokeDeviceClaimToken (clock : Time) (tokenID : string) (now : Time)
    : Store DeviceClaimToken :=
  let now := now_or clock now in
  row ← update_claim_token tokenID (λ updated t,
    token_update (Token_OrganizationID t) (Token_ClaimedAt t)
      (match Token_RevokedAt t with Some at_ => Some at_ | None => Some (pg_timestamptz now) end) updated t);
  row_or ErrNotFound row.

Definition RevokeDeviceClaimToken (clock : Time) (tokenID : string) (now : Time)
    : Store DeviceClaimToken :=
  revokeDeviceClaimToken clock tokenID now.

Definition getClaimTokenForUpdateTx (tokenID : string) : Store DeviceClaimToken :=
  GetDeviceClaimToken tokenID.

(** ** Administration by the platform *)

(** [slices.Sort] of two names, a duplicate left out. *)
Definition sorted_pair (a b : string) : list string :=
  if bool_decide (a = b) then [a]
  else match String.compare a b with Gt => [b; a] | _ => [a; b] end.
Definition sorted_clouds (a b : string) : list string := filter (λ c, c ≠ "") (sorted_pair a b).

Fixpoint lock_clouds (clouds : list string) : Store unit :=
  match clouds with
  | [] => mret tt
  | cloud :: clouds => lockOperationalCloudTx cloud ;; lock_clouds clouds
  end.

Definition lockClaimTokenCloudsTx (org product : option string) : Store unit :=
  db ← gets (λ db, db);
  manufacturer ←
    match product with
    | None => mret ""
    | Some p => row_or ErrNotFound
        (Profile_BrandCloudID <$> device_item_profiles (registry db) !! p)
    end;
  lock_clouds (sorted_clouds (stringValue org) manufacturer) ;;
  match product with
  | None => mret tt
  | Some p =>
      current ← row_or ErrNotFound
        (Profile_BrandCloudID <$> device_item_profiles (registry db) !! p);
      reject_if (negb (bool_decide (current = manufacturer))) ErrConflict ;;
      match org with
      | None => mret tt
      | Some org =>
          if bool_decide (org = manufacturer) then mret tt
          else
            kind ← row_or ErrNoRows (Organization_Kind <$> organizations (registry db) !! org);
            reject_if (bool_decide (kind = OrganizationKindBrandCloud)) ErrConflict
      end
  end.

Definition auditClaimTokenAdministrationTx (event actor : string) (token : DeviceClaimToken)
    : Store unit :=
  create_audit_event event (Some actor) (Token_OrganizationID token) "device_claim_token"
    (Token_ID token)
    (map_literal [("device_item_profile_id",
       match Token_DeviceItemProfileID token with Some p => AString p | None => ANil end)]).

Definition CreateDeviceClaimTokenAsPlatform (platformServiceProductWrites : bool) (clock : Time)
    (input : DeviceClaimTokenCreateInput) : Store DeviceClaimToken :=
  transaction (
    lockPlatformActorTx (stringValue (CTI_CreatedBy input)) ;;
    lockClaimTokenCloudsTx (CTI_OrganizationID input) (CTI_DeviceItemProfileID input) ;;
    token ← createDeviceClaimTokenTx clock input platformServiceProductWrites;
    auditClaimTokenAdministrationTx "device_claim_token_created" (stringValue (CTI_CreatedBy input))
      token ;;
    mret token).

Definition RevokeDeviceClaimTokenAsPlatform (clock : Time) (actor tokenID : string) (now : Time)
    : Store DeviceClaimToken :=
  transaction (
    lockPlatformActorTx actor ;;
    observed ← GetDeviceClaimToken tokenID;
    let org := Token_OrganizationID observed in
    let product := Token_DeviceItemProfileID observed in
    lockClaimTokenCloudsTx org product ;;
    token ← getClaimTokenForUpdateTx tokenID;
    reject_if (negb (bool_decide (stringValue (Token_OrganizationID token) = stringValue org))
      || negb (bool_decide (stringValue (Token_DeviceItemProfileID token) = stringValue product)))
      ErrConflict ;;
    if bool_decide (is_Some (Token_RevokedAt token)) then mret token
    else
      token ← revokeDeviceClaimToken clock tokenID now;
      auditClaimTokenAdministrationTx "device_claim_token_revoked" actor token ;;
      mret token).

(** ** Claiming *)

Record DeviceClaimResolveInput := mkClaimResolve {
  CRI_TokenHash : string;
  CRI_OrganizationID : string;
  CRI_RequestedBy : string;
  CRI_DeviceName : string;
  CRI_Now : Time;
}.

Record DeviceProvisionInput := mkProvisionInput {
  DPI_VideoCloudDevid : string; DPI_ActivityID : string; DPI_ClipPublicKey : string;
  DPI_ServiceOptions : list string }.

Record DeviceClaimResolveResult := mkClaimResolved {
  CRR_Claim : DeviceClaim; CRR_Device : Device; CRR_ProvisionInput : DeviceProvisionInput }.

Definition metadataDefaultsFromToken (metadata : jsonmap) : jsonmap :=
  match metadata !! "metadata_defaults" with Some (AMap m) => map_of_members m | _ => ∅ end.

(** The store's [metadataString]: the text as it is, when it is not blank. *)
Definition store_metadataString (metadata : jsonmap) (key : string) : option string :=
  match metadata !! key with
  | Some (AString value) => if blank value then None else Some value
  | _ => None
  end.

Definition claimed_metadata (token : DeviceClaimToken) : jsonmap :=
  let m := delete "metadata_defaults" (Token_Metadata token)
           ∪ metadataDefaultsFromToken (Token_Metadata token) in
  <[DeviceMetadataServiceOptions := strings_value (Token_ServiceOptions token)]>
    (<[DeviceMetadataVideoCloudClipPublicKey := AString (Token_ClipPublicKey token)]>
    (<[DeviceMetadataVideoCloudActivityID := AString (Token_ActivityID token)]>
    (<[DeviceMetadataVideoCloudDevid := AString (Token_VideoCloudDevid token)]> m))).

Definition createClaimedDeviceTx (orgID name : string) (category : DeviceCategory)
    (token : DeviceClaimToken) : Store Device :=
  db ← gets (λ db, db);
  insert_device (new_device orgID name category None None
    (store_metadataString (Token_Metadata token) "manufacturer")
    (store_metadataString (Token_Metadata token) "model")
    (claimed_metadata token) (Token_DeviceItemProfileID token) db).

(** The enabled devices of an organization that carry a video cloud id. *)
Definition claimed_as (org devid : string) (d : Device) : bool :=
  bool_decide (Device_OrganizationID d = org) && bool_decide (Device_DisabledAt d = None) &&
  bool_decide (json_member_text (Device_Metadata d) DeviceMetadataVideoCloudDevid = Some devid).
Definition getClaimedDeviceByVideoDevidTx (orgID videoCloudDevid : string) : Store Device :=
  db ← gets (λ db, db);
  row_or ErrNotFound (head
    (order_by (λ a b, t_nanos (Device_CreatedAt a) <=? t_nanos (Device_CreatedAt b))
       (filter (λ d, claimed_as orgID videoCloudDevid d = true) (rows_of (devices db))))).

Definition getClaimTokenByHashForUpdateTx (hash : string) : Store DeviceClaimToken :=
  db ← gets (λ db, db);
  row_or ErrNotFound (token_row <$> head
    (filter (λ row, token_hash row = hash) (rows_of (device_claim_tokens (registry db))))).

(** INSERT INTO device_claims *)
Definition insert_claim (c : DeviceClaim) : Store DeviceClaim :=
  db ← gets (λ db, db);
  let r := registry db in
  reject_if (bool_decide (is_Some (device_claims r !! DeviceClaim_ID c)))
    (ErrPg "device_claims_pkey") ;;
  reject_if (existsb (λ row, bool_decide (DeviceClaim_TokenID (claim_row row) = DeviceClaim_TokenID c))
    (rows_of (device_claims r))) (ErrPg "device_claims_claim_token_id_key") ;;
  reject_if (bool_decide (device_claim_tokens r !! DeviceClaim_TokenID c = None))
    (ErrPg "device_claims_claim_token_id_fkey") ;;
  reject_if (bool_decide (organizations r !! DeviceClaim_OrganizationID c = None))
    (ErrPg "device_claims_organization_id_fkey") ;;
  modify (λ db, use_uuid (with_claims (device_claim_tokens (registry db))
    (<[DeviceClaim_ID c := mkClaimRow c None None ∅ None]> (device_claims (registry db))) db)) ;;
  mret c.

Definition DeviceCategory_of_text (category : string) : option DeviceCategory :=
  if bool_decide (category = "ip_camera") then Some DeviceCategoryIPCamera
  else if bool_decide (category = "mqtt_device") then Some DeviceCategoryMQTT
  else if bool_decide (category = "generic") then Some DeviceCategoryGeneric
  else None.

(** A product of a token belongs to the brand cloud that claims; a customer
    organization claims products of any cloud. *)
Definition same_cloud (r : Registry) (org product : string) : bool :=
  match organizations r !! org with
  | None => false
  | Some o =>
      negb (bool_decide (Organization_Kind o = OrganizationKindBrandCloud)) ||
      bool_decide (Profile_BrandCloudID <$> device_item_profiles r !! product = Some org)
  end.

Definition resolveLockedDeviceClaimTokenTx (clock : Time) (input : DeviceClaimResolveInput)
    (token : DeviceClaimToken) : Store DeviceClaimResolveResult :=
  let now := now_or clock (CRI_Now input) in
  let org := CRI_OrganizationID input in
  reject_if (bool_decide (is_Some (Token_ClaimedAt token))) ErrClaimAlreadyClaimed ;;
  reject_if (bool_decide (is_Some (Token_RevokedAt token))) ErrClaimRevoked ;;
  reject_if (negb (After (Token_ExpiresAt token) now)) ErrClaimExpired ;;
  reject_if match Token_OrganizationID token with
    | Some o => negb (bool_decide (o = org))
    | None => false
    end ErrClaimCrossOrganization ;;
  db ← gets (λ db, db);
  reject_if match Token_DeviceItemProfileID token with
    | Some product => negb (same_cloud (registry db) org product)
    | None => false
    end ErrNotFound ;;
  category ← row_or ErrClaimUnsupportedCategory (DeviceCategory_of_text (Token_Category token));
  lockOrganizationAndCheckQuota org ;;
  let deviceName := if blank (CRI_DeviceName input) then "Claimed Device"
                    else TrimSpace (CRI_DeviceName input) in
  existing ← attempt (getClaimedDeviceByVideoDevidTx org (Token_VideoCloudDevid token));
  match existing with
  | Ok _ => throw ErrClaimAlreadyClaimed
  | Err err =>
      reject_if (negb (errors_Is err ErrNotFound)) err ;;
      device ← createClaimedDeviceTx org deviceName category token;
      db ← gets (λ db, db);
      claim ← insert_claim (mkDeviceClaim (next_uuid db) (Token_ID token) org (Device_ID device)
        (CRI_RequestedBy input) "resolved"
        (marshalJSONMap (map_literal
           [("video_cloud_devid", AString (Token_VideoCloudDevid token));
            ("activity_id", AString (Token_ActivityID token));
            ("clip_public_key", AString (Token_ClipPublicKey token));
            ("service_options", strings_value (Token_ServiceOptions token))]))
        (pg_timestamptz now) (pg_timestamptz now));
      update_claim_token (Token_ID token) (λ updated t,
        token_update (Token_OrganizationID t) (Some (pg_timestamptz now)) (Token_RevokedAt t) updated t) ;;
      mret (mkClaimResolved claim device
        (mkProvisionInput (Token_VideoCloudDevid token) (Token_ActivityID token)
           (Token_ClipPublicKey token) (Token_ServiceOptions token)))
  end.

Definition ResolveDeviceClaimToken (clock : Time) (input : DeviceClaimResolveInput)
    : Store DeviceClaimResolveResult :=
  transaction (
    authorizeDeviceUserMutationTx (CRI_RequestedBy input) (CRI_OrganizationID input) ""
      "claim.resolve" ;;
    token ← getClaimTokenByHashForUpdateTx (CRI_TokenHash input);
    db ← gets (λ db, db);
    reject_if (negb (user_can_access_brand_cloud_product (registry db) (CRI_RequestedBy input)
      (CRI_OrganizationID input) (Token_DeviceItemProfileID token))) ErrNotFound ;;
    result ← resolveLockedDeviceClaimTokenTx clock input token;
    create_audit_event "device_claim_resolved" (Some (CRI_RequestedBy input))
      (Some (CRI_OrganizationID input)) "device_claim" (DeviceClaim_ID (CRR_Claim result))
      (map_literal [("device_id", AString (Device_ID (CRR_Device result)))]) ;;
    mret result).

(** ** Lemmas *)

(** Token rows are stored under their own id, no two with the same hash. *)
Record tokens_ok (r : Registry) : Prop := {
  tokens_keyed : ∀ id row, device_claim_tokens r !! id = Some row →
    Token_ID (token_row row) = id;
  hashes_unique : ∀ i j x y, device_claim_tokens r !! i = Some x →
    device_claim_tokens r !! j = Some y → token_hash x = token_hash y → i = j;
}.

Lemma insert_claim_ok c db c' db' :
  insert_claim c db = (Ok c', db') →
  c' = c ∧ device_claims (registry db) !! DeviceClaim_ID c = None ∧
  is_Some (device_claim_tokens (registry db) !! DeviceClaim_TokenID c) ∧
  (∀ id row, device_claims (registry db) !! id = Some row →
     DeviceClaim_TokenID (claim_row row) ≠ DeviceClaim_TokenID c) ∧
  db' = use_uuid (with_claims (device_claim_tokens (registry db))
    (<[DeviceClaim_ID c := mkClaimRow c None None ∅ None]> (device_claims (registry db))) db).
Proof.
  unfold insert_claim. intros H. inv_run.
  repeat match goal with H : bool_decide _ = false |- _ => apply bool_decide_eq_false in H end.
  split_and!; try done; [by apply eq_None_not_Some|by apply not_eq_None_Some|].
  intros id row Hrow Heq.
  match goal with H : existsb _ _ = false |- _ => apply not_true_iff_false in H; apply H end.
  apply existsb_true. exists row. split; [by apply elem_of_rows_of; exists id|].
  by apply bool_decide_eq_true.
Qed.

Lemma update_claim_token_run id change db :
  update_claim_token id change db =
    match device_claim_tokens (registry db) !! id with
    | None => (Ok None, db)
    | Some row =>
        (Ok (Some (change (now db) (token_row row))),
         with_claims (<[id := mkTokenRow (change (now db) (token_row row)) (token_hash row)]>
           (device_claim_tokens (registry db))) (device_claims (registry db)) db)
    end.
Proof.
  unfold update_claim_token. run_simpl. by destruct (device_claim_tokens (registry db) !! id).
Qed.

Lemma claimed_device_absent org devid db d db' :
  getClaimedDeviceByVideoDevidTx org devid db = (Err ErrNotFound, db') →
  db' = db ∧ (d ∈ rows_of (devices db) → claimed_as org devid d = false).
Proof.
  unfold getClaimedDeviceByVideoDevidTx. run_simpl.
  set (rows := filter _ _). destruct (head _) as [x|] eqn:E; [done|].
  intros [= <-]. split; [done|]. intros Hd. destruct (claimed_as org devid d) eqn:Hc; [|done].
  assert (d ∈ rows) as Hin by (apply list_elem_of_filter; done).
  rewrite <-(elem_of_order_by (λ a b, t_nanos (Device_CreatedAt a) <=? t_nanos (Device_CreatedAt b)))
    in Hin.
  destruct (order_by _ rows); [by apply not_elem_of_nil in Hin|done].
Qed.

Lemma getClaimTokenByHash_ok hash db t db' :
  getClaimTokenByHashForUpdateTx hash db = (Ok t, db') →
  db' = db ∧ ∃ id row, device_claim_tokens (registry db) !! id = Some row ∧
    token_row row = t ∧ token_hash row = hash.
Proof.
  unfold getClaimTokenByHashForUpdateTx. intros H. inv_run. split; [done|].
  destruct (filter _ _) as [|row l] eqn:E; [done|]. simpl in *. simplify_eq.
  assert (row ∈ row :: l) as Hin by left. rewrite <-E in Hin.
  apply list_elem_of_filter in Hin as [Hh (id & Hid)%elem_of_rows_of]. eauto.
Qed.

(** ** What a claim does *)

(** The device a token stands for. *)
Definition claimed_device (org name : string) (category : DeviceCategory) (token : DeviceClaimToken)
    (db : DB) : Device :=
  new_device org name category None None
    (store_metadataString (Token_Metadata token) "manufacturer")
    (store_metadataString (Token_Metadata token) "model")
    (claimed_metadata token) (Token_DeviceItemProfileID token) db.

(** A successful claim: what was checked, and the state it leaves. *)
Record claimed (clock : Time) (input : DeviceClaimResolveInput) (token : DeviceClaimToken)
    (db : DB) (r : DeviceClaimResolveResult) (db' : DB) : Prop := {
  claimed_unclaimed : Token_ClaimedAt token = None;
  claimed_unrevoked : Token_RevokedAt token = None;
  claimed_unexpired : After (Token_ExpiresAt token) (now_or clock (CRI_Now input)) = true;
  claimed_org : ∀ o, Token_OrganizationID token = Some o → o = CRI_OrganizationID input;
  claimed_quota : lockOrganizationAndCheckQuota (CRI_OrganizationID input) db = (Ok tt, db);
  claimed_first : ∀ d, d ∈ rows_of (devices db) →
    claimed_as (CRI_OrganizationID input) (Token_VideoCloudDevid token) d = false;
  claimed_row : ∃ name category,
    DeviceCategory_of_text (Token_Category token) = Some category ∧
    CRR_Device r = claimed_device (CRI_OrganizationID input) name category token db;
  claimed_insertable : device_insertable (CRR_Device r) db;
  claimed_claim : DeviceClaim_TokenID (CRR_Claim r) = Token_ID token ∧
    DeviceClaim_OrganizationID (CRR_Claim r) = CRI_OrganizationID input ∧
    DeviceClaim_DeviceID (CRR_Claim r) = Device_ID (CRR_Device r) ∧
    DeviceClaim_Status (CRR_Claim r) = "resolved" ∧
    DeviceClaim_ClaimedBy (CRR_Claim r) = CRI_RequestedBy input;
  claimed_claim_fresh : device_claims (registry db) !! DeviceClaim_ID (CRR_Claim r) = None ∧
    ∀ id row, device_claims (registry db) !! id = Some row →
      DeviceClaim_TokenID (claim_row row) ≠ Token_ID token;
  claimed_state : ∃ row,
    device_claim_tokens (registry db) !! Token_ID token = Some row ∧
    db' = with_claims
      (<[Token_ID token := mkTokenRow (token_update (Token_OrganizationID (token_row row))
           (Some (pg_timestamptz (now_or clock (CRI_Now input)))) (Token_RevokedAt (token_row row)) (now db)
           (token_row row)) (token_hash row)]> (device_claim_tokens (registry db)))
      (<[DeviceClaim_ID (CRR_Claim r) := mkClaimRow (CRR_Claim r) None None ∅ None]>
         (device_claims (registry db)))
      (use_uuid (use_uuid (with_devices (<[Device_ID (CRR_Device r) := CRR_Device r]> (devices db)) db)));
}.

Lemma resolveLockedDeviceClaimTokenTx_ok clock input token db r db' :
  resolveLockedDeviceClaimTokenTx clock input token db = (Ok r, db') →
  claimed clock input token db r db'.
Proof.
  unfold resolveLockedDeviceClaimTokenTx. intros H.
  apply bind_reject_ok in H as [H1 H].
  apply bind_reject_ok in H as [H2 H].
  apply bind_reject_ok in H as [H3 H].
  apply bind_reject_ok in H as [H4 H].
  apply bind_gets_ok in H.
  apply bind_reject_ok in H as [_ H].
  apply bind_row_ok in H as (category & H6 & H).
  apply bind_ok in H as ([] & ? & H7 & H).
  destruct (lockOrganizationAndCheckQuota_ok _ _ _ _ H7) as [-> _].
  apply bind_ok in H as (existing & s & H8 & H). unfold attempt in H8.
  destruct (getClaimedDeviceByVideoDevidTx _ _ db) as [[d|e] s1] eqn:E; injection H8 as <- <-; [done|].
  apply bind_reject_ok in H as [H9 H].
  assert (e = ErrNotFound ∧ s1 = db) as [-> ->].
  { unfold getClaimedDeviceByVideoDevidTx in E. revert E. run_simpl. destruct (head _); [done|].
    by intros [= <- <-]. }
  apply bind_ok in H as (device & db1 & H10 & H).
  unfold createClaimedDeviceTx in H10. apply bind_gets_ok in H10.
  apply insert_device_ok in H10 as (-> & Hins & ->).
  apply bind_gets_ok in H.
  apply bind_ok in H as (claim & ? & H11 & H).
  apply insert_claim_ok in H11 as (-> & Hfresh & [row Hrow] & Hone & ->).
  apply bind_ok in H as (? & ? & H12 & H). rewrite update_claim_token_run in H12.
  simpl in Hrow, H12. rewrite Hrow in H12. injection H12 as <- <-.
  unfold mret, M_ret in H. injection H as <- <-.
  rewrite negb_false_iff in H3. apply bool_decide_eq_false in H1, H2.
  constructor; simpl; try done.
  - by apply eq_None_not_Some.
  - by apply eq_None_not_Some.
  - intros o Ho. rewrite Ho in H4. by apply negb_false_iff, bool_decide_eq_true in H4.
  - intros d. by eapply claimed_device_absent.
  - eauto.
  - exists row. split; [done|]. done.
Qed.

Lemma ResolveDeviceClaimToken_ok clock input db r db' :
  ResolveDeviceClaimToken clock input db = (Ok r, db') →
  authorized (CRI_RequestedBy input) (CRI_OrganizationID input) "" "claim.resolve" db = true ∧
  ∃ id row db1, device_claim_tokens (registry db) !! id = Some row ∧
    token_hash row = CRI_TokenHash input ∧
    user_can_access_brand_cloud_product (registry db) (CRI_RequestedBy input)
      (CRI_OrganizationID input) (Token_DeviceItemProfileID (token_row row)) = true ∧
    claimed clock input (token_row row) db r db1 ∧
    db' = with_audit (audit_events db1 ++ [mkAuditEvent "device_claim_resolved"
      (Some (CRI_RequestedBy input)) (Some (CRI_OrganizationID input)) "device_claim"
      (DeviceClaim_ID (CRR_Claim r))
      (marshalJSONMap (map_literal [("device_id", AString (Device_ID (CRR_Device r)))]))
      (now db1)]) db1.
Proof.
  unfold ResolveDeviceClaimToken. rewrite transaction_ok. intros H.
  apply bind_ok in H as ([] & ? & Ha & H). rewrite authorize_run in Ha.
  destruct (authorized _ _ _ _ _); [|done]. injection Ha as <-. split; [done|].
  apply bind_ok in H as (token & ? & Ht & H).
  apply getClaimTokenByHash_ok in Ht as (-> & id & row & Hid & <- & Hh).
  apply bind_gets_ok in H.
  apply bind_reject_ok in H as [Hp%negb_false_iff H].
  apply bind_ok in H as (r' & db1 & Hr & H). apply bind_ok in H as ([] & s & Hau & H).
  unfold mret, M_ret in H. injection H as -> ->. exists id, row, db1.
  split_and!; try done; [by apply resolveLockedDeviceClaimTokenTx_ok|].
  unfold create_audit_event in Hau. revert Hau. run_simpl. by intros [= <-].
Qed.

(** No claim is left in the tokens with this hash. *)
Definition used_up (hash : string) (db : DB) : Prop :=
  ∀ id row, device_claim_tokens (registry db) !! id = Some row → token_hash row = hash →
    is_Some (Token_ClaimedAt (token_row row)).

Lemma claimed_used_up clock input id row db r db' :
  tokens_ok (registry db) → device_claim_tokens (registry db) !! id = Some row →
  claimed clock input (token_row row) db r db' → used_up (token_hash row) db'.
Proof.
  intros [Hk Hu] Hrow Hc. destruct (claimed_state _ _ _ _ _ _ Hc) as (row' & Hrow' & ->).
  rewrite (Hk _ _ Hrow) in *. simplify_eq. intros j x. simpl.
  destruct (decide (j = id)) as [->|Hne]; [rewrite lookup_insert_eq; by intros [= <-]|].
  rewrite lookup_insert_ne by done. intros Hx Hh. by destruct (Hu _ _ _ _ Hx Hrow Hh).
Qed.

Lemma resolve_used_up clock input db :
  used_up (CRI_TokenHash input) db → ∃ e, ResolveDeviceClaimToken clock input db = (Err e, db).
Proof.
  intros Hu. destruct (ResolveDeviceClaimToken clock input db) as [[r|e] db'] eqn:E.
  - apply ResolveDeviceClaimToken_ok in E as (_ & id & row & db1 & Hrow & Hh & _ & Hc & _).
    destruct (Hu _ _ Hrow Hh) as [t Ht]. by rewrite (claimed_unclaimed _ _ _ _ _ _ Hc) in Ht.
  - exists e. apply transaction_err in E. by subst.
Qed.

(** The claim tables keep their keys. *)
Lemma claimed_tokens_ok clock input id row db r db' :
  tokens_ok (registry db) → device_claim_tokens (registry db) !! id = Some row →
  claimed clock input (token_row row) db r db' → tokens_ok (registry db').
Proof.
  intros [Hk Hu] Hrow Hc. destruct (claimed_state _ _ _ _ _ _ Hc) as (row' & Hrow' & ->).
  rewrite (Hk _ _ Hrow) in *. simplify_eq. constructor; simpl.
  - intros j x. rewrite lookup_insert_Some. intros [[<- <-]|[? Hx]]; [exact (Hk _ _ Hrow)|eauto].
  - intros i j x y. rewrite !lookup_insert_Some. intros [[<- <-]|[? Hx]] [[<- <-]|[? Hy]] Hh; eauto.
Qed.

Lemma claimed_within_quota clock input token db r db' :
  claimed clock input token db r db' → within_quota db → within_quota db'.
Proof.
  intros Hc Hw. destruct (claimed_state _ _ _ _ _ _ Hc) as (row & _ & ->).
  destruct (claimed_row _ _ _ _ _ _ Hc) as (name & category & _ & Hd).
  apply (insert_within_quota (CRR_Device r) db); [|apply Hc|done].
  rewrite Hd. apply (claimed_quota _ _ _ _ _ _ Hc).
Qed.

(** ** Theorems *)


(** ** The grant a token carries *)

Lemma insert_claim_token_ok hash t db t' db' :
  insert_claim_token hash t db = (Ok t', db') →
  t' = t ∧ device_claim_tokens (registry db) !! Token_ID t = None ∧
  (∀ id row, device_claim_tokens (registry db) !! id = Some row → token_hash row ≠ hash) ∧
  db' = use_uuid (with_claims (<[Token_ID t := mkTokenRow t hash]>
    (device_claim_tokens (registry db))) (device_claims (registry db)) db).
Proof.
  unfold insert_claim_token. intros H. apply bind_ok in H as (u & s & Hf & H).
  assert (s = db) as ->.
  { destruct (Token_OrganizationID t); [|unfold mret, M_ret in Hf; by simplify_eq].
    unfold fence_cloud_deletion_write in Hf. inv_run. done. }
  inv_run.
  repeat match goal with H : bool_decide _ = false |- _ => apply bool_decide_eq_false in H end.
  split_and!; try done; [by apply eq_None_not_Some|].
  intros id row Hrow Heq.
  match goal with H : existsb _ _ = false |- _ => apply not_true_iff_false in H; apply H end.
  apply existsb_true. exists row. split; [by apply elem_of_rows_of; exists id|].
  by apply bool_decide_eq_true.
Qed.

Lemma insert_claim_token_tokens_ok hash t db t' db' :
  insert_claim_token hash t db = (Ok t', db') → tokens_ok (registry db) → tokens_ok (registry db').
Proof.
  intros (-> & Hfree & Hone & ->)%insert_claim_token_ok [Hk Hu]. constructor; simpl.
  - intros id row. rewrite lookup_insert_Some. intros [[<- <-]|[? Hx]]; [done|eauto].
  - intros i j x y. rewrite !lookup_insert_Some. intros [[<- <-]|[? Hx]] [[<- <-]|[? Hy]] Hh;
      simpl in *; [done| | |by eauto].
    + by destruct (Hone _ _ Hy).
    + by destruct (Hone _ _ Hx).
Qed.

Lemma token_grant_read_only profile options metadata : read_only (token_grant profile options metadata).
Proof. unfold token_grant. auto 20 with rtk. Qed.

Lemma createDeviceClaimTokenTx_insert clock input grants db token db' :
  createDeviceClaimTokenTx clock input grants db = (Ok token, db') →
  insert_claim_token (CTI_TokenHash input) token db = (Ok token, db').
Proof.
  unfold createDeviceClaimTokenTx. intros H.
  apply bind_ok in H as ([[[category options] metadata] bound] & s & H1 & H).
  assert (s = db) as ->.
  { revert H1. apply read_only_ok. destruct (CTI_DeviceItemProfileID input) as [id|]; [|apply read_only_ret].
    destruct (blank id); [apply read_only_ret|]. unfold getDeviceItemProfileByID.
    repeat first [apply read_only_bind; [|intros ?]|apply token_grant_read_only
      |progress auto 2 with rtk|case_match]. }
  apply bind_lift_ok in H as (? & _ & H).
  apply bind_gets_ok in H.
  pose proof H as [-> _]%insert_claim_token_ok. exact H.
Qed.

(** A token created for a product under product writes: it carries the newest grant. *)
Record granted_token (product : string) (grant : ProductServiceGrant) (token : DeviceClaimToken)
    : Prop := {
  granted_product : Token_DeviceItemProfileID token = Some product;
  granted_options : unmarshal_strings (grant_options grant) = Ok (Token_ServiceOptions token);
  granted_revision : json_member_text (Token_Metadata token) "product_service_revision" =
    Some (dec_text (grant_revision grant));
  granted_digest : json_member_text (Token_Metadata token) "service_grant_sha256" =
    Some (grant_snapshot_sha256 grant);
}.

(** The product's entries do not touch the grant's. *)
Lemma profile_metadata_lookup profile m key :
  key = "product_service_revision" ∨ key = "service_grant_sha256" →
  profile_metadata profile m !! key = m !! key.
Proof.
  intros Hk. unfold profile_metadata.
  destruct (Profile_Model profile), (Profile_Manufacturer profile);
    rewrite !lookup_insert_ne; try done; destruct Hk as [->| ->]; done.
Qed.

Lemma createDeviceClaimTokenTx_granted clock input product db token db' :
  CTI_DeviceItemProfileID input = Some product → blank product = false →
  createDeviceClaimTokenTx clock input true db = (Ok token, db') →
  ∃ profile grant, device_item_profiles (registry db) !! product = Some profile ∧
    newest_grant (registry db) (Profile_ID profile) (Profile_BrandCloudID profile) = Some grant ∧
    granted_token product grant token ∧
    device_claim_tokens (registry db') !! Token_ID token = Some (mkTokenRow token (CTI_TokenHash input)).
Proof.
  intros Hp Hb. unfold createDeviceClaimTokenTx. rewrite Hp, Hb. intros H.
  apply bind_ok in H as ([[[category options] metadata] bound] & s & H1 & H).
  apply bind_ok in H1 as (profile & ? & H2 & H1). unfold getDeviceItemProfileByID in H2.
  apply bind_gets_ok in H2.
  apply row_or_ok in H2 as [Hprof ->].
  apply bind_reject_ok in H1 as [_ H1].
  apply bind_reject_ok in H1 as [_ H1].
  apply bind_ok in H1 as ([options' metadata'] & ? & Ht & H1). unfold mret, M_ret in H1.
  injection H1 as <- <- <- <- <-.
  unfold token_grant in Ht. apply bind_gets_ok in Ht.
  apply bind_row_ok in Ht as (grant & Hgr & Ht).
  apply bind_lift_ok in Ht as (approved & Ha & Ht).
  apply bind_reject_ok in Ht as [_ Ht].
  unfold mret, M_ret in Ht. injection Ht as <- <- <-.
  apply bind_lift_ok in H as (? & _ & H).
  apply bind_gets_ok in H.
  apply insert_claim_token_ok in H as (-> & _ & _ & ->).
  exists profile, grant. split_and!; try done; [|by simpl; rewrite lookup_insert_eq].
  constructor; simpl; [done|done| |]; unfold json_member_text;
    rewrite marshalJSONMap_lookup, profile_metadata_lookup by tauto;
    [rewrite lookup_insert_ne by done|]; rewrite lookup_insert_eq; [|done].
  simpl. f_equal. unfold json_text. simpl. apply String.string_of_list_ascii_of_string.
Qed.

(** The evidence a claim leaves for the device's provisioning. *)
Lemma claim_evidence product grant clock input id row db r db' devid :
  tokens_ok (registry db) → device_claim_tokens (registry db) !! id = Some row →
  granted_token product grant (token_row row) → claimed clock input (token_row row) db r db' →
  ∀ device db'', Device_ID device = Device_ID (CRR_Device r) →
    Device_OrganizationID device = Device_OrganizationID (CRR_Device r) →
    device_claims (registry db'') = device_claims (registry db') →
    device_claim_tokens (registry db'') = device_claim_tokens (registry db') →
  (if bool_decide (Token_VideoCloudDevid (token_row row) = devid) then Some product else None,
   Some (dec_text (grant_revision grant)), Some (grant_snapshot_sha256 grant))
    ∈ claim_rows device devid db''.
Proof.
  intros Hok Hrow [Hgp _ Hgr Hgd] Hc device db'' Hid Horg Hcl Hto.
  destruct (claimed_state _ _ _ _ _ _ Hc) as (row' & Hrow' & ->).
  rewrite (tokens_keyed _ Hok _ _ Hrow) in *. simplify_eq. simpl in Hcl, Hto.
  destruct (claimed_claim _ _ _ _ _ _ Hc) as (Hct & Hco & Hcd & _ & _).
  destruct (claimed_row _ _ _ _ _ _ Hc) as (name & category & _ & Hd).
  apply list_elem_of_omap. exists (mkClaimRow (CRR_Claim r) None None ∅ None). split.
  { apply elem_of_rows_of. exists (DeviceClaim_ID (CRR_Claim r)). by rewrite Hcl, lookup_insert_eq. }
  simpl. rewrite Hct, (tokens_keyed _ Hok _ _ Hrow), Hto, lookup_insert_eq. simpl.
  rewrite Hcd, Hco, Hid, Horg, Hd. rewrite !bool_decide_true by done. simpl.
  by rewrite Hgp, Hgr, Hgd.
Qed.

(** The chain from token to command holds together: a device claimed with a token that was
    created for a product under product writes can afterwards only be provisioned with the grant
    that was newest when the token was created, whatever grants the product has received since:
    the bound command names the product, that revision and that digest. *)
Theorem claimed_device_keeps_token_grant clock0 token_input product db0 token db1
    clock input db2 r db3 device request db4 request' db5 :
  CTI_DeviceItemProfileID token_input = Some product → blank product = false →
  Forall (λ g, int64_range (grant_revision g) = true) (product_service_grants (registry db0)) →
  createDeviceClaimTokenTx clock0 token_input true db0 = (Ok token, db1) →
  (* the claim, at any later time *)
  tokens_ok (registry db2) → device_claim_tokens (registry db2) !! Token_ID token =
    device_claim_tokens (registry db1) !! Token_ID token →
  CRI_TokenHash input = CTI_TokenHash token_input →
  ResolveDeviceClaimToken clock input db2 = (Ok r, db3) →
  (* the provisioning, at any later time *)
  Device_ID device = Device_ID (CRR_Device r) →
  Device_OrganizationID device = Device_OrganizationID (CRR_Device r) →
  device_claims (registry db4) = device_claims (registry db3) →
  device_claim_tokens (registry db4) = device_claim_tokens (registry db3) →
  bindProvisionServiceGrantTx device request db4 = (Ok request', db5) →
  ∃ profile grant, device_item_profiles (registry db0) !! product = Some profile ∧
    newest_grant (registry db0) (Profile_ID profile) (Profile_BrandCloudID profile) = Some grant ∧
    Device_DeviceItemProfileID device = Some product ∧
    LI_OutboxPayload request' !! "product_id" = Some (AString product) ∧
    LI_OutboxPayload request' !! "product_service_revision" = Some (AInt (grant_revision grant)) ∧
    LI_OutboxPayload request' !! "service_grant_sha256" = Some (AString (grant_snapshot_sha256 grant)).
Proof.
  intros Hp Hblank Hrange Hcreate Hok Hkept Hhash Hresolve Hid Horg Hcl Hto Hbind.
  apply (createDeviceClaimTokenTx_granted _ _ _ _ _ _ Hp Hblank) in Hcreate
    as (profile & grant & Hprof & Hnew & Hgranted & Hrow). rewrite Hrow in Hkept.
  apply ResolveDeviceClaimToken_ok in Hresolve as (_ & id & row & dbr & Hid2 & Hh & _ & Hc & ->).
  assert (row = mkTokenRow token (CTI_TokenHash token_input)) as ->.
  { rewrite Hhash in Hh. pose proof (hashes_unique _ Hok _ _ _ _ Hid2 Hkept Hh). by simplify_eq. }
  exists profile, grant. split; [done|]. split; [done|].
  apply bindProvisionServiceGrantTx_ok in Hbind
    as (product' & grant' & approved & _ & Hdp & _ & _ & _ & _ & _ & _ & _ & -> & Hrows).
  pose proof (Hrows _ ltac:(apply elem_of_app; left;
    exact (claim_evidence product grant clock input id _ db2 r dbr _ Hok Hid2 Hgranted Hc
      device db4 Hid Horg Hcl Hto))) as (text & Hrow' & Hpi).
  simpl in Hrow'. case_bool_decide; simplify_eq.
  rewrite ParseInt_dec_text in Hpi.
  2: { rewrite Forall_forall in Hrange. apply Hrange. by apply newest_grant_in in Hnew as [? _]. }
  simpl in Hpi. injection Hpi as Hrev. rewrite Hrev. unfold bound_outbox.
  split; [done|]. destruct (grant_log_retention_days grant'); split_and!;
    repeat (rewrite lookup_insert_eq || rewrite lookup_insert_ne by done); congruence.
Qed.

(** ** The theorems at work: a token is created, claimed and provisioned *)

Definition sample_claims_db : DB :=
  with_registry
    (mkRegistry (users sample_registry) (organizations sample_registry)
       (organization_members sample_registry)
       {["role-owner" := mkRole None ["claim.resolve"; "lifecycle_operation.provision"]]}
       (role_assignments sample_registry) {["product-1" := sample_profile]} [] [] [] [sample_grant]
       ∅ ∅ [])
    sample_db.
Definition sample_token_input : DeviceClaimTokenCreateInput :=
  mkTokenCreate None (Some "user-1") (Some "product-1") "hash-2" "" "devid-2" "act-2" "key-2" [] ∅
    None (mkTime (1700009000 * Second) 0) zero_time.
Definition sample_resolve : DeviceClaimResolveInput :=
  mkClaimResolve "hash-2" sample_org "user-1" " Door " zero_time.
(** The clock of the examples, later than [sample_time]. *)
Definition sample_clock : Time := mkTime (1700000200 * Second) 0.
(** A provisioning of the device a claim created. *)
Definition sample_claimed_request (d : Device) : DeviceLifecycleOperationInput :=
  mkLifecycleInput "op-2" "op-2" "msg-2" sample_org (Device_ID d) DeviceOperationTypeProvision
    (Some "user-1") (map_literal [("video_cloud_devid", AString "devid-2")])
    MessageTypeDeviceProvisionRequested
    (<["video_cloud_devid" := AString "devid-2"]> sample_command_payload)
    (PendingProvisionMetadata "devid-2" "act-2" "key-2" ["mqtt"]) false sample_time.

Definition sample_claim_run
    : Store (DeviceClaimToken * DeviceClaimResolveResult * DeviceLifecycleOperationInput) :=
  token ← createDeviceClaimTokenTx sample_clock sample_token_input true;
  result ← ResolveDeviceClaimToken sample_clock sample_resolve;
  request ← bindProvisionServiceGrantTx (CRR_Device result)
    (sample_claimed_request (CRR_Device result));
  mret (token, result, request).

Lemma sample_tokens_ok : tokens_ok (registry sample_claims_db).
Proof. constructor; intros; simpl in *; by simplify_eq. Qed.

(** The run, step by step. *)
Lemma sample_claim_steps :
  ∃ token db1 r db2 request db3,
    createDeviceClaimTokenTx sample_clock sample_token_input true sample_claims_db = (Ok token, db1) ∧
    tokens_ok (registry db1) ∧ device_claim_tokens (registry db1) !! Token_ID token = Some (mkTokenRow token "hash-2") ∧
    ResolveDeviceClaimToken sample_clock sample_resolve db1 = (Ok r, db2) ∧
    bindProvisionServiceGrantTx (CRR_Device r) (sample_claimed_request (CRR_Device r)) db2 =
      (Ok request, db3).
Proof.
  destruct (run_succeeds sample_claim_run sample_claims_db) as (x & db3 & E); [vm_compute; reflexivity|].
  unfold sample_claim_run in E. apply bind_ok in E as (token & db1 & E1 & E).
  apply bind_ok in E as (r & db2 & E2 & E). apply bind_ok in E as (request & db3' & E3 & E).
  exists token, db1, r, db2, request, db3'. pose proof (createDeviceClaimTokenTx_insert _ _ _ _ _ _ E1) as Hi.
  split; [exact E1|]. split; [exact (insert_claim_token_tokens_ok _ _ _ _ _ Hi sample_tokens_ok)|].
  split; [|by split]. apply insert_claim_token_ok in Hi as (_ & _ & _ & ->). simpl.
  by rewrite lookup_insert_eq.
Qed.


Lemma claimed_device_keeps_token_grant_witness :
  ∃ request db2 r db3, bindProvisionServiceGrantTx (CRR_Device r)
      (sample_claimed_request (CRR_Device r)) db2 = (Ok request, db3) ∧
    LI_OutboxPayload request !! "product_id" = Some (AString "product-1").
Proof.
  destruct sample_claim_steps as (token & db1 & r & db2 & request & db3 & E1 & Hok & Hrow & E2 & E3).
  exists request, db2, r, db3. split; [exact E3|].
  destruct (claimed_device_keeps_token_grant sample_clock sample_token_input "product-1"
    sample_claims_db token db1 sample_clock sample_resolve db1 r db2 (CRR_Device r)
    (sample_claimed_request (CRR_Device r)) db2 request db3) as (p & g & _ & _ & _ & H & _).
  - reflexivity.
  - vm_compute. reflexivity.
  - constructor; [vm_compute; reflexivity|constructor].
  - exact E1.
  - exact Hok.
  - reflexivity.
  - reflexivity.
  - exact E2.
  - reflexivity.
  - reflexivity.
  - reflexivity.
  - reflexivity.
  - exact E3.
  - exact H.
Defined.
