(* ===== verification/ClaimTransfer.v ===== *)
(** * store/device_claims.go and device_claim_reconciliation.go: moving a claimed device

    A platform administrator transfers a claim to another organization, or
    reclaims a token.  The Video Cloud first reserves the device (a fence
    against a concurrent activation), then the transaction moves device, token
    and claim.  The two systems cannot commit together, so the reservation is
    released when the transaction certainly did not commit, kept when the
    answer to COMMIT is lost, and reconciled later.

    The Video Cloud is not part of the program: its state is a type [Remote] and
    its calls are arguments.  The outcome of COMMIT is an argument too.  The
    theorems: what a transfer moves, that a device with a lifecycle never moves,
    the reservation protocol, and that reconciliation tells a lost commit from
    one that happened. *)

From S2P Require Export DeviceClaims GoSHA256.

Local Open Scope Z_scope.

(** The answer to COMMIT: with an error the transaction may have been applied. *)
Inductive CommitOutcome :=
  | Committed
  | CommitFailed (err : error) (applied : bool).

Definition claimTransferReservationID (claim : DeviceClaim) (targetOrgID : string) : string :=
  sha256_hex (String.concat (String (ascii_of_N 0) EmptyString)
    ["device-transfer-v1"; DeviceClaim_ID claim; DeviceClaim_OrganizationID claim; targetOrgID;
     time_text (UTC (DeviceClaim_UpdatedAt claim))]).

Definition validateClaimOverrideInput (targetOrgID actorUserID reason : string)
    (evidence : jsonmap) : res unit :=
  if blank targetOrgID || blank actorUserID then Err ErrNotFound
  else if blank reason || bool_decide (evidence = ∅) then Err ErrClaimEvidenceRequired
  else Ok tt.

(** By claim id, or by token id when the former is blank.  The row lock of the
    second reading is not modelled. *)
Definition getClaimForOverrideTx (claimID tokenID : string) : Store DeviceClaim :=
  db ← gets (λ db, db);
  row_or ErrNotFound (claim_row <$>
    if blank claimID then
      head (filter (λ row, DeviceClaim_TokenID (claim_row row) = tokenID)
        (rows_of (device_claims (registry db))))
    else device_claims (registry db) !! claimID).

(** SELECT EXISTS(... operation_type='provision') *)
Definition provision_recorded (device : string) (db : DB) : bool :=
  existsb (λ o, bool_decide (DeviceOperation_DeviceID o = device) &&
    bool_decide (DeviceOperation_OperationType o = DeviceOperationTypeProvision))
    (rows_of (device_operations db)).

(** The organization takes the product: another kind of organization takes any. *)
Definition productAllowed (r : Registry) (org : string) (product : option string) : bool :=
  match organizations r !! org with
  | None => false
  | Some o =>
      negb (bool_decide (Organization_Kind o = OrganizationKindBrandCloud)) ||
      match product with
      | None => false
      | Some product =>
          bool_decide (Profile_BrandCloudID <$> device_item_profiles r !! product = Some org)
      end
  end.

(** The rows an override writes; the triggers set [updated_at]. *)
Definition moved_device (org reservation : string) (updated : Time) (d : Device) : Device :=
  mkDevice (Device_ID d) org (Device_Name d) (Device_Category d) (Device_SerialNumber d)
    (Device_MACAddress d) (Device_Manufacturer d) (Device_Model d) (Device_Status d)
    (Device_LastSeenAt d)
    (if bool_decide (reservation = "") then Device_Metadata d
     else <[DeviceMetadataVideoCloudTransferReservationID := AString reservation]> (Device_Metadata d))
    (Device_CreatedAt d) updated (Device_DisabledAt d) (Device_DeviceItemProfileID d).
Definition moved_token (org : string) (updated : Time) (t : DeviceClaimToken) : DeviceClaimToken :=
  mkClaimToken (Token_ID t) (Some org) (Token_CreatedBy t) (Token_DeviceItemProfileID t)
    (Token_Category t) (Token_VideoCloudDevid t) (Token_ActivityID t) (Token_ClipPublicKey t)
    (Token_ServiceOptions t) (Token_Metadata t) (Token_Notes t) (Token_ExpiresAt t)
    (Token_ClaimedAt t) (Token_RevokedAt t) (Token_CreatedAt t) updated.
Definition overridden_claim (org device actor status : string) (updated : Time) (c : DeviceClaim)
    : DeviceClaim :=
  mkDeviceClaim (DeviceClaim_ID c) (DeviceClaim_TokenID c) org device actor status
    (DeviceClaim_ProvisionInput c) (DeviceClaim_CreatedAt c) updated.

(** UPDATE devices: the trigger on organization_id, the unique serial number, and
    the foreign key from the device groups of the organization it leaves. *)
Definition update_device_owner (id org reservation : string) : Store Device :=
  db ← gets (λ db, db);
  d ← row_or ErrNoRows (devices db !! id);
  fence_cloud_deletion_write org ;;
  reject_if (serial_taken org id (Device_SerialNumber d) db) ErrConflict ;;
  reject_if (negb (bool_decide (Device_OrganizationID d = org)) &&
    existsb (λ gd, bool_decide (gd.2 = id)) (device_group_members db))
    (ErrPg "device_group_members_organization_id_device_id_fkey") ;;
  modify (with_devices (<[id := moved_device org reservation (now db) d]> (devices db))) ;;
  mret (moved_device org reservation (now db) d).

(** UPDATE device_claim_tokens, UPDATE device_claims *)
Definition update_token_owner (id org : string) : Store DeviceClaimToken :=
  t ← update_claim_token id (moved_token org);
  row_or ErrNoRows t.
Definition update_claim (id org device actor status reason : string) (evidence : jsonmap)
    (at_ : Time) : Store DeviceClaim :=
  db ← gets (λ db, db);
  row ← row_or ErrNoRows (device_claims (registry db) !! id);
  let c := overridden_claim org device actor status (now db) (claim_row row) in
  modify (λ db, with_claims (device_claim_tokens (registry db))
    (<[id := mkClaimRow c (Some actor) (Some reason) (marshalJSONMap evidence)
                (Some (pg_timestamptz at_))]> (device_claims (registry db))) db) ;;
  mret c.

Record DeviceClaimOverrideResult := mkOverrideResult {
  OverrideResult_Claim : DeviceClaim;
  OverrideResult_Token : DeviceClaimToken;
  OverrideResult_Device : Device;
}.

Section override.
Context {Remote : Type}.

Record claimOverrideInput := mkOverride {
  OI_ClaimID : string;
  OI_TokenID : string;
  OI_TargetOrganizationID : string;
  OI_ActorUserID : string;
  OI_Reason : string;
  OI_Evidence : jsonmap;
  OI_ReserveNoVideoCloudLifecycle : option (string → string → string → string → M Remote unit);
  OI_ReleaseNoVideoCloudLifecycle : option (string → string → M Remote unit);
  OI_Status : string;
  OI_EventType : string;
  OI_Now : Time;
}.

(** The transaction works on the tables, the Video Cloud and the variables
    [reservedVideoID] and [reservedID] of the deferred function. *)
Record TransferState := mkTransferState {
  ts_db : DB;
  ts_remote : Remote;
  ts_reserved : string * string;
}.
Definition in_account {A} (m : Store A) : M TransferState A :=
  zoom ts_db (λ db s, mkTransferState db (ts_remote s) (ts_reserved s)) m.
Definition in_remote {A} (m : M Remote A) : M TransferState A :=
  zoom ts_remote (λ r s, mkTransferState (ts_db s) r (ts_reserved s)) m.
Definition set_reserved (devid reservation : string) : M TransferState unit :=
  modify (λ s, mkTransferState (ts_db s) (ts_remote s) (devid, reservation)).

(** Up to the reservation: the rows, and what forbids the move. *)
Definition override_checks (input : claimOverrideInput)
    : Store (DeviceClaim * DeviceClaimToken * Device) :=
  lockPlatformActorTx (OI_ActorUserID input) ;;
  observed ← getClaimForOverrideTx (OI_ClaimID input) (OI_TokenID input);
  lock_clouds (sorted_pair (DeviceClaim_OrganizationID observed) (OI_TargetOrganizationID input)) ;;
  device ← getDeviceForUpdateTx (DeviceClaim_OrganizationID observed) (DeviceClaim_DeviceID observed);
  claim ← getClaimForOverrideTx (OI_ClaimID input) (OI_TokenID input);
  reject_if (negb (bool_decide (DeviceClaim_Status claim = "resolved"))) ErrClaimInvalidState ;;
  reject_if (negb (bool_decide (DeviceClaim_ID claim = DeviceClaim_ID observed)) ||
    negb (bool_decide (DeviceClaim_OrganizationID claim = DeviceClaim_OrganizationID observed)) ||
    negb (bool_decide (DeviceClaim_DeviceID claim = Device_ID device)) ||
    negb (bool_decide (DeviceClaim_TokenID claim = DeviceClaim_TokenID observed))) ErrConflict ;;
  db ← gets (λ db, db);
  reject_if (negb (bool_decide (DeviceClaim_OrganizationID claim = OI_TargetOrganizationID input)) &&
    (claimLifecycleBound (Device_Metadata device) || provision_recorded (Device_ID device) db))
    ErrClaimLifecycleBound ;;
  token ← getClaimTokenForUpdateTx (DeviceClaim_TokenID claim);
  reject_if (bool_decide (Token_ClaimedAt token = None)) ErrClaimInvalidState ;;
  reject_if (bool_decide (is_Some (Token_RevokedAt token))) ErrClaimRevoked ;;
  reject_if (match Token_OrganizationID token with
             | Some org => negb (bool_decide (org = DeviceClaim_OrganizationID claim))
             | None => false
             end
    || negb (bool_decide (stringValue (Token_DeviceItemProfileID token) =
                          stringValue (Device_DeviceItemProfileID device)))) ErrConflict ;;
  reject_if (negb (productAllowed (registry db) (OI_TargetOrganizationID input)
    (Device_DeviceItemProfileID device))) ErrConflict ;;
  mret (claim, token, device).

(** The reservation of the device, when it changes its organization. *)
Definition reserve_lifecycle (input : claimOverrideInput) (claim : DeviceClaim)
    (token : DeviceClaimToken) (device : Device) : M TransferState string :=
  if bool_decide (DeviceClaim_OrganizationID claim = OI_TargetOrganizationID input) then mret ""
  else
    let transferReservationID := claimTransferReservationID claim (OI_TargetOrganizationID input) in
    reserve ← row_or ErrClaimLifecycleCheckUnavailable (OI_ReserveNoVideoCloudLifecycle input);
    in_remote (reserve (Token_VideoCloudDevid token) transferReservationID
      (OI_TargetOrganizationID input) (Device_ID device)) ;;
    set_reserved (Token_VideoCloudDevid token) transferReservationID ;;
    mret transferReservationID.

Definition override_audit (input : claimOverrideInput) (claim : DeviceClaim)
    (token : DeviceClaimToken) (device : Device) (reservation : string) : jsonmap :=
  map_literal
    [("claim_id", AString (DeviceClaim_ID claim));
     ("claim_token_id", AString (DeviceClaim_TokenID claim));
     ("device_id", AString (DeviceClaim_DeviceID claim));
     ("source_organization_id", AString (DeviceClaim_OrganizationID claim));
     ("target_organization_id", AString (OI_TargetOrganizationID input));
     ("previous_device_status", AString (DeviceStatus_text (Device_Status device)));
     ("previous_claim_status", AString (DeviceClaim_Status claim));
     ("resulting_claim_status", AString (OI_Status input));
     ("reason", AString (OI_Reason input));
     ("evidence", AMap (members (OI_Evidence input)));
     ("video_cloud_devid", AString (Token_VideoCloudDevid token));
     ("transfer_reservation_id", AString reservation)].

(** After it: device, token and claim change together, with an audit event. *)
Definition override_writes (clock : Time) (input : claimOverrideInput) (claim : DeviceClaim)
    (token : DeviceClaimToken) (device : Device) (reservation : string)
    : Store DeviceClaimOverrideResult :=
  let target := OI_TargetOrganizationID input in
  updatedDevice ← update_device_owner (DeviceClaim_DeviceID claim) target reservation;
  updatedToken ← update_token_owner (DeviceClaim_TokenID claim) target;
  updatedClaim ← update_claim (DeviceClaim_ID claim) target (Device_ID updatedDevice)
    (OI_ActorUserID input) (OI_Status input) (OI_Reason input) (OI_Evidence input)
    (now_or clock (OI_Now input));
  create_audit_event (OI_EventType input) (Some (OI_ActorUserID input)) (Some target)
    "device_claim" (DeviceClaim_ID claim) (override_audit input claim token device reservation) ;;
  mret (mkOverrideResult updatedClaim updatedToken updatedDevice).

Definition override_tx (clock : Time) (input : claimOverrideInput)
    : M TransferState DeviceClaimOverrideResult :=
  '(claim, token, device) ← in_account (override_checks input);
  reservation ← reserve_lifecycle input claim token device;
  in_account (override_writes clock input claim token device reservation).

(** The deferred function: a reservation whose transaction did not try to commit. *)
Definition release_reserved (input : claimOverrideInput) (reserved : string * string) (err : error)
    (remote : Remote) : error * Remote :=
  match OI_ReleaseNoVideoCloudLifecycle input with
  | Some release =>
      if bool_decide (reserved.2 = "") then (err, remote)
      else match release reserved.1 reserved.2 remote with
           | (Ok _, remote) => (err, remote)
           | (Err e, remote) => (ErrJoin err e, remote)
           end
  | None => (err, remote)
  end.

Definition overrideDeviceClaim (clock : Time) (commit : CommitOutcome) (input : claimOverrideInput)
    : M (DB * Remote) DeviceClaimOverrideResult := λ '(db, remote),
  match override_tx clock input (mkTransferState db remote ("", "")) with
  | (Err err, s) =>
      let '(err, remote) := release_reserved input (ts_reserved s) err (ts_remote s) in
      (Err err, (db, remote))
  | (Ok result, s) =>
      match commit with
      | Committed => (Ok result, (ts_db s, ts_remote s))
      | CommitFailed err applied => (Err err, (if applied then ts_db s else db, ts_remote s))
      end
  end.

Record DeviceClaimTransferInput := mkClaimTransfer {
  CTR_ClaimID : string;
  CTR_TargetOrganizationID : string;
  CTR_ActorUserID : string;
  CTR_Reason : string;
  CTR_Evidence : jsonmap;
  CTR_ReserveNoVideoCloudLifecycle : option (string → string → string → string → M Remote unit);
  CTR_ReleaseNoVideoCloudLifecycle : option (string → string → M Remote unit);
  CTR_Now : Time;
}.

Definition transfer_override (input : DeviceClaimTransferInput) : claimOverrideInput :=
  mkOverride (CTR_ClaimID input) "" (CTR_TargetOrganizationID input) (CTR_ActorUserID input)
    (TrimSpace (CTR_Reason input)) (CTR_Evidence input) (CTR_ReserveNoVideoCloudLifecycle input)
    (CTR_ReleaseNoVideoCloudLifecycle input) "transferred" "device_claim_transferred"
    (CTR_Now input).

Definition TransferDeviceClaim (clock : Time) (commit : CommitOutcome)
    (input : DeviceClaimTransferInput) : M (DB * Remote) DeviceClaimOverrideResult :=
  lift_res (validateClaimOverrideInput (CTR_TargetOrganizationID input) (CTR_ActorUserID input)
    (CTR_Reason input) (CTR_Evidence input)) ;;
  overrideDeviceClaim clock commit (transfer_override input).

Record DeviceClaimReclaimInput := mkClaimReclaim {
  CRC_TokenID : string;
  CRC_TargetOrganizationID : string;
  CRC_ActorUserID : string;
  CRC_Reason : string;
  CRC_Evidence : jsonmap;
  CRC_ReserveNoVideoCloudLifecycle : option (string → string → string → string → M Remote unit);
  CRC_ReleaseNoVideoCloudLifecycle : option (string → string → M Remote unit);
  CRC_Now : Time;
}.

Definition reclaim_override (input : DeviceClaimReclaimInput) : claimOverrideInput :=
  mkOverride "" (CRC_TokenID input) (CRC_TargetOrganizationID input) (CRC_ActorUserID input)
    (TrimSpace (CRC_Reason input)) (CRC_Evidence input) (CRC_ReserveNoVideoCloudLifecycle input)
    (CRC_ReleaseNoVideoCloudLifecycle input) "reclaimed" "device_claim_reclaimed" (CRC_Now input).

Definition ReclaimDeviceClaimToken (clock : Time) (commit : CommitOutcome)
    (input : DeviceClaimReclaimInput) : M (DB * Remote) DeviceClaimOverrideResult :=
  lift_res (validateClaimOverrideInput (CRC_TargetOrganizationID input) (CRC_ActorUserID input)
    (CRC_Reason input) (CRC_Evidence input)) ;;
  overrideDeviceClaim clock commit (reclaim_override input).
End override.

(** ** Reconciliation of a reservation with the account *)

Record DeviceTransferFence := mkFence {
  Fence_DeviceID : string;
  Fence_ReservationID : string;
  Fence_OrganizationID : string;
  Fence_AccountDeviceID : string;
}.
#[export] Instance fence_eq_dec : EqDecision DeviceTransferFence.
Proof. solve_decision. Defined.

Record DeviceTransferFenceReconcileResult := mkReconcileResult {
  RR_Status : string;
  RR_ClaimID : string;
  RR_DeviceID : string;
  RR_VideoCloudDeviceID : string;
  RR_AccountOrganizationID : string;
  RR_TargetOrganizationID : string;
  RR_ReservationID : string;
}.

Definition member_is (m : jsonmap) (key value : string) : bool :=
  bool_decide (m !! key = Some (AString value)).
Definition member_nil (m : jsonmap) (key : string) : bool :=
  match m !! key with None | Some ANil => true | _ => false end.

(** The transfer of the fence happened. *)
Definition fence_committed (claim : DeviceClaim) (token : DeviceClaimToken) (device : Device)
    (fence : DeviceTransferFence) : bool :=
  let org := Fence_OrganizationID fence in
  bool_decide (DeviceClaim_OrganizationID claim = org) &&
  bool_decide (Device_OrganizationID device = org) &&
  (bool_decide (DeviceClaim_Status claim = "transferred")
   || bool_decide (DeviceClaim_Status claim = "reclaimed")) &&
  member_is (Device_Metadata device) DeviceMetadataVideoCloudTransferReservationID
    (Fence_ReservationID fence) &&
  bool_decide (Token_OrganizationID token = Some org).

(** The fence is the one this unchanged claim would reserve. *)
Definition fence_derivable (claim : DeviceClaim) (token : DeviceClaimToken) (device : Device)
    (fence : DeviceTransferFence) : bool :=
  let org := DeviceClaim_OrganizationID claim in
  bool_decide (DeviceClaim_Status claim = "resolved") &&
  bool_decide (org = Device_OrganizationID device) &&
  negb (bool_decide (org = Fence_OrganizationID fence)) &&
  bool_decide (Token_RevokedAt token = None) &&
  match Token_OrganizationID token with Some o => bool_decide (o = org) | None => true end &&
  member_is (Device_Metadata device) DeviceMetadataVideoCloudDevid (Token_VideoCloudDevid token) &&
  member_nil (Device_Metadata device) DeviceMetadataVideoCloudTransferReservationID &&
  negb (claimLifecycleBound (Device_Metadata device)) &&
  bool_decide (claimTransferReservationID claim (Fence_OrganizationID fence) =
               Fence_ReservationID fence).

Definition fence_status (claim : DeviceClaim) (token : DeviceClaimToken) (device : Device)
    (fence : DeviceTransferFence) (db : DB) : string :=
  if negb (bool_decide (Fence_DeviceID fence = Token_VideoCloudDevid token)) ||
     negb (bool_decide (Fence_AccountDeviceID fence = Device_ID device)) ||
     blank (Fence_OrganizationID fence) || blank (Fence_ReservationID fence)
  then "manual_review"
  else if fence_committed claim token device fence then "committed"
  else if fence_derivable claim token device fence then
    if provision_recorded (Device_ID device) db then "manual_review" else "cancelable"
  else "manual_review".

(** The rows as they are, without a lock. *)
Definition reconcile_rows (claimID : string) : Store (DeviceClaim * DeviceClaimToken * Device) :=
  observed ← getClaimForOverrideTx claimID "";
  found ← attempt (getDeviceForUpdateTx (DeviceClaim_OrganizationID observed)
    (DeviceClaim_DeviceID observed));
  device ← match found with
           | Ok device => mret device
           | Err err => throw (if errors_Is err ErrNotFound then ErrConflict else err)
           end;
  claim ← getClaimForOverrideTx claimID "";
  reject_if (negb (bool_decide (DeviceClaim_ID claim = DeviceClaim_ID observed)) ||
    negb (bool_decide (DeviceClaim_DeviceID claim = Device_ID device)) ||
    negb (bool_decide (DeviceClaim_OrganizationID claim = DeviceClaim_OrganizationID observed)) ||
    negb (bool_decide (DeviceClaim_TokenID claim = DeviceClaim_TokenID observed))) ErrConflict ;;
  token ← getClaimTokenForUpdateTx (DeviceClaim_TokenID claim);
  reject_if (blank (Token_VideoCloudDevid token)) ErrConflict ;;
  mret (claim, token, device).

Section reconcile.
Context {Remote : Type}.

Record DeviceTransferFenceReconcileInput := mkReconcile {
  RI_ClaimID : string;
  RI_ExpectedReservationID : string;
  RI_Cancel : bool;
  RI_ActorUserID : string;
  RI_Reason : string;
  RI_Evidence : jsonmap;
  RI_ReadFence : option (string → M Remote DeviceTransferFence);
  RI_ReleaseFence : option (string → string → M Remote unit);
}.

Definition on_account {A} (m : Store A) : M (DB * Remote) A := zoom fst (λ db s, (db, s.2)) m.
Definition on_remote {A} (m : M Remote A) : M (DB * Remote) A := zoom snd (λ r s, (s.1, r)) m.

Definition cancel_audit (input : DeviceTransferFenceReconcileInput) (token : DeviceClaimToken)
    (device : Device) (fence : DeviceTransferFence) : jsonmap :=
  map_literal
    [("account_device_id", AString (Device_ID device));
     ("video_cloud_devid", AString (Token_VideoCloudDevid token));
     ("target_organization_id", AString (Fence_OrganizationID fence));
     ("reservation_id", AString (Fence_ReservationID fence));
     ("reason", AString (TrimSpace (RI_Reason input)));
     ("evidence", AMap (members (RI_Evidence input)))].

(** Up to COMMIT, with whether there is something to commit.  A result the code
    returns beside an error is left out, as its only caller does. *)
Definition reconcile_tx (input : DeviceTransferFenceReconcileInput)
    (ReadFence : string → M Remote DeviceTransferFence)
    : M (DB * Remote) (DeviceTransferFenceReconcileResult * bool) :=
  (if RI_Cancel input then on_account (lockPlatformActorTx (RI_ActorUserID input)) else mret tt) ;;
  '(claim, token, device) ← on_account (reconcile_rows (RI_ClaimID input));
  let result status org reservation :=
    mkReconcileResult status (DeviceClaim_ID claim) (Device_ID device)
      (Token_VideoCloudDevid token) (DeviceClaim_OrganizationID claim) org reservation in
  read ← attempt (on_remote (ReadFence (Token_VideoCloudDevid token)));
  match read with
  | Err err =>
      if errors_Is err ErrNotFound then
        if RI_Cancel input then throw ErrConflict
        else
          let bound := bool_decide (is_Some
            (Device_Metadata device !! DeviceMetadataVideoCloudTransferReservationID)) in
          mret (result (if bound then "manual_review" else "absent") "" "", false)
      else throw (ErrWrap "read Video Cloud transfer fence" err)
  | Ok fence =>
      s ← gets (λ s, s);
      let status := fence_status claim token device fence s.1 in
      let answer status := result status (Fence_OrganizationID fence) (Fence_ReservationID fence) in
      if negb (RI_Cancel input) then mret (answer status, false)
      else
        reject_if (negb (bool_decide (status = "cancelable")) ||
          negb (bool_decide (RI_ExpectedReservationID input = Fence_ReservationID fence)))
          ErrConflict ;;
        on_account (create_audit_event "device_claim_transfer_fence_cancelled"
          (Some (RI_ActorUserID input)) (Some (DeviceClaim_OrganizationID claim)) "device_claim"
          (DeviceClaim_ID claim) (cancel_audit input token device fence)) ;;
        release ← row_or ErrClaimLifecycleCheckUnavailable (RI_ReleaseFence input);
        released ← attempt (on_remote
          (release (Token_VideoCloudDevid token) (Fence_ReservationID fence)));
        match released with
        | Err err => throw (ErrWrap "cancel Video Cloud transfer fence" err)
        | Ok _ => mret (answer "cancelled", true)
        end
  end.

Definition ReconcileDeviceTransferFence (commit : CommitOutcome)
    (input : DeviceTransferFenceReconcileInput)
    : M (DB * Remote) DeviceTransferFenceReconcileResult := λ '(db, remote),
  match RI_ReadFence input with
  | Some ReadFence =>
      if blank (RI_ClaimID input) || (RI_Cancel input && bool_decide (RI_ReleaseFence input = None))
      then (Err ErrClaimLifecycleCheckUnavailable, (db, remote))
      else if RI_Cancel input &&
        (blank (RI_ExpectedReservationID input) || blank (RI_ActorUserID input)
         || blank (RI_Reason input) || bool_decide (RI_Evidence input = ∅))
      then (Err ErrClaimEvidenceRequired, (db, remote))
      else
        match reconcile_tx input ReadFence (db, remote) with
        | (Err err, (_, remote)) => (Err err, (db, remote))
        | (Ok (result, false), (_, remote)) => (Ok result, (db, remote))
        | (Ok (result, true), (db', remote)) =>
            match commit with
            | Committed => (Ok result, (db', remote))
            | CommitFailed err applied => (Err err, (if applied then db' else db, remote))
            end
        end
  | None => (Err ErrClaimLifecycleCheckUnavailable, (db, remote))
  end.
End reconcile.

(** ** What an override checks and writes *)

Lemma lock_clouds_ok clouds db u db' : lock_clouds clouds db = (Ok u, db') → db' = db.
Proof.
  revert u db'. induction clouds as [|c clouds IH]; simpl; intros u db' H; [by injection H as _ <-|].
  apply bind_ok in H as ([] & s & Hc & H). apply lockOperationalCloudTx_ok in Hc as [-> _]. eauto.
Qed.

Lemma lockPlatformActorTx_ok actor db u db' :
  lockPlatformActorTx actor db = (Ok u, db') →
  db' = db ∧ ∃ x, users (registry db) !! actor = Some x ∧ live_user x = true ∧
    User_PlatformAdmin x = true.
Proof.
  unfold lockPlatformActorTx. intros H. inv_run. split; [done|].
  destruct (users _ !! actor) as [x|]; [|done]. simpl in *.
  destruct (live_user x) eqn:E; [|done]. simplify_eq. exists x. by destruct (User_PlatformAdmin x).
Qed.

Lemma getClaimForOverrideTx_ok claimID tokenID db claim db' :
  getClaimForOverrideTx claimID tokenID db = (Ok claim, db') →
  db' = db ∧ ∃ id row, device_claims (registry db) !! id = Some row ∧ claim_row row = claim ∧
    (if blank claimID then DeviceClaim_TokenID claim = tokenID else id = claimID).
Proof.
  unfold getClaimForOverrideTx. intros H. inv_run. split; [done|].
  destruct (blank claimID).
  - destruct (filter _ _) as [|row l] eqn:E; [done|]. simpl in *. simplify_eq.
    assert (row ∈ row :: l) as Hin by left. rewrite <-E in Hin.
    apply list_elem_of_filter in Hin as [? (id & ?)%elem_of_rows_of]. eauto.
  - destruct (device_claims _ !! claimID) as [row|] eqn:E; [|done]. simpl in *. simplify_eq. eauto.
Qed.

Section override_lemmas.
Context {Remote : Type}.
Implicit Types (input : @claimOverrideInput Remote).

(** The rows of an override that passed its checks. *)
Record transferable input (claim : DeviceClaim) (token : DeviceClaimToken) (device : Device)
    (db : DB) : Prop := {
  tr_admin : ∃ u, users (registry db) !! OI_ActorUserID input = Some u ∧ live_user u = true ∧
    User_PlatformAdmin u = true;
  tr_claim : getClaimForOverrideTx (OI_ClaimID input) (OI_TokenID input) db = (Ok claim, db);
  tr_device : device_in_org (DeviceClaim_OrganizationID claim) (DeviceClaim_DeviceID claim) db =
    Some device;
  tr_device_id : Device_ID device = DeviceClaim_DeviceID claim;
  tr_resolved : DeviceClaim_Status claim = "resolved";
  tr_unbound : DeviceClaim_OrganizationID claim ≠ OI_TargetOrganizationID input →
    claimLifecycleBound (Device_Metadata device) = false ∧
    provision_recorded (Device_ID device) db = false;
  tr_token : token_row <$> device_claim_tokens (registry db) !! DeviceClaim_TokenID claim = Some token;
  tr_claimed : is_Some (Token_ClaimedAt token);
  tr_unrevoked : Token_RevokedAt token = None;
  tr_token_org : Token_OrganizationID token = None ∨
    Token_OrganizationID token = Some (DeviceClaim_OrganizationID claim);
}.

Lemma override_checks_ok input db x db' :
  override_checks input db = (Ok x, db') →
  db' = db ∧ ∃ claim token device, x = (claim, token, device) ∧
    transferable input claim token device db.
Proof.
  unfold override_checks. intros H.
  apply bind_ok in H as ([] & s & Ha & H). apply lockPlatformActorTx_ok in Ha as [-> Ha].
  apply bind_ok in H as (observed & s & Ho & H).
  pose proof (getClaimForOverrideTx_ok _ _ _ _ _ Ho) as [-> _].
  apply bind_ok in H as ([] & s & Hl & H). apply lock_clouds_ok in Hl as ->.
  apply bind_ok in H as (device & s & Hd & H). unfold getDeviceForUpdateTx in Hd.
  apply bind_gets_ok in Hd.
  apply row_or_ok in Hd as [Hd ->].
  apply bind_ok in H as (claim & s & Hc & H). rewrite Ho in Hc. injection Hc as <- <-.
  apply bind_reject_ok in H as [H1 H].
  apply bind_reject_ok in H as [H2 H].
  apply bind_gets_ok in H.
  apply bind_reject_ok in H as [H3 H].
  apply bind_ok in H as (token & s & Ht & H). unfold getClaimTokenForUpdateTx, GetDeviceClaimToken in Ht.
  apply bind_gets_ok in Ht.
  apply row_or_ok in Ht as [Ht ->].
  apply bind_reject_ok in H as [H4 H].
  apply bind_reject_ok in H as [H5 H].
  apply bind_reject_ok in H as [H6 H].
  apply bind_reject_ok in H as [_ H].
  unfold mret, M_ret in H. injection H as <- <-. split; [done|].
  exists observed, token, device. split; [done|].
  rewrite !orb_false_iff, !negb_false_iff, !bool_decide_eq_true in H2.
  apply negb_false_iff, bool_decide_eq_true in H1. apply bool_decide_eq_false in H4, H5.
  apply orb_false_iff in H6 as [H6 _].
  constructor; try done.
  - by destruct H2 as [[_ <-] _].
  - intros Hne. rewrite bool_decide_false in H3 by done. simpl in H3. by apply orb_false_iff in H3.
  - by apply not_eq_None_Some.
  - by apply eq_None_not_Some.
  - destruct (Token_OrganizationID token) as [o|]; [right|by left].
    by apply negb_false_iff, bool_decide_eq_true in H6 as ->.
Qed.

(** The tables after the writes of an override. *)
Record overridden (clock : Time) input (claim : DeviceClaim) (token : DeviceClaimToken)
    (device : Device) (reservation : string) (db : DB) (r : DeviceClaimOverrideResult) (db' : DB)
    : Prop := {
  ov_unfenced : cloud_deletion_fenced (registry db) (OI_TargetOrganizationID input) = false;
  ov_ungrouped : DeviceClaim_OrganizationID claim ≠ OI_TargetOrganizationID input →
    ∀ gd, gd ∈ device_group_members db → gd.2 ≠ DeviceClaim_DeviceID claim;
  ov_device : OverrideResult_Device r =
    moved_device (OI_TargetOrganizationID input) reservation (now db) device;
  ov_token : OverrideResult_Token r = moved_token (OI_TargetOrganizationID input) (now db) token;
  ov_claim : OverrideResult_Claim r = overridden_claim (OI_TargetOrganizationID input)
    (Device_ID device) (OI_ActorUserID input) (OI_Status input) (now db) claim;
  ov_claim_row : is_Some (device_claims (registry db) !! DeviceClaim_ID claim);
  ov_state : ∃ hash payload,
    token_hash <$> device_claim_tokens (registry db) !! DeviceClaim_TokenID claim = Some hash ∧
    db' = with_audit (audit_events db ++ [mkAuditEvent (OI_EventType input)
        (Some (OI_ActorUserID input)) (Some (OI_TargetOrganizationID input)) "device_claim"
        (DeviceClaim_ID claim) payload (now db)])
      (with_claims
        (<[DeviceClaim_TokenID claim := mkTokenRow (OverrideResult_Token r) hash]>
           (device_claim_tokens (registry db)))
        (<[DeviceClaim_ID claim := mkClaimRow (OverrideResult_Claim r)
             (Some (OI_ActorUserID input)) (Some (OI_Reason input))
             (marshalJSONMap (OI_Evidence input))
             (Some (pg_timestamptz (now_or clock (OI_Now input))))]> (device_claims (registry db)))
        (with_devices (<[DeviceClaim_DeviceID claim := OverrideResult_Device r]> (devices db)) db));
}.

Lemma update_device_owner_ok id org reservation db d' db' :
  update_device_owner id org reservation db = (Ok d', db') →
  ∃ d, devices db !! id = Some d ∧ d' = moved_device org reservation (now db) d ∧
    cloud_deletion_fenced (registry db) org = false ∧
    (Device_OrganizationID d ≠ org → ∀ gd, gd ∈ device_group_members db → gd.2 ≠ id) ∧
    db' = with_devices (<[id := d']> (devices db)) db.
Proof.
  unfold update_device_owner, fence_cloud_deletion_write. intros H. apply bind_gets_ok in H.
  apply bind_row_ok in H as (d & Hd & H). apply bind_ok in H as (? & ? & Hf & H).
  apply bind_gets_ok in Hf. apply reject_if_ok in Hf as [Hf ->].
  apply bind_reject_ok in H as [_ H]. apply bind_reject_ok in H as [Hg H].
  unfold modify, mbind, M_bind, mret, M_ret in H. injection H as <- <-.
  exists d. split_and!; try done. intros Hne gd Hin Heq.
  rewrite bool_decide_false in Hg by done. simpl in Hg. apply not_true_iff_false in Hg. apply Hg.
  apply existsb_true. exists gd. by rewrite Heq, bool_decide_true.
Qed.

Lemma update_claim_ok id org device actor status reason evidence at_ db c db' :
  update_claim id org device actor status reason evidence at_ db = (Ok c, db') →
  ∃ row, device_claims (registry db) !! id = Some row ∧
    c = overridden_claim org device actor status (now db) (claim_row row) ∧
    db' = with_claims (device_claim_tokens (registry db))
      (<[id := mkClaimRow c (Some actor) (Some reason) (marshalJSONMap evidence)
                  (Some (pg_timestamptz at_))]> (device_claims (registry db))) db.
Proof.
  unfold update_claim. intros H. apply bind_gets_ok in H. apply bind_row_ok in H as (row & Hrow & H).
  unfold modify, mbind, M_bind, mret, M_ret in H. injection H as <- <-. eauto.
Qed.

(** Claims are stored under their own id, one for a token. *)
Record claims_ok (r : Registry) : Prop := {
  claims_keyed : ∀ id row, device_claims r !! id = Some row →
    DeviceClaim_ID (claim_row row) = id;
  claims_per_token : ∀ i j x y, device_claims r !! i = Some x →
    device_claims r !! j = Some y →
    DeviceClaim_TokenID (claim_row x) = DeviceClaim_TokenID (claim_row y) → i = j;
}.

Lemma transferable_claim input claim token device db :
  claims_ok (registry db) → transferable input claim token device db →
  claim_row <$> device_claims (registry db) !! DeviceClaim_ID claim = Some claim.
Proof.
  intros Hc Ht. destruct (getClaimForOverrideTx_ok _ _ _ _ _ (tr_claim _ _ _ _ _ Ht))
    as (_ & id & row & Hrow & <- & _). by rewrite (claims_keyed _ Hc _ _ Hrow), Hrow.
Qed.

Lemma override_writes_ok clock input claim token device reservation db r db' :
  claims_ok (registry db) → transferable input claim token device db →
  override_writes clock input claim token device reservation db = (Ok r, db') →
  overridden clock input claim token device reservation db r db'.
Proof.
  intros Hok Ht. pose proof (transferable_claim _ _ _ _ _ Hok Ht) as Hcl. unfold override_writes.
  intros H. apply bind_ok in H as (d' & s & Hd & H).
  apply update_device_owner_ok in Hd as (d & Hd & -> & Hf & Hg & ->).
  pose proof (tr_device _ _ _ _ _ Ht) as [Hd' Horg]%device_in_org_some. simplify_eq.
  apply bind_ok in H as (t' & s & Hu & H). unfold update_token_owner in Hu.
  apply bind_ok in Hu as (o & s' & Hu & Ho). rewrite update_claim_token_run in Hu. simpl in Hu.
  pose proof (tr_token _ _ _ _ _ Ht) as Htok.
  destruct (device_claim_tokens (registry db) !! _) as [row|] eqn:Hrow; [|done]. simpl in Htok.
  simplify_eq. apply row_or_ok in Ho as [[= <-] ->].
  apply bind_ok in H as (c' & s & Hc & H). apply update_claim_ok in Hc as (crow & Hcrow & -> & ->).
  simpl in Hcrow. rewrite Hcrow in Hcl. simpl in Hcl. injection Hcl as <-.
  apply bind_ok in H as (? & s & Ha & H). unfold create_audit_event in Ha. apply bind_gets_ok in Ha.
  unfold insert_audit_event, modify in Ha. injection Ha as _ <-.
  unfold mret, M_ret in H. injection H as <- <-.
  constructor; simpl; try done.
  - intros Hne. apply Hg. by rewrite Horg.
  - eexists (token_hash row), _. rewrite Hrow. split; [done|]. reflexivity.
Qed.

(** *** The run up to COMMIT *)

Lemma in_account_run {A} (m : Store A) db (remote : Remote) reserved :
  in_account m (mkTransferState db remote reserved) =
    let '(r, db') := m db in (r, mkTransferState db' remote reserved).
Proof. unfold in_account, zoom. simpl. by destruct (m db). Qed.

(** What the reservation phase leaves: nothing, or a reservation that was granted. *)
Definition reservation_of input (claim : DeviceClaim) (token : DeviceClaimToken) (device : Device)
    (remote : Remote) (reservation : string) (reserved : string * string) (remote' : Remote) : Prop :=
  if bool_decide (DeviceClaim_OrganizationID claim = OI_TargetOrganizationID input)
  then reservation = "" ∧ reserved = ("", "") ∧ remote' = remote
  else
    reservation = claimTransferReservationID claim (OI_TargetOrganizationID input) ∧
    reserved = (Token_VideoCloudDevid token, reservation) ∧
    ∃ reserve, OI_ReserveNoVideoCloudLifecycle input = Some reserve ∧
      reserve (Token_VideoCloudDevid token) reservation (OI_TargetOrganizationID input)
        (Device_ID device) remote = (Ok tt, remote').

Lemma reserve_lifecycle_cases input claim token device db remote r s :
  reserve_lifecycle input claim token device (mkTransferState db remote ("", "")) = (r, s) →
  ts_db s = db ∧
  match r with
  | Ok reservation =>
      reservation_of input claim token device remote reservation (ts_reserved s) (ts_remote s)
  | Err _ => ts_reserved s = ("", "")
  end.
Proof.
  unfold reserve_lifecycle, reservation_of. case_bool_decide; [by intros [= <- <-]|].
  unfold row_or, mbind, M_bind, mret, M_ret, throw.
  destruct (OI_ReserveNoVideoCloudLifecycle input) as [reserve|]; [|by intros [= <- <-]].
  unfold in_remote, zoom. simpl. destruct (reserve _ _ _ _ remote) as [[[]|e] remote1] eqn:E;
    intros [= <- <-]; simpl; [|done]. split_and!; try done. eauto.
Qed.

Lemma override_tx_cases clock input db remote r s :
  override_tx clock input (mkTransferState db remote ("", "")) = (r, s) →
  (is_ok r = false ∧ ts_reserved s = ("", "")) ∨
  ∃ claim token device reservation,
    transferable input claim token device db ∧
    reservation_of input claim token device remote reservation (ts_reserved s) (ts_remote s) ∧
    override_writes clock input claim token device reservation db = (r, ts_db s).
Proof.
  unfold override_tx, mbind, M_bind. rewrite in_account_run.
  destruct (override_checks input db) as [[x|e] db1] eqn:Hc; [|intros [= <- <-]; by left].
  apply override_checks_ok in Hc as (-> & claim & token & device & -> & Ht).
  destruct (reserve_lifecycle _ _ _ _ _) as [[reservation|e] s1] eqn:Hr;
    apply reserve_lifecycle_cases in Hr as [Hdb Hr]; [|intros [= <- <-]; by left].
  destruct s1 as [db1 remote1 reserved]. simpl in *. subst db1. rewrite in_account_run.
  destruct (override_writes _ _ _ _ _ _ db) as [r' db'] eqn:Hw. intros [= -> <-]. right.
  by exists claim, token, device, reservation.
Qed.
End override_lemmas.

(** ** The reservation protocol *)

Lemma override_outcome {Remote : Type} clock commit (input : @claimOverrideInput Remote)
    db remote r db' remote' :
  claims_ok (registry db) → overrideDeviceClaim clock commit input (db, remote) = (r, (db', remote')) →
  (* no reservation was granted *)
  (is_ok r = false ∧ db' = db) ∨
  ∃ claim token device reservation reserved remote1,
    transferable input claim token device db ∧
    reservation_of input claim token device remote reservation reserved remote1 ∧
    match r with
    | Ok result => commit = Committed ∧ remote' = remote1 ∧
        overridden clock input claim token device reservation db result db'
    | Err err =>
        (db' = db ∧ ∃ cause, release_reserved input reserved cause remote1 = (err, remote')) ∨
        (∃ applied result db1, commit = CommitFailed err applied ∧ remote' = remote1 ∧
           overridden clock input claim token device reservation db result db1 ∧
           db' = if applied then db1 else db)
    end.
Proof.
  intros Hok. unfold overrideDeviceClaim.
  destruct (override_tx clock input _) as [r0 s] eqn:E.
  apply override_tx_cases in E as [[Hr Hs]|(claim & token & device & reservation & Ht & Hres & Hw)].
  - destruct r0 as [|err]; [done|]. destruct (release_reserved _ _ _ _) as [err' remote1].
    intros [= <- <- <-]. by left.
  - intros H. right. exists claim, token, device, reservation, (ts_reserved s), (ts_remote s).
    do 2 (split; [done|]). destruct r0 as [result|err].
    + apply (override_writes_ok _ _ _ _ _ _ _ _ _ Hok Ht) in Hw.
      destruct commit as [|err applied]; injection H as <- <- <-; [done|]. right. eauto 7.
    + destruct (release_reserved _ _ _ _) as [err' remote1] eqn:Hrel. injection H as <- <- <-. left.
      eauto.
Qed.

(** The reservation of the device for its new organization: its name, and the answer of the
    Video Cloud with the state the call leaves there. *)
Definition reservation_name {Remote} (input : @claimOverrideInput Remote) (claim : DeviceClaim) : string :=
  claimTransferReservationID claim (OI_TargetOrganizationID input).

Definition reservation_answered {Remote} (input : @claimOverrideInput Remote) (claim : DeviceClaim)
    (token : DeviceClaimToken) (device : Device) (remote : Remote) (answer : res unit) (remote' : Remote)
    : Prop :=
  DeviceClaim_OrganizationID claim ≠ OI_TargetOrganizationID input ∧
  match OI_ReserveNoVideoCloudLifecycle input with
  | Some reserve => reserve (Token_VideoCloudDevid token) (reservation_name input claim)
      (OI_TargetOrganizationID input) (Device_ID device) remote = (answer, remote')
  | None => answer = Err ErrClaimLifecycleCheckUnavailable ∧ remote' = remote
  end.

(** None is asked for when the device stays in its organization: the name is blank. *)
Definition reservation_granted {Remote} (input : @claimOverrideInput Remote) (claim : DeviceClaim)
    (token : DeviceClaimToken) (device : Device) (remote : Remote) (reservation : string) (remote' : Remote)
    : Prop :=
  (DeviceClaim_OrganizationID claim = OI_TargetOrganizationID input ∧ reservation = "" ∧ remote' = remote) ∨
  (reservation = reservation_name input claim ∧
   reservation_answered input claim token device remote (Ok tt) remote').

(** A granted reservation is asked back, and [err] is the cause, with the failure to release
    joined to it when there is one. *)
Definition reservation_released {Remote} (input : @claimOverrideInput Remote) (token : DeviceClaimToken)
    (reservation : string) (cause : error) (remote : Remote) (err : error) (remote' : Remote) : Prop :=
  match OI_ReleaseNoVideoCloudLifecycle input with
  | Some release =>
      if bool_decide (reservation = "") then err = cause ∧ remote' = remote
      else ∃ released, release (Token_VideoCloudDevid token) reservation remote = (released, remote') ∧
        err = match released with Ok _ => cause | Err e => ErrJoin cause e end
  | None => err = cause ∧ remote' = remote
  end.

Lemma release_reserved_released {Remote} (input : @claimOverrideInput Remote) claim token device remote
    reservation reserved remote1 cause err remote' :
  reservation_of input claim token device remote reservation reserved remote1 →
  release_reserved input reserved cause remote1 = (err, remote') →
  reservation_granted input claim token device remote reservation remote1 ∧
  reservation_released input token reservation cause remote1 err remote'.
Proof.
  intros Hres Hrel.
  assert (reserved.2 = reservation ∧ (reservation ≠ "" → reserved.1 = Token_VideoCloudDevid token) ∧
    reservation_granted input claim token device remote reservation remote1) as (H2 & H1 & Hg).
  { unfold reservation_of, reservation_granted, reservation_answered in *. case_bool_decide.
    - destruct Hres as (-> & -> & ->). split_and!; [done|done|by left].
    - destruct Hres as (-> & -> & reserve & -> & Hcall). split_and!; [done|done|by right]. }
  split; [done|]. unfold reservation_released, release_reserved in *. rewrite H2 in Hrel.
  destruct (OI_ReleaseNoVideoCloudLifecycle input) as [release|]; [|by injection Hrel as <- <-].
  case_bool_decide as Eb; [by injection Hrel as <- <-|]. rewrite (H1 Eb) in Hrel.
  destruct (release _ _ remote1) as [[[]|e] remote2] eqn:E; injection Hrel as <- <-; by eexists.
Qed.

Lemma reservation_of_granted {Remote} (input : @claimOverrideInput Remote) claim token device remote
    reservation reserved remote1 :
  reservation_of input claim token device remote reservation reserved remote1 →
  reservation_granted input claim token device remote reservation remote1.
Proof.
  intros H. destruct (release_reserved input reserved (ErrText "") remote1) as [err remote'] eqn:E.
  by eapply release_reserved_released.
Qed.

(** The run up to COMMIT, with what was reserved when. *)
Lemma override_tx_run {Remote} clock (input : @claimOverrideInput Remote) db remote r s :
  override_tx clock input (mkTransferState db remote ("", "")) = (r, s) →
  (∃ err, r = Err err ∧ (override_checks input db).1 = Err err ∧ ts_remote s = remote ∧
     ts_reserved s = ("", "")) ∨
  ∃ claim token device, transferable input claim token device db ∧
    ((∃ err, r = Err err ∧ reservation_answered input claim token device remote (Err err) (ts_remote s) ∧
        ts_reserved s = ("", "")) ∨
     ∃ reservation,
       reservation_of input claim token device remote reservation (ts_reserved s) (ts_remote s) ∧
       override_writes clock input claim token device reservation db = (r, ts_db s)).
Proof.
  unfold override_tx, mbind, M_bind. rewrite in_account_run.
  destruct (override_checks input db) as [[x|e] db1] eqn:Hc; [|intros [= <- <-]; left; by exists e].
  apply override_checks_ok in Hc as (-> & claim & token & device & -> & Ht).
  intros H. right. exists claim, token, device. split; [done|]. revert H.
  destruct (reserve_lifecycle _ _ _ _ _) as [[reservation|e] s1] eqn:Hr.
  - apply reserve_lifecycle_cases in Hr as [Hdb Hr].
    destruct s1 as [db1 remote1 reserved]. simpl in *. subst db1. rewrite in_account_run.
    destruct (override_writes _ _ _ _ _ _ db) as [r' db'] eqn:Hw. intros [= -> <-]. right. by exists reservation.
  - intros [= <- <-]. left. exists e. split; [done|]. unfold reserve_lifecycle, reservation_answered in *.
    case_bool_decide; [done|]. unfold row_or, mbind, M_bind, mret, M_ret, throw in Hr.
    destruct (OI_ReserveNoVideoCloudLifecycle input) as [reserve|]; [|by injection Hr as <- <-].
    unfold in_remote, zoom in Hr. simpl in Hr.
    destruct (reserve _ _ _ _ remote) as [[[]|x] remote1] eqn:E; [done|].
    by injection Hr as <- <-.
Qed.

(** C25: the two systems are never left further apart than a lost answer leaves them.  An override that is
    refused by its checks has changed neither.  One whose reservation is refused, or answered
    with an error, has changed no row and made no other call.  One that fails in its writes has changed no row,
    and asks for the reservation it was granted to be released; the error says when the release fails too.
    One that reports success has moved the rows and keeps its reservation; and one whose COMMIT
    is answered by an error keeps the reservation too, whether the rows have moved or not. *)
Theorem override_reservation_protocol {Remote : Type} clock commit (input : @claimOverrideInput Remote)
    db remote r db' remote' :
  claims_ok (registry db) → overrideDeviceClaim clock commit input (db, remote) = (r, (db', remote')) →
  (∃ err, (override_checks input db).1 = Err err ∧ r = Err err ∧ db' = db ∧ remote' = remote) ∨
  ∃ claim token device, transferable input claim token device db ∧
    ((∃ err, reservation_answered input claim token device remote (Err err) remote' ∧ r = Err err ∧
        db' = db) ∨
     ∃ reservation remote1, reservation_granted input claim token device remote reservation remote1 ∧
       ((∃ cause err, (override_writes clock input claim token device reservation db).1 = Err cause ∧
           reservation_released input token reservation cause remote1 err remote' ∧
           r = Err err ∧ db' = db) ∨
        (∃ result, r = Ok result ∧ commit = Committed ∧ remote' = remote1 ∧
           overridden clock input claim token device reservation db result db') ∨
        (∃ err applied result db1, r = Err err ∧ commit = CommitFailed err applied ∧ remote' = remote1 ∧
           overridden clock input claim token device reservation db result db1 ∧
           db' = if applied then db1 else db))).
Proof.
  intros Hok. unfold overrideDeviceClaim.
  destruct (override_tx clock input _) as [r0 s] eqn:E.
  apply override_tx_run in E as [(err & -> & Hc & <- & Hs)|(claim & token & device & Ht & E)].
  { unfold release_reserved. rewrite Hs. simpl. intros H. left. exists err.
    destruct (OI_ReleaseNoVideoCloudLifecycle input); by injection H as <- <- <-. }
  intros H. right. exists claim, token, device. split; [done|].
  destruct E as [(err & -> & Ha & Hs)|(reservation & Hres & Hw)].
  { left. exists err. unfold release_reserved in H. rewrite Hs in H. simpl in H.
    destruct (OI_ReleaseNoVideoCloudLifecycle input); by injection H as <- <- <-. }
  right. exists reservation, (ts_remote s). destruct r0 as [result|cause].
  - apply (override_writes_ok _ _ _ _ _ _ _ _ _ Hok Ht) in Hw.
    split; [by eapply reservation_of_granted|]. right.
    destruct commit as [|err applied]; injection H as <- <- <-; [left; by exists result|right].
    by exists err, applied, result, (ts_db s).
  - destruct (release_reserved _ _ _ _) as [err' remote2] eqn:Hrel. injection H as <- <- <-.
    destruct (release_reserved_released _ _ _ _ _ _ _ _ _ _ _ Hres Hrel) as [Hg Hr].
    split; [done|]. left. exists cause, err'. by rewrite Hw.
Qed.

(** A device whose lifecycle in the Video Cloud has started never changes its organization this
    way: when an activation status is recorded on it, or a provisioning was ever requested, every
    override to another organization fails, reserves nothing and changes nothing. *)
Theorem lifecycle_bound_device_stays {Remote : Type} clock commit (input : @claimOverrideInput Remote)
    db remote r db' remote' claim device :
  overrideDeviceClaim clock commit input (db, remote) = (r, (db', remote')) →
  getClaimForOverrideTx (OI_ClaimID input) (OI_TokenID input) db = (Ok claim, db) →
  device_in_org (DeviceClaim_OrganizationID claim) (DeviceClaim_DeviceID claim) db = Some device →
  DeviceClaim_OrganizationID claim ≠ OI_TargetOrganizationID input →
  claimLifecycleBound (Device_Metadata device) = true ∨
    provision_recorded (Device_ID device) db = true →
  is_ok r = false ∧ db' = db ∧ remote' = remote.
Proof.
  intros H Hc Hd Hne Hbound. unfold overrideDeviceClaim, override_tx, mbind, M_bind in H.
  rewrite in_account_run in H. destruct (override_checks input db) as [[x|e] db1] eqn:E.
  - apply override_checks_ok in E as (-> & c & t & d & -> & Ht).
    pose proof (tr_claim _ _ _ _ _ Ht) as Hc'. rewrite Hc in Hc'. injection Hc' as <-.
    pose proof (tr_device _ _ _ _ _ Ht) as Hd'. rewrite Hd in Hd'. injection Hd' as <-.
    destruct (tr_unbound _ _ _ _ _ Ht Hne). destruct Hbound; congruence.
  - unfold release_reserved in H. simpl in H.
    by destruct (OI_ReleaseNoVideoCloudLifecycle input); injection H as <- <- <-.
Qed.

(** ** The Video Cloud's fences *)

(** What the account relies on: at most one fence for a device, reserved, read and
    removed as answered.  A call that ends with an error may have happened. *)
Class TransferFencer (Remote : Type) := {
  ReadTransferFence : string → M Remote DeviceTransferFence;
  ReserveTransferFence : string → string → string → string → M Remote unit;
  ReleaseTransferFence : string → string → M Remote unit;
  fences : Remote → gmap string DeviceTransferFence;
  read_ok d s fence s' : ReadTransferFence d s = (Ok fence, s') →
    fences s !! d = Some fence ∧ fences s' = fences s;
  read_absent d s err s' : ReadTransferFence d s = (Err err, s') → errors_Is err ErrNotFound = true →
    fences s !! d = None ∧ fences s' = fences s;
  reserve_ok d id org account s s' : ReserveTransferFence d id org account s = (Ok tt, s') →
    fences s' = <[d := mkFence d id org account]> (fences s);
  release_ok d id s s' : ReleaseTransferFence d id s = (Ok tt, s') →
    (∃ fence, fences s !! d = Some fence ∧ Fence_ReservationID fence = id) ∧
    fences s' = delete d (fences s);
}.

(** One that always answers. *)
Definition table_read (d : string) : M (gmap string DeviceTransferFence) DeviceTransferFence :=
  s ← gets (λ s, s); row_or ErrNotFound (s !! d).
Definition table_reserve (d id org account : string) : M (gmap string DeviceTransferFence) unit :=
  s ← gets (λ s, s);
  reject_if match s !! d with
    | Some fence => negb (bool_decide (Fence_ReservationID fence = id))
    | None => false
    end ErrClaimLifecycleBound ;;
  modify (<[d := mkFence d id org account]>).
Definition table_release (d id : string) : M (gmap string DeviceTransferFence) unit :=
  s ← gets (λ s, s);
  reject_if match s !! d with
    | Some fence => negb (bool_decide (Fence_ReservationID fence = id))
    | None => true
    end (ErrText "transfer_fence_conflict") ;;
  modify (delete d).

#[export, program] Instance fence_table : TransferFencer (gmap string DeviceTransferFence) := {
  ReadTransferFence := table_read;
  ReserveTransferFence := table_reserve;
  ReleaseTransferFence := table_release;
  fences s := s;
}.
Next Obligation. unfold table_read. intros. by inv_run. Qed.
Next Obligation.
  unfold table_read. intros d s err s' H _. revert H. run_simpl.
  by destruct (s !! d); intros [= <- <-].
Qed.
Next Obligation. unfold table_reserve. intros. by inv_run. Qed.
Next Obligation.
  unfold table_release. intros d id s s' H. inv_run. split; [|done].
  destruct (_ !! d) as [f|]; [|done]. exists f. by destruct_bools.
Qed.

(** ** What reconciliation reads *)

Record rows_found (claimID : string) (claim : DeviceClaim) (token : DeviceClaimToken)
    (device : Device) (db : DB) : Prop := {
  rf_claim : claim_row <$> device_claims (registry db) !! claimID = Some claim;
  rf_device : device_in_org (DeviceClaim_OrganizationID claim) (DeviceClaim_DeviceID claim) db =
    Some device;
  rf_device_id : DeviceClaim_DeviceID claim = Device_ID device;
  rf_token : token_row <$> device_claim_tokens (registry db) !! DeviceClaim_TokenID claim = Some token;
  rf_devid : blank (Token_VideoCloudDevid token) = false;
}.

Lemma reconcile_rows_ok claimID db claim token device db' :
  blank claimID = false → reconcile_rows claimID db = (Ok (claim, token, device), db') →
  db' = db ∧ rows_found claimID claim token device db.
Proof.
  intros Hb. unfold reconcile_rows. intros H. apply bind_ok in H as (observed & s & Ho & H).
  pose proof (getClaimForOverrideTx_ok _ _ _ _ _ Ho) as (-> & id & row & Hrow & Hcl & Hid).
  rewrite Hb in Hid. subst id.
  apply bind_ok in H as (found & s & Hf & H). unfold getDeviceForUpdateTx, attempt in Hf.
  unfold gets, row_or, mbind, M_bind, mret, M_ret, throw in Hf.
  destruct (device_in_org _ _ db) as [d|] eqn:Hd; injection Hf as <- <-; [|done].
  apply bind_ok in H as (? & ? & [= <- <-] & H).
  apply bind_ok in H as (claim' & s & Hc & H). rewrite Ho in Hc. injection Hc as <- <-.
  apply bind_reject_ok in H as [Hr H]. apply bind_ok in H as (t & s & Ht & H).
  unfold getClaimTokenForUpdateTx, GetDeviceClaimToken in Ht. apply bind_gets_ok in Ht.
  apply row_or_ok in Ht as [Ht ->]. apply bind_reject_ok in H as [Hbd H].
  unfold mret, M_ret in H. injection H as <- <- <- <-. split; [done|].
  rewrite !orb_false_iff, !negb_false_iff, !bool_decide_eq_true in Hr.
  constructor; try done; [by rewrite Hrow, <-Hcl|tauto].
Qed.

Section reconcile_lemmas.
Context {Remote : Type}.
Implicit Types (input : @DeviceTransferFenceReconcileInput Remote).

Lemma on_account_ok {A} (m : Store A) db (remote : Remote) a s :
  on_account m (db, remote) = (Ok a, s) → m db = (Ok a, s.1) ∧ s.2 = remote.
Proof. unfold on_account, zoom. simpl. destruct (m db) as [[x|e] db1]; [|done]. by intros [= <- <-]. Qed.
Lemma on_remote_run {A} (m : M Remote A) db remote :
  on_remote m (db, remote) = let '(r, remote') := m remote in (r, (db, remote')).
Proof. unfold on_remote, zoom. simpl. by destruct (m remote). Qed.

(** What was read, and for a cancellation what it did. *)
Definition reconciled input (claim : DeviceClaim) (token : DeviceClaimToken) (device : Device)
    (db : DB) (read : res DeviceTransferFence) (remote : Remote)
    (rr : DeviceTransferFenceReconcileResult) (fin : bool) (db' : DB) (remote' : Remote) : Prop :=
  match read with
  | Err err => errors_Is err ErrNotFound = true ∧ RI_Cancel input = false ∧ fin = false ∧
      db' = db ∧ remote' = remote
  | Ok fence =>
      let status := fence_status claim token device fence db in
      RR_ReservationID rr = Fence_ReservationID fence ∧
      RR_TargetOrganizationID rr = Fence_OrganizationID fence ∧
      if RI_Cancel input then
        status = "cancelable" ∧ RI_ExpectedReservationID input = Fence_ReservationID fence ∧
        RR_Status rr = "cancelled" ∧ fin = true ∧
        (∃ release, RI_ReleaseFence input = Some release ∧
           release (Token_VideoCloudDevid token) (Fence_ReservationID fence) remote = (Ok tt, remote')) ∧
        db' = with_audit (audit_events db ++ [mkAuditEvent "device_claim_transfer_fence_cancelled"
          (Some (RI_ActorUserID input)) (Some (DeviceClaim_OrganizationID claim)) "device_claim"
          (DeviceClaim_ID claim) (marshalJSONMap (cancel_audit input token device fence)) (now db)]) db
      else RR_Status rr = status ∧ fin = false ∧ db' = db ∧ remote' = remote
  end.

Lemma reconcile_tx_ok input ReadFence db remote rr fin db' remote' :
  blank (RI_ClaimID input) = false →
  reconcile_tx input ReadFence (db, remote) = (Ok (rr, fin), (db', remote')) →
  ∃ claim token device read remote1, rows_found (RI_ClaimID input) claim token device db ∧
    ReadFence (Token_VideoCloudDevid token) remote = (read, remote1) ∧
    RR_DeviceID rr = Device_ID device ∧
    reconciled input claim token device db read remote1 rr fin db' remote'.
Proof.
  intros Hb H. unfold reconcile_tx in H. apply bind_ok in H as (? & s & Ha & H).
  assert (s = (db, remote)) as ->.
  { destruct (RI_Cancel input); [|by injection Ha as _ <-].
    apply on_account_ok in Ha as [Ha Hs]. apply lockPlatformActorTx_ok in Ha as [Ha _].
    destruct s; simpl in *; congruence. }
  apply bind_ok in H as ([[claim token] device] & [db1 remote0] & Hr & H).
  apply on_account_ok in Hr as [Hr Hs]. simpl in Hr, Hs. subst remote0.
  apply (reconcile_rows_ok _ _ _ _ _ _ Hb) in Hr as [-> Hf].
  apply bind_ok in H as (read & s & Hread & H). unfold attempt in Hread. rewrite on_remote_run in Hread.
  destruct (ReadFence (Token_VideoCloudDevid token) remote) as [answer remote1] eqn:E.
  injection Hread as <- <-. exists claim, token, device, answer, remote1. do 2 (split; [done|]).
  unfold reconciled. destruct answer as [fence|err].
  - apply bind_gets_ok in H. simpl in H. destruct (RI_Cancel input); simpl in H.
    + apply bind_reject_ok in H as [Hc H]. destruct_bools.
      apply bind_ok in H as (? & [db2 remote2] & Hau & H). apply on_account_ok in Hau as [Hau ?].
      unfold create_audit_event, insert_audit_event, modify, gets, mbind, M_bind in Hau.
      injection Hau as Hau. simpl in *. subst.
      apply bind_row_ok in H as (release & Hrel & H). apply bind_ok in H as (released & s & Hr & H).
      unfold attempt in Hr. rewrite on_remote_run in Hr.
      destruct (release _ _ remote1) as [y remote3] eqn:Erel. injection Hr as <- <-.
      destruct y as [[]|]; [|discriminate H]. unfold mret, M_ret in H. injection H as <- <- <- <-.
      split_and!; try done. eauto.
    + unfold mret, M_ret in H. injection H as <- <- <- <-. done.
  - destruct (errors_Is err ErrNotFound) eqn:He; [|discriminate H].
    destruct (RI_Cancel input); [discriminate H|]. unfold mret, M_ret in H. by injection H as <- <- <- <-.
Qed.

Lemma ReconcileDeviceTransferFence_ok commit input db remote rr db' remote' :
  ReconcileDeviceTransferFence commit input (db, remote) = (Ok rr, (db', remote')) →
  ∃ ReadFence claim token device read remote1, RI_ReadFence input = Some ReadFence ∧
    rows_found (RI_ClaimID input) claim token device db ∧
    ReadFence (Token_VideoCloudDevid token) remote = (read, remote1) ∧
    RR_DeviceID rr = Device_ID device ∧
    reconciled input claim token device db read remote1 rr (RI_Cancel input) db' remote' ∧
    (RI_Cancel input = true → commit = Committed).
Proof.
  unfold ReconcileDeviceTransferFence. destruct (RI_ReadFence input) as [ReadFence|]; [|done].
  destruct (blank (RI_ClaimID input)) eqn:Hb; [done|]. simpl.
  destruct (_ && _); [done|]. destruct (_ && _); [done|].
  destruct (reconcile_tx input ReadFence (db, remote)) as [[[r fin]|e] [db1 remote1]] eqn:E; [|done].
  apply reconcile_tx_ok in E as (claim & token & device & read & remote2 & Hf & Hr & Hd & Hrec); [|done].
  intros H. exists ReadFence, claim, token, device, read, remote2. do 3 (split; [done|]).
  assert (fin = RI_Cancel input) as ->.
  { unfold reconciled in Hrec. destruct read; [|by destruct Hrec as (_ & -> & -> & _)].
    destruct (RI_Cancel input); naive_solver. }
  assert (r = rr ∧ (if RI_Cancel input then db1 = db' else db = db') ∧ remote1 = remote' ∧
    (RI_Cancel input = true → commit = Committed)) as (-> & Hdb & -> & Hcm).
  { destruct (RI_Cancel input); [destruct commit as [|? []]; try discriminate H|]; by injection H as <- <- <-. }
  split; [done|]. split; [|done]. unfold reconciled in *.
  destruct read, (RI_Cancel input); naive_solver.
Qed.

(** Whatever it answers, a reconciliation writes an audit event at most. *)
Lemma reconcile_writes commit input db remote r db' remote' :
  ReconcileDeviceTransferFence commit input (db, remote) = (r, (db', remote')) →
  db' = db ∨ ∃ e, db' = with_audit (audit_events db ++ [e]) db.
Proof.
  unfold ReconcileDeviceTransferFence. destruct (RI_ReadFence input) as [ReadFence|]; [|by left; simplify_eq].
  destruct (blank (RI_ClaimID input)) eqn:Hb; simpl; [by left; simplify_eq|].
  destruct (_ && _); [by left; simplify_eq|]. destruct (_ && _); [by left; simplify_eq|].
  destruct (reconcile_tx input ReadFence (db, remote)) as [[[rr fin]|e] [db1 remote1]] eqn:E;
    [|by left; simplify_eq].
  apply reconcile_tx_ok in E as (claim & token & device & read & remote2 & _ & _ & _ & Hrec); [|done].
  assert (db1 = db ∨ ∃ e, db1 = with_audit (audit_events db ++ [e]) db) as Hdb1.
  { unfold reconciled in Hrec. destruct read, (RI_Cancel input); naive_solver. }
  destruct fin; [|by left; simplify_eq]. destruct commit as [|err []]; intros [= _ <- _]; auto.
Qed.
End reconcile_lemmas.

(** ** Reconciliation after a lost answer *)

(** An inspection over the fences of [Remote]. *)
Definition inspection {Remote} `{TransferFencer Remote} (claimID : string)
    : @DeviceTransferFenceReconcileInput Remote :=
  mkReconcile claimID "" false "" "" ∅ (Some ReadTransferFence) (Some ReleaseTransferFence).

(** The device carries its video cloud id and no earlier reservation. *)
Definition untransferred (token : DeviceClaimToken) (device : Device) : Prop :=
  Device_Metadata device !! DeviceMetadataVideoCloudDevid =
    Some (AString (Token_VideoCloudDevid token)) ∧
  Device_Metadata device !! DeviceMetadataVideoCloudTransferReservationID = None.

(** The fence an override reserves. *)
Definition transfer_fence (claim : DeviceClaim) (token : DeviceClaimToken) (device : Device)
    (target : string) : DeviceTransferFence :=
  mkFence (Token_VideoCloudDevid token) (claimTransferReservationID claim target) target
    (Device_ID device).

Section lost_answer.
Context {Remote : Type}.
Implicit Types (input : @claimOverrideInput Remote).

Lemma fence_status_before input claim token device db :
  transferable input claim token device db → untransferred token device →
  DeviceClaim_OrganizationID claim ≠ OI_TargetOrganizationID input →
  blank (OI_TargetOrganizationID input) = false →
  fence_status claim token device (transfer_fence claim token device (OI_TargetOrganizationID input)) db
    = "cancelable".
Proof.
  intros Ht [Hdevid Hres] Hne Hb. unfold fence_status, fence_committed, fence_derivable. simpl.
  destruct (tr_unbound _ _ _ _ _ Ht Hne) as [Hbound Hprov].
  pose proof (tr_device _ _ _ _ _ Ht) as [_ Horg]%device_in_org_some.
  rewrite Hb, (blank_sha256_hex _ : blank (claimTransferReservationID _ _) = false).
  rewrite (bool_decide_true (_ = _)) by done. rewrite (bool_decide_true (Device_ID _ = _)) by done.
  rewrite (bool_decide_false (DeviceClaim_OrganizationID claim = _)) by done. simpl.
  unfold member_is, member_nil. rewrite Hdevid, Hres, Hbound, Hprov.
  rewrite (tr_resolved _ _ _ _ _ Ht), (tr_unrevoked _ _ _ _ _ Ht), Horg. simpl.
  rewrite !bool_decide_true by done.
  destruct (tr_token_org _ _ _ _ _ Ht) as [->| ->]; simpl; [done|by rewrite bool_decide_true].
Qed.

(** The rows an override and a reconciliation see are determined by the tables. *)
Lemma transferable_unique input c t d c' t' d' db :
  transferable input c t d db → transferable input c' t' d' db → c' = c ∧ t' = t ∧ d' = d.
Proof.
  intros H1 H2. pose proof (tr_claim _ _ _ _ _ H1) as Hc. rewrite (tr_claim _ _ _ _ _ H2) in Hc.
  injection Hc as ->. pose proof (tr_token _ _ _ _ _ H1) as Ht.
  rewrite (tr_token _ _ _ _ _ H2) in Ht. injection Ht as ->.
  pose proof (tr_device _ _ _ _ _ H1) as Hd. rewrite (tr_device _ _ _ _ _ H2) in Hd.
  by injection Hd as ->.
Qed.

Lemma transferable_rows input claim token device db c t d :
  claims_ok (registry db) → transferable input claim token device db →
  rows_found (DeviceClaim_ID claim) c t d db → c = claim ∧ t = token ∧ d = device.
Proof.
  intros Hok Ht [Hc Hd _ Htok _].
  rewrite (transferable_claim _ _ _ _ _ Hok Ht) in Hc. injection Hc as <-.
  rewrite (tr_token _ _ _ _ _ Ht) in Htok. rewrite (tr_device _ _ _ _ _ Ht) in Hd.
  by simplify_eq.
Qed.

(** The rows a reconciliation finds after the override. *)
Lemma overridden_rows clock input claim token device reservation db result db' c t d :
  overridden clock input claim token device reservation db result db' →
  transferable input claim token device db →
  rows_found (DeviceClaim_ID claim) c t d db' →
  c = OverrideResult_Claim result ∧ t = OverrideResult_Token result ∧ d = OverrideResult_Device result.
Proof.
  intros Ho Ht [Hc Hd Hid Htok _]. destruct (ov_state _ _ _ _ _ _ _ _ _ Ho) as (hash & p & _ & ->).
  simpl in *. rewrite lookup_insert_eq in Hc. simpl in Hc. injection Hc as <-.
  rewrite (ov_claim _ _ _ _ _ _ _ _ _ Ho) in *. simpl in *.
  rewrite lookup_insert_eq in Htok. simpl in Htok. injection Htok as <-.
  apply device_in_org_some in Hd as [Hd _]. simpl in Hd.
  rewrite (tr_device_id _ _ _ _ _ Ht), lookup_insert_eq in Hd. by injection Hd as <-.
Qed.

Lemma fence_status_after clock input claim token device db result db' :
  let target := OI_TargetOrganizationID input in
  let reservation := claimTransferReservationID claim target in
  overridden clock input claim token device reservation db result db' →
  (OI_Status input = "transferred" ∨ OI_Status input = "reclaimed") → blank target = false →
  fence_status (OverrideResult_Claim result) (OverrideResult_Token result)
    (OverrideResult_Device result) (transfer_fence claim token device target) db' = "committed".
Proof.
  intros target reservation Ho Hst Hb.
  rewrite (ov_claim _ _ _ _ _ _ _ _ _ Ho), (ov_token _ _ _ _ _ _ _ _ _ Ho),
    (ov_device _ _ _ _ _ _ _ _ _ Ho).
  pose proof (blank_sha256_hex _ : blank reservation = false) as Hr.
  assert (reservation ≠ "") as Hne by (intros Heq; by rewrite Heq in Hr).
  unfold fence_status, fence_committed. simpl. fold target reservation. rewrite Hb, Hr.
  rewrite !(bool_decide_true (_ = _)) by done. rewrite (bool_decide_false (reservation = "")) by done.
  unfold member_is. rewrite lookup_insert_eq, !(bool_decide_true (Some _ = _)) by done.
  by destruct Hst as [->| ->].
Qed.
End lost_answer.

(** C24: after an override to another organization whose outcome is unknown — the answer to the
    reservation, to the release or to COMMIT was lost, and the Video Cloud holds its fence — an
    inspection changes nothing, names the reservation, and tells which of the two happened:
    "cancelable" exactly when no row has moved, "committed" when device, token and claim have. *)
Theorem lost_answer_is_reconciled `{TransferFencer Remote} clock commit
    (input : @claimOverrideInput Remote) db remote r db' remote' claim token device commit' rr
    db'' remote'' :
  let target := OI_TargetOrganizationID input in
  let reservation := claimTransferReservationID claim target in
  claims_ok (registry db) → transferable input claim token device db → untransferred token device →
  DeviceClaim_OrganizationID claim ≠ target → blank target = false →
  OI_Status input = "transferred" ∨ OI_Status input = "reclaimed" →
  overrideDeviceClaim clock commit input (db, remote) = (r, (db', remote')) →
  fences remote' !! Token_VideoCloudDevid token = Some (transfer_fence claim token device target) →
  ReconcileDeviceTransferFence commit' (inspection (DeviceClaim_ID claim)) (db', remote') =
    (Ok rr, (db'', remote'')) →
  db'' = db' ∧ RR_ReservationID rr = reservation ∧
  ((db' = db ∧ RR_Status rr = "cancelable") ∨
   (RR_Status rr = "committed" ∧
    ∃ result, overridden clock input claim token device reservation db result db')).
Proof.
  intros target reservation Hok Ht Hun Hne Hb Hst Hover Hfence Hrec.
  apply ReconcileDeviceTransferFence_ok in Hrec
    as (Read & c & t & d & read & remote1 & [= <-] & Hrows & Hread & _ & Hrec & _). simpl in *.
  assert ((db' = db ∧ c = claim ∧ t = token ∧ d = device) ∨
    ∃ result, overridden clock input claim token device reservation db result db' ∧
      c = OverrideResult_Claim result ∧ t = OverrideResult_Token result ∧
      d = OverrideResult_Device result) as Hmoved.
  { assert (db' = db ∨ ∃ result, overridden clock input claim token device reservation db result db')
      as [->|[result Ho]].
    { apply (override_outcome _ _ _ _ _ _ _ _ Hok) in Hover
        as [[_ ?]|(c' & t' & d' & res' & reserved & rem & Ht' & Hres & Hr)]; [by left|].
      pose proof (transferable_unique _ _ _ _ _ _ _ _ Ht Ht') as (<- & <- & <-).
      unfold reservation_of in Hres. rewrite bool_decide_false in Hres by done.
      destruct Hres as (-> & _ & _). destruct r as [result|err].
      - right. exists result. apply Hr.
      - destruct Hr as [[-> _]|([] & result & db1 & _ & _ & Ho & ->)]; eauto. }
    - left. split; [done|]. by eapply transferable_rows.
    - right. exists result. split; [done|]. by eapply overridden_rows. }
  assert (Token_VideoCloudDevid t = Token_VideoCloudDevid token) as Hdevid.
  { destruct Hmoved as [(_ & _ & -> & _)|(result & Ho & _ & -> & _)]; [done|].
    by rewrite (ov_token _ _ _ _ _ _ _ _ _ Ho). }
  rewrite Hdevid in Hread. unfold reconciled in Hrec. destruct read as [fence|err].
  - apply read_ok in Hread as [Hf _]. rewrite Hfence in Hf. injection Hf as <-.
    destruct Hrec as (Hid & _ & Hstatus & _ & -> & _). simpl in Hid, Hstatus.
    split; [done|]. split; [done|]. rewrite Hstatus.
    destruct Hmoved as [(-> & -> & -> & ->)|(result & Ho & -> & -> & ->)].
    + left. split; [done|]. by apply (fence_status_before input).
    + right. split; [by eapply fence_status_after|]. by exists result.
  - destruct Hrec as (He & _). apply (read_absent _ _ _ _ Hread) in He as [He _].
    by rewrite Hfence in He.
Qed.

(** C26: a cancellation removes only the fence of a transfer that did not happen: the claim is still
    the resolved one of its organization, unrevoked and without any lifecycle, the fence is the
    one this claim version derives and the administrator named, and afterwards the fence is gone
    while no row has changed but for the audit event of the administrator. *)
Theorem cancel_only_uncommitted_transfer `{TransferFencer Remote} commit
    (input : @DeviceTransferFenceReconcileInput Remote) db remote rr db' remote' :
  RI_Cancel input = true → RI_ReadFence input = Some ReadTransferFence →
  RI_ReleaseFence input = Some ReleaseTransferFence →
  ReconcileDeviceTransferFence commit input (db, remote) = (Ok rr, (db', remote')) →
  ∃ claim token device fence, rows_found (RI_ClaimID input) claim token device db ∧
    fences remote !! Token_VideoCloudDevid token = Some fence ∧
    Fence_ReservationID fence = RI_ExpectedReservationID input ∧
    Fence_ReservationID fence = claimTransferReservationID claim (Fence_OrganizationID fence) ∧
    Fence_OrganizationID fence ≠ DeviceClaim_OrganizationID claim ∧
    Fence_AccountDeviceID fence = Device_ID device ∧
    DeviceClaim_Status claim = "resolved" ∧ Token_RevokedAt token = None ∧
    claimLifecycleBound (Device_Metadata device) = false ∧
    provision_recorded (Device_ID device) db = false ∧
    RR_Status rr = "cancelled" ∧
    fences remote' = delete (Token_VideoCloudDevid token) (fences remote) ∧
    ∃ e, db' = with_audit (audit_events db ++ [e]) db ∧
      AuditEvent_ActorUserID e = Some (RI_ActorUserID input) ∧
      AuditEvent_SubjectID e = DeviceClaim_ID claim.
Proof.
  intros Hcancel Hread Hrelease Hrec. apply ReconcileDeviceTransferFence_ok in Hrec
    as (Read & claim & token & device & read & remote1 & HR & Hrows & Hr & _ & Hrec & _).
  rewrite Hread in HR. injection HR as <-. unfold reconciled in Hrec.
  destruct read as [fence|]; [|destruct Hrec; intuition congruence].
  rewrite Hcancel, Hrelease in Hrec.
  destruct Hrec as (_ & _ & Hstatus & Hexp & Hst & _ & (release & [= <-] & Hrel) & ->).
  apply read_ok in Hr as [Hf Hsame]. apply release_ok in Hrel as [_ Hgone].
  unfold fence_status in Hstatus. destruct (_ || _) eqn:Hbind in Hstatus; [done|].
  destruct (fence_committed _ _ _ _); [done|].
  destruct (fence_derivable _ _ _ _) eqn:Hder; [|done].
  destruct (provision_recorded _ _) eqn:Hprov; [done|].
  unfold fence_derivable in Hder. destruct_bools.
  exists claim, token, device, fence. split_and!; try done; [by rewrite Hgone, Hsame|by eexists].
Qed.

(** ** The theorems at work: a transfer whose COMMIT is not answered *)

Definition sample_transfer_device : Device :=
  mkDevice sample_uuid sample_org "Camera" DeviceCategoryIPCamera None None None None
    DeviceStatusUnknown None {[DeviceMetadataVideoCloudDevid := AString "devid-1"]}
    sample_time sample_time None None.
Definition sample_transfer_db : DB :=
  with_claims {["token-1" := sample_token]} {["claim-1" := sample_claim]}
    (with_operations ∅
    (with_devices {[sample_uuid := sample_transfer_device]}
    (with_registry
      (mkRegistry {["admin-1" := mkUser "admin-1" "admin@example.com" true false true None]}
        (<["org-2" := mkOrganization "org-2" "Other" OrganizationKindCustomerOrg
             OrganizationStatusActive OrganizationTierCommercial 5 None]>
           (organizations sample_registry))
        [] ∅ [] ∅ [] [] [] [] ∅ ∅ []) sample_db))).
Definition sample_transfer : @claimOverrideInput (gmap string DeviceTransferFence) :=
  transfer_override (mkClaimTransfer "claim-1" "org-2" "admin-1" "moved" (map_literal
    [("ticket", AString "T-1")]) (Some ReserveTransferFence) (Some ReleaseTransferFence) zero_time).
Definition sample_lost : CommitOutcome := CommitFailed ErrCanceled true.
Definition sample_cancel : @DeviceTransferFenceReconcileInput (gmap string DeviceTransferFence) :=
  mkReconcile "claim-1"
    (claimTransferReservationID (claim_row sample_claim) "org-2") true "admin-1" "abandoned"
    (map_literal [("ticket", AString "T-1")]) (Some ReadTransferFence) (Some ReleaseTransferFence).

Lemma sample_claims_ok : claims_ok (registry sample_transfer_db).
Proof.
  constructor; simpl.
  - intros id row [<- <-]%lookup_singleton_Some. done.
  - by intros i j x y [<- <-]%lookup_singleton_Some [<- <-]%lookup_singleton_Some.
Qed.

Lemma sample_transferable :
  transferable sample_transfer (claim_row sample_claim) (token_row sample_token)
    sample_transfer_device sample_transfer_db ∧
  untransferred (token_row sample_token) sample_transfer_device.
Proof.
  split; [|split; by vm_compute].
  assert (override_checks sample_transfer sample_transfer_db =
    (Ok (claim_row sample_claim, token_row sample_token, sample_transfer_device), sample_transfer_db))
    as E by (vm_compute; reflexivity).
  by apply override_checks_ok in E as (_ & ? & ? & ? & [= <- <- <-] & E).
Qed.

(** The transfer, and the inspection after it. *)
Definition sample_lost_run : M (DB * gmap string DeviceTransferFence)
    (res DeviceClaimOverrideResult * (DB * gmap string DeviceTransferFence) *
     DeviceTransferFenceReconcileResult) :=
  r ← attempt (overrideDeviceClaim sample_clock sample_lost sample_transfer);
  s ← gets (λ s, s);
  rr ← ReconcileDeviceTransferFence Committed (inspection "claim-1");
  mret (r, s, rr).

Lemma lost_answer_is_reconciled_witness :
  ∃ r db1 fences1 rr db2 fences2,
    overrideDeviceClaim sample_clock sample_lost sample_transfer (sample_transfer_db, ∅) =
      (r, (db1, fences1)) ∧ is_ok r = false ∧
    ReconcileDeviceTransferFence Committed (inspection "claim-1") (db1, fences1) =
      (Ok rr, (db2, fences2)) ∧ db2 = db1.
Proof.
  destruct (run_check (λ x _, negb (is_ok x.1.1) && bool_decide (x.1.2.2 !! "devid-1" =
      Some (transfer_fence (claim_row sample_claim) (token_row sample_token) sample_transfer_device "org-2")))
    sample_lost_run (sample_transfer_db, ∅)) as (x & s & E & Hx); [vm_compute; reflexivity|].
  unfold sample_lost_run in E. apply bind_ok in E as (r0 & s0 & E1 & E). unfold attempt in E1.
  destruct (overrideDeviceClaim _ _ _ (sample_transfer_db, _)) as [r [db1 fences1]] eqn:E0.
  injection E1 as <- <-. apply bind_gets_ok in E. apply bind_ok in E as (rr & [db2 fences2] & E2 & E).
  unfold mret, M_ret in E. injection E as <- <-. simpl in Hx. destruct_bools.
  exists r, db1, fences1, rr, db2, fences2. split; [reflexivity|]. split; [assumption|].
  split; [exact E2|].
  destruct sample_transferable as [Ht Hun].
  apply (lost_answer_is_reconciled sample_clock sample_lost sample_transfer sample_transfer_db ∅
    r db1 fences1 (claim_row sample_claim) (token_row sample_token) sample_transfer_device Committed
    rr db2 fences2).
  - exact sample_claims_ok.
  - exact Ht.
  - exact Hun.
  - discriminate.
  - reflexivity.
  - left. reflexivity.
  - exact E0.
  - assumption.
  - exact E2.
Defined.

Lemma override_reservation_protocol_witness :
  ∃ r db1 fences1, overrideDeviceClaim sample_clock Committed sample_transfer
      (sample_transfer_db, ∅) = (Ok r, (db1, fences1)) ∧
    ∃ claim token device reservation,
      overridden sample_clock sample_transfer claim token device reservation sample_transfer_db r db1.
Proof.
  destruct (run_succeeds (overrideDeviceClaim sample_clock Committed sample_transfer)
    (sample_transfer_db, ∅)) as (r & [db1 fences1] & E); [vm_compute; reflexivity|].
  exists r, db1, fences1. split; [exact E|].
  destruct (override_reservation_protocol _ _ _ _ _ _ _ _ sample_claims_ok E)
    as [(err & _ & Hr & _)|(claim & token & device & _ &
          [(err & _ & Hr & _)|(reservation & remote1 & _ &
             [(cause & err & _ & _ & Hr & _)|[(result & Hr & _ & _ & Ho)|(err & applied & result & db2 & Hr & _)]])])];
    try discriminate Hr.
  injection Hr as ->. exists claim, token, device, reservation. exact Ho.
Defined.

Lemma cancel_only_uncommitted_transfer_witness :
  ∃ rr fences1 db' fences', ReconcileDeviceTransferFence Committed sample_cancel
      (sample_transfer_db, fences1) = (Ok rr, (db', fences')) ∧ RR_Status rr = "cancelled".
Proof.
  destruct (run_succeeds (ReconcileDeviceTransferFence Committed sample_cancel)
    (sample_transfer_db, {["devid-1" :=
      transfer_fence (claim_row sample_claim) (token_row sample_token) sample_transfer_device "org-2"]}))
    as (rr & [db' fences'] & E); [vm_compute; reflexivity|].
  eexists rr, _, db', fences'. split; [exact E|].
  apply (cancel_only_uncommitted_transfer Committed sample_cancel) in E
    as (claim & token & device & fence & _ & _ & _ & _ & _ & _ & _ & _ & _ & _ & Hst & _);
    [exact Hst|reflexivity..].
Defined.

Lemma lifecycle_bound_device_stays_witness :
  ∃ r db' fences', overrideDeviceClaim sample_clock Committed sample_transfer
      (sample_claimed_db, ∅) = (r, (db', fences')) ∧ is_ok r = false.
Proof.
  destruct (overrideDeviceClaim sample_clock Committed sample_transfer (sample_claimed_db, ∅))
    as [r [db' fences']] eqn:E.
  exists r, db', fences'. split; [reflexivity|].
  apply (lifecycle_bound_device_stays sample_clock Committed sample_transfer sample_claimed_db ∅ r
    db' fences' (claim_row sample_claim) sample_device E).
  - vm_compute. reflexivity.
  - vm_compute. reflexivity.
  - discriminate.
  - left. vm_compute. reflexivity.
Defined.
