(* ===== verification/Provisioning.v ===== *)
(** * The provisioning API: api/provisioning.go

    The handlers that start a provisioning or a deactivation, release a device
    and report its readiness.  A handler is given the decoded request and the
    call's surroundings ([Call]: path parameters, caller, clock, random bytes)
    and ends with a [reply].  The presence service is the function the server
    was configured with.  The theorems: what a device reported ready has, how
    the product state follows from the state, and that a provisioning request
    can be sent again. *)

From S2P Require Export Unprovision.

Local Open Scope Z_scope.

(** ** Requests, replies and the call's surroundings *)

Record provisionRequest := mkProvisionRequest {
  PR_VideoCloudDevid : string;
  PR_ActivityID : string;
  PR_ClipPublicKey : string;
  PR_ServiceOptions : list string;
  PR_OperationID : string;
  PR_ClaimMaterial : option jsonmap;
  PR_QRPayload : option string;
  PR_QRCode : option string;
  PR_SerialNumber : option string;
  PR_ActivationCode : option string;
  PR_MACAddress : option string;
  PR_FactoryIdentity : option string;
}.

Record deactivateRequest := mkDeactivateRequest { DR_Reason : string; DR_OperationID : string }.
Record unprovisionRequest := mkUnprovisionRequest { UR_Reason : string; UR_Evidence : jsonmap }.

Record operationResponse := mkOperationResponse {
  OR_OperationID : string;
  OR_CorrelationID : string;
  OR_MessageID : string;
  OR_DeviceID : string;
  OR_OperationType : DeviceOperationType;
  OR_Status : DeviceOperationStatus;
  OR_RequestedBy : option string;
  OR_ErrorCode : option string;
  OR_ErrorMessage : option string;
  OR_Retryable : option bool;
  OR_CreatedAt : Time;
  OR_UpdatedAt : Time;
  OR_CompletedAt : option Time;
}.

Record readinessSourcesResponse := mkSources {
  DeviceEnabled : bool;
  Sources_DeviceStatus : DeviceStatus;
  DeviceLastSeenAt : option Time;
  OwnerTransportStatus : string;
  OwnerTransportType : string;
  OwnerTransportObservedAt : option Time;
  OwnerTransportLastSeenAt : option Time;
  ProvisioningOperationStatus : option DeviceOperationStatus;
  Sources_VideoCloudActivationStatus : option string;
  DeactivationOperationStatus : option DeviceOperationStatus;
  VideoCloudLastError : any; (* the nil interface is [ANil] *)
}.

Record readinessFailureResponse := mkFailure {
  FailedLayer : string;
  SourceState : string;
  Failure_Retryable : bool;
  Failure_ErrorCode : string;
  Failure_ErrorMessage : string;
  Failure_OperationID : option string;
  OccurredAt : option Time;
}.

Record readinessResponse := mkReadiness {
  State : DeviceReadinessState;
  ProductState : ProductReadinessState;
  Sources : readinessSourcesResponse;
  Failure : option readinessFailureResponse;
}.

Record provisioningBody := mkProvisioningBody {
  PB_Operation : option operationResponse;
  PB_Readiness : readinessResponse;
  PB_VideoMetadata : jsonmap;
}.

Record deviceUnprovisionBody := mkUnprovisionBody {
  UB_DeviceID : string;
  UB_OrganizationID : string;
  UB_VideoCloudDevid : string;
  UB_Status : string;
  UB_UnprovisionedAt : Time;
}.

Inductive reply :=
  | ErrorReply (status : Z) (code : string)
  | OperationReply (status : Z) (operation : operationResponse)
  | ProvisioningReply (body : provisioningBody)
  | UnprovisionReply (body : deviceUnprovisionBody).

(** api/video_presence.go *)
Record videoPresenceSnapshot := mkSnapshot {
  VP_DeviceID : string;
  VP_OrgID : string;
  VP_AccountDeviceID : string;
  VP_Activated : bool;
  VP_Online : bool;
  VP_OwnerTransport : string;
  VP_LastSeenAt : option Time;
  VP_ObservedAt : Time;
}.

(** The server's settings the handlers read: the product-service switch and
    the presence reader, when one is configured. *)
Record Server := mkServer {
  platformServiceProductWrites : bool;
  videoPresence : option (string → res videoPresenceSnapshot);
}.

(** One call: path parameters, the authenticated user, [time.Now()], and what
    [rand.Read] delivers for each identifier ([None] when it fails). *)
Record Call := mkCall {
  orgId : string;
  deviceId : string;
  currentUserID : string;
  call_now : Time;
  operation_random : option (list N);
  message_random : option (list N);
}.

(** ** Errors *)

Definition errOperationStateInconsistent : error :=
  ErrText "lifecycle operation is missing an outbox message".

(** [errors.As(err, &pgErr)]: the constraint of a refused statement. *)
Fixpoint pg_constraint (e : error) : option string :=
  match e with
  | ErrPg constraint => Some constraint
  | ErrWrap _ inner => pg_constraint inner
  | ErrPublish inner _ => pg_constraint inner
  | _ => None
  end.

(** Code 23505, by the names of the schema's unique constraints. *)
Definition isUniqueViolation (e : error) : bool :=
  bool_decide (pg_constraint e ∈ [Some "device_message_outbox_message_id_key";
                                  Some "devices_org_serial_unique"]).

Definition writeStoreError (e : error) : reply :=
  if bool_decide (pg_constraint e = Some "platform_admin_preserved")
  then ErrorReply 409 "platform_admin_required"
  else if errors_Is e ErrNotFound then ErrorReply 404 "not_found"
  else if errors_Is e ErrDisabled then ErrorReply 409 "disabled_resource"
  else if errors_Is e ErrNotProvisioned then ErrorReply 409 "device_not_provisioned"
  else if errors_Is e ErrConflict then ErrorReply 409 "conflict"
  else if errors_Is e ErrClaimUnsupportedService then ErrorReply 400 "unsupported_service_option"
  else if errors_Is e ErrClaimServiceOptionsMismatch then ErrorReply 400 "service_options_mismatch"
  else if errors_Is e ErrCloudManagedPresence
       then ErrorReply 409 "presence_source_owned_by_video_cloud"
  else if errors_Is e ErrReservedDeviceMetadata then ErrorReply 400 "reserved_device_metadata"
  else if errors_Is e errOperationStateInconsistent
       then ErrorReply 500 "operation_state_inconsistent"
  else if isUniqueViolation e then ErrorReply 409 "conflict"
  else ErrorReply 500 "internal_error".

Definition writeUnprovisionError (e : error) : reply :=
  if errors_Is e ErrClaimEvidenceRequired then ErrorReply 400 "operator_evidence_required"
  else writeStoreError e.

(** [v, err := m; if err != nil { writeError; return }]. *)
Definition respond {A} (m : Store A) (fail : error → reply) (k : A → Store reply) : Store reply :=
  r ← attempt m; match r with Ok a => k a | Err e => mret (fail e) end.

(** ** Small helpers *)

(** The trimmed text under a key, if there is any. *)
Definition metadataString (metadata : jsonmap) (key : string) : option string :=
  match metadata !! key with
  | Some (AString text) =>
      let text := TrimSpace text in if bool_decide (text = "") then None else Some text
  | _ => None
  end.

Definition stringPtr (value : string) : option string :=
  if bool_decide (value = "") then None else Some value.

(** A random UUID; [data] are the 16 bytes read, if the read succeeds. *)
Definition newOpaqueID (data : option (list N)) : option string :=
  data ← data;
  let data := alter (λ b, N.lor (N.land b 15) 64) 6%nat data in
  let data := alter (λ b, N.lor (N.land b 63) 128) 8%nat data in
  Some (hex_EncodeToString (take 4 data) +:+ "-" +:+
        hex_EncodeToString (take 2 (drop 4 data)) +:+ "-" +:+
        hex_EncodeToString (take 2 (drop 6 data)) +:+ "-" +:+
        hex_EncodeToString (take 2 (drop 8 data)) +:+ "-" +:+
        hex_EncodeToString (take 6 (drop 10 data))).

Definition ensureOperationID (raw : string) (data : option (list N)) : option string :=
  let operationID := TrimSpace raw in
  if bool_decide (operationID = "") then newOpaqueID data else Some operationID.

Definition operationFromResult (operation : DeviceOperation) (message : DeviceMessageOutbox)
    : operationResponse :=
  mkOperationResponse (DeviceOperation_OperationID operation)
    (DeviceOperation_CorrelationID operation) (Outbox_MessageID message)
    (DeviceOperation_DeviceID operation) (DeviceOperation_OperationType operation)
    (DeviceOperation_Status operation) (DeviceOperation_RequestedBy operation)
    (DeviceOperation_ErrorCode operation) (DeviceOperation_ErrorMessage operation)
    (DeviceOperation_Retryable operation) (DeviceOperation_CreatedAt operation)
    (DeviceOperation_UpdatedAt operation) (DeviceOperation_CompletedAt operation).

Definition projectedVideoMetadata (metadata : jsonmap) : jsonmap :=
  filter (λ kv, HasPrefix kv.1 "video_cloud_" = true) metadata.

(** ** Readiness *)

Definition ownerPresenceMaxAge : Z := 5 * Minute.

Definition operationFailed (status : DeviceOperationStatus) : bool :=
  match status with
  | DeviceOperationStatusFailed | DeviceOperationStatusDeadLettered => true
  | _ => false
  end.

Definition ownerTransportOnline (sources : readinessSourcesResponse) : bool :=
  if bool_decide (OwnerTransportStatus sources = "")
  then bool_decide (Sources_DeviceStatus sources = DeviceStatusOnline)
  else bool_decide (OwnerTransportStatus sources = "online").

(** The conditions both state functions test, in the source's order. *)
Definition activation_is (sources : readinessSourcesResponse) (status : VideoCloudActivationStatus)
    : bool :=
  bool_decide (Sources_VideoCloudActivationStatus sources = Some (VideoCloudActivationStatus_text status)).
Definition provisioning_is (sources : readinessSourcesResponse) (test : DeviceOperationStatus → bool)
    : bool :=
  match ProvisioningOperationStatus sources with Some status => test status | None => false end.
Definition sources_disabled (sources : readinessSourcesResponse) : bool :=
  negb (DeviceEnabled sources) || bool_decide (Sources_DeviceStatus sources = DeviceStatusDisabled).
Definition sources_failed (sources : readinessSourcesResponse) : bool :=
  provisioning_is sources operationFailed
  || activation_is sources VideoCloudActivationStatusFailed
  || negb (bool_decide (VideoCloudLastError sources = ANil)).
Definition sources_activated (sources : readinessSourcesResponse) : bool :=
  provisioning_is sources (λ status, bool_decide (status = DeviceOperationStatusSucceeded))
  && activation_is sources VideoCloudActivationStatusActivated.

Definition readinessStateFromSources (sources : readinessSourcesResponse) : DeviceReadinessState :=
  match DeactivationOperationStatus sources with
  | Some (DeviceOperationStatusPending | DeviceOperationStatusPublished
          | DeviceOperationStatusRetrying) => DeviceReadinessStateDeactivationPending
  | Some (DeviceOperationStatusFailed | DeviceOperationStatusDeadLettered) =>
      DeviceReadinessStateDeactivationFailed
  | Some DeviceOperationStatusSucceeded => DeviceReadinessStateDeactivated
  | None =>
      if activation_is sources VideoCloudActivationStatusDeactivated
      then DeviceReadinessStateDeactivated
      else if sources_disabled sources then DeviceReadinessStateDisabled
      else if sources_failed sources then DeviceReadinessStateActivationFailed
      else if sources_activated sources then
        if ownerTransportOnline sources then DeviceReadinessStateReady
        else DeviceReadinessStateTransportPending
      else DeviceReadinessStateActivationPending
  end.

Definition productReadinessStateFromSources (sources : readinessSourcesResponse)
    : ProductReadinessState :=
  match DeactivationOperationStatus sources with
  | Some (DeviceOperationStatusPending | DeviceOperationStatusPublished
          | DeviceOperationStatusRetrying) => ProductReadinessStateDeactivationPending
  | Some (DeviceOperationStatusFailed | DeviceOperationStatusDeadLettered) =>
      ProductReadinessStateFailed
  | Some DeviceOperationStatusSucceeded => ProductReadinessStateDeactivated
  | None =>
      if activation_is sources VideoCloudActivationStatusDeactivated
      then ProductReadinessStateDeactivated
      else if sources_disabled sources then ProductReadinessStateRegistered
      else if sources_failed sources then ProductReadinessStateFailed
      else if sources_activated sources then
        if ownerTransportOnline sources then ProductReadinessStateOnline
        else ProductReadinessStateActivated
      else if bool_decide (ProvisioningOperationStatus sources = None)
           then ProductReadinessStateRegistered
           else ProductReadinessStateCloudActivationPending
  end.

Definition failureFromOperation (layer : string) (operation : DeviceOperation)
    : readinessFailureResponse :=
  let given (text : option string) (otherwise : string) :=
    match text with
    | Some text => if blank text then otherwise else TrimSpace text
    | None => otherwise
    end in
  mkFailure layer (DeviceOperationStatus_text (DeviceOperation_Status operation))
    (default false (DeviceOperation_Retryable operation))
    (given (DeviceOperation_ErrorCode operation)
       (if bool_decide (DeviceOperation_Status operation = DeviceOperationStatusDeadLettered)
        then "dead_lettered" else "operation_failed"))
    (given (DeviceOperation_ErrorMessage operation) "Operation failed")
    (Some (DeviceOperation_OperationID operation))
    (Some (default (DeviceOperation_UpdatedAt operation) (DeviceOperation_CompletedAt operation))).

Definition failureFromMetadata (lastError : any) (updatedAt : Time) : readinessFailureResponse :=
  let member (key otherwise : string) :=
    match lastError with
    | AMap values => default otherwise (metadataString (map_of_members values) key)
    | _ => otherwise
    end in
  mkFailure "cloud_activation" "video_cloud_last_error" false
    (member "code" "video_cloud_last_error") (member "message" "Projected video cloud error")
    None (Some updatedAt).

Definition readinessFailureFromProjection (device : Device)
    (provisioningOperation latestDeactivation : option DeviceOperation)
    : option readinessFailureResponse :=
  let failed (operation : option DeviceOperation) :=
    o ← operation; if operationFailed (DeviceOperation_Status o) then Some o else None in
  match failed latestDeactivation with
  | Some o => Some (failureFromOperation "deactivation" o)
  | None =>
      match failed provisioningOperation with
      | Some o => Some (failureFromOperation "cloud_activation" o)
      | None =>
          lastError ← Device_Metadata device !! DeviceMetadataVideoCloudLastError;
          Some (failureFromMetadata lastError (Device_UpdatedAt device))
      end
  end.

(** The stored presence is no evidence of a present owner transport. *)
Definition presence_evidence_stale (device : Device) (at_ : Time) : bool :=
  match metadataString (Device_Metadata device) DeviceMetadataVideoCloudDevid,
        Device_LastSeenAt device with
  | Some _, Some seen =>
      IsZero seen || Before seen (Add at_ (- ownerPresenceMaxAge)) || After seen (Add at_ Minute)
  | _, _ => true
  end.

Definition readinessFromProjectionAt (device : Device)
    (provisioningOperation latestDeactivation : option DeviceOperation) (at_ : Time)
    : readinessResponse :=
  let activationStatus := metadataString (Device_Metadata device)
    DeviceMetadataVideoCloudActivationStatus in
  let stale := bool_decide (Device_Status device = DeviceStatusOnline)
    && bool_decide (default "" activationStatus
         = VideoCloudActivationStatus_text VideoCloudActivationStatusActivated)
    && presence_evidence_stale device at_ in
  let sources :=
    mkSources (bool_decide (Device_DisabledAt device = None)) (Device_Status device)
      (Device_LastSeenAt device) (if stale then "stale" else "") "" None None
      (DeviceOperation_Status <$> provisioningOperation) activationStatus
      (DeviceOperation_Status <$> latestDeactivation)
      (default ANil (Device_Metadata device !! DeviceMetadataVideoCloudLastError)) in
  mkReadiness (readinessStateFromSources sources) (productReadinessStateFromSources sources) sources
    (readinessFailureFromProjection device provisioningOperation latestDeactivation).

Definition recomputeReadiness (readiness : readinessResponse) (sources : readinessSourcesResponse)
    : readinessResponse :=
  mkReadiness (readinessStateFromSources sources) (productReadinessStateFromSources sources) sources
    (Failure readiness).

Definition with_transport (status type : string) (observed seen : option Time)
    (sources : readinessSourcesResponse) : readinessSourcesResponse :=
  mkSources (DeviceEnabled sources) (Sources_DeviceStatus sources) (DeviceLastSeenAt sources)
    status type observed seen (ProvisioningOperationStatus sources)
    (Sources_VideoCloudActivationStatus sources) (DeactivationOperationStatus sources)
    (VideoCloudLastError sources).

Definition readinessWithLivePresence (ReadPresence : string → res videoPresenceSnapshot)
    (device : Device) (readiness : readinessResponse) : readinessResponse :=
  let sources := Sources readiness in
  let transport_status (status : string) :=
    with_transport status (OwnerTransportType sources) (OwnerTransportObservedAt sources)
      (OwnerTransportLastSeenAt sources) sources in
  recomputeReadiness readiness
    match metadataString (Device_Metadata device) DeviceMetadataVideoCloudDevid with
    | None => transport_status "unavailable"
    | Some videoID =>
        match ReadPresence videoID with
        | Err _ => transport_status "unavailable"
        | Ok snapshot =>
            if negb (bool_decide (VP_DeviceID snapshot = videoID))
               || negb (bool_decide (VP_OrgID snapshot = Device_OrganizationID device))
               || negb (bool_decide (VP_AccountDeviceID snapshot = Device_ID device))
               || IsZero (VP_ObservedAt snapshot)
            then transport_status "identity_mismatch"
            else with_transport
              (if VP_Activated snapshot && VP_Online snapshot
                  && negb (blank (VP_OwnerTransport snapshot)) then "online" else "offline")
              (VP_OwnerTransport snapshot) (Some (UTC (VP_ObservedAt snapshot)))
              (VP_LastSeenAt snapshot) sources
        end
    end.

Definition deactivationMatchesCurrentActivity (device : Device) (command : DeviceMessageOutbox)
    : bool :=
  bool_decide (TrimSpace (metadata_string (Outbox_Payload command) "activity_id")
    = default "" (metadataString (Device_Metadata device) DeviceMetadataVideoCloudActivityID)).

(** store.go *)
Definition GetDevice (org device : string) : Store Device :=
  db ← gets (λ db, db); row_or ErrNotFound (device_in_org org device db).

(** The latest operation of a type with its latest message: none at all is
    fine, an operation without a message is not. *)
Definition latest_operation (org device : string) (operationType : DeviceOperationType)
    : Store (option (DeviceOperation * DeviceMessageOutbox)) :=
  operation ← attempt (GetLatestDeviceOperationByType org device operationType);
  match operation with
  | Err e => if errors_Is e ErrNotFound then mret None else throw e
  | Ok operation =>
      message ← attempt
        (getLatestOutboxMessageByOperationTx (DeviceOperation_OperationID operation));
      match message with
      | Err e => throw (if errors_Is e ErrNotFound then errOperationStateInconsistent else e)
      | Ok message => mret (Some (operation, message))
      end
  end.

(** The readiness of the reply; live presence is asked for only when it can
    make a difference. *)
Definition reported_readiness (s : Server) (c : Call) (device : Device)
    (provision deactivation : option (DeviceOperation * DeviceMessageOutbox)) : readinessResponse :=
  let latestDeactivation :=
    '(operation, message) ← deactivation;
    if deactivationMatchesCurrentActivity device message then Some operation else None in
  let readiness := readinessFromProjectionAt device (fst <$> provision) latestDeactivation
    (UTC (call_now c)) in
  match videoPresence s with
  | Some ReadPresence =>
      if bool_decide (State readiness = DeviceReadinessStateReady)
         || bool_decide (State readiness = DeviceReadinessStateTransportPending)
      then readinessWithLivePresence ReadPresence device readiness
      else readiness
  | None => readiness
  end.

Definition getProvisioningState (s : Server) (c : Call) : Store reply :=
  respond (GetDevice (orgId c) (deviceId c)) writeStoreError (λ device,
  respond (latest_operation (orgId c) (deviceId c) DeviceOperationTypeProvision) writeStoreError
    (λ provision,
  respond (latest_operation (orgId c) (deviceId c) DeviceOperationTypeDeactivate) writeStoreError
    (λ deactivation,
  mret (ProvisioningReply (mkProvisioningBody
    ((λ '(operation, message), operationFromResult operation message) <$> provision)
    (reported_readiness s c device provision deactivation)
    (projectedVideoMetadata (Device_Metadata device))))))).

(** ** Repeated requests *)

Definition requestPayloadMatches (existing want : jsonmap) (keys : list string) : bool :=
  forallb (λ key,
    match metadataString existing key, metadataString want key with
    | Some existingValue, Some wantValue => bool_decide (existingValue = wantValue)
    | _, _ => false
    end) keys.

Definition matchExistingLifecycleOperation (existing : DeviceOperation)
    (operationID orgID deviceID : string) (operationType : DeviceOperationType) : res unit :=
  if negb (bool_decide (DeviceOperation_OperationID existing = operationID))
     || negb (bool_decide (DeviceOperation_CorrelationID existing = operationID))
     || negb (bool_decide (DeviceOperation_OrganizationID existing = orgID))
     || negb (bool_decide (DeviceOperation_DeviceID existing = deviceID))
     || negb (bool_decide (DeviceOperation_OperationType existing = operationType))
  then Err ErrConflict else Ok tt.

Definition matchExistingProvisionOperation (existing : DeviceOperation)
    (operationID orgID deviceID : string) (requestPayload : jsonmap) : res unit :=
  matchExistingLifecycleOperation existing operationID orgID deviceID
    DeviceOperationTypeProvision ;;
  if requestPayloadMatches (DeviceOperation_RequestPayload existing) requestPayload
       ["video_cloud_devid"; "activity_id"; "clip_public_key"]
  then Ok tt else Err ErrConflict.

Definition matchExistingDeactivateOperation (existing : DeviceOperation)
    (operationID orgID deviceID reason : string) (deviceMetadata : jsonmap) : res unit :=
  matchExistingLifecycleOperation existing operationID orgID deviceID
    DeviceOperationTypeDeactivate ;;
  if negb (requestPayloadMatches (DeviceOperation_RequestPayload existing)
             {["reason" := AString reason]} ["reason"])
  then Err ErrConflict
  else match metadataString deviceMetadata DeviceMetadataVideoCloudDevid with
  | Some videoCloudDevid =>
      if requestPayloadMatches (DeviceOperation_RequestPayload existing)
           {["video_cloud_devid" := AString videoCloudDevid]} ["video_cloud_devid"]
      then Ok tt else Err ErrConflict
  | None => Ok tt
  end.

(** The reply to a request whose operation exists already; [None] when it does not. *)
Definition writeExistingLifecycleOperationIfMatch (operationID : string)
    (match_ : DeviceOperation → res unit) : Store (option reply) :=
  operation ← attempt (GetDeviceOperation operationID);
  match operation with
  | Err e => if errors_Is e ErrNotFound then mret None else throw e
  | Ok operation =>
      lift_res (match_ operation) ;;
      message ← attempt (getLatestOutboxMessageByOperationTx operationID);
      match message with
      | Err e => throw (if errors_Is e ErrNotFound then errOperationStateInconsistent else e)
      | Ok message => mret (Some (OperationReply 200 (operationFromResult operation message)))
      end
  end.

Definition writeExistingDeactivateOperationIfMatch (c : Call) (operationID reason : string)
    : Store (option reply) :=
  device ← GetDevice (orgId c) (deviceId c);
  writeExistingLifecycleOperationIfMatch operationID (λ existing,
    matchExistingDeactivateOperation existing operationID (orgId c) (deviceId c) reason
      (Device_Metadata device)).

Definition operation_reply (result : DeviceLifecycleOperationResult) : reply :=
  OperationReply (if LR_Created result then 201 else 200)
    (operationFromResult (LR_Operation result) (LR_Message result)).

(** ** provisionDevice *)

(** The first field of claim material a request carries, if any. *)
Definition rejectUnsupportedClaimMaterial (req : provisionRequest) : option reply :=
  let present {A} (field : option A) := bool_decide (is_Some field) in
  if present (PR_ClaimMaterial req) || present (PR_QRPayload req) || present (PR_QRCode req)
     || present (PR_SerialNumber req) || present (PR_ActivationCode req)
     || present (PR_MACAddress req) || present (PR_FactoryIdentity req)
  then Some (ErrorReply 400 "unsupported_claim_material") else None.

Definition optionalRegisteredServiceEcho (raw : list string) : reply + list string :=
  if bool_decide (raw = []) then inr [] else
  let options := TrimSpace <$> raw in
  if is_ok (validateProductServiceOptions options) then inr options
  else inl (ErrorReply 400 "unsupported_service_option").

(** api/device_claim_tokens_admin.go *)
Fixpoint canonicalOptionalServiceOptions_loop (seen : gset string) (raw : list string)
    : reply + list string :=
  match raw with
  | [] => inr []
  | option :: raw =>
      let option := TrimSpace option in
      if negb (bool_decide (option ∈ ["mqtt"; "video_streaming"; "video_storage"]))
      then inl (ErrorReply 400 "invalid_request")
      else if bool_decide (option ∈ seen) then inl (ErrorReply 400 "invalid_request")
      else match canonicalOptionalServiceOptions_loop ({[option]} ∪ seen) raw with
           | inr options => inr (option :: options)
           | inl refused => inl refused
           end
  end.
Definition canonicalOptionalServiceOptions (raw : list string) : reply + list string :=
  canonicalOptionalServiceOptions_loop ∅ raw.

Definition provision_options (s : Server) (req : provisionRequest) : reply + list string :=
  if platformServiceProductWrites s then optionalRegisteredServiceEcho (PR_ServiceOptions req)
  else canonicalOptionalServiceOptions (PR_ServiceOptions req).

Definition provision_payload (videoCloudDevid activityID clipPublicKey : string)
    (serviceOptions : list string) : jsonmap :=
  let requestPayload := map_literal
    [("video_cloud_devid", AString videoCloudDevid); ("activity_id", AString activityID);
     ("clip_public_key", AString clipPublicKey)] in
  if bool_decide (serviceOptions = []) then requestPayload
  else <["service_options" := strings_value serviceOptions]> requestPayload.

(** What the handler asks the store for; the nil slice is sent as null. *)
Definition provision_lifecycle (c : Call)
    (operationID messageID videoCloudDevid activityID clipPublicKey : string)
    (serviceOptions : list string) : DeviceLifecycleOperationInput :=
  mkLifecycleInput operationID operationID messageID (orgId c) (deviceId c)
    DeviceOperationTypeProvision (stringPtr (currentUserID c))
    (provision_payload videoCloudDevid activityID clipPublicKey serviceOptions)
    MessageTypeDeviceProvisionRequested
    (map_literal
      [("org_id", AString (orgId c));
       ("account_device_id", AString (deviceId c));
       ("video_cloud_devid", AString videoCloudDevid);
       ("activity_id", AString activityID);
       ("clip_public_key", AString clipPublicKey);
       ("service_options",
          if bool_decide (serviceOptions = []) then ANil else strings_value serviceOptions);
       ("requested_by", AString (currentUserID c))])
    (PendingProvisionMetadata videoCloudDevid activityID clipPublicKey serviceOptions) false
    (Truncate_us (UTC (call_now c))).

(** An explicit operation id that exists already answers the request. *)
Definition provision_existing (c : Call) (explicit : bool) (operationID : string)
    (requestPayload : jsonmap) : Store (option reply) :=
  if explicit then
    GetDevice (orgId c) (deviceId c) ;;
    writeExistingLifecycleOperationIfMatch operationID (λ existing,
      matchExistingProvisionOperation existing operationID (orgId c) (deviceId c) requestPayload)
  else mret None.

Definition provisionDevice (s : Server) (c : Call) (req : provisionRequest) : Store reply :=
  match rejectUnsupportedClaimMaterial req with
  | Some refused => mret refused
  | None =>
  let videoCloudDevid := TrimSpace (PR_VideoCloudDevid req) in
  let activityID := TrimSpace (PR_ActivityID req) in
  let clipPublicKey := TrimSpace (PR_ClipPublicKey req) in
  if blank videoCloudDevid || blank activityID || blank clipPublicKey
  then mret (ErrorReply 400 "invalid_request") else
  match provision_options s req with
  | inl refused => mret refused
  | inr serviceOptions =>
  match ensureOperationID (PR_OperationID req) (operation_random c) with
  | None => mret (ErrorReply 500 "id_generation_failed")
  | Some operationID =>
  respond (provision_existing c (negb (blank (PR_OperationID req))) operationID
             (provision_payload videoCloudDevid activityID clipPublicKey serviceOptions))
    writeStoreError (λ existing,
  match existing with
  | Some reply => mret reply
  | None =>
  match newOpaqueID (message_random c) with
  | None => mret (ErrorReply 500 "id_generation_failed")
  | Some messageID =>
  respond (StartDeviceLifecycleOperation (platformServiceProductWrites s)
             (provision_lifecycle c operationID messageID videoCloudDevid activityID clipPublicKey
                serviceOptions))
    writeStoreError (λ result, mret (operation_reply result))
  end end)
  end end end.

(** ** deactivateDevice, unprovisionDevice, adminUnprovisionDevice *)

Definition defaultDeactivationReason : string := "account_device_disabled".

Definition deactivateDevice (c : Call) (req : deactivateRequest) : Store reply :=
  match ensureOperationID (DR_OperationID req) (operation_random c) with
  | None => mret (ErrorReply 500 "id_generation_failed")
  | Some operationID =>
  let explicit := negb (blank (DR_OperationID req)) in
  let reason := if blank (DR_Reason req) then defaultDeactivationReason
                else TrimSpace (DR_Reason req) in
  respond (if explicit : bool then writeExistingDeactivateOperationIfMatch c operationID reason
           else mret None) writeStoreError (λ existing,
  match existing with
  | Some reply => mret reply
  | None =>
  match newOpaqueID (message_random c) with
  | None => mret (ErrorReply 500 "id_generation_failed")
  | Some messageID =>
  respond (StartDeviceDeactivationOperation
             (mkDeactivationInput operationID operationID messageID (orgId c) (deviceId c)
                (stringPtr (currentUserID c)) reason (Truncate_us (UTC (call_now c)))))
    writeStoreError (λ result, mret (operation_reply result))
  end end)
  end.

Definition unprovisionResponseFromResult (result : DeviceUnprovisionResult) : reply :=
  UnprovisionReply (mkUnprovisionBody (URes_DeviceID result) (URes_OrganizationID result)
    (URes_VideoCloudDevid result) "unprovisioned" (URes_UnprovisionedAt result)).

Definition unprovisionDevice (c : Call) (req : unprovisionRequest) : Store reply :=
  respond (UnprovisionDevice (call_now c)
             (mkUnprovision (orgId c) (deviceId c) (currentUserID c) (UR_Reason req) ∅ false
                (Truncate_us (UTC (call_now c)))))
    writeUnprovisionError (λ result, mret (unprovisionResponseFromResult result)).

Definition adminUnprovisionDevice (c : Call) (req : unprovisionRequest) : Store reply :=
  respond (UnprovisionDevice (call_now c)
             (mkUnprovision "" (deviceId c) (currentUserID c) (UR_Reason req) (UR_Evidence req) true
                (Truncate_us (UTC (call_now c)))))
    writeUnprovisionError (λ result, mret (unprovisionResponseFromResult result)).

(** ** Lemmas *)

Lemma respond_ok {A} (m : Store A) fail k db r db' :
  respond m fail k db = (Ok r, db') ↔
  (∃ a s, m db = (Ok a, s) ∧ k a s = (Ok r, db')) ∨
  (∃ e, m db = (Err e, db') ∧ r = fail e).
Proof.
  unfold respond, mbind, M_bind, attempt. destruct (m db) as [[a|e] s].
  - split; [intros H; left; by exists a, s|].
    intros [(? & ? & ? & ?)|(? & ? & _)]; by simplify_eq.
  - split; [intros [= <- <-]; right; by exists e|].
    intros [(? & ? & ? & _)|(? & ? & ->)]; by simplify_eq.
Qed.

Lemma writeStoreError_code e : ∃ status code, writeStoreError e = ErrorReply status code.
Proof. unfold writeStoreError. repeat case_match; eauto. Qed.

Lemma GetDevice_run org id db :
  GetDevice org id db = (match device_in_org org id db with Some d => Ok d | None => Err ErrNotFound end, db).
Proof. unfold GetDevice, mbind, M_bind, gets, row_or. by destruct (device_in_org org id db). Qed.

Lemma latest_operation_read_only org id ty : read_only (latest_operation org id ty).
Proof.
  assert (∀ i, read_only (getLatestOutboxMessageByOperationTx i)) as Hm.
  { intros i. unfold getLatestOutboxMessageByOperationTx. auto with rtk. }
  unfold latest_operation, GetLatestDeviceOperationByType.
  apply read_only_bind; [auto with rtk|]. intros [o|e]; [|case_match; auto with rtk].
  apply read_only_bind; [auto with rtk|]. intros [|]; auto with rtk.
Qed.

Lemma metadataString_some m k t :
  metadataString m k = Some t ↔ ∃ s, m !! k = Some (AString s) ∧ t = TrimSpace s ∧ t ≠ "".
Proof.
  unfold metadataString. split.
  - intros H. destruct (m !! k) as [[| | | |s| | |]|]; try done. case_bool_decide; [done|].
    simplify_eq. by exists s.
  - intros (s & -> & -> & H). by rewrite bool_decide_false.
Qed.

(** ** What a device reported ready has *)

Lemma readiness_ready sources :
  readinessStateFromSources sources = DeviceReadinessStateReady →
  DeactivationOperationStatus sources = None ∧ DeviceEnabled sources = true ∧
  Sources_DeviceStatus sources ≠ DeviceStatusDisabled ∧
  ProvisioningOperationStatus sources = Some DeviceOperationStatusSucceeded ∧
  Sources_VideoCloudActivationStatus sources = Some "activated" ∧
  VideoCloudLastError sources = ANil ∧ ownerTransportOnline sources = true.
Proof.
  unfold readinessStateFromSources, sources_disabled, sources_failed, sources_activated,
    activation_is, provisioning_is.
  intros H. repeat (case_match; try done); destruct_bools; by subst.
Qed.

Lemma online_evidence device provision deactivation at_ :
  let readiness := readinessFromProjectionAt device provision deactivation at_ in
  State readiness = DeviceReadinessStateReady →
  Device_Status device = DeviceStatusOnline ∧ presence_evidence_stale device at_ = false.
Proof.
  intros readiness H. unfold readiness in H. simpl in H.
  apply readiness_ready in H as (_ & _ & _ & _ & Ha & _ & H).
  unfold ownerTransportOnline in H. simpl in *. rewrite Ha in *. simpl in *.
  destruct (presence_evidence_stale device at_); rewrite ?andb_true_r, ?andb_false_r in H; simpl in H;
    by repeat case_bool_decide.
Qed.

Lemma recent_evidence device at_ :
  presence_evidence_stale device at_ = false →
  ∃ videoID seen, metadataString (Device_Metadata device) DeviceMetadataVideoCloudDevid = Some videoID ∧
    Device_LastSeenAt device = Some seen ∧
    t_nanos at_ - ownerPresenceMaxAge <= t_nanos seen <= t_nanos at_ + Minute.
Proof.
  unfold presence_evidence_stale, Before, After, Add. intros H.
  repeat (case_match; try done). destruct_bools. simpl in *.
  eexists _, _. split_and!; [done..|lia|lia].
Qed.

(** The presence service vouches for this very device. *)
Definition live_evidence (ReadPresence : string → res videoPresenceSnapshot) (device : Device)
    : Prop :=
  ∃ videoID snapshot,
    metadataString (Device_Metadata device) DeviceMetadataVideoCloudDevid = Some videoID ∧
    ReadPresence videoID = Ok snapshot ∧
    VP_DeviceID snapshot = videoID ∧ VP_OrgID snapshot = Device_OrganizationID device ∧
    VP_AccountDeviceID snapshot = Device_ID device ∧ VP_Activated snapshot = true ∧
    VP_Online snapshot = true ∧ blank (VP_OwnerTransport snapshot) = false.

Lemma with_transport_online status ty observed seen sources :
  status ≠ "" → status ≠ "online" →
  ownerTransportOnline (with_transport status ty observed seen sources) = false.
Proof. intros. unfold ownerTransportOnline. simpl. by rewrite !bool_decide_false. Qed.

Lemma live_ready ReadPresence device readiness :
  State (readinessWithLivePresence ReadPresence device readiness) = DeviceReadinessStateReady →
  live_evidence ReadPresence device.
Proof.
  unfold readinessWithLivePresence, recomputeReadiness. simpl. intros H.
  apply readiness_ready in H as (_ & _ & _ & _ & _ & _ & H). revert H.
  destruct (metadataString _ _) as [videoID|] eqn:Hv;
    [|by rewrite with_transport_online].
  destruct (ReadPresence videoID) as [snapshot|] eqn:Hr; [|by rewrite with_transport_online].
  destruct (_ || _) eqn:Hid; [by rewrite with_transport_online|].
  destruct (_ && _) eqn:Hon; [|by rewrite with_transport_online].
  intros _. destruct_bools. exists videoID, snapshot. done.
Qed.

Lemma live_sources ReadPresence device readiness :
  let sources := Sources (readinessWithLivePresence ReadPresence device readiness) in
  State (readinessWithLivePresence ReadPresence device readiness) = readinessStateFromSources sources ∧
  ProvisioningOperationStatus sources = ProvisioningOperationStatus (Sources readiness) ∧
  DeactivationOperationStatus sources = DeactivationOperationStatus (Sources readiness) ∧
  DeviceEnabled sources = DeviceEnabled (Sources readiness) ∧
  Sources_VideoCloudActivationStatus sources = Sources_VideoCloudActivationStatus (Sources readiness) ∧
  VideoCloudLastError sources = VideoCloudLastError (Sources readiness).
Proof.
  unfold readinessWithLivePresence. simpl. repeat case_match; done.
Qed.

(** The evidence for a present owner transport. *)
Definition transport_evidence (s : Server) (c : Call) (device : Device) : Prop :=
  match videoPresence s with
  | Some ReadPresence => live_evidence ReadPresence device
  | None => Device_Status device = DeviceStatusOnline ∧ ∃ videoID seen,
      metadataString (Device_Metadata device) DeviceMetadataVideoCloudDevid = Some videoID ∧
      Device_LastSeenAt device = Some seen ∧
      t_nanos (call_now c) - 5 * Minute <= t_nanos seen <= t_nanos (call_now c) + Minute
  end.

Lemma reported_ready s c device provision deactivation :
  State (reported_readiness s c device provision deactivation) = DeviceReadinessStateReady →
  transport_evidence s c device ∧
  State (readinessFromProjectionAt device (fst <$> provision)
    ('(operation, message) ← deactivation;
     if deactivationMatchesCurrentActivity device message then Some operation else None)
    (UTC (call_now c))) ∈ [DeviceReadinessStateReady; DeviceReadinessStateTransportPending].
Proof.
  unfold reported_readiness, transport_evidence.
  destruct (videoPresence s) as [ReadPresence|].
  - destruct (_ || _) eqn:E.
    + intros H. split; [by eapply live_ready|].
      apply orb_true_iff in E as [E|E]; apply bool_decide_eq_true in E; rewrite E; set_solver.
    + intros H. rewrite H in E. done.
  - intros H. split; [|rewrite H; set_solver].
    apply online_evidence in H as [Hon H]. split; [done|].
    apply recent_evidence in H as (v & seen & ? & ? & ?). by exists v, seen.
Qed.

Lemma pending_or_ready sources :
  readinessStateFromSources sources ∈
    [DeviceReadinessStateReady; DeviceReadinessStateTransportPending] →
  DeactivationOperationStatus sources = None ∧ DeviceEnabled sources = true ∧
  ProvisioningOperationStatus sources = Some DeviceOperationStatusSucceeded ∧
  Sources_VideoCloudActivationStatus sources = Some "activated" ∧
  VideoCloudLastError sources = ANil.
Proof.
  unfold readinessStateFromSources, sources_disabled, sources_failed, sources_activated,
    activation_is, provisioning_is.
  intros H. repeat (case_match; try set_solver); destruct_bools; by subst.
Qed.

Lemma getProvisioningState_ok s c db body db' :
  getProvisioningState s c db = (Ok (ProvisioningReply body), db') →
  db' = db ∧ ∃ device provision deactivation,
    device_in_org (orgId c) (deviceId c) db = Some device ∧
    latest_operation (orgId c) (deviceId c) DeviceOperationTypeProvision db = (Ok provision, db) ∧
    latest_operation (orgId c) (deviceId c) DeviceOperationTypeDeactivate db =
      (Ok deactivation, db) ∧
    body = mkProvisioningBody
      ((λ '(operation, message), operationFromResult operation message) <$> provision)
      (reported_readiness s c device provision deactivation)
      (projectedVideoMetadata (Device_Metadata device)).
Proof.
  unfold getProvisioningState. intros H.
  apply respond_ok in H as [(device & s1 & Hd & H)|(e & _ & E)];
    [|destruct (writeStoreError_code e) as (? & ? & ?); congruence].
  rewrite GetDevice_run in Hd. destruct (device_in_org _ _ _) as [d|]; simplify_eq.
  apply respond_ok in H as [(provision & s2 & Hp & H)|(e & _ & E)];
    [|destruct (writeStoreError_code e) as (? & ? & ?); congruence].
  apply (read_only_ok _ _ _ _ (latest_operation_read_only _ _ _)) in Hp as E; subst s2.
  apply respond_ok in H as [(deactivation & s3 & Hx & H)|(e & _ & E)];
    [|destruct (writeStoreError_code e) as (? & ? & ?); congruence].
  apply (read_only_ok _ _ _ _ (latest_operation_read_only _ _ _)) in Hx as E; subst s3.
  unfold mret, M_ret in H. injection H as <- <-. split; [done|]. by exists device, provision, deactivation.
Qed.

(** C35: a device is reported ready only with all of it: it is enabled, its newest provisioning
    succeeded, its projected activation is "activated" with no stored error, its newest
    deactivation, when there is one, is not of its current activity (earlier ones are not looked
    at), and its owner transport is present now: by the presence
    service's word about this very device when one is configured, by a stored report at most five
    minutes old (and at most one minute ahead) otherwise.  Reporting changes nothing. *)
Theorem ready_has_current_evidence s c db body db' :
  getProvisioningState s c db = (Ok (ProvisioningReply body), db') →
  State (PB_Readiness body) = DeviceReadinessStateReady →
  db' = db ∧ ∃ device operation message,
    device_in_org (orgId c) (deviceId c) db = Some device ∧
    latest_operation (orgId c) (deviceId c) DeviceOperationTypeProvision db =
      (Ok (Some (operation, message)), db) ∧
    PB_Operation body = Some (operationFromResult operation message) ∧
    DeviceOperation_Status operation = DeviceOperationStatusSucceeded ∧
    Device_DisabledAt device = None ∧
    metadataString (Device_Metadata device) DeviceMetadataVideoCloudActivationStatus =
      Some "activated" ∧
    default ANil (Device_Metadata device !! DeviceMetadataVideoCloudLastError) = ANil ∧
    (∀ o m, latest_operation (orgId c) (deviceId c) DeviceOperationTypeDeactivate db =
       (Ok (Some (o, m)), db) → deactivationMatchesCurrentActivity device m = false) ∧
    transport_evidence s c device.
Proof.
  intros H Hready. apply getProvisioningState_ok in H as (-> & device & provision & deactivation & H).
  destruct H as (Hd & Hp & Hx & ->). split; [done|]. simpl in *.
  apply reported_ready in Hready as [Ht Hs]. apply pending_or_ready in Hs. simpl in Hs.
  destruct Hs as (Hdeact & Hen & Hst & Hact & Herr).
  destruct provision as [[operation message]|]; [|done]. simplify_eq/=.
  exists device, operation, message. apply bool_decide_eq_true in Hen. split_and!; try done.
  intros o m Hom. rewrite Hx in Hom. simplify_eq/=.
  by destruct (deactivationMatchesCurrentActivity device m).
Qed.

(** The product state a readiness state shows as; the two states that show as
    "registered" differ by the provisioning having been requested. *)
Definition product_state (state : DeviceReadinessState) (requested : bool) : ProductReadinessState :=
  match state with
  | DeviceReadinessStateActivationPending =>
      if requested then ProductReadinessStateCloudActivationPending
      else ProductReadinessStateRegistered
  | DeviceReadinessStateActivationFailed => ProductReadinessStateFailed
  | DeviceReadinessStateTransportPending => ProductReadinessStateActivated
  | DeviceReadinessStateReady => ProductReadinessStateOnline
  | DeviceReadinessStateDeactivationPending => ProductReadinessStateDeactivationPending
  | DeviceReadinessStateDeactivationFailed => ProductReadinessStateFailed
  | DeviceReadinessStateDeactivated => ProductReadinessStateDeactivated
  | DeviceReadinessStateDisabled => ProductReadinessStateRegistered
  end.

(** The two states of a reply never contradict each other: in every reply of the readiness
    report, with or without live presence, the product state is a function of the readiness state
    and of whether a provisioning was requested; in particular "online" is shown exactly for
    ready devices. *)
Theorem reported_states_agree s c device provision deactivation :
  let readiness := reported_readiness s c device provision deactivation in
  ProductState readiness = product_state (State readiness) (bool_decide (is_Some provision)) ∧
  (ProductState readiness = ProductReadinessStateOnline ↔ State readiness = DeviceReadinessStateReady).
Proof.
  assert (∀ sources, productReadinessStateFromSources sources =
    product_state (readinessStateFromSources sources)
      (bool_decide (is_Some (ProvisioningOperationStatus sources)))) as Hall.
  { intros sources. unfold productReadinessStateFromSources, readinessStateFromSources.
    destruct (ProvisioningOperationStatus sources); repeat (case_match; try done). }
  assert (∀ st b, product_state st b = ProductReadinessStateOnline ↔ st = DeviceReadinessStateReady)
    as Hon by (intros [] []; done).
  intros readiness.
  assert (ProductState readiness = product_state (State readiness) (bool_decide (is_Some provision)))
    as E; [|by rewrite E].
  subst readiness. unfold reported_readiness.
  set (r := readinessFromProjectionAt _ _ _ _).
  assert (ProductState r = product_state (State r) (bool_decide (is_Some provision))) as Hr.
  { subst r. simpl. rewrite Hall. simpl. by destruct provision. }
  destruct (videoPresence s) as [ReadPresence|]; [|done].
  destruct (_ || _); [|done].
  destruct (live_sources ReadPresence device r) as (_ & Hp & _).
  unfold readinessWithLivePresence, recomputeReadiness in *. simpl in *.
  rewrite Hall, Hp. by destruct provision.
Qed.

(** ** Sending a provisioning request again *)

Lemma requestPayloadMatches_stored payload keys :
  Forall (λ k, ∃ s, payload !! k = Some (AString s) ∧ blank s = false) keys →
  requestPayloadMatches (marshalJSONMap payload) payload keys = true.
Proof.
  intros H. apply forallb_Forall. eapply Forall_impl; [exact H|]. intros k (s & Hs & Hb).
  simpl. unfold metadataString, marshalJSONMap. rewrite lookup_fmap, Hs. simpl.
  unfold blank in Hb. apply bool_decide_eq_false in Hb. rewrite (bool_decide_false _ Hb). simpl.
  by rewrite bool_decide_true.
Qed.

Lemma provision_payload_texts v a k options :
  blank v = false → blank a = false → blank k = false →
  Forall (λ key, ∃ s, provision_payload v a k options !! key = Some (AString s) ∧ blank s = false)
    ["video_cloud_devid"; "activity_id"; "clip_public_key"].
Proof.
  intros Hv Ha Hk. unfold provision_payload.
  repeat constructor; [exists v|exists a|exists k]; (split; [|done]); case_bool_decide; done.
Qed.

Lemma provision_existing_replays c operationID v a k options message db operation :
  blank v = false → blank a = false → blank k = false →
  is_Some (device_in_org (orgId c) (deviceId c) db) →
  device_operations db !! operationID = Some operation →
  matchExistingLifecycleOperation operation operationID (orgId c) (deviceId c)
    DeviceOperationTypeProvision = Ok tt →
  DeviceOperation_RequestPayload operation = marshalJSONMap (provision_payload v a k options) →
  latest Outbox_CreatedAt (messages_of operationID db) = Some message →
  provision_existing c true operationID (provision_payload v a k options) db =
    (Ok (Some (OperationReply 200 (operationFromResult operation message))), db).
Proof.
  intros Hv Ha Hk [d Hd] Ho Hm Hp Hl.
  assert (matchExistingProvisionOperation operation operationID (orgId c) (deviceId c)
    (provision_payload v a k options) = Ok tt) as Hmatch.
  { unfold matchExistingProvisionOperation. apply res_seq_ok. split; [done|].
    rewrite Hp, requestPayloadMatches_stored; [done|]. by apply provision_payload_texts. }
  unfold provision_existing, mbind, M_bind. rewrite GetDevice_run, Hd.
  unfold writeExistingLifecycleOperationIfMatch, GetDeviceOperation,
    getLatestOutboxMessageByOperationTx, mbind, M_bind, attempt, gets, row_or, lift_res.
  rewrite Ho. unfold mret, M_ret. by rewrite Hmatch, Hl.
Qed.

Lemma provision_existing_ok c explicit operationID payload db r db' :
  provision_existing c explicit operationID payload db = (Ok r, db') →
  db' = db ∧ (r = None ∨ ∃ o, r = Some (OperationReply 200 o)).
Proof.
  unfold provision_existing. destruct explicit; [|intros [= <- <-]; auto].
  intros H. apply bind_ok in H as (d & s & Hd & H). rewrite GetDevice_run in Hd.
  destruct (device_in_org _ _ _); simplify_eq.
  unfold writeExistingLifecycleOperationIfMatch, GetDeviceOperation,
    getLatestOutboxMessageByOperationTx, mbind, M_bind, attempt, gets, row_or, lift_res in H.
  destruct (device_operations s !! operationID) as [o|]; [|simpl in H; injection H as <- <-; auto].
  unfold mret, M_ret in H. destruct (matchExistingProvisionOperation _ _ _ _ _); [|done].
  destruct (latest _ _); simpl in H; [injection H as <- <-; eauto | done].
Qed.

Lemma ensureOperationID_explicit raw data :
  blank raw = false → ensureOperationID raw data = Some (TrimSpace raw).
Proof. unfold ensureOperationID, blank. by intros ->. Qed.

(** The request is well-formed, with these options. *)
Definition provision_accepted (s : Server) (req : provisionRequest) (options : list string) : Prop :=
  rejectUnsupportedClaimMaterial req = None ∧
  blank (TrimSpace (PR_VideoCloudDevid req)) = false ∧ blank (TrimSpace (PR_ActivityID req)) = false ∧
  blank (TrimSpace (PR_ClipPublicKey req)) = false ∧ provision_options s req = inr options.

(** An accepted request with an explicit operation id, as far as the repetition check. *)
Lemma provisionDevice_accepted s c req options db :
  blank (PR_OperationID req) = false → provision_accepted s req options →
  let lifecycle messageID := provision_lifecycle c (TrimSpace (PR_OperationID req)) messageID
    (TrimSpace (PR_VideoCloudDevid req)) (TrimSpace (PR_ActivityID req))
    (TrimSpace (PR_ClipPublicKey req)) options in
  provisionDevice s c req db =
    respond (provision_existing c true (TrimSpace (PR_OperationID req)) (LI_RequestPayload (lifecycle "")))
      writeStoreError (λ existing,
        match existing with
        | Some reply => mret reply
        | None =>
            match newOpaqueID (message_random c) with
            | None => mret (ErrorReply 500 "id_generation_failed")
            | Some messageID =>
                respond (StartDeviceLifecycleOperation (platformServiceProductWrites s) (lifecycle messageID))
                  writeStoreError (λ result, mret (operation_reply result))
            end
        end) db.
Proof.
  intros Hid (Hr & Hv & Ha & Hk & Ho). unfold provisionDevice.
  rewrite Hr, Hv, Ha, Hk. simpl. rewrite Ho, ensureOperationID_explicit by done.
  by rewrite Hid.
Qed.

Lemma provision_options_refused s req refused :
  provision_options s req = inl refused → ∃ status code, refused = ErrorReply status code.
Proof.
  unfold provision_options, optionalRegisteredServiceEcho, canonicalOptionalServiceOptions.
  destruct (platformServiceProductWrites s); [repeat case_match; intros; simplify_eq; eauto|].
  generalize (∅ : gset string). induction (PR_ServiceOptions req) as [|o raw IH]; intros seen; simpl;
    [done|].
  destruct (negb _); [intros; simplify_eq; eauto|].
  case_bool_decide; [intros; simplify_eq; eauto|].
  destruct (canonicalOptionalServiceOptions_loop _ _) eqn:E; [|done]. intros. simplify_eq. eauto.
Qed.

Lemma provisionDevice_created s c req db op db' :
  blank (PR_OperationID req) = false →
  provisionDevice s c req db = (Ok (OperationReply 201 op), db') →
  ∃ options messageID r, provision_accepted s req options ∧
    StartDeviceLifecycleOperation (platformServiceProductWrites s)
      (provision_lifecycle c (TrimSpace (PR_OperationID req)) messageID
        (TrimSpace (PR_VideoCloudDevid req)) (TrimSpace (PR_ActivityID req))
        (TrimSpace (PR_ClipPublicKey req)) options) db = (Ok r, db') ∧
    LR_Created r = true ∧ op = operationFromResult (LR_Operation r) (LR_Message r).
Proof.
  intros Hid H. assert (∃ options, provision_accepted s req options) as [options Hacc].
  { unfold provision_accepted, provisionDevice in *.
    destruct (rejectUnsupportedClaimMaterial req) as [refused|] eqn:Er.
    - unfold rejectUnsupportedClaimMaterial in Er. by case_match; simplify_eq.
    - destruct (provision_options s req) as [refused|options] eqn:Eo; [|exists options].
      + apply provision_options_refused in Eo as (st & cd & ->). by destruct (_ || _).
      + destruct (_ || _) eqn:E; [done|]. by apply orb_false_iff in E as [[]%orb_false_iff ?]. }
  exists options. rewrite (provisionDevice_accepted _ _ _ options) in H by done.
  apply respond_ok in H as [(existing & s1 & Hx & H)|(e & _ & E)];
    [|destruct (writeStoreError_code e) as (? & ? & ?); congruence].
  apply provision_existing_ok in Hx as [-> [->|[o ->]]]; [|by simplify_eq/=].
  destruct (newOpaqueID _) as [messageID|]; [|done]. exists messageID.
  apply respond_ok in H as [(r & s2 & Hs & H)|(e & _ & E)];
    [|destruct (writeStoreError_code e) as (? & ? & ?); congruence].
  unfold mret, M_ret, operation_reply in H. injection H as H Hop <-. exists r. rewrite Hs.
  destruct (LR_Created r); by simplify_eq.
Qed.

(** A provisioning request with an explicit operation id can safely be sent again: once it was
    answered 201, the same request for the same device, at any later time and with whatever random
    bytes, is answered 200 with the very same operation, and changes nothing. *)
Theorem provision_request_can_be_resent s c c' req db op db' t :
  devices_keyed db → outbox_fk db → blank (PR_OperationID req) = false →
  orgId c' = orgId c → deviceId c' = deviceId c →
  provisionDevice s c req db = (Ok (OperationReply 201 op), db') →
  provisionDevice s c' req (with_now t db') = (Ok (OperationReply 200 op), with_now t db').
Proof.
  intros Hk Hfk Hid Horg Hdev H.
  destruct (provisionDevice_created _ _ _ _ _ _ Hid H) as (options & messageID & r & Hacc & Hs & Hc & ->).
  rewrite (provisionDevice_accepted _ _ _ options) by done.
  apply respond_ok. left. destruct Hacc as (_ & Hv & Ha & Hkey & _).
  apply StartDeviceLifecycleOperation_ok in Hs as (actor & d & _ & Hty & _ & Hd & Hs).
  destruct (device_in_org_self _ _ _ _ Hk Hd) as (Hself & Hdid & Hdorg).
  pose proof (proj1 (startTx_created_flag _ _ _ _ _ _ Hself Hs) Hc) as Hfresh.
  pose proof (startTx_created _ _ _ _ _ _ Hself Hfresh Hs) as Hstarted.
  pose proof (started_device _ _ _ _ _ _ Hstarted) as Hdev'. rewrite Hdid, Hdorg in Hdev'. simpl in Hdev'.
  pose proof (started_operation _ _ _ _ _ _ Hstarted) as Hop.
  exists (Some (OperationReply 200 (operationFromResult (LR_Operation r) (LR_Message r)))),
    (with_now t db').
  split; [|done]. apply (provision_existing_replays _ _ _ _ _ _ (LR_Message r)); try done.
  - rewrite Horg, Hdev. by exists (LR_Device r).
  - simpl. rewrite (started_operations _ _ _ _ _ _ Hstarted). apply lookup_insert_eq.
  - rewrite Hop. unfold matchExistingLifecycleOperation. simpl. rewrite Horg, Hdev.
    by rewrite !bool_decide_true.
  - by rewrite Hop.
  - apply latest_single. apply (messages_of_fresh _ (LI_MessageID (provision_lifecycle c
      (TrimSpace (PR_OperationID req)) messageID (TrimSpace (PR_VideoCloudDevid req))
      (TrimSpace (PR_ActivityID req)) (TrimSpace (PR_ClipPublicKey req)) options)) _ db);
      try done; try apply Hstarted.
    destruct (started_message _ _ _ _ _ _ Hstarted) as (i & _ & Hm & _). by rewrite Hm, Hop.
Qed.

(** ** The theorems at work on a small store *)

(** The device is online and activated, its provisioning succeeded. *)
Definition sample_ready_device : Device :=
  device_update DeviceStatusOnline (Some sample_time)
    (<[DeviceMetadataVideoCloudActivationStatus := AString "activated"]> sample_metadata)
    sample_time None sample_device.
Definition sample_ready_db : DB :=
  with_devices {[sample_uuid := sample_ready_device]}
    (sample_finished_db DeviceOperationTypeProvision DeviceMessageOutboxStatusPublished).
Definition sample_snapshot : videoPresenceSnapshot :=
  mkSnapshot "devid-1" sample_org sample_uuid true true "mqtt" None sample_time.
Definition sample_random : list N := [1; 2; 3; 4; 5; 6; 7; 8; 9; 10; 11; 12; 13; 14; 15; 16]%N.
Definition sample_call : Call :=
  mkCall sample_org sample_uuid "user-1" (mkTime (1700000100 * Second) 0) (Some sample_random)
    (Some sample_random).
Definition sample_server (presence : option (string → res videoPresenceSnapshot)) : Server :=
  mkServer false presence.

(** Ready by a recent report, and by the presence service's word. *)
Lemma ready_has_current_evidence_witness :
  transport_evidence (sample_server None) sample_call sample_ready_device ∧
  transport_evidence (sample_server (Some (λ _, Ok sample_snapshot))) sample_call sample_ready_device.
Proof.
  assert (∀ s, s = None ∨ s = Some (λ _, Ok sample_snapshot) →
    transport_evidence (sample_server s) sample_call sample_ready_device) as H;
    [|split; apply H; [left|right]; reflexivity].
  intros s Hs.
  destruct (run_check (λ reply _, match reply with
      | ProvisioningReply body => bool_decide (State (PB_Readiness body) = DeviceReadinessStateReady)
      | _ => false end) (getProvisioningState (sample_server s) sample_call) sample_ready_db)
    as (reply & db' & E & Hready); [destruct Hs as [->| ->]; vm_compute; reflexivity|].
  destruct reply as [| |body|]; try discriminate Hready. apply bool_decide_eq_true in Hready.
  destruct (ready_has_current_evidence _ _ _ _ _ E)
    as (_ & device & operation & message & Hd & _ & _ & _ & _ & _ & _ & _ & H).
  - exact Hready.
  - assert (device = sample_ready_device) as <-; [|exact H].
    apply (inj Some). rewrite <-Hd. vm_compute; reflexivity.
Defined.

Definition sample_request : provisionRequest :=
  mkProvisionRequest "devid-1" "act-1" "key-1" ["mqtt"] "op-7" None None None None None None None.

Lemma provision_request_can_be_resent_witness :
  ∃ op db', provisionDevice (sample_server None) sample_call sample_request sample_db =
      (Ok (OperationReply 201 op), db') ∧
    provisionDevice (sample_server None) sample_call sample_request (with_now sample_time db') =
      (Ok (OperationReply 200 op), with_now sample_time db').
Proof.
  destruct (run_check (λ reply _, match reply with OperationReply status _ => status =? 201 | _ => false end)
    (provisionDevice (sample_server None) sample_call sample_request) sample_db)
    as (reply & db' & E & Hs); [vm_compute; reflexivity|].
  destruct reply as [|status op| |]; try discriminate Hs. apply Z.eqb_eq in Hs. rewrite Hs in E.
  exists op, db'. split; [exact E|].
  apply (provision_request_can_be_resent _ sample_call _ _ sample_db _ _ _
    sample_devices_keyed sample_outbox_fk); [vm_compute; reflexivity|reflexivity|reflexivity|exact E].
Defined.
