(* ===== verification/Broker.v ===== *)
(** * internal/broker: the interfaces of the workers, and transient errors

    [Publisher] and [Consumer] are the Go interfaces as type classes over the
    state of the world a worker runs in; [Environment] is the context and the
    clock every worker reads.  The adapters behind them (Azure Event Hubs, the
    log) are not modelled: theorems about a worker hold for every instance.
    The file also has the errors a publisher marks as transient. *)

From S2P Require Export Unprovision.

Local Open Scope Z_scope.

(** [broker.Transient]: nil stays nil. *)
Definition Transient (err : option error) : option error :=
  match err with None => None | Some err => Some (ErrPublish err true) end.

(** [errors.As] stops at the first error of the tree with the method. *)
Fixpoint as_transient (err : error) : option bool :=
  match err with
  | ErrPublish _ transient => Some transient
  | ErrWrap _ inner => as_transient inner
  | ErrJoin first second =>
      match as_transient first with Some t => Some t | None => as_transient second end
  | _ => None
  end.
Definition IsTransient (err : error) : bool := default false (as_transient err).

Record Message := mkMessage {
  Message_Stream : string;
  Message_Envelope : Envelope;
}.

(** [ctx.Err()], [time.Now()] and a timed wait that ends early with an error
    when the context does. *)
Class Environment (S : Type) := {
  ctx_Err : M S unit;
  time_Now : M S Time;
  sleepContext : Z → M S unit;
}.

Class Publisher (S : Type) := {
  Publish : string → Envelope → M S unit;
}.

(** [Message.Acknowledge] calls back into the consumer. *)
Class Consumer (S : Type) := {
  Receive : Z → M S (list Message);
  Acknowledge : Message → M S unit;
}.

(** A loop that runs until it returns: [None] while it is still running after
    the given number of rounds. *)
Fixpoint run_rounds {S} (n : nat) (round : M S (option (res unit))) : M S (option (res unit)) :=
  match n with
  | O => mret None
  | S n =>
      returned ← round;
      match returned with
      | Some r => mret (Some r)
      | None => run_rounds n round
      end
  end.

(** ** Lemmas *)

(** Wrapping an error does not change whether it is transient. *)
Lemma IsTransient_wrap prefix err : IsTransient (ErrWrap prefix err) = IsTransient err.
Proof. done. Qed.

Lemma errors_Is_refl e : errors_Is e e = true.
Proof. destruct e; cbn [errors_Is]; apply orb_true_iff; left; by apply bool_decide_eq_true. Qed.

Lemma Transient_spec err e : Transient err = Some e →
  IsTransient e = true ∧ ∃ inner, err = Some inner ∧ errors_Is e inner = true.
Proof.
  destruct err as [inner|]; simpl; [|done]. intros [= <-]. split; [done|]. exists inner.
  split; [done|]. cbn [errors_Is]. apply orb_true_iff. right. apply errors_Is_refl.
Qed.

Lemma run_rounds_returned {S} n (round : M S (option (res unit))) (P : res unit → Prop) s r s' :
  (∀ s r s', round s = (Ok (Some r), s') → P r) →
  run_rounds n round s = (Ok (Some r), s') → P r.
Proof.
  intros HP. revert s. induction n as [|n IH]; intros s; simpl; [done|].
  intros H. apply bind_ok in H as ([r'|] & s1 & Hr & H).
  - unfold mret, M_ret in H. simplify_eq. by eapply HP.
  - by eapply IH.
Qed.

Lemma run_rounds_invariant {S} n (round : M S (option (res unit))) (I : S → Prop) s r s' :
  (∀ s r s', I s → round s = (r, s') → I s') →
  I s → run_rounds n round s = (r, s') → I s'.
Proof.
  intros Hstep. revert s. induction n as [|n IH]; intros s HI; simpl.
  - intros [= <- <-]. done.
  - unfold mbind, M_bind. destruct (round s) as [[[r'|]|e] s1] eqn:E.
    + intros [= <- <-]. by eapply Hstep.
    + apply IH. by eapply Hstep.
    + intros [= <- <-]. by eapply Hstep.
Qed.
