(* ===== verification/OutboxWorker.v ===== *)
(** * worker/outbox/service.go: publishing commands

    The worker claims ready messages, hands each to the publisher and records
    what became of it.  It is written against the interfaces [OutboxStore],
    [Publisher] and [Environment]; [OutboxContract] states what it needs of
    them, and its theorems hold for every implementation of that contract. *)

From S2P Require Export Broker.

Local Open Scope Z_scope.

Definition operationPublishFailedCode : string := "publish_failed".

(** [messageStore] *)
Class OutboxStore (S : Type) := {
  store_ClaimOutboxMessagesReady : Time → Time → Z → M S (list DeviceMessageOutbox);
  store_RecordOutboxPublishTransition :
    OutboxPublishTransitionInput → M S OutboxPublishTransitionResult;
}.

(** ** Options and defaults; durations are nanoseconds *)

Record OutboxOptions := mkOutboxOptions {
  OO_MaxAttempts : Z;
  OO_PollInterval : Z;
  OO_RetryDelay : Z;
  OO_LeaseDuration : Z;
  OO_BatchSize : Z;
}.

Record OutboxService := mkOutboxService {
  OS_maxAttempts : Z;
  OS_pollInterval : Z;
  OS_retryDelay : Z;
  OS_leaseDuration : Z;
  OS_batchSize : Z;
}.

Definition NewOutboxService (opts : OutboxOptions) : OutboxService :=
  let or_default v d := if v <=? 0 then d else v in
  let pollInterval := or_default (OO_PollInterval opts) (5 * Second) in
  mkOutboxService (or_default (OO_MaxAttempts opts) 5) pollInterval
    (or_default (OO_RetryDelay opts) pollInterval)
    (or_default (OO_LeaseDuration opts) (30 * Second)) (or_default (OO_BatchSize opts) 20).

Record OutboxStats := mkOutboxStats {
  Claimed : Z;
  Published : Z;
  OStats_Retrying : Z;
  OStats_DeadLettered : Z;
}.

(** ** envelopeFromMessage *)

Definition envelopeFromMessage (message : DeviceMessageOutbox) : res Envelope :=
  let messageType := Outbox_MessageType message in
  route ← RouteForMessageType messageType;
  let envelope := mkEnvelope (Outbox_MessageID message) (Outbox_CorrelationID message)
    (default "" (Outbox_CausationID message)) (Outbox_OperationID message)
    (Route_SourceService route) (Route_TargetService route) messageType
    (Outbox_SchemaVersion message) (Outbox_PartitionKey message)
    (UTC (Outbox_CreatedAt message)) (raw_marshal (Outbox_Payload message)) in
  Envelope_Validate envelope (Outbox_Stream message) ;;
  Ok envelope.

(** [in.MessageID = message.MessageID], ...: what the worker expects to find. *)
Definition expecting (message : DeviceMessageOutbox) (input : OutboxPublishTransitionInput)
    : OutboxPublishTransitionInput :=
  mkPublishTransition (Outbox_MessageID message) (Outbox_Status message)
    (Outbox_AttemptCount message) (Outbox_AvailableAt message) (PT_MessageStatus input)
    (PT_AttemptCount input) (PT_LastError input) (PT_AvailableAt input) (PT_PublishedAt input)
    (PT_OperationStatus input) (PT_OperationErrorCode input) (PT_OperationErrorMessage input)
    (PT_OperationRetryable input) (PT_OperationCompletedAt input).

Section outbox_service.
Context {S : Type} `{Environment S, OutboxStore S, Publisher S}.
Context (s : OutboxService).

Definition outbox_currentTime : M S Time :=
  t ← time_Now; mret (Truncate_us (UTC t)).

(** [false] when another worker has moved the message on. *)
Definition outbox_recordTransition (message : DeviceMessageOutbox)
    (input : OutboxPublishTransitionInput) : M S bool :=
  recorded ← attempt (store_RecordOutboxPublishTransition (expecting message input));
  match recorded with
  | Ok _ => mret true
  | Err err => if errors_Is err ErrConflict then mret false else throw err
  end.

(** The inputs of the three outcomes; [recordTransition] fills in the rest. *)
Definition retry_transition (attemptCount : Z) (attemptedAt : Time) (cause : error)
    : OutboxPublishTransitionInput :=
  mkPublishTransition "" DeviceMessageOutboxStatusPending 0 zero_time
    DeviceMessageOutboxStatusRetrying attemptCount (Some (error_text cause))
    (Add attemptedAt (OS_retryDelay s)) None DeviceOperationStatusRetrying
    (Some operationPublishFailedCode) (Some (error_text cause)) (Some true) None.
Definition dead_letter_transition (attemptCount : Z) (attemptedAt : Time) (cause : error)
    : OutboxPublishTransitionInput :=
  mkPublishTransition "" DeviceMessageOutboxStatusPending 0 zero_time
    DeviceMessageOutboxStatusDeadLettered attemptCount (Some (error_text cause))
    attemptedAt None DeviceOperationStatusDeadLettered
    (Some operationPublishFailedCode) (Some (error_text cause)) (Some (IsTransient cause))
    (Some attemptedAt).
Definition published_transition (attemptCount : Z) (attemptedAt : Time)
    : OutboxPublishTransitionInput :=
  mkPublishTransition "" DeviceMessageOutboxStatusPending 0 zero_time
    DeviceMessageOutboxStatusPublished attemptCount None attemptedAt (Some attemptedAt)
    DeviceOperationStatusPublished None None None None.

Definition outbox_recordRetry (message : DeviceMessageOutbox) (attemptCount : Z)
    (attemptedAt : Time) (cause : error) : M S bool :=
  outbox_recordTransition message (retry_transition attemptCount attemptedAt cause).
Definition outbox_recordDeadLetter (message : DeviceMessageOutbox) (attemptCount : Z)
    (attemptedAt : Time) (cause : error) : M S bool :=
  outbox_recordTransition message (dead_letter_transition attemptCount attemptedAt cause).

(** The outcome [""] is [None]. *)
Definition publishMessage (message : DeviceMessageOutbox)
    : M S (option DeviceMessageOutboxStatus) :=
  attemptedAt ← outbox_currentTime;
  let attemptCount := Outbox_AttemptCount message + 1 in
  match envelopeFromMessage message with
  | Err err =>
      applied ← outbox_recordDeadLetter message attemptCount attemptedAt
        (ErrWrap "invalid outbox message" err);
      mret (if applied : bool then Some DeviceMessageOutboxStatusDeadLettered else None)
  | Ok envelope =>
      published ← attempt (Publish (Outbox_Stream message) envelope);
      match published with
      | Err err =>
          if errors_Is err ErrCanceled then throw err
          else if IsTransient err && (attemptCount <? OS_maxAttempts s) then
            applied ← outbox_recordRetry message attemptCount attemptedAt err;
            mret (if applied : bool then Some DeviceMessageOutboxStatusRetrying else None)
          else
            applied ← outbox_recordDeadLetter message attemptCount attemptedAt err;
            mret (if applied : bool then Some DeviceMessageOutboxStatusDeadLettered else None)
      | Ok _ =>
          applied ← outbox_recordTransition message
            (published_transition attemptCount attemptedAt);
          mret (if applied : bool then Some DeviceMessageOutboxStatusPublished else None)
      end
  end.

Definition count_outbox (outcome : option DeviceMessageOutboxStatus) (stats : OutboxStats)
    : OutboxStats :=
  let add p r d := mkOutboxStats (Claimed stats) (Published stats + p)
    (OStats_Retrying stats + r) (OStats_DeadLettered stats + d) in
  match outcome with
  | Some DeviceMessageOutboxStatusPublished => add 1 0 0
  | Some DeviceMessageOutboxStatusRetrying => add 0 1 0
  | Some DeviceMessageOutboxStatusDeadLettered => add 0 0 1
  | _ => stats
  end.

(** The loop of [RunOnce]: the statistics so far and the error that ended it. *)
Fixpoint publish_claimed (claimed : list DeviceMessageOutbox) (stats : OutboxStats)
    : M S (OutboxStats * option error) :=
  match claimed with
  | [] => mret (stats, None)
  | message :: claimed =>
      live ← attempt ctx_Err;
      match live with
      | Err err => mret (stats, Some err)
      | Ok _ =>
          outcome ← attempt (publishMessage message);
          match outcome with
          | Err err => mret (stats, Some err)
          | Ok outcome => publish_claimed claimed (count_outbox outcome stats)
          end
      end
  end.

Definition outbox_RunOnce : M S (OutboxStats * option error) :=
  now ← outbox_currentTime;
  claimed ← attempt
    (store_ClaimOutboxMessagesReady now (Add now (OS_leaseDuration s)) (OS_batchSize s));
  match claimed with
  | Err err => mret (mkOutboxStats 0 0 0 0, Some err)
  | Ok claimed => publish_claimed claimed (mkOutboxStats (Z.of_nat (length claimed)) 0 0 0)
  end.

(** One turn of [Run]: what it returns, if it does. *)
Definition outbox_Run_round : M S (option (res unit)) :=
  '(_, err) ← outbox_RunOnce;
  match err with
  | Some err => mret (Some (if errors_Is err ErrCanceled then Ok tt else Err err))
  | None =>
      slept ← attempt (sleepContext (OS_pollInterval s));
      match slept with Ok _ => mret None | Err _ => mret (Some (Ok tt)) end
  end.
Definition outbox_Run (rounds : nat) : M S (option (res unit)) :=
  run_rounds rounds outbox_Run_round.
End outbox_service.

(** ** What the worker needs of its store, publisher and clock *)

(** The outbox table and what the publisher has been given. *)
Class OutboxView (S : Type) := {
  outbox_rows : S → gmap string DeviceMessageOutbox;
  handed_over : S → list (string * Envelope);
}.

(** A step that concerns neither. *)
Definition outbox_same {S} `{OutboxView S} (st st' : S) : Prop :=
  outbox_rows st' = outbox_rows st ∧ handed_over st' = handed_over st.

Definition rows_keyed (rows : gmap string DeviceMessageOutbox) : Prop :=
  map_Forall (λ k m, Outbox_MessageID m = k) rows.

Class OutboxContract (S : Type) `{Environment S, OutboxStore S, Publisher S, OutboxView S} := {
  clock_contract st r st' : time_Now (S:=S) st = (r, st') → outbox_same st st';
  ctx_contract st r st' : ctx_Err (S:=S) st = (r, st') → outbox_same st st';
  sleep_contract d st r st' : sleepContext (S:=S) d st = (r, st') → outbox_same st st';
  (* success means the publisher has the envelope; a failure may still have delivered it *)
  publish_contract stream e (st : S) r st' :
    Publish stream e st = (r, st') → outbox_rows st' = outbox_rows st ∧
    ∃ more, handed_over st' = handed_over st ++ more ∧ (r = Ok tt → (stream, e) ∈ more);
  claim_contract before until n (st : S) r st' :
    rows_keyed (outbox_rows st) →
    store_ClaimOutboxMessagesReady before until n st = (r, st') →
    handed_over st' = handed_over st ∧
    match r with
    | Err _ => outbox_rows st' = outbox_rows st
    | Ok ms =>
        (length ms ≤ Z.to_nat n)%nat ∧ NoDup (ids_of ms) ∧
        (∀ m, m ∈ ms → ∃ m0 t, outbox_rows st !! Outbox_MessageID m = Some m0 ∧
           outbox_ready before m0 = true ∧ m = outbox_claim until t m0 ∧
           outbox_rows st' !! Outbox_MessageID m = Some m) ∧
        (∀ k, k ∉ ids_of ms → outbox_rows st' !! k = outbox_rows st !! k)
    end;
  record_contract input (st : S) r st' :
    store_RecordOutboxPublishTransition input st = (r, st') →
    handed_over st' = handed_over st ∧
    match r with
    | Err _ => outbox_rows st' = outbox_rows st
    | Ok result => ∃ current t,
        outbox_rows st !! PT_MessageID input = Some current ∧
        shouldApplyOutboxPublishTransition current input = true ∧
        PTR_Message result = transition_message t current input ∧
        outbox_rows st' = <[PT_MessageID input := PTR_Message result]> (outbox_rows st)
    end;
}.

Lemma attempt_ok {S A} (m : M S A) st r st' : attempt m st = (r, st') → ∃ x, r = Ok x ∧ m st = (x, st').
Proof. unfold attempt. destruct (m st). intros [= <- <-]. eauto. Qed.

(** The columns of a command that no step changes. *)
Definition same_command (m m' : DeviceMessageOutbox) : Prop :=
  Outbox_MessageID m = Outbox_MessageID m' ∧ Outbox_OperationID m = Outbox_OperationID m' ∧
  Outbox_CorrelationID m = Outbox_CorrelationID m' ∧ Outbox_CausationID m = Outbox_CausationID m' ∧
  Outbox_Stream m = Outbox_Stream m' ∧ Outbox_MessageType m = Outbox_MessageType m' ∧
  Outbox_SchemaVersion m = Outbox_SchemaVersion m' ∧
  Outbox_PartitionKey m = Outbox_PartitionKey m' ∧ Outbox_Payload m = Outbox_Payload m' ∧
  Outbox_CreatedAt m = Outbox_CreatedAt m'.

#[export] Instance same_command_equivalence : Equivalence same_command.
Proof. unfold same_command. split; red; naive_solver congruence. Qed.

Lemma same_command_envelope m m' : same_command m m' → envelopeFromMessage m = envelopeFromMessage m'.
Proof.
  unfold same_command, envelopeFromMessage. intros (-> & -> & -> & -> & -> & -> & -> & -> & -> & ->). done.
Qed.

Lemma same_command_transition t m input : same_command (transition_message t m input) m.
Proof. done. Qed.
Lemma same_command_claim u t m : same_command (outbox_claim u t m) m.
Proof. done. Qed.
#[export] Hint Resolve same_command_transition same_command_claim : rtk.

(** ** Invariants of the outbox under the worker *)

Section outbox_invariants.
Context {S : Type} `{OutboxContract S}.
Context (svc : OutboxService).

(** A published row's envelope has been handed to the publisher. *)
Definition published_handed_over (st : S) : Prop :=
  ∀ k m, outbox_rows st !! k = Some m → Outbox_Status m = DeviceMessageOutboxStatusPublished →
    ∃ e, envelopeFromMessage m = Ok e ∧ (Outbox_Stream m, e) ∈ handed_over st.

Definition waiting (m : DeviceMessageOutbox) : Prop :=
  Outbox_Status m = DeviceMessageOutboxStatusPending ∨
  Outbox_Status m = DeviceMessageOutboxStatusRetrying.

(** No recorded count is above the limit, none of a waiting row at it. *)
Definition attempts_bounded (st : S) : Prop :=
  ∀ k m, outbox_rows st !! k = Some m →
    Outbox_AttemptCount m ≤ OS_maxAttempts svc ∧
    (waiting m → Outbox_AttemptCount m < OS_maxAttempts svc).

Definition outbox_invariant (st : S) : Prop :=
  rows_keyed (outbox_rows st) ∧ published_handed_over st ∧ attempts_bounded st.

(** A claimed copy of a row that is still there. *)
Definition claimed_copy (st : S) (m : DeviceMessageOutbox) : Prop :=
  (∃ m0, outbox_rows st !! Outbox_MessageID m = Some m0 ∧ same_command m0 m) ∧
  Outbox_AttemptCount m < OS_maxAttempts svc ∧ waiting m.

Lemma invariant_same st st' : outbox_same st st' → outbox_invariant st → outbox_invariant st'.
Proof.
  intros [Hr Hh]. unfold outbox_invariant, published_handed_over, attempts_bounded.
  by rewrite Hr, Hh.
Qed.
Lemma claimed_copy_same st st' m :
  outbox_rows st' = outbox_rows st → claimed_copy st m → claimed_copy st' m.
Proof. unfold claimed_copy. by intros ->. Qed.

Lemma currentTime_ok st r st' : outbox_currentTime st = (r, st') → outbox_same st st'.
Proof.
  unfold outbox_currentTime, mbind, M_bind. destruct (time_Now st) as [[t|e] s1] eqn:E;
    unfold mret, M_ret; intros [= <- <-]; by eapply clock_contract.
Qed.

Lemma recordTransition_ok m input st r st' :
  outbox_recordTransition m input st = (r, st') →
  handed_over st' = handed_over st ∧
  ((r ≠ Ok true ∧ outbox_rows st' = outbox_rows st) ∨
   (r = Ok true ∧ ∃ current t, outbox_rows st !! Outbox_MessageID m = Some current ∧
      shouldApplyOutboxPublishTransition current (expecting m input) = true ∧
      outbox_rows st' = <[Outbox_MessageID m := transition_message t current (expecting m input)]>
        (outbox_rows st))).
Proof.
  unfold outbox_recordTransition, attempt, mbind, M_bind.
  destruct (store_RecordOutboxPublishTransition _ st) as [[res|e] s1] eqn:E;
    apply record_contract in E as [Hh E].
  - unfold mret, M_ret. intros [= <- <-]. split; [done|]. right. split; [done|].
    destruct E as (current & t & Hc & Ha & Hm & Hr). rewrite Hm in Hr. simpl in *. eauto 7.
  - destruct (errors_Is e ErrConflict); unfold mret, M_ret, throw; intros [= <- <-];
      (split; [done|left; done]).
Qed.

(** Recording an outcome keeps the invariant when the outcome is a fair one. *)
Lemma transition_invariant st st' m input current t :
  outbox_invariant st → handed_over st' = handed_over st →
  outbox_rows st !! Outbox_MessageID m = Some current →
  outbox_rows st' = <[Outbox_MessageID m := transition_message t current (expecting m input)]>
    (outbox_rows st) →
  (PT_MessageStatus input = DeviceMessageOutboxStatusPublished →
     ∃ e, envelopeFromMessage current = Ok e ∧ (Outbox_Stream current, e) ∈ handed_over st) →
  PT_AttemptCount input ≤ OS_maxAttempts svc →
  (PT_MessageStatus input = DeviceMessageOutboxStatusPublished ∨
   PT_MessageStatus input = DeviceMessageOutboxStatusDeadLettered ∨
   PT_AttemptCount input < OS_maxAttempts svc) →
  outbox_invariant st'.
Proof.
  intros (Hk & Hp & Hb) Hh Hc Hr Hpub Hle Hfair. unfold outbox_invariant.
  set (m' := transition_message t current (expecting m input)) in *.
  split_and!.
  - rewrite Hr. apply map_Forall_insert_2; [|done]. simpl. by apply Hk.
  - intros k x. rewrite Hr, Hh. intros [[<- <-]|[_ Hx]]%lookup_insert_Some Hs; [|by eapply Hp].
    simpl in Hs. rewrite (same_command_envelope m' current (same_command_transition _ _ _)).
    by apply Hpub.
  - intros k x. rewrite Hr. intros [[<- <-]|[_ Hx]]%lookup_insert_Some; [|by eapply Hb].
    unfold m', waiting. simpl. unfold transition_attempts. simpl.
    destruct (Hb _ _ Hc) as [Hcb _]. split.
    + destruct (_ && _); lia.
    + intros Hw. assert (PT_AttemptCount input < OS_maxAttempts svc).
      { destruct Hw as [E|E], Hfair as [F|[F|F]]. all: try congruence; done. }
      rewrite bool_decide_false; [done|]. destruct Hw; congruence.
Qed.

Lemma copies_kept st st' m current t input x :
  outbox_rows st !! Outbox_MessageID m = Some current →
  outbox_rows st' = <[Outbox_MessageID m := transition_message t current input]> (outbox_rows st) →
  claimed_copy st x → claimed_copy st' x.
Proof.
  intros Hc Hr ((x0 & Hx & Hs) & ? & ?). split; [|done]. rewrite Hr.
  destruct (decide (Outbox_MessageID m = Outbox_MessageID x)) as [Heq|Hne].
  - rewrite Heq in *. rewrite lookup_insert_eq. eexists. split; [done|].
    rewrite Hc in Hx. injection Hx as <-. etrans; [apply same_command_transition|done].
  - rewrite lookup_insert_ne by done. eauto.
Qed.

Definition keeps (st st' : S) : Prop :=
  outbox_invariant st' ∧ ∀ x, claimed_copy st x → claimed_copy st' x.

Lemma keeps_same st st' : outbox_same st st' → outbox_invariant st → keeps st st'.
Proof.
  intros Hs Hi. split; [by eapply invariant_same|]. intros x. apply claimed_copy_same, Hs.
Qed.
Lemma keeps_trans st st1 st2 : keeps st st1 → (outbox_invariant st1 → keeps st1 st2) → keeps st st2.
Proof. intros [I1 C1] K2. destruct (K2 I1) as [? C2]. split; auto. Qed.

(** An outcome the worker may record for a message it claimed. *)
Definition fair_outcome (st : S) (m : DeviceMessageOutbox) (input : OutboxPublishTransitionInput)
    : Prop :=
  PT_AttemptCount input = Outbox_AttemptCount m + 1 ∧
  match PT_MessageStatus input with
  | DeviceMessageOutboxStatusPublished =>
      ∃ e, envelopeFromMessage m = Ok e ∧ (Outbox_Stream m, e) ∈ handed_over st
  | DeviceMessageOutboxStatusDeadLettered => True
  | _ => PT_AttemptCount input < OS_maxAttempts svc
  end.

Lemma record_keeps m input st r st' :
  outbox_invariant st → claimed_copy st m → fair_outcome st m input →
  outbox_recordTransition m input st = (r, st') → keeps st st'.
Proof.
  intros Hi ((m0 & Hm0 & Hsame) & Hlt & _) [Hn Hf] H'.
  apply recordTransition_ok in H' as [Hh [[_ Hr]|(_ & current & t & Hc & _ & Hr)]].
  { apply keeps_same; [by split|done]. }
  rewrite Hm0 in Hc. injection Hc as <-. split.
  - eapply (transition_invariant st); try done; [|lia|].
    + intros Hp. rewrite Hp in Hf. rewrite (same_command_envelope m0 m) by done.
      destruct Hsame as (_ & _ & _ & _ & -> & _). done.
    + destruct (PT_MessageStatus input); auto.
  - intros x. by eapply copies_kept.
Qed.

Lemma record_outcome_keeps {A} m input (k : bool → A) st r st' :
  outbox_invariant st → claimed_copy st m → fair_outcome st m input →
  (applied ← outbox_recordTransition m input; mret (k applied)) st = (r, st') → keeps st st'.
Proof.
  intros Hi Hc Hf. unfold mbind, M_bind.
  destruct (outbox_recordTransition m input st) as [[b|e] s1] eqn:E;
    unfold mret, M_ret; intros [= <- <-]; by eapply record_keeps.
Qed.

Lemma publish_keeps stream e st r st' :
  Publish stream e st = (r, st') → outbox_invariant st → keeps st st'.
Proof.
  intros E (Hk & Hp & Hb). apply publish_contract in E as (Hr & more & Hh & _). split.
  - split_and!; [by rewrite Hr| |by unfold attempts_bounded; rewrite Hr].
    intros k m. rewrite Hr, Hh. intros Hm Hs. destruct (Hp _ _ Hm Hs) as (e' & ? & ?).
    exists e'. set_solver.
  - intros x. by apply claimed_copy_same.
Qed.

Lemma publishMessage_keeps m st r st' :
  outbox_invariant st → claimed_copy st m → publishMessage svc m st = (r, st') → keeps st st'.
Proof.
  intros Hi Hc. unfold publishMessage. unfold mbind at 1, M_bind at 1.
  destruct (outbox_currentTime st) as [[at_|e] s1] eqn:E1; apply currentTime_ok in E1 as Hs;
    [|intros [= <- <-]; by apply keeps_same].
  intros H'. apply (keeps_trans _ s1); [by apply keeps_same|]. intros Hi1.
  apply (claimed_copy_same _ s1) in Hc; [|apply Hs].
  destruct (envelopeFromMessage m) as [env|e] eqn:Henv;
    [|by apply (record_outcome_keeps _ _ _ _ _ _ Hi1 Hc) in H'; [|split]].
  unfold attempt, mbind, M_bind in H'.
  destruct (Publish (Outbox_Stream m) env s1) as [[[]|e] s2] eqn:E2;
    pose proof (publish_keeps _ _ _ _ _ E2 Hi1) as Hk;
    (apply (keeps_trans _ s2); [done|]); intros Hi2; apply Hk in Hc.
  - apply (record_outcome_keeps _ _ _ _ _ _ Hi2 Hc) in H'; [done|].
    apply publish_contract in E2 as (_ & more & Hh & Hm). split; [done|]. exists env.
    rewrite Hh. specialize (Hm eq_refl). set_solver.
  - destruct (errors_Is e ErrCanceled).
    { unfold throw in H'. injection H' as <- <-. apply keeps_same; [by split|done]. }
    destruct (IsTransient e && _) eqn:Hmax; apply (record_outcome_keeps _ _ _ _ _ _ Hi2 Hc) in H';
      try done. split; [done|]. simpl. apply andb_true_iff in Hmax as [_ Hmax]. lia.
Qed.
End outbox_invariants.

Section outbox_runs.
Context {S : Type} `{OutboxContract S}.
Context (svc : OutboxService).

Lemma publish_claimed_invariant claimed stats st r st' :
  outbox_invariant svc st → Forall (claimed_copy svc st) claimed →
  publish_claimed svc claimed stats st = (r, st') → outbox_invariant svc st'.
Proof.
  revert stats st. induction claimed as [|m claimed IH]; intros stats st Hi Hc; simpl.
  { unfold mret, M_ret. by intros [= <- <-]. }
  apply Forall_cons in Hc as [Hm Hc]. unfold attempt, mbind, M_bind.
  destruct (ctx_Err st) as [[[]|e] s1] eqn:E1; apply ctx_contract in E1;
    pose proof (keeps_same svc _ _ E1 Hi) as [Hi1 Hc1];
    [|unfold mret, M_ret; by intros [= <- <-]].
  destruct (publishMessage svc m s1) as [[o|e] s2] eqn:E2;
    (apply publishMessage_keeps in E2 as [Hi2 Hc2]; [|done|by apply Hc1]).
  - apply IH; [done|]. eapply Forall_impl; [exact Hc|]. auto.
  - unfold mret, M_ret. by intros [= <- <-].
Qed.

Lemma claim_invariant before until n st ms st' :
  outbox_invariant svc st →
  store_ClaimOutboxMessagesReady before until n st = (Ok ms, st') →
  outbox_invariant svc st' ∧ Forall (claimed_copy svc st') ms.
Proof.
  intros (Hk & Hp & Hb) E. apply claim_contract in E as (Hh & _ & Hnd & Hin & Hout); [|done].
  assert (∀ m, m ∈ ms → ∃ m0, outbox_rows st !! Outbox_MessageID m = Some m0 ∧ waiting m0 ∧
    same_command m m0 ∧ Outbox_Status m = Outbox_Status m0 ∧
    Outbox_AttemptCount m = Outbox_AttemptCount m0 ∧
    outbox_rows st' !! Outbox_MessageID m = Some m) as Hms.
  { intros m Hm. destruct (Hin m Hm) as (m0 & t & ? & Hready & -> & Hrow). exists m0.
    split_and!; try done. unfold outbox_ready in Hready. unfold waiting.
    destruct (Outbox_Status m0); auto; done. }
  assert (∀ k m, outbox_rows st' !! k = Some m →
    (m ∈ ms ∧ Outbox_MessageID m = k) ∨ outbox_rows st !! k = Some m) as Hrows.
  { intros k m Hkm. destruct (decide (k ∈ ids_of ms)) as [Hid|Hid].
    - left. apply list_elem_of_fmap in Hid as (m' & -> & Hm').
      destruct (Hms m' Hm') as (_ & _ & _ & _ & _ & _ & Hrow). rewrite Hkm in Hrow.
      by injection Hrow as ->.
    - right. by rewrite <-Hout. }
  split; [split_and!|].
  - intros k m Hkm. destruct (Hrows k m Hkm) as [[_ ?]|?]; [done|by apply Hk].
  - intros k m Hkm Hs. rewrite Hh. destruct (Hrows k m Hkm) as [[Hm _]|?]; [|by eapply Hp].
    destruct (Hms m Hm) as (m0 & _ & Hw & _ & Hst & _). rewrite Hs in Hst.
    destruct Hw; congruence.
  - intros k m Hkm. destruct (Hrows k m Hkm) as [[Hm _]|?]; [|by eapply Hb].
    destruct (Hms m Hm) as (m0 & Hm0 & _ & _ & Hst & Hat & _). unfold waiting.
    rewrite Hst, Hat. by eapply Hb.
  - apply Forall_forall. intros m Hm. destruct (Hms m Hm) as (m0 & Hm0 & Hw & Hsame & Hst & Hat & Hr).
    split; [exists m; split; [done|reflexivity]|]. rewrite Hat. unfold waiting. rewrite Hst.
    split; [|done]. by apply (Hb _ _ Hm0).
Qed.

Lemma RunOnce_invariant st r st' :
  outbox_invariant svc st → outbox_RunOnce svc st = (r, st') → outbox_invariant svc st'.
Proof.
  intros Hi. unfold outbox_RunOnce, mbind, M_bind.
  destruct (outbox_currentTime st) as [[t|e] s1] eqn:E1; apply currentTime_ok in E1;
    pose proof (invariant_same svc _ _ E1 Hi) as Hi1; [|by intros [= <- <-]].
  unfold attempt. destruct (store_ClaimOutboxMessagesReady _ _ _ s1) as [[ms|e] s2] eqn:E2.
  - apply claim_invariant in E2 as [Hi2 Hms]; [|done]. by apply publish_claimed_invariant.
  - unfold mret, M_ret. intros [= <- <-]. apply claim_contract in E2 as [? ?]; [|apply Hi1].
    eapply invariant_same; [|done]. by split.
Qed.

Lemma Run_round_invariant st r st' :
  outbox_invariant svc st → outbox_Run_round svc st = (r, st') → outbox_invariant svc st'.
Proof.
  intros Hi. unfold outbox_Run_round, mbind, M_bind.
  destruct (outbox_RunOnce svc st) as [[[stats [err|]]|e] s1] eqn:E1;
    apply RunOnce_invariant in E1; try done; unfold mret, M_ret; try by intros [= <- <-].
  unfold attempt. destruct (sleepContext _ s1) as [[[]|e] s2] eqn:E2;
    apply sleep_contract in E2; intros [= <- <-]; by eapply invariant_same.
Qed.

(** C5: the outbox is at-least-once and its count of attempts is bounded: whatever the publisher
    answers, whichever recordings fail and however often the worker runs, every row that is
    published had its envelope accepted by the publisher, the attempt count recorded on a row
    never exceeds [maxAttempts], and a row whose recorded count has reached it is no longer
    waiting.  The bound is on the recorded count only: a delivery whose outcome could not be
    recorded, because the transition failed or its row had moved on, is not counted and the row
    is delivered again when its lease ends. *)
Theorem outbox_worker_safety rounds st r st' :
  rows_keyed (outbox_rows st) → published_handed_over st → attempts_bounded svc st →
  outbox_Run svc rounds st = (r, st') →
  published_handed_over st' ∧ attempts_bounded svc st' ∧ rows_keyed (outbox_rows st').
Proof.
  intros Hk Hp Hb Hrun.
  assert (outbox_invariant svc st') as (? & ? & ?); [|done].
  eapply (run_rounds_invariant _ _ (outbox_invariant svc)); [|by split_and!|exact Hrun].
  intros. by eapply Run_round_invariant.
Qed.

(** Cancelling the worker is not an error: whenever [Run] returns an error, it is not the
    cancellation of its context. *)
Theorem outbox_Run_hides_cancellation rounds st e st' :
  outbox_Run svc rounds st = (Ok (Some (Err e)), st') → errors_Is e ErrCanceled = false.
Proof.
  intros Hrun. apply (run_rounds_returned _ _
    (λ r, match r with Err e => errors_Is e ErrCanceled = false | Ok _ => True end)) in Hrun; [done|].
  clear. intros st r st'. unfold outbox_Run_round. intros Hr.
  apply bind_ok in Hr as ([stats [err|]] & s1 & _ & Hr).
  - unfold mret, M_ret in Hr. destruct (errors_Is err ErrCanceled) eqn:E; by injection Hr as <- <-.
  - apply bind_ok in Hr as ([[]|] & s2 & _ & Hr); unfold mret, M_ret in Hr; by simplify_eq.
Qed.
End outbox_runs.

Section outbox_outcomes.
Context {S : Type} `{OutboxContract S}.
Context (svc : OutboxService).

Definition handled (stats : OutboxStats) : Z :=
  Published stats + OStats_Retrying stats + OStats_DeadLettered stats.

Lemma count_outbox_handled o stats :
  Claimed (count_outbox o stats) = Claimed stats ∧
  handled stats ≤ handled (count_outbox o stats) ≤ handled stats + 1.
Proof. unfold handled. destruct o as [[]|]; simpl; lia. Qed.

Lemma publish_claimed_stats claimed stats st stats' err st' :
  publish_claimed svc claimed stats st = (Ok (stats', err), st') →
  Claimed stats' = Claimed stats ∧
  handled stats ≤ handled stats' ≤ handled stats + Z.of_nat (length claimed).
Proof.
  revert stats st. induction claimed as [|m claimed IH]; intros stats st; simpl.
  { unfold mret, M_ret. intros [= <- _ _]. lia. }
  unfold attempt, mbind, M_bind. destruct (ctx_Err st) as [[[]|e] s1]; unfold mret at 1, M_ret at 1.
  - destruct (publishMessage svc m s1) as [[o|e] s2].
    + intros Hr. apply IH in Hr as [-> Hle].
      pose proof (count_outbox_handled o stats) as [-> ?]. lia.
    + unfold mret, M_ret. intros [= <- _ _]. lia.
  - intros [= <- _ _]. lia.
Qed.

(** The statistics of a run add up: at most [batchSize] messages are claimed, and no more
    are counted as published, retrying or dead-lettered than were claimed. *)
Theorem outbox_stats_add_up st stats err st' :
  rows_keyed (outbox_rows st) →
  outbox_RunOnce svc st = (Ok (stats, err), st') →
  0 ≤ Published stats + OStats_Retrying stats + OStats_DeadLettered stats ≤ Claimed stats ∧
  Claimed stats ≤ Z.max 0 (OS_batchSize svc).
Proof.
  intros Hk Hr. apply bind_ok in Hr as (t & s1 & E1 & Hr). apply currentTime_ok in E1 as [E1 _].
  apply bind_ok in Hr as (claimed & s2 & E2 & Hr).
  apply attempt_ok in E2 as (x & [= <-] & E2). destruct claimed as [ms|e].
  - apply claim_contract in E2 as (_ & Hlen & _); [|by rewrite E1].
    apply publish_claimed_stats in Hr as [-> Hle]. unfold handled in Hle. simpl in *. lia.
  - unfold mret, M_ret in Hr. injection Hr as <- _ _. simpl. lia.
Qed.

(** The outcome an answer of the publisher calls for. *)
Definition outcome_of_reply (attemptCount : Z) (reply : res unit) : DeviceMessageOutboxStatus :=
  match reply with
  | Ok _ => DeviceMessageOutboxStatusPublished
  | Err err =>
      if IsTransient err && (attemptCount <? OS_maxAttempts svc)
      then DeviceMessageOutboxStatusRetrying else DeviceMessageOutboxStatusDeadLettered
  end.

Lemma recorded_row m input st (o s : DeviceMessageOutboxStatus) st' :
  outbox_rows st !! Outbox_MessageID m = Some m →
  PT_AttemptCount input = Outbox_AttemptCount m + 1 →
  (applied ← outbox_recordTransition m input; mret (if applied : bool then Some o else None)) st
    = (Ok (Some s), st') →
  s = o ∧ ∃ row, outbox_rows st' !! Outbox_MessageID m = Some row ∧
    Outbox_Status row = PT_MessageStatus input ∧
    Outbox_AttemptCount row = Outbox_AttemptCount m + 1 ∧ Outbox_LastError row = PT_LastError input ∧
    same_command row m.
Proof.
  intros Hm Hn Hr. apply bind_ok in Hr as (applied & s1 & Hrec & Hr).
  unfold mret, M_ret in Hr. destruct applied; [|done]. injection Hr as <- <-. split; [done|].
  apply recordTransition_ok in Hrec as [_ [[[] _]|(_ & current & t & Hc & _ & Hrow)]]; [done|].
  rewrite Hm in Hc. injection Hc as <-.
  exists (transition_message t m (expecting m input)).
  rewrite Hrow, lookup_insert_eq. split_and!; try done.
  simpl. unfold transition_attempts. simpl. rewrite Hn.
  destruct (Z.ltb_spec (Outbox_AttemptCount m + 1) (Outbox_AttemptCount m)); [lia|].
  by rewrite andb_false_r.
Qed.

(** Each attempt ends as the code means it to: a message that does not form a valid envelope
    is dead-lettered without being sent; otherwise the envelope goes to the publisher once and
    the row becomes published on success, retrying on a transient error while attempts are
    left, and dead-lettered on any other error; the row counts exactly one more attempt. *)
Theorem publish_outcome m st outcome st' :
  outbox_rows st !! Outbox_MessageID m = Some m →
  publishMessage svc m st = (Ok (Some outcome), st') →
  match envelopeFromMessage m with
  | Err _ => outcome = DeviceMessageOutboxStatusDeadLettered
  | Ok e => ∃ st1 reply st2, Publish (Outbox_Stream m) e st1 = (reply, st2) ∧
      outcome = outcome_of_reply (Outbox_AttemptCount m + 1) reply
  end ∧
  ∃ row, outbox_rows st' !! Outbox_MessageID m = Some row ∧ Outbox_Status row = outcome ∧
    Outbox_AttemptCount row = Outbox_AttemptCount m + 1 ∧ same_command row m ∧
    (Outbox_LastError row = None ↔ outcome = DeviceMessageOutboxStatusPublished).
Proof.
  intros Hm Hr. apply bind_ok in Hr as (t & s1 & E1 & Hr). apply currentTime_ok in E1 as [E1 _].
  rewrite <-E1 in Hm. destruct (envelopeFromMessage m) as [e|err] eqn:Henv.
  - apply bind_ok in Hr as (reply & s2 & E2 & Hr). apply attempt_ok in E2 as (x & [= <-] & E2).
    pose proof (publish_contract _ _ _ _ _ E2) as [E3 _]. rewrite <-E3 in Hm.
    destruct reply as [[]|err].
    + apply recorded_row in Hr as [-> (row & ? & Hs & ? & Hl & ?)]; try done.
      split; [by eauto|]. exists row. rewrite Hl. done.
    + destruct (errors_Is err ErrCanceled); [done|].
      destruct (IsTransient err && _) eqn:Hmax;
        (apply recorded_row in Hr as [-> (row & ? & Hs & ? & Hl & ?)]; [|done|done]);
        (split; [exists s1, (Err err), s2; by simpl; rewrite Hmax|]);
        exists row; rewrite Hl; simpl; naive_solver.
  - apply recorded_row in Hr as [-> (row & ? & Hs & ? & Hl & ?)]; try done.
    split; [done|]. exists row. rewrite Hl. simpl. naive_solver.
Qed.
End outbox_outcomes.

(** *** The service's numbers *)

Lemma NewOutboxService_positive opts :
  0 < OS_maxAttempts (NewOutboxService opts) ∧ 0 < OS_pollInterval (NewOutboxService opts) ∧
  0 < OS_retryDelay (NewOutboxService opts) ∧ 0 < OS_leaseDuration (NewOutboxService opts) ∧
  0 < OS_batchSize (NewOutboxService opts).
Proof.
  unfold NewOutboxService, Second. simpl.
  repeat match goal with |- context [if ?a <=? 0 then _ else _] => destruct (Z.leb_spec a 0) end; lia.
Qed.

(** ** What envelopes carry *)

(** An envelope built from a row is a valid command: it passes [ValidateAndDecode], carries
    the row's ids, takes the route of its message type from this service to the video cloud, and
    its partition key, the row's, is the device id inside the payload, a UUID. *)
Theorem outbox_envelope_valid m e :
  envelopeFromMessage m = Ok e →
  ∃ p, ValidateAndDecode e (Outbox_Stream m) = Ok p ∧
    (Outbox_Stream m = "" ∨ Outbox_Stream m = StreamAccountVideoCommands ∨
     Outbox_Stream m = StreamVideoAccountEvents) ∧
    MessageID e = Outbox_MessageID m ∧ OperationID e = Outbox_OperationID m ∧
    CorrelationID e = Outbox_CorrelationID m ∧
    Envelope_MessageType e = Outbox_MessageType m ∧ message_type_of p = Outbox_MessageType m ∧
    PartitionKey e = Outbox_PartitionKey m ∧ Outbox_PartitionKey m = Payload_PartitionKey p ∧
    isUUID (Outbox_PartitionKey m) = true.
Proof.
  unfold envelopeFromMessage. rewrite res_bind_ok. intros (route & Hroute & H).
  rewrite res_seq_ok in H. destruct H as [Hv [= He]].
  unfold Envelope_Validate in Hv. rewrite res_bind_ok in Hv. destruct Hv as (p & Hp & _).
  rewrite He in Hp. exists p. split; [done|].
  apply ValidateAndDecode_accepted in Hp as (spec & Hacc). subst e. simpl in *.
  pose proof (acc_key _ _ _ _ Hacc) as Hkey. simpl in Hkey.
  pose proof (decodeStrictJSON_payload_type _ _ _ (acc_decode _ _ _ _ Hacc)) as Hty.
  rewrite (spec_for_type _ _ (acc_spec _ _ _ _ Hacc)) in Hty.
  split_and!; try done.
  - destruct (acc_stream _ _ _ _ Hacc) as [->| ->]; [by left|right].
    pose proof (acc_spec _ _ _ _ Hacc) as Hs. simpl in Hs. spec_cases Hs; auto.
  - rewrite Hkey. by apply Payload_Validate_partition_key, (acc_valid _ _ _ _ Hacc).
Qed.

(** The command of a waiting row, as an envelope. *)
Lemma outbox_envelope_valid_witness :
  ∃ e, envelopeFromMessage (sample_outbox DeviceMessageOutboxStatusPending 0) = Ok e ∧
    PartitionKey e = sample_uuid.
Proof.
  assert (is_ok (envelopeFromMessage (sample_outbox DeviceMessageOutboxStatusPending 0)) = true) as Hok
    by (vm_compute; reflexivity).
  destruct (envelopeFromMessage (sample_outbox DeviceMessageOutboxStatusPending 0)) as [e|] eqn:E;
    [|discriminate Hok].
  exists e. split; [reflexivity|].
  destruct (outbox_envelope_valid _ _ E) as (p & _ & _ & _ & _ & _ & _ & _ & H & _). exact H.
Defined.
