(* ===== verification/InboxWorker.v ===== *)
(** * worker/inbox/service.go: handling events

    The worker receives records, registers each in the inbox, checks and
    decodes it, turns the payload into a transition and records it; what it
    must not lose it leaves unacknowledged.  Like the outbox worker it is
    written against interfaces, with the contract it needs of them. *)

From S2P Require Export OutboxWorker.

Local Open Scope Z_scope.

(** [messageStore] *)
Class InboxStore (S : Type) := {
  store_CreateOrGetInboxMessage : DeviceMessageInboxCreateInput → M S (DeviceMessageInbox * bool);
  store_GetDeviceOperation : string → M S DeviceOperation;
  store_RecordInboxProcessTransition :
    InboxProcessTransitionInput → M S InboxProcessTransitionResult;
}.

Record InboxOptions := mkInboxOptions {
  IO_Stream : string;
  IO_MaxAttempts : Z;
  IO_PollInterval : Z;
  IO_BatchSize : Z;
}.

Record InboxService := mkInboxService {
  IS_stream : string;
  IS_maxAttempts : Z;
  IS_pollInterval : Z;
  IS_batchSize : Z;
}.

Definition NewInboxService (opts : InboxOptions) : InboxService :=
  let or_default v d := if v <=? 0 then d else v in
  mkInboxService
    (if bool_decide (IO_Stream opts = "") then StreamVideoAccountEvents else IO_Stream opts)
    (or_default (IO_MaxAttempts opts) 5) (or_default (IO_PollInterval opts) (5 * Second))
    (or_default (IO_BatchSize opts) 20).

Record InboxStats := mkInboxStats {
  Received : Z;
  Processed : Z;
  IStats_Retrying : Z;
  IStats_DeadLettered : Z;
  Skipped : Z;
}.

(** ** Payload snapshots *)

Definition payloadSnapshotRawKey : string := "_raw_payload".
Definition payloadSnapshotBase64Key : string := "_raw_payload_base64".
Definition payloadSnapshotErrorKey : string := "_payload_decode_error".
Definition payloadSnapshotEnvelopePartitionKey : string := "_envelope_partition_key".

Definition payloadMapFromEnvelope (envelope : Envelope) : jsonmap * option error :=
  let text := raw_text (Envelope_Payload envelope) in
  if bool_decide (text = "") then (∅, None)
  else match unmarshal_map (Envelope_Payload envelope) with
    | Err err =>
        let snapshot := map_literal
          [(payloadSnapshotBase64Key, AString (b64_EncodeToString text));
           (payloadSnapshotErrorKey, AString (error_text err))] in
        ((if utf8_Valid text then <[payloadSnapshotRawKey := AString text]> snapshot
          else snapshot), Some err)
    | Ok None => (∅, None)
    | Ok (Some payload) => (payload, None)
    end.

Definition withEnvelopePartitionKeySnapshot (payload : jsonmap)
    (originalPartitionKey persistedPartitionKey : string) : jsonmap :=
  if bool_decide (originalPartitionKey = persistedPartitionKey) then payload
  else <[payloadSnapshotEnvelopePartitionKey := AString originalPartitionKey]> payload.

Definition isCompletedLifecycleOperation (operation : DeviceOperation) : bool :=
  match DeviceOperation_Status operation with
  | DeviceOperationStatusSucceeded | DeviceOperationStatusFailed =>
      match DeviceOperation_OperationType operation with
      | DeviceOperationTypeProvision | DeviceOperationTypeDeactivate
      | DeviceOperationTypeUnprovision | DeviceOperationTypeEntitlementUpdate => true
      end
  | _ => false
  end.

Definition partitionKeyMatchesOperationDevice (partitionKey deviceID : string) : bool :=
  negb (blank partitionKey) && bool_decide (partitionKey = deviceID).

Definition causationIDPtr (value : string) : option string :=
  if bool_decide (value = "") then None else Some value.

(** ** Transitions *)

Definition activityProjection (projection : DeviceProjectionInput) (activityID : string)
    : DeviceProjectionInput :=
  mkProjection (Metadata projection) activityID (Status projection) (LastSeenAt projection)
    (ResetPresence projection) (AllowDisabled projection).

(** The fields [processMessage] fills in later hold their zero values. *)
Definition transition_input (status : option DeviceOperationStatus) (result : jsonmap)
    (code message : option string) (retryable : option bool) (completedAt : option Time)
    (orgID deviceID : string) (projection : option DeviceProjectionInput)
    : InboxProcessTransitionInput :=
  mkProcessTransition "" DeviceMessageInboxStatusRetrying 0 None None status result code message
    retryable completedAt orgID deviceID projection.

Definition successTransition (orgID deviceID : string) (completedAt : Time)
    (projection : DeviceProjectionInput) (result : jsonmap) : InboxProcessTransitionInput :=
  transition_input (Some DeviceOperationStatusSucceeded) result None None None (Some completedAt)
    orgID deviceID (Some projection).

Definition successTransitionWithoutProjection (orgID deviceID : string) (completedAt : Time)
    (result : jsonmap) : InboxProcessTransitionInput :=
  transition_input (Some DeviceOperationStatusSucceeded) result None None None (Some completedAt)
    orgID deviceID None.

Definition failureTransition (orgID deviceID : string) (completedAt : Time)
    (projection : DeviceProjectionInput) (result : jsonmap) (errorCode errorMessage : string)
    (retryable : bool) : InboxProcessTransitionInput :=
  transition_input (Some DeviceOperationStatusFailed) result (Some errorCode) (Some errorMessage)
    (Some retryable) (Some completedAt) orgID deviceID (Some projection).

Definition failureTransitionWithoutProjection (orgID deviceID : string) (completedAt : Time)
    (result : jsonmap) (errorCode errorMessage : string) (retryable : bool)
    : InboxProcessTransitionInput :=
  transition_input (Some DeviceOperationStatusFailed) result (Some errorCode) (Some errorMessage)
    (Some retryable) (Some completedAt) orgID deviceID None.

(** The result of a failure: the given members and the failure's own. *)
Definition failure_result (first : list (string * any)) (errorCode errorMessage : string)
    (retryable : bool) (failedAt : Time) : jsonmap :=
  map_literal (first ++
    [("error_code", AString errorCode); ("error_message", AString errorMessage);
     ("retryable", ABool retryable); ("failed_at", ATime (UTC failedAt))]).

Definition buildTransitionForPayload (envelope : Envelope) (payload : Payload)
    : res InboxProcessTransitionInput :=
  match payload with
  | ProvisionSucceeded typed => Ok
      (successTransition (PS_OrgID typed) (PS_AccountDeviceID typed) (UTC (PS_ActivatedAt typed))
        (activityProjection (ProvisionSucceededProjection typed) (PS_ActivityID typed))
        (map_literal
          [("video_cloud_devid", AString (PS_VideoCloudDevid typed));
           ("activity_id", AString (PS_ActivityID typed));
           ("activated_at", ATime (UTC (PS_ActivatedAt typed)))]))
  | ProvisionFailed typed => Ok
      (failureTransition (PF_OrgID typed) (PF_AccountDeviceID typed) (UTC (PF_FailedAt typed))
        (activityProjection (ProvisionFailedProjection typed) (PF_ActivityID typed))
        (failure_result
          [("video_cloud_devid", AString (PF_VideoCloudDevid typed));
           ("activity_id", AString (PF_ActivityID typed))]
          (PF_ErrorCode typed) (PF_ErrorMessage typed) (PF_Retryable typed) (PF_FailedAt typed))
        (PF_ErrorCode typed) (PF_ErrorMessage typed) (PF_Retryable typed))
  | DeactivateSucceeded typed => Ok
      (successTransition (DS_OrgID typed) (DS_AccountDeviceID typed) (UTC (DS_DeactivatedAt typed))
        (activityProjection (DeactivateSucceededProjection typed) (DS_ActivityID typed))
        (map_literal
          [("video_cloud_devid", AString (DS_VideoCloudDevid typed));
           ("activity_id", AString (DS_ActivityID typed));
           ("deactivated_at", ATime (UTC (DS_DeactivatedAt typed)))]))
  | DeactivateFailed typed => Ok
      (failureTransition (DF_OrgID typed) (DF_AccountDeviceID typed) (UTC (DF_FailedAt typed))
        (activityProjection (DeactivateFailedProjection typed) (DF_ActivityID typed))
        (failure_result
          [("video_cloud_devid", AString (DF_VideoCloudDevid typed));
           ("activity_id", AString (DF_ActivityID typed))]
          (DF_ErrorCode typed) (DF_ErrorMessage typed) (DF_Retryable typed) (DF_FailedAt typed))
        (DF_ErrorCode typed) (DF_ErrorMessage typed) (DF_Retryable typed))
  | UnprovisionSucceeded typed => Ok
      (successTransitionWithoutProjection (US_OrgID typed) (US_AccountDeviceID typed)
        (UTC (US_UnprovisionedAt typed))
        (map_literal
          [("video_cloud_devid", AString (US_VideoCloudDevid typed));
           ("unprovisioned_at", ATime (UTC (US_UnprovisionedAt typed)))]))
  | UnprovisionFailed typed => Ok
      (failureTransitionWithoutProjection (UF_OrgID typed) (UF_AccountDeviceID typed)
        (UTC (UF_FailedAt typed))
        (failure_result [("video_cloud_devid", AString (UF_VideoCloudDevid typed))]
          (UF_ErrorCode typed) (UF_ErrorMessage typed) (UF_Retryable typed) (UF_FailedAt typed))
        (UF_ErrorCode typed) (UF_ErrorMessage typed) (UF_Retryable typed))
  | EntitlementSnapshotSucceeded typed => Ok
      (successTransitionWithoutProjection (ES_OrgID typed) (ES_AccountDeviceID typed)
        (UTC (ES_AppliedAt typed))
        (map_literal
          [("video_cloud_devid", AString (ES_VideoCloudDevid typed));
           ("platform_entitlement_revision", AInt (ES_PlatformEntitlementRevision typed));
           ("applied_at", ATime (UTC (ES_AppliedAt typed)))]))
  | EntitlementSnapshotFailed typed => Ok
      (failureTransitionWithoutProjection (EF_OrgID typed) (EF_AccountDeviceID typed)
        (UTC (EF_FailedAt typed))
        (failure_result
          [("video_cloud_devid", AString (EF_VideoCloudDevid typed));
           ("platform_entitlement_revision", AInt (EF_PlatformEntitlementRevision typed))]
          (EF_ErrorCode typed) (EF_ErrorMessage typed) (EF_Retryable typed) (EF_FailedAt typed))
        (EF_ErrorCode typed) (EF_ErrorMessage typed) (EF_Retryable typed))
  | OnlineChanged typed => Ok
      (transition_input None ∅ None None None None (OC_OrgID typed) (OC_AccountDeviceID typed)
        (Some (OnlineChangedProjection typed)))
  | MetadataChanged typed => Ok
      (transition_input None ∅ None None None None (MC_OrgID typed) (MC_AccountDeviceID typed)
        (Some (MetadataChangedProjection typed)))
  | _ => Err (ErrText ("unsupported message type " +:+ quote (Envelope_MessageType envelope)))
  end.

(** [transition.MessageID = message.MessageID], ... *)
Definition settle_transition (message : DeviceMessageInbox) (status : DeviceMessageInboxStatus)
    (attemptCount : Z) (lastError : option string) (processedAt : option Time)
    (transition : InboxProcessTransitionInput) : InboxProcessTransitionInput :=
  mkProcessTransition (Inbox_MessageID message) status attemptCount lastError processedAt
    (IT_OperationStatus transition) (IT_OperationResult transition)
    (IT_OperationErrorCode transition) (IT_OperationErrorMessage transition)
    (IT_OperationRetryable transition) (IT_OperationCompletedAt transition)
    (IT_OrganizationID transition) (IT_DeviceID transition) (IT_Projection transition).

(** The transition that touches the inbox row only. *)
Definition message_only : InboxProcessTransitionInput :=
  transition_input None ∅ None None None None "" "" None.

(** ** The service *)

Section inbox_service.
Context {S : Type} `{Environment S, InboxStore S, Consumer S}.
(** The package variable [transitionForPayloadFunc]. *)
Context (transitionForPayload : Envelope → Payload → res InboxProcessTransitionInput).
Context (s : InboxService).

Definition inbox_currentTime : M S Time :=
  t ← time_Now; mret (Truncate_us (UTC t)).

Definition receivedAt (envelope : Envelope) : M S Time :=
  if IsZero (OccurredAt envelope) then inbox_currentTime
  else mret (Truncate_us (UTC (OccurredAt envelope))).

Definition with_key (input : DeviceMessageInboxCreateInput) (key : string) (payload : jsonmap)
    : DeviceMessageInboxCreateInput :=
  mkInboxCreate (MIC_MessageID input) (MIC_OperationID input) (MIC_CorrelationID input)
    (MIC_CausationID input) (MIC_Stream input) (MIC_MessageType input) (MIC_SchemaVersion input)
    key payload (MIC_Status input) (MIC_AttemptCount input) (MIC_LastError input)
    (MIC_ReceivedAt input) (MIC_ProcessedAt input).

Definition createInboxMessage (input : DeviceMessageInboxCreateInput)
    : M S (DeviceMessageInbox * bool) :=
  input ←
    (if blank (MIC_PartitionKey input) then
       operation ← attempt (store_GetDeviceOperation (MIC_OperationID input));
       match operation with
       | Err err => if errors_Is err ErrNotFound then mret input else throw err
       | Ok operation =>
           mret (with_key input (DeviceOperation_DeviceID operation)
             (withEnvelopePartitionKeySnapshot (MIC_Payload input) (MIC_PartitionKey input)
               (DeviceOperation_DeviceID operation)))
       end
     else mret input);
  store_CreateOrGetInboxMessage input.

Definition markProcessedWithoutProjection (message : DeviceMessageInbox) (attemptCount : Z)
    : M S unit :=
  processedAt ← inbox_currentTime;
  _ ← store_RecordInboxProcessTransition
    (settle_transition message DeviceMessageInboxStatusProcessed attemptCount None
      (Some processedAt) message_only);
  mret tt.

Definition inbox_recordRetry (message : DeviceMessageInbox) (attemptCount : Z) (cause : error)
    : M S unit :=
  _ ← store_RecordInboxProcessTransition
    (settle_transition message DeviceMessageInboxStatusRetrying attemptCount
      (Some (error_text cause)) None message_only);
  mret tt.

Definition inbox_recordDeadLetter (message : DeviceMessageInbox) (attemptCount : Z)
    (cause : error) : M S unit :=
  processedAt ← inbox_currentTime;
  _ ← store_RecordInboxProcessTransition
    (settle_transition message DeviceMessageInboxStatusDeadLettered attemptCount
      (Some (error_text cause)) (Some processedAt) message_only);
  mret tt.

(** The create input of a record. *)
Definition inbox_create (record : Message) (at_ : Time) : DeviceMessageInboxCreateInput :=
  let e := Message_Envelope record in
  mkInboxCreate (MessageID e) (OperationID e) (CorrelationID e) (causationIDPtr (CausationID e))
    (Message_Stream record) (Envelope_MessageType e) (SchemaVersion e) (PartitionKey e)
    (payloadMapFromEnvelope e).1 DeviceMessageInboxStatusRetrying 0 None at_ None.

(** A status the worker answers with after one of the recorders above. *)
Definition answer (recorder : M S unit) (outcome : DeviceMessageInboxStatus)
    : M S (option DeviceMessageInboxStatus) :=
  recorder ;; mret (Some outcome).

Definition dead_letter (message : DeviceMessageInbox) (attemptCount : Z) (cause : error)
    : M S (option DeviceMessageInboxStatus) :=
  answer (inbox_recordDeadLetter message attemptCount cause) DeviceMessageInboxStatusDeadLettered.

(** The tail of [processMessage]: the result is recorded with its projection. *)
Definition record_result (message : DeviceMessageInbox) (attemptCount : Z)
    (transition : InboxProcessTransitionInput) : M S (option DeviceMessageInboxStatus) :=
  processedAt ← inbox_currentTime;
  _ ← store_RecordInboxProcessTransition
    (settle_transition message DeviceMessageInboxStatusProcessed attemptCount None
      (Some processedAt) transition);
  mret (Some DeviceMessageInboxStatusProcessed).

(** From the registered message on. *)
Definition process_registered (record : Message) (message : DeviceMessageInbox)
    : M S (option DeviceMessageInboxStatus) :=
  let attemptCount := Inbox_AttemptCount message + 1 in
  let envelope := Message_Envelope record in
  if negb (bool_decide (Message_Stream record = IS_stream s)) then
    dead_letter message attemptCount
      (ErrText ("unexpected stream " +:+ quote (Message_Stream record)))
  else
    match ValidateAndDecode envelope (IS_stream s) with
    | Err err =>
        dead_letter message attemptCount (default err (payloadMapFromEnvelope envelope).2)
    | Ok payload =>
        match transitionForPayload envelope payload with
        | Err err =>
            if IsTransient err && (attemptCount <? IS_maxAttempts s) then
              answer (inbox_recordRetry message attemptCount err) DeviceMessageInboxStatusRetrying
            else dead_letter message attemptCount err
        | Ok transition =>
            if bool_decide (is_Some (IT_OperationStatus transition)) then
              operation ← attempt (store_GetDeviceOperation (Inbox_OperationID message));
              match operation with
              | Ok operation =>
                  if negb (partitionKeyMatchesOperationDevice (Inbox_PartitionKey message)
                             (DeviceOperation_DeviceID operation)) then
                    dead_letter message attemptCount
                      (ErrText ("partition key " +:+ quote (Inbox_PartitionKey message)
                        +:+ " does not match operation device "
                        +:+ quote (DeviceOperation_DeviceID operation)))
                  else if isCompletedLifecycleOperation operation then
                    answer (markProcessedWithoutProjection message attemptCount)
                      DeviceMessageInboxStatusProcessed
                  else record_result message attemptCount transition
              | Err err =>
                  if errors_Is err ErrNotFound then record_result message attemptCount transition
                  else throw err
              end
            else record_result message attemptCount transition
        end
    end.

(** [None] is the outcome [""]. *)
Definition processMessage (record : Message) : M S (option DeviceMessageInboxStatus) :=
  at_ ← receivedAt (Message_Envelope record);
  '(message, created) ← createInboxMessage (inbox_create record at_);
  if negb created &&
     match Inbox_Status message with
     | DeviceMessageInboxStatusProcessed | DeviceMessageInboxStatusDeadLettered => true
     | _ => false
     end
  then mret None
  else process_registered record message.

Definition shouldAcknowledgeOutcome (outcome : option DeviceMessageInboxStatus) : bool :=
  negb (bool_decide (outcome = Some DeviceMessageInboxStatusRetrying)).

Definition count_inbox (outcome : option DeviceMessageInboxStatus) (stats : InboxStats)
    : InboxStats :=
  let add p r d k := mkInboxStats (Received stats) (Processed stats + p)
    (IStats_Retrying stats + r) (IStats_DeadLettered stats + d) (Skipped stats + k) in
  match outcome with
  | Some DeviceMessageInboxStatusProcessed => add 1 0 0 0
  | Some DeviceMessageInboxStatusRetrying => add 0 1 0 0
  | Some DeviceMessageInboxStatusDeadLettered => add 0 0 1 0
  | Some DeviceMessageInboxStatusFailed => stats
  | None => add 0 0 0 1
  end.

(** The loop of [RunOnce]. *)
Fixpoint process_records (records : list Message) (stats : InboxStats)
    : M S (InboxStats * option error) :=
  match records with
  | [] => mret (stats, None)
  | record :: records =>
      live ← attempt ctx_Err;
      match live with
      | Err err => mret (stats, Some err)
      | Ok _ =>
          outcome ← attempt (processMessage record);
          match outcome with
          | Err err => mret (stats, Some err)
          | Ok outcome =>
              acknowledged ←
                (if shouldAcknowledgeOutcome outcome then attempt (Acknowledge record)
                 else mret (Ok tt));
              match acknowledged with
              | Err err => mret (stats, Some err)
              | Ok _ => process_records records (count_inbox outcome stats)
              end
          end
      end
  end.

Definition inbox_RunOnce : M S (InboxStats * option error) :=
  records ← attempt (Receive (IS_batchSize s));
  match records with
  | Err err => mret (mkInboxStats 0 0 0 0 0, Some err)
  | Ok records => process_records records (mkInboxStats (Z.of_nat (length records)) 0 0 0 0)
  end.

(** One turn of [Run]: after a transient error it waits and goes on. *)
Definition inbox_Run_round : M S (option (res unit)) :=
  '(_, err) ← inbox_RunOnce;
  let wait :=
    slept ← attempt (sleepContext (IS_pollInterval s));
    match slept with Ok _ => mret None | Err _ => mret (Some (Ok tt)) end in
  match err with
  | None => wait
  | Some err =>
      if errors_Is err ErrCanceled then mret (Some (Ok tt))
      else if IsTransient err then wait
      else mret (Some (Err err))
  end.
Definition inbox_Run (rounds : nat) : M S (option (res unit)) :=
  run_rounds rounds inbox_Run_round.
End inbox_service.

(** ** What the worker needs of its store, consumer and clock *)

(** The inbox table and the records acknowledged so far. *)
Class InboxView (S : Type) := {
  inbox_rows : S → gmap string DeviceMessageInbox;
  acknowledged : S → list Message;
}.

Definition inbox_same {S} `{InboxView S} (st st' : S) : Prop :=
  inbox_rows st' = inbox_rows st ∧ acknowledged st' = acknowledged st.

Definition inbox_rows_keyed (rows : gmap string DeviceMessageInbox) : Prop :=
  map_Forall (λ k m, Inbox_MessageID m = k) rows.

Class InboxContract (S : Type) `{Environment S, InboxStore S, Consumer S, InboxView S} := {
  inbox_clock_contract st r st' : time_Now (S:=S) st = (r, st') → inbox_same st st';
  inbox_ctx_contract st r st' : ctx_Err (S:=S) st = (r, st') → inbox_same st st';
  inbox_sleep_contract d st r st' : sleepContext (S:=S) d st = (r, st') → inbox_same st st';
  receive_contract n (st : S) r st' : Receive n st = (r, st') → inbox_same st st';
  get_operation_contract id (st : S) r st' :
    store_GetDeviceOperation id st = (r, st') → inbox_same st st';
  (* a failed acknowledgement may still have reached the broker *)
  acknowledge_contract record (st : S) r st' :
    Acknowledge record st = (r, st') → inbox_rows st' = inbox_rows st ∧
    (acknowledged st' = acknowledged st ∨ acknowledged st' = acknowledged st ++ [record]);
  create_contract input (st : S) r st' :
    store_CreateOrGetInboxMessage input st = (r, st') → acknowledged st' = acknowledged st ∧
    match r with
    | Err _ => inbox_rows st' = inbox_rows st
    | Ok (m, created) =>
        inbox_rows st' !! MIC_MessageID input = Some m ∧
        (inbox_rows_keyed (inbox_rows st) → Inbox_MessageID m = MIC_MessageID input) ∧
        (∀ k, k ≠ MIC_MessageID input → inbox_rows st' !! k = inbox_rows st !! k) ∧
        (if created : bool
         then inbox_rows st !! MIC_MessageID input = None ∧ Inbox_Status m = MIC_Status input
         else inbox_rows st !! MIC_MessageID input = Some m)
    end;
  process_contract input (st : S) r st' :
    store_RecordInboxProcessTransition input st = (r, st') → acknowledged st' = acknowledged st ∧
    match r with
    | Err _ => inbox_rows st' = inbox_rows st
    | Ok result => ∃ message t, inbox_rows st !! IT_MessageID input = Some message ∧
        inbox_rows st' = <[IT_MessageID input := processed_message t input message]> (inbox_rows st)
    end;
}.

Definition settled (m : DeviceMessageInbox) : Prop :=
  Inbox_Status m = DeviceMessageInboxStatusProcessed ∨
  Inbox_Status m = DeviceMessageInboxStatusDeadLettered.

Section inbox_invariants.
Context {S : Type} `{InboxContract S}.
Context (transitionForPayload : Envelope → Payload → res InboxProcessTransitionInput).
Context (svc : InboxService).

(** Settled rows stay exactly as they are. *)
Definition settled_kept (st st' : S) : Prop :=
  ∀ k m, inbox_rows st !! k = Some m → settled m → inbox_rows st' !! k = Some m.

(** A record is acknowledged only when its message is settled. *)
Definition acknowledged_settled (st : S) : Prop :=
  ∀ record, record ∈ acknowledged st →
    ∃ m, inbox_rows st !! MessageID (Message_Envelope record) = Some m ∧ settled m.

Definition inbox_invariant (st : S) : Prop :=
  inbox_rows_keyed (inbox_rows st) ∧ acknowledged_settled st.

(** A step that acknowledges nothing and keeps settled rows. *)
Definition quiet (st st' : S) : Prop :=
  acknowledged st' = acknowledged st ∧ settled_kept st st' ∧
  (inbox_rows_keyed (inbox_rows st) → inbox_rows_keyed (inbox_rows st')).

Lemma quiet_refl st : quiet st st.
Proof. split_and!; [done| |done]. intros k m. done. Qed.
Lemma quiet_trans st st1 st2 : quiet st st1 → quiet st1 st2 → quiet st st2.
Proof.
  intros (A1 & K1 & I1) (A2 & K2 & I2). split_and!; [congruence| |auto].
  intros k m ? ?. by apply K2; [apply K1|].
Qed.
Lemma quiet_same st st' : inbox_same st st' → quiet st st'.
Proof. intros [Hr Ha]. split_and!; [done| |by rewrite Hr]. intros k m. by rewrite Hr. Qed.

Lemma quiet_invariant st st' : quiet st st' → inbox_invariant st → inbox_invariant st'.
Proof.
  intros (Ha & Hk & Hkey) [Hi Hs]. split; [auto|].
  intros record. rewrite Ha. intros Hin. destruct (Hs record Hin) as (m & ? & ?).
  exists m. split; [by apply Hk|done].
Qed.

Lemma inbox_currentTime_same st r st' : inbox_currentTime st = (r, st') → inbox_same st st'.
Proof.
  unfold inbox_currentTime, mbind, M_bind. destruct (time_Now st) as [[t|e] s1] eqn:E;
    unfold mret, M_ret; intros [= <- <-]; by eapply inbox_clock_contract.
Qed.

Lemma receivedAt_same e st r st' : receivedAt e st = (r, st') → inbox_same st st'.
Proof.
  unfold receivedAt. destruct (IsZero _); [apply inbox_currentTime_same|].
  unfold mret, M_ret. by intros [= <- <-].
Qed.

(** The stored, still open row of a message. *)
Definition open_row (st : S) (m : DeviceMessageInbox) : Prop :=
  inbox_rows st !! Inbox_MessageID m = Some m ∧ ¬ settled m.

Lemma open_row_same st st' m : inbox_same st st' → open_row st m → open_row st' m.
Proof. intros [Hr _]. unfold open_row. by rewrite Hr. Qed.

(** The row of the message has the status, once the run succeeds. *)
Definition settles (m : DeviceMessageInbox) (status : DeviceMessageInboxStatus) {A} (r : res A)
    (st st' : S) : Prop :=
  quiet st st' ∧ match r with
  | Ok _ => ∃ row, inbox_rows st' !! Inbox_MessageID m = Some row ∧ Inbox_Status row = status
  | Err _ => True
  end.

Lemma record_settles m status n e p tr st r st' :
  open_row st m →
  store_RecordInboxProcessTransition (settle_transition m status n e p tr) st = (r, st') →
  settles m status r st st'.
Proof.
  intros [Hm Hopen] E. apply process_contract in E as [Ha E]. destruct r as [res|err].
  - destruct E as (m' & t & Hm' & Hr). simpl in *. rewrite Hm in Hm'. injection Hm' as <-.
    split; [split_and!; [done| |]|].
    + intros k x Hx Hs. rewrite Hr. rewrite lookup_insert_ne; [done|]. intros <-.
      rewrite Hm in Hx. by injection Hx as <-.
    + intros Hk. rewrite Hr. by apply map_Forall_insert_2.
    + rewrite Hr, lookup_insert_eq. by eexists.
  - split; [|done]. by apply quiet_same.
Qed.

Lemma settles_same_l m status {A} (r : res A) st st1 st' :
  inbox_same st st1 → settles m status r st1 st' → settles m status r st st'.
Proof. intros Hs [Hq Hr]. split; [|done]. eapply quiet_trans; [by apply quiet_same|done]. Qed.

(** Read the clock, record, answer: the shape of every recorder. *)
Lemma timed_record_settles {A} m status n e tr (a : A) st r st' :
  open_row st m →
  (processedAt ← inbox_currentTime;
   _ ← store_RecordInboxProcessTransition
     (settle_transition m status n e (Some processedAt) tr);
   mret a) st = (r, st') →
  settles m status r st st'.
Proof.
  intros Ho. unfold mbind, M_bind.
  destruct (inbox_currentTime st) as [[t|err] s1] eqn:E1; apply inbox_currentTime_same in E1.
  - destruct (store_RecordInboxProcessTransition _ s1) as [[res|err] s2] eqn:E2;
      (apply record_settles in E2; [|by eapply open_row_same]);
      unfold mret, M_ret; intros [= <- <-]; by eapply settles_same_l.
  - intros [= <- <-]. split; [by apply quiet_same|done].
Qed.

(** An answer of the worker: it names the status the row now has. *)
Definition answered (id : string) (r : res (option DeviceMessageInboxStatus)) (st st' : S) : Prop :=
  quiet st st' ∧ match r with
  | Ok outcome => ∃ row, inbox_rows st' !! id = Some row ∧ outcome = Some (Inbox_Status row) ∧
      (settled row ∨ Inbox_Status row = DeviceMessageInboxStatusRetrying)
  | Err _ => True
  end.

Lemma answered_same_l id r st st1 st' :
  inbox_same st st1 → answered id r st1 st' → answered id r st st'.
Proof. intros Hs [Hq Hr]. split; [|done]. eapply quiet_trans; [by apply quiet_same|done]. Qed.

Definition final_status (status : DeviceMessageInboxStatus) : Prop :=
  status = DeviceMessageInboxStatusProcessed ∨ status = DeviceMessageInboxStatusDeadLettered ∨
  status = DeviceMessageInboxStatusRetrying.

Lemma answer_settles m status recorder st r st' :
  final_status status →
  (∀ r1 st1, recorder st = (r1, st1) → settles m status r1 st st1) →
  answer recorder status st = (r, st') → answered (Inbox_MessageID m) r st st'.
Proof.
  intros Hfin Hrec. unfold answer, mbind, M_bind.
  destruct (recorder st) as [[[]|e] s1] eqn:E; destruct (Hrec _ _ eq_refl) as [Hq Hr];
    unfold mret, M_ret; intros [= <- <-]; split; try done.
  destruct Hr as (row & ? & Hst). exists row. rewrite Hst. split_and!; try done.
  unfold settled. rewrite Hst. destruct Hfin as [|[|]]; auto.
Qed.

Lemma dead_letter_answered m n cause st r st' :
  open_row st m → dead_letter m n cause st = (r, st') → answered (Inbox_MessageID m) r st st'.
Proof.
  intros Ho. apply answer_settles; [by right; left|]. intros r1 st1. by apply timed_record_settles.
Qed.

Lemma mark_answered m n st r st' :
  open_row st m →
  answer (markProcessedWithoutProjection m n) DeviceMessageInboxStatusProcessed st = (r, st') →
  answered (Inbox_MessageID m) r st st'.
Proof.
  intros Ho. apply answer_settles; [by left|]. intros r1 st1. by apply timed_record_settles.
Qed.

Lemma retry_answered m n cause st r st' :
  open_row st m →
  answer (inbox_recordRetry m n cause) DeviceMessageInboxStatusRetrying st = (r, st') →
  answered (Inbox_MessageID m) r st st'.
Proof.
  intros Ho. apply answer_settles; [by right; right|]. intros r1 st1.
  unfold inbox_recordRetry, mbind, M_bind.
  destruct (store_RecordInboxProcessTransition _ st) as [[res|err] s2] eqn:E2;
    (apply record_settles in E2; [|done]); unfold mret, M_ret; by intros [= <- <-].
Qed.

Lemma record_result_answered m n tr st r st' :
  open_row st m → record_result m n tr st = (r, st') → answered (Inbox_MessageID m) r st st'.
Proof.
  intros Ho E. assert (settles m DeviceMessageInboxStatusProcessed r st st') as [Hq Hr]
    by by eapply timed_record_settles.
  split; [done|]. destruct r as [o|]; [|done]. destruct Hr as (row & Hrow & Hst).
  exists row. rewrite Hst. split_and!; [done| |by left; left].
  unfold record_result in E. apply bind_ok in E as (? & ? & _ & E).
  apply bind_ok in E as (? & ? & _ & E). unfold mret, M_ret in E. by simplify_eq.
Qed.

Lemma process_registered_answered record m st r st' :
  open_row st m → process_registered transitionForPayload svc record m st = (r, st') →
  answered (Inbox_MessageID m) r st st'.
Proof.
  intros Ho. unfold process_registered.
  destruct (negb _); [by apply dead_letter_answered|].
  destruct (ValidateAndDecode _ _) as [payload|err]; [|by apply dead_letter_answered].
  destruct (transitionForPayload _ payload) as [tr|err].
  - destruct (bool_decide _); [|by apply record_result_answered].
    unfold attempt, mbind, M_bind.
    destruct (store_GetDeviceOperation _ st) as [[op|err] s1] eqn:E;
      apply get_operation_contract in E; pose proof (open_row_same _ _ _ E Ho) as Ho1; intros H';
      apply (answered_same_l _ _ _ s1); try done.
    + destruct (negb _); [by eapply dead_letter_answered|].
      destruct (isCompletedLifecycleOperation op);
        [by eapply mark_answered | by eapply record_result_answered].
    + destruct (errors_Is err ErrNotFound); [by eapply record_result_answered|].
      unfold throw in H'. injection H' as <- <-. split; [apply quiet_refl|done].
  - destruct (_ && _); [by apply retry_answered | by apply dead_letter_answered].
Qed.
End inbox_invariants.

Section inbox_runs.
Context {S : Type} `{InboxContract S}.
Context (transitionForPayload : Envelope → Payload → res InboxProcessTransitionInput).
Context (svc : InboxService).

Definition registered (id : string) (status : DeviceMessageInboxStatus)
    (r : res (DeviceMessageInbox * bool)) (st st' : S) : Prop :=
  quiet st st' ∧ match r with
  | Ok (m, created) => inbox_rows st' !! id = Some m ∧ (inbox_rows_keyed (inbox_rows st) → Inbox_MessageID m = id) ∧
      (created = true → Inbox_Status m = status)
  | Err _ => True
  end.

Lemma create_registered input st r st' :
  store_CreateOrGetInboxMessage input st = (r, st') →
  registered (MIC_MessageID input) (MIC_Status input) r st st'.
Proof.
  intros E. apply create_contract in E as [Ha E]. destruct r as [[m created]|err].
  - destruct E as (Hm & Hid & Hother & Hc). split; [split_and!; [done| |]|].
    + intros k x Hx Hs. destruct (decide (k = MIC_MessageID input)) as [->|Hne];
        [|by rewrite Hother].
      destruct created; [destruct Hc; congruence|congruence].
    + intros Hk k x Hx. destruct (decide (k = MIC_MessageID input)) as [->|Hne];
        [|by rewrite Hother in Hx; [apply Hk|]]. rewrite Hm in Hx. injection Hx as <-. auto.
    + split_and!; try done. intros ->. by destruct Hc.
  - split; [by apply quiet_same|done].
Qed.

Lemma createInboxMessage_registered input st r st' :
  createInboxMessage input st = (r, st') →
  registered (MIC_MessageID input) (MIC_Status input) r st st'.
Proof.
  unfold createInboxMessage, mbind, M_bind. destruct (blank _); [|apply create_registered].
  unfold attempt. destruct (store_GetDeviceOperation _ st) as [[op|err] s1] eqn:E;
    apply get_operation_contract, quiet_same in E.
  - unfold mret, M_ret. intros Hc. apply create_registered in Hc as [Hq Hc].
    split; [by eapply quiet_trans|]. destruct r as [[]|]; [|done]. split_and!; try apply Hc.
    intros Hk. apply Hc, E, Hk.
  - destruct (errors_Is err ErrNotFound).
    + unfold mret, M_ret. intros Hc. apply create_registered in Hc as [Hq Hc].
      split; [by eapply quiet_trans|]. destruct r as [[]|]; [|done]. split_and!; try apply Hc.
      intros Hk. apply Hc, E, Hk.
    + unfold throw. intros [= <- <-]. split; done.
Qed.

(** What a processed record leaves: nothing acknowledged, settled rows kept,
    and, if the outcome is one to acknowledge, its own row settled. *)
Lemma processMessage_settles record st r st' :
  inbox_rows_keyed (inbox_rows st) →
  processMessage transitionForPayload svc record st = (r, st') →
  quiet st st' ∧ match r with
  | Ok outcome => shouldAcknowledgeOutcome outcome = true →
      ∃ m, inbox_rows st' !! MessageID (Message_Envelope record) = Some m ∧ settled m
  | Err _ => True
  end.
Proof.
  intros Hkey. unfold processMessage, mbind, M_bind.
  destruct (receivedAt _ st) as [[t|err] s1] eqn:E1; apply receivedAt_same, quiet_same in E1;
    [|by intros [= <- <-]].
  destruct (createInboxMessage _ s1) as [[[m created]|err] s2] eqn:E2;
    apply createInboxMessage_registered in E2 as [Hq2 E2];
    pose proof (quiet_trans _ _ _ E1 Hq2) as Hq; [|by intros [= <- <-]].
  destruct E2 as (Hm & Hid & Hc). specialize (Hid (proj2 (proj2 E1) Hkey)).
  simpl in Hm, Hid, Hc.
  destruct (negb created && _) eqn:Hdup.
  - unfold mret, M_ret. intros [= <- <-]. split; [done|]. intros _. exists m.
    split; [done|]. apply andb_true_iff in Hdup as [_ Hs]. unfold settled.
    destruct (Inbox_Status m); auto; done.
  - intros E3. assert (open_row s2 m) as Hopen.
    { split; [by rewrite Hid|]. unfold settled. intros Hs. destruct created; simpl in Hdup.
      - rewrite (Hc eq_refl) in Hs. by destruct Hs.
      - by destruct Hs as [Hs|Hs]; rewrite Hs in Hdup. }
    apply process_registered_answered in E3 as [Hq3 E3]; [|done].
    split; [by eapply quiet_trans|]. destruct r as [o|]; [|done].
    destruct E3 as (row & Hrow & -> & Hst). intros Hack. exists row. rewrite <-Hid.
    split; [done|]. destruct Hst as [|Hst]; [done|]. rewrite Hst in Hack. done.
Qed.

(** The invariant together with the preservation of settled rows. *)
Definition progress (st st' : S) : Prop := settled_kept st st' ∧ inbox_invariant st'.

Lemma progress_quiet st st' : inbox_invariant st → quiet st st' → progress st st'.
Proof. intros Hs Hq. split; [apply Hq|by eapply quiet_invariant]. Qed.
Lemma progress_trans st st1 st2 :
  progress st st1 → (inbox_invariant st1 → progress st1 st2) → progress st st2.
Proof. intros [K1 A1] P. destruct (P A1) as [K2 A2]. split; [|done]. intros k m ? ?. auto. Qed.

Lemma acknowledge_progress record st r st' :
  (∃ m, inbox_rows st !! MessageID (Message_Envelope record) = Some m ∧ settled m) →
  inbox_invariant st → Acknowledge record st = (r, st') → progress st st'.
Proof.
  intros Hm Hs E. apply acknowledge_contract in E as [Hr Ha]. split.
  - intros k m. by rewrite Hr.
  - destruct Hs as [Hk Hs]. split; [by rewrite Hr|].
    intros x. rewrite Hr. destruct Ha as [->| ->]; [apply Hs|].
    rewrite elem_of_app, list_elem_of_singleton. intros [?| ->]; [by apply Hs|done].
Qed.

Lemma process_records_progress records stats st r st' :
  inbox_invariant st →
  process_records transitionForPayload svc records stats st = (r, st') → progress st st'.
Proof.
  revert stats st. induction records as [|record records IH]; intros stats st Hs; simpl.
  { unfold mret, M_ret. intros [= <- <-]. by apply progress_quiet, quiet_refl. }
  unfold attempt, mbind, M_bind. destruct (ctx_Err st) as [[[]|e] s1] eqn:E1;
    apply inbox_ctx_contract, quiet_same in E1; pose proof (progress_quiet _ _ Hs E1) as P1;
    [|unfold mret, M_ret; by intros [= <- <-]].
  destruct (processMessage _ _ record s1) as [[outcome|e] s2] eqn:E2;
    (apply processMessage_settles in E2 as [Q2 E2]; [|apply P1]);
    assert (progress st s2) as P2 by
      (apply (progress_trans _ s1); [done|intros; by apply progress_quiet]);
    [|unfold mret, M_ret; by intros [= <- <-]].
  destruct (shouldAcknowledgeOutcome outcome) eqn:Hack.
  - destruct (Acknowledge record s2) as [[[]|e] s3] eqn:E3;
      (apply acknowledge_progress in E3; [|by apply E2|apply P2]);
      (assert (progress st s3) as P3 by (by apply (progress_trans _ s2))).
    + intros E4. apply (progress_trans _ s3); [done|]. intros Hs3. by eapply IH.
    + unfold mret, M_ret. by intros [= <- <-].
  - unfold mret at 1, M_ret at 1. intros E4. apply (progress_trans _ s2); [done|].
    intros Hs2. by eapply IH.
Qed.

Lemma inbox_RunOnce_progress st r st' :
  inbox_invariant st →
  inbox_RunOnce transitionForPayload svc st = (r, st') → progress st st'.
Proof.
  intros Hs. unfold inbox_RunOnce, attempt, mbind, M_bind.
  destruct (Receive _ st) as [[records|e] s1] eqn:E1; apply receive_contract, quiet_same in E1;
    pose proof (progress_quiet _ _ Hs E1) as P1.
  - intros E2. apply (progress_trans _ s1); [done|]. intros Hs1. by eapply process_records_progress.
  - unfold mret, M_ret. by intros [= <- <-].
Qed.

Lemma inbox_wait_same st (r : res (option (res unit))) st' :
  (slept ← attempt (sleepContext (IS_pollInterval svc));
   match slept with Ok _ => mret None | Err _ => mret (Some (Ok tt)) end) st = (r, st') →
  inbox_same st st'.
Proof.
  unfold attempt, mbind, M_bind. destruct (sleepContext _ st) as [[[]|e] s1] eqn:E;
    apply inbox_sleep_contract in E; unfold mret, M_ret; by intros [= <- <-].
Qed.

Lemma inbox_Run_round_progress st r st' :
  inbox_invariant st →
  inbox_Run_round transitionForPayload svc st = (r, st') → progress st st'.
Proof.
  intros Hs. unfold inbox_Run_round. unfold mbind at 1, M_bind at 1.
  destruct (inbox_RunOnce _ _ st) as [[[stats err]|e] s1] eqn:E1;
    apply inbox_RunOnce_progress in E1; try done; [|by intros [= <- <-]].
  assert (∀ r st', (slept ← attempt (sleepContext (IS_pollInterval svc));
     match slept with Ok _ => mret None | Err _ => mret (Some (Ok tt)) end) s1 = (r, st') →
     progress st st') as Hwait.
  { intros r' s' Hw. apply inbox_wait_same, quiet_same in Hw.
    apply (progress_trans _ s1); [done|]. intros. by apply progress_quiet. }
  destruct err as [err|]; [|apply Hwait].
  destruct (errors_Is err ErrCanceled); [unfold mret, M_ret; by intros [= <- <-]|].
  destruct (IsTransient err); [apply Hwait|]. unfold mret, M_ret. by intros [= <- <-].
Qed.

(** C4: no event is lost: whatever the records, the answers of the broker and the errors on the
    way, a record is acknowledged only when its message is stored as processed or
    dead-lettered, and a row that is settled stays exactly as it is, however often its message
    is delivered again. *)
Theorem acknowledged_events_are_settled rounds st r st' :
  inbox_invariant st →
  inbox_Run transitionForPayload svc rounds st = (r, st') →
  inbox_invariant st' ∧ settled_kept st st'.
Proof.
  intros Hs Hrun. assert (progress st st') as [? ?]; [|done].
  apply (run_rounds_invariant _ _ (progress st)) in Hrun; [done| |by apply progress_quiet, quiet_refl].
  intros s1 r1 s2 P Hr. apply (progress_trans _ s1); [done|].
  intros Hs1. by eapply inbox_Run_round_progress.
Qed.

(** The inbox worker stops with an error only for a failure it cannot wait out: an error
    [Run] returns is neither the cancellation of its context nor transient. *)
Theorem inbox_Run_stops_on_permanent_errors rounds st e st' :
  inbox_Run transitionForPayload svc rounds st = (Ok (Some (Err e)), st') →
  errors_Is e ErrCanceled = false ∧ IsTransient e = false.
Proof.
  intros Hrun. apply (run_rounds_returned _ _ (λ r, match r with
    | Err e => errors_Is e ErrCanceled = false ∧ IsTransient e = false | Ok _ => True end)) in Hrun;
    [done|].
  clear. intros st r st'. unfold inbox_Run_round. intros Hr.
  apply bind_ok in Hr as ([stats err] & s1 & _ & Hr).
  assert ((slept ← attempt (sleepContext (IS_pollInterval svc));
     match slept with Ok _ => mret None | Err _ => mret (Some (Ok tt)) end) s1 = (Ok (Some r), st') →
     r = Ok tt) as Hwait.
  { clear. intros Hr. apply bind_ok in Hr as ([[]|] & s2 & _ & Hr); unfold mret, M_ret in Hr;
      by simplify_eq. }
  destruct err as [err|]; [|by rewrite (Hwait Hr)].
  destruct (errors_Is err ErrCanceled) eqn:E1.
  { unfold mret, M_ret in Hr. by injection Hr as <- _. }
  destruct (IsTransient err) eqn:E2; [by rewrite (Hwait Hr)|].
  unfold mret, M_ret in Hr. by injection Hr as <- _.
Qed.

(** The worker never answers with the status [failed]. *)
Lemma answer_ok recorder status (st : S) o st' :
  answer recorder status st = (Ok o, st') → o = Some status.
Proof.
  unfold answer. intros E. apply bind_ok in E as (? & ? & _ & E).
  unfold mret, M_ret in E. by injection E as <- _.
Qed.
Lemma record_result_ok m n tr (st : S) o st' :
  record_result m n tr st = (Ok o, st') → o = Some DeviceMessageInboxStatusProcessed.
Proof.
  unfold record_result. intros E. apply bind_ok in E as (? & ? & _ & E).
  apply bind_ok in E as (? & ? & _ & E). unfold mret, M_ret in E. by injection E as <- _.
Qed.

Lemma processMessage_outcome record st o st' :
  processMessage transitionForPayload svc record st = (Ok o, st') →
  o ≠ Some DeviceMessageInboxStatusFailed.
Proof.
  unfold processMessage. intros E. apply bind_ok in E as (? & ? & _ & E).
  apply bind_ok in E as ([m created] & s2 & _ & E). destruct (_ && _).
  { unfold mret, M_ret in E. by injection E as <- _. }
  unfold process_registered in E.
  repeat first
    [ apply answer_ok in E as ->; done
    | apply record_result_ok in E as ->; done
    | discriminate E
    | match type of E with
      | (if ?b then _ else _) _ = _ => destruct b
      | (match ?x with Ok _ => _ | Err _ => _ end) _ = _ => destruct x
      | (_ ≫= _) _ = _ => apply bind_ok in E as (? & ? & _ & E)
      end ].
Qed.

Definition counted (stats : InboxStats) : Z :=
  Processed stats + IStats_Retrying stats + IStats_DeadLettered stats + Skipped stats.

Lemma process_records_stats records stats st stats' err st' :
  process_records transitionForPayload svc records stats st = (Ok (stats', err), st') →
  Received stats' = Received stats ∧
  counted stats ≤ counted stats' ≤ counted stats + Z.of_nat (length records) ∧
  (err = None → counted stats' = counted stats + Z.of_nat (length records)).
Proof.
  revert stats st. induction records as [|record records IH]; intros stats st; simpl.
  { unfold mret, M_ret. intros [= <- <- _]. lia. }
  unfold attempt, mbind, M_bind.
  destruct (ctx_Err st) as [[[]|e] s1]; unfold mret, M_ret; [|intros [= <- <- _]; split_and!; [done|lia|lia|done]].
  destruct (processMessage _ _ record s1) as [[outcome|e] s2] eqn:E2;
    [|intros [= <- <- _]; split_and!; [done|lia|lia|done]].
  apply processMessage_outcome in E2 as Hf.
  assert (Received (count_inbox outcome stats) = Received stats ∧
    counted (count_inbox outcome stats) = counted stats + 1) as [Hrec Hcnt].
  { unfold counted. destruct outcome as [[]|]; simpl; done || lia. }
  assert (∀ s3, process_records transitionForPayload svc records (count_inbox outcome stats) s3 =
    (Ok (stats', err), st') → Received stats' = Received stats ∧
    counted stats ≤ counted stats' ≤ counted stats + Z.of_nat (Datatypes.S (length records)) ∧
    (err = None → counted stats' = counted stats + Z.of_nat (Datatypes.S (length records)))) as Hnext.
  { intros s3 E. apply IH in E as (-> & Hle & Heq). rewrite Hrec, Hcnt in *.
    split_and!; [done|lia|lia|]. intros He. rewrite (Heq He). lia. }
  destruct (shouldAcknowledgeOutcome outcome); [|apply Hnext].
  destruct (Acknowledge record s2) as [[[]|e] s3]; [apply Hnext|].
  intros [= <- <- _]. split_and!; [done|lia|lia|done].
Qed.

(** The statistics of an inbox run add up: every received record is counted once, as
    processed, retrying, dead-lettered or skipped; an error cuts the count short. *)
Theorem inbox_stats_add_up st stats err st' :
  inbox_RunOnce transitionForPayload svc st = (Ok (stats, err), st') →
  0 ≤ counted stats ≤ Received stats ∧ (err = None → counted stats = Received stats).
Proof.
  intros Hr. apply bind_ok in Hr as (records & s1 & E & Hr).
  apply attempt_ok in E as (x & [= <-] & _). destruct records as [records|e].
  - apply process_records_stats in Hr as (-> & Hle & Heq). unfold counted in *. simpl in *.
    split; [lia|]. intros He. rewrite (Heq He). lia.
  - unfold mret, M_ret in Hr. injection Hr as <- <- _. unfold counted. simpl. split; [lia|done].
Qed.
End inbox_runs.

(** ** Snapshots of malformed payloads *)

Lemma hasOnlyJSONKeys_intro (m : jsonmap) allowed :
  size m = length allowed → (∀ k, is_Some (m !! k) → k ∈ allowed) → hasOnlyJSONKeys m allowed = true.
Proof.
  intros Hs Hk. unfold hasOnlyJSONKeys. rewrite Hs, bool_decide_true by done. simpl.
  apply forallb_Forall, Forall_forall. intros [k v] Hin%elem_of_map_to_list.
  apply bool_decide_eq_true. apply Hk. by eexists.
Qed.

(** What the worker stored for such a payload before it kept the bytes. *)
Definition legacy_snapshot (text : string) (err : error) : jsonmap :=
  map_literal
    [(inboxPayloadSnapshotRawKey, AString (ToValidUTF8 text));
     (inboxPayloadSnapshotErrorKey, AString (error_text err))].

Lemma payloadMapFromEnvelope_err e snapshot err :
  payloadMapFromEnvelope e = (snapshot, Some err) →
  let text := raw_text (Envelope_Payload e) in
  let base := map_literal
    [(payloadSnapshotBase64Key, AString (b64_EncodeToString text));
     (payloadSnapshotErrorKey, AString (error_text err))] in
  snapshot = if utf8_Valid text then <[payloadSnapshotRawKey := AString text]> base else base.
Proof.
  unfold payloadMapFromEnvelope. destruct (bool_decide _); [done|].
  destruct (unmarshal_map _) as [[m|]|err'] eqn:E; [done|done|]. intros [= <- <-]. done.
Qed.

Ltac only_keys :=
  apply hasOnlyJSONKeys_intro;
  [ reflexivity
  | intros k; unfold map_literal; simpl;
    rewrite ?lookup_insert_is_Some, lookup_empty; intros Hk;
    repeat match type of Hk with _ ∨ _ => destruct Hk as [->|[_ Hk]] end;
    try (by destruct Hk); set_solver ].

(** A malformed message is recognized across versions of the worker: the snapshot the worker
    stores for a payload it cannot decode equals, as [CreateOrGetInboxMessage] compares them, the
    one an older worker stored for the same payload, whatever its bytes; so a redelivery of such
    a message is a duplicate and not a conflict. *)
Theorem malformed_snapshot_recognized e snapshot err :
  payloadMapFromEnvelope e = (snapshot, Some err) →
  sameInboxPayload (legacy_snapshot (raw_text (Envelope_Payload e)) err) (marshalJSONMap snapshot)
    = true.
Proof.
  intros H. apply payloadMapFromEnvelope_err in H. simpl in H. subst snapshot.
  set (text := raw_text (Envelope_Payload e)). unfold sameInboxPayload.
  destruct (sameJSONMap _ _); [done|]. unfold sameLegacyMalformedInboxPayload, legacy_snapshot.
  assert (hasOnlyJSONKeys (map_literal [(inboxPayloadSnapshotRawKey, AString (ToValidUTF8 text));
      (inboxPayloadSnapshotErrorKey, AString (error_text err))])
    [inboxPayloadSnapshotRawKey; inboxPayloadSnapshotErrorKey] = true) as -> by only_keys.
  unfold map_literal, marshalJSONMap. simpl. destruct (utf8_Valid text) eqn:Hutf.
  - rewrite !fmap_insert, fmap_empty. simpl.
    assert (hasOnlyJSONKeys (<[payloadSnapshotRawKey := AString text]>
        (<[payloadSnapshotBase64Key := AString (b64_EncodeToString text)]>
          (<[payloadSnapshotErrorKey := AString (error_text err)]> ∅)))
      [inboxPayloadSnapshotRawKey; inboxPayloadSnapshotBase64Key; inboxPayloadSnapshotErrorKey]
      = true) as -> by only_keys.
    simpl. unfold jsonStringValue. simplify_map_eq. rewrite !bool_decide_true by done. simpl.
    apply bool_decide_eq_true. symmetry. by apply ToValidUTF8_valid.
  - rewrite !fmap_insert, fmap_empty. simpl.
    assert (hasOnlyJSONKeys (<[payloadSnapshotBase64Key := AString (b64_EncodeToString text)]>
          (<[payloadSnapshotErrorKey := AString (error_text err)]> ∅))
      [inboxPayloadSnapshotBase64Key; inboxPayloadSnapshotErrorKey] = true) as -> by only_keys.
    rewrite andb_false_r. unfold jsonStringValue. simplify_map_eq.
    rewrite bool_decide_true by done. simpl. rewrite b64_DecodeString_EncodeToString.
    by apply bool_decide_eq_true.
Qed.

(** ** What a handled record can change at all *)

Section inbox_steps.
Context {S : Type} `{Environment S, InboxStore S, Consumer S}.
Context (transitionForPayload : Envelope → Payload → res InboxProcessTransitionInput).
Context (svc : InboxService) (R : relation S) `{!PreOrder R}.
Context (clock_steps : steps R (time_Now (S:=S))).
Context (get_steps : ∀ id, steps R (store_GetDeviceOperation (S:=S) id)).

Lemma currentTime_steps : steps R (inbox_currentTime (S:=S)).
Proof. unfold inbox_currentTime. auto with rtk. Qed.

(** A recorder that touches the message only. *)
Definition message_steps : Prop := ∀ m status n e p,
  steps R (store_RecordInboxProcessTransition (S:=S) (settle_transition m status n e p message_only)).

Lemma dead_letter_steps m n cause : message_steps → steps R (dead_letter (S:=S) m n cause).
Proof.
  intros Hm. unfold dead_letter, answer, inbox_recordDeadLetter.
  repeat (apply steps_bind; [done|..]; intros); auto using currentTime_steps with rtk.
Qed.
Lemma mark_steps m n : message_steps → steps R (markProcessedWithoutProjection (S:=S) m n).
Proof.
  intros Hm. unfold markProcessedWithoutProjection.
  repeat (apply steps_bind; [done|..]; intros); auto using currentTime_steps with rtk.
Qed.
Lemma retry_steps m n cause : message_steps → steps R (inbox_recordRetry (S:=S) m n cause).
Proof.
  intros Hm. unfold inbox_recordRetry.
  repeat (apply steps_bind; [done|..]; intros); auto with rtk.
Qed.

(** All of [process_registered], when every transition is such a step. *)
Lemma process_registered_steps record m :
  (∀ m status n e p tr, steps R (store_RecordInboxProcessTransition (S:=S)
     (settle_transition m status n e p tr))) →
  steps R (process_registered transitionForPayload svc record m).
Proof.
  intros Hrec. assert message_steps as Hm by (unfold message_steps; auto). assert (∀ n tr, steps R (record_result (S:=S) m n tr)) as Hres.
  { intros n tr. unfold record_result.
    repeat (apply steps_bind; [done|..]; intros); auto using currentTime_steps with rtk. }
  unfold process_registered. destruct (negb _); [by apply dead_letter_steps|].
  destruct (ValidateAndDecode _ _) as [payload|err]; [|by apply dead_letter_steps].
  destruct (transitionForPayload _ payload) as [tr|err].
  - destruct (bool_decide _); [|auto]. apply steps_bind; [done|auto with rtk|].
    intros [op|err]; [|destruct (errors_Is err ErrNotFound); auto with rtk].
    destruct (negb _); [by apply dead_letter_steps|].
    destruct (isCompletedLifecycleOperation op); [|auto].
    unfold answer. apply steps_bind; [done|by apply mark_steps|auto with rtk].
  - destruct (_ && _); [|by apply dead_letter_steps].
    unfold answer. apply steps_bind; [done|by apply retry_steps|auto with rtk].
Qed.
End inbox_steps.

(** A payload that is a list, not an object. *)
Definition sample_list_event : Envelope :=
  mkEnvelope "evt-1" "corr-1" "" "op-1" ServiceRealtekVideoCloud ServiceAccountManager
    MessageTypeDeviceOnlineChanged "1.0" sample_uuid sample_time
    (RawValue "[1]" (ASlice [AInt 1])).

Lemma malformed_snapshot_recognized_witness :
  ∃ snapshot err, payloadMapFromEnvelope sample_list_event = (snapshot, Some err) ∧
    sameInboxPayload (legacy_snapshot "[1]" err) (marshalJSONMap snapshot) = true.
Proof.
  assert (bool_decide (is_Some (payloadMapFromEnvelope sample_list_event).2) = true) as Hbad
    by (vm_compute; reflexivity).
  destruct (payloadMapFromEnvelope sample_list_event) as [snapshot [err|]] eqn:E; [|discriminate Hbad].
  exists snapshot, err. split; [reflexivity|].
  apply (malformed_snapshot_recognized sample_list_event). exact E.
Defined.
