(* ===== verification/System.v ===== *)
(** * The workers on the store: one world that implements every interface

    [World] has the database, an oracle for everything outside the program
    (clock, context, broker answers, delivered records), and what was handed
    to and acknowledged to the broker.  The instances discharge the contracts
    of both workers, so that their theorems hold of the real store code; the
    theorems here are about the two together with the database. *)

From S2P Require Export InboxWorker.

Local Open Scope Z_scope.

(** What one interaction with the outside finds. *)
Record Answer := mkAnswer {
  a_time : Time;              (* time.Now() *)
  a_now : Time;               (* now() of a database transaction *)
  a_context : res unit;       (* ctx.Err() *)
  a_reply : res unit;         (* the broker's answer to a publication or an acknowledgement *)
  a_records : res (list Message); (* what Receive returns *)
}.

Record World := mkWorld {
  w_db : DB;
  w_oracle : nat → Answer;
  w_tick : nat;
  w_sent : list (string * Envelope);
  w_acked : list Message;
}.

Definition w_answer (w : World) : Answer := w_oracle w (w_tick w).
Definition w_step (w : World) : World :=
  mkWorld (w_db w) (w_oracle w) (S (w_tick w)) (w_sent w) (w_acked w).
Definition w_with_db (db : DB) (w : World) : World :=
  mkWorld db (w_oracle w) (w_tick w) (w_sent w) (w_acked w).

(** A call of a store method: a transaction at its own time. *)
Definition in_db {A} (m : Store A) : M World A := λ w,
  let '(r, db) := m (with_now (a_now (w_answer w)) (w_db w)) in (r, w_with_db db (w_step w)).

#[export] Instance World_environment : Environment World := {
  ctx_Err := λ w, (a_context (w_answer w), w_step w);
  time_Now := λ w, (Ok (a_time (w_answer w)), w_step w);
  sleepContext := λ _ w, (a_context (w_answer w), w_step w);
}.

#[export] Instance World_publisher : Publisher World := {
  Publish := λ stream e w,
    match a_reply (w_answer w) with
    | Ok _ => (Ok tt, mkWorld (w_db w) (w_oracle w) (S (w_tick w)) (w_sent w ++ [(stream, e)]) (w_acked w))
    | Err err => (Err err, w_step w)
    end;
}.

#[export] Instance World_consumer : Consumer World := {
  Receive := λ limit w,
    (match a_records (w_answer w) with
     | Ok records => Ok (take (Z.to_nat limit) records)
     | Err err => Err err
     end, w_step w);
  Acknowledge := λ record w,
    match a_reply (w_answer w) with
    | Ok _ => (Ok tt, mkWorld (w_db w) (w_oracle w) (S (w_tick w)) (w_sent w) (w_acked w ++ [record]))
    | Err err => (Err err, w_step w)
    end;
}.

#[export] Instance World_outbox_store : OutboxStore World := {
  store_ClaimOutboxMessagesReady := λ before until n, in_db (ClaimOutboxMessagesReady before until n);
  store_RecordOutboxPublishTransition := λ input, in_db (RecordOutboxPublishTransition input);
}.

#[export] Instance World_inbox_store : InboxStore World := {
  store_CreateOrGetInboxMessage := λ input, in_db (CreateOrGetInboxMessage input);
  store_GetDeviceOperation := λ id, in_db (GetDeviceOperation id);
  store_RecordInboxProcessTransition := λ input, in_db (RecordInboxProcessTransition input);
}.

#[export] Instance World_outbox_view : OutboxView World := {
  outbox_rows := λ w, device_message_outbox (w_db w);
  handed_over := w_sent;
}.

#[export] Instance World_inbox_view : InboxView World := {
  inbox_rows := λ w, device_message_inbox (w_db w);
  acknowledged := w_acked;
}.

(** ** The contracts hold *)

Lemma in_db_run {A} (m : Store A) w r w' :
  in_db m w = (r, w') →
  ∃ db', m (with_now (a_now (w_answer w)) (w_db w)) = (r, db') ∧ w' = w_with_db db' (w_step w).
Proof. unfold in_db. destruct (m _) as [r' db']. intros [= <- <-]. eauto. Qed.

Lemma record_publish_rows input db r db' :
  RecordOutboxPublishTransition input db = (r, db') →
  match r with
  | Err _ => device_message_outbox db' = device_message_outbox db
  | Ok result => ∃ current t, device_message_outbox db !! PT_MessageID input = Some current ∧
      shouldApplyOutboxPublishTransition current input = true ∧
      PTR_Message result = transition_message t current input ∧
      device_message_outbox db' =
        <[PT_MessageID input := PTR_Message result]> (device_message_outbox db)
  end.
Proof.
  destruct r as [result|e]; intros Hr.
  - apply RecordOutboxPublishTransition_ok in Hr as (c & o & ? & ? & _ & _ & _ & -> & ->).
    exists c, (now db). done.
  - by apply RecordOutboxPublishTransition_err in Hr as ->.
Qed.

#[export] Instance World_outbox_contract : OutboxContract World.
Proof.
  split.
  - intros w r w' [= <- <-]. done.
  - intros w r w' [= <- <-]. done.
  - intros d w r w' [= <- <-]. done.
  - intros stream e w r w'. simpl. destruct (a_reply (w_answer w)); intros [= <- <-]; simpl.
    + split; [done|]. exists [(stream, e)]. split; [done|]. intros _. by left.
    + split; [done|]. exists []. rewrite app_nil_r. done.
  - intros before until n w r w' Hk Hr. apply in_db_run in Hr as (db' & Hr & ->). split; [done|].
    destruct r as [ms|e].
    + apply claim_leases in Hr as (Hlen & Hnd & Hin & Hout & _); [|exact Hk].
      split_and!; try done. intros m Hm. destruct (Hin m Hm) as (m0 & ? & ? & ? & ?).
      exists m0, (a_now (w_answer w)). done.
    + rewrite claim_run in Hr. destruct (n <? 0); [|done]. by injection Hr as _ <-.
  - intros input w r w' Hr. apply in_db_run in Hr as (db' & Hr & ->). split; [done|].
    by apply record_publish_rows in Hr.
Qed.

Lemma inbox_create_rows input db r db' :
  CreateOrGetInboxMessage input db = (r, db') →
  match r with
  | Err _ => device_message_inbox db' = device_message_inbox db
  | Ok (m, created) =>
      device_message_inbox db' !! MIC_MessageID input = Some m ∧
      (inbox_rows_keyed (device_message_inbox db) → Inbox_MessageID m = MIC_MessageID input) ∧
      (∀ k, k ≠ MIC_MessageID input → device_message_inbox db' !! k = device_message_inbox db !! k) ∧
      (if created : bool then device_message_inbox db !! MIC_MessageID input = None ∧
          Inbox_Status m = MIC_Status input
       else device_message_inbox db !! MIC_MessageID input = Some m)
  end.
Proof.
  intros Hr. destruct r as [[m created]|e].
  - pose proof (CreateOrGetInboxMessage_row_ok _ _ _ _ _ Hr) as Hok.
    rewrite CreateOrGetInboxMessage_ok in Hr by done.
    destruct (device_message_inbox db !! MIC_MessageID input) as [m0|] eqn:Hm.
    + destruct (compareInboxCreate _ _ _); [|done]. injection Hr as <- <- <-. split_and!; try done.
      intros Hk. by apply Hk.
    + injection Hr as <- <- <-. simpl. rewrite lookup_insert_eq. split_and!; try done.
      intros k Hk. by rewrite lookup_insert_ne.
  - unfold CreateOrGetInboxMessage, GetInboxMessage, insert_inbox in Hr.
    unfold mbind, M_bind, gets, row_or, lift_res, mret, M_ret, modify, throw in Hr.
    destruct (inbox_checks_run (inbox_row_of input db) db) as [[E _]|(c & E & _)]; rewrite E in Hr;
      [|by injection Hr as _ <-]. simpl in Hr.
    destruct (device_message_inbox db !! MIC_MessageID input) as [m0|] eqn:Hm; simpl in Hr; [|done].
    rewrite Hm in Hr. destruct (compareInboxCreate _ _ _); [done|]. by injection Hr as _ <-.
Qed.

Lemma record_process_rows input db r db' :
  RecordInboxProcessTransition input db = (r, db') →
  match r with
  | Err _ => device_message_inbox db' = device_message_inbox db
  | Ok result => ∃ message t, device_message_inbox db !! IT_MessageID input = Some message ∧
      device_message_inbox db' =
        <[IT_MessageID input := processed_message t input message]> (device_message_inbox db)
  end.
Proof.
  destruct r as [result|e]; intros Hr.
  - apply RecordInboxProcessTransition_ok in Hr as (m & ops & devs & ? & _ & _ & _ & _ & ->).
    exists m, (now db). done.
  - by apply transaction_err in Hr as ->.
Qed.

#[export] Instance World_inbox_contract : InboxContract World.
Proof.
  split.
  - intros w r w' [= <- <-]. done.
  - intros w r w' [= <- <-]. done.
  - intros d w r w' [= <- <-]. done.
  - intros n w r w' [= <- <-]. done.
  - intros id w r w' Hr. apply in_db_run in Hr as (db' & Hr & ->).
    unfold GetDeviceOperation, gets, mbind, M_bind, row_or in Hr.
    destruct (device_operations _ !! id); injection Hr as _ <-; done.
  - intros record w r w'. simpl. destruct (a_reply (w_answer w)); intros [= <- <-]; simpl; auto.
  - intros input w r w' Hr. apply in_db_run in Hr as (db' & Hr & ->). split; [done|].
    by apply inbox_create_rows in Hr.
  - intros input w r w' Hr. apply in_db_run in Hr as (db' & Hr & ->). split; [done|].
    by apply record_process_rows in Hr.
Qed.

(** ** One record at a time *)

(** Two stores that differ in the time of the last transaction only. *)
Definition same_tables (db db' : DB) : Prop := ∃ t, db' = with_now t db.

#[export] Instance same_tables_equivalence : Equivalence same_tables.
Proof.
  split.
  - intros db. exists (now db). by destruct db.
  - intros db db' [t ->]. exists (now db). by destruct db.
  - intros db db1 db2 [t ->] [t' ->]. by exists t'.
Qed.

(** The columns of an inbox row that no later step changes. *)
Definition same_event (m m' : DeviceMessageInbox) : Prop :=
  Inbox_MessageID m = Inbox_MessageID m' ∧ Inbox_OperationID m = Inbox_OperationID m' ∧
  Inbox_CorrelationID m = Inbox_CorrelationID m' ∧ Inbox_CausationID m = Inbox_CausationID m' ∧
  Inbox_Stream m = Inbox_Stream m' ∧ Inbox_MessageType m = Inbox_MessageType m' ∧
  Inbox_SchemaVersion m = Inbox_SchemaVersion m' ∧
  Inbox_PartitionKey m = Inbox_PartitionKey m' ∧ Inbox_Payload m = Inbox_Payload m'.

#[export] Instance same_event_equivalence : Equivalence same_event.
Proof. unfold same_event. split; red; naive_solver congruence. Qed.

Lemma same_event_message m m' input :
  same_event m m' → same_inbox_message m' input → same_inbox_message m input.
Proof. unfold same_event, same_inbox_message. intros (_ & -> & -> & -> & -> & -> & -> & -> & ->). done. Qed.

(** Inbox rows and the devices of operations stay what they are. *)
Definition db_evolves (db db' : DB) : Prop :=
  (∀ k m, device_message_inbox db !! k = Some m →
     ∃ m', device_message_inbox db' !! k = Some m' ∧ same_event m' m) ∧
  (∀ k, DeviceOperation_DeviceID <$> device_operations db' !! k =
        DeviceOperation_DeviceID <$> device_operations db !! k).

#[export] Instance db_evolves_preorder : PreOrder db_evolves.
Proof.
  split.
  - intros db. split; [|done]. intros k m ?. by exists m.
  - intros db db1 db2 [M1 O1] [M2 O2]. split; [|by intros k; rewrite O2].
    intros k m Hm. destruct (M1 _ _ Hm) as (m1 & Hm1 & S1). destruct (M2 _ _ Hm1) as (m2 & ? & S2).
    exists m2. split; [done|]. by etrans.
Qed.

Lemma same_tables_evolves db db' : same_tables db db' → db_evolves db db'.
Proof. intros [t ->]. split; [|done]. intros k m ?. by exists m. Qed.

Lemma record_process_evolves input : steps db_evolves (RecordInboxProcessTransition input).
Proof.
  intros db r db' Hr. destruct r as [result|e]; [|by apply transaction_err in Hr as ->].
  apply RecordInboxProcessTransition_ok in Hr as (m & ops & devs & Hm & _ & Hops & _ & _ & ->). split.
  - intros k x Hx. simpl. destruct (decide (k = IT_MessageID input)) as [->|Hne].
    + rewrite lookup_insert_eq. rewrite Hm in Hx. injection Hx as <-. by eexists.
    + rewrite lookup_insert_ne by done. by exists x.
  - intros k. simpl. inversion Hops as [|status o Hst Ho]; subst; [done|].
    destruct (decide (k = Inbox_OperationID m)) as [->|Hne];
      [by rewrite lookup_insert_eq, Ho | by rewrite lookup_insert_ne].
Qed.

(** Relations on the database lifted to the world. *)
Definition on_db (R : relation DB) : relation World := λ w w', R (w_db w) (w_db w').

#[export] Instance on_db_preorder R `{!PreOrder R} : PreOrder (on_db R).
Proof. split; [by intros w; red | intros w w1 w2 ? ?; red; by etrans]. Qed.

Lemma in_db_steps {A} (R : relation DB) `{!PreOrder R} (m : Store A) :
  (∀ db t, R db (with_now t db)) → steps R m → steps (on_db R) (in_db m).
Proof.
  intros Ht Hm w r w' Hr. apply in_db_run in Hr as (db' & Hr & ->). red. simpl.
  etrans; [apply Ht|]. by eapply Hm.
Qed.

Lemma clock_on_db (R : relation DB) `{!PreOrder R} : steps (on_db R) (time_Now (S:=World)).
Proof. intros w r w' [= _ <-]. red. simpl. reflexivity. Qed.

Lemma get_operation_tables id : steps same_tables (GetDeviceOperation id).
Proof.
  intros db r db'. unfold GetDeviceOperation, gets, mbind, M_bind, row_or.
  by destruct (device_operations db !! id); intros [= _ <-].
Qed.

Lemma with_now_evolves db t : db_evolves db (with_now t db).
Proof. apply same_tables_evolves. by exists t. Qed.

Lemma process_registered_evolves tr svc record m :
  steps (on_db db_evolves) (process_registered tr svc record m).
Proof.
  apply process_registered_steps; [typeclasses eauto|apply (clock_on_db db_evolves)|..].
  - intros id. apply (in_db_steps db_evolves); [apply with_now_evolves|].
    intros db r db' Hr. by eapply same_tables_evolves, get_operation_tables.
  - intros. apply (in_db_steps db_evolves); [apply with_now_evolves|apply record_process_evolves].
Qed.

(** *** Registering a record *)

(** The create input after [createInboxMessage] has filled in a blank key. *)
Definition keyed_input (ops : gmap string DeviceOperation) (input : DeviceMessageInboxCreateInput)
    : DeviceMessageInboxCreateInput :=
  if blank (MIC_PartitionKey input) then
    match ops !! MIC_OperationID input with
    | None => input
    | Some o => with_key input (DeviceOperation_DeviceID o)
        (withEnvelopePartitionKeySnapshot (MIC_Payload input) (MIC_PartitionKey input)
          (DeviceOperation_DeviceID o))
    end
  else input.

Lemma keyed_input_devices ops ops' input :
  DeviceOperation_DeviceID <$> ops' !! MIC_OperationID input =
  DeviceOperation_DeviceID <$> ops !! MIC_OperationID input →
  keyed_input ops' input = keyed_input ops input.
Proof.
  unfold keyed_input. destruct (blank _); [|done].
  destruct (ops !! _), (ops' !! _); intros [=]; congruence.
Qed.

Lemma createInboxMessage_run input w :
  ∃ t, createInboxMessage input w =
    let '(r, db) := CreateOrGetInboxMessage (keyed_input (device_operations (w_db w)) input)
                      (with_now t (w_db w)) in
    (r, w_with_db db (if blank (MIC_PartitionKey input) then w_step (w_step w) else w_step w)).
Proof.
  unfold createInboxMessage, keyed_input, mbind, M_bind, attempt.
  destruct (blank (MIC_PartitionKey input)).
  - simpl. unfold in_db at 1, GetDeviceOperation, gets, mbind, M_bind, row_or. simpl.
    exists (a_now (w_answer (w_step w))).
    destruct (device_operations (w_db w) !! _) as [o|]; unfold mret, M_ret, throw; simpl;
      unfold in_db; simpl; by destruct (CreateOrGetInboxMessage _ _).
  - exists (a_now (w_answer w)). unfold mret, M_ret. simpl. unfold in_db.
    by destruct (CreateOrGetInboxMessage _ _).
Qed.

Lemma receivedAt_run e w : ∃ t w', receivedAt e w = (Ok t, w') ∧ w_db w' = w_db w.
Proof.
  unfold receivedAt. destruct (IsZero _); [|by do 2 eexists]. unfold inbox_currentTime, mbind, M_bind.
  simpl. by do 2 eexists.
Qed.

Definition settledb (m : DeviceMessageInbox) : bool :=
  match Inbox_Status m with
  | DeviceMessageInboxStatusProcessed | DeviceMessageInboxStatusDeadLettered => true
  | _ => false
  end.
Lemma settledb_spec m : settledb m = true ↔ settled m.
Proof. unfold settledb, settled. destruct (Inbox_Status m); naive_solver. Qed.

(** [processMessage] as registration followed by handling. *)
Lemma processMessage_run tr svc record w :
  ∃ at_ t w1, w_db w1 = w_db w ∧ processMessage tr svc record w =
    match CreateOrGetInboxMessage
            (keyed_input (device_operations (w_db w)) (inbox_create record at_))
            (with_now t (w_db w)) with
    | (Err e, db) => (Err e, w_with_db db w1)
    | (Ok (m, created), db) =>
        if negb created && settledb m then (Ok None, w_with_db db w1)
        else process_registered tr svc record m (w_with_db db w1)
    end.
Proof.
  unfold processMessage. destruct (receivedAt_run (Message_Envelope record) w) as (at_ & w1 & E & Hdb).
  unfold mbind, M_bind. rewrite E.
  destruct (createInboxMessage_run (inbox_create record at_) w1) as [t Hc]. rewrite Hc, Hdb.
  exists at_, t, (if blank (MIC_PartitionKey (inbox_create record at_)) then w_step (w_step w1)
                  else w_step w1).
  split; [by destruct (blank _)|].
  clear Hc. destruct (CreateOrGetInboxMessage _ _) as [[[m created]|e] db]; [|done].
  unfold settledb. by destruct (negb created && _).
Qed.

(** The identity of a create input does not depend on when it was received. *)
Lemma same_inbox_message_create m ops record at_ at' :
  same_inbox_message m (keyed_input ops (inbox_create record at_)) →
  same_inbox_message m (keyed_input ops (inbox_create record at')).
Proof.
  unfold same_inbox_message, keyed_input. simpl. destruct (blank _); [|done].
  by destruct (ops !! _).
Qed.

Lemma inbox_row_ok_create ops record at_ at' db db' :
  inbox_row_ok (inbox_row_of (keyed_input ops (inbox_create record at_)) db) →
  inbox_row_ok (inbox_row_of (keyed_input ops (inbox_create record at')) db').
Proof.
  unfold inbox_row_ok, inbox_row_of, keyed_input. simpl. destruct (blank _); [|done].
  by destruct (ops !! _).
Qed.

Lemma keyed_input_id ops input :
  MIC_MessageID (keyed_input ops input) = MIC_MessageID input ∧
  MIC_OperationID (keyed_input ops input) = MIC_OperationID input.
Proof. unfold keyed_input. destruct (blank _); [|done]. by destruct (ops !! _). Qed.

(** A record whose settled row is stored is skipped. *)
Lemma processMessage_skips tr svc record w m at_ :
  device_message_inbox (w_db w) !! MessageID (Message_Envelope record) = Some m → settled m →
  same_inbox_message m (keyed_input (device_operations (w_db w)) (inbox_create record at_)) →
  inbox_row_ok (inbox_row_of
    (keyed_input (device_operations (w_db w)) (inbox_create record at_)) (w_db w)) →
  ∃ w', processMessage tr svc record w = (Ok None, w') ∧ same_tables (w_db w) (w_db w').
Proof.
  intros Hm Hs Hsame Hok.
  destruct (processMessage_run tr svc record w) as (at' & t & w1 & _ & E). rewrite E.
  apply (inbox_row_ok_create _ _ _ at' _ (with_now t (w_db w))) in Hok.
  apply (same_inbox_message_create _ _ _ _ at') in Hsame.
  rewrite CreateOrGetInboxMessage_ok by exact Hok. simpl.
  rewrite (proj1 (keyed_input_id _ _)). simpl. rewrite Hm.
  destruct (compareInboxCreate_run m (keyed_input (device_operations (w_db w)) (inbox_create record at')))
    as [[-> _]|[_ []]]; [|done].
  rewrite (proj2 (settledb_spec m) Hs). simpl. eexists. split; [done|]. by exists t.
Qed.

(** An acknowledged record has a settled row, which is the one the record asks for. *)
Lemma processMessage_acknowledged tr svc record w o w1 :
  inbox_rows_keyed (device_message_inbox (w_db w)) →
  processMessage tr svc record w = (Ok o, w1) → shouldAcknowledgeOutcome o = true →
  ∃ row at_, device_message_inbox (w_db w1) !! MessageID (Message_Envelope record) = Some row ∧
    settled row ∧
    same_inbox_message row (keyed_input (device_operations (w_db w1)) (inbox_create record at_)) ∧
    inbox_row_ok (inbox_row_of
      (keyed_input (device_operations (w_db w1)) (inbox_create record at_)) (w_db w1)).
Proof.
  intros Hk Hr Hack.
  pose proof (processMessage_settles tr svc record w (Ok o) w1 Hk Hr) as [_ Hs].
  destruct (Hs Hack) as (row & Hrow & Hset). simpl in Hrow.
  destruct (processMessage_run tr svc record w) as (at_ & t & wr & Hwr & E). rewrite E in Hr.
  destruct (CreateOrGetInboxMessage _ _) as [[[m created]|e] db] eqn:Hc; [|done].
  destruct (CreateOrGetInboxMessage_same _ _ _ _ _ Hc) as (Hm & Hstored & Hops).
  pose proof (CreateOrGetInboxMessage_row_ok _ _ _ _ _ Hc) as Hok.
  rewrite (proj1 (keyed_input_id _ _)) in Hstored. simpl in Hstored, Hops.
  assert (db_evolves db (w_db w1)) as [Hrows Hdev].
  { destruct (negb created && settledb m); [by injection Hr as _ <-|].
    apply process_registered_evolves in Hr. exact Hr. }
  destruct (Hrows _ _ Hstored) as (row' & Hrow' & Hev). rewrite Hrow in Hrow'. injection Hrow' as <-.
  rewrite Hops in Hdev.
  assert (keyed_input (device_operations (w_db w1)) (inbox_create record at_) =
    keyed_input (device_operations (w_db w)) (inbox_create record at_)) as Hkey.
  { apply keyed_input_devices, Hdev. }
  exists row, at_. rewrite Hkey. split_and!; [done|done|by eapply same_event_message|exact Hok].
Qed.

(** *** What is left alone *)

(** Operations and devices are the same. *)
Definition results_kept (db db' : DB) : Prop :=
  device_operations db' = device_operations db ∧ devices db' = devices db.

#[export] Instance results_kept_equivalence : Equivalence results_kept.
Proof. unfold results_kept. split; red; naive_solver congruence. Qed.

Lemma same_tables_results db db' : same_tables db db' → results_kept db db'.
Proof. by intros [t ->]. Qed.

Lemma message_only_results m status n e p :
  steps results_kept (RecordInboxProcessTransition (settle_transition m status n e p message_only)).
Proof.
  intros db r db' Hr. destruct r as [result|err]; [|by apply transaction_err in Hr as ->].
  apply RecordInboxProcessTransition_ok in Hr as (m' & ops & devs & _ & _ & Hops & Hdevs & _ & ->).
  inversion Hops; [|done]. inversion Hdevs; by subst.
Qed.

Lemma create_inbox_results input : steps results_kept (CreateOrGetInboxMessage input).
Proof.
  intros db r db'. unfold CreateOrGetInboxMessage, GetInboxMessage, insert_inbox.
  unfold mbind, M_bind, gets, row_or, lift_res, mret, M_ret, modify, throw.
  destruct (inbox_checks_run (inbox_row_of input db) db) as [[-> _]|(c & -> & _)];
    [|by intros [= _ <-]]. simpl.
  destruct (device_message_inbox db !! _) as [m|] eqn:Hm; simpl; [|by intros [= _ <-]].
  rewrite Hm. destruct (compareInboxCreate _ _ _); by intros [= _ <-].
Qed.

Lemma World_message_steps : message_steps (S:=World) (on_db results_kept).
Proof.
  intros m status n e p. apply (in_db_steps results_kept); [done|apply message_only_results].
Qed.

(** Reports the outcome of an operation, as opposed to the state of a device. *)
Definition reports_operation (p : Payload) : Prop :=
  match p with OnlineChanged _ | MetadataChanged _ => False | _ => True end.

Lemma buildTransition_reports e p tr :
  reports_operation p → buildTransitionForPayload e p = Ok tr → is_Some (IT_OperationStatus tr).
Proof. destruct p; simpl; intros Hp [= <-]; done || by eexists. Qed.

Lemma GetDeviceOperation_world id w :
  store_GetDeviceOperation id w =
    (match device_operations (w_db w) !! id with Some o => Ok o | None => Err ErrNotFound end,
     w_with_db (with_now (a_now (w_answer w)) (w_db w)) (w_step w)).
Proof.
  simpl. unfold in_db, GetDeviceOperation, gets, mbind, M_bind, row_or. simpl.
  by destruct (device_operations (w_db w) !! id).
Qed.

Lemma process_registered_finished svc record m w o r w' :
  device_operations (w_db w) !! Inbox_OperationID m = Some o →
  isCompletedLifecycleOperation o = true →
  (∀ p, ValidateAndDecode (Message_Envelope record) (IS_stream svc) = Ok p → reports_operation p) →
  process_registered buildTransitionForPayload svc record m w = (r, w') →
  results_kept (w_db w) (w_db w').
Proof.
  intros Ho Hdone Hrep Hr. unfold process_registered in Hr.
  assert (∀ m n cause, steps (on_db results_kept) (dead_letter (S:=World) m n cause)) as Hdead.
  { intros. apply dead_letter_steps; [typeclasses eauto|apply (clock_on_db results_kept)|
      apply World_message_steps]. }
  destruct (negb _); [by eapply Hdead|].
  destruct (ValidateAndDecode _ _) as [payload|err]; [|by eapply Hdead].
  destruct (buildTransitionForPayload _ payload) as [tr|err] eqn:Htr.
  - apply buildTransition_reports in Htr; [|by apply Hrep].
    rewrite bool_decide_true in Hr by done.
    unfold mbind, M_bind, attempt in Hr. rewrite GetDeviceOperation_world, Ho in Hr.
    set (w1 := w_with_db _ _) in Hr. assert (results_kept (w_db w) (w_db w1)) as Hw1 by done.
    etrans; [exact Hw1|]. destruct (negb _); [by eapply Hdead|]. rewrite Hdone in Hr.
    unfold answer in Hr. apply (steps_bind (on_db results_kept)) in Hr; [done|..].
    + apply mark_steps; [typeclasses eauto|apply (clock_on_db results_kept)|apply World_message_steps].
    + intros _. apply steps_ret. typeclasses eauto.
  - destruct (IsTransient err && _); [|by eapply Hdead].
    unfold answer in Hr. apply (steps_bind (on_db results_kept)) in Hr; [done|..].
    + apply retry_steps; [typeclasses eauto|apply World_message_steps].
    + intros _. apply steps_ret. typeclasses eauto.
Qed.

Lemma finished_completed o :
  operation_finished (DeviceOperation_Status o) → isCompletedLifecycleOperation o = true.
Proof.
  unfold isCompletedLifecycleOperation. intros [->| ->]; by destruct (DeviceOperation_OperationType o).
Qed.

(** C9: a finished operation is final for the inbox: once a provision, deactivation, unprovision
    or entitlement update has succeeded or failed, a further result for it, whatever it says and
    whatever becomes of the record, changes neither any operation nor any device. *)
Theorem finished_operation_absorbs_results svc record w o r w' :
  device_operations (w_db w) !! OperationID (Message_Envelope record) = Some o →
  operation_finished (DeviceOperation_Status o) →
  (∀ p, ValidateAndDecode (Message_Envelope record) (IS_stream svc) = Ok p → reports_operation p) →
  processMessage buildTransitionForPayload svc record w = (r, w') →
  results_kept (w_db w) (w_db w').
Proof.
  intros Ho Hdone%finished_completed Hrep Hr.
  destruct (processMessage_run buildTransitionForPayload svc record w) as (at_ & t & w1 & _ & E).
  rewrite E in Hr. destruct (CreateOrGetInboxMessage _ _) as [[[m created]|e] db] eqn:Hc;
    apply create_inbox_results in Hc as Hkept; [|by injection Hr as _ <-].
  destruct (CreateOrGetInboxMessage_same _ _ _ _ _ Hc) as (Hsame & _ & Hops).
  destruct (negb created && settledb m); [by injection Hr as _ <-|].
  etrans; [exact Hkept|].
  apply (process_registered_finished svc record m (w_with_db db w1) o) in Hr; [exact Hr| |done|done].
  destruct Hsame as (Hop & _). rewrite Hop, (proj2 (keyed_input_id _ _)).
  simpl in *. by rewrite Hops.
Qed.

(** *** A record seen for the first time *)

(** The row a fresh record is registered as. *)
Definition registered_row (record : Message) (at_ : Time) (db : DB) : DeviceMessageInbox :=
  inbox_row_of (keyed_input (device_operations db) (inbox_create record at_)) db.

(** The schema accepts the record: it is an event type on the event stream. *)
Definition storable (record : Message) (db : DB) : Prop :=
  inbox_row_ok (registered_row record (OccurredAt (Message_Envelope record)) db).

Lemma storable_create record db at_ t :
  storable record db →
  inbox_row_ok (inbox_row_of (keyed_input (device_operations db) (inbox_create record at_))
    (with_now t db)).
Proof. apply inbox_row_ok_create. Qed.

Lemma registered_row_id record at_ db t :
  Inbox_MessageID (inbox_row_of (keyed_input (device_operations db) (inbox_create record at_))
    (with_now t db)) = MessageID (Message_Envelope record).
Proof. simpl. by rewrite (proj1 (keyed_input_id _ _)). Qed.

(** A fresh, storable record: its row is in the inbox, waiting, and handling goes on with it. *)
Lemma processMessage_fresh tr svc record w :
  device_message_inbox (w_db w) !! MessageID (Message_Envelope record) = None →
  storable record (w_db w) →
  ∃ m w1, processMessage tr svc record w = process_registered tr svc record m w1 ∧
    device_message_inbox (w_db w1) !! MessageID (Message_Envelope record) = Some m ∧
    Inbox_MessageID m = MessageID (Message_Envelope record) ∧ inbox_row_ok m ∧
    Inbox_Status m = DeviceMessageInboxStatusRetrying ∧ Inbox_AttemptCount m = 0 ∧
    results_kept (w_db w) (w_db w1) ∧ registry (w_db w1) = registry (w_db w).
Proof.
  intros Hnone Hok. destruct (processMessage_run tr svc record w) as (at_ & t & w1 & _ & E).
  apply (storable_create _ _ at_ t) in Hok. pose proof (registered_row_id record at_ (w_db w) t) as Hid.
  rewrite CreateOrGetInboxMessage_ok in E by exact Hok. simpl in E.
  rewrite (proj1 (keyed_input_id _ _)) in E. simpl in E. rewrite Hnone in E. simpl in E.
  eexists _, _. split; [exact E|]. simpl. rewrite lookup_insert_eq.
  split_and!; try done; try by apply Hok.
  - by unfold keyed_input; destruct (blank _); [destruct (device_operations (w_db w) !! _)|].
  - by unfold keyed_input; destruct (blank _); [destruct (device_operations (w_db w) !! _)|].
Qed.

(** Settling a stored row without results succeeds when the row stays within the checks. *)
Lemma record_message_only_run m status n e p db :
  device_message_inbox db !! Inbox_MessageID m = Some m → inbox_row_ok m → 0 ≤ n < 2 ^ 31 →
  let m' := inbox_update status n e p (now db) m in
  RecordInboxProcessTransition (settle_transition m status n e p message_only) db =
    (Ok (mkProcessResult m' None None),
     with_inbox (<[Inbox_MessageID m := m']> (device_message_inbox db)) db).
Proof.
  intros Hm Hok Hn. unfold RecordInboxProcessTransition, transaction, update_inbox.
  unfold mbind, M_bind, gets, modify, mret, M_ret, row_or. simpl. rewrite Hm.
  destruct (inbox_checks_run (inbox_update status n e p (now db) m) db) as [[-> _]|(? & _ & [])]; [done|].
  destruct Hok as (_ & ? & ? & ? & ?). split_and!; try done; simpl; lia.
Qed.

Lemma dead_letter_run m n cause w :
  device_message_inbox (w_db w) !! Inbox_MessageID m = Some m → inbox_row_ok m → 0 ≤ n < 2 ^ 31 →
  ∃ t now' w', dead_letter m n cause w = (Ok (Some DeviceMessageInboxStatusDeadLettered), w') ∧
    device_message_inbox (w_db w') !! Inbox_MessageID m =
      Some (inbox_update DeviceMessageInboxStatusDeadLettered n (Some (error_text cause)) (Some t) now' m) ∧
    results_kept (w_db w) (w_db w').
Proof.
  intros Hm Hok Hn. unfold dead_letter, answer, inbox_recordDeadLetter, inbox_currentTime.
  unfold mbind, M_bind. simpl. unfold in_db. rewrite record_message_only_run by done.
  do 3 eexists. split; [done|]. split; [|done]. simpl. by rewrite lookup_insert_eq.
Qed.

(** A poison event is set aside: a storable record of a new message whose stream is wrong or
    whose envelope or payload does not validate ends dead-lettered, with one attempt, the error
    and the time on record, and touches no operation and no device. *)
Theorem invalid_event_is_dead_lettered svc record w :
  device_message_inbox (w_db w) !! MessageID (Message_Envelope record) = None →
  storable record (w_db w) →
  Message_Stream record ≠ IS_stream svc ∨
    (∀ p, ValidateAndDecode (Message_Envelope record) (IS_stream svc) ≠ Ok p) →
  ∃ row w', processMessage buildTransitionForPayload svc record w =
      (Ok (Some DeviceMessageInboxStatusDeadLettered), w') ∧
    device_message_inbox (w_db w') !! MessageID (Message_Envelope record) = Some row ∧
    Inbox_Status row = DeviceMessageInboxStatusDeadLettered ∧ Inbox_AttemptCount row = 1 ∧
    is_Some (Inbox_LastError row) ∧ is_Some (Inbox_ProcessedAt row) ∧
    results_kept (w_db w) (w_db w').
Proof.
  intros Hnone Hok Hbad.
  destruct (processMessage_fresh buildTransitionForPayload svc record w Hnone Hok)
    as (m & w1 & -> & Hm & Hid & Hrow & _ & Hn & Hkept & _).
  assert (∃ cause, process_registered buildTransitionForPayload svc record m w1 =
    dead_letter m 1 cause w1) as [cause ->].
  { unfold process_registered. rewrite Hn. simpl. case_bool_decide as Hst; simpl; [|by eexists].
    destruct (ValidateAndDecode _ _) as [p|err] eqn:Hv; [|by eexists].
    by destruct Hbad as [|Hbad]; [|destruct (Hbad p)]. }
  rewrite <-Hid in Hm. destruct (dead_letter_run m 1 cause w1 Hm Hrow) as (t & now' & w' & -> & Hr & Hk);
    [lia|]. rewrite Hid in Hr. eexists _, w'. split; [done|]. split; [exact Hr|].
  split_and!; try done. by etrans.
Qed.

(** *** Records that stop the worker *)

(** The context is alive throughout. *)
Definition context_alive (w : World) : Prop := ∀ n, a_context (w_oracle w n) = Ok tt.

(** An error of the first delivered record that is neither a cancellation nor
    transient ends [Run] with it; nothing of this round is acknowledged. *)
Lemma first_record_stops tr svc record rest w e w' :
  context_alive w → a_records (w_answer w) = Ok (record :: rest) → 0 < IS_batchSize svc →
  errors_Is e ErrCanceled = false → IsTransient e = false →
  processMessage tr svc record (w_step (w_step w)) = (Err e, w') →
  inbox_Run_round tr svc w = (Ok (Some (Err e)), w').
Proof.
  intros Hctx Hrec Hn Hc Ht Hp. unfold inbox_Run_round, inbox_RunOnce, attempt, mbind, M_bind.
  simpl. rewrite Hrec. destruct (Z.to_nat (IS_batchSize svc)) as [|n] eqn:En; [lia|]. simpl.
  unfold attempt, mbind, M_bind. simpl. unfold w_answer at 1. simpl. rewrite Hctx. simpl.
  unfold mret, M_ret. rewrite Hp. simpl. by rewrite Hc, Ht.
Qed.

Lemma processMessage_unstorable tr svc record w :
  device_message_inbox (w_db w) !! MessageID (Message_Envelope record) = None →
  ¬ storable record (w_db w) →
  ∃ e w', processMessage tr svc record w = (Err (ErrPg e), w') ∧ same_tables (w_db w) (w_db w').
Proof.
  intros Hnone Hbad. destruct (processMessage_run tr svc record w) as (at_ & t & w1 & Hdb & E).
  rewrite E. unfold CreateOrGetInboxMessage, insert_inbox, mbind, M_bind, gets.
  destruct (inbox_checks_run (inbox_row_of (keyed_input (device_operations (w_db w))
    (inbox_create record at_)) (with_now t (w_db w))) (with_now t (w_db w))) as [[_ Hok]|(e & Ee & _)].
  { destruct Hbad. by eapply inbox_row_ok_create. }
  rewrite Ee. simpl. eexists _, _. split; [done|]. by exists t.
Qed.

(** Not every poison event is set aside: a record the inbox's own constraints refuse (an unknown
    message type or schema version, another stream, a blank partition key without operation) is
    neither dead-lettered nor acknowledged: [Run] ends with the constraint's error, the tables
    are as before, and the record is the first to be delivered again. *)
Theorem unstorable_event_stops_worker svc record rest w :
  context_alive w → a_records (w_answer w) = Ok (record :: rest) → 0 < IS_batchSize svc →
  inbox_rows_keyed (device_message_inbox (w_db w)) →
  device_message_inbox (w_db w) !! MessageID (Message_Envelope record) = None →
  ¬ storable record (w_db w) →
  ∃ e w', inbox_Run_round buildTransitionForPayload svc w = (Ok (Some (Err (ErrPg e))), w') ∧
    same_tables (w_db w) (w_db w') ∧ w_acked w' = w_acked w.
Proof.
  intros Hctx Hrec Hn Hk Hnone Hbad.
  destruct (processMessage_unstorable buildTransitionForPayload svc record (w_step (w_step w)) Hnone Hbad)
    as (e & w' & Hp & Ht).
  exists e, w'. split; [by eapply first_record_stops|]. split; [done|].
  by apply processMessage_settles in Hp as [(Ha & _) _].
Qed.

(** The record waits, registered and never attempted, when its projection fails. *)
Lemma processMessage_projection_fails svc record w p d :
  device_message_inbox (w_db w) !! MessageID (Message_Envelope record) = None →
  storable record (w_db w) → Message_Stream record = IS_stream svc →
  ValidateAndDecode (Message_Envelope record) (IS_stream svc) = Ok (OnlineChanged p) →
  device_in_org (OC_OrgID p) (OC_AccountDeviceID p) (w_db w) = Some d →
  Device_DisabledAt d ≠ None →
  ∃ m w', processMessage buildTransitionForPayload svc record w = (Err ErrDisabled, w') ∧
    device_message_inbox (w_db w') !! MessageID (Message_Envelope record) = Some m ∧
    Inbox_Status m = DeviceMessageInboxStatusRetrying ∧ Inbox_AttemptCount m = 0 ∧
    results_kept (w_db w) (w_db w').
Proof.
  intros Hnone Hok Hst Hv Hd Hdis.
  destruct (processMessage_fresh buildTransitionForPayload svc record w Hnone Hok)
    as (m & w1 & -> & Hm & Hid & Hrow & Hs & Hn & [Hops Hdevs] & _).
  exists m. unfold process_registered. rewrite Hst, Hv, bool_decide_true by done. simpl.
  unfold record_result, inbox_currentTime, mbind, M_bind. simpl. unfold in_db.
  unfold RecordInboxProcessTransition, transaction, update_inbox.
  unfold mbind, M_bind, gets, modify, mret, M_ret, row_or. simpl. rewrite Hid, Hm, Hn.
  match goal with |- context [inbox_checks ?r ?db] =>
    destruct (inbox_checks_run r db) as [[-> _]|(? & _ & [])] end.
  2: { destruct Hrow as (_ & ? & ? & ? & ?). split_and!; done. }
  simpl. unfold record_operation, record_projection, mret, M_ret, mbind, M_bind. simpl.
  rewrite projectDeviceTx_run. unfold device_in_org in *. simpl. rewrite Hdevs, Hd.
  assert (∀ t, projection t d (OnlineChangedProjection p) = Err ErrDisabled) as Hproj.
  { intros t. unfold projection, stale_activity, refused_disabled. simpl.
    by rewrite (bool_decide_true (is_Some (Device_DisabledAt d))) by by apply not_eq_None_Some. }
  rewrite Hproj. simpl. eexists. split; [done|]. done.
Qed.

(** A presence event for a disabled device stops the worker as well: it is stored but never
    attempted, and [Run] ends with [ErrDisabled] each time the event is delivered. *)
Theorem disabled_presence_stops_worker svc record rest w p d :
  context_alive w → a_records (w_answer w) = Ok (record :: rest) → 0 < IS_batchSize svc →
  inbox_rows_keyed (device_message_inbox (w_db w)) →
  device_message_inbox (w_db w) !! MessageID (Message_Envelope record) = None →
  storable record (w_db w) → Message_Stream record = IS_stream svc →
  ValidateAndDecode (Message_Envelope record) (IS_stream svc) = Ok (OnlineChanged p) →
  device_in_org (OC_OrgID p) (OC_AccountDeviceID p) (w_db w) = Some d →
  Device_DisabledAt d ≠ None →
  ∃ m w', inbox_Run_round buildTransitionForPayload svc w = (Ok (Some (Err ErrDisabled)), w') ∧
    device_message_inbox (w_db w') !! MessageID (Message_Envelope record) = Some m ∧
    Inbox_Status m = DeviceMessageInboxStatusRetrying ∧ Inbox_AttemptCount m = 0 ∧
    results_kept (w_db w) (w_db w') ∧ w_acked w' = w_acked w.
Proof.
  intros Hctx Hrec Hn Hk Hnone Hok Hst Hv Hd Hdis.
  destruct (processMessage_projection_fails svc record (w_step (w_step w)) p d Hnone Hok Hst Hv Hd Hdis)
    as (m & w' & Hp & Hm & Hs & Ha & Hkept).
  exists m, w'. split; [by eapply first_record_stops|]. split_and!; try done.
  by apply processMessage_settles in Hp as [(Hack & _) _].
Qed.

(** ** The theorems at work in a small world *)

(** The context is alive, the broker takes everything, [records] are delivered. *)
Definition sample_answer (records : list Message) : Answer :=
  mkAnswer (Add sample_time Second) (Add sample_time Second) (Ok tt) (Ok tt) (Ok records).
Definition sample_world (db : DB) (records : list Message) : World :=
  mkWorld db (λ _, sample_answer records) 0 [] [].
Definition sample_outbox_service : OutboxService := NewOutboxService (mkOutboxOptions 0 0 0 0 0).
Definition sample_inbox_service : InboxService := NewInboxService (mkInboxOptions "" 0 0 0).

(** A command waits in the outbox. *)
Definition sample_outbox_world : World :=
  sample_world (sample_outbox_db DeviceMessageOutboxStatusPending 0) [].

Definition sample_event (type : MessageType) (payload : any) : Message :=
  mkMessage StreamVideoAccountEvents
    (mkEnvelope "evt-9" "corr-1" "" "op-1" ServiceRealtekVideoCloud ServiceAccountManager type "1.0"
       sample_uuid sample_time (RawValue "{...}" payload)).
Definition sample_success : Message :=
  sample_event MessageTypeDeviceProvisionSucceeded
    (AMap [("org_id", AString sample_org); ("account_device_id", AString sample_uuid);
           ("video_cloud_devid", AString "devid-1"); ("activity_id", AString "act-1");
           ("activated_at", AString "2023-11-14T22:13:20Z")]).
(** The same type with an empty payload. *)
Definition sample_poison : Message := sample_event MessageTypeDeviceProvisionSucceeded (AMap []).

Lemma outbox_worker_safety_witness :
  ∃ r w, outbox_Run sample_outbox_service 2 sample_outbox_world = (Ok r, w) ∧
    published_handed_over w ∧ length (w_sent w) = 1%nat.
Proof.
  destruct (run_check (λ _ w, length (w_sent w) =? 1)%nat (outbox_Run sample_outbox_service 2)
    sample_outbox_world) as (r & w & E & Hsent%Nat.eqb_eq); [vm_compute; reflexivity|].
  exists r, w. split; [exact E|]. split; [|exact Hsent].
  assert (∀ k m, outbox_rows sample_outbox_world !! k = Some m →
    k = "msg-1" ∧ m = sample_outbox DeviceMessageOutboxStatusPending 0) as Hrows.
  { intros k m Hkm.
    change (({["msg-1" := sample_outbox DeviceMessageOutboxStatusPending 0]}
      : gmap string DeviceMessageOutbox) !! k = Some m) in Hkm. apply lookup_singleton_Some in Hkm as [<- <-]. split; reflexivity. }
  apply (outbox_worker_safety sample_outbox_service 2 sample_outbox_world (Ok r) w); [..|exact E].
  - intros k m [-> ->]%Hrows. reflexivity.
  - intros k m [-> ->]%Hrows [=].
  - intros k m [-> ->]%Hrows. split; [discriminate|reflexivity].
Defined.

Lemma publish_outcome_witness :
  ∃ w row, publishMessage sample_outbox_service (sample_outbox DeviceMessageOutboxStatusPending 0)
      sample_outbox_world = (Ok (Some DeviceMessageOutboxStatusPublished), w) ∧
    outbox_rows w !! "msg-1" = Some row ∧ Outbox_AttemptCount row = 1.
Proof.
  destruct (run_check (λ o _, bool_decide (o = Some DeviceMessageOutboxStatusPublished))
    (publishMessage sample_outbox_service (sample_outbox DeviceMessageOutboxStatusPending 0))
    sample_outbox_world) as (o & w & E & ->%bool_decide_eq_true); [vm_compute; reflexivity|].
  destruct (publish_outcome sample_outbox_service (sample_outbox DeviceMessageOutboxStatusPending 0)
    sample_outbox_world DeviceMessageOutboxStatusPublished w) as (_ & row & Hrow & _ & Hn & _).
  - vm_compute; reflexivity.
  - exact E.
  - exists w, row. split_and!; [exact E|exact Hrow|exact Hn].
Defined.

Lemma acknowledged_events_are_settled_witness :
  ∃ r w, inbox_Run buildTransitionForPayload sample_inbox_service 2
      (sample_world sample_db [sample_success]) = (Ok r, w) ∧
    acknowledged_settled w ∧ w_acked w = [sample_success; sample_success].
Proof.
  destruct (run_check (λ _ w, length (w_acked w) =? 2)%nat
    (inbox_Run buildTransitionForPayload sample_inbox_service 2)
    (sample_world sample_db [sample_success])) as (r & w & E & _); [vm_compute; reflexivity|].
  exists r, w. split; [exact E|]. split.
  - apply (acknowledged_events_are_settled buildTransitionForPayload sample_inbox_service 2
      (sample_world sample_db [sample_success]) (Ok r) w); [|exact E].
    split; [apply map_Forall_empty|]. intros record Hin. destruct (not_elem_of_nil _ Hin).
  - apply (f_equal (λ rw, w_acked rw.2)) in E. etransitivity; [symmetry; exact E|].
    vm_compute; reflexivity.
Defined.

Lemma finished_operation_absorbs_results_witness :
  let db := sample_finished_db DeviceOperationTypeProvision DeviceMessageOutboxStatusPublished in
  ∃ o w, processMessage buildTransitionForPayload sample_inbox_service sample_success
      (sample_world db []) = (Ok o, w) ∧ results_kept db (w_db w).
Proof.
  intros db. destruct (run_succeeds (processMessage buildTransitionForPayload sample_inbox_service
    sample_success) (sample_world db [])) as (o & w & E); [vm_compute; reflexivity|].
  exists o, w. split; [exact E|].
  apply (finished_operation_absorbs_results sample_inbox_service sample_success (sample_world db [])
    (sample_finished DeviceOperationTypeProvision) (Ok o) w);
    [vm_compute; reflexivity|left; reflexivity| |exact E].
  assert (match ValidateAndDecode (Message_Envelope sample_success) (IS_stream sample_inbox_service)
    with Ok (ProvisionSucceeded _) => true | _ => false end = true) as Hp by (vm_compute; reflexivity).
  intros p Hv. rewrite Hv in Hp. destruct p; try discriminate Hp. exact I.
Defined.

Lemma invalid_event_is_dead_lettered_witness :
  ∃ row w, processMessage buildTransitionForPayload sample_inbox_service sample_poison
      (sample_world sample_db []) = (Ok (Some DeviceMessageInboxStatusDeadLettered), w) ∧
    device_message_inbox (w_db w) !! "evt-9" = Some row ∧ Inbox_AttemptCount row = 1.
Proof.
  destruct (invalid_event_is_dead_lettered sample_inbox_service sample_poison
    (sample_world sample_db [])) as (row & w & H & Hrow & _ & Hn & _).
  - reflexivity.
  - split; [split; [discriminate|reflexivity]|]. split; [reflexivity|].
    split; [unfold event_types; left|]. split; [reflexivity|]. vm_compute; reflexivity.
  - right. assert (is_ok (ValidateAndDecode (Message_Envelope sample_poison)
      (IS_stream sample_inbox_service)) = false) as Hbad by (vm_compute; reflexivity).
    intros p Hv. rewrite Hv in Hbad. discriminate Hbad.
  - exists row, w. split_and!; [exact H|exact Hrow|exact Hn].
Defined.

Lemma unstorable_event_stops_worker_witness :
  ∃ e w, inbox_Run_round buildTransitionForPayload sample_inbox_service
      (sample_world sample_db [sample_event "DeviceRenamed" (AMap [])]) = (Ok (Some (Err (ErrPg e))), w) ∧
    w_acked w = [].
Proof.
  destruct (unstorable_event_stops_worker sample_inbox_service (sample_event "DeviceRenamed" (AMap [])) []
    (sample_world sample_db [sample_event "DeviceRenamed" (AMap [])])) as (e & w & H & _ & Ha).
  - intros n. reflexivity.
  - reflexivity.
  - reflexivity.
  - apply map_Forall_empty.
  - reflexivity.
  - intros (_ & _ & Ht & _). revert Ht. apply (bool_decide_eq_false_1 _). vm_compute; reflexivity.
  - exists e, w. split; [exact H|exact Ha].
Defined.
