(* ===== verification/LifecycleHTTP.v ===== *)
(** * internal/lifecyclehttp/publisher.go: commands by HTTP

    A publisher that delivers a command to the Video Cloud by an HTTP call and
    turns the response into the result event a broker would have delivered,
    which it hands to the inbox worker at once.  With it the outbox worker
    drives the whole round: command, call, result, projection.  The HTTP client
    is an interface ([VideoAPI]); the body of a response is what reading it up
    to a limit gives.

    The theorems: every response to an accepted command becomes an event the
    inbox accepts; a publication that succeeds has left its result settled in
    the inbox; a command that is published again after its result was stored
    is refused. *)

From S2P Require Export System.

Local Open Scope Z_scope.

Definition StatusOK : Z := 200.
Definition StatusAccepted : Z := 202.
Definition StatusMultipleChoices : Z := 300.
Definition StatusTooManyRequests : Z := 429.
Definition StatusInternalServerError : Z := 500.

Record HTTPRequest := mkHTTPRequest {
  Req_Method : string;
  Req_URL : string;
  Req_Authorization : string;
  Req_Body : RawMessage;
}.

(** [Resp_Read n] is what [io.ReadAll(io.LimitReader(response.Body, n))] returns. *)
Record HTTPResponse := mkHTTPResponse {
  Resp_StatusCode : Z;
  Resp_Status : string;
  Resp_Read : Z → RawMessage * option error;
}.

Class VideoAPI (S : Type) := { client_Do : HTTPRequest → M S HTTPResponse }.

(** ** NewPublisher *)

(** What [url.Parse] finds in the base URL. *)
Record URL := mkURL {
  URL_Scheme : string;
  URL_Host : string;
  URL_User : bool;
  URL_RawQuery : string;
  URL_Fragment : string;
  URL_Path : string;
}.

Record HTTPPublisher := mkHTTPPublisher {
  HP_baseURL : string;
  HP_token : string;
  HP_maxAttempts : Z;
}.

Fixpoint trim_slashes (l : bytes) : bytes :=
  match l with
  | c :: r => if byte_is 47 c then trim_slashes r else l
  | [] => []
  end.
(** [strings.TrimRight(s, "/")] *)
Definition TrimRight_slash (s : string) : string :=
  of_bytes (reverse (trim_slashes (reverse (to_bytes s)))).

(** [parse] is [url.Parse]; [store], [project]: whether they were given. *)
Definition NewPublisher (parse : string → option URL) (baseURL token : string) (store project : bool)
    (maxAttempts : Z) : res HTTPPublisher :=
  let base := TrimRight_slash (TrimSpace baseURL) in
  match parse base with
  | None => Err (ErrText "video cloud lifecycle base URL must be absolute")
  | Some parsed =>
      if bool_decide (URL_Scheme parsed = "") || bool_decide (URL_Host parsed = "")
      then Err (ErrText "video cloud lifecycle base URL must be absolute")
      else if URL_User parsed || negb (bool_decide (URL_RawQuery parsed = ""))
              || negb (bool_decide (URL_Fragment parsed = ""))
              || (negb (bool_decide (URL_Path parsed = "")) && negb (bool_decide (URL_Path parsed = "/")))
      then Err (ErrText "video cloud lifecycle base URL must be a credential-free origin")
      else if blank token then Err (ErrText "video cloud lifecycle token is required")
      else if negb store && negb project then Err (ErrText "account manager store is required")
      else Ok (mkHTTPPublisher base token maxAttempts)
  end.

(** ** directRequest *)

Definition path_char (c : ascii) : bool :=
  byte_in 48 57 c || byte_in 65 90 c || byte_in 97 122 c
  || bool_decide (c ∈ ["-"; "_"; "."; "~"; "$"; "&"; "+"; "="; ":"; "@"]%char).
Definition upper_hex (n : N) : ascii :=
  if (n <? 10)%N then ascii_of_N (48 + n) else ascii_of_N (55 + n).
(** [url.PathEscape] *)
Definition PathEscape (s : string) : string :=
  of_bytes (to_bytes s ≫= λ c,
    if path_char c then [c]
    else ["%"%char; upper_hex (N_of_ascii c / 16); upper_hex (N_of_ascii c mod 16)]).

Definition strings_json (l : list string) : any := ASlice (AString <$> l).

(** The method, the action, the device id and the body. *)
Definition directRequest (payload : Payload) (operationID : string)
    : res (string * string * string * RawMessage) :=
  match payload with
  | ProvisionRequested typed =>
      let request : jsonmap := map_literal
        ([("devid", AString (PR_VideoCloudDevid typed));
          ("clip_public_key", AString (PR_ClipPublicKey typed));
          ("activityid", AString (PR_ActivityID typed)); ("org_id", AString (PR_OrgID typed));
          ("account_device_id", AString (PR_AccountDeviceID typed))] ++
         member_string "transfer_reservation_id" (PR_TransferReservationID typed) ++
         match PR_ProductServiceRevision typed with
         | Some revision =>
             [("service_options", strings_json (PR_ServiceOptions typed));
              ("product_id", AString (PR_ProductID typed)); ("product_service_revision", AInt revision);
              ("service_grant_sha256", AString (PR_ServiceGrantSHA256 typed))] ++
             member_ptr AInt "log_retention_days" (PR_LogRetentionDays typed)
         | None => []
         end) in
      Ok ("POST", "activate", PR_VideoCloudDevid typed, raw_marshal request)
  | DeactivateRequested typed =>
      Ok ("POST", "deactivate", DR_VideoCloudDevid typed,
          raw_marshal (map_literal [("devid", AString (DR_VideoCloudDevid typed));
                                    ("activity_id", AString (DR_ActivityID typed))]))
  | UnprovisionRequested typed =>
      Ok ("POST", "unprovision", UR_VideoCloudDevid typed,
          raw_marshal (map_literal [("devid", AString (UR_VideoCloudDevid typed))]))
  | EntitlementSnapshotRequested typed =>
      Ok ("PUT", "entitlement", ER_VideoCloudDevid typed,
          raw_marshal (map_literal
            ([("devid", AString (ER_VideoCloudDevid typed)); ("brand_cloud_id", AString (ER_OrgID typed));
              ("account_device_id", AString (ER_AccountDeviceID typed));
              ("product_id", AString (ER_ProductID typed)); ("operation_id", AString operationID);
              ("product_service_revision", AInt (ER_ProductServiceRevision typed));
              ("service_grant_sha256", AString (ER_ServiceGrantSHA256 typed));
              ("platform_entitlement_revision", AInt (ER_PlatformEntitlementRevision typed));
              ("service_options", strings_json (ER_ServiceOptions typed));
              ("state", AString (ER_State typed))] ++
             member_ptr AInt "log_retention_days" (ER_LogRetentionDays typed))))
  | _ => Err (ErrText "unsupported direct lifecycle payload")
  end.

Definition request_of (p : HTTPPublisher) (r : string * string * string * RawMessage) : HTTPRequest :=
  let '(method, action, deviceID, body) := r in
  mkHTTPRequest method
    (HP_baseURL p +:+ "/v1/internal/account-manager/devices/" +:+ PathEscape deviceID +:+ "/" +:+ action)
    ("Bearer " +:+ HP_token p) body.

(** ** Receipts *)

Definition maxReceiptBytes : Z := 4096.

(** The receipt of a response: its decoded fields. *)
Definition read_receipt (sc : schema) (response : HTTPResponse) : res fields :=
  if negb (Resp_StatusCode response =? StatusOK) then
    Err (ErrText ("unexpected success status " +:+ dec_text (Resp_StatusCode response)))
  else
    let '(raw, err) := Resp_Read response (maxReceiptBytes + 1) in
    if bool_decide (is_Some err) || (maxReceiptBytes <? str_len (raw_text raw))
    then Err (ErrText "unreadable or oversized receipt")
    else match unmarshal_struct sc raw with
         | Err _ => Err (ErrText "invalid receipt JSON")
         | Ok t => Ok t
         end.

Definition activation_schema : schema :=
  [("status", KString); ("devid", KString); ("org_id", KString); ("account_device_id", KString);
   ("activity_id", KString); ("activated", KBool)].

Definition validateActivationReceipt (response : HTTPResponse) (command : DeviceProvisionRequestedPayload)
    : res unit :=
  t ← read_receipt activation_schema response;
  if negb (bool_decide (get_string t "status" = "ok"))
     || negb (bool_decide (get_string t "devid" = PR_VideoCloudDevid command))
     || negb (bool_decide (get_string t "org_id" = PR_OrgID command))
     || negb (bool_decide (get_string t "account_device_id" = PR_AccountDeviceID command))
     || negb (bool_decide (get_string t "activity_id" = PR_ActivityID command))
     || negb (get_bool t "activated")
  then Err (ErrText "receipt does not match activation command") else Ok tt.

Definition entitlement_schema : schema :=
  [("status", KString); ("devid", KString); ("operation_id", KString); ("applied_revision", KInt64);
   ("platform_entitlement_revision", KInt64); ("product_service_revision", KInt64);
   ("service_grant_sha256", KString); ("log_retention_days", KInt64Ptr); ("state", KString)].

Definition validateEntitlementReceipt (response : HTTPResponse) (operationID : string)
    (command : DeviceEntitlementSnapshotRequestedPayload) : res unit :=
  t ← read_receipt entitlement_schema response;
  if negb (bool_decide (get_string t "status" = "ok"))
     || negb (bool_decide (get_string t "devid" = ER_VideoCloudDevid command))
     || negb (bool_decide (get_string t "operation_id" = operationID))
     || negb (get_int t "applied_revision" =? ER_PlatformEntitlementRevision command)
     || negb (get_int t "platform_entitlement_revision" =? ER_PlatformEntitlementRevision command)
     || negb (get_int t "product_service_revision" =? ER_ProductServiceRevision command)
     || negb (bool_decide (get_string t "service_grant_sha256" = ER_ServiceGrantSHA256 command))
     || negb (bool_decide (get_string t "state" = ER_State command))
     || negb (bool_decide (get_int_ptr t "log_retention_days" = ER_LogRetentionDays command))
  then Err (ErrText "receipt does not match entitlement command") else Ok tt.

Definition success_code (code : Z) : bool := (StatusOK <=? code) && (code <? StatusMultipleChoices).

(** What [Publish] makes of the status and the receipt before it looks for a result. *)
Definition response_check (response : HTTPResponse) (operationID : string) (payload : Payload)
    : res unit :=
  let code := Resp_StatusCode response in
  if (code =? StatusTooManyRequests) || (StatusInternalServerError <=? code)
  then Err (ErrPublish (ErrText ("video lifecycle API returned " +:+ Resp_Status response)) true)
  else match payload with
  | ProvisionRequested typed =>
      if success_code code then
        match validateActivationReceipt response typed with
        | Err err => Err (ErrPublish (ErrWrap "video activation acknowledgement" err) true)
        | Ok _ => Ok tt
        end
      else Ok tt
  | EntitlementSnapshotRequested typed =>
      if code =? StatusAccepted
      then Err (ErrPublish (ErrText "video entitlement snapshot was accepted but not applied") true)
      else if success_code code then
        match validateEntitlementReceipt response operationID typed with
        | Err err => Err (ErrPublish (ErrWrap "video entitlement acknowledgement" err) true)
        | Ok _ => Ok tt
        end
      else Ok tt
  | _ => Ok tt
  end.

(** ** resultEnvelope *)

Definition truncate (value : string) (limit_ : Z) : string :=
  if str_len value <=? limit_ then value else of_bytes (take (Z.to_nat limit_) (to_bytes value)).

Definition failureReason (response : HTTPResponse) : string :=
  let reported :=
    match unmarshal_struct [("reason", KString)] (fst (Resp_Read response 4096)) with
    | Ok decoded => TrimSpace (get_string decoded "reason")
    | Err _ => ""
    end in
  if bool_decide (reported = "") then "video lifecycle API returned " +:+ Resp_Status response
  else truncate reported 512.

(** The payload that reports the outcome; [None] for a payload that is not a command. *)
Definition result_payload (payload : Payload) (now : Time) (response : HTTPResponse)
    : option (MessageType * Payload) :=
  if success_code (Resp_StatusCode response) then
    match payload with
    | ProvisionRequested typed => Some (MessageTypeDeviceProvisionSucceeded,
        ProvisionSucceeded (mkProvisionSucceeded (PR_OrgID typed) (PR_AccountDeviceID typed)
          (PR_VideoCloudDevid typed) (PR_ActivityID typed) now))
    | DeactivateRequested typed => Some (MessageTypeDeviceDeactivateSucceeded,
        DeactivateSucceeded (mkDeactivateSucceeded (DR_OrgID typed) (DR_AccountDeviceID typed)
          (DR_VideoCloudDevid typed) (DR_ActivityID typed) now))
    | UnprovisionRequested typed => Some (MessageTypeDeviceUnprovisionSucceeded,
        UnprovisionSucceeded (mkUnprovisionSucceeded (UR_OrgID typed) (UR_AccountDeviceID typed)
          (UR_VideoCloudDevid typed) now))
    | EntitlementSnapshotRequested typed => Some (MessageTypeDeviceEntitlementSnapshotSucceeded,
        EntitlementSnapshotSucceeded (mkEntitlementSnapshotSucceeded (ER_OrgID typed)
          (ER_AccountDeviceID typed) (ER_VideoCloudDevid typed) (ER_PlatformEntitlementRevision typed) now))
    | _ => None
    end
  else
    let reason := failureReason response in
    match payload with
    | ProvisionRequested typed => Some (MessageTypeDeviceProvisionFailed,
        ProvisionFailed (mkProvisionFailed (PR_OrgID typed) (PR_AccountDeviceID typed)
          (PR_VideoCloudDevid typed) (PR_ActivityID typed) "activation_failed" reason false now))
    | DeactivateRequested typed => Some (MessageTypeDeviceDeactivateFailed,
        DeactivateFailed (mkDeactivateFailed (DR_OrgID typed) (DR_AccountDeviceID typed)
          (DR_VideoCloudDevid typed) (DR_ActivityID typed) "deactivation_failed" reason false now))
    | UnprovisionRequested typed => Some (MessageTypeDeviceUnprovisionFailed,
        UnprovisionFailed (mkUnprovisionFailed (UR_OrgID typed) (UR_AccountDeviceID typed)
          (UR_VideoCloudDevid typed) "unprovision_failed" reason false now))
    | EntitlementSnapshotRequested typed => Some (MessageTypeDeviceEntitlementSnapshotFailed,
        EntitlementSnapshotFailed (mkEntitlementSnapshotFailed (ER_OrgID typed)
          (ER_AccountDeviceID typed) (ER_VideoCloudDevid typed) (ER_PlatformEntitlementRevision typed)
          "entitlement_update_failed" reason false now))
    | _ => None
    end.

(** The members of a result payload's struct, in field order.  The ids come out of decoded JSON and
    are valid UTF-8; the message may have been cut inside a rune. *)
Definition result_members (p : Payload) : list (string * any) :=
  let ids org device devid :=
    [("org_id", AString org); ("account_device_id", AString device); ("video_cloud_devid", AString devid)] in
  let failure code message (retryable : bool) at_ :=
    [("error_code", AString code); ("error_message", AString (json_string message));
     ("retryable", ABool retryable); ("failed_at", AString (time_text at_))] in
  match p with
  | ProvisionSucceeded p => ids (PS_OrgID p) (PS_AccountDeviceID p) (PS_VideoCloudDevid p) ++
      [("activity_id", AString (PS_ActivityID p)); ("activated_at", AString (time_text (PS_ActivatedAt p)))]
  | ProvisionFailed p => ids (PF_OrgID p) (PF_AccountDeviceID p) (PF_VideoCloudDevid p) ++
      [("activity_id", AString (PF_ActivityID p))] ++
      failure (PF_ErrorCode p) (PF_ErrorMessage p) (PF_Retryable p) (PF_FailedAt p)
  | DeactivateSucceeded p => ids (DS_OrgID p) (DS_AccountDeviceID p) (DS_VideoCloudDevid p) ++
      member_string "activity_id" (DS_ActivityID p) ++
      [("deactivated_at", AString (time_text (DS_DeactivatedAt p)))]
  | DeactivateFailed p => ids (DF_OrgID p) (DF_AccountDeviceID p) (DF_VideoCloudDevid p) ++
      member_string "activity_id" (DF_ActivityID p) ++
      failure (DF_ErrorCode p) (DF_ErrorMessage p) (DF_Retryable p) (DF_FailedAt p)
  | UnprovisionSucceeded p => ids (US_OrgID p) (US_AccountDeviceID p) (US_VideoCloudDevid p) ++
      [("unprovisioned_at", AString (time_text (US_UnprovisionedAt p)))]
  | UnprovisionFailed p => ids (UF_OrgID p) (UF_AccountDeviceID p) (UF_VideoCloudDevid p) ++
      failure (UF_ErrorCode p) (UF_ErrorMessage p) (UF_Retryable p) (UF_FailedAt p)
  | EntitlementSnapshotSucceeded p => ids (ES_OrgID p) (ES_AccountDeviceID p) (ES_VideoCloudDevid p) ++
      [("platform_entitlement_revision", AInt (ES_PlatformEntitlementRevision p));
       ("applied_at", AString (time_text (ES_AppliedAt p)))]
  | EntitlementSnapshotFailed p => ids (EF_OrgID p) (EF_AccountDeviceID p) (EF_VideoCloudDevid p) ++
      [("platform_entitlement_revision", AInt (EF_PlatformEntitlementRevision p))] ++
      failure (EF_ErrorCode p) (EF_ErrorMessage p) (EF_Retryable p) (EF_FailedAt p)
  | _ => []
  end.

(** [json.Marshal(result)]; every result payload has one time, [now]. *)
Definition marshal_result (p : Payload) (now : Time) : res RawMessage :=
  if marshalable now then let v := AMap (result_members p) in Ok (RawValue (json_text v) v)
  else Err (ErrText "Time.MarshalJSON: year outside of range [0,9999]").

Definition resultEnvelope (request : Envelope) (payload : Payload) (now : Time) (response : HTTPResponse)
    : res Envelope :=
  let '(messageType, result) :=
    match result_payload payload now response with
    | Some (messageType, result) => (messageType, marshal_result result now)
    | None => ("", Ok (RawValue "null" ANil))
    end in
  payloadJSON ← result;
  let envelope := mkEnvelope (MessageID request +:+ "-result") (CorrelationID request)
    (MessageID request) (OperationID request) ServiceRealtekVideoCloud ServiceAccountManager
    messageType SchemaVersionV1 (PartitionKey request) now payloadJSON in
  _ ← ValidateAndDecode envelope StreamVideoAccountEvents;
  Ok envelope.

(** ** Publish *)

Section publisher.
Context {S : Type} `{Environment S, VideoAPI S}.
(** [project]: the function the result is handed to. *)
Context (p : HTTPPublisher) (project : Message → M S unit).

(** From the response on. *)
Definition publish_result (envelope : Envelope) (payload : Payload) (response : HTTPResponse) : M S unit :=
  t ← time_Now;
  lift_res (response_check response (OperationID envelope) payload) ;;
  result ← lift_res (resultEnvelope envelope payload (UTC t) response);
  projected ← attempt (project (mkMessage StreamVideoAccountEvents result));
  match projected with
  | Err err => throw (ErrPublish (ErrWrap "project video lifecycle result" err) true)
  | Ok _ => mret tt
  end.

Definition direct_Publish (stream_ : string) (envelope : Envelope) : M S unit :=
  if negb (bool_decide (stream_ = StreamAccountVideoCommands))
  then throw (ErrText ("direct lifecycle publisher does not support stream " +:+ quote stream_))
  else
    payload ← lift_res (ValidateAndDecode envelope stream_);
    request ← lift_res (directRequest payload (OperationID envelope));
    response ← attempt (client_Do (request_of p request));
    match response with
    | Err err => throw (ErrPublish (ErrWrap "call video lifecycle API" err) true)
    | Ok response => publish_result envelope payload response
    end.
End publisher.

(** ** projectWithInbox: the inbox worker on a consumer of one message *)

(** [singleMessageConsumer] *)
Record SingleMessageConsumer := mkSingleMessage { single_message : Message; single_done : bool }.

Section single_message.
Context {S : Type} `{Environment S, InboxStore S}.

(** A step of the store, next to the consumer. *)
Definition beside {A} (m : M S A) : M (S * SingleMessageConsumer) A := λ '(s, c),
  let '(r, s') := m s in (r, (s', c)).

#[local] Instance single_environment : Environment (S * SingleMessageConsumer) := {
  ctx_Err := beside ctx_Err;
  time_Now := beside time_Now;
  sleepContext := λ d, beside (sleepContext d);
}.
#[local] Instance single_store : InboxStore (S * SingleMessageConsumer) := {
  store_CreateOrGetInboxMessage := λ input, beside (store_CreateOrGetInboxMessage input);
  store_GetDeviceOperation := λ id, beside (store_GetDeviceOperation id);
  store_RecordInboxProcessTransition := λ input, beside (store_RecordInboxProcessTransition input);
}.
(** The message has no [ack], so acknowledging it does nothing. *)
#[local] Instance single_consumer : Consumer (S * SingleMessageConsumer) := {
  Receive := λ _ '(s, c),
    if single_done c then (Ok [], (s, c))
    else (Ok [single_message c], (s, mkSingleMessage (single_message c) true));
  Acknowledge := λ _ sc, (Ok tt, sc);
}.

Definition stats_text (s : InboxStats) : string :=
  "{Received:" +:+ dec_text (Received s) +:+ " Processed:" +:+ dec_text (Processed s)
  +:+ " Retrying:" +:+ dec_text (IStats_Retrying s) +:+ " DeadLettered:" +:+ dec_text (IStats_DeadLettered s)
  +:+ " Skipped:" +:+ dec_text (Skipped s) +:+ "}".

Definition direct_inbox (maxAttempts : Z) : InboxService :=
  NewInboxService (mkInboxOptions StreamVideoAccountEvents maxAttempts 0 0).

Definition projectWithInbox (maxAttempts : Z) (message : Message) : M S unit := λ s,
  let '(r, (s', _)) := inbox_RunOnce buildTransitionForPayload (direct_inbox maxAttempts)
                         (s, mkSingleMessage message false) in
  (match r with
   | Err err | Ok (_, Some err) => Err err
   | Ok (stats, None) =>
       if negb (Processed stats =? 1) && negb (Skipped stats =? 1)
       then Err (ErrText ("video lifecycle result was not processed: " +:+ stats_text stats))
       else Ok tt
   end, s').
End single_message.

(** ** The consumer of one message *)

Create HintDb besides.

Section single_message_runs.
Context {S : Type} `{Environment S, InboxStore S}.

(** The same steps, next to the consumer. *)
Definition besides {A} (m' : M (S * SingleMessageConsumer) A) (m : M S A) : Prop :=
  ∀ sc, m' sc = beside m sc.

Lemma besides_beside {A} (m : M S A) : besides (beside m) m.
Proof. done. Qed.
Lemma besides_ret {A} (a : A) : besides (mret a) (mret a).
Proof. by intros [s c]. Qed.
Lemma besides_throw {A} e : besides (throw (A:=A) e) (throw e).
Proof. by intros [s c]. Qed.
Lemma besides_bind {A B} (m' : M _ A) (m : M S A) (f' : A → M _ B) (f : A → M S B) :
  besides m' m → (∀ a, besides (f' a) (f a)) → besides (m' ≫= f') (m ≫= f).
Proof.
  intros Hm Hf [s c]. unfold mbind, M_bind, beside at 1. rewrite Hm. unfold beside.
  destruct (m s) as [[a|e] s']; [|done]. rewrite Hf. done.
Qed.
Lemma besides_attempt {A} (m' : M _ A) (m : M S A) : besides m' m → besides (attempt m') (attempt m).
Proof.
  intros Hm [s c]. unfold attempt, beside. rewrite Hm. unfold beside. by destruct (m s) as [[a|e] s'].
Qed.

#[local] Hint Resolve besides_beside besides_ret besides_throw : besides.
#[local] Ltac besides_step := first
  [ solve [eauto with besides]
  | apply besides_bind; [|intros ?]
  | apply besides_attempt
  | case_match ].

#[local] Existing Instance single_environment.
#[local] Existing Instance single_store.
#[local] Existing Instance single_consumer.

Lemma besides_now : besides time_Now time_Now. Proof. done. Qed.
Lemma besides_get id : besides (store_GetDeviceOperation id) (store_GetDeviceOperation id). Proof. done. Qed.
Lemma besides_insert input :
  besides (store_CreateOrGetInboxMessage input) (store_CreateOrGetInboxMessage input).
Proof. done. Qed.
Lemma besides_record input :
  besides (store_RecordInboxProcessTransition input) (store_RecordInboxProcessTransition input).
Proof. done. Qed.
#[local] Hint Resolve besides_now besides_get besides_insert besides_record : besides.

Lemma besides_time : besides inbox_currentTime inbox_currentTime.
Proof. unfold inbox_currentTime. repeat besides_step. Qed.
#[local] Hint Resolve besides_time : besides.
Lemma besides_create input : besides (createInboxMessage input) (createInboxMessage input).
Proof. unfold createInboxMessage. repeat besides_step. Qed.
Lemma besides_dead m n cause : besides (dead_letter m n cause) (dead_letter m n cause).
Proof. unfold dead_letter, answer, inbox_recordDeadLetter. repeat besides_step. Qed.
Lemma besides_mark m n st : besides (answer (markProcessedWithoutProjection m n) st)
  (answer (markProcessedWithoutProjection m n) st).
Proof. unfold answer, markProcessedWithoutProjection. repeat besides_step. Qed.
Lemma besides_retry m n e st : besides (answer (inbox_recordRetry m n e) st)
  (answer (inbox_recordRetry m n e) st).
Proof. unfold answer, inbox_recordRetry. repeat besides_step. Qed.
Lemma besides_result m n tr : besides (record_result m n tr) (record_result m n tr).
Proof. unfold record_result. repeat besides_step. Qed.
#[local] Hint Resolve besides_create besides_dead besides_mark besides_retry besides_result : besides.

Lemma besides_process tr svc record :
  besides (processMessage tr svc record) (processMessage tr svc record).
Proof.
  unfold processMessage, receivedAt. apply besides_bind; [repeat besides_step|intros at_].
  apply besides_bind; [auto with besides|]. intros [m created].
  case_match; [auto with besides|]. unfold process_registered. repeat besides_step.
Qed.

(** Projecting a result is checking the context and handling the record. *)
Lemma projectWithInbox_run n message s :
  projectWithInbox n message s =
    (ctx_Err ;;
     outcome ← processMessage buildTransitionForPayload (direct_inbox n) message;
     match outcome with
     | None | Some DeviceMessageInboxStatusProcessed => mret tt
     | _ => throw (ErrText ("video lifecycle result was not processed: "
              +:+ stats_text (count_inbox outcome (mkInboxStats 1 0 0 0 0))))
     end) s.
Proof.
  unfold projectWithInbox, inbox_RunOnce, attempt, mbind, M_bind. simpl.
  unfold beside, attempt, mbind, M_bind. destruct (ctx_Err s) as [[[]|e] s1] eqn:E1; simpl; [|done].
  rewrite besides_process. unfold beside.
  destruct (processMessage _ _ _ s1) as [[o|e] s2]; simpl; [|done].
  destruct o as [[]|]; done.
Qed.
End single_message_runs.

(** ** Results are accepted *)

(** Text that ends in a printable character is not blank. *)
Lemma printable_last c : printable c = true →
  ascii_space c = false ∧ (∀ a, space2 a c = false) ∧ ∀ a b, space3 a b c = false.
Proof.
  intros Hc. destruct (printable_not_space c c c Hc Hc Hc) as (? & _). split; [done|].
  unfold printable, byte_in in Hc. rewrite andb_true_iff, !N.leb_le in Hc.
  split; intros; apply not_true_iff_false; unfold space2, space3, byte_is, byte_in;
    repeat rewrite ?orb_true_iff, ?andb_true_iff; rewrite ?N.eqb_eq, ?N.leb_le; lia.
Qed.

Lemma strip_head_last l c r : printable c = true →
  strip_head space2 space3 (l ++ [c]) = Some r → ∃ l', r = l' ++ [c].
Proof.
  intros (Ha & H2 & H3)%printable_last. destruct l as [|a [|b [|d l]]]; simpl; rewrite ?Ha, ?H2, ?H3.
  - done.
  - destruct (ascii_space a); [|done]. intros [= <-]. by exists [].
  - destruct (ascii_space a); [intros [= <-]; by exists [b]|].
    destruct (space2 a b); [|done]. intros [= <-]. by exists [].
  - destruct (ascii_space a); [intros [= <-]; by exists (b :: d :: l)|].
    destruct (space2 a b); [intros [= <-]; by exists (d :: l)|].
    destruct (space3 a b d); [|done]. intros [= <-]. by exists l.
Qed.

Lemma trim_left_last l c : printable c = true → ∃ l', trim_left (l ++ [c]) = l' ++ [c].
Proof.
  intros Hc. unfold trim_left. generalize (length (l ++ [c])). intros fuel. revert l.
  induction fuel as [|fuel IH]; intros l; simpl; [by eexists|].
  destruct (strip_head _ _ (l ++ [c])) as [r|] eqn:E; [|by eexists].
  apply strip_head_last in E as [l' ->]; [|done]. apply IH.
Qed.

Lemma blank_last l c : printable c = true → blank (of_bytes (l ++ [c])) = false.
Proof.
  intros Hc. unfold blank. apply bool_decide_eq_false. unfold TrimSpace. rewrite to_of_bytes.
  destruct (trim_left_last l c Hc) as [l' ->]. rewrite trim_right_fixed.
  - unfold of_bytes. by destruct l'.
  - rewrite reverse_app. simpl. apply printable_last in Hc as (-> & H2 & H3).
    destruct (reverse l') as [|a [|b r]]; simpl; [done| |]; rewrite H2; [done|by rewrite H3].
Qed.

Lemma result_id_not_blank id : blank (id +:+ "-result") = false.
Proof.
  replace (id +:+ "-result") with (of_bytes (to_bytes (id +:+ "-resul") ++ ["t"%char]));
    [by apply blank_last|].
  induction id as [|c id IH]; [done|]. exact (f_equal (String c) IH).
Qed.

(** Whole numbers decoded from JSON fit [int64]. *)
Definition ints_in_range (t : fields) : Prop :=
  ∀ name z, t !! name = Some (AInt z) → int64_range z = true.

Lemma ints_insert name v t : ints_in_range t → (∀ z, v = AInt z → int64_range z = true) →
  ints_in_range (<[name := v]> t).
Proof.
  intros Ht Hv n z Hz. destruct (decide (n = name)) as [->|].
  - rewrite lookup_insert_eq in Hz. injection Hz as ->. by apply Hv.
  - rewrite lookup_insert_ne in Hz by done. by eapply Ht.
Qed.
Lemma ints_delete name t : ints_in_range t → ints_in_range (delete name t).
Proof. intros Ht n z Hz. apply lookup_delete_Some in Hz as [_ Hz]. by eapply Ht. Qed.

Lemma decode_field_ints name k v t t' : k ≠ KRaw → ints_in_range t →
  decode_field name k v t = Ok t' → ints_in_range t'.
Proof.
  intros Hk Ht H. unfold decode_field in H.
  destruct k, v; unfold type_error in H; try discriminate H; try done;
    repeat match type of H with
    | (if ?b then _ else _) = _ => destruct b eqn:?
    | match ?x with _ => _ end = _ => destruct x eqn:?
    end; try discriminate H;
    try (apply res_bind_ok in H as (? & _ & H));
    injection H as <-; try done; first [apply ints_delete | apply ints_insert]; try done; naive_solver.
Qed.

Lemma decode_members_ints sc ms t t' : Forall (λ f, f.2 ≠ KRaw) sc → ints_in_range t →
  decode_members sc ms t = Ok t' → ints_in_range t'.
Proof.
  intros Hsc. revert t. induction ms as [|[key v] ms IH]; intros t Ht; simpl; [by intros [= <-]|].
  destruct (find_field sc key) as [[name k]|] eqn:E; [|done]. intros H.
  apply res_bind_ok in H as (t1 & H1 & H). apply (IH t1); [|done].
  eapply decode_field_ints; [|done..]. clear -Hsc E. rewrite Forall_forall in Hsc.
  unfold find_field in E. 
  assert (∀ (P : string * field_kind → Prop) `{∀ x, Decision (P x)} i f, list_find P sc = Some (i, f) → f.2 ≠ KRaw) as Hf.
  { intros P ? i f Hl. apply list_find_Some in Hl as (Hl & _). by eapply Hsc, list_elem_of_lookup_2. }
  destruct (list_find _ sc) as [[i f]|] eqn:E1; [injection E as ->; by apply Hf in E1|].
  destruct (list_find (λ f, fold_name f.1 = fold_name key) sc) as [[i f]|] eqn:E2; [|done].
  injection E as ->. by apply Hf in E2.
Qed.

Lemma accepted_ValidateAndDecode e s p spec :
  raw_text (Envelope_Payload e) ≠ "" → accepted e s p spec → ValidateAndDecode e s = Ok p.
Proof.
  intros Hraw []. unfold ValidateAndDecode. rewrite !Forall_cons in acc_ids.
  autorewrite with checks. rewrite acc_spec. split_and!; try tauto; [by rewrite bool_decide_false by done|].
  rewrite bool_decide_true by done. cbn [negb]. unfold mbind, res_bind.
  assert (negb (bool_decide (s = "")) && negb (bool_decide (s = stream spec)) = false) as ->.
  { destruct acc_stream as [-> | ->]; [done|]. rewrite (bool_decide_true (stream spec = stream spec)) by done.
    by rewrite andb_false_r. }
  rewrite !bool_decide_true by done. cbn [negb]. rewrite acc_fields, acc_decode, acc_valid.
  by rewrite bool_decide_true by done.
Qed.

(** What the inbox decodes: the struct, with its message as JSON carries it. *)
Definition as_received (p : Payload) : Payload :=
  match p with
  | ProvisionFailed p => ProvisionFailed (mkProvisionFailed (PF_OrgID p) (PF_AccountDeviceID p)
      (PF_VideoCloudDevid p) (PF_ActivityID p) (PF_ErrorCode p) (json_string (PF_ErrorMessage p))
      (PF_Retryable p) (PF_FailedAt p))
  | DeactivateFailed p => DeactivateFailed (mkDeactivateFailed (DF_OrgID p) (DF_AccountDeviceID p)
      (DF_VideoCloudDevid p) (DF_ActivityID p) (DF_ErrorCode p) (json_string (DF_ErrorMessage p))
      (DF_Retryable p) (DF_FailedAt p))
  | UnprovisionFailed p => UnprovisionFailed (mkUnprovisionFailed (UF_OrgID p) (UF_AccountDeviceID p)
      (UF_VideoCloudDevid p) (UF_ErrorCode p) (json_string (UF_ErrorMessage p)) (UF_Retryable p)
      (UF_FailedAt p))
  | EntitlementSnapshotFailed p => EntitlementSnapshotFailed (mkEntitlementSnapshotFailed (EF_OrgID p)
      (EF_AccountDeviceID p) (EF_VideoCloudDevid p) (EF_PlatformEntitlementRevision p) (EF_ErrorCode p)
      (json_string (EF_ErrorMessage p)) (EF_Retryable p) (EF_FailedAt p))
  | p => p
  end.

(** Decoding one member after the other. *)
Lemma decode_member sc k v n kd ms t t1 r :
  find_field sc k = Some (n, kd) → decode_field n kd v t = Ok t1 → decode_members sc ms t1 = r →
  decode_members sc ((k, v) :: ms) t = r.
Proof. intros H1 H2 H3. simpl. by rewrite H1, H2. Qed.

Lemma decode_time_member sc k now n ms t r : marshalable now = true → t_offset now = 0 →
  find_field sc k = Some (n, KTime) → decode_members sc ms (<[n := ATime now]> t) = r →
  decode_members sc ((k, AString (time_text now)) :: ms) t = r.
Proof.
  intros Hm Ho H1 H2. eapply decode_member; [done| |done]. unfold decode_field.
  by rewrite parse_time_text by (done || by rewrite Ho).
Qed.

Lemma decode_int_member sc k z n ms t r : int64_range z = true →
  find_field sc k = Some (n, KInt64) → decode_members sc ms (<[n := AInt z]> t) = r →
  decode_members sc ((k, AInt z) :: ms) t = r.
Proof. intros Hz H1 H2. eapply decode_member; [done| |done]. unfold decode_field. by rewrite Hz. Qed.

Ltac decode_result :=
  repeat first
    [ eapply decode_time_member; [eassumption|eassumption|reflexivity|]
    | eapply decode_int_member; [eassumption|reflexivity|]
    | eapply decode_member; [reflexivity|reflexivity|] ].

Lemma decode_result_members messageType payload now response result spec :
  result_payload payload now response = Some (messageType, result) →
  spec_for messageType = Some spec →
  marshalable now = true → t_offset now = 0 →
  match payload with
  | EntitlementSnapshotRequested p => int64_range (ER_PlatformEntitlementRevision p) = true
  | _ => True
  end →
  ∃ t, decode_members (payload_schema (newPayload spec)) (result_members result) ∅ = Ok t ∧
    payload_of (newPayload spec) t = as_received result.
Proof.
  unfold result_payload. intros Hr Hs Hm Ho Hz. destruct (success_code _), payload; try done;
    injection Hr as <- <-; vm_compute in Hs; injection Hs as <-;
    cbn [result_members payload_schema ids failure as_received app];
    unfold member_string; try case_bool_decide as Ha;
    (eexists; split; [cbn [app]; decode_result; reflexivity|]);
    first [reflexivity | cbn [DS_ActivityID DF_ActivityID] in Ha; rewrite Ha; reflexivity].
Qed.

Lemma failureReason_head response :
  strip_head space2 space3 (to_bytes (failureReason response)) = None ∧
  to_bytes (failureReason response) ≠ [].
Proof.
  unfold failureReason. set (reported := match unmarshal_struct _ _ with Ok d => _ | Err _ => _ end).
  case_bool_decide as Hr; [split; [reflexivity|done]|].
  assert (strip_head space2 space3 (to_bytes reported) = None ∧ to_bytes reported ≠ []) as [Hs Hn].
  { unfold reported in *. destruct (unmarshal_struct _ _) as [decoded|err]; [|done].
    apply TrimSpace_head. unfold blank. by apply bool_decide_eq_false. }
  clearbody reported. unfold truncate. destruct (_ <=? 512); [done|].
  rewrite to_of_bytes. change (Z.to_nat 512) with (S 511). destruct (to_bytes reported) as [|c l] eqn:E; [done|].
  split; [|done]. destruct (strip_head space2 space3 (take (S 511) (c :: l))) as [x|] eqn:Ex; [|done].
  apply (strip_head_app _ _ _ _ (drop (S 511) (c :: l))) in Ex as [y Ey]. rewrite take_drop in Ey. congruence.
Qed.

Lemma failureReason_not_blank response : blank (json_string (failureReason response)) = false.
Proof. apply json_string_not_blank; apply failureReason_head. Qed.

(** What the checks of a command say about the members its result repeats. *)
Definition command_facts (org device devid : string) : Prop :=
  ((blank org = false ∧ isUUID org = true) ∧ blank device = false ∧ isUUID device = true) ∧
  blank devid = false.

Ltac open_checks H :=
  repeat first
    [ apply res_seq_ok in H; destruct H as [? H]
    | match goal with
      | E : validateLifecyclePayloadIDs _ _ = Ok tt |- _ => apply validateLifecyclePayloadIDs_ok in E
      | E : requireNonBlank _ _ = Ok tt |- _ => apply requireNonBlank_ok in E
      | E : validateRequiredStrings (_ :: _) = Ok tt |- _ => cbn [validateRequiredStrings] in E
      | E : (_ ≫= _) = Ok tt |- _ => apply res_seq_ok in E; destruct E
      end ].

Lemma provision_facts p : DeviceProvisionRequestedPayload_Validate p = Ok tt →
  command_facts (PR_OrgID p) (PR_AccountDeviceID p) (PR_VideoCloudDevid p) ∧ blank (PR_ActivityID p) = false.
Proof. unfold DeviceProvisionRequestedPayload_Validate. intros H. open_checks H. unfold command_facts. tauto. Qed.
Lemma deactivate_facts p : DeviceDeactivateRequestedPayload_Validate p = Ok tt →
  command_facts (DR_OrgID p) (DR_AccountDeviceID p) (DR_VideoCloudDevid p).
Proof. unfold DeviceDeactivateRequestedPayload_Validate. intros H. open_checks H. unfold command_facts. tauto. Qed.
Lemma unprovision_facts p : DeviceUnprovisionRequestedPayload_Validate p = Ok tt →
  command_facts (UR_OrgID p) (UR_AccountDeviceID p) (UR_VideoCloudDevid p).
Proof. unfold DeviceUnprovisionRequestedPayload_Validate. intros H. open_checks H. unfold command_facts. tauto. Qed.
Lemma entitlement_facts p : DeviceEntitlementSnapshotRequestedPayload_Validate p = Ok tt →
  command_facts (ER_OrgID p) (ER_AccountDeviceID p) (ER_VideoCloudDevid p) ∧
  (ER_PlatformEntitlementRevision p <? 1) = false.
Proof.
  unfold DeviceEntitlementSnapshotRequestedPayload_Validate. intros H. open_checks H.
  split; [unfold command_facts; tauto|]. destruct (ER_PlatformEntitlementRevision p <? 1) eqn:E; [|done].
  exfalso. repeat match goal with E' : (if _ || true then _ else _) = _ |- _ => rewrite orb_true_r in E'; done end.
Qed.

(** Checks that hold. *)
Lemma seq_intro {A} (r : res unit) (k : res A) b : r = Ok tt → k = Ok b → (r ;; k) = Ok b.
Proof. by intros -> ->. Qed.
Ltac close_checks :=
  repeat lazymatch goal with
    | |- validateLifecyclePayloadIDs _ _ = _ => apply validateLifecyclePayloadIDs_ok
    | |- requireNonBlank _ _ = _ => apply requireNonBlank_ok
    | |- requireSet _ _ = _ => apply requireSet_ok
    | |- validateUTC _ _ = _ => apply validateUTC_ok
    | |- (_ ≫= _) = _ => apply seq_intro
    | |- validateRequiredStrings _ = _ => cbn [validateRequiredStrings]
    | |- Ok tt = _ => reflexivity
    end.

(** The checks of a command are enough for its result. *)
Lemma result_payload_valid payload now response messageType result :
  Payload_Validate payload = Ok tt → t_offset now = 0 → IsZero now = false →
  result_payload payload now response = Some (messageType, result) →
  Payload_Validate (as_received result) = Ok tt ∧
  Payload_PartitionKey (as_received result) = Payload_PartitionKey payload.
Proof.
  intros Hv Ho Hz. pose proof (failureReason_not_blank response) as Hb. unfold result_payload.
  destruct (success_code _), payload as [p|p|p|p|p|p|p|p|p|p|p|p|p|p]; try discriminate;
    intros [= <- <-]; (split; [|reflexivity]); cbn [as_received Payload_Validate] in *;
    lazymatch type of Hv with
    | DeviceProvisionRequestedPayload_Validate _ = _ =>
        apply provision_facts in Hv as [[[[? ?] [? ?]] ?] Ha]
    | DeviceDeactivateRequestedPayload_Validate _ = _ => apply deactivate_facts in Hv as [[[? ?] [? ?]] ?]
    | DeviceUnprovisionRequestedPayload_Validate _ = _ =>
        apply unprovision_facts in Hv as [[[? ?] [? ?]] ?]
    | _ => apply entitlement_facts in Hv as [[[[? ?] [? ?]] ?] Ha]
    end;
    match goal with |- ?f _ = _ => unfold f end;
    try (cbn [ES_PlatformEntitlementRevision EF_PlatformEntitlementRevision ES_AppliedAt EF_FailedAt];
         rewrite Hz, Ha; cbn [orb]);
    close_checks; first [assumption | by split_and! | reflexivity].
Qed.

(** The revision in a decoded command is an [int64]. *)
Lemma entitlement_revision_range e s p :
  ValidateAndDecode e s = Ok (EntitlementSnapshotRequested p) →
  int64_range (ER_PlatformEntitlementRevision p) = true.
Proof.
  intros H. pose proof H as (spec & Ha)%ValidateAndDecode_accepted.
  apply ValidateAndDecode_sound in H as (Ht & _). pose proof (acc_spec _ _ _ _ Ha) as Hs.
  rewrite <-Ht in Hs. vm_compute in Hs. injection Hs as <-.
  pose proof (acc_decode _ _ _ _ Ha) as Hd. unfold decodeStrictJSON_payload in Hd.
  destruct (Envelope_Payload e) as [text v|]; [|done]. apply res_bind_ok in Hd as (t & Hd & [= <-]).
  cbn [ER_PlatformEntitlementRevision]. unfold get_int, get_int_ptr.
  assert (ints_in_range t) as Hr.
  { unfold decode_struct in Hd. destruct v; try done; [injection Hd as <-|].
    - intros name z. by rewrite lookup_empty.
    - eapply decode_members_ints; [|intros name z; by rewrite lookup_empty|exact Hd].
      repeat constructor; done. }
  destruct (t !! "platform_entitlement_revision") as [[]|] eqn:E; try done. by eapply Hr.
Qed.

Lemma result_accepted e payload now response :
  ValidateAndDecode e StreamAccountVideoCommands = Ok payload →
  marshalable now = true → t_offset now = 0 → IsZero now = false →
  ∃ result messageType event,
    resultEnvelope e payload now response = Ok result ∧
    result_payload payload now response = Some (messageType, event) ∧
    ValidateAndDecode result StreamVideoAccountEvents = Ok (as_received event) ∧
    Envelope_MessageType result = messageType ∧ MessageID result = MessageID e +:+ "-result" ∧
    CausationID result = MessageID e ∧ OperationID result = OperationID e ∧
    PartitionKey result = PartitionKey e.
Proof.
  intros Hv Hm Ho Hz. pose proof Hv as (spec & Ha)%ValidateAndDecode_accepted.
  pose proof (ValidateAndDecode_sound _ _ _ Hv) as (Ht & _ & _ & _ & _ & Hid & Hcorr & Hop & Hpv & Hkey & _).
  assert (∃ mt event spec', result_payload payload now response = Some (mt, event) ∧
    spec_for mt = Some spec' ∧ stream spec' = StreamVideoAccountEvents ∧
    sourceService spec' = ServiceRealtekVideoCloud ∧ targetService spec' = ServiceAccountManager ∧
    blank mt = false ∧ requireJSONFields (RawValue "" (AMap (result_members event))) "payload"
      (requiredJSONFields spec') = Ok tt) as (mt & event & spec' & Hr & Hs & Hst & Hsrc & Htgt & Hmt & Hreq).
  { pose proof (acc_spec _ _ _ _ Ha) as Hs. rewrite <-Ht in Hs. pose proof (acc_stream _ _ _ _ Ha) as Hst.
    unfold result_payload. destruct payload; vm_compute in Hs; injection Hs as <-;
      destruct Hst as [Hst|Hst]; try discriminate Hst;
      destruct (success_code _); (do 3 eexists; split; [reflexivity|]);
      (split; [vm_compute; reflexivity|]); split_and!; try reflexivity;
      
      cbn [result_members DF_ActivityID]; unfold member_string;
      try (match goal with |- context [bool_decide (DR_ActivityID ?p = "")] =>
             destruct (bool_decide (DR_ActivityID p = "")) end); reflexivity. }
  destruct (result_payload_valid _ _ _ _ _ Hpv Ho Hz Hr) as [Hev Hek].
  destruct (decode_result_members _ _ _ _ _ _ Hr Hs Hm Ho) as (t & Hd & Ht').
  { destruct payload; try done. by eapply entitlement_revision_range. }
  unfold resultEnvelope. rewrite Hr. unfold marshal_result. rewrite Hm. cbn [mbind res_bind].
  set (result := mkEnvelope _ _ _ _ _ _ _ _ _ _ _).
  assert (ValidateAndDecode result StreamVideoAccountEvents = Ok (as_received event)) as Hval.
  { apply (accepted_ValidateAndDecode _ _ _ spec'); [subst result; cbn; done|].
    constructor; subst result; cbn [MessageID CorrelationID CausationID OperationID SourceService TargetService
      Envelope_MessageType SchemaVersion PartitionKey OccurredAt Envelope_Payload]; try done.
    - pose proof (acc_ids _ _ _ _ Ha) as Hids. rewrite !Forall_cons in Hids.
      rewrite !Forall_cons. split_and!; try done; try tauto. apply result_id_not_blank.
    - by right.
    - unfold decodeStrictJSON_payload, decode_struct. rewrite Hd. cbn. by rewrite Ht'.
    - by rewrite Hek. }
  rewrite Hval. cbn. do 3 eexists. split_and!; done.
Qed.

(** C29: Whatever the Video Cloud answers to an accepted command becomes an event the inbox accepts: of
    the type the status calls for, about the same operation and device, caused by the command, and
    it decodes to the outcome that was sent, with the reported reason as JSON carries it. *)
Theorem resultEnvelope_accepted e payload now response :
  ValidateAndDecode e StreamAccountVideoCommands = Ok payload →
  marshalable now = true → t_offset now = 0 → IsZero now = false →
  ∃ result messageType event,
    resultEnvelope e payload now response = Ok result ∧
    result_payload payload now response = Some (messageType, event) ∧
    ValidateAndDecode result StreamVideoAccountEvents = Ok (as_received event) ∧
    Envelope_MessageType result = messageType ∧ MessageID result = MessageID e +:+ "-result" ∧
    CausationID result = MessageID e ∧ OperationID result = OperationID e ∧
    PartitionKey result = PartitionKey e.
Proof. apply result_accepted. Qed.

(** ** What a projection that succeeds has done *)

(** Handling an event that reports an operation: when the outcome is [processed], the operation was
    complete before, or has the status the event reports. *)
Lemma process_registered_reports svc record m w payload tr status w' :
  Message_Stream record = IS_stream svc →
  ValidateAndDecode (Message_Envelope record) (IS_stream svc) = Ok payload →
  buildTransitionForPayload (Message_Envelope record) payload = Ok tr →
  IT_OperationStatus tr = Some status →
  process_registered buildTransitionForPayload svc record m w =
    (Ok (Some DeviceMessageInboxStatusProcessed), w') →
  device_message_inbox (w_db w) !! Inbox_MessageID m = Some m →
  ∃ o', device_operations (w_db w') !! Inbox_OperationID m = Some o' ∧
    ((device_operations (w_db w) !! Inbox_OperationID m = Some o' ∧
      isCompletedLifecycleOperation o' = true) ∨ DeviceOperation_Status o' = status).
Proof.
  intros Hs Hv Ht Hst Hr Hm. unfold process_registered in Hr.
  rewrite bool_decide_true in Hr by done. cbn [negb] in Hr. rewrite Hv, Ht in Hr.
  rewrite (bool_decide_true (is_Some _)) in Hr by (rewrite Hst; by eexists).
  unfold mbind, M_bind, attempt in Hr. rewrite GetDeviceOperation_world in Hr.
  set (w1 := w_with_db _ _) in Hr.
  assert (∀ x, record_result m (Inbox_AttemptCount m + 1) tr w1 = (Ok x, w') →
    ∃ o', device_operations (w_db w') !! Inbox_OperationID m = Some o' ∧ DeviceOperation_Status o' = status)
    as Hrec.
  { intros x E. unfold record_result in E. apply bind_ok in E as (t & w2 & E1 & E).
    apply bind_ok in E as (? & w3 & E2 & E). unfold mret, M_ret in E. injection E as _ <-.
    assert (w_db w2 = w_db w1) as Hw2.
    { unfold inbox_currentTime, mbind, M_bind in E1. simpl in E1. by injection E1 as _ <-. }
    apply in_db_run in E2 as (db' & E2 & ->).
    apply RecordInboxProcessTransition_ok in E2 as (m' & ops & devs & Hm' & _ & Hops & _ & _ & ->).
    simpl in Hm', Hops. rewrite Hw2 in Hm', Hops. unfold w1 in Hm'. simpl in Hm'. rewrite Hm in Hm'.
    injection Hm' as <-. simpl. inversion Hops as [Hn|st o Hso ? ? ? ?]; subst.
    - simpl in Hn. congruence.
    - rewrite lookup_insert_eq. eexists. split; [done|]. simpl in *. congruence. }
  destruct (device_operations (w_db w) !! Inbox_OperationID m) as [o|] eqn:Ho.
  - destruct (negb _); [by apply answer_ok in Hr|].
    destruct (isCompletedLifecycleOperation o) eqn:Hc.
    + exists o. unfold answer in Hr. apply (steps_bind (on_db results_kept)) in Hr.
      * destruct Hr as [Hops _]. simpl in Hops. rewrite Hops. auto.
      * apply mark_steps; [typeclasses eauto|apply (clock_on_db results_kept)|apply World_message_steps].
      * intros _. apply steps_ret. typeclasses eauto.
    + destruct (Hrec _ Hr) as (o' & ? & ?). eauto.
  - cbn in Hr. destruct (Hrec _ Hr) as (o' & ? & ?). eauto.
Qed.

Lemma process_registered_answers tr svc record m (w w' : World) :
  process_registered tr svc record m w ≠ (Ok None, w').
Proof.
  intros E. unfold process_registered in E.
  repeat first
    [ apply answer_ok in E; done
    | apply record_result_ok in E; done
    | discriminate E
    | match type of E with
      | (if ?b then _ else _) _ = _ => destruct b
      | (match ?x with Ok _ => _ | Err _ => _ end) _ = _ => destruct x
      | (_ ≫= _) _ = _ => apply bind_ok in E as (? & ? & _ & E)
      end ].
Qed.

Lemma projectWithInbox_reports n record w payload tr status w' :
  inbox_rows_keyed (device_message_inbox (w_db w)) →
  Message_Stream record = StreamVideoAccountEvents →
  ValidateAndDecode (Message_Envelope record) StreamVideoAccountEvents = Ok payload →
  buildTransitionForPayload (Message_Envelope record) payload = Ok tr →
  IT_OperationStatus tr = Some status →
  projectWithInbox n record w = (Ok tt, w') →
  ∃ row, device_message_inbox (w_db w') !! MessageID (Message_Envelope record) = Some row ∧ settled row ∧
    ((device_message_inbox (w_db w) !! MessageID (Message_Envelope record) = Some row ∧
      results_kept (w_db w) (w_db w')) ∨
     ∃ o', device_operations (w_db w') !! OperationID (Message_Envelope record) = Some o' ∧
       ((device_operations (w_db w) !! OperationID (Message_Envelope record) = Some o' ∧
         isCompletedLifecycleOperation o' = true) ∨ DeviceOperation_Status o' = status)).
Proof.
  intros Hk Hs Hv Ht Hst. rewrite projectWithInbox_run. intros E.
  apply bind_ok in E as ([] & w1 & E1 & E). simpl in E1. injection E1 as E1 <-.
  apply bind_ok in E as (o & w2 & E2 & E).
  assert (w2 = w') as -> by (destruct o as [[]|]; unfold mret, M_ret, throw in E; congruence).
  assert (shouldAcknowledgeOutcome o = true) as Hack by (by destruct o as [[]|]).
  pose proof (processMessage_settles buildTransitionForPayload (direct_inbox n) record (w_step w) (Ok o) w'
    Hk E2) as [_ Hset]. destruct (Hset Hack) as (row & Hrow & Hsettled). simpl in Hrow.
  exists row. split; [exact Hrow|]. split; [done|].
  destruct (processMessage_run buildTransitionForPayload (direct_inbox n) record (w_step w))
    as (at_ & t & w1 & Hw1 & Er). rewrite Er in E2.
  destruct (CreateOrGetInboxMessage _ _) as [[[m created]|err] db] eqn:Hc; [|done].
  pose proof (create_inbox_results _ _ _ _ Hc) as Hkept. simpl in Hkept.
  destruct (CreateOrGetInboxMessage_same _ _ _ _ _ Hc) as ((Hop & _) & Hstored & Hops).
  rewrite (proj2 (keyed_input_id _ _)) in Hop. simpl in Hop.
  pose proof (inbox_create_rows _ _ _ _ Hc) as (_ & Hid & _ & Hnew).
  rewrite (proj1 (keyed_input_id _ _)) in Hstored, Hnew, Hid. simpl in Hstored, Hnew, Hid, Hops.
  destruct (negb created && settledb m) eqn:Hdup.
  - left. injection E2 as <- <-. simpl in *. destruct created; [done|].
    split; [congruence|]. exact Hkept.
  - right. assert (o = Some DeviceMessageInboxStatusProcessed) as ->.
    { destruct o as [[]|]; unfold throw in E; try done. by apply process_registered_answers in E2. }
    rewrite <-Hop. simpl in Hkept.
    apply (process_registered_reports _ _ _ _ payload tr status) in E2; try done.
    + simpl in E2. rewrite Hops in E2. exact E2.
    + simpl. rewrite Hid; [exact Hstored|exact Hk].
Qed.

(** ** Publications *)

Lemma resultEnvelope_times e payload now response result :
  resultEnvelope e payload now response = Ok result →
  marshalable now = true ∧ t_offset now = 0 ∧ IsZero now = false.
Proof.
  unfold resultEnvelope. intros H.
  set (r := match result_payload _ _ _ with Some _ => _ | None => _ end) in H.
  assert (∃ mt raw, r = (mt, raw) ∧ (blank mt = true ∨ ∃ x, raw = marshal_result x now)) as (mt & raw & E & Hr).
  { unfold r. destruct (result_payload payload now response) as [[mt x]|]; [|by do 2 eexists; split; [|left]].
    do 2 eexists. split; [done|]. right. by eexists. }
  rewrite E in H. apply res_bind_ok in H as (json & Hj & H). apply res_bind_ok in H as (x & Hv & _).
  destruct (ValidateAndDecode_accepted _ _ _ Hv) as (spec & []). cbn in *.
  split_and!; [|done..]. destruct Hr as [Hb|[y ->]].
  - rewrite !Forall_cons in acc_ids. destruct acc_ids as (_ & _ & _ & _ & _ & Hmt & _). congruence.
  - unfold marshal_result in Hj. by destruct (marshalable now).
Qed.

Lemma result_transition e payload now response messageType event :
  result_payload payload now response = Some (messageType, event) →
  ∃ tr, buildTransitionForPayload e (as_received event) = Ok tr ∧
    IT_OperationStatus tr = Some (if success_code (Resp_StatusCode response)
      then DeviceOperationStatusSucceeded else DeviceOperationStatusFailed).
Proof.
  unfold result_payload. destruct (success_code _), payload; try discriminate; intros [= <- <-];
    eexists; split; reflexivity.
Qed.

(** *** The time in a result *)

Definition result_time_key (p : Payload) : string :=
  match p with
  | ProvisionSucceeded _ => "activated_at" | DeactivateSucceeded _ => "deactivated_at"
  | UnprovisionSucceeded _ => "unprovisioned_at" | EntitlementSnapshotSucceeded _ => "applied_at"
  | _ => "failed_at"
  end.

Definition result_map (p : Payload) : jsonmap := canon <$> map_of_members (result_members p).

Lemma result_map_org p now response mt event :
  result_payload p now response = Some (mt, event) → is_Some (result_map event !! "org_id").
Proof.
  unfold result_payload, result_map. rewrite lookup_fmap.
  destruct (success_code _), p; try discriminate; intros [= <- <-];
    cbn [result_members app]; unfold member_string; try case_bool_decide; by eexists.
Qed.

(** Two results for one command: at the key of the second's time the first has its own, or nothing. *)
Lemma result_map_time p now1 response1 mt1 event1 now2 response2 mt2 event2 :
  result_payload p now1 response1 = Some (mt1, event1) →
  result_payload p now2 response2 = Some (mt2, event2) →
  result_map event2 !! result_time_key event2 = Some (AString (time_text now2)) ∧
  (result_map event1 !! result_time_key event2 = None ∨
   result_map event1 !! result_time_key event2 = Some (AString (time_text now1))).
Proof.
  unfold result_payload, result_map. rewrite !lookup_fmap. intros H1 H2.
  destruct p; try (by destruct (success_code _));
    destruct (success_code (Resp_StatusCode response1)); injection H1 as <- <-;
    destruct (success_code (Resp_StatusCode response2)); injection H2 as <- <-;
    cbn [result_members app result_time_key]; unfold member_string; repeat case_bool_decide;
    (split; [reflexivity|]); first [by left | by right].
Qed.

Lemma resultEnvelope_map e payload now response result mt event :
  resultEnvelope e payload now response = Ok result →
  result_payload payload now response = Some (mt, event) →
  (payloadMapFromEnvelope result).1 = result_map event ∧ PartitionKey result = PartitionKey e ∧
  MessageID result = MessageID e +:+ "-result".
Proof.
  unfold resultEnvelope. intros H Hr. rewrite Hr in H. apply res_bind_ok in H as (json & Hj & H).
  unfold marshal_result in Hj. destruct (marshalable now); [|done]. injection Hj as <-.
  apply res_bind_ok in H as (x & _ & [= <-]). done.
Qed.

Lemma sameInboxPayload_map m1 m2 : is_Some (result_map m1 !! "org_id") →
  sameInboxPayload (marshalJSONMap (result_map m1)) (marshalJSONMap (result_map m2)) = true →
  marshalJSONMap (result_map m1) = marshalJSONMap (result_map m2).
Proof.
  intros [v Hv]. unfold sameInboxPayload, sameJSONMap. rewrite marshalJSONMap_idemp.
  case_bool_decide as E; [done|]. unfold sameLegacyMalformedInboxPayload.
  assert (hasOnlyJSONKeys (marshalJSONMap (result_map m1))
    [inboxPayloadSnapshotRawKey; inboxPayloadSnapshotErrorKey] = false) as ->; [|done].
  unfold hasOnlyJSONKeys. destruct (negb _); [done|]. apply not_true_iff_false.
  intros H. assert (bool_decide ("org_id" ∈ [inboxPayloadSnapshotRawKey; inboxPayloadSnapshotErrorKey]) = true)
    as Hb; [|discriminate Hb].
  apply (proj1 (forallb_forall _ _) H ("org_id", canon v)), list_elem_of_In, elem_of_map_to_list.
  unfold marshalJSONMap. by rewrite lookup_fmap, Hv.
Qed.

(** Results with different times are different messages. *)
Lemma results_differ e payload now1 response1 result1 now2 response2 result2 :
  ValidateAndDecode e StreamAccountVideoCommands = Ok payload →
  resultEnvelope e payload now1 response1 = Ok result1 →
  resultEnvelope e payload now2 response2 = Ok result2 → now2 ≠ now1 →
  sameInboxPayload (marshalJSONMap (payloadMapFromEnvelope result1).1)
    (marshalJSONMap (payloadMapFromEnvelope result2).1) = false.
Proof.
  intros Hv H1 H2 Hne. destruct (resultEnvelope_times _ _ _ _ _ H1) as (Hm1 & Ho1 & Hz1).
  destruct (resultEnvelope_times _ _ _ _ _ H2) as (Hm2 & Ho2 & Hz2).
  destruct (result_accepted _ _ _ response1 Hv Hm1 Ho1 Hz1) as (? & mt1 & event1 & _ & Hr1 & _).
  destruct (result_accepted _ _ _ response2 Hv Hm2 Ho2 Hz2) as (? & mt2 & event2 & _ & Hr2 & _).
  destruct (resultEnvelope_map _ _ _ _ _ _ _ H1 Hr1) as [-> _].
  destruct (resultEnvelope_map _ _ _ _ _ _ _ H2 Hr2) as [-> _].
  apply not_true_iff_false. intros E. apply sameInboxPayload_map in E; [|by eapply result_map_org].
  destruct (result_map_time _ _ _ _ _ _ _ _ _ Hr1 Hr2) as [Hk2 Hk1].
  apply (f_equal (lookup (result_time_key event2))) in E. unfold marshalJSONMap in E.
  rewrite !lookup_fmap, Hk2 in E. destruct Hk1 as [Hk1|Hk1]; rewrite Hk1 in E; [done|].
  change (Some (AString (time_text now1)) = Some (AString (time_text now2))) in E.
  apply (f_equal (λ o, match o with Some (AString text) => parse_time text | _ => None end)) in E.
  cbv beta iota in E. rewrite !parse_time_text in E by (done || by rewrite ?Ho1, ?Ho2).
  apply Hne. by injection E.
Qed.

(** Nothing but the clock of the store has moved. *)
Definition untouched (w w' : World) : Prop :=
  results_kept (w_db w) (w_db w') ∧ device_message_inbox (w_db w') = device_message_inbox (w_db w).

(** A message whose stored payload is another is refused. *)
Lemma projectWithInbox_conflicts n record w m :
  blank (PartitionKey (Message_Envelope record)) = false →
  device_message_inbox (w_db w) !! MessageID (Message_Envelope record) = Some m →
  sameInboxPayload (Inbox_Payload m)
    (marshalJSONMap (payloadMapFromEnvelope (Message_Envelope record)).1) = false →
  ∃ err w', projectWithInbox n record w = (Err err, w') ∧ untouched w w'.
Proof.
  intros Hb Hm Hdiff. rewrite projectWithInbox_run. unfold mbind at 1, M_bind at 1.
  cbn [ctx_Err World_environment]. destruct (a_context (w_answer w)) as [[]|err]; [|by do 2 eexists].
  unfold mbind, M_bind.
  destruct (processMessage_run buildTransitionForPayload (direct_inbox n) record (w_step w))
    as (at_ & t & w1 & Hw1 & ->).
  unfold keyed_input. cbn [MIC_PartitionKey inbox_create]. rewrite Hb. cbv iota.
  destruct (CreateOrGetInboxMessage _ _) as [[[m' created]|err] db] eqn:Hc.
  - exfalso. destruct (CreateOrGetInboxMessage_same _ _ _ _ _ Hc) as (Hs & _).
    pose proof (inbox_create_rows _ _ _ _ Hc) as (_ & _ & _ & Hnew). simpl in Hnew.
    destruct created; [destruct Hnew; congruence|].
    assert (m' = m) as -> by congruence. destruct Hs as (_ & _ & _ & _ & _ & _ & _ & Hs).
    simpl in Hs. congruence.
  - do 2 eexists. split; [done|]. split.
    + by apply create_inbox_results in Hc.
    + by apply inbox_create_rows in Hc.
Qed.

Section direct_world.
Context `{VideoAPI World}.
Context (p : HTTPPublisher).

(** C28: A publication succeeds only when the command was accepted, the Video Cloud answered it with no
    error of its own and, where one is due, with a matching receipt, and the result is settled in
    the inbox; unless it had been settled before, the operation has been completed: it has the
    status the answer calls for, or was complete when the answer arrived. *)
Theorem direct_publish_settles stream_ e w w' :
  (∀ request w r w', client_Do request w = (r, w') →
     inbox_rows_keyed (device_message_inbox (w_db w)) → inbox_rows_keyed (device_message_inbox (w_db w'))) →
  inbox_rows_keyed (device_message_inbox (w_db w)) →
  direct_Publish p (projectWithInbox (HP_maxAttempts p)) stream_ e w = (Ok tt, w') →
  ∃ payload request response w1 row,
    ValidateAndDecode e StreamAccountVideoCommands = Ok payload ∧
    directRequest payload (OperationID e) = Ok request ∧
    client_Do (request_of p request) w = (Ok response, w1) ∧
    response_check response (OperationID e) payload = Ok tt ∧
    device_message_inbox (w_db w') !! (MessageID e +:+ "-result") = Some row ∧ settled row ∧
    ((device_message_inbox (w_db w1) !! (MessageID e +:+ "-result") = Some row ∧
      results_kept (w_db w1) (w_db w')) ∨
     ∃ o, device_operations (w_db w') !! OperationID e = Some o ∧
       ((device_operations (w_db w1) !! OperationID e = Some o ∧ isCompletedLifecycleOperation o = true) ∨
        DeviceOperation_Status o = if success_code (Resp_StatusCode response)
          then DeviceOperationStatusSucceeded else DeviceOperationStatusFailed)).
Proof.
  intros Hapi Hk. unfold direct_Publish. case_bool_decide as Hs; [|done]. cbn [negb]. subst stream_. intros E.
  apply bind_ok in E as (payload & w0 & E1 & E). apply lift_res_ok in E1 as [Hv ->].
  apply bind_ok in E as (request & w0 & E1 & E). apply lift_res_ok in E1 as [Hreq ->].
  unfold attempt, mbind at 1, M_bind in E. destruct (client_Do _ w) as [[response|err] w1] eqn:Ec; [|done].
  apply Hapi in Ec as Hk1; [|done]. unfold publish_result in E.
  apply bind_ok in E as (t & w2 & E1 & E). injection E1 as <- <-.
  apply bind_ok in E as ([] & w0 & E1 & E). apply lift_res_ok in E1 as [Hcheck ->].
  apply bind_ok in E as (result & w0 & E1 & E). apply lift_res_ok in E1 as [Hres ->].
  unfold attempt, mbind, M_bind in E.
  destruct (projectWithInbox _ _ _) as [[[]|err] w3] eqn:Ep; [|done]. injection E as <-.
  destruct (resultEnvelope_times _ _ _ _ _ Hres) as (Hm & Ho & Hz).
  destruct (result_accepted _ _ _ response Hv Hm Ho Hz) as
    (result' & mt & event & Hres' & Hev & Hdec & _ & Hid & _ & Hop & _).
  rewrite Hres in Hres'. injection Hres' as <-.
  destruct (result_transition result _ _ _ _ _ Hev) as (tr & Htr & Hst).
  destruct (projectWithInbox_reports _ (mkMessage StreamVideoAccountEvents result) (w_step w1) _ _ _ _
    Hk1 eq_refl Hdec Htr Hst Ep) as (row & Hrow & Hset & Hout).
  cbn [Message_Envelope] in Hrow, Hout. rewrite Hid, Hop in *.
  do 5 eexists. split_and!; try done.
Qed.

(** C30: A command whose result is stored cannot be published again: the result of another delivery has
    another time, so its message is not the stored one, and the publication fails, whatever the Video
    Cloud answers; nothing is changed.  A worker that crashed between the projection and recording
    the publication therefore retries the command until it is dead-lettered. *)
Theorem republished_command_fails e w payload now1 response1 result1 m request response w1 :
  ValidateAndDecode e StreamAccountVideoCommands = Ok payload →
  resultEnvelope e payload now1 response1 = Ok result1 →
  directRequest payload (OperationID e) = Ok request →
  client_Do (request_of p request) w = (Ok response, w1) →
  device_message_inbox (w_db w1) !! (MessageID e +:+ "-result") = Some m →
  Inbox_Payload m = marshalJSONMap (payloadMapFromEnvelope result1).1 →
  UTC (a_time (w_answer w1)) ≠ now1 →
  ∃ err w', direct_Publish p (projectWithInbox (HP_maxAttempts p)) StreamAccountVideoCommands e w =
      (Err err, w') ∧ untouched w1 w'.
Proof.
  intros Hv H1 Hreq Hc Hm Hpay Hne. unfold direct_Publish.
  rewrite bool_decide_true by done. cbn [negb]. rewrite Hv.
  unfold mbind, M_bind, lift_res at 1, attempt. rewrite Hreq. cbn. rewrite Hc.
  unfold publish_result, mbind, M_bind, lift_res, attempt, throw. cbn [time_Now World_environment].
  destruct (response_check _ _ _) as [[]|err]; [|by do 2 eexists].
  destruct (resultEnvelope e payload (UTC (a_time (w_answer w1))) response) as [result2|err] eqn:H2;
    [|by do 2 eexists].
  destruct (resultEnvelope_times _ _ _ _ _ H2) as (Hm2 & Ho2 & Hz2).
  destruct (result_accepted _ _ _ response Hv Hm2 Ho2 Hz2) as (? & mt & event & _ & Hr & _).
  destruct (resultEnvelope_map _ _ _ _ _ _ _ H2 Hr) as (_ & Hkey & Hid).
  destruct (projectWithInbox_conflicts (HP_maxAttempts p) (mkMessage StreamVideoAccountEvents result2)
    (w_step w1) m) as (err & w2 & -> & Hu).
  - cbn [Message_Envelope]. rewrite Hkey. destruct (ValidateAndDecode_accepted _ _ _ Hv) as (spec & []).
    rewrite !Forall_cons in acc_ids. tauto.
  - cbn [Message_Envelope]. by rewrite Hid.
  - cbn [Message_Envelope]. rewrite Hpay. by eapply results_differ.
  - do 2 eexists. split; [done|]. exact Hu.
Qed.
End direct_world.

(** ** The theorems at work on a small store *)

Definition sample_command : Envelope :=
  mkEnvelope "msg-1" "corr-1" "" "op-1" ServiceAccountManager ServiceRealtekVideoCloud
    MessageTypeDeviceProvisionRequested "1.0" sample_uuid sample_time
    (RawValue "{...}" (AMap [("org_id", AString sample_org); ("account_device_id", AString sample_uuid);
       ("video_cloud_devid", AString "devid-1"); ("activity_id", AString "act-1");
       ("clip_public_key", AString "clip"); ("requested_by", AString "user-1")])).
Definition sample_payload : Payload :=
  ProvisionRequested (mkProvisionRequested sample_org sample_uuid "devid-1" "act-1" "clip" [] "" None "" None
    "" "user-1").
Definition sample_publisher : HTTPPublisher := mkHTTPPublisher "https://video.example" "secret" 3.

(** The device is activated. *)
Definition sample_receipt : RawMessage :=
  RawValue "{...}" (AMap [("status", AString "ok"); ("devid", AString "devid-1");
    ("org_id", AString sample_org); ("account_device_id", AString sample_uuid);
    ("activity_id", AString "act-1"); ("activated", ABool true)]).
Definition sample_response : HTTPResponse := mkHTTPResponse 200 "200 OK" (λ _, (sample_receipt, None)).
(** The device is refused, with a reason of 512 bytes that ends inside a rune. *)
Definition sample_refusal : HTTPResponse :=
  mkHTTPResponse 404 "404 Not Found" (λ _, (RawValue "{...}" (AMap [("reason",
    AString (unary 511 +:+ of_bytes [ascii_of_N 195; ascii_of_N 169]))]), None)).

#[local] Instance sample_api : VideoAPI World := { client_Do := λ _ w, (Ok sample_response, w_step w) }.

(** A second passes with every interaction. *)
Definition ticking_answer (n : nat) : Answer :=
  let t := GoTime.Add sample_time (Z.of_nat n * Second) in mkAnswer t t (Ok tt) (Ok tt) (Ok []).
Definition ticking_world : World := mkWorld sample_db ticking_answer 0 [] [].

Definition sample_publish (w : World) : res unit * World :=
  direct_Publish sample_publisher (projectWithInbox (HP_maxAttempts sample_publisher))
    StreamAccountVideoCommands sample_command w.

Lemma resultEnvelope_accepted_witness :
  ∃ result event, resultEnvelope sample_command sample_payload sample_time sample_refusal = Ok result ∧
    ValidateAndDecode result StreamVideoAccountEvents = Ok (as_received event) ∧
    MessageID result = "msg-1-result" ∧ Envelope_MessageType result = MessageTypeDeviceProvisionFailed.
Proof.
  destruct (resultEnvelope_accepted sample_command sample_payload sample_time sample_refusal)
    as (result & mt & event & H & Hr & Hv & Hmt & Hid & _).
  - vm_compute; reflexivity.
  - vm_compute; reflexivity.
  - reflexivity.
  - reflexivity.
  - exists result, event. split_and!; [exact H|exact Hv|exact Hid|].
    rewrite Hmt. apply (f_equal (option_map fst)) in Hr. revert Hr.
    change (Some MessageTypeDeviceProvisionFailed = Some mt → mt = MessageTypeDeviceProvisionFailed).
    intros [= <-]. reflexivity.
Defined.

Lemma direct_publish_settles_witness :
  ∃ w' row o, sample_publish ticking_world = (Ok tt, w') ∧
    device_message_inbox (w_db w') !! "msg-1-result" = Some row ∧ settled row ∧
    device_operations (w_db w') !! "op-1" = Some o ∧ DeviceOperation_Status o = DeviceOperationStatusSucceeded.
Proof.
  destruct (run_succeeds sample_publish ticking_world) as ([] & w' & E); [vm_compute; reflexivity|].
  destruct (direct_publish_settles sample_publisher StreamAccountVideoCommands sample_command ticking_world w')
    as (payload & request & response & w1 & row & _ & _ & Hc & _ & Hrow & Hs & Hout).
  - intros request w r w1 [= _ <-] Hk. exact Hk.
  - apply map_Forall_empty.
  - exact E.
  - cbn in Hc. injection Hc as <- <-. exists w', row.
    destruct Hout as [[Hold _]|(o & Ho & Hst)]; [vm_compute in Hold; discriminate Hold|].
    exists o. split_and!; [exact E|exact Hrow|exact Hs|exact Ho|].
    destruct Hst as [[Hold Hc]|Hst]; [|exact Hst]. exfalso. revert Hc.
    assert (o = sample_operation) as -> by (apply (inj Some); rewrite <-Hold; vm_compute; reflexivity).
    vm_compute. discriminate.
Defined.

Lemma republished_command_fails_witness :
  ∃ w1 err w2, sample_publish ticking_world = (Ok tt, w1) ∧ sample_publish w1 = (Err err, w2) ∧
    untouched w1 w2.
Proof.
  destruct (run_succeeds sample_publish ticking_world) as ([] & w1 & E); [vm_compute; reflexivity|].
  assert (w1 = (sample_publish ticking_world).2) as Ew by (rewrite E; reflexivity).
  destruct (republished_command_fails sample_publisher sample_command w1 sample_payload
    (UTC (a_time (ticking_answer 1))) sample_response
    (mkEnvelope "msg-1-result" "corr-1" "msg-1" "op-1" ServiceRealtekVideoCloud ServiceAccountManager
      MessageTypeDeviceProvisionSucceeded SchemaVersionV1 sample_uuid (UTC (a_time (ticking_answer 1)))
      (let v := AMap [("org_id", AString sample_org); ("account_device_id", AString sample_uuid);
        ("video_cloud_devid", AString "devid-1"); ("activity_id", AString "act-1");
        ("activated_at", AString "2023-11-14T22:13:21Z")] in RawValue (json_text v) v))
    (default (sample_inbox DeviceMessageInboxStatusProcessed 0)
      (device_message_inbox (w_db (sample_publish ticking_world).2) !! "msg-1-result"))
    ("POST", "activate", "devid-1", raw_marshal (map_literal [("devid", AString "devid-1");
        ("clip_public_key", AString "clip"); ("activityid", AString "act-1");
        ("org_id", AString sample_org); ("account_device_id", AString sample_uuid)]))
    sample_response (w_step w1)) as (err & w2 & H & Hu).
  - vm_compute; reflexivity.
  - vm_compute; reflexivity.
  - vm_compute; reflexivity.
  - reflexivity.
  - rewrite Ew. vm_compute; reflexivity.
  - vm_compute; reflexivity.
  - rewrite Ew. vm_compute. discriminate.
  - exists w1, err, w2. split_and!; [exact E|exact H|exact Hu].
Defined.
