(* ===== verification/Entitlements.v ===== *)
(** * Entitlement snapshots: store/device_entitlement_snapshots.go, device_entitlement_read.go

    The services a device may use are a subset of a grant of its product.  A
    snapshot fixes that subset under the next revision of the device and is
    queued, in the same transaction, as a command for the Video Cloud.  The
    file has the tables of migrations 081, 090 and 091 with their constraints,
    the grants of store/platform_services.go as a snapshot reads them, the
    checks of store/product_service_apply.go a snapshot of a batch job passes,
    and the read model.  ProductApply.v has the batch jobs.

    The theorems: a snapshot never goes beyond its grant; the command queued
    with it is one the channel accepts, and says what the snapshot says. *)

From S2P Require Export GoSHA256 Unprovision.

Local Open Scope Z_scope.

(** ** The tables *)

(** device_entitlement_snapshots.  The options are a list of option codes,
    which their JSON gives back as it was. *)
Record DeviceEntitlementSnapshot := mkSnapshot {
  Snapshot_OrganizationID : string;
  Snapshot_AccountDeviceID : string;
  Snapshot_VideoCloudDevid : string;
  Snapshot_Revision : Z;
  Snapshot_ProductID : string;
  Snapshot_ProductServiceRevision : Z;
  Snapshot_ServiceGrantSHA256 : string;
  Snapshot_ServiceOptions : list string;
  Snapshot_LogRetentionDays : option Z;
  Snapshot_State : string;
  Snapshot_OperationID : string;
  Snapshot_CreatedBy : string;
  Snapshot_CreatedAt : Time;
}.

Record ProductServiceApplyJob := mkApplyJob {
  Job_ID : string;
  Job_OrganizationID : string;
  Job_ProductID : string;
  Job_TargetRevision : Z;
  Job_TargetDigest : string;
  Job_TotalDevices : Z;
  Job_Status : string;
  Job_CreatedAt : Time;
}.

Record productServiceApplyBaseline := mkBaseline {
  Baseline_DeviceID : string;
  Baseline_VideoCloudDevid : string;
  Baseline_Revision : Z;
  Baseline_ProductRevision : Z;
  Baseline_Digest : string;
  Baseline_Options : list string;
  Baseline_State : string;
}.

(** product_service_apply_jobs: the columns the store reads back, and the others *)
Record ApplyJobRow := mkApplyJobRow {
  apply_job : ProductServiceApplyJob;
  apply_actor_user_id : string;
  apply_target_options : list string;
  apply_target_log_retention_days : option Z;
  apply_preview_token : string;
  apply_updated_at : Time;
  apply_finished_at : option Time;
}.

(** product_service_apply_items *)
Record ApplyItemRow := mkApplyItemRow {
  item_job_id : string;
  item_operation_id : string;
  item_baseline : productServiceApplyBaseline;
  item_dispatched_at : option Time;
}.

(** Snapshots by operation, jobs by id, items by job and device. *)
Record EntitlementDB := mkEntitlementDB {
  ent_db : DB;
  device_entitlement_snapshots : gmap string DeviceEntitlementSnapshot;
  product_service_apply_jobs : gmap string ApplyJobRow;
  product_service_apply_items : gmap (string * string) ApplyItemRow;
}.

Abbreviation Ent A := (M EntitlementDB A).

Definition with_ent_db (db : DB) (s : EntitlementDB) : EntitlementDB :=
  mkEntitlementDB db (device_entitlement_snapshots s) (product_service_apply_jobs s)
    (product_service_apply_items s).
Definition with_snapshots t (s : EntitlementDB) : EntitlementDB :=
  mkEntitlementDB (ent_db s) t (product_service_apply_jobs s) (product_service_apply_items s).
Definition with_jobs t (s : EntitlementDB) : EntitlementDB :=
  mkEntitlementDB (ent_db s) (device_entitlement_snapshots s) t (product_service_apply_items s).
Definition with_items t (s : EntitlementDB) : EntitlementDB :=
  mkEntitlementDB (ent_db s) (device_entitlement_snapshots s) (product_service_apply_jobs s) t.

(** A statement of the other files, on this state. *)
Definition on_db {A} (m : Store A) : Ent A := zoom ent_db with_ent_db m.

Definition validLogRetention (days : Z) : bool := (days =? 7) || (days =? 30) || (days =? 90).
Definition entitlement_state (state : string) : bool :=
  bool_decide (state ∈ ["active"; "suspended"; "revoked"]).

(** INSERT INTO device_entitlement_snapshots *)
Definition insert_snapshot (row : DeviceEntitlementSnapshot) : Ent unit :=
  reject_if (btrim_blank (Snapshot_VideoCloudDevid row))
    (ErrPg "device_entitlement_snapshots_video_cloud_devid_check") ;;
  reject_if (Snapshot_Revision row <=? 0) (ErrPg "device_entitlement_snapshots_revision_check") ;;
  reject_if (negb (handoffEvidenceDigest (Snapshot_ServiceGrantSHA256 row)))
    (ErrPg "device_entitlement_snapshots_service_grant_sha256_check") ;;
  reject_if (negb (entitlement_state (Snapshot_State row)))
    (ErrPg "device_entitlement_snapshots_entitlement_state_check") ;;
  reject_if match Snapshot_LogRetentionDays row with
    | None => false
    | Some days => negb (validLogRetention days)
    end (ErrPg "device_entitlement_snapshots_log_retention_days_check") ;;
  s ← gets (λ s, s);
  reject_if (bool_decide (is_Some (device_entitlement_snapshots s !! Snapshot_OperationID row)))
    (ErrPg "device_entitlement_snapshots_operation_id_key") ;;
  reject_if (existsb (λ old, bool_decide (Snapshot_AccountDeviceID old = Snapshot_AccountDeviceID row)
                             && (Snapshot_Revision old =? Snapshot_Revision row))
               (rows_of (device_entitlement_snapshots s)))
    (ErrPg "device_entitlement_snapshots_account_device_id_revision_key") ;;
  modify (λ s, with_snapshots
    (<[Snapshot_OperationID row := row]> (device_entitlement_snapshots s)) s).

(** ** Grants: store/platform_services.go *)

Record PlatformServiceCatalogOption := mkCatalogOption {
  Option_Code : string;
  Option_DisplayName : string;
  Option_Description : string;
  Option_Requires : list string;
  Option_LogRetentionDays : list Z;
  Option_ServiceID : string;
  Option_ManifestVersion : string;
  Option_Selectable : bool;
  Option_UnavailableReason : string;
}.

Definition catalog_option_schema : schema :=
  [("code", KString); ("display_name", KString); ("description", KString); ("requires", KStrings);
   ("log_retention_days", KRaw); ("service_id", KString); ("manifest_version", KString);
   ("selectable", KBool); ("unavailable_reason", KString)].

(** A [[]int] field. *)
Fixpoint decode_ints (l : list any) : res (list Z) :=
  match l with
  | [] => Ok []
  | AInt z :: l => if int64_range z then rest ← decode_ints l; Ok (z :: rest)
                   else type_error (AInt z) "value of type int"
  | ANil :: l => rest ← decode_ints l; Ok (0 :: rest)
  | v :: _ => type_error v "value of type int"
  end.
Definition unmarshal_ints (v : option any) : res (list Z) :=
  match v with
  | None | Some ANil => Ok []
  | Some (ASlice l) => decode_ints l
  | Some v => type_error v "value of type []int"
  end.

Definition unmarshal_option (v : any) : res PlatformServiceCatalogOption :=
  match v with
  | AMap ms =>
      t ← unmarshal_members catalog_option_schema ms ∅;
      days ← unmarshal_ints (t !! "log_retention_days");
      Ok (mkCatalogOption (get_string t "code") (get_string t "display_name")
        (get_string t "description") (get_strings t "requires") days (get_string t "service_id")
        (get_string t "manifest_version") (get_bool t "selectable")
        (get_string t "unavailable_reason"))
  | ANil => Ok (mkCatalogOption "" "" "" [] [] "" "" false "")
  | _ => type_error v "value of type PlatformServiceCatalogOption"
  end.

(** [json.Unmarshal(raw, &bindings)]; [None] is the nil slice. *)
Definition unmarshal_bindings (v : any) : res (option (list PlatformServiceCatalogOption)) :=
  match v with
  | ANil => Ok None
  | ASlice l => Some <$> foldr (λ v rest, o ← unmarshal_option v; os ← rest; Ok (o :: os)) (Ok []) l
  | _ => type_error v "value of type []PlatformServiceCatalogOption"
  end.

Definition catalog_option_json (o : PlatformServiceCatalogOption) : any :=
  AMap ([("code", AString (Option_Code o)); ("display_name", AString (Option_DisplayName o));
         ("description", AString (Option_Description o))] ++
        (if bool_decide (Option_Requires o = []) then []
         else [("requires", strings_value (Option_Requires o))]) ++
        (if bool_decide (Option_LogRetentionDays o = []) then []
         else [("log_retention_days", ASlice (AInt <$> Option_LogRetentionDays o))]) ++
        [("service_id", AString (Option_ServiceID o));
         ("manifest_version", AString (Option_ManifestVersion o));
         ("selectable", ABool (Option_Selectable o))] ++
        member_string "unavailable_reason" (Option_UnavailableReason o)).
Definition bindings_json (bindings : option (list PlatformServiceCatalogOption)) : any :=
  match bindings with Some l => ASlice (catalog_option_json <$> l) | None => ANil end.

(** [slices.Sort] on strings. *)
Definition slices_Sort (l : list string) : list string :=
  order_by (λ a b, match String.compare a b with Gt => false | _ => true end) l.

(** The digests of the two functions: without and with the retention. *)
Definition encodeProductServiceGrant (options : list string)
    (bindings : option (list PlatformServiceCatalogOption)) : string :=
  sha256_hex (json_text (AMap [("options", strings_value (slices_Sort options));
                               ("bindings", bindings_json bindings)])).
Definition encodeProductServiceGrantWithRetention (options : list string)
    (bindings : option (list PlatformServiceCatalogOption)) (days : option Z) : res string :=
  match days with
  | None => Ok (encodeProductServiceGrant options bindings)
  | Some days =>
      if negb (bool_decide ("device_logging" ∈ options)) || negb (validLogRetention days)
      then Err ErrClaimUnsupportedService
      else Ok (sha256_hex (json_text (AMap [("options", strings_value (slices_Sort options));
             ("bindings", bindings_json bindings); ("log_retention_days", AInt days)])))
  end.

Definition product_grants (r : Registry) (product cloud : string) : list ProductServiceGrant :=
  filter (λ g, grant_product_id g = product ∧ grant_brand_cloud_id g = cloud)
    (product_service_grants r).

Record ProductGrant := mkProductGrant {
  PG_options : list string;
  PG_bindings : option (list PlatformServiceCatalogOption);
  PG_digest : string;
  PG_logRetentionDays : option Z;
  PG_latest : Z;
}.

Definition productGrantForEntitlementTx (productID cloudID : string) (revision : Z) : Store ProductGrant :=
  db ← gets (λ db, db);
  let grants := product_grants (registry db) productID cloudID in
  grant ← row_or ErrConflict (grant_of_revision (registry db) productID cloudID (Some revision));
  let latest := foldr Z.max 0 (grant_revision <$> grants) in
  match unmarshal_strings (grant_options grant), unmarshal_bindings (grant_bindings grant) with
  | Ok options, Ok bindings =>
      if is_ok (validateProductServiceOptions options) && negb (bool_decide (options = []))
      then mret (mkProductGrant options bindings (grant_snapshot_sha256 grant)
             (grant_log_retention_days grant) latest)
      else throw ErrConflict
  | _, _ => throw ErrConflict
  end.

(** ** The options of a device *)

Definition dependencies_selected (effective : list string) (binding : PlatformServiceCatalogOption) : bool :=
  negb (bool_decide (Option_Code binding ∈ effective))
  || forallb (λ d, bool_decide (d ∈ effective)) (Option_Requires binding).

Definition validateHistoricalDeviceServices (effective product : list string)
    (bindings : option (list PlatformServiceCatalogOption)) : res unit :=
  if bool_decide (effective = []) || negb (is_ok (validateProductServiceOptions effective))
  then Err ErrClaimUnsupportedService
  else if negb (forallb (λ o, bool_decide (o ∈ product)) effective)
  then Err ErrClaimUnsupportedService
  else if negb (forallb (dependencies_selected effective) (default [] bindings))
  then Err ErrClaimUnsupportedService
  else Ok tt.

Definition validateEffectiveDeviceServices (effective product : list string)
    (bindings : option (list PlatformServiceCatalogOption)) : res unit :=
  if negb (bool_decide ("mqtt" ∈ effective)) then Err ErrClaimUnsupportedService
  else validateHistoricalDeviceServices effective product bindings.

(** ** store/device_item_profile_user_mutations.go, store/product_admission.go *)

(** The user rows it locks first need not exist. *)
Definition lockBrandCloudCollaborationTx (cloudID : string) : Store unit :=
  db ← gets (λ db, db);
  o ← row_or ErrNotFound (organizations (registry db) !! cloudID);
  reject_if (negb (bool_decide (Organization_Kind o = OrganizationKindBrandCloud))
             || bool_decide (is_Some (Organization_DeletedAt o))) ErrNotFound.

Definition authorizeProductUserMutationTx (actor cloud product : string) (platform : bool) : Store unit :=
  if platform then
    lockPlatformActorTx actor ;; lockOperationalCloudTx cloud
  else
    lockBrandCloudCollaborationTx cloud ;;
    db ← gets (λ db, db);
    let r := registry db in
    reject_if (negb
      (if bool_decide (product = "") then
         hasOrganizationPermission r actor cloud "registry_device.manage"
         && user_can_access_brand_cloud_product r actor cloud (Some "")
       else hasUserPermissionForResource r actor cloud "registry_device.manage" "product" product))
      ErrNotFound.

(** ** The baseline of a device *)

Definition snapshots_of (org device : string) (s : EntitlementDB) : list DeviceEntitlementSnapshot :=
  filter (λ row, Snapshot_OrganizationID row = org ∧ Snapshot_AccountDeviceID row = device)
    (rows_of (device_entitlement_snapshots s)).
(** ORDER BY revision DESC LIMIT 1 *)
Definition latest_snapshot (rows : list DeviceEntitlementSnapshot) : option DeviceEntitlementSnapshot :=
  head (order_by (λ a b, Snapshot_Revision b <=? Snapshot_Revision a) rows).

(** ORDER BY completed_at DESC NULLS LAST, created_at DESC *)
Definition completed_before (a b : DeviceOperation) : bool :=
  match DeviceOperation_CompletedAt a, DeviceOperation_CompletedAt b with
  | Some ta, Some tb =>
      (t_nanos tb <? t_nanos ta) ||
      ((t_nanos tb =? t_nanos ta) &&
       (t_nanos (DeviceOperation_CreatedAt b) <=? t_nanos (DeviceOperation_CreatedAt a)))
  | Some _, None => true
  | None, Some _ => false
  | None, None => t_nanos (DeviceOperation_CreatedAt b) <=? t_nanos (DeviceOperation_CreatedAt a)
  end.
Definition provision_commands (org device : string) (db : DB) : list (DeviceOperation * DeviceMessageOutbox) :=
  omap (λ m,
    o ← device_operations db !! Outbox_OperationID m;
    if bool_decide (DeviceOperation_OrganizationID o = org)
       && bool_decide (DeviceOperation_DeviceID o = device)
       && bool_decide (DeviceOperation_OperationType o = DeviceOperationTypeProvision)
       && bool_decide (DeviceOperation_Status o = DeviceOperationStatusSucceeded)
       && bool_decide (Outbox_MessageType m = MessageTypeDeviceProvisionRequested)
    then Some (o, m) else None) (rows_of (device_message_outbox db)).
Definition latest_provision (org device : string) (db : DB) : option jsonmap :=
  Outbox_Payload ∘ snd <$>
    head (order_by (λ a b, completed_before a.1 b.1) (provision_commands org device db)).

(** [json.Unmarshal(raw, &provision)] *)
Definition unmarshal_provision (payload : jsonmap) : res DeviceProvisionRequestedPayload :=
  let zero := mkProvisionRequested "" "" "" "" "" [] "" None "" None "" "" in
  t ← unmarshal_members (payload_schema (ProvisionRequested zero)) (members payload) ∅;
  match payload_of (ProvisionRequested zero) t with
  | ProvisionRequested provision => Ok provision
  | _ => Ok zero
  end.

Definition deactivated (device : Device) : bool :=
  bool_decide (lifecycleMetadataString (Device_Metadata device) DeviceMetadataVideoCloudActivationStatus
    = Some (VideoCloudActivationStatus_text VideoCloudActivationStatusDeactivated)).

(** The device has a product: every caller has checked it. *)
Definition latestDeviceEntitlementBaselineTx (device : Device) : Ent DeviceEntitlementSnapshot :=
  s ← gets (λ s, s);
  let org := Device_OrganizationID device in let id := Device_ID device in
  match latest_snapshot (snapshots_of org id s) with
  | Some row =>
      reject_if (negb (bool_decide (Device_DeviceItemProfileID device = Some (Snapshot_ProductID row))))
        ErrConflict ;;
      mret (if deactivated device && bool_decide (Snapshot_State row = "active")
            then mkSnapshot (Snapshot_OrganizationID row) (Snapshot_AccountDeviceID row)
                   (Snapshot_VideoCloudDevid row) (Snapshot_Revision row) (Snapshot_ProductID row)
                   (Snapshot_ProductServiceRevision row) (Snapshot_ServiceGrantSHA256 row)
                   (Snapshot_ServiceOptions row) (Snapshot_LogRetentionDays row) "suspended"
                   (Snapshot_OperationID row) (Snapshot_CreatedBy row) (Snapshot_CreatedAt row)
            else row)
  | None =>
      raw ← row_or ErrNotProvisioned (latest_provision org id (ent_db s));
      match unmarshal_provision raw with
      | Err _ => throw ErrConflict
      | Ok provision =>
          match PR_ProductServiceRevision provision with
          | None => throw ErrConflict
          | Some revision =>
              reject_if (negb (bool_decide (Device_DeviceItemProfileID device = Some (PR_ProductID provision)))
                || negb (bool_decide (PR_OrgID provision = org))
                || negb (bool_decide (PR_AccountDeviceID provision = id))
                || bool_decide (PR_ServiceGrantSHA256 provision = "")
                || bool_decide (PR_ServiceOptions provision = [])
                || blank (PR_VideoCloudDevid provision)) ErrConflict ;;
              mret (mkSnapshot org id (PR_VideoCloudDevid provision) 0 (PR_ProductID provision) revision
                (PR_ServiceGrantSHA256 provision) (PR_ServiceOptions provision)
                (PR_LogRetentionDays provision) (if deactivated device then "suspended" else "active")
                "" "" zero_time)
          end
      end
  end.

(** ** Checks of a batch job: store/product_service_apply.go *)

Definition terminal_operation (o : DeviceOperation) : bool :=
  match DeviceOperation_Status o with
  | DeviceOperationStatusSucceeded | DeviceOperationStatusFailed => true
  | _ => false
  end.
(** EXISTS (... status NOT IN ('succeeded','failed')), operations in [selected]. *)
Definition conflicting_operation (selected : DeviceOperation → bool) (db : DB) : bool :=
  existsb (λ o, selected o && negb (terminal_operation o)) (rows_of (device_operations db)).

Definition validateProductApplyItemTx (jobID cloud product deviceID operationID : string)
    (targetRevision : option Z) (options : list string) : Ent unit :=
  s ← gets (λ s, s);
  row ← row_or ErrNotFound
    (j ← product_service_apply_jobs s !! jobID;
     if bool_decide (Job_OrganizationID (apply_job j) = cloud)
        && bool_decide (Job_ProductID (apply_job j) = product)
     then i ← product_service_apply_items s !! (jobID, deviceID); Some (j, i) else None);
  let '(j, i) := row in
  reject_if (negb (bool_decide (Job_Status (apply_job j) = "active"))
    || negb (bool_decide (item_operation_id i = operationID))
    || negb (bool_decide (targetRevision = Some (Job_TargetRevision (apply_job j))))
    || negb (serviceOptionSetsEqual options (apply_target_options j))) ErrConflict.

Definition validateProductApplyBaselineTx (jobID deviceID : string) (baseline : DeviceEntitlementSnapshot)
    : Ent unit :=
  s ← gets (λ s, s);
  i ← row_or ErrNotFound (product_service_apply_items s !! (jobID, deviceID));
  let expected := item_baseline i in
  reject_if (negb (Snapshot_Revision baseline =? Baseline_Revision expected)
    || negb (Snapshot_ProductServiceRevision baseline =? Baseline_ProductRevision expected)
    || negb (bool_decide (Snapshot_ServiceGrantSHA256 baseline = Baseline_Digest expected))
    || negb (bool_decide (Snapshot_State baseline = Baseline_State expected))
    || negb (bool_decide (Snapshot_VideoCloudDevid baseline = Baseline_VideoCloudDevid expected))
    || negb (serviceOptionSetsEqual (Snapshot_ServiceOptions baseline) (Baseline_Options expected)))
    ErrConflict ;;
  reject_if (conflicting_operation (λ o, bool_decide (DeviceOperation_DeviceID o = deviceID)
      && negb (bool_decide (DeviceOperation_OperationID o = jobID +:+ "/" +:+ deviceID))) (ent_db s))
    ErrConflict.

(** [max(revision)] over no row is NULL, which does not scan into an int64. *)
Definition validateProductApplyReplayTx (device : Device) (row : DeviceEntitlementSnapshot) : Ent unit :=
  s ← gets (λ s, s);
  latest ← row_or (ErrText "cannot scan NULL into *int64")
    (Snapshot_Revision <$> latest_snapshot (snapshots_of (Device_OrganizationID device) (Device_ID device) s));
  reject_if (negb (latest =? Snapshot_Revision row)) ErrConflict ;;
  reject_if (negb (bool_decide
    (lifecycleMetadataString (Device_Metadata device) DeviceMetadataVideoCloudDevid
     = Some (Snapshot_VideoCloudDevid row)))) ErrConflict ;;
  reject_if (deactivated device && bool_decide (Snapshot_State row = "active")) ErrConflict ;;
  reject_if (conflicting_operation (λ o,
      bool_decide (DeviceOperation_OrganizationID o = Device_OrganizationID device)
      && bool_decide (DeviceOperation_DeviceID o = Device_ID device)
      && negb (bool_decide (DeviceOperation_OperationID o = Snapshot_OperationID row))) (ent_db s))
    ErrConflict.

(** ** StartDeviceEntitlementSnapshot *)

(** [SI_ServiceOptions]: [None] is nil, which keeps the current set. *)
Record DeviceEntitlementSnapshotInput := mkSnapshotInput {
  SI_BatchJobID : string;
  SI_OperationID : string;
  SI_CorrelationID : string;
  SI_MessageID : string;
  SI_OrganizationID : string;
  SI_DeviceID : string;
  SI_RequestedBy : string;
  SI_TargetProductServiceRevision : option Z;
  SI_ServiceOptions : option (list string);
  SI_State : string;
  SI_Now : Time;
}.

Record DeviceEntitlementSnapshotResult := mkSnapshotResult {
  SR_Snapshot : DeviceEntitlementSnapshot;
  SR_Operation : DeviceOperation;
  SR_Message : DeviceMessageOutbox;
  SR_Created : bool;
}.

(** The checks before the transaction. *)
Definition snapshot_request_checks (platformServiceProductWrites : bool)
    (input : DeviceEntitlementSnapshotInput) : Ent unit :=
  reject_if (negb platformServiceProductWrites || blank (SI_RequestedBy input)
    || blank (SI_OperationID input) || blank (SI_CorrelationID input) || blank (SI_MessageID input))
    ErrConflict ;;
  reject_if (negb (entitlement_state (SI_State input))) ErrConflict ;;
  reject_if match SI_ServiceOptions input with
    | Some requested => bool_decide (requested = []) || negb (is_ok (validateProductServiceOptions requested))
    | None => false
    end ErrClaimUnsupportedService ;;
  reject_if match SI_TargetProductServiceRevision input with
    | Some revision => (revision <? 1) || bool_decide (SI_ServiceOptions input = None)
    | None => false
    end ErrConflict.

(** [in.Now] after its defaults; [clock] is [time.Now()]. *)
Definition snapshot_now (clock : Time) (input : DeviceEntitlementSnapshotInput) : Time :=
  Truncate_us (UTC (if IsZero (SI_Now input) then UTC clock else SI_Now input)).

Definition requested_options (input : DeviceEntitlementSnapshotInput) : option (list string) :=
  slices_Sort <$> SI_ServiceOptions input.

Definition snapshot_request_payload (input : DeviceEntitlementSnapshotInput) : jsonmap :=
  let m := map_literal
    [("requested_by", AString (SI_RequestedBy input)); ("state", AString (SI_State input));
     ("service_options", match requested_options input with
                         | Some options => strings_value options | None => ANil end);
     ("target_product_service_revision", match SI_TargetProductServiceRevision input with
                                         | Some revision => AInt revision | None => ANil end)] in
  if bool_decide (SI_BatchJobID input = "") then m
  else <["batch_job_id" := AString (SI_BatchJobID input)]> m.

Definition snapshot_outbox_payload (row : DeviceEntitlementSnapshot) (requestedBy : string) : jsonmap :=
  let m := map_literal
    [("org_id", AString (Snapshot_OrganizationID row));
     ("account_device_id", AString (Snapshot_AccountDeviceID row));
     ("video_cloud_devid", AString (Snapshot_VideoCloudDevid row));
     ("product_id", AString (Snapshot_ProductID row));
     ("product_service_revision", AInt (Snapshot_ProductServiceRevision row));
     ("service_grant_sha256", AString (Snapshot_ServiceGrantSHA256 row));
     ("platform_entitlement_revision", AInt (Snapshot_Revision row));
     ("service_options", strings_value (Snapshot_ServiceOptions row));
     ("state", AString (Snapshot_State row)); ("requested_by", AString requestedBy)] in
  match Snapshot_LogRetentionDays row with
  | Some days => <["log_retention_days" := AInt days]> m
  | None => m
  end.

(** [opInput], first without and then with the command. *)
Definition snapshot_operation (input : DeviceEntitlementSnapshotInput) (messageType : string)
    (outbox : jsonmap) (now_ : Time) : DeviceLifecycleOperationInput :=
  mkLifecycleInput (SI_OperationID input) (SI_CorrelationID input) (SI_MessageID input)
    (SI_OrganizationID input) (SI_DeviceID input) DeviceOperationTypeEntitlementUpdate
    (Some (SI_RequestedBy input)) (snapshot_request_payload input) messageType outbox ∅ false now_.

(** The snapshot the grant and the baseline allow. *)
Definition next_snapshot (input : DeviceEntitlementSnapshotInput) (product : string)
    (baseline : DeviceEntitlementSnapshot) (grantRevision : Z) (grant : ProductGrant) (now_ : Time)
    : res DeviceEntitlementSnapshot :=
  if match SI_TargetProductServiceRevision input with
     | Some _ => bool_decide (SI_BatchJobID input = "") && negb (grantRevision =? PG_latest grant)
     | None => negb (bool_decide (PG_digest grant = Snapshot_ServiceGrantSHA256 baseline))
     end
  then Err ErrConflict
  else
    let options := default (Snapshot_ServiceOptions baseline) (requested_options input) in
    validateEffectiveDeviceServices options (PG_options grant) (PG_bindings grant) ;;
    Ok (mkSnapshot (SI_OrganizationID input) (SI_DeviceID input) (Snapshot_VideoCloudDevid baseline)
      (wrap64 (Snapshot_Revision baseline + 1)) product grantRevision (PG_digest grant) options
      (if bool_decide ("device_logging" ∈ options) then PG_logRetentionDays grant else None)
      (SI_State input) (SI_OperationID input) (SI_RequestedBy input) now_).

(** A new operation: the snapshot, its command and the audit event. *)
Definition create_snapshot (input : DeviceEntitlementSnapshotInput) (device : Device) (product : string)
    (operation : DeviceOperation) (now_ : Time) : Ent DeviceEntitlementSnapshotResult :=
  baseline ← latestDeviceEntitlementBaselineTx device;
  (if negb (bool_decide (SI_BatchJobID input = ""))
   then validateProductApplyBaselineTx (SI_BatchJobID input) (SI_DeviceID input) baseline
   else mret tt) ;;
  let grantRevision := default (Snapshot_ProductServiceRevision baseline)
                         (SI_TargetProductServiceRevision input) in
  grant ← on_db (productGrantForEntitlementTx product (SI_OrganizationID input) grantRevision);
  row ← lift_res (next_snapshot input product baseline grantRevision grant now_);
  insert_snapshot row ;;
  message ← on_db (createOutboxMessageTx operation
    (snapshot_operation input MessageTypeDeviceEntitlementSnapshotRequested
       (snapshot_outbox_payload row (SI_RequestedBy input)) now_));
  on_db (create_audit_event "device.entitlement.snapshot.requested" (Some (SI_RequestedBy input))
    (Some (SI_OrganizationID input)) "device" (SI_DeviceID input)
    (map_literal [("operation_id", AString (SI_OperationID input));
                  ("platform_entitlement_revision", AInt (Snapshot_Revision row));
                  ("product_service_revision", AInt (Snapshot_ProductServiceRevision row));
                  ("state", AString (Snapshot_State row));
                  ("service_options", strings_value (Snapshot_ServiceOptions row))])) ;;
  mret (mkSnapshotResult row operation message true).

Definition getDeviceEntitlementSnapshotByOperationTx (operationID : string) : Ent DeviceEntitlementSnapshot :=
  s ← gets (λ s, s); row_or ErrNotFound (device_entitlement_snapshots s !! operationID).

(** An operation that exists: what it created. *)
Definition replay_snapshot (input : DeviceEntitlementSnapshotInput) (device : Device)
    (operation : DeviceOperation) : Ent DeviceEntitlementSnapshotResult :=
  row ← getDeviceEntitlementSnapshotByOperationTx (SI_OperationID input);
  (if negb (bool_decide (SI_BatchJobID input = ""))
   then validateProductApplyReplayTx device row else mret tt) ;;
  message ← on_db (getLatestOutboxMessageByOperationTx (SI_OperationID input));
  mret (mkSnapshotResult row operation message false).

Definition StartDeviceEntitlementSnapshot (platformServiceProductWrites : bool) (clock : Time)
    (input : DeviceEntitlementSnapshotInput) : Ent DeviceEntitlementSnapshotResult :=
  snapshot_request_checks platformServiceProductWrites input ;;
  let now_ := snapshot_now clock input in
  transaction (
    (if bool_decide (SI_BatchJobID input = "")
     then on_db (authorizeDeviceUserMutationTx (SI_RequestedBy input) (SI_OrganizationID input)
                   (SI_DeviceID input) "lifecycle_operation.provision")
     else mret tt) ;;
    device ← on_db (getDeviceForUpdateTx (SI_OrganizationID input) (SI_DeviceID input));
    reject_if (bool_decide (is_Some (Device_DisabledAt device))) ErrConflict ;;
    product ← row_or ErrConflict (Device_DeviceItemProfileID device);
    on_db (authorizeProductUserMutationTx (SI_RequestedBy input) (SI_OrganizationID input) product false) ;;
    (if negb (bool_decide (SI_BatchJobID input = ""))
     then validateProductApplyItemTx (SI_BatchJobID input) (SI_OrganizationID input) product
            (SI_DeviceID input) (SI_OperationID input) (SI_TargetProductServiceRevision input)
            (default [] (requested_options input))
     else mret tt) ;;
    '(operation, created) ← on_db (createOrGetDeviceOperationTx (snapshot_operation input "" ∅ now_));
    if (created : bool) then create_snapshot input device product operation now_
    else replay_snapshot input device operation).

(** ** GetDeviceEntitlementReadModel *)

Record DeviceEntitlementResult := mkEntitlementResult {
  DER_OperationID : string;
  DER_Status : DeviceOperationStatus;
  DER_ErrorCode : string;
  DER_Retryable : bool;
}.

Definition snapshot_operations (org device : string) (s : EntitlementDB)
    : list (DeviceEntitlementSnapshot * DeviceOperation) :=
  omap (λ row, o ← device_operations (ent_db s) !! Snapshot_OperationID row; Some (row, o))
    (snapshots_of org device s).
Definition latest_revision (rows : list (DeviceEntitlementSnapshot * DeviceOperation)) :=
  head (order_by (λ a b, Snapshot_Revision b.1 <=? Snapshot_Revision a.1) rows).

(** [o.result_payload->>'platform_entitlement_revision' = s.revision::text] *)
Definition acknowledged (o : DeviceOperation) (row : DeviceEntitlementSnapshot) : bool :=
  bool_decide (DeviceOperation_Status o = DeviceOperationStatusSucceeded)
  && bool_decide (json_member_text (DeviceOperation_ResultPayload o) "platform_entitlement_revision"
                  = Some (dec_text (Snapshot_Revision row))).

(** Applied and pending revision of the product's services, and the last result. *)
Definition GetDeviceEntitlementReadModel (cloudID deviceID : string)
    : Ent (option Z * option Z * option DeviceEntitlementResult) :=
  s ← gets (λ s, s);
  let rows := snapshot_operations cloudID deviceID s in
  let newest := latest_revision rows in
  let result := (λ '(_, o), mkEntitlementResult (DeviceOperation_OperationID o) (DeviceOperation_Status o)
       (default "" (DeviceOperation_ErrorCode o)) (default false (DeviceOperation_Retryable o))) <$> newest in
  let pending := newest ≫= λ '(row, o),
    match DeviceOperation_Status o with
    | DeviceOperationStatusSucceeded | DeviceOperationStatusFailed | DeviceOperationStatusDeadLettered => None
    | _ => Some (Snapshot_ProductServiceRevision row)
    end in
  let confirmed := latest_revision (filter (λ '(row, o), acknowledged o row = true) rows) in
  let applied :=
    match confirmed with
    | Some (row, _) => Some (Snapshot_ProductServiceRevision row)
    | None =>
        raw ← latest_provision cloudID deviceID (ent_db s);
        match unmarshal_provision raw with
        | Err _ => None
        | Ok provision =>
            if bool_decide (PR_OrgID provision = cloudID)
               && bool_decide (PR_AccountDeviceID provision = deviceID)
            then PR_ProductServiceRevision provision else None
        end
    end in
  mret (applied, pending, result).

(** ** Statements on the larger state *)

Lemma with_ent_db_same s : with_ent_db (ent_db s) s = s.
Proof. by destruct s. Qed.

Lemma on_db_run {A} (m : Store A) s :
  on_db m s = ((m (ent_db s)).1, with_ent_db (m (ent_db s)).2 s).
Proof. unfold on_db, zoom. by destruct (m (ent_db s)). Qed.

Lemma on_db_ok {A} (m : Store A) s a s' :
  on_db m s = (Ok a, s') ↔ ∃ db', m (ent_db s) = (Ok a, db') ∧ s' = with_ent_db db' s.
Proof.
  unfold on_db, zoom. destruct (m (ent_db s)) as [[?|?] ?]; naive_solver.
Qed.

Lemma on_db_read {A} (m : Store A) s a s' :
  read_only m → on_db m s = (Ok a, s') → m (ent_db s) = (Ok a, ent_db s) ∧ s' = s.
Proof.
  intros Hm (db' & H & ->)%on_db_ok. apply (read_only_ok _ _ _ _ Hm) in H as E. subst db'.
  by rewrite with_ent_db_same.
Qed.

Lemma read_only_on_db {A} (m : Store A) : read_only m → read_only (on_db m).
Proof.
  intros Hm s. rewrite on_db_run. simpl. rewrite (Hm (ent_db s)). apply with_ent_db_same.
Qed.
#[export] Hint Resolve read_only_on_db : rtk.

(** ** Authorization *)

Lemma authorizeDeviceUserMutationTx_read actor org device permission :
  read_only (authorizeDeviceUserMutationTx actor org device permission).
Proof. intros db. by rewrite authorize_run. Qed.

Lemma lockPlatformActorTx_read actor : read_only (lockPlatformActorTx actor).
Proof. unfold lockPlatformActorTx. eauto 10 with rtk. Qed.
Lemma lockOperationalCloudTx_read cloud : read_only (lockOperationalCloudTx cloud).
Proof. unfold lockOperationalCloudTx. eauto 10 with rtk. Qed.
Lemma authorizeProductUserMutationTx_read actor cloud product platform :
  read_only (authorizeProductUserMutationTx actor cloud product platform).
Proof.
  unfold authorizeProductUserMutationTx, lockBrandCloudCollaborationTx. destruct platform.
  - apply read_only_bind; [apply lockPlatformActorTx_read|intros _; apply lockOperationalCloudTx_read].
  - eauto 10 with rtk.
Qed.
Lemma getDeviceForUpdateTx_read org id : read_only (getDeviceForUpdateTx org id).
Proof. unfold getDeviceForUpdateTx. eauto with rtk. Qed.
Lemma productGrantForEntitlementTx_read product cloud revision :
  read_only (productGrantForEntitlementTx product cloud revision).
Proof.
  unfold productGrantForEntitlementTx. eapply read_only_bind; [eauto with rtk|]. intros db.
  eapply read_only_bind; [eauto with rtk|]. intros g.
  destruct (unmarshal_strings (grant_options g)), (unmarshal_bindings (grant_bindings g)); eauto with rtk.
  destruct (_ && _); eauto with rtk.
Qed.
#[export] Hint Resolve authorizeDeviceUserMutationTx_read authorizeProductUserMutationTx_read
  getDeviceForUpdateTx_read productGrantForEntitlementTx_read : rtk.

(** A member of the cloud's staff who may work on the product, or on the whole cloud when no
    product is named. *)
Definition product_manager (actor cloud product : string) (r : Registry) : Prop :=
  brand_cloud r cloud ∧
  if bool_decide (product = "")
  then hasOrganizationPermission r actor cloud "registry_device.manage" = true ∧
       user_can_access_brand_cloud_product r actor cloud (Some "") = true
  else hasUserPermissionForResource r actor cloud "registry_device.manage" "product" product = true.

Lemma authorizeProductUserMutationTx_ok actor cloud product db db' :
  authorizeProductUserMutationTx actor cloud product false db = (Ok tt, db') →
  db' = db ∧ product_manager actor cloud product (registry db).
Proof.
  intros H. pose proof H as E. apply read_only_ok in E as ->; [|eauto with rtk]. split; [done|].
  unfold authorizeProductUserMutationTx in H. apply bind_ok in H as ([] & s1 & Hl & H).
  unfold lockBrandCloudCollaborationTx in Hl. inv_run. unfold product_manager.
  case_bool_decide; destruct_bools; (split; [by eexists|]); by try split.
Qed.

(** ** Grants *)

Lemma productGrantForEntitlementTx_ok product cloud revision db grant db' :
  productGrantForEntitlementTx product cloud revision db = (Ok grant, db') →
  db' = db ∧ ∃ g, g ∈ product_service_grants (registry db) ∧ grant_product_id g = product ∧
    grant_brand_cloud_id g = cloud ∧ grant_revision g = revision ∧
    unmarshal_strings (grant_options g) = Ok (PG_options grant) ∧
    unmarshal_bindings (grant_bindings g) = Ok (PG_bindings grant) ∧
    PG_digest grant = grant_snapshot_sha256 g ∧ PG_logRetentionDays grant = grant_log_retention_days g.
Proof.
  intros H. pose proof H as E. apply read_only_ok in E as ->; [|eauto with rtk]. split; [done|].
  unfold productGrantForEntitlementTx in H. apply bind_gets_ok, bind_row_ok in H as (g & Hg & H).
  apply grant_of_revision_in in Hg as (? & ? & ? & ?). exists g.
  destruct (unmarshal_strings _) as [options|]; [|done]. destruct (unmarshal_bindings _) as [bindings|]; [|done].
  destruct (_ && _); [|done]. inv_run. done.
Qed.

(** The options a device may have under a grant. *)
Record within_grant (effective options : list string) (bindings : option (list PlatformServiceCatalogOption))
    : Prop := {
  within_nodup : NoDup effective;
  within_codes : Forall (λ o, serviceOptionCodePattern o = true) effective;
  within_number : (length effective ≤ 64)%nat;
  within_options : effective ⊆ options;
  within_requires : ∀ b, b ∈ default [] bindings → Option_Code b ∈ effective → Option_Requires b ⊆ effective;
}.

Lemma validateHistoricalDeviceServices_ok effective product bindings :
  validateHistoricalDeviceServices effective product bindings = Ok tt →
  effective ≠ [] ∧ within_grant effective product bindings.
Proof.
  unfold validateHistoricalDeviceServices. case_bool_decide as He; [done|]. simpl.
  destruct (validateProductServiceOptions effective) as [[]|] eqn:Hv; [|done]. simpl.
  destruct (forallb (λ o, bool_decide (o ∈ product)) effective) eqn:E2; [|done]. simpl.
  destruct (forallb (dependencies_selected effective) _) eqn:E3; [|done]. intros _.
  pose proof (validateProductServiceOptions_ok _ Hv) as [Hn Hc]. split; [done|]. split; try done.
  - unfold validateProductServiceOptions in Hv. destruct (Nat.ltb_spec 64 (length effective)); [done|lia].
  - apply forallb_Forall in E2. rewrite Forall_forall in E2. intros o Ho.
    by apply E2, bool_decide_eq_true in Ho.
  - apply forallb_Forall in E3. rewrite Forall_forall in E3. intros b Hb Hcode o Ho.
    apply E3 in Hb. unfold dependencies_selected in Hb. rewrite bool_decide_true in Hb by done. simpl in Hb.
    apply forallb_Forall in Hb. rewrite Forall_forall in Hb. by apply Hb, bool_decide_eq_true in Ho.
Qed.

Lemma validateEffectiveDeviceServices_ok effective product bindings :
  validateEffectiveDeviceServices effective product bindings = Ok tt →
  "mqtt" ∈ effective ∧ within_grant effective product bindings.
Proof.
  unfold validateEffectiveDeviceServices. case_bool_decide; [|done]. simpl.
  by intros [_ ?]%validateHistoricalDeviceServices_ok.
Qed.

Lemma slices_Sort_perm l : slices_Sort l ≡ₚ l.
Proof. apply order_by_perm. Qed.

(** ** The newest row *)

Lemma newest_max {A} (f : A → Z) rows x :
  head (order_by (λ a b, f b <=? f a) rows) = Some x → x ∈ rows ∧ ∀ y, y ∈ rows → f y ≤ f x.
Proof.
  intros H. change (latest (λ a, mkTime (f a) 0) rows = Some x) in H. split; [by eapply latest_in|].
  intros y Hy. exact (latest_max (λ a, mkTime (f a) 0) _ _ _ H Hy).
Qed.

Lemma newest_none {A} (before : A → A → bool) rows : head (order_by before rows) = None → rows = [].
Proof.
  intros H. destruct (order_by before rows) eqn:E; [|done].
  apply Permutation_nil. rewrite <-(order_by_perm before rows), E. done.
Qed.

Lemma elem_of_snapshots_of org device s row :
  row ∈ snapshots_of org device s ↔ Snapshot_OrganizationID row = org ∧ Snapshot_AccountDeviceID row = device ∧
    ∃ k, device_entitlement_snapshots s !! k = Some row.
Proof. unfold snapshots_of. rewrite list_elem_of_filter, elem_of_rows_of. tauto. Qed.

(** ** Baselines *)

Lemma latestDeviceEntitlementBaselineTx_read device : read_only (latestDeviceEntitlementBaselineTx device).
Proof.
  unfold latestDeviceEntitlementBaselineTx. eapply read_only_bind; [eauto with rtk|]. intros s.
  destruct (latest_snapshot _); [eauto with rtk|]. eapply read_only_bind; [eauto with rtk|]. intros raw.
  destruct (unmarshal_provision raw) as [p|]; [|eauto with rtk].
  destruct (PR_ProductServiceRevision p); eauto with rtk.
Qed.
#[export] Hint Resolve latestDeviceEntitlementBaselineTx_read : rtk.

(** The newest snapshot of the device, or the provisioning it started with. *)
Record baseline_of (device : Device) (s : EntitlementDB) (b : DeviceEntitlementSnapshot) : Prop := {
  baseline_product : Device_DeviceItemProfileID device = Some (Snapshot_ProductID b);
  baseline_newest : ∀ row, row ∈ snapshots_of (Device_OrganizationID device) (Device_ID device) s →
    Snapshot_Revision row ≤ Snapshot_Revision b;
  baseline_origin :
    (Snapshot_Revision b = 0 ∧ snapshots_of (Device_OrganizationID device) (Device_ID device) s = []) ∨
    ∃ row, row ∈ snapshots_of (Device_OrganizationID device) (Device_ID device) s ∧
      Snapshot_Revision row = Snapshot_Revision b ∧
      Snapshot_VideoCloudDevid row = Snapshot_VideoCloudDevid b ∧
      Snapshot_ServiceGrantSHA256 row = Snapshot_ServiceGrantSHA256 b ∧
      Snapshot_ServiceOptions row = Snapshot_ServiceOptions b ∧
      Snapshot_ProductServiceRevision row = Snapshot_ProductServiceRevision b ∧
      (Snapshot_State row = Snapshot_State b ∨
       deactivated device = true ∧ Snapshot_State row = "active" ∧ Snapshot_State b = "suspended");
}.

Lemma latestDeviceEntitlementBaselineTx_ok device s b s' :
  latestDeviceEntitlementBaselineTx device s = (Ok b, s') → s' = s ∧ baseline_of device s b.
Proof.
  intros H. pose proof H as E. apply read_only_ok in E as ->; [|eauto with rtk]. split; [done|].
  unfold latestDeviceEntitlementBaselineTx in H. apply bind_gets_ok in H. cbv zeta in H.
  destruct (latest_snapshot _) as [row|] eqn:Hl.
  - apply newest_max in Hl as [Hin Hmax]. apply bind_reject_ok in H as [Hp H]. inv_run. destruct_bools.
    destruct (deactivated device && bool_decide (Snapshot_State row = "active")) eqn:Ed; destruct_bools;
      (split; simpl; [done|done|right; exists row; split_and!; try done; tauto]).
  - apply newest_none in Hl. apply bind_row_ok in H as (raw & _ & H).
    destruct (unmarshal_provision raw) as [p|]; [|done].
    destruct (PR_ProductServiceRevision p); [|done]. apply bind_reject_ok in H as [Hr H]. inv_run.
    destruct_bools. split; simpl; [done|rewrite Hl; set_solver|by left].
Qed.

(** ** Inserting a snapshot *)

Record snapshot_row_ok (row : DeviceEntitlementSnapshot) : Prop := {
  row_devid : btrim_blank (Snapshot_VideoCloudDevid row) = false;
  row_revision : 0 < Snapshot_Revision row;
  row_digest : handoffEvidenceDigest (Snapshot_ServiceGrantSHA256 row) = true;
  row_state : entitlement_state (Snapshot_State row) = true;
  row_retention : ∀ days, Snapshot_LogRetentionDays row = Some days → validLogRetention days = true;
}.

Lemma insert_snapshot_ok row s u s' :
  insert_snapshot row s = (Ok u, s') →
  snapshot_row_ok row ∧ device_entitlement_snapshots s !! Snapshot_OperationID row = None ∧
  (∀ k old, device_entitlement_snapshots s !! k = Some old →
     Snapshot_AccountDeviceID old = Snapshot_AccountDeviceID row → Snapshot_Revision old ≠ Snapshot_Revision row) ∧
  s' = with_snapshots (<[Snapshot_OperationID row := row]> (device_entitlement_snapshots s)) s.
Proof.
  unfold insert_snapshot. intros H.
  do 5 apply bind_reject_ok in H as [? H]. apply bind_gets_ok in H.
  apply bind_reject_ok in H as [Hk H]. apply bind_reject_ok in H as [Hu H].
  injection H as <-. destruct_bools. split_and!; try done.
  - split; try done; [lia|]. intros days E. rewrite E in *. by destruct_bools.
  - by apply eq_None_not_Some.
  - intros k old Hold Hd Hr. apply not_true_iff_false in Hu. apply Hu, existsb_true.
    exists old. split; [apply elem_of_rows_of; eauto|]. rewrite bool_decide_true by done. simpl. lia.
Qed.

(** ** A snapshot that is taken *)

Lemma snapshot_request_checks_ok writes input s u s' :
  snapshot_request_checks writes input s = (Ok u, s') →
  s' = s ∧ writes = true ∧ blank (SI_RequestedBy input) = false ∧ blank (SI_OperationID input) = false ∧
  blank (SI_CorrelationID input) = false ∧ blank (SI_MessageID input) = false ∧
  entitlement_state (SI_State input) = true.
Proof.
  unfold snapshot_request_checks. intros H. apply bind_reject_ok in H as [H1 H].
  apply bind_reject_ok in H as [H2 H]. apply bind_reject_ok in H as [_ H].
  apply reject_if_ok in H as [_ ->]. destruct_bools. done.
Qed.

(** What a batch job asks of a snapshot. *)
Record batch_step (input : DeviceEntitlementSnapshotInput) (product : string)
    (baseline : DeviceEntitlementSnapshot) (s : EntitlementDB) (j : ApplyJobRow) (i : ApplyItemRow) : Prop := {
  batch_job : product_service_apply_jobs s !! SI_BatchJobID input = Some j ∧
    Job_OrganizationID (apply_job j) = SI_OrganizationID input ∧ Job_ProductID (apply_job j) = product ∧
    Job_Status (apply_job j) = "active";
  batch_item : product_service_apply_items s !! (SI_BatchJobID input, SI_DeviceID input) = Some i ∧
    item_operation_id i = SI_OperationID input;
  batch_target : SI_TargetProductServiceRevision input = Some (Job_TargetRevision (apply_job j)) ∧
    default [] (requested_options input) ≡ₚ apply_target_options j;
  batch_baseline : Snapshot_Revision baseline = Baseline_Revision (item_baseline i) ∧
    Snapshot_ProductServiceRevision baseline = Baseline_ProductRevision (item_baseline i) ∧
    Snapshot_ServiceGrantSHA256 baseline = Baseline_Digest (item_baseline i) ∧
    Snapshot_State baseline = Baseline_State (item_baseline i) ∧
    Snapshot_VideoCloudDevid baseline = Baseline_VideoCloudDevid (item_baseline i) ∧
    Snapshot_ServiceOptions baseline ≡ₚ Baseline_Options (item_baseline i);
  batch_quiet : ∀ k o, device_operations (ent_db s) !! k = Some o →
    DeviceOperation_DeviceID o = SI_DeviceID input →
    DeviceOperation_OperationID o ≠ SI_BatchJobID input +:+ "/" +:+ SI_DeviceID input →
    terminal_operation o = true;
}.

Definition snapshot_audit (input : DeviceEntitlementSnapshotInput) (row : DeviceEntitlementSnapshot) (t : Time)
    : AuditEvent :=
  mkAuditEvent "device.entitlement.snapshot.requested" (Some (SI_RequestedBy input))
    (Some (SI_OrganizationID input)) "device" (SI_DeviceID input)
    (marshalJSONMap (map_literal
       [("operation_id", AString (SI_OperationID input));
        ("platform_entitlement_revision", AInt (Snapshot_Revision row));
        ("product_service_revision", AInt (Snapshot_ProductServiceRevision row));
        ("state", AString (Snapshot_State row));
        ("service_options", strings_value (Snapshot_ServiceOptions row))])) t.

(** The revision of the grant a snapshot is taken under. *)
Definition grant_revision_of (input : DeviceEntitlementSnapshotInput) (baseline : DeviceEntitlementSnapshot) : Z :=
  default (Snapshot_ProductServiceRevision baseline) (SI_TargetProductServiceRevision input).

(** The tables once the operation of a snapshot is written, which is when the baseline is read. *)
Definition operation_written (now_ : Time) (input : DeviceEntitlementSnapshotInput) (s : EntitlementDB)
    : EntitlementDB :=
  with_ent_db (with_new_operation (snapshot_operation input "" ∅ now_) (ent_db s)) s.

(** The state before and after, and where the new row comes from. *)
Record snapshot_taken (input : DeviceEntitlementSnapshotInput) (now_ : Time) (device : Device)
    (product : string) (baseline : DeviceEntitlementSnapshot) (grant : ProductGrant)
    (s : EntitlementDB) (r : DeviceEntitlementSnapshotResult) (s' : EntitlementDB) : Prop := {
  taken_device : device_in_org (SI_OrganizationID input) (SI_DeviceID input) (ent_db s) = Some device;
  taken_enabled : Device_DisabledAt device = None;
  taken_product : Device_DeviceItemProfileID device = Some product;
  taken_fresh : device_operations (ent_db s) !! SI_OperationID input = None;
  taken_message_fresh : device_message_outbox (ent_db s) !! SI_MessageID input = None;
  taken_baseline : baseline_of device s baseline;
  taken_read : latestDeviceEntitlementBaselineTx device (operation_written now_ input s)
    = (Ok baseline, operation_written now_ input s);
  taken_batch : SI_BatchJobID input ≠ "" → ∃ j i, batch_step input product baseline s j i;
  taken_grant : ∃ db, registry db = registry (ent_db s) ∧
    productGrantForEntitlementTx product (SI_OrganizationID input) (grant_revision_of input baseline) db
      = (Ok grant, db);
  taken_next : next_snapshot input product baseline (grant_revision_of input baseline) grant now_
    = Ok (SR_Snapshot r);
  taken_row : snapshot_row_ok (SR_Snapshot r);
  taken_unique : ∀ k old, device_entitlement_snapshots s !! k = Some old →
    Snapshot_AccountDeviceID old = SI_DeviceID input → Snapshot_Revision old ≠ Snapshot_Revision (SR_Snapshot r);
  taken_snapshot_fresh : device_entitlement_snapshots s !! SI_OperationID input = None;
  taken_created : SR_Created r = true;
  taken_operation : SR_Operation r =
    operation_row_of (lifecycle_create (snapshot_operation input "" ∅ now_)) (ent_db s);
  taken_operations : device_operations (ent_db s') =
    <[SI_OperationID input := SR_Operation r]> (device_operations (ent_db s));
  taken_message : ∃ db, now db = now (ent_db s) ∧ SR_Message r = lifecycle_message (SR_Operation r)
    (snapshot_operation input MessageTypeDeviceEntitlementSnapshotRequested
       (snapshot_outbox_payload (SR_Snapshot r) (SI_RequestedBy input)) now_) db;
  taken_message_ok : outbox_row_ok (SR_Message r);
  taken_outbox : device_message_outbox (ent_db s') =
    <[SI_MessageID input := SR_Message r]> (device_message_outbox (ent_db s));
  taken_snapshots : device_entitlement_snapshots s' =
    <[SI_OperationID input := SR_Snapshot r]> (device_entitlement_snapshots s);
  taken_audit : audit_events (ent_db s') =
    audit_events (ent_db s) ++ [snapshot_audit input (SR_Snapshot r) (now (ent_db s))];
  taken_rest : registry (ent_db s') = registry (ent_db s) ∧ now (ent_db s') = now (ent_db s) ∧
    devices (ent_db s') = devices (ent_db s) ∧
    device_message_inbox (ent_db s') = device_message_inbox (ent_db s) ∧
    device_group_members (ent_db s') = device_group_members (ent_db s) ∧
    product_service_apply_jobs s' = product_service_apply_jobs s ∧
    product_service_apply_items s' = product_service_apply_items s;
}.

Lemma next_snapshot_ok input product baseline revision grant now_ row :
  next_snapshot input product baseline revision grant now_ = Ok row →
  Snapshot_OrganizationID row = SI_OrganizationID input ∧ Snapshot_AccountDeviceID row = SI_DeviceID input ∧
  Snapshot_VideoCloudDevid row = Snapshot_VideoCloudDevid baseline ∧
  Snapshot_Revision row = wrap64 (Snapshot_Revision baseline + 1) ∧ Snapshot_ProductID row = product ∧
  Snapshot_ProductServiceRevision row = revision ∧ Snapshot_ServiceGrantSHA256 row = PG_digest grant ∧
  Snapshot_ServiceOptions row = default (Snapshot_ServiceOptions baseline) (requested_options input) ∧
  Snapshot_LogRetentionDays row =
    (if bool_decide ("device_logging" ∈ Snapshot_ServiceOptions row) then PG_logRetentionDays grant else None) ∧
  Snapshot_State row = SI_State input ∧ Snapshot_OperationID row = SI_OperationID input ∧
  "mqtt" ∈ Snapshot_ServiceOptions row ∧
  within_grant (Snapshot_ServiceOptions row) (PG_options grant) (PG_bindings grant) ∧
  (SI_TargetProductServiceRevision input = None → PG_digest grant = Snapshot_ServiceGrantSHA256 baseline).
Proof.
  unfold next_snapshot. intros H.
  assert (SI_TargetProductServiceRevision input = None → PG_digest grant = Snapshot_ServiceGrantSHA256 baseline)
    as Hd.
  { intros E. rewrite E in H. case_bool_decide; done. }
  destruct (match SI_TargetProductServiceRevision input with Some _ => _ | None => _ end); [done|].
  apply res_seq_ok in H as [Hv H]. apply validateEffectiveDeviceServices_ok in Hv as [Hm Hw].
  injection H as <-. simpl. split_and!; done.
Qed.

Lemma validateProductApplyItemTx_ok job cloud product device op target options s u s' :
  validateProductApplyItemTx job cloud product device op target options s = (Ok u, s') →
  s' = s ∧ ∃ j i, product_service_apply_jobs s !! job = Some j ∧
    Job_OrganizationID (apply_job j) = cloud ∧ Job_ProductID (apply_job j) = product ∧
    product_service_apply_items s !! (job, device) = Some i ∧ Job_Status (apply_job j) = "active" ∧
    item_operation_id i = op ∧ target = Some (Job_TargetRevision (apply_job j)) ∧
    options ≡ₚ apply_target_options j.
Proof.
  unfold validateProductApplyItemTx. intros H. apply bind_gets_ok, bind_row_ok in H as ([j i] & Hr & H).
  apply reject_if_ok in H as [H ->]. split; [done|]. exists j, i.
  destruct (product_service_apply_jobs s !! job) as [j'|] eqn:Hj; [|done]. simpl in Hr.
  destruct (_ && _) eqn:Ho; [|done].
  destruct (product_service_apply_items s !! (job, device)) as [i'|] eqn:Hi; [|done]. simpl in Hr.
  simplify_eq. destruct_bools. split_and!; try done. by apply serviceOptionSetsEqual_spec.
Qed.

Lemma validateProductApplyBaselineTx_ok job device baseline s u s' :
  validateProductApplyBaselineTx job device baseline s = (Ok u, s') →
  s' = s ∧ ∃ i, product_service_apply_items s !! (job, device) = Some i ∧
    Snapshot_Revision baseline = Baseline_Revision (item_baseline i) ∧
    Snapshot_ProductServiceRevision baseline = Baseline_ProductRevision (item_baseline i) ∧
    Snapshot_ServiceGrantSHA256 baseline = Baseline_Digest (item_baseline i) ∧
    Snapshot_State baseline = Baseline_State (item_baseline i) ∧
    Snapshot_VideoCloudDevid baseline = Baseline_VideoCloudDevid (item_baseline i) ∧
    Snapshot_ServiceOptions baseline ≡ₚ Baseline_Options (item_baseline i) ∧
    ∀ k o, device_operations (ent_db s) !! k = Some o → DeviceOperation_DeviceID o = device →
      DeviceOperation_OperationID o ≠ job +:+ "/" +:+ device → terminal_operation o = true.
Proof.
  unfold validateProductApplyBaselineTx. intros H. apply bind_gets_ok, bind_row_ok in H as (i & Hi & H).
  apply bind_reject_ok in H as [Hb H]. apply reject_if_ok in H as [Hc ->]. split; [done|]. exists i.
  destruct_bools. split_and!; try done; try lia; [by apply serviceOptionSetsEqual_spec|].
  intros k o Ho Hd Hop. apply not_false_iff_true. intros Ht. apply not_true_iff_false in Hc. apply Hc.
  apply existsb_true. exists o. split; [apply elem_of_rows_of; eauto|].
  by rewrite Ht, bool_decide_true, bool_decide_false by done.
Qed.

(** [validateProductApplyItemTx] has passed. *)
Definition item_checked (input : DeviceEntitlementSnapshotInput) (product : string) (s : EntitlementDB) : Prop :=
  ∃ j i, product_service_apply_jobs s !! SI_BatchJobID input = Some j ∧
    Job_OrganizationID (apply_job j) = SI_OrganizationID input ∧ Job_ProductID (apply_job j) = product ∧
    product_service_apply_items s !! (SI_BatchJobID input, SI_DeviceID input) = Some i ∧
    Job_Status (apply_job j) = "active" ∧ item_operation_id i = SI_OperationID input ∧
    SI_TargetProductServiceRevision input = Some (Job_TargetRevision (apply_job j)) ∧
    default [] (requested_options input) ≡ₚ apply_target_options j.

Lemma create_snapshot_ok input device product now_ s s1 r s' :
  s1 = with_ent_db (with_new_operation (snapshot_operation input "" ∅ now_) (ent_db s)) s →
  device_in_org (SI_OrganizationID input) (SI_DeviceID input) (ent_db s) = Some device →
  Device_DisabledAt device = None → Device_DeviceItemProfileID device = Some product →
  device_operations (ent_db s) !! SI_OperationID input = None →
  (SI_BatchJobID input ≠ "" → item_checked input product s) →
  create_snapshot input device product
    (operation_row_of (lifecycle_create (snapshot_operation input "" ∅ now_)) (ent_db s)) now_ s1 = (Ok r, s') →
  ∃ baseline grant, snapshot_taken input now_ device product baseline grant s r s'.
Proof.
  intros Es1 Hd Hen Hp Hf Hitem H. unfold create_snapshot in H.
  apply bind_ok in H as (baseline & s2 & Hb & H). pose proof Hb as Hread.
  apply latestDeviceEntitlementBaselineTx_ok in Hb as [-> Hb].
  apply bind_ok in H as ([] & s2 & Hv & H).
  assert (s2 = s1 ∧ (SI_BatchJobID input ≠ "" → ∃ j i, batch_step input product baseline s j i)) as [-> Hbatch].
  { case_bool_decide as Eb; simpl in Hv; [by injection Hv as <-|].
    apply validateProductApplyBaselineTx_ok in Hv as (-> & i & Hi & ? & ? & ? & ? & ? & ? & Hq).
    split; [done|]. intros _. destruct (Hitem Eb) as (j & i' & ? & ? & ? & Hi' & ? & ? & ? & ?).
    subst s1. simpl in Hi. rewrite Hi' in Hi. injection Hi as <-. exists j, i'. split; try done.
    intros k o Ho. apply (Hq k). simpl. rewrite lookup_insert_ne; [done|]. intros <-. congruence. }
  apply bind_ok in H as (grant & s2 & Hg & H). apply on_db_read in Hg as [Hg ->]; [|eauto with rtk].
  apply bind_lift_ok in H as (row & Hn & H). pose proof (next_snapshot_ok _ _ _ _ _ _ _ Hn) as Hrow.
  apply bind_ok in H as ([] & s2 & Hi & H). apply insert_snapshot_ok in Hi as (Hok & Hsf & Hu & ->).
  apply bind_ok in H as (m & s3 & Hm & H). apply on_db_ok in Hm as (db3 & Hm & ->).
  unfold createOutboxMessageTx in Hm. apply bind_gets_ok, insert_outbox_ok in Hm as (-> & Hmok & Hmf & _ & ->).
  apply bind_ok in H as ([] & s4 & Ha & H). apply on_db_ok in Ha as (db4 & Ha & ->).
  unfold create_audit_event, insert_audit_event in Ha. apply bind_gets_ok in Ha. injection Ha as <-.
  injection H as <- <-. destruct Hrow as (_ & Hdev & _ & _ & _ & _ & _ & _ & _ & _ & Hop & _ & _ & _).
  rewrite Hop in *. rewrite Hdev in Hu. subst s1. exists baseline, grant.
  split; try done; try (simpl; eauto; fail).
  - by destruct Hb as [? ? ?].
  - eexists. split; [|exact Hg]. done.
  - eexists. split; [|reflexivity]. done.
Qed.

(** A snapshot that is created: who asked for it, and how. *)
Lemma StartDeviceEntitlementSnapshot_created writes clock input s r s' :
  StartDeviceEntitlementSnapshot writes clock input s = (Ok r, s') → SR_Created r = true →
  ∃ device product baseline grant,
    writes = true ∧ blank (SI_RequestedBy input) = false ∧ blank (SI_OperationID input) = false ∧
    blank (SI_CorrelationID input) = false ∧ blank (SI_MessageID input) = false ∧
    entitlement_state (SI_State input) = true ∧
    (SI_BatchJobID input = "" → authorized (SI_RequestedBy input) (SI_OrganizationID input)
       (SI_DeviceID input) "lifecycle_operation.provision" (ent_db s) = true) ∧
    product_manager (SI_RequestedBy input) (SI_OrganizationID input) product (registry (ent_db s)) ∧
    cloud_deletion_fenced (registry (ent_db s)) (SI_OrganizationID input) = false ∧
    snapshot_taken input (snapshot_now clock input) device product baseline grant s r s'.
Proof.
  intros H Hc. unfold StartDeviceEntitlementSnapshot in H.
  apply bind_ok in H as ([] & s1 & Hck & H).
  apply snapshot_request_checks_ok in Hck as (-> & ? & ? & ? & ? & ? & ?).
  cbv zeta in H. rewrite transaction_ok in H.
  apply bind_ok in H as ([] & s1 & Ha & H).
  assert (s1 = s ∧ (SI_BatchJobID input = "" → authorized (SI_RequestedBy input) (SI_OrganizationID input)
    (SI_DeviceID input) "lifecycle_operation.provision" (ent_db s) = true)) as [-> Hauth].
  { case_bool_decide; [|by injection Ha as <-]. apply on_db_read in Ha as [Ha ->]; [|eauto with rtk].
    rewrite authorize_run in Ha. destruct (authorized _ _ _ _ _); done. }
  apply bind_ok in H as (device & s1 & Hd & H). apply on_db_read in Hd as [Hd ->]; [|eauto with rtk].
  apply getDeviceForUpdateTx_ok in Hd as [Hd _].
  apply bind_reject_ok in H as [Hen H]. apply bind_row_ok in H as (product & Hp & H).
  apply bind_ok in H as ([] & s1 & Hm & H). apply on_db_read in Hm as [Hm ->]; [|eauto with rtk].
  apply bind_ok in H as ([] & s1 & Hi & H).
  assert (s1 = s ∧ (SI_BatchJobID input ≠ "" → item_checked input product s)) as [-> Hitem].
  { case_bool_decide as Eb; simpl in Hi; [by injection Hi as <-|].
    apply validateProductApplyItemTx_ok in Hi as (-> & Hi). split; [done|]. intros _. exact Hi. }
  apply bind_ok in H as ([o created] & s1 & Ho & H). apply on_db_ok in Ho as (db1 & Ho & ->).
  rewrite createOrGetDeviceOperationTx_run in Ho. destruct (cloud_deletion_fenced _ _) eqn:Hfence; [done|].
  change (LI_OperationID _) with (SI_OperationID input) in Ho.
  destruct (device_operations (ent_db s) !! SI_OperationID input) eqn:Hf.
  { destruct (compareOperationCreate _ _ _); [|done]. injection Ho as <- <- <-. exfalso.
    unfold replay_snapshot in H. apply bind_ok in H as (? & ? & _ & H). apply bind_ok in H as (? & ? & _ & H).
    apply bind_ok in H as (? & ? & _ & H). injection H as <-. done. }
  injection Ho as <- <- <-. destruct_bools.
  eapply (create_snapshot_ok input device product _ s) in H as (baseline & grant & Ht); try done.
  - exists device, product, baseline, grant. split_and!; try done.
    by apply authorizeProductUserMutationTx_ok in Hm as [_ Hm].
  - by apply eq_None_not_Some.
Qed.

Lemma validateProductApplyReplayTx_read device row : read_only (validateProductApplyReplayTx device row).
Proof. unfold validateProductApplyReplayTx. eauto 12 with rtk. Qed.
Lemma getLatestOutboxMessageByOperationTx_read id : read_only (getLatestOutboxMessageByOperationTx id).
Proof. unfold getLatestOutboxMessageByOperationTx. eauto with rtk. Qed.
#[export] Hint Resolve validateProductApplyReplayTx_read getLatestOutboxMessageByOperationTx_read : rtk.
Lemma replay_snapshot_read input device o : read_only (replay_snapshot input device o).
Proof.
  unfold replay_snapshot, getDeviceEntitlementSnapshotByOperationTx.
  eapply read_only_bind; [eauto with rtk|]. intros row. eapply read_only_bind; [|eauto with rtk].
  case_bool_decide; simpl; eauto with rtk.
Qed.
#[export] Hint Resolve replay_snapshot_read : rtk.

(** Every run: a snapshot is created, or nothing changes. *)
Lemma StartDeviceEntitlementSnapshot_cases writes clock input s r s' :
  StartDeviceEntitlementSnapshot writes clock input s = (r, s') →
  (s' = s ∧ ∀ res, r = Ok res → SR_Created res = false ∧
     is_Some (device_operations (ent_db s) !! SI_OperationID input)) ∨
  ∃ res, r = Ok res ∧ SR_Created res = true.
Proof.
  intros H. destruct r as [res|e].
  - destruct (SR_Created res) eqn:Hc; [right; eauto|]. left.
    unfold StartDeviceEntitlementSnapshot in H. apply bind_ok in H as ([] & s1 & Hck & H).
    apply snapshot_request_checks_ok in Hck as (-> & _). cbv zeta in H. rewrite transaction_ok in H.
    apply bind_ok in H as ([] & s1 & Ha & H).
    assert (s1 = s) as ->.
    { case_bool_decide; [|by injection Ha as <-]. apply read_only_ok in Ha as ->; eauto with rtk. }
    apply bind_ok in H as (device & s1 & Hd & H). apply on_db_read in Hd as [_ ->]; [|eauto with rtk].
    apply bind_reject_ok in H as [_ H]. apply bind_row_ok in H as (product & _ & H).
    apply bind_ok in H as ([] & s1 & Hm & H). apply on_db_read in Hm as [_ ->]; [|eauto with rtk].
    apply bind_ok in H as ([] & s1 & Hi & H).
    assert (s1 = s) as ->.
    { case_bool_decide; simpl in Hi; [by injection Hi as <-|]. by apply validateProductApplyItemTx_ok in Hi as (-> & _). }
    apply bind_ok in H as ([o created] & s1 & Ho & H). apply on_db_ok in Ho as (db1 & Ho & ->).
    rewrite createOrGetDeviceOperationTx_run in Ho. destruct (cloud_deletion_fenced _ _); [done|].
    change (LI_OperationID _) with (SI_OperationID input) in Ho.
    destruct (device_operations (ent_db s) !! SI_OperationID input) eqn:Hf.
    + destruct (compareOperationCreate _ _ _); [|done]. injection Ho as <- <- <-.
      rewrite with_ent_db_same in H. apply read_only_ok in H as ->; [|eauto with rtk].
      split; [done|]. intros ? [= <-]. eauto.
    + injection Ho as <- <- <-. exfalso. unfold create_snapshot in H.
      repeat (apply bind_ok in H as (? & ? & _ & H)). injection H as <- _. done.
  - left. split; [|done]. unfold StartDeviceEntitlementSnapshot in H. apply bind_err in H as [H|([] & s1 & Hck & H)].
    + unfold snapshot_request_checks in H. apply (read_only_ok _ _ _ _) in H as ->; eauto 10 with rtk.
    + apply snapshot_request_checks_ok in Hck as (-> & _). cbv zeta in H. by apply transaction_err in H.
Qed.

(** The column is a bigint. *)
Definition revisions_fit (s : EntitlementDB) : Prop :=
  map_Forall (λ _ row, int64_range (Snapshot_Revision row) = true) (device_entitlement_snapshots s).

(** The revision of a new snapshot is the first after all of the device. *)
Lemma taken_revision input now_ device product baseline grant s r s' :
  revisions_fit s → Device_ID device = SI_DeviceID input →
  snapshot_taken input now_ device product baseline grant s r s' →
  Snapshot_Revision (SR_Snapshot r) = Snapshot_Revision baseline + 1 ∧
  ∀ row, row ∈ snapshots_of (SI_OrganizationID input) (SI_DeviceID input) s →
    Snapshot_Revision row < Snapshot_Revision (SR_Snapshot r).
Proof.
  intros Hfit Hid Ht. destruct (next_snapshot_ok _ _ _ _ _ _ _ (taken_next _ _ _ _ _ _ _ _ _ Ht))
    as (_ & _ & _ & Hr & _).
  pose proof (row_revision _ (taken_row _ _ _ _ _ _ _ _ _ Ht)) as Hpos.
  pose proof (taken_baseline _ _ _ _ _ _ _ _ _ Ht) as Hb.
  pose proof (taken_device _ _ _ _ _ _ _ _ _ Ht) as [_ Horg]%device_in_org_some.
  destruct Hb as [_ Hnew Horigin]. rewrite Horg, Hid in *.
  assert (0 ≤ Snapshot_Revision baseline + 1 ∧ int64_range (Snapshot_Revision baseline + 1) = true →
    Snapshot_Revision (SR_Snapshot r) = Snapshot_Revision baseline + 1) as Hw.
  { intros [_ Hi]. rewrite Hr, wrap64_id; [done|]. unfold int64_range in Hi. lia. }
  assert (- 2 ^ 63 ≤ Snapshot_Revision baseline < 2 ^ 63) as Hrange.
  { destruct Horigin as [[-> _]|(row & Hrow & <- & _)]; [lia|].
    apply elem_of_snapshots_of in Hrow as (_ & _ & k & Hk). apply Hfit in Hk. unfold int64_range in Hk. lia. }
  assert (Snapshot_Revision (SR_Snapshot r) = Snapshot_Revision baseline + 1) as E.
  { destruct (decide (Snapshot_Revision baseline + 1 < 2 ^ 63)) as [Hlt|Hge].
    - rewrite Hr. apply wrap64_id. lia.
    - assert (Snapshot_Revision baseline = 2 ^ 63 - 1) as Eb by lia. rewrite Hr, Eb in Hpos.
      vm_compute in Hpos. done. }
  split; [done|]. intros row Hrow. apply Hnew in Hrow. lia.
Qed.

(** C13: A snapshot is taken only for a request of someone who may manage the product and who, asking for one
    device, may provision it; asking as part of a batch, the job must be active, for this product,
    and have an item for this device with this very operation, target and options, whose baseline
    is the one read of the device once the operation is written, with nothing else running on the
    device.  The snapshot gives the
    device no more than the product's grant: the options are options of the grant at the revision
    the snapshot names, with what they require and with MQTT, the digest is the grant's, the logs are
    kept as the grant says; the revision is greater than every earlier one of the device; and the
    command that is queued says the same. *)
Theorem snapshot_within_grant writes clock input s r s' :
  devices_keyed (ent_db s) → revisions_fit s →
  StartDeviceEntitlementSnapshot writes clock input s = (Ok r, s') → SR_Created r = true →
  ∃ device product g options bindings, let row := SR_Snapshot r in
    device_in_org (SI_OrganizationID input) (SI_DeviceID input) (ent_db s) = Some device ∧
    Device_DisabledAt device = None ∧ Device_DeviceItemProfileID device = Some product ∧
    product_manager (SI_RequestedBy input) (SI_OrganizationID input) product (registry (ent_db s)) ∧
    (if bool_decide (SI_BatchJobID input = "")
     then authorized (SI_RequestedBy input) (SI_OrganizationID input) (SI_DeviceID input)
            "lifecycle_operation.provision" (ent_db s) = true
     else ∃ baseline j i, batch_step input product baseline s j i ∧
       let s1 := operation_written (snapshot_now clock input) input s in
       latestDeviceEntitlementBaselineTx device s1 = (Ok baseline, s1)) ∧
    g ∈ product_service_grants (registry (ent_db s)) ∧ grant_product_id g = product ∧
    grant_brand_cloud_id g = SI_OrganizationID input ∧
    grant_revision g = Snapshot_ProductServiceRevision row ∧
    grant_snapshot_sha256 g = Snapshot_ServiceGrantSHA256 row ∧
    unmarshal_strings (grant_options g) = Ok options ∧ unmarshal_bindings (grant_bindings g) = Ok bindings ∧
    within_grant (Snapshot_ServiceOptions row) options bindings ∧ "mqtt" ∈ Snapshot_ServiceOptions row ∧
    Snapshot_LogRetentionDays row = (if bool_decide ("device_logging" ∈ Snapshot_ServiceOptions row)
                                     then grant_log_retention_days g else None) ∧
    (∀ old, old ∈ snapshots_of (SI_OrganizationID input) (SI_DeviceID input) s →
       Snapshot_Revision old < Snapshot_Revision row) ∧
    device_entitlement_snapshots s' = <[SI_OperationID input := row]> (device_entitlement_snapshots s) ∧
    device_message_outbox (ent_db s') !! SI_MessageID input = Some (SR_Message r) ∧
    Outbox_Payload (SR_Message r) = marshalJSONMap (snapshot_outbox_payload row (SI_RequestedBy input)).
Proof.
  intros Hk Hfit H Hc. apply StartDeviceEntitlementSnapshot_created in H
    as (device & product & baseline & grant & _ & _ & _ & _ & _ & _ & Hau & Hpm & _ & Ht); [|done].
  assert (Device_ID device = SI_DeviceID input) as Hid.
  { pose proof (taken_device _ _ _ _ _ _ _ _ _ Ht) as [Hd _]%device_in_org_some. by apply Hk in Hd. }
  pose proof (taken_revision _ _ _ _ _ _ _ _ _ Hfit Hid Ht) as [_ Hrev].
  destruct (next_snapshot_ok _ _ _ _ _ _ _ (taken_next _ _ _ _ _ _ _ _ _ Ht))
    as (_ & _ & _ & _ & _ & Hgr & Hdig & _ & Hlog & _ & _ & Hmq & Hw & _).
  destruct (taken_grant _ _ _ _ _ _ _ _ _ Ht) as (db & Hreg & Hg).
  apply productGrantForEntitlementTx_ok in Hg as (_ & g & Hin & Hp & Hcl & Hgrev & Ho & Hbi & Hd & Hl).
  destruct (taken_message _ _ _ _ _ _ _ _ _ Ht) as (dbm & _ & Hm).
  exists device, product, g, (PG_options grant), (PG_bindings grant). cbv zeta.
  rewrite Hreg in Hin. rewrite Hdig, Hlog, <-Hl.
  split_and!; try done; try apply Ht; try congruence.
  - destruct (bool_decide_reflect (SI_BatchJobID input = "")) as [Eb|Eb]; [by apply Hau|].
    destruct (taken_batch _ _ _ _ _ _ _ _ _ Ht Eb) as (j & i & Hb).
    exists baseline, j, i. split; [done|]. apply (taken_read _ _ _ _ _ _ _ _ _ Ht).
  - by rewrite (taken_outbox _ _ _ _ _ _ _ _ _ Ht), lookup_insert_eq.
  - by rewrite Hm.
Qed.

Definition at_ent (t : Time) (s : EntitlementDB) : EntitlementDB := with_ent_db (with_now t (ent_db s)) s.

Lemma authorized_with actor org device permission db db' :
  registry db' = registry db → devices db' = devices db → device_group_members db' = device_group_members db →
  authorized actor org device permission db' = authorized actor org device permission db.
Proof.
  intros Hr Hd Hg. unfold authorized, hasUserDevicePermission, device_in_org. by rewrite Hr, Hd, Hg.
Qed.

Lemma authorizeProductUserMutationTx_with actor cloud product db db' :
  registry db' = registry db → (authorizeProductUserMutationTx actor cloud product false db).1 = Ok tt →
  authorizeProductUserMutationTx actor cloud product false db' = (Ok tt, db').
Proof.
  intros Hr H.
  assert (∀ db, authorizeProductUserMutationTx actor cloud product false db =
    ((authorizeProductUserMutationTx actor cloud product false
        (mkDB (registry db) sample_time unary 0 ∅ [] ∅ ∅ ∅ [])).1, db)) as E.
  { intros d. unfold authorizeProductUserMutationTx, lockBrandCloudCollaborationTx, mbind, M_bind, gets.
    simpl. destruct (organizations (registry d) !! cloud); [|done]. simpl.
    destruct (negb _ || _); [done|]. simpl. by destruct (negb (if bool_decide _ then _ else _)). }
  rewrite E, Hr. rewrite E in H. cbn [fst] in H. by rewrite H.
Qed.

(** The way to the operation. *)
Record snapshot_admitted (writes : bool) (input : DeviceEntitlementSnapshotInput) (s : EntitlementDB)
    (device : Device) (product : string) : Prop := {
  admitted_checks : ∀ s1, snapshot_request_checks writes input s1 = (Ok tt, s1);
  admitted_user : SI_BatchJobID input = "" → authorized (SI_RequestedBy input) (SI_OrganizationID input)
    (SI_DeviceID input) "lifecycle_operation.provision" (ent_db s) = true;
  admitted_device : device_in_org (SI_OrganizationID input) (SI_DeviceID input) (ent_db s) = Some device;
  admitted_enabled : Device_DisabledAt device = None;
  admitted_product : Device_DeviceItemProfileID device = Some product;
  admitted_manager : (authorizeProductUserMutationTx (SI_RequestedBy input) (SI_OrganizationID input) product
    false (ent_db s)).1 = Ok tt;
  admitted_item : SI_BatchJobID input ≠ "" →
    validateProductApplyItemTx (SI_BatchJobID input) (SI_OrganizationID input) product (SI_DeviceID input)
      (SI_OperationID input) (SI_TargetProductServiceRevision input) (default [] (requested_options input)) s
    = (Ok tt, s);
}.

Lemma validateProductApplyItemTx_with job cloud product device op target options s s' :
  product_service_apply_jobs s' = product_service_apply_jobs s →
  product_service_apply_items s' = product_service_apply_items s →
  validateProductApplyItemTx job cloud product device op target options s = (Ok tt, s) →
  validateProductApplyItemTx job cloud product device op target options s' = (Ok tt, s').
Proof.
  intros Hj Hi. unfold validateProductApplyItemTx, mbind, M_bind, gets, row_or, reject_if.
  change (@option_bind) with (@mbind option _) in *. rewrite Hj, Hi.
  match goal with |- context [match ?o with Some _ => mret _ | None => throw _ end] => destruct o as [[j i]|] end;
    [|done].
  unfold mret, M_ret. destruct (_ || _); done.
Qed.

Lemma snapshot_admitted_with writes input s s' device product :
  registry (ent_db s') = registry (ent_db s) → devices (ent_db s') = devices (ent_db s) →
  device_group_members (ent_db s') = device_group_members (ent_db s) →
  product_service_apply_jobs s' = product_service_apply_jobs s →
  product_service_apply_items s' = product_service_apply_items s →
  snapshot_admitted writes input s device product → snapshot_admitted writes input s' device product.
Proof.
  intros Hr Hd Hg Hj Hi []. split; try done.
  - intros Hb. rewrite (authorized_with _ _ _ _ (ent_db s)) by done. auto.
  - unfold device_in_org in *. by rewrite Hd.
  - by rewrite (authorizeProductUserMutationTx_with _ _ _ (ent_db s)).
  - intros Hb. apply (validateProductApplyItemTx_with _ _ _ _ _ _ _ s); auto.
Qed.

(** From the operation on. *)
Definition snapshot_rest (clock : Time) (input : DeviceEntitlementSnapshotInput) (device : Device)
    (product : string) : Ent DeviceEntitlementSnapshotResult :=
  '(operation, created) ← on_db (createOrGetDeviceOperationTx
      (snapshot_operation input "" ∅ (snapshot_now clock input)));
  if (created : bool) then create_snapshot input device product operation (snapshot_now clock input)
  else replay_snapshot input device operation.

Lemma StartDeviceEntitlementSnapshot_admitted writes clock input s r s' :
  StartDeviceEntitlementSnapshot writes clock input s = (Ok r, s') →
  ∃ device product, snapshot_admitted writes input s device product ∧
    snapshot_rest clock input device product s = (Ok r, s').
Proof.
  unfold StartDeviceEntitlementSnapshot. cbv zeta.
  intros H. apply bind_ok in H as ([] & s1 & Hck & H). rewrite transaction_ok in H.
  assert (∀ s1, snapshot_request_checks writes input s1 = (Ok tt, s1)) as Hall.
  { intros s2. unfold snapshot_request_checks in *. apply bind_reject_ok in Hck as [H1 Hck].
    apply bind_reject_ok in Hck as [H2 Hck]. apply bind_reject_ok in Hck as [H3 Hck].
    apply reject_if_ok in Hck as [H4 _]. by rewrite !bind_reject_run, H1, H2, H3, H4. }
  pose proof (snapshot_request_checks_ok _ _ _ _ _ Hck) as (-> & _).
  apply bind_ok in H as ([] & s1 & Ha & H).
  assert (s1 = s ∧ (SI_BatchJobID input = "" → authorized (SI_RequestedBy input) (SI_OrganizationID input)
    (SI_DeviceID input) "lifecycle_operation.provision" (ent_db s) = true)) as [-> Hauth].
  { case_bool_decide; [|by injection Ha as <-]. apply on_db_read in Ha as [Ha ->]; [|eauto with rtk].
    rewrite authorize_run in Ha. destruct (authorized _ _ _ _ _); done. }
  apply bind_ok in H as (device & s1 & Hd & H). apply on_db_read in Hd as [Hd ->]; [|eauto with rtk].
  apply getDeviceForUpdateTx_ok in Hd as [Hd _].
  apply bind_reject_ok in H as [Hen H]. apply bind_row_ok in H as (product & Hp & H).
  apply bind_ok in H as ([] & s1 & Hm & H). apply on_db_read in Hm as [Hm ->]; [|eauto with rtk].
  apply bind_ok in H as ([] & s1 & Hi & H).
  exists device, product. destruct_bools. case_bool_decide as Eb; simpl in Hi.
  - injection Hi as <-. split; [|exact H]. split; try done; [by apply eq_None_not_Some|by rewrite Hm].
  - pose proof (validateProductApplyItemTx_ok _ _ _ _ _ _ _ _ _ _ Hi) as [-> _].
    split; [|exact H]. split; try done; [by apply eq_None_not_Some|by rewrite Hm].
Qed.

Lemma bind_run {S A B} (m : M S A) (f : A → M S B) s a s1 : m s = (Ok a, s1) → (m ≫= f) s = f a s1.
Proof. unfold mbind, M_bind. by intros ->. Qed.

Lemma StartDeviceEntitlementSnapshot_run writes clock input s device product :
  snapshot_admitted writes input s device product →
  StartDeviceEntitlementSnapshot writes clock input s = transaction (snapshot_rest clock input device product) s.
Proof.
  intros [Hck Hau Hd Hen Hp Hm Hi]. unfold StartDeviceEntitlementSnapshot. cbv zeta.
  rewrite (bind_run _ _ s tt s (Hck s)). unfold transaction.
  match goal with |- match ?m s with _ => _ end = _ =>
    assert (m s = snapshot_rest clock input device product s) as ->; [|done] end.
  rewrite (bind_run _ _ s tt s).
  2: { case_bool_decide as Eb; [|done]. rewrite on_db_run, authorize_run, (Hau Eb). simpl.
       by rewrite with_ent_db_same. }
  rewrite (bind_run _ _ s device s).
  2: { rewrite on_db_run. unfold getDeviceForUpdateTx, mbind, M_bind, gets, row_or. rewrite Hd. simpl.
       by rewrite with_ent_db_same. }
  rewrite bind_reject_run, Hen, bool_decide_false by (by intros []).
  rewrite Hp. rewrite (bind_run _ _ s product s) by done.
  rewrite (bind_run _ _ s tt s).
  2: { rewrite on_db_run, (authorizeProductUserMutationTx_with _ _ _ (ent_db s)) by done. simpl.
       by rewrite with_ent_db_same. }
  rewrite (bind_run _ _ s tt s); [done|]. case_bool_decide as Eb; [done|]. simpl. by apply Hi.
Qed.

(** What the replay of a batch asks of the device: the snapshot is still the newest, of the device's present
    identity, not of an active state on a deactivated device, and nothing else runs on it. *)
Record replayable (device : Device) (row : DeviceEntitlementSnapshot) (s : EntitlementDB) : Prop := {
  replay_newest : ∃ newest, latest_snapshot
      (snapshots_of (Device_OrganizationID device) (Device_ID device) s) = Some newest ∧
    Snapshot_Revision newest = Snapshot_Revision row;
  replay_identity : lifecycleMetadataString (Device_Metadata device) DeviceMetadataVideoCloudDevid =
    Some (Snapshot_VideoCloudDevid row);
  replay_state : deactivated device = true → Snapshot_State row ≠ "active";
  replay_quiet : ∀ k o, device_operations (ent_db s) !! k = Some o →
    DeviceOperation_OrganizationID o = Device_OrganizationID device →
    DeviceOperation_DeviceID o = Device_ID device →
    DeviceOperation_OperationID o ≠ Snapshot_OperationID row → terminal_operation o = true;
}.

Lemma validateProductApplyReplayTx_run device row s :
  (validateProductApplyReplayTx device row s = (Ok tt, s) ∧ replayable device row s) ∨
  (∃ e, validateProductApplyReplayTx device row s = (Err e, s)) ∧ ¬ replayable device row s.
Proof.
  destruct (validateProductApplyReplayTx device row s) as [x s1] eqn:H.
  pose proof H as E. apply read_only_ok in E as ->; [|eauto with rtk].
  unfold validateProductApplyReplayTx in H. unfold mbind at 1, M_bind at 1, gets in H.
  destruct (latest_snapshot _) as [newest|] eqn:Hl.
  2: { simpl in H. injection H as <-. right. split; [by eexists|].
       intros [(n & Hn & _) _ _ _]. congruence. }
  simpl in H. unfold mbind at 1, M_bind at 1, row_or, mret, M_ret in H.
  rewrite !bind_reject_run in H.
  destruct (Z.eqb_spec (Snapshot_Revision newest) (Snapshot_Revision row)) as [Hrev|Hrev]; simpl in H.
  2: { injection H as <-. right. split; [by eexists|]. intros [(n & Hn & ?) _ _ _]. congruence. }
  case_bool_decide as Hv; simpl in H.
  2: { injection H as <-. right. split; [by eexists|]. by intros []. }
  destruct (deactivated device && bool_decide (Snapshot_State row = "active")) eqn:Hs.
  { injection H as <-. right. split; [by eexists|]. intros [_ _ Hst _]. destruct_bools. by apply Hst. }
  unfold reject_if in H. destruct (conflicting_operation _ _) eqn:Hc; injection H as <-; [right|left].
  - split; [by eexists|]. intros [_ _ _ Hq]. unfold conflicting_operation in Hc.
    apply existsb_true in Hc as (o & [k Ho]%elem_of_rows_of & Hc). destruct_bools.
    rewrite (Hq k o) in *; done.
  - split; [done|]. split; [by exists newest|done| |].
    + intros Hd. rewrite Hd in Hs. simpl in Hs. by apply bool_decide_eq_false in Hs.
    + intros k o Ho H1 H2 H3. apply not_false_iff_true. intros Ht. apply not_true_iff_false in Hc. apply Hc.
      apply existsb_true. exists o. split; [apply elem_of_rows_of; eauto|].
      by rewrite Ht, !bool_decide_true, bool_decide_false by done.
Qed.

Lemma replay_snapshot_run input device o s row m :
  device_entitlement_snapshots s !! SI_OperationID input = Some row →
  latest Outbox_CreatedAt (messages_of (SI_OperationID input) (ent_db s)) = Some m →
  (SI_BatchJobID input = "" ∨ replayable device row s →
     replay_snapshot input device o s = (Ok (mkSnapshotResult row o m false), s)) ∧
  (SI_BatchJobID input ≠ "" → ¬ replayable device row s → ∃ e, replay_snapshot input device o s = (Err e, s)).
Proof.
  intros Hrow Hm. unfold replay_snapshot.
  assert (getDeviceEntitlementSnapshotByOperationTx (SI_OperationID input) s = (Ok row, s)) as Hget.
  { unfold getDeviceEntitlementSnapshotByOperationTx, mbind, M_bind, gets, row_or. by rewrite Hrow. }
  rewrite (bind_run _ _ s row s Hget).
  assert (on_db (getLatestOutboxMessageByOperationTx (SI_OperationID input)) s = (Ok m, s)) as Hmsg.
  { rewrite on_db_run. unfold getLatestOutboxMessageByOperationTx, mbind, M_bind, gets, row_or. rewrite Hm. simpl.
    by rewrite with_ent_db_same. }
  destruct (validateProductApplyReplayTx_run device row s) as [[E Hre]|[[e E] Hre]]; split.
  - intros _. rewrite (bind_run _ _ s tt s) by (by case_bool_decide). by rewrite (bind_run _ _ s m s Hmsg).
  - done.
  - intros [Hb|]; [|done]. rewrite (bind_run _ _ s tt s) by (by rewrite bool_decide_true by done).
    by rewrite (bind_run _ _ s m s Hmsg).
  - intros Hb _. exists e. rewrite bool_decide_false by done. apply bind_err. by left.
Qed.

Lemma replay_snapshot_ok input device o s r s' :
  replay_snapshot input device o s = (Ok r, s') →
  s' = s ∧ device_entitlement_snapshots s !! SI_OperationID input = Some (SR_Snapshot r) ∧
  latest Outbox_CreatedAt (messages_of (SI_OperationID input) (ent_db s)) = Some (SR_Message r) ∧
  SR_Operation r = o ∧ SR_Created r = false.
Proof.
  intros H. unfold replay_snapshot, getDeviceEntitlementSnapshotByOperationTx in H.
  apply bind_ok in H as (row & s1 & Hr & H). apply bind_gets_ok, row_or_ok in Hr as [Hr ->].
  apply bind_ok in H as ([] & s1 & Hv & H).
  assert (s1 = s) as ->.
  { case_bool_decide; simpl in Hv; [by injection Hv as <-|]. apply read_only_ok in Hv as ->; eauto with rtk. }
  apply bind_ok in H as (m & s1 & Hm & H). apply on_db_ok in Hm as (db' & Hm & ->).
  unfold getLatestOutboxMessageByOperationTx in Hm. apply bind_gets_ok, row_or_ok in Hm as [Hm ->].
  injection H as <- <-. rewrite with_ent_db_same. done.
Qed.

(** What the operation of a request must have been asked for; the time plays no part. *)
Definition asked_operation (input : DeviceEntitlementSnapshotInput) : DeviceOperationCreateInput :=
  lifecycle_create (snapshot_operation input "" ∅ zero_time).

Lemma asked_operation_at clock input o :
  same_operation o (asked_operation input) ↔
  is_ok (compareOperationCreate o (lifecycle_create (snapshot_operation input "" ∅ (snapshot_now clock input)))
    (marshalJSONMap (snapshot_request_payload input))) = true.
Proof.
  change (same_operation o (asked_operation input)) with
    (same_operation o (lifecycle_create (snapshot_operation input "" ∅ (snapshot_now clock input)))).
  change (snapshot_request_payload input) with
    (OCI_RequestPayload (lifecycle_create (snapshot_operation input "" ∅ (snapshot_now clock input)))).
  by destruct (compareOperationCreate_run o
    (lifecycle_create (snapshot_operation input "" ∅ (snapshot_now clock input)))) as [[-> ?]|[-> ?]].
Qed.

(** A request whose result [row] stands in the tables: it would be admitted as it was, and the operation,
    the snapshot and a command are there. *)
Record request_stands (writes : bool) (input : DeviceEntitlementSnapshotInput) (row : DeviceEntitlementSnapshot)
    (s : EntitlementDB) (device : Device) (o : DeviceOperation) (m : DeviceMessageOutbox) : Prop := {
  stands_admitted : ∃ product, snapshot_admitted writes input s device product;
  stands_open : cloud_deletion_fenced (registry (ent_db s)) (SI_OrganizationID input) = false;
  stands_operation : device_operations (ent_db s) !! SI_OperationID input = Some o;
  stands_asked : same_operation o (asked_operation input);
  stands_snapshot : device_entitlement_snapshots s !! SI_OperationID input = Some row;
  stands_message : latest Outbox_CreatedAt (messages_of (SI_OperationID input) (ent_db s)) = Some m;
}.

(** The operation is there: the request answers with what it created. *)
Lemma snapshot_operation_exists writes clock input s o device row m :
  request_stands writes input row s device o m →
  (SI_BatchJobID input = "" ∨ replayable device row s →
     StartDeviceEntitlementSnapshot writes clock input s = (Ok (mkSnapshotResult row o m false), s)) ∧
  (SI_BatchJobID input ≠ "" → ¬ replayable device row s →
     ∃ e, StartDeviceEntitlementSnapshot writes clock input s = (Err e, s)).
Proof.
  intros [(product & Ha) Hf Ho Hc Hrow Hm].
  assert (StartDeviceEntitlementSnapshot writes clock input s = transaction (replay_snapshot input device o) s) as ->.
  { rewrite (StartDeviceEntitlementSnapshot_run _ _ _ _ _ _ Ha). unfold transaction.
    assert (snapshot_rest clock input device product s = replay_snapshot input device o s) as ->; [|done].
    unfold snapshot_rest. rewrite (bind_run _ _ s (o, false) s); [done|].
    rewrite on_db_run, createOrGetDeviceOperationTx_run. change (LI_OrganizationID _) with (SI_OrganizationID input).
    change (LI_OperationID _) with (SI_OperationID input). rewrite Hf, Ho.
    change (LI_RequestPayload _) with (snapshot_request_payload input).
    apply (asked_operation_at clock) in Hc. destruct (compareOperationCreate _ _ _); [|done]. simpl.
    by rewrite with_ent_db_same. }
  destruct (replay_snapshot_run input device o s row m Hrow Hm) as [H1 H2]. unfold transaction. split.
  - intros H. by rewrite H1.
  - intros Hb Hn. destruct (H2 Hb Hn) as [e ->]. by exists e.
Qed.

(** Right after a request its result stands. *)
Lemma request_stands_after writes clock input s r s' t :
  outbox_fk (ent_db s) → StartDeviceEntitlementSnapshot writes clock input s = (Ok r, s') →
  ∃ device, request_stands writes input (SR_Snapshot r) (at_ent t s') device (SR_Operation r) (SR_Message r).
Proof.
  intros Hfk H. apply StartDeviceEntitlementSnapshot_admitted in H as (device & product & Ha & H).
  exists device. unfold snapshot_rest in H.
  apply bind_ok in H as ([o created] & s1 & Ho & H). apply on_db_ok in Ho as (db1 & Ho & ->).
  rewrite createOrGetDeviceOperationTx_run in Ho. destruct (cloud_deletion_fenced _ _) eqn:Hf; [done|].
  change (LI_OperationID _) with (SI_OperationID input) in Ho.
  change (LI_OrganizationID _) with (SI_OrganizationID input) in Hf.
  destruct (device_operations (ent_db s) !! SI_OperationID input) as [o'|] eqn:Hop.
  - destruct (compareOperationCreate _ _ _) as [u|] eqn:Hc; [|done]. injection Ho as <- <- <-.
    rewrite with_ent_db_same in H. apply replay_snapshot_ok in H as (-> & Hrow & Hm & Hro & _).
    rewrite Hro. split; try done; [exists product; by apply (snapshot_admitted_with _ _ s)|].
    apply (asked_operation_at clock).
    by match type of Hc with ?c = _ => change (is_ok c = true); rewrite Hc end.
  - injection Ho as <- <- <-. pose proof Ha as [Hck Hau Hd Hen Hp Hpm Hi].
    eapply (create_snapshot_ok input device product _ s) in H as (baseline & grant & Ht); try done.
    2: { intros Hb. apply Hi in Hb. apply validateProductApplyItemTx_ok in Hb as [_ Hb]. exact Hb. }
    destruct (taken_rest _ _ _ _ _ _ _ _ _ Ht) as (Hr & _ & Hdev & _ & Hgr & Hj & Hit).
    split; [exists product| | | | |].
    + by apply (snapshot_admitted_with _ _ s).
    + simpl. by rewrite Hr.
    + simpl. rewrite (taken_operations _ _ _ _ _ _ _ _ _ Ht). apply lookup_insert_eq.
    + rewrite (taken_operation _ _ _ _ _ _ _ _ _ Ht). unfold same_operation, asked_operation. simpl.
      by rewrite marshalJSONMap_idemp.
    + simpl. rewrite (taken_snapshots _ _ _ _ _ _ _ _ _ Ht). apply lookup_insert_eq.
    + destruct (taken_message _ _ _ _ _ _ _ _ _ Ht) as (dbm & _ & Hm). apply latest_single.
      eapply (messages_of_fresh _ (SI_MessageID input) _ (ent_db s)); try done; try apply Ht.
      by rewrite Hm, (taken_operation _ _ _ _ _ _ _ _ _ Ht).
Qed.

(** C17: Asking for the same snapshot again changes nothing and answers with what the first request created.
    The result of a request stands in the tables right after it.  At any later time and in whatever tables it still
    stands in (the request would still be admitted, the cloud is not being deleted, the operation
    is for the same request, its status may have moved on, and the snapshot and a command of the
    operation are there), asking for one device answers with the snapshot, the operation and the
    newest command as they are by then.  Asking as part of a batch is answered so as long as the
    snapshot is the device's newest, of its present identity, not active for a device that is deactivated, and nothing
    else runs on the device; when not, it is refused.  Either way no table changes. *)
Theorem snapshot_start_idempotent writes clock input s r s' :
  outbox_fk (ent_db s) → StartDeviceEntitlementSnapshot writes clock input s = (Ok r, s') →
  (∀ t, ∃ device,
     request_stands writes input (SR_Snapshot r) (at_ent t s') device (SR_Operation r) (SR_Message r)) ∧
  ∀ clock2 s2 device o m, request_stands writes input (SR_Snapshot r) s2 device o m →
    (SI_BatchJobID input = "" ∨ replayable device (SR_Snapshot r) s2 →
       StartDeviceEntitlementSnapshot writes clock2 input s2 =
         (Ok (mkSnapshotResult (SR_Snapshot r) o m false), s2)) ∧
    (SI_BatchJobID input ≠ "" → ¬ replayable device (SR_Snapshot r) s2 →
       ∃ e, StartDeviceEntitlementSnapshot writes clock2 input s2 = (Err e, s2)).
Proof.
  intros Hfk H. split; [intros t; by eapply request_stands_after|].
  intros clock2 s2 device o m. apply snapshot_operation_exists.
Qed.

(** ** The theorems at work on a small store *)

Definition sample_mqtt : PlatformServiceCatalogOption :=
  mkCatalogOption "mqtt" "MQTT" "Messages" [] [] "mqtt" "1" true "".
Definition sample_logging : PlatformServiceCatalogOption :=
  mkCatalogOption "device_logging" "Logs" "Device logs" ["mqtt"] [7; 30; 90] "logs" "1" true "".

Definition sample_product : string := "22222222-2222-4222-8222-222222222222".
Definition sample_service_grant (revision : Z) (options : list string)
    (bindings : list PlatformServiceCatalogOption) (days : option Z) : ProductServiceGrant :=
  mkGrant sample_product revision sample_org (strings_value options) (bindings_json (Some bindings))
    match encodeProductServiceGrantWithRetention options (Some bindings) days with Ok d => d | Err _ => "" end days.
Definition sample_grant_1 : ProductServiceGrant := Eval vm_compute in
  sample_service_grant 1 ["mqtt"] [sample_mqtt] None.
Definition sample_grant_2 : ProductServiceGrant := Eval vm_compute in
  sample_service_grant 2 ["device_logging"; "mqtt"] [sample_logging; sample_mqtt] (Some 30).

Definition sample_product_registry : Registry :=
  mkRegistry {["user-1" := sample_user]}
    {[sample_org := mkOrganization sample_org "Org" OrganizationKindBrandCloud
        OrganizationStatusActive OrganizationTierCommercial 5 None]}
    [mkMember sample_org "user-1" RoleOwner None None] (roles sample_registry) (role_assignments sample_registry)
    {[sample_product := mkProfile sample_product sample_org "camera" DeviceItemProfileStatusActive
        DeviceCategoryIPCamera None None ∅ "ca-1" "issuer-1" ["mqtt"] None]}
    [] [] [] [sample_grant_2; sample_grant_1] ∅ ∅ [].

(** The device was provisioned under the first grant. *)
Definition sample_provisioning : DeviceOperation :=
  mkDeviceOperation "id-op-1" "op-1" "corr-1" sample_org sample_uuid DeviceOperationTypeProvision
    DeviceOperationStatusSucceeded (Some "user-1") ∅ ∅ None None None sample_time sample_time (Some sample_time).
Definition sample_provision_message : DeviceMessageOutbox :=
  mkDeviceMessageOutbox "id-msg-1" "msg-1" "op-1" "corr-1" None StreamAccountVideoCommands
    MessageTypeDeviceProvisionRequested "1.0" sample_uuid
    (map_literal [("org_id", AString sample_org); ("account_device_id", AString sample_uuid);
       ("video_cloud_devid", AString "devid-1"); ("activity_id", AString "act-1");
       ("clip_public_key", AString "clip"); ("service_options", strings_value ["mqtt"]);
       ("product_id", AString sample_product); ("product_service_revision", AInt 1);
       ("service_grant_sha256", AString (grant_snapshot_sha256 sample_grant_1));
       ("requested_by", AString "user-1")])
    DeviceMessageOutboxStatusPublished 1 None sample_time (Some sample_time) sample_time sample_time.
Definition sample_activated_device : Device :=
  mkDevice sample_uuid sample_org "Camera" DeviceCategoryIPCamera None None None None DeviceStatusOnline None
    (list_to_map [(DeviceMetadataVideoCloudDevid, AString "devid-1");
                  (DeviceMetadataVideoCloudActivationStatus, AString "activated")])
    sample_time sample_time None (Some sample_product).
Definition sample_ent : EntitlementDB :=
  mkEntitlementDB
    (mkDB sample_product_registry (mkTime (1700000100 * Second) 0) unary 0
       {[sample_uuid := sample_activated_device]} [] {["op-1" := sample_provisioning]}
       {["msg-1" := sample_provision_message]} ∅ []) ∅ ∅ ∅.

Definition sample_snapshot_input : DeviceEntitlementSnapshotInput :=
  mkSnapshotInput "" "op-2" "corr-2" "msg-2" sample_org sample_uuid "user-1" (Some 2)
    (Some ["mqtt"; "device_logging"]) "active" sample_time.
Definition sample_start (s : EntitlementDB) : res DeviceEntitlementSnapshotResult * EntitlementDB :=
  StartDeviceEntitlementSnapshot true sample_time sample_snapshot_input s.

Lemma sample_ent_keyed : devices_keyed (ent_db sample_ent).
Proof. by apply map_Forall_singleton. Qed.
Lemma sample_ent_fk : outbox_fk (ent_db sample_ent).
Proof. apply map_Forall_singleton. vm_compute. eauto. Qed.
Lemma sample_ent_fit : revisions_fit sample_ent.
Proof. apply map_Forall_empty. Qed.

Example sample_start_created : succeeds_with (λ r _, SR_Created r) sample_start sample_ent = true.
Proof. vm_compute. reflexivity. Qed.

Lemma snapshot_within_grant_witness :
  ∃ r s', sample_start sample_ent = (Ok r, s') ∧ Snapshot_ServiceOptions (SR_Snapshot r) = ["device_logging"; "mqtt"] ∧
    Snapshot_LogRetentionDays (SR_Snapshot r) = Some 30 ∧ "mqtt" ∈ Snapshot_ServiceOptions (SR_Snapshot r) ∧
    device_entitlement_snapshots s' !! "op-2" = Some (SR_Snapshot r).
Proof.
  destruct (run_check (λ r _, SR_Created r && bool_decide (Snapshot_ServiceOptions (SR_Snapshot r) =
      ["device_logging"; "mqtt"]) && bool_decide (Snapshot_LogRetentionDays (SR_Snapshot r) = Some 30))
    sample_start sample_ent) as (r & s' & E & Hc); [vm_compute; reflexivity|].
  apply andb_true_iff in Hc as [[Hc Ho%bool_decide_eq_true]%andb_true_iff Hl%bool_decide_eq_true].
  destruct (snapshot_within_grant true sample_time sample_snapshot_input sample_ent r s' sample_ent_keyed
    sample_ent_fit E Hc) as (device & product & g & options & bindings & _ & _ & _ & _ & _ & _ & _ & _ & _ & _ & _ &
    _ & _ & Hm & _ & _ & Hs & _).
  exists r, s'. split_and!; [exact E|exact Ho|exact Hl|exact Hm|]. rewrite Hs. apply lookup_insert_eq.
Defined.

Lemma snapshot_start_idempotent_witness :
  ∃ r s', sample_start sample_ent = (Ok r, s') ∧ sample_start (at_ent sample_time s') =
    (Ok (mkSnapshotResult (SR_Snapshot r) (SR_Operation r) (SR_Message r) false), at_ent sample_time s').
Proof.
  destruct (run_succeeds sample_start sample_ent) as (r & s' & E); [vm_compute; reflexivity|].
  exists r, s'. split; [exact E|].
  destruct (snapshot_start_idempotent true sample_time sample_snapshot_input sample_ent r s' sample_ent_fk E)
    as [Hst Hrep].
  destruct (Hst sample_time) as [device Hs]. apply (Hrep sample_time _ _ _ _ Hs). left. reflexivity.
Defined.
