(* ===== verification/ProductApply.v ===== *)
(** * Applying a product's services to its devices: store/product_service_apply.go

    A batch job moves every device of a product to the newest grant.  The
    preview fixes, device by device, the baseline the job starts from; its
    token is the digest of all of it.  Admission recomputes the preview and
    writes a job with one item per device; each item is dispatched as an
    entitlement snapshot (Entitlements.v), which checks that the device is
    still at its baseline; the job completes when the Video Cloud has
    acknowledged every item.

    [platformServiceProductWrites] is the store's switch of that name.
    [clock k] is the time of the k-th transaction of a call. *)

From S2P Require Export Entitlements.

Local Open Scope Z_scope.

Definition productApplyJobIDPattern (id : string) : bool :=
  bool_decide (String.substring 0 4 id = "job-") && (str_len id =? 28)
  && forallb (λ c, byte_in 48 57 c || byte_in 97 102 c) (drop 4 (to_bytes id)).

(** ** The preview *)

Record ProductServiceApplyBlocker := mkApplyBlocker {
  ApplyBlocker_DeviceID : string;
  ApplyBlocker_Code : string;
}.

Record ProductServiceApplyPreview := mkPreview {
  Preview_PreviewToken : string;
  Preview_TargetRevision : Z;
  Preview_TargetDigest : string;
  Preview_TotalDevices : Z;
  Preview_AddedCount : Z;
  Preview_RemovedCount : Z;
  Preview_AddedOptions : list string;
  Preview_RemovedOptions : list string;
  Preview_Blockers : list ProductServiceApplyBlocker;
  Preview_devices : list productServiceApplyBaseline;
  Preview_options : list string;
  Preview_retention : option Z;
}.

(** One turn of the loop: the reason the device is a blocker, or its baseline. *)
Definition preview_device (cloud product id : string) : Ent (string + productServiceApplyBaseline) :=
  device ← on_db (getDeviceForUpdateTx cloud id);
  s ← gets (λ s, s);
  if conflicting_operation (λ o, bool_decide (DeviceOperation_OrganizationID o = cloud)
       && bool_decide (DeviceOperation_DeviceID o = id)) (ent_db s)
  then mret (inl "conflicting_operation")
  else
  r ← attempt (latestDeviceEntitlementBaselineTx device);
  match r with
  | Err _ => mret (inl "untrusted_entitlement")
  | Ok baseline =>
  if negb (bool_decide (Snapshot_OperationID baseline = ""))
     && negb (bool_decide (DeviceOperation_Status <$> device_operations (ent_db s) !! Snapshot_OperationID baseline
              = Some DeviceOperationStatusSucceeded))
  then mret (inl "unapplied_entitlement")
  else if negb (bool_decide (lifecycleMetadataString (Device_Metadata device) DeviceMetadataVideoCloudDevid
              = Some (Snapshot_VideoCloudDevid baseline)))
  then mret (inl "identity_conflict")
  else
  r ← attempt (on_db (productGrantForEntitlementTx product cloud (Snapshot_ProductServiceRevision baseline)));
  match r with
  | Err _ => mret (inl "missing_grant")
  | Ok grant =>
  if negb (bool_decide (encodeProductServiceGrantWithRetention (PG_options grant) (PG_bindings grant)
              (PG_logRetentionDays grant) = Ok (PG_digest grant)))
     || negb (bool_decide (PG_digest grant = Snapshot_ServiceGrantSHA256 baseline))
     || negb (is_ok (validateHistoricalDeviceServices (Snapshot_ServiceOptions baseline)
                (PG_options grant) (PG_bindings grant)))
  then mret (inl "untrusted_entitlement")
  else if negb (entitlement_state (Snapshot_State baseline))
  then mret (inl "untrusted_state")
  else mret (inr (mkBaseline id (Snapshot_VideoCloudDevid baseline) (Snapshot_Revision baseline)
         (Snapshot_ProductServiceRevision baseline) (Snapshot_ServiceGrantSHA256 baseline)
         (Snapshot_ServiceOptions baseline) (Snapshot_State baseline)))
  end
  end.

Fixpoint preview_devices (cloud product : string) (ids : list string)
    : Ent (list (string * (string + productServiceApplyBaseline))) :=
  match ids with
  | [] => mret []
  | id :: ids =>
      verdict ← preview_device cloud product id;
      verdicts ← preview_devices cloud product ids;
      mret ((id, verdict) :: verdicts)
  end.

Definition blockers_of (verdicts : list (string * (string + productServiceApplyBaseline)))
    : list ProductServiceApplyBlocker :=
  omap (λ v, match v.2 with inl code => Some (mkApplyBlocker v.1 code) | inr _ => None end) verdicts.
Definition baselines_of (verdicts : list (string * (string + productServiceApplyBaseline)))
    : list productServiceApplyBaseline :=
  omap (λ v, match v.2 with inl _ => None | inr b => Some b end) verdicts.

Definition options_without (options old : list string) : list string :=
  filter (λ code, code ∉ old) options.
(** The options a change adds, or takes away, over all devices. *)
Definition added_options (options : list string) (devices : list productServiceApplyBaseline) : list string :=
  devices ≫= λ b, options_without options (Baseline_Options b).
Definition removed_options (options : list string) (devices : list productServiceApplyBaseline) : list string :=
  devices ≫= λ b, options_without (Baseline_Options b) options.
(** The keys of a map, sorted. *)
Definition sorted_set (codes : list string) : list string :=
  slices_Sort (elements (list_to_set codes : gset string)).

Definition baseline_json (b : productServiceApplyBaseline) : any :=
  AMap [("device_id", AString (Baseline_DeviceID b)); ("video_cloud_devid", AString (Baseline_VideoCloudDevid b));
        ("revision", AInt (Baseline_Revision b)); ("product_revision", AInt (Baseline_ProductRevision b));
        ("digest", AString (Baseline_Digest b)); ("options", strings_value (Baseline_Options b));
        ("state", AString (Baseline_State b))].
Definition blocker_json (b : ProductServiceApplyBlocker) : any :=
  AMap [("device_id", AString (ApplyBlocker_DeviceID b)); ("code", AString (ApplyBlocker_Code b))].
Definition preview_token (cloud product : string) (revision : Z) (digest : string) (retention : option Z)
    (total : Z) (devices : list productServiceApplyBaseline) (blockers : list ProductServiceApplyBlocker)
    : string :=
  sha256_hex (json_text (AMap
    [("Cloud", AString cloud); ("Product", AString product); ("Revision", AInt revision);
     ("Digest", AString digest); ("Retention", match retention with Some d => AInt d | None => ANil end);
     ("Total", AInt total); ("Devices", ASlice (baseline_json <$> devices));
     ("Blockers", ASlice (blocker_json <$> blockers))])).

(** SELECT id FROM devices ... ORDER BY id *)
Definition product_devices (cloud product : string) (db : DB) : list string :=
  slices_Sort (Device_ID <$> filter (λ d, Device_OrganizationID d = cloud ∧
    Device_DeviceItemProfileID d = Some product ∧ Device_DisabledAt d = None) (rows_of (devices db))).

(** The newest grant of the product, verified against its digest. *)
Definition target_grant (cloud product : string)
    : Store (ProductServiceGrant * list string) :=
  db ← gets (λ db, db);
  grant ← row_or ErrConflict (newest_grant (registry db) product cloud);
  match unmarshal_strings (grant_options grant), unmarshal_bindings (grant_bindings grant) with
  | Ok options, Ok bindings =>
      reject_if (negb (bool_decide (encodeProductServiceGrantWithRetention options bindings
                   (grant_log_retention_days grant) = Ok (grant_snapshot_sha256 grant)))
        || negb (bool_decide ("mqtt" ∈ options))) ErrConflict ;;
      mret (grant, options)
  | _, _ => throw ErrConflict
  end.

Definition previewProductServiceApplyTx (cloud product : string) : Ent ProductServiceApplyPreview :=
  s ← gets (λ s, s);
  profile ← row_or ErrNotFound
    (p ← device_item_profiles (registry (ent_db s)) !! product;
     if bool_decide (Profile_BrandCloudID p = cloud) && bool_decide (Profile_DisabledAt p = None)
     then Some p else None);
  reject_if (negb (bool_decide (Profile_Status profile = DeviceItemProfileStatusActive))) ErrConflict ;;
  '(grant, options) ← on_db (target_grant cloud product);
  let ids := product_devices cloud product (ent_db s) in
  verdicts ← preview_devices cloud product ids;
  let devices := baselines_of verdicts in
  let blockers := blockers_of verdicts in
  let added := added_options options devices in
  let removed := removed_options options devices in
  let total := Z.of_nat (length ids) in
  mret (mkPreview
    (preview_token cloud product (grant_revision grant) (grant_snapshot_sha256 grant)
       (grant_log_retention_days grant) total devices blockers)
    (grant_revision grant) (grant_snapshot_sha256 grant) total (Z.of_nat (length added))
    (Z.of_nat (length removed)) (sorted_set added) (sorted_set removed) blockers devices options
    (grant_log_retention_days grant)).

Definition PreviewProductServiceApply (platformServiceProductWrites : bool) (actor cloud product : string)
    : Ent ProductServiceApplyPreview :=
  reject_if (negb platformServiceProductWrites) ErrConflict ;;
  transaction (
    on_db (authorizeProductUserMutationTx actor cloud product false) ;;
    previewProductServiceApplyTx cloud product).

(** ** Jobs *)

Definition get_job (cloud product jobID : string) (s : EntitlementDB) : option ApplyJobRow :=
  j ← product_service_apply_jobs s !! jobID;
  if bool_decide (Job_OrganizationID (apply_job j) = cloud)
     && bool_decide (Job_ProductID (apply_job j) = product) then Some j else None.

Definition getProductServiceApplyJobTx (cloud product jobID : string) : Ent ProductServiceApplyJob :=
  s ← gets (λ s, s); row_or ErrNotFound (apply_job <$> get_job cloud product jobID s).

Definition active_job_of (product : string) (s : EntitlementDB) : bool :=
  existsb (λ j, bool_decide (Job_ProductID (apply_job j) = product)
                && bool_decide (Job_Status (apply_job j) = "active"))
    (rows_of (product_service_apply_jobs s)).

(** INSERT INTO product_service_apply_jobs; a duplicate id or a second active
    job of the product is the unique violation that becomes [ErrConflict]. *)
Definition insert_job (row : ApplyJobRow) : Ent ProductServiceApplyJob :=
  let job := apply_job row in
  reject_if (negb (int4_range (Job_TotalDevices job))) (ErrPg "int4") ;;
  reject_if (negb (productApplyJobIDPattern (Job_ID job))) (ErrPg "product_service_apply_jobs_id_check") ;;
  reject_if (negb (handoffEvidenceDigest (Job_TargetDigest job)))
    (ErrPg "product_service_apply_jobs_target_digest_check") ;;
  reject_if match apply_target_log_retention_days row with
    | None => false
    | Some days => negb (validLogRetention days)
    end (ErrPg "product_service_apply_jobs_target_log_retention_days_check") ;;
  reject_if (negb (handoffEvidenceDigest (apply_preview_token row)))
    (ErrPg "product_service_apply_jobs_preview_token_check") ;;
  s ← gets (λ s, s);
  let r := registry (ent_db s) in
  reject_if (bool_decide (is_Some (product_service_apply_jobs s !! Job_ID job))
             || active_job_of (Job_ProductID job) s) ErrConflict ;;
  reject_if (bool_decide (organizations r !! Job_OrganizationID job = None)
    || bool_decide (device_item_profiles r !! Job_ProductID job = None)
    || bool_decide (users r !! apply_actor_user_id row = None)
    || negb (existsb (λ g, bool_decide (grant_product_id g = Job_ProductID job)
                           && (grant_revision g =? Job_TargetRevision job)) (product_service_grants r)))
    (ErrPg "product_service_apply_jobs_fkey") ;;
  modify (λ s, with_jobs (<[Job_ID job := row]> (product_service_apply_jobs s)) s) ;;
  mret job.

Definition item_rows (s : EntitlementDB) : list ApplyItemRow :=
  (map_to_list (product_service_apply_items s)).*2.

(** INSERT INTO product_service_apply_items *)
Definition insert_item (row : ApplyItemRow) : Ent unit :=
  let b := item_baseline row in
  reject_if (Baseline_Revision b <? 0) (ErrPg "product_service_apply_items_baseline_revision_check") ;;
  reject_if (Baseline_ProductRevision b <=? 0)
    (ErrPg "product_service_apply_items_baseline_product_revision_check") ;;
  reject_if (negb (handoffEvidenceDigest (Baseline_Digest b)))
    (ErrPg "product_service_apply_items_baseline_digest_check") ;;
  reject_if (negb (entitlement_state (Baseline_State b)))
    (ErrPg "product_service_apply_items_baseline_state_check") ;;
  s ← gets (λ s, s);
  reject_if (bool_decide (is_Some (product_service_apply_items s !! (item_job_id row, Baseline_DeviceID b))))
    (ErrPg "product_service_apply_items_pkey") ;;
  reject_if (existsb (λ i, bool_decide (item_operation_id i = item_operation_id row))
               (item_rows s))
    (ErrPg "product_service_apply_items_operation_id_key") ;;
  reject_if (bool_decide (product_service_apply_jobs s !! item_job_id row = None))
    (ErrPg "product_service_apply_items_job_id_fkey") ;;
  modify (λ s, with_items
    (<[(item_job_id row, Baseline_DeviceID b) := row]> (product_service_apply_items s)) s).

Definition item_operation (jobID deviceID : string) : string := jobID +:+ "/" +:+ deviceID.

Fixpoint insert_items (jobID : string) (devices : list productServiceApplyBaseline) : Ent unit :=
  match devices with
  | [] => mret tt
  | b :: devices =>
      insert_item (mkApplyItemRow jobID (item_operation jobID (Baseline_DeviceID b)) b None) ;;
      insert_items jobID devices
  end.

Definition AdmitProductServiceApply (platformServiceProductWrites : bool)
    (actor cloud product jobID previewToken : string) : Ent ProductServiceApplyJob :=
  reject_if (negb platformServiceProductWrites || negb (productApplyJobIDPattern jobID)
             || negb (str_len previewToken =? 64)) ErrConflict ;;
  transaction (
    on_db (authorizeProductUserMutationTx actor cloud product false) ;;
    s ← gets (λ s, s);
    match get_job cloud product jobID s with
    | Some row =>
        reject_if (negb (bool_decide (apply_preview_token row = previewToken))) ErrConflict ;;
        mret (apply_job row)
    | None =>
        preview ← previewProductServiceApplyTx cloud product;
        reject_if (negb (bool_decide (Preview_PreviewToken preview = previewToken))
                   || negb (bool_decide (Preview_Blockers preview = []))) ErrConflict ;;
        let t := now (ent_db s) in
        job ← insert_job (mkApplyJobRow
          (mkApplyJob jobID cloud product (Preview_TargetRevision preview) (Preview_TargetDigest preview)
             (Preview_TotalDevices preview) "active" t)
          actor (Preview_options preview) (Preview_retention preview) previewToken t None);
        insert_items jobID (Preview_devices preview) ;;
        on_db (create_audit_event "product.services.apply.started" (Some actor) (Some cloud)
          "device_item_profile" product
          (map_literal [("job_id", AString jobID); ("target_revision", AInt (Preview_TargetRevision preview));
                        ("target_digest", AString (Preview_TargetDigest preview));
                        ("total_devices", AInt (Preview_TotalDevices preview))])) ;;
        mret job
    end).

Definition authorizeProductApplyRead (actor cloud product : string) : Ent unit :=
  transaction (on_db (authorizeProductUserMutationTx actor cloud product false)).

Definition GetProductServiceApplyJob (actor cloud product jobID : string) : Ent ProductServiceApplyJob :=
  authorizeProductApplyRead actor cloud product ;;
  getProductServiceApplyJobTx cloud product jobID.

(** ** Items *)

Record ProductServiceApplyItem := mkApplyItem {
  Item_DeviceID : string;
  Item_OperationID : string;
  Item_Status : string;
  Item_BaselineRevision : Z;
  Item_BaselineDigest : string;
  Item_BaselineState : string;
  Item_AppliedRevision : option Z;
  Item_Retryable : bool;
  Item_ErrorCode : string;
}.

(** The operation succeeded, acknowledged the item's own snapshot, and the
    snapshot is of the target. *)
Definition item_applied (job : ProductServiceApplyJob) (i : ApplyItemRow) (s : EntitlementDB) : bool :=
  match device_entitlement_snapshots s !! item_operation_id i,
        device_operations (ent_db s) !! item_operation_id i with
  | Some row, Some o =>
      acknowledged o row
      && (Snapshot_ProductServiceRevision row =? Job_TargetRevision job)
      && bool_decide (Snapshot_ServiceGrantSHA256 row = Job_TargetDigest job)
  | _, _ => false
  end.

(** [productApplyItemSelect] and [scanProductServiceApplyItem] *)
Definition item_row (job : ProductServiceApplyJob) (i : ApplyItemRow) (s : EntitlementDB)
    : ProductServiceApplyItem :=
  let o := device_operations (ent_db s) !! item_operation_id i in
  let b := item_baseline i in
  let applied := item_applied job i s in
  let status :=
    if applied then "applied"
    else match DeviceOperation_Status <$> o with
         | None => "pending"
         | Some (DeviceOperationStatusFailed | DeviceOperationStatusDeadLettered
                | DeviceOperationStatusSucceeded) => "failed"
         | Some _ => "accepted"
         end in
  mkApplyItem (Baseline_DeviceID b) (item_operation_id i) status (Baseline_Revision b) (Baseline_Digest b)
    (Baseline_State b) (if applied then Some (Job_TargetRevision job) else None)
    (default false (o ≫= DeviceOperation_Retryable)) (default "" (o ≫= DeviceOperation_ErrorCode)).

Definition find_item (cloud product jobID deviceID : string) (s : EntitlementDB)
    : option ProductServiceApplyItem :=
  j ← get_job cloud product jobID s;
  i ← product_service_apply_items s !! (jobID, deviceID);
  Some (item_row (apply_job j) i s).

Definition GetProductServiceApplyItem (actor cloud product jobID deviceID : string)
    : Ent ProductServiceApplyItem :=
  authorizeProductApplyRead actor cloud product ;;
  s ← gets (λ s, s);
  row_or ErrNotFound (find_item cloud product jobID deviceID s).

(** The items of a job, ORDER BY device_id. *)
Definition items_of (jobID : string) (s : EntitlementDB) : list ApplyItemRow :=
  filter (λ i, item_job_id i = jobID) (item_rows s).
Definition device_before (a b : ApplyItemRow) : bool :=
  match String.compare (Baseline_DeviceID (item_baseline a)) (Baseline_DeviceID (item_baseline b)) with
  | Gt => false | _ => true
  end.
Definition ListProductServiceApplyItems (actor cloud product jobID : string) (limit_ offset : Z)
    : Ent (list ProductServiceApplyItem * Z) :=
  authorizeProductApplyRead actor cloud product ;;
  let limit_ := if limit_ <? 1 then 100 else limit_ in
  let limit_ := if 250 <? limit_ then 250 else limit_ in
  let offset := if offset <? 0 then 0 else offset in
  s ← gets (λ s, s);
  match get_job cloud product jobID s with
  | None => mret ([], 0)
  | Some j =>
      let rows := order_by device_before (items_of jobID s) in
      mret ((λ i, item_row (apply_job j) i s) <$> limit limit_ (drop (Z.to_nat offset) rows),
            Z.of_nat (length rows))
  end.

(** ** Dispatching an item *)

Definition at_time (t : Time) : Ent unit := on_db (modify (with_now t)).

(** The two UPDATEs that make a failed command dispatchable again. *)
Definition retry_operation (operationID : string) : Store unit :=
  db ← gets (λ db, db);
  match device_operations db !! operationID with
  | Some o =>
      if match DeviceOperation_Status o with
         | DeviceOperationStatusFailed | DeviceOperationStatusDeadLettered => true | _ => false end
         && bool_decide (DeviceOperation_Retryable o = Some true)
      then
        _ ← update_operation operationID DeviceOperationStatusRetrying (DeviceOperation_ResultPayload o)
              None None None None;
        mret tt
      else mret tt
  | None => mret tt
  end.
Definition retried_outbox (operationID : string) (t : Time) (m : DeviceMessageOutbox) : DeviceMessageOutbox :=
  if bool_decide (Outbox_OperationID m = operationID)
     && match Outbox_Status m with DeviceMessageOutboxStatusPending => false | _ => true end
  then mkDeviceMessageOutbox (Outbox_ID m) (Outbox_MessageID m) (Outbox_OperationID m)
         (Outbox_CorrelationID m) (Outbox_CausationID m) (Outbox_Stream m) (Outbox_MessageType m)
         (Outbox_SchemaVersion m) (Outbox_PartitionKey m) (Outbox_Payload m)
         DeviceMessageOutboxStatusRetrying 0 None t (Outbox_PublishedAt m) (Outbox_CreatedAt m) t
  else m.
Definition retry_outbox (operationID : string) : Store unit :=
  modify (λ db, with_outbox (retried_outbox operationID (now db) <$> device_message_outbox db) db).

Definition mark_dispatched (jobID deviceID : string) : Ent unit :=
  modify (λ s, with_items
    (alter (λ i, mkApplyItemRow (item_job_id i) (item_operation_id i) (item_baseline i)
                   (Some (default (now (ent_db s)) (item_dispatched_at i)))) (jobID, deviceID)
       (product_service_apply_items s)) s).

Definition dispatch_input (cloud actor jobID deviceID messageID : string) (item : ProductServiceApplyItem)
    (job : ApplyJobRow) (clock : Time) : DeviceEntitlementSnapshotInput :=
  mkSnapshotInput jobID (Item_OperationID item) (Item_OperationID item) messageID cloud deviceID actor
    (Some (Job_TargetRevision (apply_job job))) (Some (apply_target_options job))
    (Item_BaselineState item) (UTC clock).

Definition DispatchProductServiceApplyItem (platformServiceProductWrites : bool) (clock : nat → Time)
    (actor cloud product jobID deviceID messageID : string) : Ent ProductServiceApplyItem :=
  at_time (clock 0%nat) ;;
  item ← GetProductServiceApplyItem actor cloud product jobID deviceID;
  if bool_decide (Item_Status item = "applied") then mret item
  else
    let failed := bool_decide (Item_Status item = "failed") in
    reject_if (failed && negb (Item_Retryable item)) ErrConflict ;;
    s ← gets (λ s, s);
    job ← row_or ErrConflict
      (j ← get_job cloud product jobID s;
       if bool_decide (Job_Status (apply_job j) = "active") then Some j else None);
    at_time (clock 1%nat) ;;
    _ ← StartDeviceEntitlementSnapshot platformServiceProductWrites (clock 1%nat)
          (dispatch_input cloud actor jobID deviceID messageID item job (clock 1%nat));
    (if failed && Item_Retryable item then
       at_time (clock 2%nat) ;;
       transaction (on_db (retry_operation (Item_OperationID item)) ;;
                    on_db (retry_outbox (Item_OperationID item)))
     else mret tt) ;;
    at_time (clock 3%nat) ;;
    mark_dispatched jobID deviceID ;;
    GetProductServiceApplyItem actor cloud product jobID deviceID.

(** ** Finishing *)



(** ** Reading *)

Lemma at_time_run t s : at_time t s = (Ok tt, at_ent t s).
Proof. done. Qed.

Lemma authorizeProductApplyRead_read actor cloud product : read_only (authorizeProductApplyRead actor cloud product).
Proof. unfold authorizeProductApplyRead. eauto with rtk. Qed.
Lemma GetProductServiceApplyItem_read actor cloud product jobID deviceID :
  read_only (GetProductServiceApplyItem actor cloud product jobID deviceID).
Proof.
  unfold GetProductServiceApplyItem. apply read_only_bind; [apply authorizeProductApplyRead_read|]. eauto with rtk.
Qed.
#[export] Hint Resolve authorizeProductApplyRead_read GetProductServiceApplyItem_read : rtk.

Lemma GetProductServiceApplyItem_ok actor cloud product jobID deviceID s item s' :
  GetProductServiceApplyItem actor cloud product jobID deviceID s = (Ok item, s') →
  s' = s ∧ find_item cloud product jobID deviceID s = Some item.
Proof.
  intros H. pose proof H as E. apply read_only_ok in E as ->; [|eauto with rtk]. split; [done|].
  unfold GetProductServiceApplyItem in H. apply bind_ok in H as ([] & s1 & Ha & H).
  apply read_only_ok in Ha as ->; [|eauto with rtk]. by apply bind_gets_ok, row_or_ok in H as [? _].
Qed.

Lemma get_job_ok cloud product jobID s j :
  get_job cloud product jobID s = Some j ↔
  product_service_apply_jobs s !! jobID = Some j ∧ Job_OrganizationID (apply_job j) = cloud ∧
  Job_ProductID (apply_job j) = product.
Proof.
  unfold get_job. destruct (product_service_apply_jobs s !! jobID) as [j'|]; simpl; [|naive_solver].
  destruct (bool_decide (_ = cloud) && bool_decide (_ = product)) eqn:E.
  - destruct_bools. naive_solver.
  - split; [done|]. intros ([= ->] & H1 & H2). by rewrite !bool_decide_true in E by done.
Qed.

(** ** The preview *)

Lemma preview_device_read cloud product id : read_only (preview_device cloud product id).
Proof.
  unfold preview_device. eapply read_only_bind; [eauto with rtk|]. intros device.
  eapply read_only_bind; [eauto with rtk|]. intros s. destruct (conflicting_operation _ _); [eauto with rtk|].
  eapply read_only_bind; [eauto with rtk|]. intros [b|e]; [|eauto with rtk].
  destruct (_ && _); [eauto with rtk|]. destruct (negb _); [eauto with rtk|].
  eapply read_only_bind; [eauto with rtk|]. intros [g|e]; [|eauto with rtk].
  destruct (_ || _); [eauto with rtk|]. destruct (negb _); eauto with rtk.
Qed.
#[export] Hint Resolve preview_device_read : rtk.
Lemma preview_devices_read cloud product ids : read_only (preview_devices cloud product ids).
Proof. induction ids; simpl; eauto with rtk. Qed.
Lemma target_grant_read cloud product : read_only (target_grant cloud product).
Proof.
  unfold target_grant. eapply read_only_bind; [eauto with rtk|]. intros db.
  eapply read_only_bind; [eauto with rtk|]. intros g.
  destruct (unmarshal_strings (grant_options g)), (unmarshal_bindings (grant_bindings g)); eauto with rtk.
Qed.
#[export] Hint Resolve preview_devices_read target_grant_read : rtk.
Lemma previewProductServiceApplyTx_read cloud product : read_only (previewProductServiceApplyTx cloud product).
Proof.
  unfold previewProductServiceApplyTx. eapply read_only_bind; [eauto with rtk|]. intros s.
  eapply read_only_bind; [eauto with rtk|]. intros p. eapply read_only_bind; [eauto with rtk|]. intros [].
  eapply read_only_bind; [eauto with rtk|]. intros [g options]. eauto with rtk.
Qed.
#[export] Hint Resolve previewProductServiceApplyTx_read : rtk.

(** A device that can take part: nothing is under way, and its present options are what an
    acknowledged snapshot, or its provisioning, was given out of a grant that still has its digest. *)
Record device_ready (cloud product id : string) (s : EntitlementDB) (b : productServiceApplyBaseline) : Prop := {
  ready_id : Baseline_DeviceID b = id;
  ready_quiet : ∀ k o, device_operations (ent_db s) !! k = Some o → DeviceOperation_OrganizationID o = cloud →
    DeviceOperation_DeviceID o = id → terminal_operation o = true;
  ready_baseline : ∃ device row, device_in_org cloud id (ent_db s) = Some device ∧
    latestDeviceEntitlementBaselineTx device s = (Ok row, s) ∧
    b = mkBaseline id (Snapshot_VideoCloudDevid row) (Snapshot_Revision row)
          (Snapshot_ProductServiceRevision row) (Snapshot_ServiceGrantSHA256 row)
          (Snapshot_ServiceOptions row) (Snapshot_State row) ∧
    lifecycleMetadataString (Device_Metadata device) DeviceMetadataVideoCloudDevid
      = Some (Snapshot_VideoCloudDevid row) ∧
    (Snapshot_OperationID row = "" ∨ ∃ o, device_operations (ent_db s) !! Snapshot_OperationID row = Some o ∧
       DeviceOperation_Status o = DeviceOperationStatusSucceeded);
  ready_grant : ∃ g options bindings, g ∈ product_service_grants (registry (ent_db s)) ∧
    grant_product_id g = product ∧ grant_brand_cloud_id g = cloud ∧
    grant_revision g = Baseline_ProductRevision b ∧ grant_snapshot_sha256 g = Baseline_Digest b ∧
    encodeProductServiceGrantWithRetention options bindings (grant_log_retention_days g) = Ok (Baseline_Digest b) ∧
    within_grant (Baseline_Options b) options bindings;
}.

Lemma preview_device_ok cloud product id s b s' :
  preview_device cloud product id s = (Ok (inr b), s') → device_ready cloud product id s b.
Proof.
  unfold preview_device. intros H. apply bind_ok in H as (device & s1 & Hd & H).
  apply on_db_read in Hd as [Hd ->]; [|eauto with rtk]. apply getDeviceForUpdateTx_ok in Hd as [Hd _].
  apply bind_gets_ok in H. destruct (conflicting_operation _ _) eqn:Hc; [done|].
  apply bind_ok in H as ([row|e] & s1 & Hr & H); [|done].
  unfold attempt in Hr. destruct (latestDeviceEntitlementBaselineTx device s) as [r0 s2] eqn:Hl.
  injection Hr as -> ->. pose proof Hl as E. apply read_only_ok in E as ->; [|eauto with rtk].
  destruct (_ && _) eqn:Hop; [done|]. destruct (negb (bool_decide (lifecycleMetadataString _ _ = _))) eqn:Hi; [done|].
  apply bind_ok in H as ([g|e] & s1 & Hg & H); [|done].
  unfold attempt in Hg. destruct (on_db _ s) as [r0 s2] eqn:Hg'. injection Hg as -> ->.
  apply on_db_read in Hg' as [Hg ->]; [|eauto with rtk].
  apply productGrantForEntitlementTx_ok in Hg as (_ & g' & Hin & Hp & Hcl & Hrev & Ho & Hb & Hdig & Hlog).
  destruct (negb _ || _ || _) eqn:Hbad; [done|]. destruct (negb (entitlement_state _)); [done|].
  injection H as <- <-. apply orb_false_iff in Hbad as [[Henc Hdg]%orb_false_iff Hval].
  destruct_bools. destruct (validateHistoricalDeviceServices _ _ _) as [[]|] eqn:Hv; [|done].
  apply validateHistoricalDeviceServices_ok in Hv as [_ Hw].
  split; simpl; try done.
  - intros k o Hk Horg Hdev. apply not_false_iff_true. intros Ht. apply not_true_iff_false in Hc. apply Hc.
    apply existsb_true. exists o. split; [apply elem_of_rows_of; eauto|]. by rewrite Ht, !bool_decide_true by done.
  - exists device, row. split_and!; try done. apply andb_false_iff in Hop as [Hop|Hop]; destruct_bools; [by left|].
    right. destruct (device_operations (ent_db s) !! Snapshot_OperationID row) as [o|]; [|done].
    exists o. split; [done|]. by injection Hop.
  - exists g', (PG_options g), (PG_bindings g). split_and!; try done; [congruence|].
    by rewrite <-Hlog, <-Hdg.
Qed.

Lemma preview_devices_ok cloud product ids s verdicts s' :
  preview_devices cloud product ids s = (Ok verdicts, s') →
  verdicts.*1 = ids ∧ ∀ id b, (id, inr b) ∈ verdicts → device_ready cloud product id s b.
Proof.
  revert verdicts. induction ids as [|id ids IH]; simpl; intros verdicts H.
  { injection H as <- <-. split; [done|]. intros ? ? []%not_elem_of_nil. }
  apply bind_ok in H as (v & s1 & Hv & H). pose proof Hv as E. apply read_only_ok in E as ->; [|eauto with rtk].
  apply bind_ok in H as (vs & s1 & Hvs & H). injection H as <- <-.
  destruct (IH _ Hvs) as [<- Hall]. split; [done|].
  intros id' b [[= -> <-]|Hin]%elem_of_cons; [by eapply preview_device_ok|by apply Hall].
Qed.

(** No blockers: every device has its baseline. *)
Lemma no_blockers verdicts :
  blockers_of verdicts = [] → verdicts = (λ vb, (vb.1, inr vb.2)) <$> zip (verdicts.*1) (baselines_of verdicts) ∧
  length (verdicts.*1) = length (baselines_of verdicts).
Proof.
  unfold blockers_of, baselines_of. induction verdicts as [|[id [code|b]] vs IH]; simpl; [done|done|].
  intros H. destruct (IH H) as [E El]. split; [f_equal; exact E|f_equal; exact El].
Qed.

Lemma previewProductServiceApplyTx_ok cloud product s p s' :
  previewProductServiceApplyTx cloud product s = (Ok p, s') → Preview_Blockers p = [] →
  s' = s ∧ Preview_TotalDevices p = Z.of_nat (length (Preview_devices p)) ∧
  Baseline_DeviceID <$> Preview_devices p = product_devices cloud product (ent_db s) ∧
  (∀ b, b ∈ Preview_devices p → device_ready cloud product (Baseline_DeviceID b) s b) ∧
  (∃ profile, device_item_profiles (registry (ent_db s)) !! product = Some profile ∧
     Profile_BrandCloudID profile = cloud ∧ Profile_Status profile = DeviceItemProfileStatusActive) ∧
  ∃ g, newest_grant (registry (ent_db s)) product cloud = Some g ∧
    grant_revision g = Preview_TargetRevision p ∧ grant_snapshot_sha256 g = Preview_TargetDigest p ∧
    unmarshal_strings (grant_options g) = Ok (Preview_options p) ∧ "mqtt" ∈ Preview_options p ∧
    Preview_PreviewToken p = preview_token cloud product (grant_revision g) (grant_snapshot_sha256 g)
      (grant_log_retention_days g) (Preview_TotalDevices p) (Preview_devices p) [].
Proof.
  intros H Hb. pose proof H as E. apply read_only_ok in E as ->; [|eauto with rtk]. split; [done|].
  unfold previewProductServiceApplyTx in H. apply bind_gets_ok, bind_row_ok in H as (profile & Hp & H).
  apply bind_reject_ok in H as [Hst H]. apply bind_ok in H as ([g options] & s1 & Hg & H).
  apply on_db_read in Hg as [Hg ->]; [|eauto with rtk]. cbv zeta in H.
  apply bind_ok in H as (verdicts & s1 & Hv & H). injection H as <- ->.
  simpl in Hb. destruct (preview_devices_ok _ _ _ _ _ _ Hv) as [Hids Hready].
  destruct (no_blockers _ Hb) as [Hz Hlen].
  assert (∀ b, b ∈ baselines_of verdicts → device_ready cloud product (Baseline_DeviceID b) s b) as Hr.
  { intros b Hin. unfold baselines_of in Hin. apply list_elem_of_omap in Hin as ([id v] & Hin & E).
    destruct v as [|b']; [done|]. injection E as ->. pose proof (Hready _ _ Hin) as Hd.
    by rewrite (ready_id _ _ _ _ _ Hd) at 1. }
  assert (Baseline_DeviceID <$> baselines_of verdicts = verdicts.*1) as Hbase.
  { clear -Hready Hb. unfold blockers_of in Hb. unfold baselines_of.
    induction verdicts as [|[id [code|b]] vs IH]; simpl in *; [done|done|].
    f_equal; [exact (ready_id _ _ _ _ _ (Hready id b (list_elem_of_here _ _)))|].
    apply IH; [exact Hb|]. intros ? ? ?. apply Hready. by right. }
  cbn [Preview_TotalDevices Preview_devices Preview_TargetRevision Preview_TargetDigest Preview_options
    Preview_PreviewToken]. rewrite <-Hids at 1. rewrite Hlen.
  unfold target_grant in Hg. apply bind_gets_ok, bind_row_ok in Hg as (g' & Hn & Hg).
  destruct (unmarshal_strings (grant_options g')) as [options'|] eqn:Ho; [|done].
  destruct (unmarshal_bindings (grant_bindings g')) as [bindings|] eqn:Hbi; [|done].
  apply bind_reject_ok in Hg as [Hck Hg]. injection Hg as <- <-. destruct_bools.
  split_and!; try done.
  - by rewrite Hbase.
  - destruct (device_item_profiles _ !! product) as [p'|] eqn:Hpr; [|done]. simpl in Hp.
    destruct (_ && _) eqn:Ec; [|done]. injection Hp as <-. destruct_bools. by exists p'.
  - exists g'. split_and!; try done. rewrite <-Hids, Hlen. unfold blockers_of in *. by rewrite Hb.
Qed.

(** ** Admission *)

Definition new_item (jobID : string) (b : productServiceApplyBaseline) : ApplyItemRow :=
  mkApplyItemRow jobID (item_operation jobID (Baseline_DeviceID b)) b None.
Definition new_items (jobID : string) (devices : list productServiceApplyBaseline)
    : gmap (string * string) ApplyItemRow :=
  list_to_map ((λ b, ((jobID, Baseline_DeviceID b), new_item jobID b)) <$> devices).

Lemma insert_item_ok row s u s' :
  insert_item row s = (Ok u, s') →
  product_service_apply_items s !! (item_job_id row, Baseline_DeviceID (item_baseline row)) = None ∧
  is_Some (product_service_apply_jobs s !! item_job_id row) ∧
  (∀ k i, product_service_apply_items s !! k = Some i → item_operation_id i ≠ item_operation_id row) ∧
  s' = with_items (<[(item_job_id row, Baseline_DeviceID (item_baseline row)) := row]>
    (product_service_apply_items s)) s.
Proof.
  unfold insert_item. intros H. do 4 apply bind_reject_ok in H as [_ H]. apply bind_gets_ok in H.
  apply bind_reject_ok in H as [Hk H]. apply bind_reject_ok in H as [Ho H]. apply bind_reject_ok in H as [Hj H].
  injection H as <-. destruct_bools. split_and!; try done.
  - by apply eq_None_not_Some.
  - by apply not_eq_None_Some.
  - intros k i Hi E. apply not_true_iff_false in Ho. apply Ho, existsb_true. exists i.
    split; [|by rewrite bool_decide_true]. unfold item_rows. apply list_elem_of_fmap. exists (k, i).
    split; [done|]. by apply elem_of_map_to_list.
Qed.

Lemma insert_items_ok jobID devices s u s' :
  insert_items jobID devices s = (Ok u, s') →
  NoDup (Baseline_DeviceID <$> devices) ∧
  (∀ b, b ∈ devices → product_service_apply_items s !! (jobID, Baseline_DeviceID b) = None) ∧
  s' = with_items (new_items jobID devices ∪ product_service_apply_items s) s.
Proof.
  revert s. induction devices as [|b devices IH]; intros s; simpl.
  { intros [= _ <-]. split_and!; [constructor|set_solver|].
    unfold new_items. simpl. rewrite (left_id_L ∅ (∪)). by destruct s. }
  intros H. apply bind_ok in H as ([] & s1 & Hi & H). apply insert_item_ok in Hi as (Hf & _ & _ & ->).
  simpl in Hf. destruct (IH _ H) as (Hn & Hall & ->). simpl in *.
  assert (Baseline_DeviceID b ∉ Baseline_DeviceID <$> devices) as Hb.
  { intros (b' & Hid & Hin)%list_elem_of_fmap. specialize (Hall _ Hin). rewrite <-Hid, lookup_insert_eq in Hall. done. }
  split_and!.
  - by constructor.
  - intros b' [->|Hin]%elem_of_cons; [done|]. specialize (Hall _ Hin). by apply lookup_insert_None in Hall as [? _].
  - unfold with_items. simpl. f_equal. unfold new_items. simpl.
    rewrite <-insert_union_l, <-insert_union_r; [done|].
    apply not_elem_of_list_to_map_1. rewrite <-list_fmap_compose. intros (b' & E & Hin)%list_elem_of_fmap.
    injection E as E. apply Hb, list_elem_of_fmap. eauto.
Qed.

Lemma new_items_lookup jobID devices job d i :
  NoDup (Baseline_DeviceID <$> devices) →
  new_items jobID devices !! (job, d) = Some i ↔
  job = jobID ∧ ∃ b, b ∈ devices ∧ Baseline_DeviceID b = d ∧ i = new_item jobID b.
Proof.
  intros Hn. unfold new_items. rewrite <-elem_of_list_to_map.
  - rewrite list_elem_of_fmap. split; [intros (b & [= -> -> ->] & Hb)|intros (-> & b & Hb & <- & ->)]; eauto 6.
  - rewrite <-list_fmap_compose.
    change (NoDup ((pair jobID ∘ Baseline_DeviceID) <$> devices)). rewrite list_fmap_compose.
    apply NoDup_fmap_2; [|done]. by intros ? ? [= ->].
Qed.

Lemma insert_job_ok row s j s' :
  insert_job row s = (Ok j, s') →
  j = apply_job row ∧ product_service_apply_jobs s !! Job_ID j = None ∧ active_job_of (Job_ProductID j) s = false ∧
  s' = with_jobs (<[Job_ID j := row]> (product_service_apply_jobs s)) s.
Proof.
  unfold insert_job. cbv zeta. intros H. do 5 apply bind_reject_ok in H as [_ H]. apply bind_gets_ok in H.
  apply bind_reject_ok in H as [Hk H]. apply bind_reject_ok in H as [_ H]. injection H as <- <-.
  apply orb_false_iff in Hk as [Hk Ha]. destruct_bools. split_and!; try done. by apply eq_None_not_Some.
Qed.

(** A job that is written: the preview it was made from, and the tables after it. *)
Record job_admitted (actor cloud product jobID token : string) (s : EntitlementDB) (j : ProductServiceApplyJob)
    (p : ProductServiceApplyPreview) (s' : EntitlementDB) : Prop := {
  adm_preview : previewProductServiceApplyTx cloud product s = (Ok p, s);
  adm_token : Preview_PreviewToken p = token;
  adm_blockers : Preview_Blockers p = [];
  adm_fresh : product_service_apply_jobs s !! jobID = None;
  adm_alone : active_job_of product s = false;
  adm_job : j = mkApplyJob jobID cloud product (Preview_TargetRevision p) (Preview_TargetDigest p)
    (Preview_TotalDevices p) "active" (now (ent_db s));
  adm_jobs : product_service_apply_jobs s' = <[jobID := mkApplyJobRow j actor (Preview_options p)
    (Preview_retention p) token (now (ent_db s)) None]> (product_service_apply_jobs s);
  adm_nodup : NoDup (Baseline_DeviceID <$> Preview_devices p);
  adm_items_fresh : ∀ b, b ∈ Preview_devices p →
    product_service_apply_items s !! (jobID, Baseline_DeviceID b) = None;
  adm_items : product_service_apply_items s' =
    new_items jobID (Preview_devices p) ∪ product_service_apply_items s;
  adm_snapshots : device_entitlement_snapshots s' = device_entitlement_snapshots s;
  adm_db : ∃ e, ent_db s' = with_audit (audit_events (ent_db s) ++ [e]) (ent_db s);
}.

Lemma AdmitProductServiceApply_ok writes actor cloud product jobID token s j s' :
  AdmitProductServiceApply writes actor cloud product jobID token s = (Ok j, s') →
  writes = true ∧ productApplyJobIDPattern jobID = true ∧
  product_manager actor cloud product (registry (ent_db s)) ∧
  ((s' = s ∧ ∃ row, get_job cloud product jobID s = Some row ∧ j = apply_job row ∧
      apply_preview_token row = token) ∨
   ∃ p, job_admitted actor cloud product jobID token s j p s').
Proof.
  unfold AdmitProductServiceApply. intros H. apply bind_reject_ok in H as [Hck H]. rewrite transaction_ok in H.
  apply bind_ok in H as ([] & s1 & Ha & H). apply on_db_read in Ha as [Ha ->]; [|eauto with rtk].
  apply bind_gets_ok in H. destruct_bools. split; [done|]. split; [done|].
  split; [by apply authorizeProductUserMutationTx_ok in Ha as [_ Ha]|].
  destruct (get_job cloud product jobID s) as [row|] eqn:Hg.
  - left. apply bind_reject_ok in H as [Ht H]. injection H as <- <-. destruct_bools. eauto.
  - right. apply bind_ok in H as (p & s1 & Hp & H). pose proof Hp as E.
    apply read_only_ok in E as ->; [|eauto with rtk]. apply bind_reject_ok in H as [Hb H].
    apply orb_false_iff in Hb as [Htok Hb]. destruct_bools. cbv zeta in H.
    apply bind_ok in H as (j' & s1 & Hj & H). apply insert_job_ok in Hj as (-> & Hf & Hal & ->). simpl in Hf, Hal.
    apply bind_ok in H as ([] & s1 & Hi & H). apply insert_items_ok in Hi as (Hn & Hfi & ->). simpl in Hfi.
    apply bind_ok in H as ([] & s1 & Hau & H). apply on_db_ok in Hau as (db' & Hau & ->).
    unfold create_audit_event, insert_audit_event in Hau. apply bind_gets_ok in Hau. injection Hau as <-.
    injection H as <- <-. exists p. split; try done. simpl. by eexists.
Qed.

(** Items belong to jobs (the foreign key). *)
Definition items_fk (s : EntitlementDB) : Prop :=
  ∀ job d i, product_service_apply_items s !! (job, d) = Some i →
    is_Some (product_service_apply_jobs s !! job).

(** C16: A job that is admitted is made from the preview the caller saw (the token is the one computed from
    the present tables), is the only active job of its product, and has exactly one item for every
    enabled device of the product; each of these devices is at rest, was given what it has by a
    verified grant, and its item records the baseline it is at.  Admitting the job again with the
    same token changes nothing. *)
Theorem admission_freezes_devices writes actor cloud product jobID token s j s' :
  items_fk s → product_service_apply_jobs s !! jobID = None →
  AdmitProductServiceApply writes actor cloud product jobID token s = (Ok j, s') →
  (∃ g devices, newest_grant (registry (ent_db s)) product cloud = Some g ∧
     Job_TargetRevision j = grant_revision g ∧ Job_TargetDigest j = grant_snapshot_sha256 g ∧
     Baseline_DeviceID <$> devices = product_devices cloud product (ent_db s) ∧
     token = preview_token cloud product (grant_revision g) (grant_snapshot_sha256 g)
       (grant_log_retention_days g) (Job_TotalDevices j) devices [] ∧
     Job_TotalDevices j = Z.of_nat (length devices) ∧
     (∀ b, b ∈ devices → device_ready cloud product (Baseline_DeviceID b) s b) ∧
     ∀ d i, product_service_apply_items s' !! (jobID, d) = Some i ↔
       ∃ b, b ∈ devices ∧ Baseline_DeviceID b = d ∧ i = new_item jobID b) ∧
  active_job_of product s = false ∧ Job_Status j = "active" ∧
  (∀ job d i, job ≠ jobID → product_service_apply_items s' !! (job, d) = Some i ↔
     product_service_apply_items s !! (job, d) = Some i) ∧
  device_entitlement_snapshots s' = device_entitlement_snapshots s ∧
  AdmitProductServiceApply writes actor cloud product jobID token s' = (Ok j, s').
Proof.
  intros Hfk Hfresh H.
  pose proof H as (_ & _ & _ & [[_ (row & Hg & _)]|(p & Ha)])%AdmitProductServiceApply_ok.
  { apply get_job_ok in Hg as [Hg _]. congruence. }
  destruct (previewProductServiceApplyTx_ok _ _ _ _ _ (adm_preview _ _ _ _ _ _ _ _ _ Ha)
    (adm_blockers _ _ _ _ _ _ _ _ _ Ha)) as (_ & Htot & Hids & Hready & _ & g & Hg & Hrev & Hdig & _ & _ & Htok).
  pose proof (adm_job _ _ _ _ _ _ _ _ _ Ha) as Hj. pose proof (adm_nodup _ _ _ _ _ _ _ _ _ Ha) as Hn.
  split_and!.
  - exists g, (Preview_devices p). rewrite Hj. simpl. split_and!; try done.
    + by rewrite <-(adm_token _ _ _ _ _ _ _ _ _ Ha).
    + intros d i. rewrite (adm_items _ _ _ _ _ _ _ _ _ Ha), lookup_union_Some_raw, (new_items_lookup _ _ _ _ _ Hn).
      split; [intros [[_ ?]|[_ Hold]]; [done|]|intros ?; by left].
      apply Hfk in Hold as [? Hold]. congruence.
  - apply Ha.
  - by rewrite Hj.
  - intros job d i Hne. rewrite (adm_items _ _ _ _ _ _ _ _ _ Ha), lookup_union_Some_raw.
    assert (new_items jobID (Preview_devices p) !! (job, d) = None) as E.
    { apply eq_None_not_Some. intros [i' Hi]. apply (new_items_lookup _ _ _ _ _ Hn) in Hi as [? _]. done. }
    rewrite E. naive_solver.
  - apply Ha.
  - unfold AdmitProductServiceApply in *. apply bind_reject_ok in H as [Hck H]. rewrite bind_reject_run, Hck.
    apply transaction_ok. rewrite transaction_ok in H. apply bind_ok in H as ([] & s1 & Hau & _).
    apply on_db_read in Hau as [Hau _]; [|eauto with rtk]. destruct (adm_db _ _ _ _ _ _ _ _ _ Ha) as (e & Hdb).
    apply bind_ok. exists tt, s'. split.
    { rewrite on_db_run, (authorizeProductUserMutationTx_with _ _ _ (ent_db s)); [cbn [fst snd]; by rewrite with_ent_db_same| |].
      - by rewrite Hdb.
      - by rewrite Hau. }
    rewrite bind_gets_run. unfold get_job. rewrite (adm_jobs _ _ _ _ _ _ _ _ _ Ha), lookup_insert_eq. simpl.
    rewrite Hj. simpl. rewrite (bool_decide_true (cloud = _)), (bool_decide_true (product = _)) by done. simpl.
    by rewrite bool_decide_true.
Qed.

(** ** Finishing *)

Definition items_keyed (s : EntitlementDB) : Prop :=
  ∀ job d i, product_service_apply_items s !! (job, d) = Some i →
    item_job_id i = job ∧ Baseline_DeviceID (item_baseline i) = d ∧ item_operation_id i = item_operation job d.






(** ** Dispatching *)

(** The state once a failed command is dispatchable again. *)
Definition retried (operationID : string) : Ent unit :=
  transaction (on_db (retry_operation operationID) ;; on_db (retry_outbox operationID)).

Definition dispatched (jobID deviceID : string) (s : EntitlementDB) : EntitlementDB :=
  with_items (alter (λ i, mkApplyItemRow (item_job_id i) (item_operation_id i) (item_baseline i)
    (Some (default (now (ent_db s)) (item_dispatched_at i)))) (jobID, deviceID) (product_service_apply_items s)) s.

Lemma DispatchProductServiceApplyItem_ok writes clock actor cloud product jobID deviceID messageID s item' s' :
  DispatchProductServiceApplyItem writes clock actor cloud product jobID deviceID messageID s = (Ok item', s') →
  ∃ item, find_item cloud product jobID deviceID s = Some item ∧
  ((Item_Status item = "applied" ∧ item' = item ∧ s' = at_ent (clock 0%nat) s) ∨
   ∃ j r s2 s3, Item_Status item ≠ "applied" ∧ get_job cloud product jobID s = Some j ∧
     Job_Status (apply_job j) = "active" ∧
     StartDeviceEntitlementSnapshot writes (clock 1%nat)
       (dispatch_input cloud actor jobID deviceID messageID item j (clock 1%nat))
       (at_ent (clock 1%nat) s) = (Ok r, s2) ∧
     (if bool_decide (Item_Status item = "failed") && Item_Retryable item
      then retried (Item_OperationID item) (at_ent (clock 2%nat) s2) = (Ok tt, s3) else s3 = s2) ∧
     s' = dispatched jobID deviceID (at_ent (clock 3%nat) s3) ∧
     find_item cloud product jobID deviceID s' = Some item').
Proof.
  unfold DispatchProductServiceApplyItem. intros H. apply bind_ok in H as ([] & s1 & Ht & H).
  rewrite at_time_run in Ht. injection Ht as <-.
  apply bind_ok in H as (item & s1 & Hi & H). apply GetProductServiceApplyItem_ok in Hi as [-> Hi].
  exists item. split; [exact Hi|].
  case_bool_decide as Happ; [left; injection H as <- <-; done|right].
  apply bind_reject_ok in H as [_ H]. apply bind_gets_ok, bind_row_ok in H as (j & Hj & H).
  apply bind_ok in H as ([] & s1 & Ht & H). rewrite at_time_run in Ht. injection Ht as <-.
  apply bind_ok in H as (r & s2 & Hstart & H).
  apply bind_ok in H as ([] & s3 & Hretry & H).
  apply bind_ok in H as ([] & s4 & Ht & H). rewrite at_time_run in Ht. injection Ht as <-.
  apply bind_ok in H as ([] & s4 & Hmark & H). injection Hmark as <-.
  apply GetProductServiceApplyItem_ok in H as [-> Hfind].
  change (get_job cloud product jobID (at_ent (clock 0%nat) s)) with (get_job cloud product jobID s) in Hj.
  destruct (get_job cloud product jobID s) as [j'|] eqn:Hg; [|done]. simpl in Hj.
  destruct (bool_decide (Job_Status (apply_job j') = "active")) eqn:Hact; [|done]. injection Hj as ->.
  apply bool_decide_eq_true in Hact.
  exists j, r, s2, s3. split_and!; try done.
  destruct (_ && _).
  - apply bind_ok in Hretry as ([] & s5 & Ht & Hr). rewrite at_time_run in Ht. injection Ht as <-. exact Hr.
  - by injection Hretry as <-.
Qed.

(** The outcome of a first dispatch. *)
Lemma item_row_pending job i s :
  Item_Status (item_row job i s) = "pending" → device_operations (ent_db s) !! item_operation_id i = None.
Proof.
  unfold item_row. simpl. destruct (item_applied job i s); [done|].
  destruct (device_operations (ent_db s) !! item_operation_id i) as [o|]; [|done]. simpl.
  by destruct (DeviceOperation_Status o).
Qed.

(** The CHECK on the ids of jobs. *)
Definition jobs_named (s : EntitlementDB) : Prop :=
  map_Forall (λ id _, productApplyJobIDPattern id = true) (product_service_apply_jobs s).

(** C14: Dispatching an item for the first time takes the device from the baseline the item records to the
    job's grant, and nowhere else.  The job is active; the baseline that is read of the device then is the one
    of the item in every part, its revision, its product revision, its grant's digest, its options, its
    state and its Video Cloud identity; nothing else is under way on the device.  One snapshot
    of that device is written, with the next revision, the target's revision, the digest of the
    grant of that revision, the target's options, and the state and identity of the baseline; one
    command with its content is queued, and the item is accepted. *)
Theorem dispatch_moves_device writes clock actor cloud product jobID deviceID messageID s item item' s' :
  devices_keyed (ent_db s) → revisions_fit s → items_keyed s → jobs_named s →
  find_item cloud product jobID deviceID s = Some item → Item_Status item = "pending" →
  DispatchProductServiceApplyItem writes clock actor cloud product jobID deviceID messageID s = (Ok item', s') →
  ∃ j i device b g row m, get_job cloud product jobID s = Some j ∧ Job_Status (apply_job j) = "active" ∧
    product_service_apply_items s !! (jobID, deviceID) = Some i ∧
    device_in_org cloud deviceID (ent_db s) = Some device ∧ Device_DisabledAt device = None ∧
    Device_DeviceItemProfileID device = Some product ∧
    (let input := dispatch_input cloud actor jobID deviceID messageID item j (clock 1%nat) in
     let s1 := operation_written (snapshot_now (clock 1%nat) input) input (at_ent (clock 1%nat) s) in
     latestDeviceEntitlementBaselineTx device s1 = (Ok b, s1)) ∧
    Snapshot_Revision b = Baseline_Revision (item_baseline i) ∧
    Snapshot_ProductServiceRevision b = Baseline_ProductRevision (item_baseline i) ∧
    Snapshot_ServiceGrantSHA256 b = Baseline_Digest (item_baseline i) ∧
    Snapshot_ServiceOptions b ≡ₚ Baseline_Options (item_baseline i) ∧
    Snapshot_State b = Baseline_State (item_baseline i) ∧
    Snapshot_VideoCloudDevid b = Baseline_VideoCloudDevid (item_baseline i) ∧
    (∀ k o, device_operations (ent_db s) !! k = Some o → DeviceOperation_DeviceID o = deviceID →
       DeviceOperation_OperationID o = item_operation jobID deviceID ∨ terminal_operation o = true) ∧
    Snapshot_OrganizationID row = cloud ∧ Snapshot_AccountDeviceID row = deviceID ∧
    Snapshot_ProductID row = product ∧ Snapshot_OperationID row = item_operation jobID deviceID ∧
    Snapshot_Revision row = Baseline_Revision (item_baseline i) + 1 ∧
    Snapshot_ProductServiceRevision row = Job_TargetRevision (apply_job j) ∧
    Snapshot_ServiceOptions row ≡ₚ apply_target_options j ∧
    Snapshot_State row = Baseline_State (item_baseline i) ∧
    Snapshot_VideoCloudDevid row = Baseline_VideoCloudDevid (item_baseline i) ∧
    g ∈ product_service_grants (registry (ent_db s)) ∧ grant_product_id g = product ∧
    grant_brand_cloud_id g = cloud ∧ grant_revision g = Job_TargetRevision (apply_job j) ∧
    grant_snapshot_sha256 g = Snapshot_ServiceGrantSHA256 row ∧
    device_entitlement_snapshots s' = <[item_operation jobID deviceID := row]> (device_entitlement_snapshots s) ∧
    device_message_outbox (ent_db s') = <[messageID := m]> (device_message_outbox (ent_db s)) ∧
    device_message_outbox (ent_db s) !! messageID = None ∧
    Outbox_OperationID m = item_operation jobID deviceID ∧
    Outbox_Payload m = marshalJSONMap (snapshot_outbox_payload row actor) ∧
    Outbox_Status m = DeviceMessageOutboxStatusPending ∧
    Item_Status item' = "accepted".
Proof.
  intros Hk Hfit Hik Hjn Hfind Hpend H. apply DispatchProductServiceApplyItem_ok in H as (item0 & Hf & Hcase).
  rewrite Hfind in Hf. injection Hf as <-.
  destruct Hcase as [[Ha _]|(j & r & s2 & s3 & _ & Hg & Hact & Hstart & Hs3 & -> & Hfind')]; [congruence|].
  rewrite bool_decide_false in Hs3 by (rewrite Hpend; done). simpl in Hs3. subst s3.
  unfold find_item in Hfind. rewrite Hg in Hfind. simpl in Hfind.
  destruct (product_service_apply_items s !! (jobID, deviceID)) as [i|] eqn:Hi; [|done].
  simpl in Hfind. injection Hfind as <-. pose proof (item_row_pending _ _ _ Hpend) as Hnone.
  destruct (Hik _ _ _ Hi) as (_ & Hdev & Hop). rewrite Hop in Hnone.
  set (input := dispatch_input _ _ _ _ _ _ _ _) in Hstart.
  assert (SI_OperationID input = item_operation jobID deviceID) as Hopi by exact Hop.
  destruct (StartDeviceEntitlementSnapshot_cases _ _ _ _ _ _ Hstart) as [[_ Hc]|(? & [= <-] & Hc)].
  { destruct (Hc _ eq_refl) as [_ [o Ho]]. rewrite Hopi in Ho. simpl in Ho. congruence. }
  apply StartDeviceEntitlementSnapshot_created in Hstart
    as (device & product' & baseline & grant & _ & _ & _ & _ & _ & _ & _ & _ & _ & Ht); [|done].
  assert (jobID ≠ "") as Hne.
  { apply get_job_ok in Hg as [Hj _]. apply Hjn in Hj. by intros ->. }
  destruct (taken_batch _ _ _ _ _ _ _ _ _ Ht Hne) as (j' & i' & Hb).
  destruct (batch_job _ _ _ _ _ _ Hb) as (Hj' & _ & Hjp & _). destruct (batch_item _ _ _ _ _ _ Hb) as [Hi' _].
  apply get_job_ok in Hg as Hj. destruct Hj as (Hj & _ & Hjp').
  rewrite (Hj : product_service_apply_jobs (at_ent (clock 1%nat) s) !! SI_BatchJobID input = Some j) in Hj'.
  rewrite (Hi : product_service_apply_items (at_ent (clock 1%nat) s) !! (SI_BatchJobID input, SI_DeviceID input)
    = Some i) in Hi'. injection Hj' as <-. injection Hi' as <-.
  assert (product' = product) as -> by congruence.
  assert (Device_ID device = SI_DeviceID input) as Hid.
  { pose proof (taken_device _ _ _ _ _ _ _ _ _ Ht) as [Hd _]%device_in_org_some. by apply Hk in Hd. }
  pose proof (taken_revision _ _ _ _ _ _ _ _ _ (Hfit : revisions_fit (at_ent _ s)) Hid Ht) as [Hrev _].
  destruct (next_snapshot_ok _ _ _ _ _ _ _ (taken_next _ _ _ _ _ _ _ _ _ Ht))
    as (Horg & Hadev & Hvid & _ & Hprod & Hgr & Hdig & Hopt & _ & Hst & Hrop & _).
  destruct (taken_grant _ _ _ _ _ _ _ _ _ Ht) as (dbg & Hreg & Hgrant).
  apply productGrantForEntitlementTx_ok in Hgrant as (_ & g & Hin & Hgp & Hgc & Hgrev & _ & _ & Hgd & _).
  rewrite Hreg in Hin.
  destruct (batch_target _ _ _ _ _ _ Hb) as [Htr Hto].
  destruct (batch_baseline _ _ _ _ _ _ Hb) as (Hbr & Hbp & Hbd & Hbs & Hbv & Hbo).
  destruct (taken_message _ _ _ _ _ _ _ _ _ Ht) as (dbm & _ & Hm).
  exists j, i, device, baseline, g, (SR_Snapshot r), (SR_Message r). cbv zeta. rewrite Hrev, Hgr, Hopt, Hst, Hvid, Hbr, Hbv, <-Hopi.
  split_and!; try done.
  - apply (taken_device _ _ _ _ _ _ _ _ _ Ht).
  - apply (taken_enabled _ _ _ _ _ _ _ _ _ Ht).
  - apply (taken_product _ _ _ _ _ _ _ _ _ Ht).
  - apply (taken_read _ _ _ _ _ _ _ _ _ Ht).
  - intros k o Ho Hdo. destruct (decide (DeviceOperation_OperationID o = SI_OperationID input)); [by left|right].
    apply (batch_quiet _ _ _ _ _ _ Hb k o); [done|done|]. change (DeviceOperation_OperationID o ≠ item_operation jobID deviceID). congruence.
  - congruence.
  - apply (taken_snapshots _ _ _ _ _ _ _ _ _ Ht).
  - apply (taken_outbox _ _ _ _ _ _ _ _ _ Ht).
  - apply (taken_message_fresh _ _ _ _ _ _ _ _ _ Ht).
  - by rewrite Hm, (taken_operation _ _ _ _ _ _ _ _ _ Ht).
  - by rewrite Hm.
  - by rewrite Hm.
  - unfold find_item in Hfind'. apply bind_Some in Hfind' as (j2 & Hj2 & Hfind').
    apply bind_Some in Hfind' as (i2 & Hi2 & Hfind'). injection Hfind' as <-.
    simpl in Hi2. rewrite lookup_alter_eq in Hi2.
    destruct (taken_rest _ _ _ _ _ _ _ _ _ Ht) as (_ & _ & _ & _ & _ & _ & Hitems).
    simpl in Hitems. rewrite Hitems, Hi in Hi2. simpl in Hi2. injection Hi2 as <-.
    set (i2 := mkApplyItemRow _ _ _ _).
    assert (device_operations (ent_db (dispatched jobID deviceID (at_ent (clock 3%nat) s2))) !! item_operation_id i2
      = Some (SR_Operation r)) as Ho.
    { simpl. rewrite (taken_operations _ _ _ _ _ _ _ _ _ Ht). change (item_operation_id i) with (SI_OperationID input).
      apply lookup_insert_eq. }
    assert (DeviceOperation_Status (SR_Operation r) = DeviceOperationStatusPending) as Hstat
      by (by rewrite (taken_operation _ _ _ _ _ _ _ _ _ Ht)).
    unfold item_row. cbv zeta. rewrite Ho. simpl. rewrite Hstat.
    assert (∀ job, item_applied job i2 (dispatched jobID deviceID (at_ent (clock 3%nat) s2)) = false) as ->; [|done].
    intros job. unfold item_applied. rewrite Ho. destruct (device_entitlement_snapshots _ !! _); [|done].
    unfold acknowledged. by rewrite Hstat.
Qed.

(** ** The theorems at work on a small store *)

Definition sample_job : string := "job-0123456789abcdef01234567".
Definition sample_token : string := Eval vm_compute in
  match PreviewProductServiceApply true "user-1" sample_org sample_product sample_ent with
  | (Ok p, _) => Preview_PreviewToken p
  | _ => ""
  end.
Definition sample_admit (s : EntitlementDB) : res ProductServiceApplyJob * EntitlementDB :=
  AdmitProductServiceApply true "user-1" sample_org sample_product sample_job sample_token s.
Definition sample_admitted : EntitlementDB := (sample_admit sample_ent).2.
Definition sample_clock (n : nat) : Time := mkTime ((1700000200 + Z.of_nat n) * Second) 0.
Definition sample_dispatch (s : EntitlementDB) : res ProductServiceApplyItem * EntitlementDB :=
  DispatchProductServiceApplyItem true sample_clock "user-1" sample_org sample_product sample_job sample_uuid "msg-2" s.

Example sample_preview_blocks_nothing :
  succeeds_with (λ p _, bool_decide (Preview_Blockers p = []) && bool_decide (Preview_AddedOptions p = ["device_logging"])
      && (Preview_TotalDevices p =? 1))
    (PreviewProductServiceApply true "user-1" sample_org sample_product) sample_ent = true.
Proof. vm_compute. reflexivity. Qed.

Lemma admission_freezes_devices_witness :
  ∃ j s', sample_admit sample_ent = (Ok j, s') ∧ Job_Status j = "active" ∧ active_job_of sample_product sample_ent = false ∧
    sample_admit s' = (Ok j, s').
Proof.
  destruct (run_succeeds sample_admit sample_ent) as (j & s' & E); [vm_compute; reflexivity|].
  destruct (admission_freezes_devices true "user-1" sample_org sample_product sample_job sample_token sample_ent j s')
    as (_ & Ha & Hs & _ & _ & Hr).
  - intros job d i Hi. exact (False_ind _ (eq_ind None (λ o, match o with Some _ => False | None => True end) I _ Hi)).
  - reflexivity.
  - exact E.
  - exists j, s'. split_and!; [exact E|exact Hs|exact Ha|exact Hr].
Defined.

(** What the tables of these states hold, evaluated once. *)
Lemma sample_admitted_devices : devices (ent_db sample_admitted) = devices (ent_db sample_ent).
Proof. vm_compute. reflexivity. Qed.
Lemma sample_admitted_snapshots : device_entitlement_snapshots sample_admitted = ∅.
Proof. vm_compute. reflexivity. Qed.
Lemma sample_items : map_to_list (product_service_apply_items sample_admitted) =
  [((sample_job, sample_uuid), new_item sample_job (mkBaseline sample_uuid "devid-1" 0 1
      (grant_snapshot_sha256 sample_grant_1) ["mqtt"] "active"))].
Proof. vm_compute. reflexivity. Qed.

Lemma sample_admitted_keyed : items_keyed sample_admitted.
Proof.
  intros job d i Hi. apply elem_of_map_to_list in Hi. rewrite sample_items in Hi.
  apply list_elem_of_singleton in Hi. injection Hi as -> -> ->. split_and!; reflexivity.
Qed.
#[local] Opaque sample_admitted.

Lemma sample_admitted_named : jobs_named sample_admitted.
Proof.
  assert (forallb (λ kj, productApplyJobIDPattern kj.1) (map_to_list (product_service_apply_jobs sample_admitted)) = true)
    as H by (vm_compute; reflexivity).
  apply forallb_Forall in H. rewrite Forall_forall in H.
  intros k j Hj. apply elem_of_map_to_list in Hj. by apply (H (k, j)).
Qed.

Lemma dispatch_moves_device_witness :
  ∃ item' s' row, sample_dispatch sample_admitted = (Ok item', s') ∧ Item_Status item' = "accepted" ∧
    device_entitlement_snapshots s' !! item_operation sample_job sample_uuid = Some row ∧
    Snapshot_ProductServiceRevision row = 2.
Proof.
  destruct (run_succeeds sample_dispatch sample_admitted) as (item' & s' & E); [vm_compute; reflexivity|].
  assert (Item_Status <$> find_item sample_org sample_product sample_job sample_uuid sample_admitted
    = Some "pending") as Hp by (vm_compute; reflexivity).
  destruct (find_item sample_org sample_product sample_job sample_uuid sample_admitted) as [item|] eqn:Hf;
    [|discriminate Hp].
  injection Hp as Hp.
  destruct (dispatch_moves_device true sample_clock "user-1" sample_org sample_product sample_job sample_uuid "msg-2"
    sample_admitted item item' s') as (j & i & device & b & g & row & m & Hj & _ & _ & _ & _ & _ & _ & _ & _ & _ & _ & _ &
      _ & _ & _ & _ & _ & _ & _ & Hrev & _ & _ & _ & _ & _ & _ & _ & _ & Hs & _ & _ & _ & _ & _ & Ha).
  - unfold devices_keyed. rewrite sample_admitted_devices. exact sample_ent_keyed.
  - unfold revisions_fit. rewrite sample_admitted_snapshots. apply map_Forall_empty.
  - exact sample_admitted_keyed.
  - exact sample_admitted_named.
  - exact Hf.
  - exact Hp.
  - exact E.
  - exists item', s', row. split_and!; [exact E|exact Ha|rewrite Hs; apply lookup_insert_eq|].
    assert ((λ j, Job_TargetRevision (apply_job j)) <$>
      get_job sample_org sample_product sample_job sample_admitted = Some 2) as Ht by (vm_compute; reflexivity).
    rewrite Hj in Ht. injection Ht as Ht. rewrite Hrev. exact Ht.
Defined.

