(* ===== verification/DependencyGraph.v ===== *)
(** * Dependencies of options: the searches of store/platform_services.go

    An option of a platform service requires other options.  Two searches of
    store/platform_services.go walk these requirements depth first, with a mark
    per option (absent, being visited, visited): [visit] in
    validateManifestDependencies, which refuses a missing or a cyclic
    requirement, and [selectable] in readPlatformServiceOptions, which takes an
    option out of the catalog when something it requires is not there.

    Both recursions are given fuel; a search that starts with more fuel than
    there are unmarked options never uses it up ([visit_total],
    ServiceCatalog.v for the other).  A graph passes exactly when its options
    can be listed so that each comes after what it requires ([build_order]). *)

From S2P Require Export GoStd.

(** What each option requires. *)
Abbreviation requirements := (gmap string (list string)).

(** The value 1 and 2 of [states[code]]; 0 is no entry. *)
Inductive mark := Visiting | Visited.
#[export] Instance mark_eq_dec : EqDecision mark.
Proof. solve_decision. Defined.

Abbreviation marks := (gmap string mark).

Definition err_cycle : error := ErrText "cyclic option dependency".
Definition err_missing (code : string) : error := ErrText ("missing dependency " +:+ code).
(** No run of the program ends so. *)
Definition err_fuel : error := ErrText "fuel".

Definition requires (g : requirements) (code : string) : list string := default [] (g !! code).

(** The loop over the dependencies of an option; [visit] is the recursive call. *)
Fixpoint visit_all (visit : string → marks → res marks) (g : requirements) (deps : list string)
    (st : marks) : res marks :=
  match deps with
  | [] => Ok st
  | d :: deps =>
      if bool_decide (d ∈ dom g) then st ← visit d st; visit_all visit g deps st
      else Err (err_missing d)
  end.

Fixpoint visit (fuel : nat) (g : requirements) (code : string) (st : marks) : res marks :=
  match fuel with
  | O => Err err_fuel
  | S fuel =>
      match st !! code with
      | Some Visiting => Err err_cycle
      | Some Visited => Ok st
      | None =>
          st ← visit_all (visit fuel g) g (requires g code) (<[code := Visiting]> st);
          Ok (<[code := Visited]> st)
      end
  end.

(** The loop over all options, in the order [codes]: a Go map is ranged over in any order. *)
Definition visit_roots (g : requirements) (codes : list string) : res marks :=
  visit_all (visit (S (size g)) g) g codes ∅.

Definition check_requirements (g : requirements) (codes : list string) : res unit :=
  _ ← visit_roots g codes; Ok tt.

(** ** Build orders *)

(** Options already listed are in the tail. *)
Inductive build_order (g : requirements) : list string → Prop :=
  | build_nil : build_order g []
  | build_cons code l :
      build_order g l → code ∈ dom g → code ∉ l → (∀ d, d ∈ requires g code → d ∈ l) →
      build_order g (code :: l).
#[export] Hint Constructors build_order : rtk.

(** One order lists every option. *)
Definition buildable (g : requirements) : Prop := ∃ l, build_order g l ∧ ∀ code, code ∈ dom g → code ∈ l.

Lemma build_order_dom g l : build_order g l → ∀ c, c ∈ l → c ∈ dom g.
Proof.
  induction 1 as [|code l _ IH Hd _ _]; intros c Hc; [by apply elem_of_nil in Hc|].
  apply elem_of_cons in Hc as [->|Hc]; eauto.
Qed.

Lemma build_order_NoDup g l : build_order g l → NoDup l.
Proof. induction 1; constructor; auto. Qed.

Lemma build_order_length g l : build_order g l → length l ≤ size g.
Proof.
  intros Hb. rewrite <- size_dom, <- (size_list_to_set (C:=gset string) l) by by eapply build_order_NoDup.
  apply subseteq_size. intros c. rewrite elem_of_list_to_set. by apply build_order_dom.
Qed.

Lemma build_order_requires g l c d : build_order g l → c ∈ l → d ∈ requires g c → d ∈ l.
Proof.
  induction 1 as [|code l _ IH _ _ Hr]; intros Hc Hd; [by apply elem_of_nil in Hc|].
  apply elem_of_cons. right. apply elem_of_cons in Hc as [->|Hc]; auto.
Qed.

(** The place of an option, counted from the end of the order. *)
Fixpoint rank (l : list string) (code : string) : nat :=
  match l with
  | [] => 0
  | c :: l => if bool_decide (c = code) then S (length l) else rank l code
  end.

Lemma rank_le l c : rank l c ≤ length l.
Proof. induction l as [|x l IH]; simpl; [done|]. case_bool_decide; lia. Qed.

Lemma rank_pos l c : c ∈ l → 0 < rank l c.
Proof.
  induction l as [|x l IH]; intros Hc; simpl; [by apply elem_of_nil in Hc|].
  case_bool_decide; [lia|]. apply IH. by apply elem_of_cons in Hc as [->|?].
Qed.

Lemma rank_requires g l c d : build_order g l → c ∈ l → d ∈ requires g c → rank l d < rank l c.
Proof.
  induction 1 as [|code l Hb IH _ Hn Hr]; intros Hc Hd; [by apply elem_of_nil in Hc|]. simpl.
  destruct (decide (code = c)) as [<-|Hx].
  - rewrite (bool_decide_true (code = code)) by done.
    rewrite bool_decide_false by (intros ->; eauto). pose proof (rank_le l d). lia.
  - rewrite (bool_decide_false (code = c)) by done. apply elem_of_cons in Hc as [->|Hc]; [done|].
    rewrite bool_decide_false; [by apply IH|]. intros ->. eauto using build_order_requires.
Qed.

(** ** Soundness: a search that passes has found a build order *)

Definition marked (m : mark) (st : marks) (c : string) : Prop := st !! c = Some m.

(** What a search that passes does to the marks: the visited options become a longer build order. *)
Definition extends (g : requirements) (st st' : marks) (l l' : list string) : Prop :=
  build_order g l' ∧ (∀ c, marked Visited st' c ↔ c ∈ l') ∧
  (∀ c, marked Visiting st' c ↔ marked Visiting st c) ∧ (∀ c, c ∈ l → c ∈ l').

Definition visit_sound (g : requirements) (v : string → marks → res marks) : Prop := ∀ code st st' l,
  build_order g l → (∀ c, marked Visited st c ↔ c ∈ l) → code ∈ dom g → v code st = Ok st' →
  ∃ l', extends g st st' l l' ∧ code ∈ l'.

Lemma visit_all_sound g v deps st st' l : visit_sound g v →
  build_order g l → (∀ c, marked Visited st c ↔ c ∈ l) → visit_all v g deps st = Ok st' →
  ∃ l', extends g st st' l l' ∧ ∀ d, d ∈ deps → d ∈ l'.
Proof.
  intros Hv. revert st l. induction deps as [|d deps IH]; intros st l Hb Hl; simpl.
  - intros [= <-]. exists l. split; [|by intros d ?%elem_of_nil]. by repeat split; try apply Hl.
  - case_bool_decide as Hd; [|done]. intros (st1 & H1 & H2)%res_bind_ok.
    destruct (Hv _ _ _ _ Hb Hl Hd H1) as (l1 & (Hb1 & Hl1 & Hg1 & Hi1) & Hd1).
    destruct (IH _ _ Hb1 Hl1 H2) as (l2 & (Hb2 & Hl2 & Hg2 & Hi2) & Hd2).
    exists l2. split; [repeat split; auto; intros; naive_solver|].
    intros d' [->|?]%elem_of_cons; auto.
Qed.

Lemma visit_is_sound g fuel : visit_sound g (visit fuel g).
Proof.
  induction fuel as [|fuel IH]; intros code st st' l Hb Hl Hc; simpl; [done|].
  destruct (st !! code) as [[]|] eqn:E; [done| |].
  { intros [= <-]. exists l. split; [by repeat split; try apply Hl|]. by apply Hl. }
  intros (st1 & H1 & [= <-])%res_bind_ok.
  assert (Hn : code ∉ l) by (intros ?%Hl; unfold marked in *; congruence).
  assert (Hl0 : ∀ c, marked Visited (<[code:=Visiting]> st) c ↔ c ∈ l).
  { intros c. unfold marked. destruct (decide (c = code)) as [->|Hne].
    - rewrite lookup_insert_eq. naive_solver.
    - rewrite lookup_insert_ne by done. apply Hl. }
  destruct (visit_all_sound g _ _ _ _ _ IH Hb Hl0 H1) as (l1 & (Hb1 & Hl1 & Hg1 & Hi1) & Hd1).
  assert (Hv : marked Visiting st1 code) by (apply Hg1; apply lookup_insert_eq).
  assert (Hn1 : code ∉ l1) by (intros ?%Hl1; unfold marked in *; congruence).
  exists (code :: l1). split; [|by left]. repeat split.
  - by constructor.
  - unfold marked. destruct (decide (c = code)) as [->|Hne]; [by left|].
    rewrite lookup_insert_ne by done. right. by apply Hl1.
  - unfold marked. intros [->|Hin]%elem_of_cons; [apply lookup_insert_eq|].
    destruct (decide (c = code)) as [->|Hne]; [done|]. rewrite lookup_insert_ne by done. by apply Hl1.
  - unfold marked. destruct (decide (c = code)) as [->|Hne]; [by rewrite lookup_insert_eq|].
    rewrite lookup_insert_ne by done. intros H. apply Hg1 in H. unfold marked in H.
    by rewrite lookup_insert_ne in H.
  - unfold marked. intros H. destruct (decide (c = code)) as [->|Hne]; [congruence|].
    rewrite lookup_insert_ne by done. apply Hg1. unfold marked. by rewrite lookup_insert_ne.
  - intros c Hin. right. auto.
Qed.

(** ** Completeness: a graph with a build order passes *)

(** A search that only has options of higher rank on its stack passes and marks no other options. *)
Definition visit_complete (L : list string) (fuel : nat) (v : string → marks → res marks) : Prop := ∀ code st,
  code ∈ L → rank L code ≤ fuel → (∀ c, marked Visiting st c → rank L code < rank L c) →
  ∃ st', v code st = Ok st' ∧ ∀ c, marked Visiting st' c ↔ marked Visiting st c.

Lemma visit_all_complete g L fuel v deps st : visit_complete L fuel v → build_order g L →
  (∀ d, d ∈ deps → d ∈ L ∧ rank L d ≤ fuel ∧ ∀ c, marked Visiting st c → rank L d < rank L c) →
  ∃ st', visit_all v g deps st = Ok st' ∧ ∀ c, marked Visiting st' c ↔ marked Visiting st c.
Proof.
  intros Hv Hb. revert st. induction deps as [|d deps IH]; intros st Hd; simpl; [eauto|].
  destruct (Hd d) as (Hin & Hr & Hg); [by left|].
  rewrite bool_decide_true by by eapply build_order_dom.
  destruct (Hv d st Hin Hr Hg) as (st1 & -> & Hg1). simpl.
  destruct (IH st1) as (st2 & -> & Hg2).
  { intros d' Hd'. destruct (Hd d') as (? & ? & ?); [by right|]. repeat split; auto. intros c Hc. apply Hg1 in Hc. auto. }
  exists st2. split; [done|]. intros c. by rewrite Hg2.
Qed.

Lemma visit_is_complete g L fuel : build_order g L → visit_complete L fuel (visit fuel g).
Proof.
  intros Hb. induction fuel as [|fuel IH]; intros code st Hin Hr Hg.
  { apply rank_pos in Hin. lia. }
  simpl. destruct (st !! code) as [[]|] eqn:E.
  - apply Hg in E. lia.
  - eauto.
  - destruct (visit_all_complete g L fuel _ (requires g code) (<[code:=Visiting]> st) IH Hb) as (st1 & -> & Hg1).
    { intros d Hd. split; [by eapply build_order_requires|].
      pose proof (rank_requires g L code d Hb Hin Hd). split; [lia|].
      intros c Hc. unfold marked in Hc. destruct (decide (c = code)) as [->|Hne]; [done|].
      rewrite lookup_insert_ne in Hc by done. apply Hg in Hc. lia. }
    simpl. eexists. split; [done|]. intros c. unfold marked in *. destruct (decide (c = code)) as [->|Hne].
    + rewrite lookup_insert_eq, E. naive_solver.
    + rewrite lookup_insert_ne by done. rewrite Hg1. by rewrite lookup_insert_ne by done.
Qed.

(** ** Termination: the fuel is never used up *)

Definition unmarked (g : requirements) (st : marks) : nat := size (dom g ∖ dom st).

Lemma unmarked_insert g st c m : c ∈ dom g → st !! c = None → unmarked g (<[c:=m]> st) < unmarked g st.
Proof.
  intros Hc Hn. apply subset_size. rewrite dom_insert. apply not_elem_of_dom in Hn. set_solver.
Qed.
Lemma unmarked_mono g st st' : dom st ⊆ dom st' → unmarked g st' ≤ unmarked g st.
Proof. intros H. apply subseteq_size. set_solver. Qed.

Definition visit_terminates (g : requirements) (fuel : nat) (v : string → marks → res marks) : Prop := ∀ code st,
  code ∈ dom g → unmarked g st < fuel →
  v code st ≠ Err err_fuel ∧ ∀ st', v code st = Ok st' → dom st ⊆ dom st'.

Lemma visit_all_terminates g fuel v deps st : visit_terminates g fuel v → unmarked g st < fuel →
  visit_all v g deps st ≠ Err err_fuel ∧ ∀ st', visit_all v g deps st = Ok st' → dom st ⊆ dom st'.
Proof.
  intros Hv. revert st. induction deps as [|d deps IH]; intros st Hf; simpl.
  { split; [done|]. by intros st' [= <-]. }
  case_bool_decide as Hd; [|split; [by intros [=]|done]].
  destruct (Hv d st Hd Hf) as [Hne Hdom]. destruct (v d st) as [st1|e]; simpl.
  - specialize (Hdom _ eq_refl). destruct (IH st1) as [Hne' Hdom'].
    { pose proof (unmarked_mono g _ _ Hdom). lia. }
    split; [done|]. intros st' H. etrans; eauto.
  - split; [congruence|done].
Qed.

Lemma visit_does_terminate g fuel : visit_terminates g fuel (visit fuel g).
Proof.
  induction fuel as [|fuel IH]; intros code st Hc Hf; [lia|]. simpl.
  destruct (st !! code) as [[]|] eqn:E.
  - split; [by intros [=]|done].
  - split; [done|]. by intros st' [= <-].
  - pose proof (unmarked_insert g st code Visiting Hc E).
    destruct (visit_all_terminates g fuel _ (requires g code) (<[code:=Visiting]> st) IH) as [Hne Hdom]; [lia|].
    destruct (visit_all _ _ _ _) as [st1|e]; simpl; [|split; [congruence|done]].
    split; [done|]. intros st' [= <-]. specialize (Hdom _ eq_refl). rewrite dom_insert in Hdom |- *. set_solver.
Qed.

(** ** The check *)

Lemma visit_roots_total g codes : visit_roots g codes ≠ Err err_fuel.
Proof.
  eapply visit_all_terminates; [apply visit_does_terminate|]. unfold unmarked.
  rewrite <- size_dom. apply Nat.lt_succ_r, subseteq_size. set_solver.
Qed.

Lemma check_requirements_iff g codes : (∀ c, c ∈ codes ↔ c ∈ dom g) →
  check_requirements g codes = Ok tt ↔ buildable g.
Proof.
  intros Hcodes. unfold check_requirements. split.
  - intros (st & H & _)%res_bind_ok.
    destruct (visit_all_sound g _ codes ∅ st [] (visit_is_sound g (S (size g)))) as (l & (Hb & _) & Hl);
      eauto with rtk.
    { intros c. unfold marked. rewrite lookup_empty. split; [done|by intros ?%elem_of_nil]. }
    exists l. split; [done|]. intros c Hc. apply Hl, Hcodes, Hc.
  - intros (L & Hb & Hall).
    destruct (visit_all_complete g L (S (size g)) _ codes ∅ (visit_is_complete g L _ Hb) Hb) as (st & H & _).
    { intros d Hd. apply Hcodes in Hd. split; [auto|]. split.
      - pose proof (rank_le L d). pose proof (build_order_length g L Hb). lia.
      - intros c. unfold marked. by rewrite lookup_empty. }
    unfold visit_roots. by rewrite H.
Qed.

Lemma check_requirements_total g codes : check_requirements g codes ≠ Err err_fuel.
Proof.
  unfold check_requirements. pose proof (visit_roots_total g codes). destruct (visit_roots g codes); simpl; congruence.
Qed.

Lemma tc_mono {A} (R S : relation A) x y : (∀ x y, R x y → S x y) → tc R x y → tc S x y.
Proof. intros H. induction 1; [by apply tc_once, H|by eapply tc_l; [apply H|]]. Qed.

(** Everything an option requires, directly or indirectly, can be listed before it. *)
Lemma buildable_acyclic g c : buildable g → c ∈ dom g → ¬ tc (λ c d, d ∈ requires g c) c c.
Proof.
  intros (L & Hb & Hall) Hc Ht.
  assert (Hrank : ∀ c d, tc (λ c d, d ∈ requires g c) c d → c ∈ L → d ∈ L ∧ rank L d < rank L c).
  { induction 1 as [c0 d Hd|c0 d e Hd _ IH]; intros Hin.
    - eauto using build_order_requires, rank_requires.
    - destruct IH; [eauto using build_order_requires|]. pose proof (rank_requires g L c0 d Hb Hin Hd).
      split; [done|lia]. }
  destruct (Hrank c c Ht (Hall c Hc)). lia.
Qed.

(** C23: The check of the requirements always ends; in whatever order the options are ranged over, it
    passes exactly when the options can be listed so that each one comes after everything it requires;
    then nothing that is required is missing and no option requires itself, directly or indirectly. *)
Theorem requirements_check_correct g codes :
  (∀ c, c ∈ codes ↔ c ∈ dom g) →
  check_requirements g codes ≠ Err err_fuel ∧ (check_requirements g codes = Ok tt ↔ buildable g) ∧
  (check_requirements g codes = Ok tt → ∀ c, c ∈ dom g →
     (∀ d, d ∈ requires g c → d ∈ dom g) ∧ ¬ tc (λ c d, d ∈ requires g c) c c).
Proof.
  intros Hcodes. split; [apply check_requirements_total|]. split; [by apply check_requirements_iff|].
  intros H c Hc. apply check_requirements_iff in H; [|done]. split; [|by apply buildable_acyclic].
  destruct H as (L & Hb & Hall). intros d Hd. eapply build_order_dom, build_order_requires; eauto.
Qed.

(** Three options over MQTT, and a cycle. *)
Definition sample_requirements : requirements :=
  {["mqtt" := []; "ota" := ["mqtt"]; "video_storage" := ["video_streaming"; "mqtt"]; "video_streaming" := ["mqtt"]]}.

Lemma requirements_check_correct_witness :
  check_requirements sample_requirements ["video_storage"; "ota"; "mqtt"; "video_streaming"] = Ok tt ∧
  is_ok (check_requirements (<["mqtt" := ["ota"]]> sample_requirements) ["ota"; "mqtt"; "video_storage"; "video_streaming"]) = false ∧
  buildable sample_requirements.
Proof.
  split; [by vm_compute|]. split; [by vm_compute|].
  apply (requirements_check_correct sample_requirements ["video_storage"; "ota"; "mqtt"; "video_streaming"]).
  - intros c. unfold sample_requirements. rewrite !dom_insert_L, dom_singleton_L. set_solver.
  - by vm_compute.
Defined.
