(* ===== verification/PlatformServices.v ===== *)
(** * The registry of platform services: store/platform_services.go

    A service of the platform registers its instances with a manifest: the
    options it offers and what each of them requires.  A platform operator
    approves the workload (a certificate) that may do so, activates, suspends
    and retires services; an instance keeps a lease alive by heartbeats; a new
    manifest takes effect when it is published.  Every change of what the
    catalog offers counts its revision up.  This file has the tables of
    migration 078 and the operations on them; ServiceCatalog.v has the catalog
    that products select from, ServiceRegistry.v what holds in every run.

    The options of a manifest are kept as the list their JSON gives back.  The
    two errors of the Go file are texts, and a wrapped one carries its detail
    in front, where Go writes it behind. *)

From S2P Require Export Entitlements DependencyGraph.

Local Open Scope Z_scope.

Definition PlatformServiceLeaseDuration : Z := 90 * Second.
Definition PlatformServiceHeartbeatInterval : Z := 30 * Second.

Definition ErrServiceRegistrationInvalid : error := ErrText "invalid service registration".
Definition ErrServiceRegistrationDenied : error := ErrText "service registration denied".

(** [^[a-z][a-z0-9-]{0,63}$] *)
Definition serviceIDPattern (s : string) : bool :=
  match to_bytes s with
  | [] => false
  | c :: rest => lower_letter c
      && forallb (λ c, lower_letter c || byte_in 48 57 c || byte_is 45 c) rest
      && (length rest <=? 63)%nat
  end.
(** [^[A-Za-z0-9][A-Za-z0-9._-]{0,127}$] *)
Definition alphanumeric (c : ascii) : bool := lower_letter c || byte_in 65 90 c || byte_in 48 57 c.
Definition instanceIDPattern (s : string) : bool :=
  match to_bytes s with
  | [] => false
  | c :: rest => alphanumeric c
      && forallb (λ c, alphanumeric c || byte_is 46 c || byte_is 95 c || byte_is 45 c) rest
      && (length rest <=? 127)%nat
  end.

(** ** Data *)

Record PlatformServiceOption := mkServiceOption {
  PO_Code : string;
  PO_DisplayName : string;
  PO_Description : string;
  PO_Requires : list string;
  PO_LogRetentionDays : list Z;
}.

Record PlatformServiceRegistration := mkRegistration {
  Reg_RequestID : string;
  Reg_ServiceID : string;
  Reg_InstanceID : string;
  Reg_ManifestVersion : string;
  Reg_ProtocolVersion : string;
  Reg_Options : list PlatformServiceOption;
  Reg_EndpointRef : string;
  Reg_Ready : bool;
}.

Record PlatformServicePrincipal := mkPrincipal {
  Principal_Environment : string;
  Principal_CertificateSubject : string;
  Principal_IssuerFingerprint : string;
}.

Record PlatformServiceLease := mkLease {
  Lease_ServiceID : string;
  Lease_InstanceID : string;
  Lease_ManifestVersion : string;
  Lease_CatalogRevision : Z;
  Lease_ExpiresAt : Time;
  Lease_HeartbeatSeconds : Z;
}.

Record PlatformServiceWorkloadApproval := mkApproval {
  Approval_Environment : string;
  Approval_ServiceID : string;
  Approval_InstanceID : string;
  Approval_CertificateSubject : string;
  Approval_IssuerFingerprint : string;
  Approval_AllowedOptionCodes : list string;
  Approval_ApprovedBy : string;
}.

Record PlatformServiceWorkloadRevocation := mkRevocation {
  Revocation_Environment : string;
  Revocation_RevokedBy : string;
  Revocation_ServiceID : string;
  Revocation_InstanceID : string;
  Revocation_CertificateSubject : string;
  Revocation_IssuerFingerprint : string;
}.

(** platform_service_workloads, by environment, certificate subject and issuer *)
Record WorkloadRow := mkWorkload {
  Workload_service_id : string;
  Workload_instance_id : string;
  Workload_allowed_option_codes : list string;
  Workload_approved_by : string;
  Workload_approved_at : Time;
  Workload_revoked_at : option Time;
}.

(** platform_service_manifests, by environment, service and version *)
Record ManifestRow := mkManifest {
  Manifest_digest_sha256 : string;
  Manifest_protocol_version : string;
  Manifest_endpoint_ref : string;
  Manifest_options : list PlatformServiceOption;
  Manifest_created_at : Time;
}.

(** platform_services, by environment and service *)
Record ServiceRow := mkService {
  Service_published_version : string;
  Service_status : string;
  Service_updated_at : Time;
}.

(** platform_service_instances, by environment, service and instance *)
Record InstanceRow := mkInstance {
  Instance_manifest_version : string;
  Instance_certificate_subject : string;
  Instance_issuer_fingerprint_sha256 : string;
  Instance_ready : bool;
  Instance_lease_expires_at : Time;
  Instance_updated_at : Time;
}.

(** The last two tables: platform_service_catalog_revisions by environment, and the digests of
    platform_service_registration_requests by environment, certificate subject, issuer and request. *)
Record ServiceDB := mkServiceDB {
  svc_db : DB;
  platform_service_workloads : gmap (string * string * string) WorkloadRow;
  platform_service_manifests : gmap (string * string * string) ManifestRow;
  platform_services : gmap (string * string) ServiceRow;
  platform_service_instances : gmap (string * string * string) InstanceRow;
  catalog_revisions : gmap string Z;
  registration_requests : gmap (string * string * string * string) string;
}.

Abbreviation Svc A := (M ServiceDB A).

Definition with_svc_db (db : DB) (s : ServiceDB) : ServiceDB :=
  mkServiceDB db (platform_service_workloads s) (platform_service_manifests s) (platform_services s)
    (platform_service_instances s) (catalog_revisions s) (registration_requests s).
Definition with_workloads t (s : ServiceDB) : ServiceDB :=
  mkServiceDB (svc_db s) t (platform_service_manifests s) (platform_services s)
    (platform_service_instances s) (catalog_revisions s) (registration_requests s).
Definition with_manifests t (s : ServiceDB) : ServiceDB :=
  mkServiceDB (svc_db s) (platform_service_workloads s) t (platform_services s)
    (platform_service_instances s) (catalog_revisions s) (registration_requests s).
Definition with_services t (s : ServiceDB) : ServiceDB :=
  mkServiceDB (svc_db s) (platform_service_workloads s) (platform_service_manifests s) t
    (platform_service_instances s) (catalog_revisions s) (registration_requests s).
Definition with_instances t (s : ServiceDB) : ServiceDB :=
  mkServiceDB (svc_db s) (platform_service_workloads s) (platform_service_manifests s)
    (platform_services s) t (catalog_revisions s) (registration_requests s).
Definition with_revisions t (s : ServiceDB) : ServiceDB :=
  mkServiceDB (svc_db s) (platform_service_workloads s) (platform_service_manifests s)
    (platform_services s) (platform_service_instances s) t (registration_requests s).
Definition with_requests t (s : ServiceDB) : ServiceDB :=
  mkServiceDB (svc_db s) (platform_service_workloads s) (platform_service_manifests s)
    (platform_services s) (platform_service_instances s) (catalog_revisions s) t.

Definition svc_now (s : ServiceDB) : Time := now (svc_db s).
Definition svc_audit (event : string) (actor : string) (subjectType subjectID : string) (payload : jsonmap)
    : Svc unit :=
  zoom svc_db with_svc_db (create_audit_event event (Some actor) None subjectType subjectID payload).

(** ** The revision of the catalog *)

Definition lockCatalogRevision (environment : string) : Svc Z :=
  s ← gets (λ s, s);
  match catalog_revisions s !! environment with
  | Some revision => mret revision
  | None => modify (λ s, with_revisions (<[environment := 1]> (catalog_revisions s)) s) ;; mret 1
  end.

Definition bumpCatalogRevision (environment : string) : Svc Z :=
  s ← gets (λ s, s);
  revision ← row_or ErrNoRows (catalog_revisions s !! environment);
  reject_if (negb (int64_range (revision + 1))) (ErrPg "bigint out of range") ;;
  modify (λ s, with_revisions (<[environment := revision + 1]> (catalog_revisions s)) s) ;;
  mret (revision + 1).

(** ** Registration requests *)

Fixpoint requires_valid (code : string) (deps : gset string) (requires : list string) : bool :=
  match requires with
  | [] => true
  | d :: requires =>
      serviceOptionCodePattern d && negb (bool_decide (d = code)) && negb (bool_decide (d ∈ deps))
      && requires_valid code ({[d]} ∪ deps) requires
  end.

(** One turn of the loop over the options; [seen] are the codes before it. *)
Definition validate_option (service : string) (seen : gset string) (option : PlatformServiceOption) : res unit :=
  let code := PO_Code option in
  let reject (b : bool) (e : error) : res unit := if b then Err e else Ok tt in
  reject (negb (serviceOptionCodePattern code) || (str_len (PO_DisplayName option) =? 0)
          || (120 <? str_len (PO_DisplayName option)) || (1000 <? str_len (PO_Description option))
          || bool_decide (code ∈ seen)) ErrServiceRegistrationInvalid ;;
  reject (negb (requires_valid code ∅ (PO_Requires option))) ErrServiceRegistrationInvalid ;;
  reject (bool_decide (code = "mqtt") && negb (bool_decide (service = "mqtt"))) ErrServiceRegistrationDenied ;;
  reject (bool_decide (code ∈ ["iot_shadow"; "video_streaming"; "video_storage"; "device_logging"; "ota"])
          && negb (bool_decide ("mqtt" ∈ PO_Requires option))) ErrServiceRegistrationInvalid ;;
  reject (bool_decide (code = "device_logging") && negb (bool_decide (service = "logger")))
    ErrServiceRegistrationDenied ;;
  reject (bool_decide (code = "ota") && negb (bool_decide (service = "ota"))) ErrServiceRegistrationDenied ;;
  reject (bool_decide (service = "ota") && negb (bool_decide (code = "ota"))) ErrServiceRegistrationInvalid ;;
  reject (bool_decide (service = "ota") && negb (bool_decide (PO_Requires option = ["mqtt"])))
    ErrServiceRegistrationInvalid ;;
  reject (if bool_decide (service = "logger") && bool_decide (code = "device_logging")
          then negb (bool_decide (PO_LogRetentionDays option = [7; 30; 90]))
          else negb (bool_decide (PO_LogRetentionDays option = []))) ErrServiceRegistrationInvalid ;;
  reject (bool_decide (code = "mqtt") && negb (bool_decide (PO_Requires option = [])))
    ErrServiceRegistrationInvalid ;;
  reject (bool_decide (service = "mqtt") && negb (bool_decide (code = "mqtt"))) ErrServiceRegistrationInvalid.

Fixpoint validate_options (service : string) (seen : gset string) (options : list PlatformServiceOption)
    : res unit :=
  match options with
  | [] => Ok tt
  | option :: options =>
      validate_option service seen option ;;
      validate_options service ({[PO_Code option]} ∪ seen) options
  end.

Definition ValidatePlatformServiceRegistration (r : PlatformServiceRegistration) : res unit :=
  if negb (serviceIDPattern (Reg_ServiceID r)) || negb (instanceIDPattern (Reg_InstanceID r))
     || (str_len (Reg_RequestID r) =? 0) || (128 <? str_len (Reg_RequestID r))
     || (str_len (Reg_ManifestVersion r) =? 0) || (64 <? str_len (Reg_ManifestVersion r))
     || negb (bool_decide (Reg_ProtocolVersion r = "1")) || (str_len (Reg_EndpointRef r) =? 0)
     || (128 <? str_len (Reg_EndpointRef r)) || bool_decide (Reg_Options r = [])
     || (64 <? length (Reg_Options r))%nat
  then Err ErrServiceRegistrationInvalid
  else
    validate_options (Reg_ServiceID r) ∅ (Reg_Options r) ;;
    if bool_decide (Reg_ServiceID r = "mqtt") && negb (bool_decide ("mqtt" ∈ PO_Code <$> Reg_Options r))
    then Err ErrServiceRegistrationInvalid else Ok tt.

(** ** Manifests *)

Definition before_string (a b : string) : bool :=
  match String.compare a b with Gt => false | _ => true end.

(** The options as a manifest keeps them: sorted by code, what they require sorted. *)
Definition normalized_options (options : list PlatformServiceOption) : list PlatformServiceOption :=
  (λ o, mkServiceOption (PO_Code o) (PO_DisplayName o) (PO_Description o) (slices_Sort (PO_Requires o))
          (PO_LogRetentionDays o)) <$>
    order_by (λ a b, before_string (PO_Code a) (PO_Code b)) options.

Definition service_option_json (o : PlatformServiceOption) : any :=
  AMap ([("code", AString (PO_Code o)); ("display_name", AString (PO_DisplayName o));
         ("description", AString (PO_Description o))] ++
        (if bool_decide (PO_Requires o = []) then [] else [("requires", strings_value (PO_Requires o))]) ++
        (if bool_decide (PO_LogRetentionDays o = []) then []
         else [("log_retention_days", ASlice (AInt <$> PO_LogRetentionDays o))])).

(** The digest and the options that are stored. *)
Definition manifestDigest (r : PlatformServiceRegistration) : string * list PlatformServiceOption :=
  let options := normalized_options (Reg_Options r) in
  (sha256_hex (json_text (AMap
     [("service_id", AString (Reg_ServiceID r)); ("version", AString (Reg_ManifestVersion r));
      ("protocol", AString (Reg_ProtocolVersion r));
      ("options", ASlice (service_option_json <$> options));
      ("endpoint_ref", AString (Reg_EndpointRef r))])), options).

Definition request_digest (digest : string) (r : PlatformServiceRegistration) : string :=
  sha256_hex (digest +:+ "|" +:+ Reg_InstanceID r +:+ "|" +:+ (if Reg_Ready r then "true" else "false")).

(** The services of the environment, each with its published manifest. *)
Definition service_rows (environment : string) (s : ServiceDB)
    : list (string * ServiceRow * list PlatformServiceOption) :=
  omap (λ '((e, service), row),
    if bool_decide (e = environment) then
      m ← platform_service_manifests s !! (environment, service, Service_published_version row);
      Some (service, row, Manifest_options m)
    else None) (map_to_list (platform_services s)).
Definition published (environment : string) (s : ServiceDB) : list (string * list PlatformServiceOption) :=
  (λ '(service, _, options), (service, options)) <$> service_rows environment s.

(** ** validateManifestDependencies *)

Definition others (service : string) (rows : list (string * list PlatformServiceOption))
    : list (string * list PlatformServiceOption) := filter (λ row, row.1 ≠ service) rows.

(** [available]: which other service has an option. *)
Definition available (service : string) (rows : list (string * list PlatformServiceOption)) : gmap string string :=
  foldl (λ m row, foldl (λ m o, <[PO_Code o := row.1]> m) m row.2) ∅ (others service rows).

Definition add_options (options : list PlatformServiceOption) (m : requirements) : requirements :=
  foldl (λ m o, <[PO_Code o := PO_Requires o]> m) m options.
(** [allOptions]: what each option requires. *)
Definition all_options (service : string) (options : list PlatformServiceOption)
    (rows : list (string * list PlatformServiceOption)) : requirements :=
  add_options options (foldl (λ m row, add_options row.2 m) ∅ (others service rows)).

Definition taken (service : string) (owners : gmap string string) (option : PlatformServiceOption) : bool :=
  match owners !! PO_Code option with
  | Some owner => negb (bool_decide (owner = "")) && negb (bool_decide (owner = service))
  | None => false
  end.

Definition invalid (detail : string) : error := ErrWrap detail ErrServiceRegistrationInvalid.

(** The second loop over the options. *)
Fixpoint options_required (g : requirements) (options : list PlatformServiceOption) : res unit :=
  match options with
  | [] => Ok tt
  | option :: options =>
      match filter (λ d, d ∉ dom g) (PO_Requires option) with
      | d :: _ => Err (invalid ("missing dependency " +:+ d))
      | [] =>
          if negb (bool_decide (PO_Code option = "mqtt")) && negb (bool_decide ("mqtt" ∈ PO_Requires option))
          then Err (invalid (PO_Code option +:+ " requires mqtt"))
          else options_required g options
      end
  end.

(** The order of the rows and of the last loop is left open by the source: the codes of the published
    manifests are distinct ([published_ok] of ServiceRegistry.v), and the outcome of the search does
    not depend on it ([check_requirements_iff]). *)
Definition validateManifestDependencies (environment service : string)
    (options : list PlatformServiceOption) : Svc unit :=
  s ← gets (λ s, s);
  let rows := published environment s in
  let g := all_options service options rows in
  reject_if (existsb (taken service (available service rows)) options) ErrConflict ;;
  lift_res (options_required g options) ;;
  lift_res match check_requirements g (elements (dom g)) with
           | Ok _ => Ok tt
           | Err e => Err (invalid (error_text e))
           end.

(** ** Workloads *)

Definition ApprovePlatformServiceWorkload (a : PlatformServiceWorkloadApproval) : Svc unit :=
  let key := (Approval_Environment a, Approval_CertificateSubject a, Approval_IssuerFingerprint a) in
  let codes := Approval_AllowedOptionCodes a in
  reject_if (bool_decide (Approval_Environment a = "") || negb (serviceIDPattern (Approval_ServiceID a))
    || negb (instanceIDPattern (Approval_InstanceID a)) || bool_decide (Approval_CertificateSubject a = "")
    || bool_decide (Approval_ApprovedBy a = "") || negb (str_len (Approval_IssuerFingerprint a) =? 64)
    || bool_decide (codes = []) || (64 <? length codes)%nat || negb (is_ok (validateProductServiceOptions codes)))
    ErrServiceRegistrationInvalid ;;
  reject_if (xorb (bool_decide (Approval_ServiceID a = "mqtt")) (bool_decide ("mqtt" ∈ codes))
    || negb (bool_decide (Approval_ServiceID a = "mqtt")) && bool_decide ("mqtt" ∈ codes))
    ErrServiceRegistrationInvalid ;;
  reject_if (negb (handoffEvidenceDigest (Approval_IssuerFingerprint a))) ErrServiceRegistrationInvalid ;;
  transaction (
    s ← gets (λ s, s);
    reject_if match platform_service_workloads s !! key with
      | Some w => negb (bool_decide (Workload_service_id w = Approval_ServiceID a)
                        && bool_decide (Workload_instance_id w = Approval_InstanceID a))
      | None => false
      end ErrConflict ;;
    reject_if (bool_decide (users (registry (svc_db s)) !! Approval_ApprovedBy a = None))
      (ErrPg "platform_service_workloads_approved_by_fkey") ;;
    modify (λ s, with_workloads (<[key := mkWorkload (Approval_ServiceID a) (Approval_InstanceID a) codes
      (Approval_ApprovedBy a) (svc_now s) None]> (platform_service_workloads s)) s) ;;
    svc_audit "platform_service_workload_approved" (Approval_ApprovedBy a) "platform_service_workload"
      (Approval_ServiceID a +:+ "/" +:+ Approval_InstanceID a)
      (map_literal [("environment", AString (Approval_Environment a));
        ("certificate_subject", AString (Approval_CertificateSubject a));
        ("issuer_fingerprint_sha256", AString (Approval_IssuerFingerprint a));
        ("allowed_option_codes", strings_value codes)])).

Definition revoked (t : Time) (w : WorkloadRow) : WorkloadRow :=
  mkWorkload (Workload_service_id w) (Workload_instance_id w) (Workload_allowed_option_codes w)
    (Workload_approved_by w) (Workload_approved_at w) (Some t).
Definition stopped (t updated : Time) (i : InstanceRow) : InstanceRow :=
  mkInstance (Instance_manifest_version i) (Instance_certificate_subject i)
    (Instance_issuer_fingerprint_sha256 i) false (pg_timestamptz t) updated.

Definition RevokePlatformServiceWorkload (a : PlatformServiceWorkloadRevocation) (now_ : Time) : Svc unit :=
  let environment := Revocation_Environment a in
  let key := (environment, Revocation_CertificateSubject a, Revocation_IssuerFingerprint a) in
  reject_if (bool_decide (environment = "") || bool_decide (Revocation_RevokedBy a = "")
    || negb (serviceIDPattern (Revocation_ServiceID a)) || negb (instanceIDPattern (Revocation_InstanceID a))
    || bool_decide (Revocation_CertificateSubject a = "")
    || negb (str_len (Revocation_IssuerFingerprint a) =? 64)) ErrServiceRegistrationInvalid ;;
  transaction (
    _ ← lockCatalogRevision environment;
    s ← gets (λ s, s);
    w ← row_or ErrNotFound
      (w ← platform_service_workloads s !! key;
       if bool_decide (Workload_service_id w = Revocation_ServiceID a)
          && bool_decide (Workload_instance_id w = Revocation_InstanceID a)
          && bool_decide (Workload_revoked_at w = None) then Some w else None);
    modify (λ s, with_workloads (<[key := revoked (pg_timestamptz now_) w]> (platform_service_workloads s)) s) ;;
    modify (λ s, with_instances
      (alter (λ i,
         if bool_decide (Instance_certificate_subject i = Revocation_CertificateSubject a)
            && bool_decide (Instance_issuer_fingerprint_sha256 i = Revocation_IssuerFingerprint a)
         then stopped now_ (svc_now s) i else i)
         (environment, Revocation_ServiceID a, Revocation_InstanceID a) (platform_service_instances s)) s) ;;
    _ ← bumpCatalogRevision environment;
    svc_audit "platform_service_workload_revoked" (Revocation_RevokedBy a) "platform_service_workload"
      (Revocation_ServiceID a +:+ "/" +:+ Revocation_InstanceID a)
      (map_literal [("environment", AString environment);
        ("certificate_subject", AString (Revocation_CertificateSubject a));
        ("issuer_fingerprint_sha256", AString (Revocation_IssuerFingerprint a))])).

(** The approval of the principal for this service and instance. *)
Definition workload_of (service instance_ : string) (p : PlatformServicePrincipal) (s : ServiceDB)
    : option WorkloadRow :=
  w ← platform_service_workloads s !!
    (Principal_Environment p, Principal_CertificateSubject p, Principal_IssuerFingerprint p);
  if bool_decide (Workload_service_id w = service) && bool_decide (Workload_instance_id w = instance_)
     && bool_decide (Workload_revoked_at w = None) then Some w else None.

Definition requireWorkload (service instance_ : string) (p : PlatformServicePrincipal)
    (options : list PlatformServiceOption) : Svc unit :=
  s ← gets (λ s, s);
  w ← row_or ErrServiceRegistrationDenied (workload_of service instance_ p s);
  reject_if (negb (forallb (λ o, bool_decide (PO_Code o ∈ Workload_allowed_option_codes w)) options))
    ErrServiceRegistrationDenied.

(** ** Services *)

Definition SetPlatformServiceStatus (environment service status actor : string) : Svc Z :=
  reject_if (bool_decide (environment = "") || bool_decide (actor = "") || negb (serviceIDPattern service)
    || negb (bool_decide (status ∈ ["active"; "suspended"; "retired"]))) ErrServiceRegistrationInvalid ;;
  transaction (
    revision ← lockCatalogRevision environment;
    s ← gets (λ s, s);
    row ← row_or ErrNotFound (platform_services s !! (environment, service));
    let previous := Service_status row in
    reject_if (bool_decide (previous = "retired") && negb (bool_decide (status = "retired"))) ErrConflict ;;
    if bool_decide (previous = status) then mret revision
    else
      modify (λ s, with_services (<[(environment, service) :=
        mkService (Service_published_version row) status (svc_now s)]> (platform_services s)) s) ;;
      revision ← bumpCatalogRevision environment;
      svc_audit "platform_service_status_changed" actor "platform_service" service
        (map_literal [("environment", AString environment); ("previous_status", AString previous);
                      ("status", AString status); ("catalog_revision", AInt revision)]) ;;
      mret revision).

(** ** Instances *)

(** INSERT INTO platform_service_instances ... ON CONFLICT DO UPDATE; the two foreign keys *)
Definition upsert_instance (key : string * string * string) (row : InstanceRow) : Svc unit :=
  let '(environment, service, instance_) := key in
  s ← gets (λ s, s);
  reject_if (bool_decide (platform_service_manifests s !! (environment, service, Instance_manifest_version row) = None))
    (ErrPg "platform_service_instances_manifest_fkey") ;;
  reject_if match platform_service_workloads s !!
                (environment, Instance_certificate_subject row, Instance_issuer_fingerprint_sha256 row) with
      | Some w => negb (bool_decide (Workload_service_id w = service)
                        && bool_decide (Workload_instance_id w = instance_))
      | None => true
      end (ErrPg "platform_service_instances_workload_fkey") ;;
  modify (λ s, with_instances (<[key := row]> (platform_service_instances s)) s).

(** The first request under an id fixes its digest. *)
Definition record_request (key : string * string * string * string) (digest : string) : Svc unit :=
  s ← gets (λ s, s);
  match registration_requests s !! key with
  | Some previous => reject_if (negb (bool_decide (previous = digest))) ErrConflict
  | None => modify (λ s, with_requests (<[key := digest]> (registration_requests s)) s)
  end.

(** The manifest the registration names, checked and stored when it is new. *)
Definition ensure_manifest (environment digest : string) (options : list PlatformServiceOption)
    (r : PlatformServiceRegistration) : Svc unit :=
  let key := (environment, Reg_ServiceID r, Reg_ManifestVersion r) in
  s ← gets (λ s, s);
  let existing := default "" (Manifest_digest_sha256 <$> platform_service_manifests s !! key) in
  reject_if (negb (bool_decide (existing = "")) && negb (bool_decide (existing = digest))) ErrConflict ;;
  if bool_decide (existing = "") then
    validateManifestDependencies environment (Reg_ServiceID r) (Reg_Options r) ;;
    reject_if (bool_decide (is_Some (platform_service_manifests s !! key)))
      (ErrPg "platform_service_manifests_pkey") ;;
    modify (λ s, with_manifests (<[key := mkManifest digest (Reg_ProtocolVersion r) (Reg_EndpointRef r) options
      (svc_now s)]> (platform_service_manifests s)) s)
  else mret tt.

(** INSERT INTO platform_services ... ON CONFLICT DO NOTHING; whether a row was inserted. *)
Definition ensure_service (environment : string) (r : PlatformServiceRegistration) : Svc bool :=
  let key := (environment, Reg_ServiceID r) in
  s ← gets (λ s, s);
  match platform_services s !! key with
  | Some _ => mret false
  | None =>
      modify (λ s, with_services (<[key := mkService (Reg_ManifestVersion r)
        (if bool_decide (Reg_ServiceID r = "mqtt") then "active" else "suspended") (svc_now s)]>
        (platform_services s)) s) ;;
      mret true
  end.

(** What the catalog shows of an instance changes. *)
Definition instance_changed (prev : option InstanceRow) (r : PlatformServiceRegistration) (now_ : Time) : bool :=
  match prev with
  | None => true
  | Some i => negb (bool_decide (Instance_manifest_version i = Reg_ManifestVersion r))
      || negb (Bool.eqb (Instance_ready i) (Reg_Ready r))
      || (Instance_ready i && negb (After (Instance_lease_expires_at i) now_))
  end.

Definition lease_of (service instance_ version : string) (revision : Z) (now_ : Time) : PlatformServiceLease :=
  mkLease service instance_ version revision (GoTime.Add now_ PlatformServiceLeaseDuration)
    (PlatformServiceHeartbeatInterval / Second).

Definition RegisterPlatformServiceInstance (r : PlatformServiceRegistration) (p : PlatformServicePrincipal)
    (now_ : Time) : Svc PlatformServiceLease :=
  let environment := Principal_Environment p in
  let service := Reg_ServiceID r in
  lift_res (ValidatePlatformServiceRegistration r) ;;
  let '(digest, options) := manifestDigest r in
  transaction (
    revision ← lockCatalogRevision environment;
    requireWorkload service (Reg_InstanceID r) p (Reg_Options r) ;;
    record_request (environment, Principal_CertificateSubject p, Principal_IssuerFingerprint p, Reg_RequestID r)
      (request_digest digest r) ;;
    ensure_manifest environment digest options r ;;
    created ← ensure_service environment r;
    s ← gets (λ s, s);
    let key := (environment, service, Reg_InstanceID r) in
    let prev := platform_service_instances s !! key in
    upsert_instance key (mkInstance (Reg_ManifestVersion r) (Principal_CertificateSubject p)
      (Principal_IssuerFingerprint p) (Reg_Ready r) (pg_timestamptz (GoTime.Add now_ PlatformServiceLeaseDuration))
      (svc_now s)) ;;
    revision ← (if (created : bool) || instance_changed prev r now_
                then bumpCatalogRevision environment else mret revision);
    mret (lease_of service (Reg_InstanceID r) (Reg_ManifestVersion r) revision now_)).

(** A ready instance of this version whose lease runs: the comparison is with the microseconds of
    the argument. *)
Definition live (now_ : Time) (i : InstanceRow) : bool :=
  Instance_ready i && After (Instance_lease_expires_at i) (pg_timestamptz now_).
Definition instances_of (environment service version : string) (s : ServiceDB) : list InstanceRow :=
  omap (λ '((e, svc, _), i),
    if bool_decide (e = environment) && bool_decide (svc = service)
       && bool_decide (Instance_manifest_version i = version) then Some i else None)
    (map_to_list (platform_service_instances s)).

Definition publisher (service : string) (p : PlatformServicePrincipal) (s : ServiceDB) : bool :=
  match platform_service_workloads s !!
      (Principal_Environment p, Principal_CertificateSubject p, Principal_IssuerFingerprint p) with
  | Some w => bool_decide (Workload_service_id w = service) && bool_decide (Workload_revoked_at w = None)
  | None => false
  end.

Definition PublishPlatformServiceManifest (service expectedVersion newVersion : string)
    (p : PlatformServicePrincipal) (now_ : Time) : Svc Z :=
  let environment := Principal_Environment p in
  reject_if (negb (serviceIDPattern service) || bool_decide (expectedVersion = "")
    || bool_decide (newVersion = "") || bool_decide (expectedVersion = newVersion))
    ErrServiceRegistrationInvalid ;;
  transaction (
    _ ← lockCatalogRevision environment;
    s ← gets (λ s, s);
    reject_if (negb (publisher service p s)) ErrServiceRegistrationDenied ;;
    row ← row_or ErrNotFound (platform_services s !! (environment, service));
    reject_if (negb (bool_decide (Service_published_version row = expectedVersion))
      || negb (bool_decide (Service_status row = "active"))) ErrConflict ;;
    m ← row_or ErrNotFound (platform_service_manifests s !! (environment, service, newVersion));
    validateManifestDependencies environment service (Manifest_options m) ;;
    reject_if (negb (existsb (live now_) (instances_of environment service newVersion s))) ErrConflict ;;
    modify (λ s, with_services (<[(environment, service) :=
      mkService newVersion (Service_status row) (svc_now s)]> (platform_services s)) s) ;;
    bumpCatalogRevision environment).

(** The row of an instance with this version. *)
Definition instance_at (environment service instance_ version : string) (s : ServiceDB) : option InstanceRow :=
  i ← platform_service_instances s !! (environment, service, instance_);
  if bool_decide (Instance_manifest_version i = version) then Some i else None.

Definition HeartbeatPlatformServiceInstance (service instance_ version : string) (ready : bool)
    (p : PlatformServicePrincipal) (now_ : Time) : Svc PlatformServiceLease :=
  let environment := Principal_Environment p in
  transaction (
    revision ← lockCatalogRevision environment;
    requireWorkload service instance_ p [] ;;
    s ← gets (λ s, s);
    i ← row_or ErrNotFound (instance_at environment service instance_ version s);
    modify (λ s, with_instances (<[(environment, service, instance_) :=
      mkInstance version (Instance_certificate_subject i) (Instance_issuer_fingerprint_sha256 i) ready
        (pg_timestamptz (GoTime.Add now_ PlatformServiceLeaseDuration)) (svc_now s)]> (platform_service_instances s)) s) ;;
    revision ← (if negb (Bool.eqb (Instance_ready i) ready)
                   || (Instance_ready i && negb (After (Instance_lease_expires_at i) now_))
                then bumpCatalogRevision environment else mret revision);
    mret (lease_of service instance_ version revision now_)).

Definition DeregisterPlatformServiceInstance (service instance_ : string) (p : PlatformServicePrincipal)
    (now_ : Time) : Svc unit :=
  let environment := Principal_Environment p in
  transaction (
    _ ← lockCatalogRevision environment;
    requireWorkload service instance_ p [] ;;
    s ← gets (λ s, s);
    i ← row_or ErrNotFound (platform_service_instances s !! (environment, service, instance_));
    modify (λ s, with_instances (<[(environment, service, instance_) := stopped now_ (svc_now s) i]>
      (platform_service_instances s)) s) ;;
    _ ← bumpCatalogRevision environment;
    mret tt).
