(* ===== verification/ServiceCatalog.v ===== *)
(** * The catalog of platform services: store/platform_services.go

    The catalog lists the options of the published manifests.  An option can be
    selected for a product when its service is active and has a ready instance
    with a running lease, and so has everything the option requires, directly
    or indirectly; the code finds this out by a depth-first search with marks.
    A product's selection is checked against the catalog and recorded, with the
    digest over options and bindings, as an immutable grant. *)

From S2P Require Export PlatformServices.

Local Open Scope Z_scope.

Record PlatformServiceCatalog := mkCatalog {
  Catalog_Revision : Z;
  Catalog_Options : list PlatformServiceCatalogOption;
}.

(** ** The entries before the search *)

Definition unavailable_reason (status : string) (ready hasReadyInstance : bool) : string :=
  if negb (bool_decide (status = "active")) then "service_" +:+ status
  else if negb ready && hasReadyInstance then "lease_expired"
  else if negb ready then "service_unavailable"
  else "".

Definition catalog_entry (service version : string) (selectable_ : bool) (reason : string)
    (o : PlatformServiceOption) : PlatformServiceCatalogOption :=
  mkCatalogOption (PO_Code o) (PO_DisplayName o) (PO_Description o) (PO_Requires o) (PO_LogRetentionDays o)
    service version selectable_ reason.

Definition service_entries (environment : string) (now_ : Time) (s : ServiceDB)
    (row : string * ServiceRow * list PlatformServiceOption) : list PlatformServiceCatalogOption :=
  let '(service, r, options) := row in
  let instances := instances_of environment service (Service_published_version r) s in
  let ready := existsb (live now_) instances in
  catalog_entry service (Service_published_version r) (bool_decide (Service_status r = "active") && ready)
    (unavailable_reason (Service_status r) ready (existsb Instance_ready instances)) <$> options.

(** ORDER BY s.service_id *)
Definition catalog_entries (environment : string) (now_ : Time) (s : ServiceDB)
    : list PlatformServiceCatalogOption :=
  order_by (λ a b, before_string a.1.1 b.1.1) (service_rows environment s) ≫= service_entries environment now_ s.

(** ** The search *)

(** [byCode]: of two options with one code the last counts. *)
Definition by_code (options : list PlatformServiceCatalogOption) : gmap string nat :=
  list_to_map (reverse (imap (λ i o, (Option_Code o, i)) options)).

(** [visited] and [result.Options] *)
Abbreviation search := (gmap nat mark * list PlatformServiceCatalogOption)%type.

Definition dependency_unavailable (o : PlatformServiceCatalogOption) : PlatformServiceCatalogOption :=
  mkCatalogOption (Option_Code o) (Option_DisplayName o) (Option_Description o) (Option_Requires o)
    (Option_LogRetentionDays o) (Option_ServiceID o) (Option_ManifestVersion o) false "dependency_unavailable".

Definition selectable_at (i : nat) (options : list PlatformServiceCatalogOption) : bool :=
  default false (Option_Selectable <$> options !! i).

(** The loop over what option [i] requires; [find] is the recursive call. *)
Fixpoint require_all (find : nat → search → bool * search) (byCode : gmap string nat) (i : nat)
    (deps : list string) (st : search) : search :=
  match deps with
  | [] => st
  | d :: deps =>
      match byCode !! d with
      | None => (st.1, alter dependency_unavailable i st.2)
      | Some j =>
          let '(found, st) := find j st in
          if (found : bool) then require_all find byCode i deps st
          else (st.1, alter dependency_unavailable i st.2)
      end
  end.

Fixpoint selectable (fuel : nat) (byCode : gmap string nat) (i : nat) (st : search) : bool * search :=
  match fuel with
  | O => (false, st)
  | S fuel =>
      match st.1 !! i with
      | Some Visiting => (false, st)
      | Some Visited => (selectable_at i st.2, st)
      | None =>
          let deps := default [] (Option_Requires <$> st.2 !! i) in
          let st := require_all (selectable fuel byCode) byCode i deps (<[i := Visiting]> st.1, st.2) in
          (selectable_at i st.2, (<[i := Visited]> st.1, st.2))
      end
  end.

Definition resolve (options : list PlatformServiceCatalogOption) : list PlatformServiceCatalogOption :=
  (foldl (λ st i, (selectable (S (length options)) (by_code options) i st).2) (∅, options)
     (seq 0 (length options))).2.

Definition readPlatformServiceOptions (environment : string) (now_ : Time) : Svc PlatformServiceCatalog :=
  s ← gets (λ s, s);
  mret (mkCatalog (default 1 (catalog_revisions s !! environment)) (resolve (catalog_entries environment now_ s))).

Definition ListPlatformServiceOptions := readPlatformServiceOptions.

(** ** Selections *)

(** The entry of the catalog for each option, or the reason there is none. *)
Fixpoint bind_options (catalog : list PlatformServiceCatalogOption) (options : list string)
    : res (list PlatformServiceCatalogOption) :=
  match options with
  | [] => Ok []
  | code :: options =>
      match head (filter (λ o, Option_Code o = code) catalog) with
      | None => Err ErrClaimUnsupportedService
      | Some o =>
          if negb (Option_Selectable o) then Err ErrConflict
          else bindings ← bind_options catalog options; Ok (o :: bindings)
      end
  end.

Definition requires_selected (options : list string) (bindings : list PlatformServiceCatalogOption) : bool :=
  forallb (λ b, forallb (λ d, bool_decide (d ∈ options)) (Option_Requires b)) bindings.

Definition sort_bindings (bindings : list PlatformServiceCatalogOption) : list PlatformServiceCatalogOption :=
  order_by (λ a b, before_string (Option_Code a) (Option_Code b)) bindings.

Definition validateProductServiceSelection (options : list string) (catalog : PlatformServiceCatalog)
    : res (list PlatformServiceCatalogOption) :=
  if negb (is_ok (validateProductServiceOptions options)) || negb (bool_decide ("mqtt" ∈ options))
  then Err ErrClaimUnsupportedService
  else
    bindings ← bind_options (Catalog_Options catalog) options;
    if negb (requires_selected options bindings) then Err ErrClaimUnsupportedService
    else Ok (sort_bindings bindings).

(** [None] is the nil slice of a store that does not write services. *)
Definition validateProductServiceSelectionTx (platformServiceProductWrites : bool) (environment : string)
    (options : list string) (observedRevision : Z) (now_ : Time)
    : Svc (option (list PlatformServiceCatalogOption)) :=
  if negb platformServiceProductWrites then mret None
  else
    reject_if (negb (bool_decide ("mqtt" ∈ options)) || (observedRevision <? 1)) ErrClaimUnsupportedService ;;
    _ ← lockCatalogRevision environment;
    catalog ← readPlatformServiceOptions environment now_;
    reject_if (negb (Catalog_Revision catalog =? observedRevision)) ErrConflict ;;
    bindings ← lift_res (validateProductServiceSelection options catalog);
    mret (Some bindings).

(** ** Grants *)

Definition next_grant_revision (product : string) (grants : list ProductServiceGrant) : Z :=
  foldr Z.max 0 (grant_revision <$> filter (λ g, grant_product_id g = product) grants) + 1.

(** The columns catalog_revision and created_by, which no modelled query reads, are checked and not
    kept. *)
Definition insertProductServiceGrantTx (product brandCloud : string) (options : list string)
    (bindings : option (list PlatformServiceCatalogOption)) (catalogRevision : Z) (actor : option string)
    (retention : option Z) : Store unit :=
  digest ← lift_res (encodeProductServiceGrantWithRetention options bindings retention);
  db ← gets (λ db, db);
  let r := registry db in
  let revision := next_grant_revision product (product_service_grants r) in
  reject_if (negb (int64_range revision)) (ErrPg "bigint out of range") ;;
  reject_if (catalogRevision <=? 0) (ErrPg "product_service_grants_catalog_revision_source_check") ;;
  reject_if (bool_decide (device_item_profiles r !! product = None)) (ErrPg "product_service_grants_product_id_fkey") ;;
  reject_if (bool_decide (organizations r !! brandCloud = None))
    (ErrPg "product_service_grants_brand_cloud_id_fkey") ;;
  reject_if match actor with Some a => bool_decide (users r !! a = None) | None => false end
    (ErrPg "product_service_grants_created_by_fkey") ;;
  let grant := mkGrant product revision brandCloud (strings_value (slices_Sort options)) (bindings_json bindings)
    digest retention in
  modify (with_registry (mkRegistry (users r) (organizations r) (organization_members r) (roles r)
    (role_assignments r) (device_item_profiles r) (brand_cloud_product_admissions r)
    (cloud_ownership_handoffs r) (cloud_deletion_operations r) (product_service_grants r ++ [grant])
    (device_claim_tokens r) (device_claims r) (factory_reservations r))).

(** ** Sorted codes *)

Lemma before_string_total a b : before_string a b = false → before_string b a = true.
Proof.
  unfold before_string. rewrite (String.compare_antisym b a). destruct (String.compare a b); done.
Qed.

Section sort.
Context {A : Type} (before : A → A → bool).
Hypothesis Htotal : ∀ a b, before a b = false → before b a = true.

Lemma insert_row_sorted x rows :
  Sorted (λ a b, before a b = true) rows → Sorted (λ a b, before a b = true) (insert_row before x rows).
Proof.
  induction 1 as [|y rows Hs IH Hy]; simpl; [repeat constructor|]. destruct (before x y) eqn:E.
  - repeat constructor; done.
  - constructor; [done|]. destruct rows as [|z rows]; simpl; [constructor; auto|].
    destruct (before x z); constructor; [auto|]. by inversion Hy.
Qed.
Lemma order_by_sorted rows : Sorted (λ a b, before a b = true) (order_by before rows).
Proof. induction rows as [|x rows IH]; simpl; [constructor|by apply insert_row_sorted]. Qed.
Lemma order_by_id rows : Sorted (λ a b, before a b = true) rows → order_by before rows = rows.
Proof.
  induction 1 as [|x rows Hs IH Hx]; simpl; [done|]. fold (order_by before rows). rewrite IH.
  destruct rows as [|y rows]; simpl; [done|]. inversion Hx as [|? ? E]. by rewrite E.
Qed.
End sort.

Lemma order_by_fmap {A B} (f : A → B) (before : B → B → bool) rows :
  f <$> order_by (λ a b, before (f a) (f b)) rows = order_by before (f <$> rows).
Proof.
  induction rows as [|x rows IH]; [done|]. rewrite fmap_cons. unfold order_by in *.
  rewrite !foldr_cons, <-IH. clear IH.
  generalize (foldr (insert_row (λ a b, before (f a) (f b))) [] rows).
  intros l. induction l as [|y l IH]; simpl; [done|]. destruct (before (f x) (f y)); [done|].
  simpl. f_equal. exact IH.
Qed.

(** The bindings of a selection come in the order of their codes. *)
Lemma sort_bindings_codes bindings :
  Option_Code <$> sort_bindings bindings = slices_Sort (Option_Code <$> bindings).
Proof. apply (order_by_fmap Option_Code before_string). Qed.
Lemma slices_Sort_sorted l : Sorted (λ a b, before_string a b = true) (slices_Sort l).
Proof. apply (order_by_sorted before_string). intros a b. apply before_string_total. Qed.

(** ** What the search finds *)

Definition catalog_requirements (options : list PlatformServiceCatalogOption) : requirements :=
  list_to_map ((λ o, (Option_Code o, Option_Requires o)) <$> options).

(** [c] requires [d], directly; an option of the code is there and selectable. *)
Definition depends (options : list PlatformServiceCatalogOption) (c d : string) : Prop :=
  ∃ o, o ∈ options ∧ Option_Code o = c ∧ d ∈ Option_Requires o.
Definition offered (options : list PlatformServiceCatalogOption) (c : string) : Prop :=
  ∃ o, o ∈ options ∧ Option_Code o = c ∧ Option_Selectable o = true.

(** Everything the option requires, directly or indirectly, and itself is offered. *)
Definition available_code (options : list PlatformServiceCatalogOption) (c : string) : Prop :=
  ∀ d, rtc (depends options) c d → offered options d.

(** The entry after the search. *)
Definition settled (options : list PlatformServiceCatalogOption) (o o' : PlatformServiceCatalogOption) : Prop :=
  ((∀ d, d ∈ Option_Requires o → available_code options d) ∧ o' = o) ∨
  (¬ (∀ d, d ∈ Option_Requires o → available_code options d) ∧ o' = dependency_unavailable o).

Lemma available_unfold options c :
  available_code options c ↔ offered options c ∧ ∀ d, depends options c d → available_code options d.
Proof.
  unfold available_code. split.
  - intros H. split; [apply H; done|]. intros d Hd e He. apply H. by eapply rtc_l.
  - intros [Hc Hd] e He. apply rtc_inv in He as [<-|(d & ? & ?)]; eauto.
Qed.

Section search.
Context (options : list PlatformServiceCatalogOption) (L : list string).
Hypothesis Hnodup : NoDup (Option_Code <$> options).
Hypothesis Hbuild : build_order (catalog_requirements options) L.
Hypothesis Hall : ∀ o, o ∈ options → Option_Code o ∈ L.

Lemma same_code i j oi oj :
  options !! i = Some oi → options !! j = Some oj → Option_Code oi = Option_Code oj → i = j.
Proof.
  intros Hi Hj E. eapply NoDup_lookup; [exact Hnodup| |];
    rewrite list_lookup_fmap; [by rewrite Hi|by rewrite Hj, E].
Qed.

Lemma option_of_code o o' : o ∈ options → o' ∈ options → Option_Code o = Option_Code o' → o = o'.
Proof.
  intros [i Hi]%list_elem_of_lookup [j Hj]%list_elem_of_lookup E.
  rewrite (same_code i j o o' Hi Hj E) in Hi. congruence.
Qed.

Lemma catalog_requires o : o ∈ options → requires (catalog_requirements options) (Option_Code o) = Option_Requires o.
Proof.
  intros Ho. unfold requires, catalog_requirements. erewrite elem_of_list_to_map_1; [done| |].
  - rewrite <- list_fmap_compose. exact Hnodup.
  - apply list_elem_of_fmap. eauto.
Qed.

Lemma by_code_lookup c j : by_code options !! c = Some j ↔ ∃ o, options !! j = Some o ∧ Option_Code o = c.
Proof.
  unfold by_code.
  assert (Hk : (reverse (imap (λ i o, (Option_Code o, i)) options)).*1 = reverse (Option_Code <$> options)).
  { rewrite fmap_reverse. f_equal. rewrite fmap_imap. by apply imap_const. }
  rewrite <- elem_of_list_to_map by by rewrite Hk, reverse_Permutation.
  rewrite elem_of_reverse, elem_of_lookup_imap. naive_solver.
Qed.

Lemma code_rank o d : o ∈ options → d ∈ Option_Requires o → d ∈ L ∧ (rank L d < rank L (Option_Code o))%nat.
Proof.
  intros Ho Hd. rewrite <- (catalog_requires o Ho) in Hd. split.
  - eapply build_order_requires; eauto.
  - eapply rank_requires; eauto.
Qed.

Lemma required_index o d : o ∈ options → d ∈ Option_Requires o →
  ∃ j o', by_code options !! d = Some j ∧ options !! j = Some o' ∧ Option_Code o' = d.
Proof.
  intros Ho Hd. destruct (code_rank o d Ho Hd) as [HL _].
  apply (build_order_dom _ _ Hbuild) in HL. unfold catalog_requirements in HL.
  rewrite dom_list_to_map in HL. apply elem_of_list_to_set in HL. rewrite <- list_fmap_compose in HL.
  apply list_elem_of_fmap in HL as (o' & -> & Ho'). apply list_elem_of_lookup in Ho' as [j Hj].
  exists j, o'. split; [|done]. apply by_code_lookup. eauto.
Qed.

Lemma settled_selectable o o' : o ∈ options → settled options o o' →
  Option_Selectable o' = true ↔ available_code options (Option_Code o).
Proof.
  intros Ho Hs. rewrite available_unfold.
  assert (Hoff : offered options (Option_Code o) ↔ Option_Selectable o = true).
  { split; [|by exists o]. intros (o1 & Ho1 & E & <-). by rewrite (option_of_code o1 o). }
  assert (Hdep : (∀ d, depends options (Option_Code o) d → available_code options d) ↔
                 ∀ d, d ∈ Option_Requires o → available_code options d).
  { split; intros H d; [intros Hd; apply H; by exists o|]. intros (o1 & Ho1 & E & Hd).
    rewrite (option_of_code o1 o) in Hd by done. auto. }
  rewrite Hoff, Hdep. destruct Hs as [[? ->]|[? ->]]; simpl; naive_solver.
Qed.

(** Options whose search has ended are settled, the others as they were. *)
Definition search_ok (st : search) : Prop :=
  ∀ j o, options !! j = Some o →
    ∃ o', st.2 !! j = Some o' ∧
      match st.1 !! j with Some Visited => settled options o o' | _ => o' = o end.

(** No option of lower rank than [r] is on the stack. *)
Definition stack_above (r : nat) (st : search) : Prop :=
  ∀ j o, st.1 !! j = Some Visiting → options !! j = Some o → (r < rank L (Option_Code o))%nat.

Definition same_stack (st st' : search) : Prop :=
  ∀ j, st'.1 !! j = Some Visiting ↔ st.1 !! j = Some Visiting.

Definition finds (fuel : nat) (find : nat → search → bool * search) : Prop := ∀ i o st,
  options !! i = Some o → (rank L (Option_Code o) ≤ fuel)%nat → search_ok st →
  stack_above (rank L (Option_Code o)) st →
  let '(found, st') := find i st in
  (found = true ↔ available_code options (Option_Code o)) ∧ search_ok st' ∧ same_stack st st' ∧
  st'.1 !! i = Some Visited ∧ ∀ j, st.1 !! j = Some Visited → st'.1 !! j = Some Visited.

Lemma require_all_finds fuel find i o deps st :
  finds fuel find → options !! i = Some o → (rank L (Option_Code o) ≤ S fuel)%nat →
  (∀ d, d ∈ deps → d ∈ Option_Requires o) → search_ok st → st.1 !! i = Some Visiting →
  (∀ j oj, st.1 !! j = Some Visiting → options !! j = Some oj →
     (rank L (Option_Code o) ≤ rank L (Option_Code oj))%nat) →
  let st' := require_all find (by_code options) i deps st in
  same_stack st st' ∧ (∀ j, st.1 !! j = Some Visited → st'.1 !! j = Some Visited) ∧
  (∀ j oj, options !! j = Some oj → j ≠ i → ∃ o', st'.2 !! j = Some o' ∧
     match st'.1 !! j with Some Visited => settled options oj o' | _ => o' = oj end) ∧
  ((∀ d, d ∈ deps → available_code options d) ∧ st'.2 !! i = Some o ∨
   ¬ (∀ d, d ∈ deps → available_code options d) ∧ st'.2 !! i = Some (dependency_unavailable o)).
Proof.
  intros Hf Hi Hr. revert st. induction deps as [|d deps IH]; intros st Hd Hok Hv Hs; simpl.
  { destruct (Hok i o Hi) as (o' & Ho' & E). rewrite Hv in E. subst o'.
    split; [done|]. split; [done|]. split; [by intros j oj Hj _; apply Hok|].
    left. split; [|done]. by intros d ?%elem_of_nil. }
  destruct (required_index o d) as (j & oj & Hbc & Hj & Hc);
    [by eapply list_elem_of_lookup_2|apply Hd; by left|].
  destruct (code_rank o d) as [_ Hrd]; [by eapply list_elem_of_lookup_2|apply Hd; by left|].
  rewrite Hbc. specialize (Hf j oj st Hj). rewrite Hc in Hf.
  assert (Hst : stack_above (rank L d) st) by (intros k ok Hk Hok'; specialize (Hs k ok Hk Hok'); lia).
  specialize (Hf ltac:(lia) Hok Hst). destruct (find j st) as [found st1].
  destruct Hf as (Hfound & Hok1 & Hsame & _ & Hmono). destruct found.
  - destruct (IH st1) as (Hsame' & Hmono' & Hothers & Hres); [intros; apply Hd; by right|done|by apply Hsame| |].
    { intros k ok Hk. apply Hsame in Hk. eauto. }
    split; [intros k; by rewrite (Hsame' k)|]. split; [eauto|]. split; [done|].
    assert (Hav : available_code options d) by by apply Hfound.
    destruct Hres as [[Hall' ?]|[Hnot ?]]; [left|right]; (split; [|done]).
    + intros d' [->|?]%elem_of_cons; auto.
    + intros Hcon. apply Hnot. intros d' Hd'. apply Hcon. by right.
  - destruct (Hok1 i o Hi) as (o' & Ho' & E). rewrite (proj2 (Hsame i) Hv) in E. subst o'. simpl.
    split; [done|]. split; [done|]. split.
    + intros k ok Hk Hne. rewrite list_lookup_alter_ne by done. by apply Hok1.
    + right. split; [|by rewrite list_lookup_alter_eq, Ho'].
      intros Hcon. assert (false = true) by (apply Hfound, Hcon; by left). done.
Qed.

Lemma selectable_finds fuel : finds fuel (selectable fuel (by_code options)).
Proof.
  induction fuel as [|fuel IH]; intros i o st Hi Hr Hok Hs.
  { pose proof (rank_pos L (Option_Code o) (Hall o (list_elem_of_lookup_2 _ _ _ Hi))). lia. }
  simpl. destruct (Hok i o Hi) as (o' & Ho' & E).
  destruct (st.1 !! i) as [[]|] eqn:Hm.
  - specialize (Hs i o Hm Hi). lia.
  - split; [|done]. unfold selectable_at. rewrite Ho'. simpl.
    apply settled_selectable; [by eapply list_elem_of_lookup_2|done].
  - subst o'. rewrite Ho'. simpl.
    destruct (require_all_finds fuel _ i o (Option_Requires o) (<[i:=Visiting]> st.1, st.2) IH Hi Hr)
      as (Hsame & Hmono & Hothers & Hres); [done| |by simpl; rewrite lookup_insert_eq| |].
    { intros j oj Hj. simpl. destruct (decide (j = i)) as [->|Hne].
      - rewrite lookup_insert_eq. simplify_eq. eauto.
      - rewrite lookup_insert_ne by done. by apply Hok. }
    { intros j oj. simpl. destruct (decide (j = i)) as [->|Hne]; [intros _ Hoj; simplify_eq; lia|].
      rewrite lookup_insert_ne by done. intros Hj Hoj. specialize (Hs j oj Hj Hoj). lia. }
    set (st' := require_all _ _ _ _ _) in *. simpl in *.
    assert (Hset : ∃ o', st'.2 !! i = Some o' ∧ settled options o o').
    { destruct Hres as [[? ?]|[? ?]]; eexists; (split; [done|]); [left|right]; done. }
    destruct Hset as (o' & Hi' & Hset). split.
    { unfold selectable_at. rewrite Hi'. simpl.
      apply settled_selectable; [by eapply list_elem_of_lookup_2|done]. }
    split.
    { intros j oj Hj. simpl. destruct (decide (j = i)) as [->|Hne].
      - rewrite lookup_insert_eq. simplify_eq. eauto.
      - rewrite lookup_insert_ne by done. eauto. }
    split.
    { intros j. simpl. destruct (decide (j = i)) as [->|Hne].
      - rewrite lookup_insert_eq, Hm. naive_solver.
      - rewrite lookup_insert_ne, (Hsame j) by done. simpl. by rewrite lookup_insert_ne by done. }
    split; [by rewrite lookup_insert_eq|]. intros j Hj.
    destruct (decide (j = i)) as [->|Hne]; [by rewrite lookup_insert_eq|].
    rewrite lookup_insert_ne by done. apply Hmono. by rewrite lookup_insert_ne by done.
Qed.

Lemma resolve_settled i o : options !! i = Some o →
  ∃ o', resolve options !! i = Some o' ∧ settled options o o'.
Proof.
  intros Hi. unfold resolve. remember (S (length options)) as fuel eqn:Hfuel.
  assert (Hloop : ∀ todo st, search_ok st → (∀ j, st.1 !! j ≠ Some Visiting) → (∀ j, j ∈ todo → j < length options)%nat →
    let st' := foldl (λ st i, (selectable fuel (by_code options) i st).2) st todo in
    search_ok st' ∧ ∀ j, (j ∈ todo ∨ st.1 !! j = Some Visited) → st'.1 !! j = Some Visited).
  { induction todo as [|j todo IH]; intros st Hok Hnone His; simpl.
    { split; [done|]. intros k [?%elem_of_nil|?]; done. }
    destruct (lookup_lt_is_Some_2 options j) as [oj Hj]; [apply His; by left|].
    pose proof (selectable_finds fuel j oj st Hj) as Hf.
    assert (Hlen : (rank L (Option_Code oj) ≤ fuel)%nat).
    { pose proof (rank_le L (Option_Code oj)). pose proof (build_order_length _ _ Hbuild).
      unfold catalog_requirements in *. rewrite map_size_list_to_map in * by (rewrite <- list_fmap_compose; exact Hnodup).
      rewrite length_fmap in *. lia. }
    specialize (Hf Hlen Hok). specialize (Hf ltac:(intros k ok Hk; destruct (Hnone k Hk))).
    destruct (selectable _ _ j st) as [found st1]. destruct Hf as (_ & Hok1 & Hsame & Hj1 & Hmono). simpl.
    destruct (IH st1) as [Hok2 Hvis]; [done| |intros; apply His; by right|].
    { intros k Hk. apply Hsame in Hk. by apply (Hnone k). }
    split; [done|]. intros k [[->|?]%elem_of_cons|?]; apply Hvis; auto. }
  destruct (Hloop (seq 0 (length options)) (∅, options)) as [Hok Hvis].
  - intros j oj Hj. exists oj. split; [done|]. simpl. by rewrite lookup_empty.
  - intros j. simpl. by rewrite lookup_empty.
  - intros j Hj%elem_of_seq. lia.
  - destruct (Hok i o Hi) as (o' & Ho' & E). rewrite Hvis in E; [eauto|]. left. apply elem_of_seq.
    apply lookup_lt_Some in Hi. lia.
Qed.
End search.

Lemma require_all_length find byCode i deps st :
  (∀ j st, length (find j st).2.2 = length st.2) → length (require_all find byCode i deps st).2 = length st.2.
Proof.
  intros Hf. revert st. induction deps as [|d deps IH]; intros st; simpl; [done|].
  destruct (byCode !! d) as [j|]; [|apply length_alter]. specialize (Hf j st).
  destruct (find j st) as [[] st1]; simpl in *; [by rewrite IH|by rewrite length_alter].
Qed.

Lemma selectable_length fuel byCode i st : length (selectable fuel byCode i st).2.2 = length st.2.
Proof.
  revert i st. induction fuel as [|fuel IH]; intros i st; simpl; [done|].
  destruct (st.1 !! i) as [[]|]; simpl; [done|done|]. by rewrite require_all_length.
Qed.

Lemma resolve_length options : length (resolve options) = length options.
Proof.
  unfold resolve. remember (S (length options)) as fuel eqn:E. clear E.
  change (length options) with (length (∅ : gmap nat mark, options).2) at 2.
  generalize (∅ : gmap nat mark, options), (seq 0 (length options)). intros st todo. revert st.
  induction todo as [|i todo IH]; intros st; simpl; [done|]. by rewrite IH, selectable_length.
Qed.

Lemma resolve_spec options L : NoDup (Option_Code <$> options) →
  build_order (catalog_requirements options) L → (∀ o, o ∈ options → Option_Code o ∈ L) →
  Forall2 (settled options) options (resolve options).
Proof.
  intros Hn Hb Ha. apply Forall2_same_length_lookup_2; [by rewrite resolve_length|].
  intros i o o' Ho Ho'. destruct (resolve_settled options L Hn Hb Ha i o Ho) as (o1 & Ho1 & Hs). congruence.
Qed.
