(* ===== verification/ServiceRegistry.v ===== *)
(** * Runs of the service registry: what holds of every catalog

    The operations of PlatformServices.v in any order, with any arguments, on
    tables that start empty, other parts of the program changing the rest of
    the database in between.  In every such run the published options form a
    catalog in which each option has one owner, nothing required is missing,
    nothing requires itself and everything but MQTT requires MQTT; so the
    catalog that products select from is exactly what the services can deliver. *)

From S2P Require Export ServiceCatalog.

Local Open Scope Z_scope.

(** ** Runs *)

Inductive registry_request :=
  | RqApprove (a : PlatformServiceWorkloadApproval)
  | RqRevoke (a : PlatformServiceWorkloadRevocation) (now_ : Time)
  | RqSetStatus (environment service status actor : string)
  | RqRegister (r : PlatformServiceRegistration) (p : PlatformServicePrincipal) (now_ : Time)
  | RqPublish (service expectedVersion newVersion : string) (p : PlatformServicePrincipal) (now_ : Time)
  | RqHeartbeat (service instance_ version : string) (ready : bool) (p : PlatformServicePrincipal) (now_ : Time)
  | RqDeregister (service instance_ : string) (p : PlatformServicePrincipal) (now_ : Time)
  | RqDatabase (db : DB).

Definition serve (q : registry_request) (s : ServiceDB) : ServiceDB :=
  match q with
  | RqApprove a => (ApprovePlatformServiceWorkload a s).2
  | RqRevoke a t => (RevokePlatformServiceWorkload a t s).2
  | RqSetStatus e svc status actor => (SetPlatformServiceStatus e svc status actor s).2
  | RqRegister r p t => (RegisterPlatformServiceInstance r p t s).2
  | RqPublish svc v v' p t => (PublishPlatformServiceManifest svc v v' p t s).2
  | RqHeartbeat svc i v ready p t => (HeartbeatPlatformServiceInstance svc i v ready p t s).2
  | RqDeregister svc i p t => (DeregisterPlatformServiceInstance svc i p t s).2
  | RqDatabase db => with_svc_db db s
  end.

Definition empty_registry (db : DB) : ServiceDB := mkServiceDB db ∅ ∅ ∅ ∅ ∅ ∅.

Inductive registry_reachable : ServiceDB → Prop :=
  | registry_start db : registry_reachable (empty_registry db)
  | registry_next s q : registry_reachable s → registry_reachable (serve q s).

(** ** Well-formed sets of options *)

Definition option_requirements (options : list PlatformServiceOption) : requirements :=
  list_to_map ((λ o, (PO_Code o, PO_Requires o)) <$> options).
Definition options_of (rows : list (string * list PlatformServiceOption)) : list PlatformServiceOption :=
  rows ≫= snd.

Record well_formed (options : list PlatformServiceOption) : Prop := {
  wf_codes : NoDup (PO_Code <$> options);
  wf_buildable : buildable (option_requirements options);
  wf_mqtt : ∀ o, o ∈ options → PO_Code o = "mqtt" ∨ "mqtt" ∈ PO_Requires o;
}.

(** The same codes, each requiring the same. *)
Definition same_options (l l' : list PlatformServiceOption) : Prop :=
  PO_Code <$> l ≡ₚ PO_Code <$> l' ∧
  ∀ o', o' ∈ l' → ∃ o, o ∈ l ∧ PO_Code o = PO_Code o' ∧ ∀ d, d ∈ PO_Requires o' ↔ d ∈ PO_Requires o.

Lemma buildable_weaken g g' :
  buildable g → dom g' = dom g → (∀ c d, d ∈ requires g' c → d ∈ requires g c) → buildable g'.
Proof.
  intros (l & Hb & Hall) Hdom Hr. exists l. split; [|by rewrite Hdom].
  clear Hall. induction Hb as [|c l Hb IH Hc Hn Hd]; constructor; eauto. by rewrite Hdom.
Qed.

Lemma dom_option_requirements l c : c ∈ dom (option_requirements l) ↔ c ∈ PO_Code <$> l.
Proof.
  unfold option_requirements. rewrite dom_list_to_map, elem_of_list_to_set, <- list_fmap_compose. done.
Qed.

Lemma option_requirements_lookup l o : NoDup (PO_Code <$> l) → o ∈ l →
  requires (option_requirements l) (PO_Code o) = PO_Requires o.
Proof.
  intros Hn Ho. unfold requires, option_requirements. erewrite elem_of_list_to_map_1; [done| |].
  - rewrite <- list_fmap_compose. exact Hn.
  - apply list_elem_of_fmap. eauto.
Qed.

Lemma requires_inv l c d : NoDup (PO_Code <$> l) → d ∈ requires (option_requirements l) c →
  ∃ o, o ∈ l ∧ PO_Code o = c ∧ d ∈ PO_Requires o.
Proof.
  intros Hn Hd. destruct (decide (c ∈ PO_Code <$> l)) as [(o & -> & Ho)%list_elem_of_fmap|Hc].
  - rewrite option_requirements_lookup in Hd by done. eauto.
  - rewrite <- dom_option_requirements in Hc. apply not_elem_of_dom in Hc.
    unfold requires in Hd. rewrite Hc in Hd. by apply elem_of_nil in Hd.
Qed.

Lemma well_formed_same l l' : well_formed l → same_options l l' → well_formed l'.
Proof.
  intros [Hn Hb Hm] [Hp Hs].
  assert (Hn' : NoDup (PO_Code <$> l')) by by rewrite <- Hp.
  split; [done| |].
  - eapply buildable_weaken; [done| |].
    + apply set_eq. intros c. by rewrite !dom_option_requirements, Hp.
    + intros c d (o' & Ho' & <- & Hd)%requires_inv; [|done]. destruct (Hs o' Ho') as (o & Ho & Hc & Hd').
      rewrite <- Hc, option_requirements_lookup by done. by apply Hd'.
  - intros o' Ho'. destruct (Hs o' Ho') as (o & Ho & <- & Hd). rewrite Hd. auto.
Qed.

Lemma same_options_perm l l' : l ≡ₚ l' → same_options l l'.
Proof. intros Hp. split; [by rewrite Hp|]. intros o' Ho'. exists o'. by rewrite Hp. Qed.

Lemma normalized_same l options : same_options (l ++ options) (l ++ normalized_options options).
Proof.
  unfold normalized_options. split.
  - rewrite !fmap_app, <- list_fmap_compose. apply Permutation_app_head.
    rewrite (order_by_perm _ options). done.
  - intros o' [Ho'|(o & -> & Ho)%list_elem_of_fmap]%elem_of_app.
    + exists o'. rewrite elem_of_app. eauto.
    + apply elem_of_order_by in Ho. exists o. rewrite elem_of_app. split; [by right|]. split; [done|].
      simpl. unfold slices_Sort. intros d. apply elem_of_order_by.
Qed.

(** ** The maps of validateManifestDependencies *)

Lemma add_options_app l l' m : add_options (l ++ l') m = add_options l' (add_options l m).
Proof. apply foldl_app. Qed.

Lemma add_options_lookup l m c : NoDup (PO_Code <$> l) →
  add_options l m !! c = match option_requirements l !! c with Some r => Some r | None => m !! c end.
Proof.
  revert m. induction l as [|o l IH]; intros m Hn; [done|]. simpl.
  apply NoDup_cons in Hn as [Ho Hn]. fold (add_options l). rewrite IH by done.
  rewrite <- dom_option_requirements in Ho. apply not_elem_of_dom in Ho.
  unfold option_requirements in *. simpl. destruct (decide (c = PO_Code o)) as [->|Hne].
  - by rewrite Ho, !lookup_insert_eq.
  - by rewrite !lookup_insert_ne.
Qed.

Lemma add_rows rows m : foldl (λ m row, add_options row.2 m) m rows = add_options (options_of rows) m.
Proof.
  revert m. induction rows as [|row rows IH]; intros m; simpl; [done|].
  rewrite IH. unfold options_of. simpl. by rewrite add_options_app.
Qed.

Lemma all_options_requirements service options rows :
  NoDup (PO_Code <$> (options_of (others service rows) ++ options)) →
  all_options service options rows = option_requirements (options_of (others service rows) ++ options).
Proof.
  intros Hn. unfold all_options. rewrite add_rows, <- add_options_app.
  apply map_eq. intros c. rewrite add_options_lookup by done. rewrite lookup_empty.
  by destruct (option_requirements _ !! c).
Qed.

(** The assignments of a nest of loops, in their order. *)
Lemma foldl_insert_elem {A} (l : list (string * A)) (m : gmap string A) c : c ∈ l.*1 →
  ∃ v, foldl (λ m p, <[p.1 := p.2]> m) m l !! c = Some v ∧ (c, v) ∈ l.
Proof.
  induction l as [|[k v] l IH] using rev_ind; intros Hc; [by apply elem_of_nil in Hc|].
  rewrite foldl_snoc. simpl. destruct (decide (c = k)) as [->|Hne].
  - exists v. rewrite lookup_insert_eq, elem_of_app, elem_of_cons. auto.
  - rewrite fmap_app, elem_of_app in Hc. simpl in Hc. destruct Hc as [Hc|Hc%list_elem_of_singleton]; [|done].
    destruct (IH Hc) as (w & Hw & Hin). exists w. rewrite lookup_insert_ne by done. rewrite elem_of_app. auto.
Qed.

Definition owners (rows : list (string * list PlatformServiceOption)) : list (string * string) :=
  rows ≫= λ row, (λ o, (PO_Code o, row.1)) <$> row.2.

Lemma available_owners service rows :
  available service rows = foldl (λ m p, <[p.1 := p.2]> m) ∅ (owners (others service rows)).
Proof.
  unfold available. generalize (others service rows), (∅ : gmap string string). intros l.
  induction l as [|row l IH]; intros m; simpl; [done|]. rewrite IH. unfold owners at 2. simpl.
  rewrite foldl_app. f_equal. generalize row.2 m. intros options.
  induction options as [|o options IH']; intros m'; simpl; [done|]. by rewrite IH'.
Qed.

Lemma available_owner service rows c : c ∈ PO_Code <$> options_of (others service rows) →
  ∃ owner, available service rows !! c = Some owner ∧ owner ∈ (others service rows).*1.
Proof.
  intros (o & -> & Ho)%list_elem_of_fmap. unfold options_of in Ho.
  apply list_elem_of_bind in Ho as ([service' options] & Ho & Hrow). simpl in Ho.
  rewrite available_owners.
  destruct (foldl_insert_elem (owners (others service rows)) ∅ (PO_Code o)) as (owner & Hl & Hin).
  - apply list_elem_of_fmap. exists (PO_Code o, service'). split; [done|]. unfold owners.
    apply list_elem_of_bind. exists (service', options). split; [|done]. apply list_elem_of_fmap. eauto.
  - exists owner. split; [done|]. unfold owners in Hin.
    apply list_elem_of_bind in Hin as (row & (o' & [= _ ->] & _)%list_elem_of_fmap & Hr).
    apply list_elem_of_fmap. eauto.
Qed.

(** An option of another service is taken. *)
Lemma not_taken service rows options :
  (∀ owner, owner ∈ (others service rows).*1 → owner ≠ "") →
  existsb (taken service (available service rows)) options = false →
  ∀ o, o ∈ options → PO_Code o ∉ PO_Code <$> options_of (others service rows).
Proof.
  intros Hne Ht o Ho Hc. apply available_owner in Hc as (owner & Hl & Hin).
  assert (taken service (available service rows) o = true) as Hto.
  { unfold taken. rewrite Hl, !bool_decide_false; [done| |].
    - apply list_elem_of_fmap in Hin as (row & -> & Hr). by apply list_elem_of_filter in Hr as [? _].
    - by apply Hne. }
  rewrite <- not_true_iff_false, existsb_exists in Ht. apply Ht. exists o. split; [|done]. by apply list_elem_of_In.
Qed.

(** ** Published manifests *)

Lemma service_rows_spec environment s service row options :
  (service, row, options) ∈ service_rows environment s ↔
  ∃ m, platform_services s !! (environment, service) = Some row ∧
    platform_service_manifests s !! (environment, service, Service_published_version row) = Some m ∧
    options = Manifest_options m.
Proof.
  unfold service_rows. rewrite list_elem_of_omap. split.
  - intros ([[e svc] r] & Hin%elem_of_map_to_list & H). case_bool_decide as He; [|done].
    destruct (platform_service_manifests s !! _) as [m|] eqn:Hm; [|done].
    injection H as -> -> <-. subst e. eauto.
  - intros (m & Hr & Hm & ->). exists ((environment, service), row). split; [by apply elem_of_map_to_list|].
    rewrite bool_decide_true by done. by rewrite Hm.
Qed.

Lemma published_spec environment s service options :
  (service, options) ∈ published environment s ↔
  ∃ row m, platform_services s !! (environment, service) = Some row ∧
    platform_service_manifests s !! (environment, service, Service_published_version row) = Some m ∧
    options = Manifest_options m.
Proof.
  unfold published. rewrite list_elem_of_fmap. split.
  - intros ([[svc row] opts] & [= <- <-] & (m & ? & ? & ?)%service_rows_spec). eauto.
  - intros (row & m & ? & ? & ?). exists (service, row, options). split; [done|]. apply service_rows_spec. eauto.
Qed.

Lemma published_services_NoDup environment s : NoDup (published environment s).*1.
Proof.
  unfold published, service_rows. rewrite <- list_fmap_compose.
  pose proof (NoDup_fst_map_to_list (platform_services s)) as Hn.
  induction (map_to_list (platform_services s)) as [|[[e svc] row] l IH]; simpl in *; [constructor|].
  apply NoDup_cons in Hn as [Hnot Hn]. case_bool_decide as He; [|auto].
  destruct (platform_service_manifests s !! _) as [m|]; [|auto]. simpl. constructor; [|auto].
  intros ([[svc' row'] opts] & Heq & ([[e' svc2] r2] & Hin & H)%list_elem_of_omap)%list_elem_of_fmap.
  simpl in Heq. subst svc'. case_bool_decide as He'; [|done].
  destruct (platform_service_manifests s !! (environment, svc2, _)) as [m2|]; [|done]. injection H as -> _ _.
  apply Hnot. apply list_elem_of_fmap. exists ((e', svc), r2). simpl. subst. done.
Qed.

Lemma published_NoDup environment s : NoDup (published environment s).
Proof. eapply NoDup_fmap_1, published_services_NoDup. Qed.

(** Two states with the same published manifests in an environment. *)
Lemma published_same environment s s' :
  (∀ service options, (service, options) ∈ published environment s' ↔ (service, options) ∈ published environment s) →
  published environment s' ≡ₚ published environment s.
Proof.
  intros H. apply NoDup_Permutation; [apply published_NoDup|apply published_NoDup|].
  intros [service options]. apply H.
Qed.

(** A service gets another manifest. *)
Lemma published_put environment s s' service options :
  (∀ svc o, (svc, o) ∈ published environment s' ↔
     (svc = service ∧ o = options) ∨ (svc ≠ service ∧ (svc, o) ∈ published environment s)) →
  published environment s' ≡ₚ others service (published environment s) ++ [(service, options)].
Proof.
  intros H. apply NoDup_Permutation; [apply published_NoDup| |].
  - apply NoDup_app. split; [apply NoDup_filter, published_NoDup|].
    split; [|apply NoDup_singleton]. intros [svc o] [Hne _]%list_elem_of_filter [= -> _]%list_elem_of_singleton. done.
  - intros [svc o]. rewrite H, elem_of_app, list_elem_of_singleton. unfold others. rewrite list_elem_of_filter. simpl.
    split; [intros [[-> ->]|[? ?]]; auto|]. intros [[? ?]|[= -> ->]]; auto.
Qed.

Lemma options_of_perm rows rows' : rows ≡ₚ rows' → options_of rows ≡ₚ options_of rows'.
Proof. intros H. unfold options_of. by rewrite H. Qed.

Lemma options_of_put rows service options :
  options_of (others service rows ++ [(service, options)]) = options_of (others service rows) ++ options.
Proof. unfold options_of. rewrite bind_app. simpl. by rewrite app_nil_r. Qed.

Lemma others_codes_NoDup service rows : NoDup (PO_Code <$> options_of rows) →
  NoDup (PO_Code <$> options_of (others service rows)).
Proof.
  intros H. refine (sublist_NoDup _ _ H _). apply fmap_sublist. unfold others, options_of. clear H.
  induction rows as [|row rows IH]; simpl; [constructor|]. rewrite filter_cons.
  case_decide; simpl; [by apply sublist_app|]. by apply sublist_inserts_l.
Qed.

Lemma others_in service rows o : o ∈ options_of (others service rows) → o ∈ options_of rows.
Proof.
  unfold options_of. intros (row & Ho & Hr)%list_elem_of_bind. apply list_elem_of_bind.
  exists row. split; [done|]. by apply list_elem_of_filter in Hr as [_ Hr].
Qed.

(** ** validateManifestDependencies *)

Lemma options_required_ok g options : options_required g options = Ok tt →
  ∀ o, o ∈ options → (∀ d, d ∈ PO_Requires o → d ∈ dom g) ∧ (PO_Code o = "mqtt" ∨ "mqtt" ∈ PO_Requires o).
Proof.
  induction options as [|x options IH]; simpl; intros H o Ho; [by apply elem_of_nil in Ho|].
  destruct (filter _ (PO_Requires x)) as [|d ds] eqn:Hf; [|done].
  destruct (_ && _) eqn:Hm; [done|]. apply elem_of_cons in Ho as [->|Ho]; [|by apply IH].
  split.
  - intros d Hd. destruct (decide (d ∈ dom g)) as [|Hn]; [done|].
    assert (Hin : d ∈ filter (λ d, d ∉ dom g) (PO_Requires x)) by by apply list_elem_of_filter.
    rewrite Hf in Hin. by apply elem_of_nil in Hin.
  - apply andb_false_iff in Hm as [Hm|Hm]; apply negb_false_iff, bool_decide_eq_true in Hm; auto.
Qed.

Lemma validateManifestDependencies_ok environment service options s u s' :
  (∀ owner, owner ∈ (published environment s).*1 → owner ≠ "") →
  well_formed (options_of (published environment s)) → NoDup (PO_Code <$> options) →
  validateManifestDependencies environment service options s = (Ok u, s') →
  s' = s ∧ well_formed (options_of (others service (published environment s)) ++ options).
Proof.
  intros Hne [Hn _ Hm] Ho. unfold validateManifestDependencies.
  rewrite bind_gets_ok, bind_reject_ok, bind_lift_ok. intros (Ht & [] & Hr & H).
  apply lift_res_ok in H as [Hc ->]. split; [done|].
  assert (Hcodes : NoDup (PO_Code <$> (options_of (others service (published environment s)) ++ options))).
  { rewrite fmap_app. apply NoDup_app. split; [by apply others_codes_NoDup|]. split; [|done].
    intros c Hc1 (o & -> & Hin)%list_elem_of_fmap. revert Hc1. eapply not_taken; [|done|done].
    intros owner (row & -> & [_ Hrow]%list_elem_of_filter)%list_elem_of_fmap. apply Hne.
    apply list_elem_of_fmap. eauto. }
  rewrite all_options_requirements in Hc, Hr by done.
  destruct (check_requirements _ _) as [[]|] eqn:E; [|done].
  apply check_requirements_iff in E; [|intros c; apply elem_of_elements].
  split; [done|done|]. intros o [Hin|Hin]%elem_of_app.
  - apply Hm. by eapply others_in.
  - by eapply options_required_ok.
Qed.

(** ** The invariant *)

Record registry_ok (s : ServiceDB) : Prop := {
  ok_published : ∀ environment service row, platform_services s !! (environment, service) = Some row →
    is_Some (platform_service_manifests s !! (environment, service, Service_published_version row));
  ok_manifest : ∀ environment service version m,
    platform_service_manifests s !! (environment, service, version) = Some m →
    is_Some (platform_services s !! (environment, service)) ∧ service ≠ "" ∧ NoDup (PO_Code <$> Manifest_options m);
  ok_catalog : ∀ environment, well_formed (options_of (published environment s));
}.

Lemma ok_owner s environment owner : registry_ok s → owner ∈ (published environment s).*1 → owner ≠ "".
Proof.
  intros Hok ([svc o] & -> & (row & m & _ & Hm & _)%published_spec)%list_elem_of_fmap.
  by apply (ok_manifest s Hok) in Hm as (_ & ? & _).
Qed.

Lemma well_formed_nil : well_formed [].
Proof.
  split; [constructor| |by intros o ?%elem_of_nil].
  exists []. split; [constructor|]. intros c Hc. by apply dom_option_requirements, elem_of_nil in Hc.
Qed.

Lemma registry_ok_empty db : registry_ok (empty_registry db).
Proof.
  split; simpl; [by intros * H; rewrite lookup_empty in H..|]. intros e.
  replace (published e (empty_registry db)) with (@nil (string * list PlatformServiceOption)); [apply well_formed_nil|].
  unfold published, service_rows. simpl. by rewrite map_to_list_empty.
Qed.

(** Nothing happens to services and manifests. *)
Definition same_manifests (s s' : ServiceDB) : Prop :=
  platform_services s' = platform_services s ∧
  platform_service_manifests s' = platform_service_manifests s.

#[export] Instance same_manifests_preorder : PreOrder same_manifests.
Proof. split; [by split|]. intros s1 s2 s3 [E1 E2] [F1 F2]. split; congruence. Qed.

Lemma same_manifests_published s s' environment :
  same_manifests s s' → published environment s' = published environment s.
Proof. intros [E1 E2]. unfold published, service_rows. by rewrite E1, E2. Qed.

Lemma registry_ok_same s s' : same_manifests s s' → registry_ok s → registry_ok s'.
Proof.
  intros Hs [H1 H2 H3]. destruct (Hs) as [E1 E2]. split.
  - rewrite E1, E2. exact H1.
  - rewrite E1, E2. exact H2.
  - intros e. by rewrite (same_manifests_published s s').
Qed.

Section steps.
Context {A : Type}.
Lemma steps_svc_transaction (R : relation ServiceDB) `{!PreOrder R} (m : Svc A) :
  (∀ s a s', m s = (Ok a, s') → R s s') → steps R (transaction m).
Proof.
  intros Hm s r s'. destruct r as [a|e].
  - rewrite transaction_ok. apply Hm.
  - intros ->%transaction_err. reflexivity.
Qed.
Lemma steps_read (m : Svc A) (R : relation ServiceDB) `{!PreOrder R} : read_only m → steps R m.
Proof. intros Hm s r s' H. apply (read_only_ok _ _ _ _ Hm) in H as ->. reflexivity. Qed.
End steps.

Lemma steps_modify (R : relation ServiceDB) f : (∀ s, R s (f s)) → steps R (modify f).
Proof. intros Hf s r s' [= _ <-]. apply Hf. Qed.

Lemma svc_audit_same event actor t i p : steps same_manifests (svc_audit event actor t i p).
Proof. intros s r s'. unfold svc_audit, zoom. destruct (create_audit_event _ _ _ _ _ _ _). by intros [= _ <-]. Qed.
Lemma lockCatalogRevision_same e : steps same_manifests (lockCatalogRevision e).
Proof.
  apply steps_bind; [apply _|by apply steps_read; [apply _|]|]. intros s.
  destruct (catalog_revisions s !! e); [by apply steps_ret; apply _|].
  apply steps_bind; [apply _|by apply steps_modify|]. intros _. by apply steps_ret; apply _.
Qed.
Lemma bumpCatalogRevision_same e : steps same_manifests (bumpCatalogRevision e).
Proof.
  intros s r s'. unfold bumpCatalogRevision. run_simpl. destruct (catalog_revisions s !! e); simpl; [|by intros [= _ <-]].
  destruct (negb _); simpl; by intros [= _ <-].
Qed.
Lemma requireWorkload_read svc i p o : read_only (requireWorkload svc i p o).
Proof. unfold requireWorkload. eauto 10 with rtk. Qed.
Lemma record_request_same key digest : steps same_manifests (record_request key digest).
Proof.
  intros s r s'. unfold record_request. run_simpl. destruct (registration_requests s !! key); [|by intros [= _ <-]].
  destruct (negb _); by intros [= _ <-].
Qed.
Lemma upsert_instance_same key row : steps same_manifests (upsert_instance key row).
Proof.
  intros s r s'. destruct key as [[e svc] i]. unfold upsert_instance.
  rewrite bind_gets_run, !bind_reject_run.
  case_match; [by intros [= _ <-]|]. case_match; intros [= _ <-]; by split.
Qed.
#[local] Hint Resolve svc_audit_same lockCatalogRevision_same bumpCatalogRevision_same record_request_same
  upsert_instance_same requireWorkload_read steps_read : rtk.

(** ** Operations that leave the manifests alone *)

Ltac same_steps := repeat first
  [ assumption
  | apply _
  | match goal with
    | |- steps _ (_ ≫= _) => apply steps_bind; [apply _| |intros ?]
    | |- steps _ (mret _) => apply steps_ret; apply _
    | |- steps _ (throw _) => apply steps_throw; apply _
    | |- steps _ (modify _) => apply steps_modify; intros ?; by split
    | |- steps _ (gets _) => apply steps_read; [apply _|apply read_only_gets]
    | |- steps _ (reject_if _ _) => apply steps_read; [apply _|apply read_only_reject_if]
    | |- steps _ (row_or _ _) => apply steps_read; [apply _|apply read_only_row_or]
    | |- steps _ (requireWorkload _ _ _ _) => apply steps_read; [apply _|apply requireWorkload_read]
    | |- steps _ (transaction _) => apply steps_svc_transaction; [apply _|]; intros ?s ?a ?s'; revert s a s'
    | |- context [if ?b then _ else _] => destruct b
    end
  | solve [eauto with rtk] ].

Lemma steps_ok {S A} (R : relation S) (m : M S A) : steps R m → ∀ s a s', m s = (Ok a, s') → R s s'.
Proof. intros H s a s' E. by eapply H. Qed.

Lemma approve_same a : steps same_manifests (ApprovePlatformServiceWorkload a).
Proof.
  unfold ApprovePlatformServiceWorkload. cbv zeta.
  repeat (apply steps_bind; [apply _|by apply steps_read; [apply _|apply read_only_reject_if]|intros _]).
  apply steps_svc_transaction; [apply _|]. apply steps_ok. same_steps.
Qed.
Lemma revoke_same a t : steps same_manifests (RevokePlatformServiceWorkload a t).
Proof.
  unfold RevokePlatformServiceWorkload. cbv zeta.
  apply steps_bind; [apply _|by apply steps_read; [apply _|apply read_only_reject_if]|intros _].
  apply steps_svc_transaction; [apply _|]. apply steps_ok. same_steps.
Qed.
Lemma heartbeat_same svc i v ready p t : steps same_manifests (HeartbeatPlatformServiceInstance svc i v ready p t).
Proof.
  unfold HeartbeatPlatformServiceInstance. cbv zeta. apply steps_svc_transaction; [apply _|]. apply steps_ok. same_steps.
Qed.
Lemma deregister_same svc i p t : steps same_manifests (DeregisterPlatformServiceInstance svc i p t).
Proof.
  unfold DeregisterPlatformServiceInstance. cbv zeta. apply steps_svc_transaction; [apply _|]. apply steps_ok. same_steps.
Qed.

(** ** Operations on services and manifests *)

Lemma validate_options_codes service seen options : validate_options service seen options = Ok tt →
  NoDup (PO_Code <$> options) ∧ ∀ o, o ∈ options → PO_Code o ∉ seen.
Proof.
  revert seen. induction options as [|o options IH]; intros seen; simpl.
  { intros _. split; [constructor|by intros o ?%elem_of_nil]. }
  intros (Ho & H)%res_seq_ok. destruct (IH _ H) as [Hn Hs].
  unfold validate_option in Ho. apply res_seq_ok in Ho as [Ho _].
  destruct (_ || bool_decide (PO_Code o ∈ seen)) eqn:E in Ho; [done|]. destruct_bools.
  split.
  - constructor; [|done]. intros (x & Ex & Hx)%list_elem_of_fmap. apply (Hs x Hx). rewrite <- Ex. set_solver.
  - intros x [->|Hx]%elem_of_cons; [done|]. specialize (Hs x Hx). set_solver.
Qed.

Lemma serviceIDPattern_nonempty s : serviceIDPattern s = true → s ≠ "".
Proof. by intros H ->. Qed.

Lemma validated_registration r : ValidatePlatformServiceRegistration r = Ok tt →
  Reg_ServiceID r ≠ "" ∧ NoDup (PO_Code <$> Reg_Options r).
Proof.
  unfold ValidatePlatformServiceRegistration.
  destruct (negb (serviceIDPattern (Reg_ServiceID r))) eqn:E; [done|]. apply negb_false_iff in E.
  destruct (_ || _); [done|]. intros (H & _)%res_seq_ok. apply validate_options_codes in H as [H _].
  split; [by apply serviceIDPattern_nonempty|done].
Qed.

(** A service is set to a stored manifest that fits the others. *)
Lemma registry_ok_put s s' e service row m :
  registry_ok s →
  platform_services s' = <[(e, service) := row]> (platform_services s) →
  (∀ k, is_Some (platform_service_manifests s !! k) → platform_service_manifests s' !! k = platform_service_manifests s !! k) →
  (∀ e' svc v m', platform_service_manifests s' !! (e', svc, v) = Some m' →
     platform_service_manifests s !! (e', svc, v) = Some m' ∨ (e' = e ∧ svc = service ∧ m' = m)) →
  platform_service_manifests s' !! (e, service, Service_published_version row) = Some m →
  service ≠ "" → NoDup (PO_Code <$> Manifest_options m) →
  well_formed (options_of (others service (published e s)) ++ Manifest_options m) →
  registry_ok s'.
Proof.
  intros Hok Hs Hm Hm' Hrow Hne Hn Hwf.
  assert (Hpub : ∀ e' svc o, (svc, o) ∈ published e' s' ↔
     ((e', svc) = (e, service) ∧ o = Manifest_options m) ∨ ((e', svc) ≠ (e, service) ∧ (svc, o) ∈ published e' s)).
  { intros e' svc o. rewrite !published_spec, Hs. destruct (decide ((e', svc) = (e, service))) as [[= -> ->]|Hd].
    - rewrite lookup_insert_eq. split.
      + intros (row' & m0 & [= <-] & Hm0 & ->). rewrite Hrow in Hm0. left. split; [done|congruence].
      + intros [[_ ->]|[? _]]; [|done]. eauto.
    - rewrite lookup_insert_ne by congruence. split.
      + intros (row' & m0 & Hr & Hm0 & ->). right. split; [done|]. exists row', m0. split; [done|].
        rewrite <- Hm by by eapply (ok_published s Hok). done.
      + intros [[? _]|[_ (row' & m0 & Hr & Hm0 & ->)]]; [done|]. exists row', m0. split; [done|].
        by rewrite Hm by by eapply (ok_published s Hok). }
  split.
  - intros e' svc row'. rewrite Hs. destruct (decide ((e', svc) = (e, service))) as [[= -> ->]|Hd].
    + rewrite lookup_insert_eq. intros [= <-]. by rewrite Hrow.
    + rewrite lookup_insert_ne by congruence. intros Hr.
      rewrite Hm by by eapply (ok_published s Hok). by eapply (ok_published s Hok).
  - intros e' svc v m0 Hm0. rewrite Hs. apply Hm' in Hm0 as [Hm0|(-> & -> & ->)].
    + apply (ok_manifest s Hok) in Hm0 as (Hsome & ? & ?). split; [|done].
      destruct (decide ((e', svc) = (e, service))) as [[= -> ->]|Hd]; [by rewrite lookup_insert_eq|].
      by rewrite lookup_insert_ne by congruence.
    + by rewrite lookup_insert_eq.
  - intros e'. destruct (decide (e' = e)) as [->|Hd].
    + eapply well_formed_same; [exact Hwf|]. apply same_options_perm. symmetry.
      rewrite <- options_of_put. apply options_of_perm, published_put.
      intros svc o. rewrite Hpub. split; intros [[H ?]|[H ?]]; [left|right|left|right]; split; congruence.
    + eapply well_formed_same; [apply (ok_catalog s Hok e')|]. apply same_options_perm. symmetry.
      apply options_of_perm, published_same. intros svc o. rewrite Hpub.
      split; [intros [[? _]|[_ ?]]; congruence|]. intros H. right. split; [congruence|done].
Qed.

(** A further manifest of a service that has one. *)
Lemma registry_ok_manifest s s' e service v m :
  registry_ok s → platform_services s' = platform_services s →
  platform_service_manifests s' = <[(e, service, v) := m]> (platform_service_manifests s) →
  platform_service_manifests s !! (e, service, v) = None →
  is_Some (platform_services s !! (e, service)) → service ≠ "" → NoDup (PO_Code <$> Manifest_options m) →
  registry_ok s'.
Proof.
  intros Hok Hs Hm Hnone Hsvc Hne Hn.
  assert (Hkeep : ∀ k, is_Some (platform_service_manifests s !! k) →
    platform_service_manifests s' !! k = platform_service_manifests s !! k).
  { intros k [x Hx]. rewrite Hm, lookup_insert_ne; [done|]. intros <-. congruence. }
  split.
  - intros e' svc row Hr. rewrite Hs in Hr. rewrite Hkeep; by eapply (ok_published s Hok).
  - intros e' svc v' m' Hm'. rewrite Hs. rewrite Hm in Hm'.
    destruct (decide ((e', svc, v') = (e, service, v))) as [[= -> -> ->]|Hd].
    + rewrite lookup_insert_eq in Hm'. by simplify_eq.
    + rewrite lookup_insert_ne in Hm' by congruence. by eapply (ok_manifest s Hok).
  - intros e'. eapply well_formed_same; [apply (ok_catalog s Hok e')|]. apply same_options_perm. symmetry.
    apply options_of_perm, published_same. intros svc o. rewrite !published_spec, Hs.
    split; intros (row & m' & Hr & Hm' & ->); exists row, m'; (split; [done|]).
    + rewrite <- Hkeep by by eapply (ok_published s Hok). done.
    + by rewrite Hkeep by by eapply (ok_published s Hok).
Qed.

Lemma set_status_ok e service status actor s r s' :
  registry_ok s → SetPlatformServiceStatus e service status actor s = (r, s') → registry_ok s'.
Proof.
  intros Hok. unfold SetPlatformServiceStatus. rewrite bind_reject_run. destruct (_ || _); [by intros [= _ <-]|].
  destruct r as [n|err]; [|by intros ->%transaction_err]. rewrite transaction_ok.
  intros (rev & s1 & H1 & H)%bind_ok. apply (lockCatalogRevision_same e) in H1.
  assert (Hok1 : registry_ok s1) by by eapply registry_ok_same.
  rewrite bind_gets_ok, bind_row_ok in H. destruct H as (row & Hrow & H). rewrite bind_reject_ok in H.
  destruct H as [_ H]. case_bool_decide; [by injection H as _ <-|].
  apply bind_ok in H as ([] & s2 & [= <-] & H). apply bind_ok in H as (rev' & s3 & H3 & H).
  apply bumpCatalogRevision_same in H3. apply bind_ok in H as ([] & s4 & H4 & [= _ <-]).
  apply svc_audit_same in H4. eapply registry_ok_same; [etrans; [exact H3|exact H4]|]. clear H3 H4 s3.
  destruct (ok_published s1 Hok1 _ _ _ Hrow) as [m Hm].
  destruct (ok_manifest s1 Hok1 _ _ _ _ Hm) as (_ & Hne & Hn).
  eapply (registry_ok_put s1); [done|reflexivity|done|by left|exact Hm|done|done|].
  eapply well_formed_same; [apply (ok_catalog s1 Hok1 e)|]. apply same_options_perm.
  rewrite <- options_of_put. apply options_of_perm, published_put. intros svc o. rewrite !published_spec.
  split; [|by intros [[-> ->]|[_ ?]]; eauto].
  intros (row' & m' & Hr & Hm' & ->). destruct (decide (svc = service)) as [->|]; [left|right; eauto 6].
  split; [done|]. congruence.
Qed.

Lemma publish_ok service v v' p t s r s' :
  registry_ok s → PublishPlatformServiceManifest service v v' p t s = (r, s') → registry_ok s'.
Proof.
  intros Hok. unfold PublishPlatformServiceManifest. rewrite bind_reject_run. destruct (_ || _); [by intros [= _ <-]|].
  destruct r as [n|err]; [|by intros ->%transaction_err]. rewrite transaction_ok.
  intros (rev & s1 & H1 & H)%bind_ok. apply lockCatalogRevision_same in H1.
  assert (Hok1 : registry_ok s1) by by eapply registry_ok_same.
  rewrite bind_gets_ok, bind_reject_ok, bind_row_ok in H. destruct H as (_ & row & Hrow & H).
  rewrite bind_reject_ok, bind_row_ok in H. destruct H as (_ & m & Hm & H).
  destruct (ok_manifest s1 Hok1 _ _ _ _ Hm) as (_ & Hne & Hn).
  apply bind_ok in H as ([] & s2 & Hv & H).
  apply validateManifestDependencies_ok in Hv as [-> Hwf];
    [|intros owner; by apply ok_owner|apply (ok_catalog s1 Hok1)|done].
  rewrite bind_reject_ok in H. destruct H as [_ H]. apply bind_ok in H as ([] & s2 & [= <-] & H).
  apply bumpCatalogRevision_same in H. eapply registry_ok_same; [exact H|].
  eapply (registry_ok_put s1); [done|reflexivity|done|by left|exact Hm|done|done|done].
Qed.

Lemma ensure_manifest_ok e digest options r s u s' :
  registry_ok s → NoDup (PO_Code <$> Reg_Options r) → ensure_manifest e digest options r s = (Ok u, s') →
  (s' = s ∧ is_Some (platform_service_manifests s !! (e, Reg_ServiceID r, Reg_ManifestVersion r))) ∨
  platform_service_manifests s !! (e, Reg_ServiceID r, Reg_ManifestVersion r) = None ∧
  (∃ m, Manifest_options m = options ∧
     s' = with_manifests (<[(e, Reg_ServiceID r, Reg_ManifestVersion r) := m]> (platform_service_manifests s)) s) ∧
  well_formed (options_of (others (Reg_ServiceID r) (published e s)) ++ Reg_Options r).
Proof.
  intros Hok Hn. unfold ensure_manifest. rewrite bind_gets_ok, bind_reject_ok.
  set (key := (e, Reg_ServiceID r, Reg_ManifestVersion r)). intros [_ H]. case_bool_decide as Hx.
  - apply bind_ok in H as ([] & s1 & Hv & H).
    apply validateManifestDependencies_ok in Hv as [-> Hwf];
      [|intros owner; by apply ok_owner|apply (ok_catalog s Hok)|done].
    rewrite bind_reject_ok in H. destruct H as [Hnone [= _ <-]]. right.
    apply bool_decide_eq_false, eq_None_not_Some in Hnone. split; [done|]. split; [|done].
    eexists. split; [|reflexivity]. done.
  - injection H as _ <-. left. split; [done|]. destruct (platform_service_manifests s !! key); [done|]. by destruct Hx.
Qed.

Lemma register_ok r p t s res s' :
  registry_ok s → RegisterPlatformServiceInstance r p t s = (res, s') → registry_ok s'.
Proof.
  intros Hok. unfold RegisterPlatformServiceInstance.
  destruct (ValidatePlatformServiceRegistration r) as [[]|e0] eqn:Hval; [|by intros [= _ <-]].
  apply validated_registration in Hval as [Hne Hn].
  change (lift_res (Ok tt) ≫= ?k) with (k tt). cbv beta zeta.
  destruct (manifestDigest r) as [digest options] eqn:Hdig.
  assert (options = normalized_options (Reg_Options r)) as -> by (by injection Hdig as _ <-). clear Hdig.
  set (e := Principal_Environment p).
  destruct res as [l|err]; [|by intros ->%transaction_err]. rewrite transaction_ok.
  intros (rev & s1 & H1 & H)%bind_ok. apply lockCatalogRevision_same in H1.
  assert (Hok1 : registry_ok s1) by by eapply registry_ok_same. clear H1 Hok s.
  apply bind_ok in H as ([] & s2 & H2 & H). apply (read_only_ok _ _ _ _ (requireWorkload_read _ _ _ _)) in H2 as ->.
  apply bind_ok in H as ([] & s2 & H2 & H). apply record_request_same in H2.
  assert (Hok2 : registry_ok s2) by by eapply registry_ok_same. clear H2 Hok1 s1.
  apply bind_ok in H as ([] & s3 & H3 & H). apply bind_ok in H as (created & s4 & H4 & H).
  assert (Hok4 : registry_ok s4).
  { clear H. unfold ensure_service in H4. rewrite bind_gets_ok in H4.
    assert (Hnn : NoDup (PO_Code <$> normalized_options (Reg_Options r))).
    { destruct (normalized_same [] (Reg_Options r)) as [Hp _]. simpl in Hp. by rewrite <- Hp. }
    apply ensure_manifest_ok in H3 as [[-> Hsome]|(Hnone & (m & Hm & ->) & Hwf)]; [| |done|done].
    - destruct Hsome as [m Hm]. destruct (ok_manifest s2 Hok2 _ _ _ _ Hm) as ([row Hrow] & _).
      rewrite Hrow in H4. by injection H4 as _ <-.
    - simpl in H4. destruct (platform_services s2 !! (e, Reg_ServiceID r)) as [row|] eqn:Hrow.
      + injection H4 as _ <-. eapply (registry_ok_manifest s2); [done|reflexivity|reflexivity|done|done|done|].
        by rewrite Hm.
      + apply bind_ok in H4 as ([] & s5 & [= <-] & [= _ <-]).
        eapply (registry_ok_put s2); [done|reflexivity| | | |done| |].
        * intros k [x Hx]. simpl. rewrite lookup_insert_ne; [done|]. intros <-. congruence.
        * intros e' svc v m'. simpl.
          destruct (decide ((e', svc, v) = (e, Reg_ServiceID r, Reg_ManifestVersion r))) as [[= -> -> ->]|Hd].
          -- rewrite lookup_insert_eq. intros [= <-]. by right.
          -- rewrite lookup_insert_ne by congruence. by left.
        * simpl. apply lookup_insert_eq.
        * by rewrite Hm.
        * rewrite Hm. eapply well_formed_same; [exact Hwf|]. apply normalized_same. }
  rewrite bind_gets_ok in H. apply bind_ok in H as ([] & s5 & H5 & H). apply upsert_instance_same in H5.
  apply bind_ok in H as (rev' & s6 & H6 & [= _ <-]).
  eapply registry_ok_same; [|exact Hok4]. etrans; [exact H5|].
  destruct (_ || _) in H6; [by apply bumpCatalogRevision_same in H6|by injection H6 as _ <-].
Qed.

Lemma registry_invariant s : registry_reachable s → registry_ok s.
Proof.
  induction 1 as [db|s q _ IH]; [apply registry_ok_empty|].
  destruct q; simpl;
    [eapply registry_ok_same; [eapply approve_same, surjective_pairing|done]
    |eapply registry_ok_same; [eapply revoke_same, surjective_pairing|done]
    |eapply set_status_ok, surjective_pairing; done
    |eapply register_ok, surjective_pairing; done
    |eapply publish_ok, surjective_pairing; done
    |eapply registry_ok_same; [eapply heartbeat_same, surjective_pairing|done]
    |eapply registry_ok_same; [eapply deregister_same, surjective_pairing|done]
    |eapply registry_ok_same; [|exact IH]; by split].
Qed.

(** ** What is published, and what runs *)

(** The published option [c] requires [d]. *)
Definition requires_option (options : list PlatformServiceOption) (c d : string) : Prop :=
  ∃ o, o ∈ options ∧ PO_Code o = c ∧ d ∈ PO_Requires o.

(** An active service whose published manifest has the option has a ready instance of that version
    with a running lease. *)
Definition running (environment : string) (now_ : Time) (s : ServiceDB) (code : string) : Prop :=
  ∃ service row m o key i,
    platform_services s !! (environment, service) = Some row ∧ Service_status row = "active" ∧
    platform_service_manifests s !! (environment, service, Service_published_version row) = Some m ∧
    o ∈ Manifest_options m ∧ PO_Code o = code ∧
    platform_service_instances s !! (environment, service, key) = Some i ∧
    Instance_manifest_version i = Service_published_version row ∧ Instance_ready i = true ∧
    After (Instance_lease_expires_at i) (pg_timestamptz now_) = true.

Lemma option_of_code_unique options o o' : NoDup (PO_Code <$> options) →
  o ∈ options → o' ∈ options → PO_Code o = PO_Code o' → o = o'.
Proof.
  intros Hn [i Hi]%list_elem_of_lookup [j Hj]%list_elem_of_lookup E.
  assert (i = j) as ->; [|congruence]. eapply (NoDup_lookup _ i j); [exact Hn| |];
    rewrite list_lookup_fmap; [by rewrite Hi|by rewrite Hj, E].
Qed.

Lemma instances_of_spec e svc v s i : i ∈ instances_of e svc v s ↔
  ∃ key, platform_service_instances s !! (e, svc, key) = Some i ∧ Instance_manifest_version i = v.
Proof.
  unfold instances_of. rewrite list_elem_of_omap. split.
  - intros ([[[e' svc'] key] i'] & Hin%elem_of_map_to_list & H).
    destruct (_ && _) eqn:E in H; [|done]. injection H as ->. destruct_bools. subst. eauto.
  - intros (key & Hi & Hv). exists ((e, svc, key), i). split; [by apply elem_of_map_to_list|].
    by rewrite !bool_decide_true.
Qed.

Definition option_pair (o : PlatformServiceOption) : string * list string := (PO_Code o, PO_Requires o).
Definition entry_pair (o : PlatformServiceCatalogOption) : string * list string :=
  (Option_Code o, Option_Requires o).

Lemma catalog_entries_spec e t s o' : o' ∈ catalog_entries e t s ↔
  ∃ service row options o, (service, row, options) ∈ service_rows e s ∧ o ∈ options ∧
    let is_live := existsb (live t) (instances_of e service (Service_published_version row) s) in
    o' = catalog_entry service (Service_published_version row)
           (bool_decide (Service_status row = "active") && is_live)
           (unavailable_reason (Service_status row) is_live
              (existsb Instance_ready (instances_of e service (Service_published_version row) s))) o.
Proof.
  unfold catalog_entries. rewrite list_elem_of_bind. split.
  - intros ([[svc row] options] & (o & -> & Ho)%list_elem_of_fmap & Hr%elem_of_order_by).
    by exists svc, row, options, o.
  - intros (svc & row & options & o & Hr & Ho & ->). exists (svc, row, options). split.
    + apply list_elem_of_fmap. eauto.
    + by apply elem_of_order_by.
Qed.

Lemma catalog_pairs e t s :
  entry_pair <$> catalog_entries e t s ≡ₚ option_pair <$> options_of (published e s).
Proof.
  unfold catalog_entries. rewrite (order_by_perm _ (service_rows e s)).
  apply reflexive_eq. unfold published, options_of.
  induction (service_rows e s) as [|[[svc row] options] rows IH]; simpl; [done|].
  rewrite !fmap_app. f_equal; [|apply IH]. rewrite <- list_fmap_compose. done.
Qed.

Lemma catalog_codes e t s : Option_Code <$> catalog_entries e t s ≡ₚ PO_Code <$> options_of (published e s).
Proof.
  pose proof (fmap_Permutation fst _ _ (catalog_pairs e t s)) as H.
  by rewrite <- !list_fmap_compose in H.
Qed.

Lemma catalog_pair_elem e t s c rs :
  (∃ o, o ∈ catalog_entries e t s ∧ Option_Code o = c ∧ Option_Requires o = rs) ↔
  (∃ o, o ∈ options_of (published e s) ∧ PO_Code o = c ∧ PO_Requires o = rs).
Proof.
  transitivity ((c, rs) ∈ entry_pair <$> catalog_entries e t s).
  - rewrite list_elem_of_fmap. unfold entry_pair. naive_solver.
  - rewrite (catalog_pairs e t s), list_elem_of_fmap. unfold option_pair. naive_solver.
Qed.

Lemma catalog_depends e t s c d :
  depends (catalog_entries e t s) c d ↔ requires_option (options_of (published e s)) c d.
Proof.
  unfold depends, requires_option. split.
  - intros (o & Ho & Hc & Hd). destruct (proj1 (catalog_pair_elem e t s c (Option_Requires o))) as (o' & ? & ? & E); [eauto|].
    exists o'. by rewrite E.
  - intros (o & Ho & Hc & Hd). destruct (proj2 (catalog_pair_elem e t s c (PO_Requires o))) as (o' & ? & ? & E); [eauto|].
    exists o'. by rewrite E.
Qed.

Lemma catalog_offered e t s d : offered (catalog_entries e t s) d ↔ running e t s d.
Proof.
  unfold offered, running. split.
  - intros (o' & (svc & row & options & o & (m & Hr & Hm & ->)%service_rows_spec & Ho & ->)%catalog_entries_spec & Hc & Hs).
    simpl in *. destruct_bools.
    match goal with H : existsb _ _ = true |- _ => apply existsb_exists in H as (i & Hi%list_elem_of_In & Hl) end.
    apply instances_of_spec in Hi as (key & Hi & Hv). unfold live in Hl. destruct_bools.
    exists svc, row, m, o, key, i. done.
  - intros (svc & row & m & o & key & i & Hr & Hst & Hm & Ho & Hc & Hi & Hv & Hready & Hl).
    eexists. split; [apply catalog_entries_spec; exists svc, row, (Manifest_options m), o|].
    + split; [apply service_rows_spec; eauto|]. split; [done|]. reflexivity.
    + simpl. split; [done|]. rewrite bool_decide_true by done. simpl. apply existsb_exists. exists i. split.
      * apply list_elem_of_In, instances_of_spec. eauto.
      * unfold live. by rewrite Hready, Hl.
Qed.

Lemma available_running e t s c : available_code (catalog_entries e t s) c ↔
  ∀ d, rtc (requires_option (options_of (published e s))) c d → running e t s d.
Proof.
  unfold available_code. split; intros H d Hd.
  - apply catalog_offered, H. eapply rtc_subrel; [|exact Hd]. intros x y. by apply catalog_depends.
  - apply catalog_offered, H. eapply rtc_subrel; [|exact Hd]. intros x y. by apply catalog_depends.
Qed.

Lemma catalog_build_order e t s : registry_ok s →
  NoDup (Option_Code <$> catalog_entries e t s) ∧
  ∃ L, build_order (catalog_requirements (catalog_entries e t s)) L ∧
    ∀ o, o ∈ catalog_entries e t s → Option_Code o ∈ L.
Proof.
  intros Hok. destruct (ok_catalog s Hok e) as [Hn (L & Hb & Hall) _].
  assert (Hn' : NoDup (Option_Code <$> catalog_entries e t s)) by by rewrite catalog_codes.
  split; [done|].
  assert (Hg : catalog_requirements (catalog_entries e t s) = option_requirements (options_of (published e s))).
  { unfold catalog_requirements, option_requirements. apply list_to_map_proper; [|apply catalog_pairs].
    rewrite <- list_fmap_compose. exact Hn'. }
  exists L. split; [by rewrite Hg|]. intros o Ho. apply Hall, dom_option_requirements.
  rewrite <- (catalog_codes e t s). apply list_elem_of_fmap. eauto.
Qed.

Lemma read_catalog e t s : registry_ok s →
  let entries := catalog_entries e t s in
  readPlatformServiceOptions e t s = (Ok (mkCatalog (default 1 (catalog_revisions s !! e)) (resolve entries)), s) ∧
  Forall2 (settled entries) entries (resolve entries) ∧
  (∀ o', o' ∈ resolve entries → Option_Selectable o' = true ↔
     ∀ d, rtc (requires_option (options_of (published e s))) (Option_Code o') d → running e t s d).
Proof.
  intros Hok entries. destruct (catalog_build_order e t s Hok) as (Hn & L & Hb & Ha).
  pose proof (resolve_spec _ _ Hn Hb Ha) as Hs. split; [done|]. split; [done|].
  intros o' Ho'. rewrite <- available_running.
  apply list_elem_of_lookup in Ho' as [i Hi]. destruct (Forall2_lookup_r _ _ _ _ _ Hs Hi) as (o & Ho & Hset).
  assert (Option_Code o' = Option_Code o) as -> by by destruct Hset as [[_ ->]|[_ ->]].
  eapply settled_selectable; [exact Hn|by eapply list_elem_of_lookup_2|done].
Qed.

Lemma settled_fmap {A} (f : PlatformServiceCatalogOption → A) entries l l' :
  (∀ o, f (dependency_unavailable o) = f o) → Forall2 (settled entries) l l' → f <$> l' = f <$> l.
Proof. intros Hf. induction 1 as [|o o' l l' [[_ ->]|[_ ->]] _ IH]; [done| |]; by rewrite !fmap_cons, IH, ?Hf. Qed.

(** C18: In every run of the registry, whatever was registered, published or withdrawn, and in whatever
    order: the options published in an environment have one owner each, what an option requires is
    published too, no option requires itself, directly or indirectly, and every option other than MQTT
    requires MQTT. *)
Theorem published_catalog_well_formed s environment : registry_reachable s →
  let options := options_of (published environment s) in
  NoDup (PO_Code <$> options) ∧
  (∀ o d, o ∈ options → d ∈ PO_Requires o → ∃ o', o' ∈ options ∧ PO_Code o' = d) ∧
  (∀ c, ¬ tc (requires_option options) c c) ∧
  (∀ o, o ∈ options → PO_Code o = "mqtt" ∨ "mqtt" ∈ PO_Requires o).
Proof.
  intros Hr options. destruct (ok_catalog s (registry_invariant s Hr) environment) as [Hn Hb Hm].
  fold options in Hn, Hb, Hm. split; [done|]. split; [|split; [|done]].
  - intros o d Ho Hd. destruct Hb as (L & Hb & Hall).
    assert (Hin : d ∈ PO_Code <$> options).
    { apply dom_option_requirements. eapply build_order_dom; [exact Hb|].
      eapply build_order_requires; [exact Hb| |by rewrite option_requirements_lookup].
      apply Hall, dom_option_requirements, list_elem_of_fmap. eauto. }
    apply list_elem_of_fmap in Hin as (o' & -> & Ho'). eauto.
  - intros c Hc.
    assert (Hsub : ∀ x y, requires_option options x y → y ∈ requires (option_requirements options) x).
    { intros x y (o & Ho & <- & Hd). by rewrite option_requirements_lookup. }
    eapply buildable_acyclic; [exact Hb| |by eapply tc_mono].
    apply dom_option_requirements. clear Hb. inversion Hc as [x y (o & Ho & <- & _)|x y z (o & Ho & <- & _) _];
      subst; apply list_elem_of_fmap; eauto.
Qed.

(** C19: In every run of the registry, the catalog lists the published options, and an option can be
    selected exactly when the option itself and everything it requires, directly or indirectly, is
    offered by an active service that has a ready instance of its published version with a running
    lease.  Reading the catalog changes nothing. *)
Theorem catalog_offers_what_runs s environment now_ : registry_reachable s → ∃ c,
  readPlatformServiceOptions environment now_ s = (Ok c, s) ∧
  Option_Code <$> Catalog_Options c ≡ₚ PO_Code <$> options_of (published environment s) ∧
  (∀ o', o' ∈ Catalog_Options c → Option_Selectable o' = true ↔
     ∀ d, rtc (requires_option (options_of (published environment s))) (Option_Code o') d →
       running environment now_ s d).
Proof.
  intros Hr%registry_invariant. destruct (read_catalog environment now_ s Hr) as (H1 & H2 & H3).
  eexists. split; [exact H1|]. simpl. split; [|done].
  rewrite <- (catalog_codes environment now_ s). apply reflexive_eq. by eapply settled_fmap.
Qed.

(** ** Selections *)

(** The state [lockCatalogRevision] leaves. *)
Definition locked (environment : string) (s : ServiceDB) : ServiceDB :=
  match catalog_revisions s !! environment with
  | Some _ => s
  | None => with_revisions (<[environment := 1]> (catalog_revisions s)) s
  end.

Lemma lock_run e s : lockCatalogRevision e s = (Ok (default 1 (catalog_revisions s !! e)), locked e s).
Proof. unfold lockCatalogRevision, locked. run_simpl. by destruct (catalog_revisions s !! e). Qed.
Lemma lock_bind {A} e (k : Z → Svc A) s :
  (lockCatalogRevision e ≫= k) s = k (default 1 (catalog_revisions s !! e)) (locked e s).
Proof. unfold mbind, M_bind. by rewrite lock_run. Qed.
Lemma locked_same e s : same_manifests s (locked e s).
Proof. unfold locked. destruct (catalog_revisions s !! e); by split. Qed.
Lemma locked_running e e' t s c : running e' t (locked e s) c ↔ running e' t s c.
Proof. unfold locked. by destruct (catalog_revisions s !! e). Qed.
Lemma locked_revision e e' s :
  default 1 (catalog_revisions (locked e s) !! e') = default 1 (catalog_revisions s !! e').
Proof.
  unfold locked. destruct (catalog_revisions s !! e) eqn:E; [done|]. simpl.
  destruct (decide (e' = e)) as [->|Hne]; [by rewrite lookup_insert_eq, E|by rewrite lookup_insert_ne].
Qed.

Lemma bind_options_ok catalog options bindings : bind_options catalog options = Ok bindings →
  Option_Code <$> bindings = options ∧
  ∀ b, b ∈ bindings → b ∈ catalog ∧ Option_Selectable b = true.
Proof.
  revert bindings. induction options as [|code options IH]; intros bindings; simpl.
  { intros [= <-]. split; [done|by intros b ?%elem_of_nil]. }
  destruct (head _) as [o|] eqn:Hh; [|done]. destruct (negb _) eqn:Hs; [done|]. apply negb_false_iff in Hs.
  intros (bs & Hbs & [= <-])%res_bind_ok. destruct (IH _ Hbs) as [<- Hall].
  assert (Ho : o ∈ filter (λ o, Option_Code o = code) catalog).
  { destruct (filter _ catalog); [done|]. injection Hh as ->. by left. }
  apply list_elem_of_filter in Ho as [Hc Ho]. simpl. split; [by rewrite Hc|].
  intros b [->|Hb]%elem_of_cons; auto.
Qed.

(** C20: A selection that is accepted is one the platform can deliver at that time: the options are
    distinct, MQTT is among them and so is everything each of them requires; the bindings are one per
    option, in the order of the codes; every option runs, with all it requires; and the catalog the
    caller saw is still the current one. *)
Theorem selection_is_deliverable s environment options revision now_ bindings s' :
  registry_reachable s →
  validateProductServiceSelectionTx true environment options revision now_ s = (Ok (Some bindings), s') →
  NoDup options ∧ "mqtt" ∈ options ∧ Option_Code <$> bindings ≡ₚ options ∧
  Option_Code <$> bindings = slices_Sort options ∧
  Sorted (λ a b, before_string a b = true) (Option_Code <$> bindings) ∧
  (∀ b d, b ∈ bindings → d ∈ Option_Requires b → d ∈ options) ∧
  (∀ code d, code ∈ options → rtc (requires_option (options_of (published environment s))) code d →
     running environment now_ s d) ∧
  revision = default 1 (catalog_revisions s !! environment).
Proof.
  intros Hr%registry_invariant. unfold validateProductServiceSelectionTx. change (negb true) with false. cbv iota.
  rewrite bind_reject_ok, lock_bind. set (s1 := locked environment s). intros [_ H].
  assert (Hr1 : registry_ok s1) by (eapply registry_ok_same; [apply locked_same|done]).
  destruct (read_catalog environment now_ s1 Hr1) as (Hread & Hset & Hsel).
  apply bind_ok in H as (c & s2 & Hc & H). rewrite Hread in Hc. injection Hc as <- <-.
  rewrite bind_reject_ok, bind_lift_ok in H. destruct H as (Hrev & bs & Hv & [= -> <-]).
  apply negb_false_iff, Z.eqb_eq in Hrev. simpl in Hrev, Hv.
  unfold validateProductServiceSelection in Hv. destruct (_ || _) eqn:Hopt in Hv; [done|]. destruct_bools.
  apply res_bind_ok in Hv as (bs0 & Hb & Hv). apply bind_options_ok in Hb as [Hcodes Hb].
  destruct (negb _) eqn:Hreq in Hv; [done|]. apply negb_false_iff in Hreq. injection Hv as <-.
  assert (Hopts : NoDup options).
  { destruct (validateProductServiceOptions options) as [[]|] eqn:E; [|done].
    by apply validateProductServiceOptions_ok in E as [? _]. }
  assert (Option_Code <$> sort_bindings bs0 = slices_Sort options) as Hsort
    by by rewrite sort_bindings_codes, Hcodes.
  split; [done|]. split; [done|]. rewrite Hsort. split; [apply slices_Sort_perm|]. split; [done|].
  split; [apply slices_Sort_sorted|]. split; [|split].
  - intros b d Hb'%elem_of_order_by Hd. unfold requires_selected in Hreq.
    rewrite forallb_forall in Hreq. specialize (Hreq b (proj1 (list_elem_of_In _ _) Hb')).
    rewrite forallb_forall in Hreq. specialize (Hreq d (proj1 (list_elem_of_In _ _) Hd)). by destruct_bools.
  - intros code d Hcode Hd. rewrite <- Hcodes in Hcode. apply list_elem_of_fmap in Hcode as (b & -> & Hb').
    destruct (Hb b Hb') as [Hin Hs]. apply (locked_running environment). fold s1. apply (proj1 (Hsel b Hin) Hs).
    by rewrite (same_manifests_published s s1) by apply locked_same.
  - subst s1. rewrite <- Hrev. apply locked_revision.
Qed.

(** ** The revision counts the changes *)

Definition catalog_revision (environment : string) (s : ServiceDB) : Z :=
  default 1 (catalog_revisions s !! environment).

Definition request_environment (q : registry_request) : option string :=
  match q with
  | RqApprove a => Some (Approval_Environment a)
  | RqRevoke a _ => Some (Revocation_Environment a)
  | RqSetStatus e _ _ _ => Some e
  | RqRegister _ p _ | RqPublish _ _ _ p _ | RqHeartbeat _ _ _ _ p _ | RqDeregister _ _ p _ =>
      Some (Principal_Environment p)
  | RqDatabase _ => None
  end.
Definition request_time (q : registry_request) : option Time :=
  match q with
  | RqRevoke _ t | RqRegister _ _ t | RqPublish _ _ _ _ t | RqHeartbeat _ _ _ _ _ t | RqDeregister _ _ _ t => Some t
  | _ => None
  end.

(** The catalog as it is, or a higher revision. *)
Definition counted (e : string) (t : Time) (s s' : ServiceDB) : Prop :=
  (catalog_entries e t s' = catalog_entries e t s ∧ catalog_revision e s' = catalog_revision e s) ∨
  catalog_revision e s < catalog_revision e s'.

Lemma counted_refl e t s : counted e t s s.
Proof. by left. Qed.

Lemma counted_trans e t s1 s2 s3 : counted e t s1 s2 → counted e t s2 s3 → counted e t s1 s3.
Proof. intros [[E1 R1]|R1] [[E2 R2]|R2]; [left; split; congruence|right; lia..]. Qed.

Lemma locked_entries e t s : catalog_entries e t (locked e s) = catalog_entries e t s.
Proof. unfold locked. by destruct (catalog_revisions s !! e). Qed.

Lemma counted_locked e t s s' : counted e t (locked e s) s' → counted e t s s'.
Proof. unfold counted, catalog_revision. by rewrite locked_entries, locked_revision. Qed.

(** The tables the catalog is made of. *)
Lemma entries_same e t s s' :
  service_rows e s' = service_rows e s →
  (∀ svc v, existsb (live t) (instances_of e svc v s') = existsb (live t) (instances_of e svc v s) ∧
            existsb Instance_ready (instances_of e svc v s') = existsb Instance_ready (instances_of e svc v s)) →
  catalog_entries e t s' = catalog_entries e t s.
Proof.
  intros Hr Hi. unfold catalog_entries. rewrite Hr. apply list_bind_ext; [|done].
  intros [[svc row] options]. unfold service_entries.
  by destruct (Hi svc (Service_published_version row)) as [-> ->].
Qed.

Lemma bump_ok e s r s' : bumpCatalogRevision e s = (Ok r, s') →
  r = catalog_revision e s + 1 ∧ catalog_revision e s' = catalog_revision e s + 1.
Proof.
  unfold bumpCatalogRevision, catalog_revision. rewrite bind_gets_ok, bind_row_ok.
  intros (n & Hn & H). rewrite bind_reject_ok in H. destruct H as [_ H].
  apply bind_ok in H as ([] & s1 & [= <-] & [= <- <-]). simpl. by rewrite lookup_insert_eq, Hn.
Qed.

Lemma counted_bump e t s s1 r s' :
  catalog_revision e s1 = catalog_revision e s → bumpCatalogRevision e s1 = (Ok r, s') → counted e t s s'.
Proof. intros E [_ H]%bump_ok. right. lia. Qed.

Lemma counted_bump_db e t s s1 r s' db :
  catalog_revision e s1 = catalog_revision e s → bumpCatalogRevision e s1 = (Ok r, s') →
  counted e t s (with_svc_db db s').
Proof.
  intros E [_ H]%bump_ok. right. change (catalog_revision e (with_svc_db db s')) with (catalog_revision e s'). lia.
Qed.

Lemma svc_audit_ok ev actor ty i p s u s' : svc_audit ev actor ty i p s = (Ok u, s') →
  ∃ db, s' = with_svc_db db s.
Proof. unfold svc_audit, zoom. destruct (create_audit_event _ _ _ _ _ _ _). intros [= _ <-]. eauto. Qed.

(** An instance that is as ready and as live as before. *)
Lemma existsb_put (f : InstanceRow → bool) e svc v s key i i' :
  platform_service_instances s !! key = Some i →
  Instance_manifest_version i' = Instance_manifest_version i → f i' = f i →
  existsb f (instances_of e svc v (with_instances (<[key := i']> (platform_service_instances s)) s)) =
  existsb f (instances_of e svc v s).
Proof.
  intros Hi Hv Hf. apply eq_true_iff_eq. rewrite !existsb_exists.
  split; intros (j & Hj%list_elem_of_In%instances_of_spec & Hfj); destruct Hj as (k & Hk & Hver).
  - simpl in Hk. destruct (decide ((e, svc, k) = key)) as [<-|Hne].
    + rewrite lookup_insert_eq in Hk. injection Hk as <-. exists i. rewrite <- Hf. split; [|done].
      apply list_elem_of_In, instances_of_spec. exists k. by rewrite <- Hv.
    + rewrite lookup_insert_ne in Hk by done. exists j. split; [|done].
      apply list_elem_of_In, instances_of_spec. eauto.
  - destruct (decide ((e, svc, k) = key)) as [<-|Hne].
    + exists i'. rewrite Hf. assert (j = i) as -> by congruence. split; [|done].
      apply list_elem_of_In, instances_of_spec. exists k. simpl. rewrite lookup_insert_eq. by rewrite Hv.
    + exists j. split; [|done]. apply list_elem_of_In, instances_of_spec. exists k. simpl.
      by rewrite lookup_insert_ne.
Qed.

Lemma lease_live t ready i : Instance_ready i = ready → Instance_lease_expires_at i = pg_timestamptz (GoTime.Add t PlatformServiceLeaseDuration) →
  live t i = ready.
Proof.
  intros Hr Hl. unfold live. rewrite Hr, Hl. replace (After _ _) with true; [by rewrite andb_true_r|]. symmetry.
  unfold After, pg_timestamptz, UTC, Truncate_us, GoTime.Add, PlatformServiceLeaseDuration, Second. simpl.
  apply Z.ltb_lt. pose proof (Z.div_mod (t_nanos t) 1000 ltac:(lia)).
  pose proof (Z.div_mod (t_nanos t + 90 * 1000000000) 1000 ltac:(lia)).
  pose proof (Z.mod_pos_bound (t_nanos t) 1000 ltac:(lia)).
  pose proof (Z.mod_pos_bound (t_nanos t + 90 * 1000000000) 1000 ltac:(lia)). 
  unfold Microsecond in *. lia.
Qed.

Lemma unexpired_live t i : (Instance_ready i && negb (After (Instance_lease_expires_at i) t)) = false →
  live t i = Instance_ready i.
Proof.
  unfold live. destruct (Instance_ready i); [|done]. simpl. intros H%negb_false_iff.
  unfold After, pg_timestamptz, UTC, Truncate_us in *. simpl in *. apply Z.ltb_lt in H. apply Z.ltb_lt.
  pose proof (Z.mod_pos_bound (t_nanos t) 1000 ltac:(lia)). unfold Microsecond in *. lia.
Qed.

Lemma put_instance_counted e t s key i i' :
  platform_service_instances s !! key = Some i → Instance_manifest_version i' = Instance_manifest_version i →
  Instance_ready i' = Instance_ready i → live t i' = live t i →
  counted e t s (with_instances (<[key := i']> (platform_service_instances s)) s).
Proof.
  intros Hi Hv Hr Hl. left. split; [|done]. apply entries_same; [done|].
  intros svc v. by rewrite !(existsb_put _ e svc v s key i i').
Qed.

Lemma set_status_counted e t service status actor s r s' :
  SetPlatformServiceStatus e service status actor s = (Ok r, s') → counted e t s s'.
Proof.
  unfold SetPlatformServiceStatus. rewrite bind_reject_ok, transaction_ok, lock_bind. intros [_ H].
  apply counted_locked. rewrite bind_gets_ok, bind_row_ok in H. destruct H as (row & Hrow & H).
  rewrite bind_reject_ok in H. destruct H as [_ H]. case_bool_decide; [injection H as _ <-; apply counted_refl|].
  apply bind_ok in H as ([] & s2 & [= <-] & H). apply bind_ok in H as (r' & s3 & Hb & H).
  apply bind_ok in H as ([] & s4 & Ha & [= _ <-]). apply svc_audit_ok in Ha as (db & ->).
  by eapply counted_bump_db; [|exact Hb].
Qed.

Lemma publish_counted t service v v' p s r s' :
  PublishPlatformServiceManifest service v v' p t s = (Ok r, s') → counted (Principal_Environment p) t s s'.
Proof.
  unfold PublishPlatformServiceManifest. rewrite bind_reject_ok, transaction_ok, lock_bind. intros [_ H].
  apply counted_locked. rewrite bind_gets_ok, bind_reject_ok, bind_row_ok in H. destruct H as (_ & row & _ & H).
  rewrite bind_reject_ok, bind_row_ok in H. destruct H as (_ & m & _ & H).
  apply bind_ok in H as ([] & s2 & Hv & H). rewrite bind_reject_ok in H. destruct H as [_ H].
  assert (s2 = locked (Principal_Environment p) s) as ->.
  { unfold validateManifestDependencies in Hv. rewrite bind_gets_ok, bind_reject_ok, bind_lift_ok in Hv.
    destruct Hv as (_ & _ & _ & Hv). by apply lift_res_ok in Hv as [_ ->]. }
  apply bind_ok in H as ([] & s2 & [= <-] & H). by eapply counted_bump; [|exact H].
Qed.

Lemma revoke_counted a t s r s' :
  RevokePlatformServiceWorkload a t s = (Ok r, s') → counted (Revocation_Environment a) t s s'.
Proof.
  unfold RevokePlatformServiceWorkload. rewrite bind_reject_ok, transaction_ok, lock_bind. intros [_ H].
  apply counted_locked. rewrite bind_gets_ok, bind_row_ok in H. destruct H as (w & _ & H).
  apply bind_ok in H as ([] & s2 & [= <-] & H). apply bind_ok in H as ([] & s3 & [= <-] & H).
  apply bind_ok in H as (n & s4 & Hb & Ha). apply svc_audit_ok in Ha as (db & ->).
  by eapply counted_bump_db; [|exact Hb].
Qed.

Lemma deregister_counted service i p t s r s' :
  DeregisterPlatformServiceInstance service i p t s = (Ok r, s') → counted (Principal_Environment p) t s s'.
Proof.
  unfold DeregisterPlatformServiceInstance. rewrite transaction_ok, lock_bind. intros H. apply counted_locked.
  apply bind_ok in H as ([] & s2 & H2 & H). apply (read_only_ok _ _ _ _ (requireWorkload_read _ _ _ _)) in H2 as ->.
  rewrite bind_gets_ok, bind_row_ok in H. destruct H as (row & _ & H).
  apply bind_ok in H as ([] & s3 & [= <-] & H). apply bind_ok in H as (n & s4 & Hb & [= _ <-]).
  by eapply counted_bump; [|exact Hb].
Qed.

Lemma heartbeat_counted service i version ready p t s r s' :
  HeartbeatPlatformServiceInstance service i version ready p t s = (Ok r, s') →
  counted (Principal_Environment p) t s s'.
Proof.
  unfold HeartbeatPlatformServiceInstance. rewrite transaction_ok, lock_bind. intros H. apply counted_locked.
  set (s1 := locked (Principal_Environment p) s) in *.
  apply bind_ok in H as ([] & s2 & H2 & H). apply (read_only_ok _ _ _ _ (requireWorkload_read _ _ _ _)) in H2 as ->.
  rewrite bind_gets_ok, bind_row_ok in H. destruct H as (row & Hrow & H).
  apply bind_ok in H as ([] & s3 & [= <-] & H). apply bind_ok in H as (n & s4 & Hb & [= _ <-]).
  destruct (_ || _) eqn:Hc in Hb; [by eapply counted_bump; [|exact Hb]|].
  injection Hb as _ <-. apply orb_false_iff in Hc as [Hr%negb_false_iff%eqb_prop Hl].
  unfold instance_at in Hrow. destruct (platform_service_instances s1 !! _) as [i0|] eqn:Hi; [|done].
  simpl in Hrow. case_bool_decide as Hv; [|done]. injection Hrow as ->.
  eapply put_instance_counted; [exact Hi|by rewrite Hv|by simpl|].
  rewrite (lease_live t ready) by done. by rewrite unexpired_live.
Qed.

Lemma service_rows_insert e key m s : registry_ok s → platform_service_manifests s !! key = None →
  service_rows e (with_manifests (<[key := m]> (platform_service_manifests s)) s) = service_rows e s.
Proof.
  intros Hok Hnone. unfold service_rows. apply list_omap_ext, Forall_Forall2_diag, Forall_forall.
  intros [[e0 svc] row] Hin%elem_of_map_to_list. case_bool_decide as He; [|done]. subst e0. simpl.
  rewrite lookup_insert_ne; [done|]. intros ->. destruct (ok_published s Hok _ _ _ Hin) as [x Hx]. congruence.
Qed.

Lemma register_counted r p t s l s' :
  registry_ok s → RegisterPlatformServiceInstance r p t s = (Ok l, s') → counted (Principal_Environment p) t s s'.
Proof.
  intros Hok. unfold RegisterPlatformServiceInstance. rewrite bind_lift_ok.
  intros ([] & Hval & H). apply validated_registration in Hval as [Hne Hn]. cbv beta zeta in H.
  destruct (manifestDigest r) as [digest options]. set (e := Principal_Environment p) in *.
  rewrite transaction_ok, lock_bind in H. apply counted_locked.
  assert (Hok1 : registry_ok (locked e s)) by (eapply registry_ok_same; [apply locked_same|done]).
  revert H; generalize (default 1 (catalog_revisions s !! e)); intros rev H.
  generalize dependent (locked e s). intros s1 Hok1 H. clear Hok s.
  apply bind_ok in H as ([] & s2 & H2 & H). apply (read_only_ok _ _ _ _ (requireWorkload_read _ _ _ _)) in H2 as ->.
  apply bind_ok in H as ([] & s2 & H2 & H).
  assert (Hreq : ∃ q, s2 = with_requests q s1).
  { unfold record_request in H2. rewrite bind_gets_ok in H2. destruct (registration_requests s1 !! _).
    - apply reject_if_ok in H2 as [_ ->]. exists (registration_requests s1). by destruct s1.
    - injection H2 as <-. eauto. }
  destruct Hreq as [q ->]. clear H2.
  apply bind_ok in H as ([] & s3 & H3 & H). apply bind_ok in H as (created & s4 & H4 & H).
  rewrite bind_gets_ok in H. apply bind_ok in H as ([] & s5 & H5 & H). apply bind_ok in H as (n & s6 & H6 & [= _ <-]).
  set (key := (e, Reg_ServiceID r, Reg_InstanceID r)) in *.
  assert (Hs5 : s5 = with_instances (<[key := mkInstance (Reg_ManifestVersion r) (Principal_CertificateSubject p)
      (Principal_IssuerFingerprint p) (Reg_Ready r) (pg_timestamptz (GoTime.Add t PlatformServiceLeaseDuration))
      (svc_now s4)]> (platform_service_instances s4)) s4).
  { unfold upsert_instance, key in H5. rewrite bind_gets_ok, !bind_reject_ok in H5.
    destruct H5 as (_ & _ & H5). by injection H5 as <-. }
  apply ensure_manifest_ok in H3; [|eapply registry_ok_same; [|exact Hok1]; by split|done].
  assert (Hrev : catalog_revision e s5 = catalog_revision e s1).
  { rewrite Hs5. unfold catalog_revision. simpl. unfold ensure_service in H4. rewrite bind_gets_ok in H4.
    destruct H3 as [[-> _]|(_ & (m & _ & ->) & _)]; simpl in H4;
      (destruct (platform_services s1 !! _); [by injection H4 as _ <-|]);
      by apply bind_ok in H4 as ([] & s7 & [= <-] & [= _ <-]). }
  destruct created; [simpl in H6; by eapply counted_bump|].
  destruct (instance_changed _ r t) eqn:Hch in H6; [simpl in H6; by eapply counted_bump|].
  injection H6 as _ <-. simpl in Hch. clear H5.
  assert (H4' : s4 = s3).
  { unfold ensure_service in H4. rewrite bind_gets_ok in H4.
    destruct (platform_services s3 !! _); [by injection H4 as ->|]. by apply bind_ok in H4 as ([] & s7 & _ & [=]). }
  subst s4. clear H4.
  assert (Hc13 : counted e t s1 s3).
  { destruct H3 as [[-> _]|(Hnone & (m & _ & ->) & _)]; [by left|]. left. split; [|done].
    apply entries_same; [|done].
    transitivity (service_rows e (with_requests q s1)); [|done]. apply service_rows_insert; [|exact Hnone].
    eapply registry_ok_same; [|exact Hok1]; by split. }
  assert (Hi3 : platform_service_instances s3 = platform_service_instances s1).
  { by destruct H3 as [[-> _]|(_ & (m & _ & ->) & _)]. }
  assert (Hc35 : counted e t s3 s5).
  { rewrite Hs5. unfold instance_changed in Hch. destruct (platform_service_instances s3 !! key) as [i|] eqn:Hi; [|done].
    apply orb_false_iff in Hch as [Hch Hl]. apply orb_false_iff in Hch as [Hv Hr]. destruct_bools.
    apply eqb_prop in Hr. eapply put_instance_counted; [exact Hi|by simpl|by simpl|].
    rewrite (lease_live t (Reg_Ready r)) by done. by rewrite unexpired_live. }
  eapply counted_trans; [exact Hc13|exact Hc35].
Qed.


Lemma approve_counted a e t s u s' : ApprovePlatformServiceWorkload a s = (Ok u, s') → counted e t s s'.
Proof.
  unfold ApprovePlatformServiceWorkload. cbv zeta. rewrite !bind_reject_ok, transaction_ok. intros (_ & _ & _ & H).
  rewrite bind_gets_ok, !bind_reject_ok in H. destruct H as (_ & _ & H).
  apply bind_ok in H as ([] & s1 & [= <-] & Ha). apply svc_audit_ok in Ha as (db & ->). by left.
Qed.

Lemma steps_of_ok {A} (R : relation ServiceDB) (m : Svc A) s : Reflexive R → writes_last m →
  (∀ a s', m s = (Ok a, s') → R s s') → R s (m s).2.
Proof.
  intros HR Hw H. destruct (m s) as [[a|e] s'] eqn:E; simpl; [eauto|]. by rewrite (Hw _ _ _ E).
Qed.

(** C22: The revision of the catalog counts its changes: a request never lowers it, and when it is the
    same after a request then the catalog of that environment, as it is at the time of the request, is
    the same too, with every option's binding and availability. *)
Theorem catalog_changes_are_counted s q environment now_ : registry_reachable s →
  match request_environment q with Some e => e = environment | None => True end →
  match request_time q with Some t => t = now_ | None => True end →
  catalog_revision environment s ≤ catalog_revision environment (serve q s) ∧
  (catalog_revision environment (serve q s) = catalog_revision environment s →
   (readPlatformServiceOptions environment now_ (serve q s)).1 = (readPlatformServiceOptions environment now_ s).1).
Proof.
  intros Hr%registry_invariant He Ht.
  assert (Hc : counted environment now_ s (serve q s)).
  { assert (Href : Reflexive (counted environment now_)) by (intros x; apply counted_refl).
    destruct q; simpl in *; subst; try (apply steps_of_ok; [done| |intros x s' Hx]).
    - unfold ApprovePlatformServiceWorkload. eauto 20 with rtk.
    - by eapply approve_counted.
    - unfold RevokePlatformServiceWorkload. eauto 20 with rtk.
    - by eapply revoke_counted.
    - unfold SetPlatformServiceStatus. eauto 20 with rtk.
    - by eapply set_status_counted.
    - unfold RegisterPlatformServiceInstance. apply writes_last_bind; [eauto with rtk|]. intros _.
      destruct (manifestDigest r). eauto with rtk.
    - by eapply register_counted.
    - unfold PublishPlatformServiceManifest. eauto 20 with rtk.
    - by eapply publish_counted.
    - unfold HeartbeatPlatformServiceInstance. eauto 20 with rtk.
    - by eapply heartbeat_counted.
    - unfold DeregisterPlatformServiceInstance. eauto 20 with rtk.
    - by eapply deregister_counted.
    - by left. }
  unfold readPlatformServiceOptions. simpl. destruct Hc as [[E R]|R]; [|split; lia].
  split; [lia|]. intros _. unfold catalog_revision in R. by rewrite E, R.
Qed.

(** ** The theorems at work on a small registry *)

Definition sample_issuer : string := grant_snapshot_sha256 sample_grant_1.
Definition sample_approval (service code : string) : PlatformServiceWorkloadApproval :=
  mkApproval "prod" service "i-1" ("cn-" +:+ service) sample_issuer [code] "user-1".
Definition sample_principal (service : string) : PlatformServicePrincipal :=
  mkPrincipal "prod" ("cn-" +:+ service) sample_issuer.
Definition sample_registration (service : string) (option : PlatformServiceOption) : PlatformServiceRegistration :=
  mkRegistration ("rq-" +:+ service) service "i-1" "1" "1" [option] "endpoint" true.
Definition sample_mqtt_option : PlatformServiceOption := mkServiceOption "mqtt" "MQTT" "Messages" [] [].
Definition sample_logging_option : PlatformServiceOption :=
  mkServiceOption "device_logging" "Logs" "Device logs" ["mqtt"] [7; 30; 90].

(** The logger may register once MQTT has; it is suspended until an operator activates it. *)
Definition sample_requests : list registry_request :=
  [RqApprove (sample_approval "mqtt" "mqtt"); RqApprove (sample_approval "logger" "device_logging");
   RqRegister (sample_registration "logger" sample_logging_option) (sample_principal "logger") sample_time;
   RqRegister (sample_registration "mqtt" sample_mqtt_option) (sample_principal "mqtt") sample_time;
   RqRegister (sample_registration "logger" sample_logging_option) (sample_principal "logger") sample_time;
   RqSetStatus "prod" "logger" "active" "user-1"].
Definition run_requests (requests : list registry_request) (db : DB) : ServiceDB :=
  foldl (λ s q, serve q s) (empty_registry db) requests.
Definition sample_services : ServiceDB := run_requests sample_requests (ent_db sample_ent).

Lemma run_requests_reachable requests db : registry_reachable (run_requests requests db).
Proof.
  unfold run_requests. induction requests as [|q requests IH] using rev_ind; [constructor|].
  rewrite foldl_snoc. by constructor.
Qed.
Lemma sample_services_reachable : registry_reachable sample_services.
Proof. apply run_requests_reachable. Qed.

Lemma sample_published : PO_Code <$> options_of (published "prod" sample_services) = ["mqtt"; "device_logging"].
Proof. by vm_compute. Qed.
Lemma sample_revision : catalog_revision "prod" sample_services = 4.
Proof. by vm_compute. Qed.
Lemma sample_catalog : succeeds_with (λ c _, bool_decide ((λ o, (Option_Code o, Option_Selectable o)) <$> Catalog_Options c
    = [("device_logging", true); ("mqtt", true)]))
  (readPlatformServiceOptions "prod" sample_time) sample_services = true.
Proof. by vm_compute. Qed.
Lemma sample_selection : succeeds_with (λ b _, bool_decide (is_Some b))
  (validateProductServiceSelectionTx true "prod" ["mqtt"; "device_logging"] 4 sample_time) sample_services = true.
Proof. by vm_compute. Qed.
Lemma sample_suspension :
  catalog_revision "prod" (serve (RqSetStatus "prod" "mqtt" "suspended" "user-1") sample_services) = 5.
Proof. by vm_compute. Qed.
#[local] Opaque sample_services.

Lemma published_catalog_well_formed_witness :
  PO_Code <$> options_of (published "prod" sample_services) = ["mqtt"; "device_logging"] ∧
  ∀ c, ¬ tc (requires_option (options_of (published "prod" sample_services))) c c.
Proof.
  split; [apply sample_published|].
  exact (proj1 (proj2 (proj2 (published_catalog_well_formed sample_services "prod" sample_services_reachable)))).
Defined.

Lemma catalog_offers_what_runs_witness : ∃ c o,
  readPlatformServiceOptions "prod" sample_time sample_services = (Ok c, sample_services) ∧
  o ∈ Catalog_Options c ∧ Option_Code o = "device_logging" ∧ Option_Selectable o = true ∧
  running "prod" sample_time sample_services "device_logging".
Proof.
  destruct (catalog_offers_what_runs sample_services "prod" sample_time sample_services_reachable)
    as (c & Hc & _ & Hsel).
  pose proof sample_catalog as Hs. unfold succeeds_with in Hs. rewrite Hc in Hs. apply bool_decide_eq_true in Hs.
  destruct (Catalog_Options c) as [|o os] eqn:E; [done|]. injection Hs as Hcode Hseld _.
  exists c, o. split; [done|]. rewrite E. split; [by left|]. split; [done|]. split; [done|].
  apply (proj1 (Hsel o ltac:(left)) Hseld). by rewrite Hcode.
Defined.

Lemma selection_is_deliverable_witness : ∃ bindings s',
  validateProductServiceSelectionTx true "prod" ["mqtt"; "device_logging"] 4 sample_time sample_services
    = (Ok (Some bindings), s') ∧
  Option_Code <$> bindings ≡ₚ ["mqtt"; "device_logging"] ∧
  running "prod" sample_time sample_services "mqtt".
Proof.
  destruct (run_check _ _ _ sample_selection) as (b & s' & Hrun & [bindings ->]%bool_decide_eq_true).
  destruct (selection_is_deliverable _ _ _ _ _ _ _ sample_services_reachable Hrun) as (_ & Hm & Hb & _ & _ & _ & Hr & _).
  exists bindings, s'. split; [done|]. split; [done|]. by apply (Hr "mqtt" "mqtt" Hm).
Defined.

Lemma catalog_changes_are_counted_witness :
  let q := RqSetStatus "prod" "mqtt" "suspended" "user-1" in
  catalog_revision "prod" sample_services = 4 ∧ catalog_revision "prod" (serve q sample_services) = 5 ∧
  catalog_revision "prod" sample_services ≤ catalog_revision "prod" (serve q sample_services).
Proof.
  intros q. split; [apply sample_revision|]. split; [apply sample_suspension|].
  exact (proj1 (catalog_changes_are_counted sample_services q "prod" sample_time sample_services_reachable eq_refl I)).
Defined.
