(* ===== verification/ServiceGrants.v ===== *)
(** * Recorded grants: what insertProductServiceGrantTx writes is what is read back

    A grant is written once, with the digest of its options and bindings, and
    read by everything that binds a device to it: provisioning, entitlement
    snapshots and product service apply jobs verify the digest first.  The file
    proves that the JSON of a grant decodes to what it was made from, so that a
    grant recorded for a checked selection is the newest of its product and
    passes every one of these checks. *)

From S2P Require Export ServiceCatalog ProductApply.

Local Open Scope Z_scope.

(** ** JSON *)

Lemma decode_strings_values name l : decode_strings name (AString <$> l) = Ok (AString <$> l).
Proof. induction l as [|s l IH]; [done|]. rewrite fmap_cons. cbn [decode_strings]. by rewrite IH. Qed.

Lemma get_strings_values (t : fields) name l :
  t !! name = Some (ASlice (AString <$> l)) → get_strings t name = l.
Proof.
  unfold get_strings. intros ->. induction l as [|s l IH]; [done|]. rewrite fmap_cons. cbn [omap list_omap].
  by f_equal.
Qed.

Lemma unmarshal_strings_value l : unmarshal_strings (strings_value l) = Ok l.
Proof.
  unfold unmarshal_strings, strings_value. rewrite decode_strings_values. simpl. f_equal.
  by apply get_strings_values.
Qed.

Definition ints_fit (o : PlatformServiceCatalogOption) : Prop :=
  Forall (λ z, int64_range z = true) (Option_LogRetentionDays o).

Lemma decode_ints_values l : Forall (λ z, int64_range z = true) l → decode_ints (AInt <$> l) = Ok l.
Proof. induction 1 as [|z l Hz _ IH]; [done|]. rewrite fmap_cons. cbn [decode_ints]. by rewrite Hz, IH. Qed.

Lemma unmarshal_field sc k name v kind t ms :
  find_field sc k = Some (name, kind) →
  unmarshal_members sc ((k, v) :: ms) t = (t ← decode_field name kind v t; unmarshal_members sc ms t).
Proof. intros H. simpl. by rewrite H. Qed.

Lemma res_bind_Ok {A B} (a : A) (f : A → res B) : (Ok a ≫= f) = f a.
Proof. done. Qed.

(** Decode the members one by one, then read the fields. *)
Ltac field := erewrite unmarshal_field by (vm_compute; reflexivity); cbn [decode_field strings_value];
  rewrite ?decode_strings_values, ?res_bind_Ok.
Ltac read_fields := unfold get_string, get_bool;
  repeat (rewrite lookup_insert_eq || rewrite lookup_insert_ne by done); rewrite ?lookup_empty.

Lemma unmarshal_option_json o : ints_fit o → unmarshal_option (catalog_option_json o) = Ok o.
Proof.
  intros Hfit. unfold catalog_option_json, unmarshal_option, member_string.
  destruct o as [code name desc reqs days svc version sel reason]. unfold ints_fit in Hfit. simpl in *.
  assert (Hdays : unmarshal_ints (Some (ASlice (AInt <$> days))) = Ok days) by by apply decode_ints_values.
  repeat case_bool_decide; subst; cbn [app]; unfold strings_value; repeat field; cbn [unmarshal_members];
    rewrite ?res_bind_Ok; read_fields; rewrite ?Hdays; cbn [unmarshal_ints]; rewrite ?res_bind_Ok;
    (erewrite get_strings_values by (read_fields; reflexivity)) || (unfold get_strings; read_fields); done.
Qed.

Lemma unmarshal_bindings_json bindings :
  Forall ints_fit (default [] bindings) → unmarshal_bindings (bindings_json bindings) = Ok bindings.
Proof.
  destruct bindings as [l|]; [|done]. simpl. intros H.
  assert (foldr (λ v rest, o ← unmarshal_option v; os ← rest; Ok (o :: os)) (Ok []) (catalog_option_json <$> l) = Ok l)
    as ->; [|done].
  induction H as [|o l Ho _ IH]; [done|]. rewrite fmap_cons. cbn [foldr].
  by rewrite unmarshal_option_json, res_bind_Ok, IH.
Qed.

(** ** Sorted options *)

Lemma slices_Sort_idemp l : slices_Sort (slices_Sort l) = slices_Sort l.
Proof. apply order_by_id, order_by_sorted. intros a b. apply before_string_total. Qed.

Lemma valid_loop seen options : Forall (λ o, serviceOptionCodePattern o = true) options → NoDup options →
  (∀ o, o ∈ options → o ∉ seen) → validateProductServiceOptions_loop seen options = Ok tt.
Proof.
  intros Hp Hn. revert seen. induction Hn as [|o options Ho Hn IH]; intros seen Hs; simpl; [done|].
  apply Forall_cons in Hp as [Hc Hp]. rewrite Hc, bool_decide_false by (apply Hs; by left). simpl.
  apply IH; [done|]. intros x Hx. assert (x ∉ seen) by (apply Hs; by right). set_solver.
Qed.

Lemma valid_sorted options :
  validateProductServiceOptions options = Ok tt → validateProductServiceOptions (slices_Sort options) = Ok tt.
Proof.
  intros H. pose proof (validateProductServiceOptions_ok _ H) as [Hn Hp]. unfold validateProductServiceOptions in *.
  rewrite (Permutation_length (slices_Sort_perm options)). destruct (_ <? _)%nat; [done|].
  apply valid_loop; [by rewrite slices_Sort_perm|by rewrite slices_Sort_perm|set_solver].
Qed.

Lemma encode_sorted options bindings days :
  encodeProductServiceGrantWithRetention (slices_Sort options) bindings days =
  encodeProductServiceGrantWithRetention options bindings days.
Proof.
  unfold encodeProductServiceGrantWithRetention, encodeProductServiceGrant. rewrite slices_Sort_idemp.
  destruct days as [d|]; [|done].
  by rewrite (bool_decide_ext ("device_logging" ∈ slices_Sort options) ("device_logging" ∈ options))
    by (by rewrite slices_Sort_perm).
Qed.

(** ** Recording *)

Lemma max_ge (l : list Z) z : z ∈ l → z ≤ foldr Z.max 0 l.
Proof. induction l as [|x l IH]; simpl; [by intros ?%elem_of_nil|]. intros [->|?%IH]%elem_of_cons; lia. Qed.
Lemma max_nonneg (l : list Z) : 0 ≤ foldr Z.max 0 l.
Proof. induction l; simpl; lia. Qed.
Lemma max_last (l : list Z) z : 0 ≤ z → (∀ x, x ∈ l → x < z) → foldr Z.max 0 (l ++ [z]) = z.
Proof.
  intros Hz. induction l as [|x l IH]; intros Hl; simpl; [lia|].
  rewrite IH by (intros y Hy; apply Hl; by right). specialize (Hl x ltac:(left)). lia.
Qed.

Lemma next_revision_fresh product grants old :
  old ∈ grants → grant_product_id old = product → grant_revision old < next_grant_revision product grants.
Proof.
  intros Ho Hp. unfold next_grant_revision. apply Z.lt_succ_r, max_ge. apply list_elem_of_fmap.
  exists old. split; [done|]. by apply list_elem_of_filter.
Qed.

Lemma insert_grant_ok product cloud options bindings revision actor days db u db' :
  insertProductServiceGrantTx product cloud options bindings revision actor days db = (Ok u, db') →
  ∃ digest, encodeProductServiceGrantWithRetention options bindings days = Ok digest ∧
    product_service_grants (registry db') = product_service_grants (registry db) ++
      [mkGrant product (next_grant_revision product (product_service_grants (registry db))) cloud
         (strings_value (slices_Sort options)) (bindings_json bindings) digest days] ∧
    device_item_profiles (registry db') = device_item_profiles (registry db).
Proof.
  unfold insertProductServiceGrantTx. rewrite bind_lift_ok. intros (digest & Hd & H).
  rewrite bind_gets_ok, !bind_reject_ok in H. destruct H as (_ & _ & _ & _ & _ & H). injection H as _ <-.
  exists digest. done.
Qed.

(** A grant of the newest revision is found, by the newest and by its number. *)
Lemma last_grant_found r grants g product cloud :
  product_service_grants r = grants ++ [g] → grant_product_id g = product → grant_brand_cloud_id g = cloud →
  (∀ old, old ∈ grants → grant_product_id old = product → grant_revision old < grant_revision g) →
  newest_grant r product cloud = Some g ∧ grant_of_revision r product cloud (Some (grant_revision g)) = Some g.
Proof.
  intros Hg Hp Hc Hnew.
  assert (Hin : g ∈ filter (λ g, grant_product_id g = product ∧ grant_brand_cloud_id g = cloud) (product_service_grants r)).
  { apply list_elem_of_filter. split; [done|]. rewrite Hg, elem_of_app, list_elem_of_singleton. auto. }
  assert (Heq : ∀ g', g' ∈ product_service_grants r → grant_product_id g' = product →
    grant_revision g ≤ grant_revision g' → g' = g).
  { intros g'. rewrite Hg, elem_of_app, list_elem_of_singleton. intros [Ho|Ho] Hpr Hle; [|done].
    specialize (Hnew g' Ho Hpr). lia. }
  split.
  - destruct (newest_grant r product cloud) as [g'|] eqn:E; unfold newest_grant in E.
    + apply newest_max in E as [Hin' Hmax]. apply list_elem_of_filter in Hin' as [[? ?] ?]. f_equal. apply Heq; auto.
    + apply newest_none in E. rewrite E in Hin. by apply elem_of_nil in Hin.
  - apply list_elem_of_filter in Hin as [_ Hin]. unfold grant_of_revision. cbn [mbind option_bind].
    set (rows := filter _ _).
    assert (Hf : g ∈ rows) by by apply list_elem_of_filter.
    destruct rows as [|g' l] eqn:E; [by apply elem_of_nil in Hf|]. simpl. f_equal.
    assert (Hg' : g' ∈ rows) by (rewrite E; left).
    apply list_elem_of_filter in Hg' as [(? & ? & Hrev) ?]. apply Heq; [done|done|lia].
Qed.

(** The same options, all of them given to a device. *)
Lemma full_selection_effective options bindings :
  validateProductServiceOptions options = Ok tt → "mqtt" ∈ options →
  (∀ b d, b ∈ default [] bindings → d ∈ Option_Requires b → d ∈ options) →
  validateEffectiveDeviceServices options options bindings = Ok tt.
Proof.
  intros Hv Hm Hd. unfold validateEffectiveDeviceServices, validateHistoricalDeviceServices.
  rewrite (bool_decide_true ("mqtt" ∈ options)) by done. rewrite Hv. simpl.
  rewrite (bool_decide_false (options = [])) by (intros ->; by apply elem_of_nil in Hm). simpl.
  replace (forallb _ options) with true.
  - replace (forallb _ (default [] bindings)) with true; [done|]. symmetry. apply forallb_forall.
    intros b Hb%list_elem_of_In. unfold dependencies_selected. apply orb_true_iff. right.
    apply forallb_forall. intros d Hr%list_elem_of_In. apply bool_decide_true. eauto.
  - symmetry. apply forallb_forall. intros o Ho%list_elem_of_In. by apply bool_decide_true.
Qed.

(** C21: A grant that is recorded for distinct options with MQTT is the newest of its product, with a
    higher revision than every earlier one, which stay as they were; read back from its JSON it has
    the options, sorted, the bindings and the retention it was made from, and the digest that every
    reader computes from them is the recorded one; so jobs and snapshots accept it, and a device may
    be given all of its options when what they require was selected too. *)
Theorem recorded_grant_verifies product cloud options bindings revision actor days db u db' :
  validateProductServiceOptions options = Ok tt → "mqtt" ∈ options → Forall ints_fit (default [] bindings) →
  insertProductServiceGrantTx product cloud options bindings revision actor days db = (Ok u, db') →
  ∃ g, product_service_grants (registry db') = product_service_grants (registry db) ++ [g] ∧
    (∀ old, old ∈ product_service_grants (registry db) → grant_product_id old = product →
       grant_revision old < grant_revision g) ∧
    newest_grant (registry db') product cloud = Some g ∧
    target_grant cloud product db' = (Ok (g, slices_Sort options), db') ∧
    productGrantForEntitlementTx product cloud (grant_revision g) db' =
      (Ok (mkProductGrant (slices_Sort options) bindings (grant_snapshot_sha256 g) days (grant_revision g)), db') ∧
    encodeProductServiceGrantWithRetention (slices_Sort options) bindings days = Ok (grant_snapshot_sha256 g) ∧
    ((∀ b d, b ∈ default [] bindings → d ∈ Option_Requires b → d ∈ options) →
     validateEffectiveDeviceServices (slices_Sort options) (slices_Sort options) bindings = Ok tt).
Proof.
  intros Hv Hm Hfit (digest & Hd & Hg & _)%insert_grant_ok. eexists. split; [exact Hg|].
  set (g := mkGrant _ _ _ _ _ _ _) in *. set (grants := product_service_grants (registry db)) in *.
  assert (Hnew : ∀ old, old ∈ grants → grant_product_id old = product → grant_revision old < grant_revision g)
    by (intros old; apply next_revision_fresh).
  destruct (last_grant_found (registry db') grants g product cloud Hg eq_refl eq_refl Hnew) as [Hnewest Hrev].
  assert (Hopt : unmarshal_strings (grant_options g) = Ok (slices_Sort options)) by apply unmarshal_strings_value.
  assert (Hbind : unmarshal_bindings (grant_bindings g) = Ok bindings) by by apply unmarshal_bindings_json.
  assert (Hmq : "mqtt" ∈ slices_Sort options) by by rewrite slices_Sort_perm.
  split; [done|]. split; [done|]. split; [|split; [|split]].
  - unfold target_grant. rewrite bind_gets_run, Hnewest. simpl row_or. rewrite bind_ret_l, Hopt, Hbind, encode_sorted.
    change (grant_log_retention_days g) with days. change (grant_snapshot_sha256 g) with digest.
    by rewrite Hd, !bool_decide_true.
  - unfold productGrantForEntitlementTx. rewrite bind_gets_run, Hrev. simpl row_or. rewrite bind_ret_l, Hopt, Hbind.
    rewrite valid_sorted by done. rewrite bool_decide_false by (intros E; rewrite E in Hmq; by apply elem_of_nil in Hmq).
    change (is_ok (Ok tt) && negb false) with true. cbv iota. unfold mret, M_ret. do 2 f_equal. f_equal.
    unfold product_grants. rewrite Hg, filter_app, fmap_app, filter_cons_True by done. simpl.
    apply max_last; [unfold g, next_grant_revision; simpl; pose proof (max_nonneg (grant_revision <$>
      filter (λ g, grant_product_id g = product) grants)); lia|].
    intros x (old & -> & [[Hp _] Ho]%list_elem_of_filter)%list_elem_of_fmap. by apply Hnew.
  - by rewrite encode_sorted.
  - intros Hreq. apply full_selection_effective; [by apply valid_sorted|by rewrite slices_Sort_perm|].
    intros b d Hb Hr. rewrite slices_Sort_perm. eauto.
Qed.

Definition sample_record (db : DB) : res unit * DB :=
  insertProductServiceGrantTx sample_product sample_org ["mqtt"; "device_logging"]
    (Some [sample_logging; sample_mqtt]) 4 (Some "user-1") (Some 90) db.

Lemma recorded_grant_verifies_witness : ∃ u db' g, sample_record (ent_db sample_ent) = (Ok u, db') ∧
  newest_grant (registry db') sample_product sample_org = Some g ∧ grant_revision sample_grant_2 < grant_revision g ∧
  target_grant sample_org sample_product db' = (Ok (g, slices_Sort ["mqtt"; "device_logging"]), db').
Proof.
  assert (Hrun : succeeds_with (λ _ _, true) sample_record (ent_db sample_ent) = true) by by vm_compute.
  destruct (run_succeeds _ _ Hrun) as (u & db' & H).
  assert (Hv : validateProductServiceOptions ["mqtt"; "device_logging"] = Ok tt) by by vm_compute.
  assert (Hfit : Forall ints_fit [sample_logging; sample_mqtt]) by by repeat constructor.
  destruct (recorded_grant_verifies sample_product sample_org ["mqtt"; "device_logging"]
    (Some [sample_logging; sample_mqtt]) 4 (Some "user-1") (Some 90) (ent_db sample_ent) u db'
    Hv ltac:(left) Hfit H) as (g & _ & Hnew & Hn & Ht & _).
  exists u, db', g. split; [exact H|]. split; [exact Hn|]. split; [|exact Ht].
  apply Hnew; [left|done].
Defined.
