(* ===== verification/Requests.v ===== *)
(** * The store as a transition system

    [request] lists what the API and the workers ask of the store, [handle]
    runs one, and [reachable] is every store some requests lead to, failed
    ones included.  What has to be shown of the statements for a relation to
    hold along every run is [respects]; Pipeline.v shows it of its invariants. *)

From S2P Require Export System ClaimTransfer.

Local Open Scope Z_scope.

Inductive request :=
  | Tick (t : Time)
  | StartProvision (platformServiceProductWrites : bool) (input : DeviceLifecycleOperationInput)
  | StartDeactivation (input : DeviceDeactivationOperationInput)
  | Unprovision (clock : Time) (input : DeviceUnprovisionInput)
  | UpdateDevice (actor org device : string) (input : DeviceInput)
  | UpdateDeviceStatus (actor org device : string) (status : DeviceStatus) (seen : option Time)
  | DeleteDevice (actor org device : string)
  | Project (org device : string) (input : DeviceProjectionInput)
  | ClaimOutbox (before until : Time) (n : Z)
  | RecordPublish (input : OutboxPublishTransitionInput)
  | RegisterEvent (input : DeviceMessageInboxCreateInput)
  | RecordProcess (input : InboxProcessTransitionInput)
  | RequeueOutbox (messageID : string) (availableAt : Time)
  | RequeueInbox (messageID : string)
  | RegisterDevice (actor org : string) (input : DeviceInput)
  | IssueToken (platformServiceProductWrites : bool) (clock : Time)
      (input : DeviceClaimTokenCreateInput)
  | RevokeToken (clock : Time) (actor tokenID : string) (at_ : Time)
  | ResolveClaim (clock : Time) (input : DeviceClaimResolveInput)
  | TransferClaim (clock : Time) (commit : CommitOutcome) (input : @DeviceClaimTransferInput unit)
  | ReclaimToken (clock : Time) (commit : CommitOutcome) (input : @DeviceClaimReclaimInput unit)
  | ReconcileFence (commit : CommitOutcome) (input : @DeviceTransferFenceReconcileInput unit).

Definition ignore {A} (m : Store A) : Store unit := _ ← m; mret tt.

(** The part of a call to both systems the store sees.  The answers of the Video
    Cloud are the functions in the request: whatever it answers, some request
    has it answer that. *)
Definition store_part {A} (m : M (DB * unit) A) : Store A := λ db,
  let '(r, s) := m (db, tt) in (r, s.1).

Definition handle (q : request) : Store unit :=
  match q with
  | Tick t => modify (with_now t)
  | StartProvision writes input => ignore (StartDeviceLifecycleOperation writes input)
  | StartDeactivation input => ignore (StartDeviceDeactivationOperation input)
  | Unprovision clock input => ignore (UnprovisionDevice clock input)
  | UpdateDevice actor org device input => ignore (UpdateDeviceAsUser actor org device input)
  | UpdateDeviceStatus actor org device status seen =>
      ignore (UpdateDeviceStatusAsUser actor org device status seen)
  | DeleteDevice actor org device => DeleteDeviceAsUser actor org device
  | Project org device input => ignore (ProjectDevice org device input)
  | ClaimOutbox before until n => ignore (ClaimOutboxMessagesReady before until n)
  | RecordPublish input => ignore (RecordOutboxPublishTransition input)
  | RegisterEvent input => ignore (CreateOrGetInboxMessage input)
  | RecordProcess input => ignore (RecordInboxProcessTransition input)
  | RequeueOutbox messageID availableAt => ignore (RequeueOutboxMessage messageID availableAt)
  | RequeueInbox messageID => ignore (RequeueInboxMessage messageID)
  | RegisterDevice actor org input => ignore (CreateDeviceAsUser actor org input)
  | IssueToken writes clock input => ignore (CreateDeviceClaimTokenAsPlatform writes clock input)
  | RevokeToken clock actor tokenID at_ =>
      ignore (RevokeDeviceClaimTokenAsPlatform clock actor tokenID at_)
  | ResolveClaim clock input => ignore (ResolveDeviceClaimToken clock input)
  | TransferClaim clock commit input => ignore (store_part (TransferDeviceClaim clock commit input))
  | ReclaimToken clock commit input => ignore (store_part (ReclaimDeviceClaimToken clock commit input))
  | ReconcileFence commit input =>
      ignore (store_part (ReconcileDeviceTransferFence commit input))
  end.

(** Everything some sequence of these requests leads to, whatever they answer. *)
Inductive reachable_by (allowed : request → Prop) (db : DB) : DB → Prop :=
  | reach_refl : reachable_by allowed db db
  | reach_step q r db1 db2 :
      reachable_by allowed db db1 → allowed q → handle q db1 = (r, db2) →
      reachable_by allowed db db2.

Definition reachable : DB → DB → Prop := reachable_by (λ _, True).

(** The requests that move a device to another organization. *)
Definition overriding (q : request) : bool :=
  match q with TransferClaim _ _ _ | ReclaimToken _ _ _ => true | _ => false end.

(** ** Relations every statement respects *)

(** The inbox row a request may give a new status, and the status. *)
Definition inbox_write (q : request) (i : string) (st : DeviceMessageInboxStatus) : Prop :=
  match q with
  | RecordProcess input => i = IT_MessageID input ∧ st = IT_MessageStatus input
  | RequeueInbox messageID => i = messageID ∧ st = DeviceMessageInboxStatusRetrying
  | _ => False
  end.

Section statements.
Context (R : relation DB) `{!PreOrder R} (U : string → DeviceMessageInboxStatus → Prop).

(** What has to be shown of the statements on the tables, when the inbox is
    updated only as [U] says. *)
Record respects_for : Prop := {
  on_time : ∀ t, steps R (modify (with_now t));
  on_insert_operation : ∀ o, steps R (insert_operation o);
  on_update_operation : ∀ i st res c m rt comp, steps R (update_operation i st res c m rt comp);
  on_insert_outbox : ∀ m, steps R (insert_outbox m);
  on_update_outbox : ∀ i st n e av p, steps R (update_outbox i st n e av p);
  on_claim : ∀ b u n, steps R (ClaimOutboxMessagesReady b u n);
  on_insert_inbox : ∀ m, steps R (insert_inbox m);
  on_update_inbox : ∀ i st n e p, U i st → steps R (update_inbox i st n e p);
  on_update_device : ∀ o i st seen md, steps R (update_device o i st seen md);
  on_update_fields : ∀ o i input, steps R (updateDevice o i input);
  on_update_status : ∀ o i st seen, steps R (updateDeviceStatus o i st seen);
  on_disable : ∀ o i, steps R (modify (λ db,
    match device_in_org o i db with
    | None => db
    | Some d => with_devices (<[i := disabled_device (now db) d]> (devices db)) db
    end));
  on_delete_device : ∀ o i, steps R (delete_device o i);
  on_audit : ∀ e, steps R (insert_audit_event e);
}.

(** And of the operations that create devices, tokens and claims. *)
Record registers : Prop := {
  on_create_device : ∀ o input, steps R (createDeviceTx o input);
  on_issue_token : ∀ clock input grants, steps R (createDeviceClaimTokenTx clock input grants);
  on_revoke_token : ∀ clock i t, steps R (revokeDeviceClaimToken clock i t);
  on_resolve : ∀ clock input, steps R (ResolveDeviceClaimToken clock input);
}.

Lemma steps_read_only {A} (m : Store A) : read_only m → steps R m.
Proof. intros Hm db r db' Hr. apply read_only_ok in Hr; [by subst|done]. Qed.

Lemma steps_gets {A} (f : DB → A) : steps R (gets f).
Proof. apply steps_read_only. auto with rtk. Qed.
Lemma steps_row_or {A} e (o : option A) : steps R (row_or e o).
Proof. apply steps_read_only. auto with rtk. Qed.
Lemma steps_reject b e : steps R (reject_if b e).
Proof. apply steps_read_only. auto with rtk. Qed.
Lemma steps_lift {A} (r : res A) : steps R (lift_res r).
Proof. apply steps_read_only. auto with rtk. Qed.
Lemma steps_transaction {A} (m : Store A) : steps R m → steps R (transaction m).
Proof.
  intros Hm db r db'. unfold transaction. destruct (m db) as [[a|e] db1] eqn:E; intros [= _ <-].
  - by eapply Hm.
  - reflexivity.
Qed.
End statements.

Abbreviation any_update := (λ (_ : string) (_ : DeviceMessageInboxStatus), True).
Abbreviation respects R := (respects_for R any_update).

(** The statements of [respects] one by one. *)
Ltac each_statement :=
  split; intros; cbv beta in *; try match goal with H : True |- _ => clear H end.

(** A coarser relation has less to show. *)
Lemma steps_mono (Q R : relation DB) {A} (m : Store A) :
  (∀ db db', Q db db' → R db db') → steps Q m → steps R m.
Proof. intros HQ Hm db r db' Hr. by eapply HQ, Hm. Qed.

Lemma respects_mono (Q R : relation DB) :
  (∀ db db', Q db db' → R db db') → respects Q → respects R.
Proof. intros HQ []. split; intros; apply (steps_mono Q); auto. Qed.

(** Decompose a composite operation down to its statements. *)
Ltac steps_auto :=
  repeat first
    [ match goal with H : registers _ |- _ => first
        [ simple apply (on_create_device _ H) | simple apply (on_issue_token _ H)
        | simple apply (on_revoke_token _ H) | simple apply (on_resolve _ H) ] end
    | match goal with H : respects_for _ _ |- _ => first
        [ simple apply (on_time _ _ H) | simple apply (on_insert_operation _ _ H)
        | simple apply (on_update_operation _ _ H) | simple apply (on_insert_outbox _ _ H)
        | simple apply (on_update_outbox _ _ H) | simple apply (on_claim _ _ H)
        | simple apply (on_insert_inbox _ _ H) | simple apply (on_update_inbox _ _ H); solve [auto]
        | simple apply (on_update_device _ _ H) | simple apply (on_update_fields _ _ H)
        | simple apply (on_update_status _ _ H) | simple apply (on_disable _ _ H)
        | simple apply (on_delete_device _ _ H) | simple apply (on_audit _ _ H) ] end
    | simple apply steps_gets; done
    | simple apply steps_row_or; done
    | simple apply steps_reject; done
    | simple apply steps_lift; done
    | simple apply steps_ret; done
    | simple apply steps_throw; done
    | simple apply steps_transaction; [done|]
    | simple apply steps_attempt; [done|]
    | simple apply steps_bind; [done|intros|intros]
    | match goal with |- steps _ (match ?x with _ => _ end) => destruct x end ].

Section handlers.
Context (R : relation DB) `{!PreOrder R} (U : string → DeviceMessageInboxStatus → Prop).
Context (HR : respects_for R U) (HN : registers R).

Lemma authorize_steps actor org device permission :
  steps R (authorizeDeviceUserMutationTx actor org device permission).
Proof. unfold authorizeDeviceUserMutationTx, getDeviceForUpdateTx. steps_auto. Qed.

Lemma audit_steps event actor org ty id payload :
  steps R (create_audit_event event actor org ty id payload).
Proof. unfold create_audit_event. steps_auto. Qed.

Lemma project_steps org id input : steps R (projectDeviceTx org id input).
Proof. unfold projectDeviceTx. steps_auto. Qed.

Lemma operation_steps input : steps R (createOrGetDeviceOperationTx input).
Proof. unfold createOrGetDeviceOperationTx, GetDeviceOperation. steps_auto. Qed.

Lemma command_steps o input : steps R (createOutboxMessageTx o input).
Proof. unfold createOutboxMessageTx. steps_auto. Qed.

Lemma latest_command_steps id : steps R (getLatestOutboxMessageByOperationTx id).
Proof. unfold getLatestOutboxMessageByOperationTx. steps_auto. Qed.

Lemma bind_grant_steps device input : steps R (bindProvisionServiceGrantTx device input).
Proof. unfold bindProvisionServiceGrantTx, trustedProvisionGrantPinTx. steps_auto. Qed.

Lemma start_steps device input b : steps R (startDeviceLifecycleOperationTx device input b).
Proof.
  unfold startDeviceLifecycleOperationTx. steps_auto;
    eauto using operation_steps, command_steps, latest_command_steps, bind_grant_steps,
      project_steps, audit_steps.
Qed.

Lemma platform_authorize_steps actor device :
  steps R (authorizePlatformDeviceUnprovisionTx actor device).
Proof.
  unfold authorizePlatformDeviceUnprovisionTx, lockPlatformActorTx, lockOperationalCloudTx.
  steps_auto.
Qed.

Lemma unprovision_steps clock input : steps R (unprovisionDeviceTx clock input).
Proof.
  unfold unprovisionDeviceTx, getDeviceForUpdateTx, getResolvedClaimByDeviceForUpdateTx. steps_auto;
    eauto using operation_steps, command_steps, latest_command_steps, audit_steps,
      authorize_steps, platform_authorize_steps.
Qed.

Lemma platform_actor_steps actor : steps R (lockPlatformActorTx actor).
Proof. unfold lockPlatformActorTx. steps_auto. Qed.

Lemma lock_clouds_steps clouds : steps R (lock_clouds clouds).
Proof. induction clouds; simpl; unfold lockOperationalCloudTx; steps_auto; done. Qed.

Lemma token_clouds_steps org product : steps R (lockClaimTokenCloudsTx org product).
Proof. unfold lockClaimTokenCloudsTx. steps_auto; apply lock_clouds_steps. Qed.

Lemma product_mutation_steps actor cloud product b :
  steps R (authorizeProductUserMutationTx actor cloud product b).
Proof.
  unfold authorizeProductUserMutationTx, lockBrandCloudCollaborationTx, lockOperationalCloudTx.
  steps_auto; apply platform_actor_steps.
Qed.

(** A reconciliation writes an audit event at most. *)
Lemma reconcile_steps commit input : steps R (store_part (ReconcileDeviceTransferFence commit input)).
Proof.
  intros db r db'. unfold store_part.
  destruct (ReconcileDeviceTransferFence commit input (db, tt)) as [r0 [db1 []]] eqn:E.
  intros [= -> <-]. apply reconcile_writes in E as [->|[e ->]]; [reflexivity|].
  by apply (on_audit _ _ HR e db (Ok tt)).
Qed.

Lemma handle_steps q :
  (∀ i st, inbox_write q i st → U i st) → (overriding q = true → steps R (handle q)) →
  steps R (handle q).
Proof.
  intros HU Hover. destruct q; try (by apply Hover); clear Hover; simpl in *; unfold ignore.
  - apply HR.
  - unfold StartDeviceLifecycleOperation, getDeviceForUpdateTx. steps_auto;
      eauto using authorize_steps, start_steps.
  - unfold StartDeviceDeactivationOperation, getDeviceForUpdateTx. steps_auto;
      eauto using authorize_steps, start_steps.
  - unfold UnprovisionDevice. steps_auto; apply unprovision_steps.
  - unfold UpdateDeviceAsUser, mutateDeviceAsUser, getDeviceForUpdateTx.
    steps_auto; eauto using authorize_steps, audit_steps.
  - unfold UpdateDeviceStatusAsUser, mutateDeviceAsUser, getDeviceForUpdateTx.
    steps_auto; eauto using authorize_steps, audit_steps.
  - unfold DeleteDeviceAsUser, mutateDeviceAsUser.
    steps_auto; eauto using authorize_steps, audit_steps.
  - unfold ProjectDevice. steps_auto; apply project_steps.
  - steps_auto.
  - unfold RecordOutboxPublishTransition. steps_auto.
  - unfold CreateOrGetInboxMessage, GetInboxMessage. steps_auto.
  - unfold RecordInboxProcessTransition, record_operation, record_projection.
    steps_auto; apply project_steps.
  - unfold RequeueOutboxMessage. steps_auto.
  - unfold RequeueInboxMessage, getDeviceOperationOptionalTx. steps_auto.
  - unfold CreateDeviceAsUser, mutateDeviceAsUser, getDeviceItemProfileByID. steps_auto;
      eauto using authorize_steps, audit_steps, product_mutation_steps.
  - unfold CreateDeviceClaimTokenAsPlatform, auditClaimTokenAdministrationTx. steps_auto;
      eauto using platform_actor_steps, token_clouds_steps, audit_steps.
  - unfold RevokeDeviceClaimTokenAsPlatform, auditClaimTokenAdministrationTx,
      getClaimTokenForUpdateTx, GetDeviceClaimToken. steps_auto;
      eauto using platform_actor_steps, token_clouds_steps, audit_steps.
  - steps_auto.
  - steps_auto; apply reconcile_steps.
Qed.

Lemma reachable_by_respects_for allowed db db' :
  (∀ q, allowed q → ∀ i st, inbox_write q i st → U i st) →
  (∀ q, allowed q → overriding q = true → steps R (handle q)) →
  reachable_by allowed db db' → R db db'.
Proof.
  intros HU Hover. induction 1 as [|q r db1 db2 _ IH Hq H]; [reflexivity|].
  etrans; [exact IH|]. eapply handle_steps; [by apply HU|by apply Hover|exact H].
Qed.
End handlers.

Lemma reachable_by_respects (R : relation DB) `{!PreOrder R} (HR : respects R) (HN : registers R)
    allowed db db' :
  (∀ q, allowed q → overriding q = true → steps R (handle q)) →
  reachable_by allowed db db' → R db db'.
Proof. intros Hover. by apply (reachable_by_respects_for R any_update). Qed.

(** *** Overrides *)

(** What an override leaves in a store with well-formed claims. *)
Definition override_effect (db db' : DB) : Prop :=
  claims_ok (registry db) →
  db' = db ∨ ∃ clock (input : @claimOverrideInput unit) claim token device reservation result,
    transferable input claim token device db ∧
    overridden clock input claim token device reservation db result db'.

Lemma override_effect_run clock commit (input : @claimOverrideInput unit) db remote r db' remote' :
  overrideDeviceClaim clock commit input (db, remote) = (r, (db', remote')) → override_effect db db'.
Proof.
  intros E Hok. apply (override_outcome _ _ _ _ _ _ _ _ Hok) in E
    as [[_ ->]|(claim & token & device & reservation & reserved & remote1 & Ht & _ & Hr)]; [by left|].
  destruct r as [result|err].
  - right. destruct Hr as (_ & _ & Ho). by exists clock, input, claim, token, device, reservation, result.
  - destruct Hr as [[-> _]|([] & result & db1 & _ & _ & Ho & ->)]; [by left| |by left].
    right. by exists clock, input, claim, token, device, reservation, result.
Qed.

Lemma validated_override_effect (v : res unit) clock commit (input : @claimOverrideInput unit) :
  steps override_effect (ignore (store_part (lift_res v ;; overrideDeviceClaim clock commit input))).
Proof.
  intros db r db'. unfold ignore, store_part, lift_res, mbind, M_bind. destruct v as [[]|e].
  - destruct (overrideDeviceClaim clock commit input (db, tt)) as [[x|e] [db1 remote]] eqn:E;
      intros [= _ <-]; by eapply override_effect_run.
  - intros [= _ <-]. by left.
Qed.

Lemma override_steps (R : relation DB) q :
  (∀ db db', override_effect db db' → R db db') → overriding q = true → steps R (handle q).
Proof.
  intros HR Hq db r db' H. apply HR.
  destruct q; try discriminate Hq; by eapply validated_override_effect.
Qed.
