(* ===== verification/Pipeline.v ===== *)
(** * Invariants of the store

    What holds of every store the requests of Requests.v lead to: the keys and
    foreign keys of the tables and what is never rewritten or removed.  From
    these, a record that was acknowledged can be handled again after any requests
    that do not open its message again, and changes nothing.  The invariants of
    claims and quotas are in ClaimInvariants.v. *)

From S2P Require Export Requests.

Local Open Scope Z_scope.

(** ** The tables stay consistent *)

Record consistent (db : DB) : Prop := {
  c_devices : devices_keyed db;
  c_operations : operations_keyed db;
  c_outbox : outbox_keyed db;
  c_inbox : inbox_rows_keyed (device_message_inbox db);
  c_foreign : outbox_fk db;
  c_outbox_rows : map_Forall (λ _ m, outbox_row_ok m) (device_message_outbox db);
  c_inbox_rows : map_Forall (λ _ m, inbox_row_ok m) (device_message_inbox db);
  c_tokens : tokens_ok (registry db);
  c_claims : claims_ok (registry db);
}.

Definition keeps_consistent (db db' : DB) : Prop := consistent db → consistent db'.

#[export] Instance keeps_consistent_preorder : PreOrder keeps_consistent.
Proof. split; red; unfold keeps_consistent; auto. Qed.

Lemma consistent_operations db ops :
  consistent db → map_Forall (λ k o, DeviceOperation_OperationID o = k) ops →
  (∀ k, is_Some (device_operations db !! k) → is_Some (ops !! k)) →
  consistent (with_operations ops db).
Proof.
  intros [] Hk Hsub. split; try done. intros k m Hm. simpl. apply Hsub. by eapply c_foreign0.
Qed.

Lemma consistent_insert_operation db o k :
  consistent db → DeviceOperation_OperationID o = k →
  consistent (with_operations (<[k := o]> (device_operations db)) db).
Proof.
  intros Hc Hk. apply consistent_operations; [done| |].
  - apply map_Forall_insert_2; [done|apply Hc].
  - intros k'. rewrite lookup_insert_is_Some. destruct (decide (k = k')); auto.
Qed.

Lemma consistent_insert_outbox db m k :
  consistent db → Outbox_MessageID m = k → outbox_row_ok m →
  is_Some (device_operations db !! Outbox_OperationID m) →
  consistent (with_outbox (<[k := m]> (device_message_outbox db)) db).
Proof.
  intros [] Hk Hok Ho. split; try done; simpl; by apply map_Forall_insert_2.
Qed.

Lemma consistent_insert_inbox db m k :
  consistent db → Inbox_MessageID m = k → inbox_row_ok m →
  consistent (with_inbox (<[k := m]> (device_message_inbox db)) db).
Proof. intros [] Hk Hok. split; try done; simpl; by apply map_Forall_insert_2. Qed.

Lemma consistent_insert_device db d k :
  consistent db → Device_ID d = k → consistent (with_devices (<[k := d]> (devices db)) db).
Proof. intros [] Hk. split; try done; simpl; by apply map_Forall_insert_2. Qed.

Lemma consistent_uuid db : consistent db → consistent (use_uuid db).
Proof. by intros []. Qed.

Lemma consistent_claim db before until n r db' :
  consistent db → ClaimOutboxMessagesReady before until n db = (r, db') → consistent db'.
Proof.
  intros Hc Hr. destruct r as [ms|e].
  - pose proof (c_outbox _ Hc) as Hk.
    pose proof (claim_leases _ _ _ _ _ _ Hk Hr) as (_ & _ & Hin & Hout & _ & ->).
    assert (∀ k m, device_message_outbox db' !! k = Some m → Outbox_MessageID m = k ∧
      ∃ m0, device_message_outbox db !! k = Some m0 ∧
      Outbox_OperationID m = Outbox_OperationID m0 ∧ (outbox_row_ok m0 → outbox_row_ok m)) as Hrows.
    { intros k m Hm. destruct (decide (k ∈ ids_of ms)) as [Hid|Hid].
      - apply list_elem_of_fmap in Hid as (m' & -> & Hm'). destruct (Hin _ Hm') as (m0 & H0 & _ & E & H1).
        rewrite H1 in Hm. injection Hm as <-. split; [done|]. exists m0. rewrite H0, E. done.
      - rewrite Hout in Hm by done. split; [by apply Hk|]. by exists m. }
    split; try apply Hc; simpl; intros k m Hm; destruct (Hrows k m Hm) as (? & m0 & H0 & Hop & Hok);
      [done| |apply Hok; by eapply (c_outbox_rows _ Hc)].
    rewrite Hop. by eapply (c_foreign _ Hc).
  - rewrite claim_run in Hr. destruct (n <? 0); [|done]. by injection Hr as _ <-.
Qed.

(** Every device update writes one row of [devices] back, with its identity, in
    its organization, and enabled only if it was. *)
Definition device_kept (d' d : Device) : Prop :=
  Device_ID d' = Device_ID d ∧ Device_OrganizationID d' = Device_OrganizationID d ∧
  (Device_DisabledAt d' = None → Device_DisabledAt d = None).
Definition device_rewritten (i : string) (db db' : DB) : Prop :=
  db' = db ∨ ∃ d d', devices db !! i = Some d ∧ device_kept d' d ∧
    db' = with_devices (<[i := d']> (devices db)) db.

Lemma in_org_lookup org i db d : device_in_org org i db = Some d → devices db !! i = Some d.
Proof. by intros [? _]%device_in_org_some. Qed.

Lemma update_device_rewritten org i st seen md db r db' :
  update_device org i st seen md db = (r, db') → device_rewritten i db db'.
Proof.
  destruct r as [r|e]; intros H.
  - apply update_device_ok in H. destruct (device_in_org org i db) as [d|] eqn:Hd;
      [destruct H as (_ & _ & ->); right|destruct H as [_ ->]; by left].
    eexists _, _. split_and!; [by eapply in_org_lookup| |reflexivity]; done.
  - left. unfold update_device, gets, reject_if, mbind, M_bind, modify, mret, M_ret in H.
    destruct (device_in_org org i db); [|done]. destruct (negb _); [|done]. by injection H as _ <-.
Qed.

Lemma updateDevice_rewritten org i input db r db' :
  updateDevice org i input db = (r, db') → device_rewritten i db db'.
Proof.
  unfold updateDevice, gets, reject_if, row_or, mbind, M_bind, modify, mret, M_ret, throw.
  destruct (device_in_org org i db) as [d|] eqn:Hd; simpl; [|intros [= _ <-]; by left].
  destruct (bool_decide (Device_DisabledAt d = None)); simpl; [|intros [= _ <-]; by left].
  destruct (btrim_blank _); [intros [= _ <-]; by left|].
  destruct (serial_taken _ _ _ _); intros [= _ <-]; [by left|right].
  eexists _, _. split_and!; [by eapply in_org_lookup| |reflexivity]; done.
Qed.

Lemma updateDeviceStatus_rewritten org i st seen db r db' :
  updateDeviceStatus org i st seen db = (r, db') → device_rewritten i db db'.
Proof.
  unfold updateDeviceStatus, gets, reject_if, row_or, mbind, M_bind, modify, mret, M_ret, throw.
  destruct (device_in_org org i db) as [d|] eqn:Hd; simpl; [|intros [= _ <-]; by left].
  destruct (_ || _); simpl; [|intros [= _ <-]; by left].
  destruct (negb _); intros [= _ <-]; [by left|right].
  eexists _, _. split_and!; [by eapply in_org_lookup| |reflexivity]. split_and!; simpl; try done.
  by case_bool_decide.
Qed.

Lemma disable_rewritten org i db :
  device_rewritten i db (match device_in_org org i db with
    | None => db
    | Some d => with_devices (<[i := disabled_device (now db) d]> (devices db)) db
    end).
Proof.
  destruct (device_in_org org i db) as [d|] eqn:Hd; [right|by left].
  eexists _, _. split_and!; [by eapply in_org_lookup| |reflexivity]. split_and!; simpl; try done.
  by destruct (Device_DisabledAt d).
Qed.

Lemma delete_device_cases org i db r db' :
  delete_device org i db = (r, db') →
  db' = db ∨ db' = with_groups (filter (λ gd, gd.2 ≠ i) (device_group_members db))
    (with_devices (delete i (devices db)) db).
Proof.
  destruct r as [r|e]; intros H.
  - apply delete_device_ok in H as [_ ->]. by right.
  - left. unfold delete_device, gets, reject_if, mbind, M_bind, modify, throw, mret, M_ret in H.
    destruct (bool_decide _); [|done]. by injection H as _ <-.
Qed.

(** Errors of the statements change nothing. *)
Lemma insert_outbox_cases m db r db' :
  insert_outbox m db = (r, db') → db' = db ∨ r = Ok m.
Proof.
  unfold insert_outbox, gets, reject_if, mbind, M_bind, modify, mret, M_ret, throw.
  destruct (outbox_checks_run m db) as [[-> _]|(e & -> & _)]; simpl; [|intros [= _ <-]; by left].
  destruct (bool_decide _); [intros [= _ <-]; by left|].
  destruct (bool_decide _); intros [= <- <-]; [by left|by right].
Qed.

Lemma update_outbox_cases i st n e av p db r db' :
  update_outbox i st n e av p db = (r, db') → db' = db ∨ is_ok r = true.
Proof.
  unfold update_outbox, gets, mbind, M_bind, modify, mret, M_ret. simpl.
  destruct (device_message_outbox db !! i) as [m|]; [|intros [= <- <-]; by left].
  destruct (outbox_checks_run (outbox_update st n e av p (now db) m) db) as [[-> _]|(x & -> & _)];
    intros [= <- <-]; auto.
Qed.

Lemma insert_inbox_cases m db r db' : insert_inbox m db = (r, db') → db' = db ∨ is_ok r = true.
Proof.
  unfold insert_inbox, gets, mbind, M_bind, modify, mret, M_ret. simpl.
  destruct (inbox_checks_run m db) as [[-> _]|(x & -> & _)]; [|intros [= <- <-]; auto].
  simpl. destruct (bool_decide _); intros [= <- <-]; auto.
Qed.

Lemma update_inbox_cases i st n e p db r db' :
  update_inbox i st n e p db = (r, db') → db' = db ∨ is_ok r = true.
Proof.
  unfold update_inbox, gets, mbind, M_bind, modify, mret, M_ret. simpl.
  destruct (device_message_inbox db !! i) as [m|]; [|intros [= <- <-]; by left].
  destruct (inbox_checks_run (inbox_update st n e p (now db) m) db) as [[-> _]|(x & -> & _)];
    intros [= <- <-]; auto.
Qed.

Lemma consistent_rewritten i db db' : device_rewritten i db db' → keeps_consistent db db'.
Proof.
  intros [->|(d & d' & Hd & (Hid & _) & ->)] Hc; [done|]. apply consistent_insert_device; [done|].
  rewrite Hid. by apply (c_devices _ Hc i d).
Qed.

Lemma respects_consistent : respects keeps_consistent.
Proof.
  split.
  - intros t db r db' [= _ <-] []. by split.
  - intros o db r db'. rewrite insert_operation_run.
    destruct (cloud_deletion_fenced _ _); [by intros [= _ <-]|].
    destruct (device_operations db !! _); intros [= _ <-]; [done|]. intros Hc.
    by apply consistent_uuid, consistent_insert_operation.
  - intros i st res c m rt comp db r db'. rewrite update_operation_run.
    destruct (device_operations db !! i) as [o|] eqn:Ho; [|by intros [= _ <-]].
    destruct (cloud_deletion_fenced _ _); intros [= _ <-]; [done|]. intros Hc.
    apply consistent_insert_operation; [done|]. by apply (c_operations _ Hc i o).
  - intros m db r db' H. destruct (insert_outbox_cases _ _ _ _ H) as [->| ->]; [done|].
    apply insert_outbox_ok in H as (_ & Hok & _ & Ho & ->). intros Hc.
    by apply consistent_uuid, consistent_insert_outbox.
  - intros i st n e av p db r db' H. destruct (update_outbox_cases _ _ _ _ _ _ _ _ _ H) as [->|Hr];
      [done|]. destruct r as [r|]; [|done]. apply update_outbox_ok in H. intros Hc.
    destruct (device_message_outbox db !! i) as [m|] eqn:Hm; [|by destruct H as [_ ->]].
    destruct H as (Hok & _ & ->). apply consistent_insert_outbox; try done.
    + by apply (c_outbox _ Hc i m).
    + by apply (c_foreign _ Hc _ _ Hm).
  - intros b u n db r db' H Hc. by eapply consistent_claim.
  - intros m db r db' H. destruct (insert_inbox_cases _ _ _ _ H) as [->|Hr]; [done|].
    destruct r as [r|]; [|done]. apply insert_inbox_ok in H as [Hok H]. intros Hc.
    destruct (device_message_inbox db !! _); destruct H as [_ ->]; [done|].
    by apply consistent_uuid, consistent_insert_inbox.
  - intros i st n e p _ db r db' H. destruct (update_inbox_cases _ _ _ _ _ _ _ _ H) as [->|Hr]; [done|].
    destruct r as [r|]; [|done]. apply update_inbox_ok in H. intros Hc.
    destruct (device_message_inbox db !! i) as [m|] eqn:Hm; [|by destruct H as [_ ->]].
    destruct H as (Hok & _ & ->). apply consistent_insert_inbox; try done. by apply (c_inbox _ Hc i m).
  - intros o i st seen md db r db' H. by eapply consistent_rewritten, update_device_rewritten.
  - intros o i input db r db' H. by eapply consistent_rewritten, updateDevice_rewritten.
  - intros o i st seen db r db' H. by eapply consistent_rewritten, updateDeviceStatus_rewritten.
  - intros o i db r db' [= _ <-]. eapply consistent_rewritten, disable_rewritten.
  - intros o i db r db' H. destruct (delete_device_cases _ _ _ _ _ H) as [->| ->]; [done|].
    intros []. split; try done. by apply map_Forall_delete.
  - intros e db r db' [= _ <-] []. by split.
Qed.

(** Registration: a new device, token or claim. *)
Lemma createDeviceTx_writes_last org input : writes_last (createDeviceTx org input).
Proof.
  unfold createDeviceTx, lockOrganizationAndCheckQuota, insert_device, fence_cloud_deletion_write.
  repeat first [apply writes_last_write|apply writes_last_bind; [|intros ?]
    |progress auto 5 with rtk|case_match].
Qed.

Lemma createDeviceClaimTokenTx_writes_last clock input grants :
  writes_last (createDeviceClaimTokenTx clock input grants).
Proof.
  unfold createDeviceClaimTokenTx, insert_claim_token, fence_cloud_deletion_write,
    getDeviceItemProfileByID.
  repeat first [apply token_grant_read_only|apply writes_last_write|apply writes_last_bind; [|intros ?]
    |apply read_only_bind; [|intros ?]|progress auto 3 with rtk|case_match].
Qed.

Lemma revoke_run clock id t db :
  revokeDeviceClaimToken clock id t db =
    match device_claim_tokens (registry db) !! id with
    | None => (Err ErrNotFound, db)
    | Some row =>
        let token := token_update (Token_OrganizationID (token_row row)) (Token_ClaimedAt (token_row row))
          (match Token_RevokedAt (token_row row) with
           | Some at_ => Some at_
           | None => Some (pg_timestamptz (now_or clock t))
           end) (now db) (token_row row) in
        (Ok token, with_claims (<[id := mkTokenRow token (token_hash row)]>
           (device_claim_tokens (registry db))) (device_claims (registry db)) db)
    end.
Proof.
  unfold revokeDeviceClaimToken, mbind, M_bind. rewrite update_claim_token_run.
  by destruct (device_claim_tokens (registry db) !! id).
Qed.

(** The claim tables after a change, the others as they were. *)
Lemma consistent_with_claims tokens claims db :
  consistent db → tokens_ok (registry (with_claims tokens claims db)) →
  claims_ok (registry (with_claims tokens claims db)) → consistent (with_claims tokens claims db).
Proof. intros [] Ht Hc. by split. Qed.

Lemma tokens_ok_update tokens claims (db : DB) id row t :
  tokens_ok (registry db) → device_claim_tokens (registry db) !! id = Some row →
  Token_ID t = Token_ID (token_row row) →
  tokens = <[id := mkTokenRow t (token_hash row)]> (device_claim_tokens (registry db)) →
  tokens_ok (registry (with_claims tokens claims db)).
Proof.
  intros [Hk Hu] Hrow Hid ->. constructor; simpl.
  - intros j x. rewrite lookup_insert_Some. intros [[<- <-]|[? Hx]]; simpl; [|eauto].
    rewrite Hid. by apply Hk.
  - intros i j x y. rewrite !lookup_insert_Some. intros [[<- <-]|[? Hx]] [[<- <-]|[? Hy]] Hh; eauto.
Qed.

Lemma claims_ok_insert tokens (db : DB) k row :
  claims_ok (registry db) → DeviceClaim_ID (claim_row row) = k →
  (∀ id x, device_claims (registry db) !! id = Some x → id ≠ k →
     DeviceClaim_TokenID (claim_row x) ≠ DeviceClaim_TokenID (claim_row row)) →
  claims_ok (registry (with_claims tokens (<[k := row]> (device_claims (registry db))) db)).
Proof.
  intros [Hk Hu] <- Hone. constructor; simpl.
  - intros j x. rewrite lookup_insert_Some. intros [[<- <-]|[? Hx]]; [done|eauto].
  - intros i j x y. rewrite !lookup_insert_Some. intros [[<- <-]|[? Hx]] [[<- <-]|[? Hy]] Hh; eauto.
    + by destruct (Hone _ _ Hy).
    + by destruct (Hone _ _ Hx).
Qed.

Lemma consistent_claimed clock input id row db r db' :
  consistent db → device_claim_tokens (registry db) !! id = Some row →
  claimed clock input (token_row row) db r db' → consistent db'.
Proof.
  intros Hc Hrow Hcl. destruct (claimed_state _ _ _ _ _ _ Hcl) as (row' & Hrow' & ->).
  destruct (claimed_claim_fresh _ _ _ _ _ _ Hcl) as [_ Hone].
  destruct (claimed_claim _ _ _ _ _ _ Hcl) as (Htok & _).
  apply consistent_with_claims.
  - by repeat apply consistent_uuid; apply consistent_insert_device.
  - eapply tokens_ok_update; [exact (c_tokens _ Hc)|exact Hrow'| |reflexivity]; done.
  - apply (claims_ok_insert _ (use_uuid (use_uuid (with_devices _ db)))); [exact (c_claims _ Hc)|done|].
    intros i x Hx _. simpl. rewrite Htok. by eapply Hone.
Qed.

Lemma registers_consistent : registers keeps_consistent.
Proof.
  split.
  - intros o input db [d|e] db' H Hc.
    + apply createDeviceTx_ok in H as (_ & _ & _ & H). apply insert_device_ok in H as (_ & _ & ->).
      by apply consistent_uuid, consistent_insert_device.
    + by apply createDeviceTx_writes_last in H as ->.
  - intros clock input grants db [t|e] db' H Hc.
    + apply createDeviceClaimTokenTx_insert in H.
      pose proof (insert_claim_token_tokens_ok _ _ _ _ _ H (c_tokens _ Hc)) as Hok.
      apply insert_claim_token_ok in H as (_ & _ & _ & ->).
      apply consistent_uuid, consistent_with_claims; [done|done|].
      destruct (c_claims _ Hc) as [Hk Hu]. by split.
    + by apply createDeviceClaimTokenTx_writes_last in H as ->.
  - intros clock i t db r db' H Hc. rewrite revoke_run in H.
    destruct (device_claim_tokens (registry db) !! i) as [row|] eqn:Hrow; injection H as _ <-; [|done].
    apply consistent_with_claims; [done| |].
    + eapply tokens_ok_update; [apply Hc|exact Hrow| |reflexivity]; done.
    + destruct (c_claims _ Hc) as [Hk Hu]. by split.
  - intros clock input db [r|e] db' H Hc; [|by apply transaction_err in H as ->].
    apply ResolveDeviceClaimToken_ok in H as (_ & id & row & db1 & Hrow & _ & _ & Hcl & ->).
    apply (consistent_claimed _ _ _ _ _ _ _ Hc Hrow) in Hcl as []. by split.
Qed.

Lemma override_consistent db db' : override_effect db db' → keeps_consistent db db'.
Proof.
  intros He Hc. destruct (He (c_claims _ Hc))
    as [->|(clock & input & claim & token & device & reservation & result & Ht & Ho)]; [done|].
  destruct (ov_state _ _ _ _ _ _ _ _ _ Ho) as (hash & payload & Hhash & ->).
  pose proof (tr_token _ _ _ _ _ Ht) as Htok.
  destruct (device_claim_tokens (registry db) !! _) as [row|] eqn:Hrow; [|done].
  simpl in Hhash, Htok. injection Hhash as <-. injection Htok as <-.
  rewrite (ov_device _ _ _ _ _ _ _ _ _ Ho), (ov_token _ _ _ _ _ _ _ _ _ Ho),
    (ov_claim _ _ _ _ _ _ _ _ _ Ho).
  assert (∀ e s, consistent s → consistent (with_audit e s)) as Haudit by (by intros e s []).
  apply Haudit, consistent_with_claims.
  - apply consistent_insert_device; [done|]. apply (tr_device_id _ _ _ _ _ Ht).
  - eapply tokens_ok_update; [exact (c_tokens _ Hc)|exact Hrow| |reflexivity]; done.
  - apply (claims_ok_insert _ (with_devices _ db)); [exact (c_claims _ Hc)|done|].
    intros i x Hx Hne Heq. simpl in *. pose proof (transferable_claim _ _ _ _ _ (c_claims _ Hc) Ht) as Hcl.
    destruct (device_claims (registry db) !! DeviceClaim_ID claim) as [crow|] eqn:Hcrow; [|done].
    simpl in Hcl. injection Hcl as Hcl. apply Hne.
    apply (claims_per_token _ (c_claims _ Hc) _ _ _ _ Hx Hcrow). by rewrite Heq, Hcl.
Qed.

Lemma reachable_by_consistent allowed db db' :
  reachable_by allowed db db' → consistent db → consistent db'.
Proof.
  apply (reachable_by_respects keeps_consistent respects_consistent registers_consistent).
  intros q _. by apply override_steps, override_consistent.
Qed.

(** The tables stay consistent: in every store any requests lead to, rows are stored under
    their own keys, every command belongs to an existing operation, every message row satisfies
    the constraints of its table, no two tokens have the same hash and no token has two claims. *)
Theorem reachable_consistent db db' : consistent db → reachable db db' → consistent db'.
Proof. intros Hc Hr. by apply (reachable_by_consistent _ _ _ Hr). Qed.

(** ** History is append-only *)

(** The request columns of an operation. *)
Definition same_request (o o' : DeviceOperation) : Prop :=
  DeviceOperation_ID o = DeviceOperation_ID o' ∧
  DeviceOperation_OperationID o = DeviceOperation_OperationID o' ∧
  DeviceOperation_CorrelationID o = DeviceOperation_CorrelationID o' ∧
  DeviceOperation_OrganizationID o = DeviceOperation_OrganizationID o' ∧
  DeviceOperation_DeviceID o = DeviceOperation_DeviceID o' ∧
  DeviceOperation_OperationType o = DeviceOperation_OperationType o' ∧
  DeviceOperation_RequestedBy o = DeviceOperation_RequestedBy o' ∧
  DeviceOperation_RequestPayload o = DeviceOperation_RequestPayload o' ∧
  DeviceOperation_CreatedAt o = DeviceOperation_CreatedAt o'.

#[export] Instance same_request_equivalence : Equivalence same_request.
Proof. unfold same_request. split; red; naive_solver congruence. Qed.

(** Rows of a table stay, up to the columns [same] compares. *)
Definition rows_stay {A} (same : relation A) (t t' : gmap string A) : Prop :=
  ∀ k x, t !! k = Some x → ∃ x', t' !! k = Some x' ∧ same x' x.

#[export] Instance rows_stay_preorder {A} (same : relation A) `{!PreOrder same} :
  PreOrder (rows_stay same).
Proof.
  split.
  - intros t k x ?. by exists x.
  - intros t t1 t2 H1 H2 k x Hx. destruct (H1 _ _ Hx) as (x1 & Hx1 & S1).
    destruct (H2 _ _ Hx1) as (x2 & ? & S2). exists x2. split; [done|]. by etrans.
Qed.

Lemma rows_stay_insert {A} (same : relation A) `{!PreOrder same} t k x :
  (∀ y, t !! k = Some y → same x y) → rows_stay same t (<[k := x]> t).
Proof.
  intros Hs k' y Hy. destruct (decide (k' = k)) as [->|Hne].
  - exists x. by rewrite lookup_insert_eq; auto.
  - exists y. by rewrite lookup_insert_ne by done.
Qed.

(** What a token stands for, and that it was claimed or revoked, is for ever. *)
Definition token_kept (x' x : TokenRow) : Prop :=
  let t' := token_row x' in
  let t := token_row x in
  token_hash x' = token_hash x ∧ Token_ID t' = Token_ID t ∧
  Token_DeviceItemProfileID t' = Token_DeviceItemProfileID t ∧ Token_Category t' = Token_Category t ∧
  Token_VideoCloudDevid t' = Token_VideoCloudDevid t ∧ Token_ActivityID t' = Token_ActivityID t ∧
  Token_ClipPublicKey t' = Token_ClipPublicKey t ∧ Token_ServiceOptions t' = Token_ServiceOptions t ∧
  Token_Metadata t' = Token_Metadata t ∧ Token_ExpiresAt t' = Token_ExpiresAt t ∧
  (is_Some (Token_ClaimedAt t) → Token_ClaimedAt t' = Token_ClaimedAt t) ∧
  (is_Some (Token_RevokedAt t) → Token_RevokedAt t' = Token_RevokedAt t).

(** Which device a claim made of which token. *)
Definition claim_kept (x' x : ClaimRow) : Prop :=
  let c' := claim_row x' in
  let c := claim_row x in
  DeviceClaim_ID c' = DeviceClaim_ID c ∧ DeviceClaim_TokenID c' = DeviceClaim_TokenID c ∧
  DeviceClaim_DeviceID c' = DeviceClaim_DeviceID c ∧
  DeviceClaim_ProvisionInput c' = DeviceClaim_ProvisionInput c ∧
  DeviceClaim_CreatedAt c' = DeviceClaim_CreatedAt c.

#[export] Instance token_kept_preorder : PreOrder token_kept.
Proof.
  unfold token_kept. split; [by intros x; split_and!|].
  intros x y z (?&?&?&?&?&?&?&?&?&?&Hc&Hr) (?&?&?&?&?&?&?&?&?&?&Hc'&Hr').
  split_and!; try congruence.
  - intros Hs. pose proof (Hc' Hs) as E. rewrite <-E in *. auto.
  - intros Hs. pose proof (Hr' Hs) as E. rewrite <-E in *. auto.
Qed.
#[export] Instance claim_kept_preorder : PreOrder claim_kept.
Proof. unfold claim_kept. split; red; naive_solver congruence. Qed.

Definition history (db db' : DB) : Prop :=
  rows_stay same_request (device_operations db) (device_operations db') ∧
  rows_stay same_command (device_message_outbox db) (device_message_outbox db') ∧
  rows_stay same_event (device_message_inbox db) (device_message_inbox db') ∧
  audit_events db `prefix_of` audit_events db' ∧
  rows_stay token_kept (device_claim_tokens (registry db)) (device_claim_tokens (registry db')) ∧
  rows_stay claim_kept (device_claims (registry db)) (device_claims (registry db')).

#[export] Instance history_preorder : PreOrder history.
Proof.
  split.
  - intros db. split_and!; reflexivity.
  - intros db db1 db2 (?&?&?&?&?&?) (?&?&?&?&?&?). split_and!; by etrans.
Qed.

Ltac unchanged := split_and!; simpl; reflexivity.

Lemma history_rewritten i db db' : device_rewritten i db db' → history db db'.
Proof. intros [->|(d & d' & _ & _ & ->)]; unchanged. Qed.

Lemma history_claim before until n db r db' :
  outbox_keyed db → ClaimOutboxMessagesReady before until n db = (r, db') → history db db'.
Proof.
  intros Hk Hr. destruct r as [ms|e].
  - pose proof (claim_leases _ _ _ _ _ _ Hk Hr) as (_ & _ & Hin & Hout & _ & ->).
    split_and!; try (simpl; reflexivity). intros k m Hm. simpl.
    destruct (decide (k ∈ ids_of ms)) as [Hid|Hid].
    + apply list_elem_of_fmap in Hid as (m' & -> & Hm'). destruct (Hin _ Hm') as (m0 & H0 & _ & E & H1).
      rewrite Hm in H0. injection H0 as <-. exists m'. split; [done|]. rewrite E. apply same_command_claim.
    + exists m. by rewrite Hout.
  - rewrite claim_run in Hr. destruct (n <? 0); [|done]. injection Hr as _ <-. reflexivity.
Qed.

(** From a consistent store on. *)
Definition advances (db db' : DB) : Prop :=
  keeps_consistent db db' ∧ (consistent db → history db db').

#[export] Instance advances_preorder : PreOrder advances.
Proof.
  split.
  - intros db. split; [reflexivity|]. intros _. reflexivity.
  - intros db db1 db2 [C1 H1] [C2 H2]. split; [by etrans|]. intros Hc. etrans; eauto.
Qed.

Lemma steps_advances {A} (m : Store A) :
  steps keeps_consistent m → (∀ db r db', consistent db → m db = (r, db') → history db db') →
  steps advances m.
Proof. intros Hc Hh db r db' Hr. split; [by eapply Hc|]. intros ?. by eapply Hh. Qed.

Lemma respects_advances : respects advances.
Proof.
  each_statement; (apply steps_advances; [by apply respects_consistent|]); intros db r db' Hc H.
  - injection H as _ <-. unchanged.
  - rewrite insert_operation_run in H. destruct (cloud_deletion_fenced _ _); [by injection H as _ <-|].
    destruct (device_operations db !! _) eqn:Ho; injection H as _ <-; [done|].
    split_and!; try (simpl; reflexivity). apply rows_stay_insert; [typeclasses eauto|].
    intros y Hy. congruence.
  - rewrite update_operation_run in H. destruct (device_operations db !! i) as [o|] eqn:Ho;
      [|by injection H as _ <-].
    destruct (cloud_deletion_fenced _ _); injection H as _ <-; [done|].
    split_and!; try (simpl; reflexivity). apply rows_stay_insert; [typeclasses eauto|].
    intros y Hy. by simplify_eq.
  - destruct (insert_outbox_cases _ _ _ _ H) as [->| ->]; [done|].
    apply insert_outbox_ok in H as (_ & _ & Hfree & _ & ->).
    split_and!; try (simpl; reflexivity). apply rows_stay_insert; [typeclasses eauto|].
    intros y Hy. congruence.
  - destruct (update_outbox_cases _ _ _ _ _ _ _ _ _ H) as [->|Hr]; [done|].
    destruct r as [r|]; [|done]. apply update_outbox_ok in H.
    destruct (device_message_outbox db !! i) as [x|] eqn:Hm; [|by destruct H as [_ ->]].
    destruct H as (_ & _ & ->). split_and!; try (simpl; reflexivity).
    apply rows_stay_insert; [typeclasses eauto|]. intros y Hy. by simplify_eq.
  - by eapply history_claim; [apply Hc|].
  - destruct (insert_inbox_cases _ _ _ _ H) as [->|Hr]; [done|].
    destruct r as [r|]; [|done]. apply insert_inbox_ok in H as [_ H].
    destruct (device_message_inbox db !! _) eqn:Hm; destruct H as [_ ->]; [done|].
    split_and!; try (simpl; reflexivity). apply rows_stay_insert; [typeclasses eauto|].
    intros y Hy. congruence.
  - destruct (update_inbox_cases _ _ _ _ _ _ _ _ H) as [->|Hr]; [done|].
    destruct r as [r|]; [|done]. apply update_inbox_ok in H.
    destruct (device_message_inbox db !! i) as [x|] eqn:Hm; [|by destruct H as [_ ->]].
    destruct H as (_ & _ & ->). split_and!; try (simpl; reflexivity).
    apply rows_stay_insert; [typeclasses eauto|]. intros y Hy. by simplify_eq.
  - by eapply history_rewritten, update_device_rewritten.
  - by eapply history_rewritten, updateDevice_rewritten.
  - by eapply history_rewritten, updateDeviceStatus_rewritten.
  - injection H as _ <-. eapply history_rewritten, disable_rewritten.
  - destruct (delete_device_cases _ _ _ _ _ H) as [->| ->]; unchanged.
  - injection H as _ <-. split_and!; try (simpl; reflexivity). by eexists.
Qed.

(** Only the claim tables and the audit log, or only devices. *)
Lemma history_claims tokens claims (db : DB) :
  rows_stay token_kept (device_claim_tokens (registry db)) tokens →
  rows_stay claim_kept (device_claims (registry db)) claims →
  history db (with_claims tokens claims db).
Proof. intros Ht Hc. split_and!; simpl; first [done|reflexivity]. Qed.

Lemma claimed_history clock input id row db r db' :
  consistent db → device_claim_tokens (registry db) !! id = Some row →
  claimed clock input (token_row row) db r db' → history db db'.
Proof.
  intros Hc Hrow Hcl. destruct (claimed_state _ _ _ _ _ _ Hcl) as (row' & Hrow' & ->).
  pose proof (claimed_unclaimed _ _ _ _ _ _ Hcl) as Hun.
  rewrite (tokens_keyed _ (c_tokens _ Hc) _ _ Hrow), Hrow in Hrow'. injection Hrow' as <-.
  etrans; [|apply history_claims].
  - unchanged.
  - simpl. apply rows_stay_insert; [typeclasses eauto|].
    intros y Hy. rewrite (tokens_keyed _ (c_tokens _ Hc) _ _ Hrow), Hrow in Hy. injection Hy as <-.
    split_and!; try done. rewrite Hun. by intros [].
  - simpl. apply rows_stay_insert; [typeclasses eauto|].
    intros y Hy. destruct (claimed_claim_fresh _ _ _ _ _ _ Hcl). congruence.
Qed.

Lemma history_registers : registers advances.
Proof.
  split.
  - intros o input. apply steps_advances; [apply registers_consistent|]. intros db [d|e] db' _ H.
    + apply createDeviceTx_ok in H as (_ & _ & _ & H). apply insert_device_ok in H as (_ & _ & ->).
      unchanged.
    + by apply createDeviceTx_writes_last in H as ->.
  - intros clock input grants. apply steps_advances; [apply registers_consistent|].
    intros db [t|e] db' _ H; [|by apply createDeviceClaimTokenTx_writes_last in H as ->].
    apply createDeviceClaimTokenTx_insert, insert_claim_token_ok in H as (_ & Hfree & _ & ->).
    etrans; [apply history_claims|unchanged]; [|reflexivity].
    apply rows_stay_insert; [typeclasses eauto|]. intros y Hy. congruence.
  - intros clock i t. apply steps_advances; [apply registers_consistent|]. intros db r db' _ H.
    rewrite revoke_run in H. destruct (device_claim_tokens (registry db) !! i) as [row|] eqn:Hrow;
      injection H as _ <-; [|done].
    apply history_claims; [|reflexivity]. apply rows_stay_insert; [typeclasses eauto|].
    intros y Hy. rewrite Hrow in Hy. injection Hy as <-. split_and!; try done.
    intros [at_ Hat]. simpl. by rewrite Hat.
  - intros clock input. apply steps_advances; [apply registers_consistent|].
    intros db [r|e] db' Hc H; [|by apply transaction_err in H as ->].
    apply ResolveDeviceClaimToken_ok in H as (_ & id & row & db1 & Hrow & _ & _ & Hcl & ->).
    etrans; [by eapply claimed_history|]. split_and!; try (simpl; reflexivity). by eexists.
Qed.

Lemma override_advances db db' : override_effect db db' → advances db db'.
Proof.
  intros He. split; [by apply override_consistent|]. intros Hc. destruct (He (c_claims _ Hc))
    as [->|(clock & input & claim & token & device & reservation & result & Ht & Ho)]; [done|].
  destruct (ov_state _ _ _ _ _ _ _ _ _ Ho) as (hash & payload & Hhash & ->).
  pose proof (tr_token _ _ _ _ _ Ht) as Htok.
  pose proof (transferable_claim _ _ _ _ _ (c_claims _ Hc) Ht) as Hcl.
  split_and!; try (simpl; reflexivity); [by eexists|..]; simpl;
    (apply rows_stay_insert; [typeclasses eauto|]); intros y Hy.
  - rewrite Hy in Hhash, Htok. simpl in Hhash, Htok. injection Hhash as <-. injection Htok as <-.
    rewrite (ov_token _ _ _ _ _ _ _ _ _ Ho). by split_and!.
  - rewrite Hy in Hcl. simpl in Hcl. injection Hcl as <-. rewrite (ov_claim _ _ _ _ _ _ _ _ _ Ho).
    split_and!; try done. simpl. apply (tr_device_id _ _ _ _ _ Ht).
Qed.

Lemma reachable_history db db' : consistent db → reachable db db' → history db db'.
Proof.
  intros Hc Hr. apply (reachable_by_respects advances respects_advances history_registers _ _ _) in Hr
    as [_ Hr]; [auto|]. intros q _. by apply override_steps, override_advances.
Qed.

(** C1: history is append-only: whatever requests are made, no operation, command, event, claim token
    or claim is ever removed, what was asked, sent, received or claimed under an id never changes
    afterwards (only statuses, attempts, errors, times, results and owners do), a claimed or
    revoked token stays so, and the audit log only grows. *)
Theorem history_is_append_only db db' :
  consistent db → reachable db db' →
  rows_stay same_request (device_operations db) (device_operations db') ∧
  rows_stay same_command (device_message_outbox db) (device_message_outbox db') ∧
  rows_stay same_event (device_message_inbox db) (device_message_inbox db') ∧
  audit_events db `prefix_of` audit_events db' ∧
  rows_stay token_kept (device_claim_tokens (registry db)) (device_claim_tokens (registry db')) ∧
  rows_stay claim_kept (device_claims (registry db)) (device_claims (registry db')).
Proof. apply reachable_history. Qed.

(** ** A redelivered record *)

(** A request that opens a settled message again: the operator's requeue, or a handler that
    still holds an older copy and records a retry. *)
Definition reopens (messageID : string) (q : request) : Prop :=
  ∃ st, inbox_write q messageID st ∧ st ≠ DeviceMessageInboxStatusProcessed ∧
    st ≠ DeviceMessageInboxStatusDeadLettered.

(** The message stays settled. *)
Definition stays_settled (messageID : string) (db db' : DB) : Prop :=
  ∀ m, device_message_inbox db !! messageID = Some m → settled m →
    ∃ m', device_message_inbox db' !! messageID = Some m' ∧ settled m'.

#[export] Instance stays_settled_preorder i : PreOrder (stays_settled i).
Proof.
  split; [by intros db m ? ?; exists m|]. intros db db1 db2 H1 H2 m Hm Hs.
  destruct (H1 m Hm Hs) as (m1 & ? & ?). eauto.
Qed.

Lemma stays_settled_same i db db' :
  device_message_inbox db' = device_message_inbox db → stays_settled i db db'.
Proof. intros E m Hm Hs. exists m. by rewrite E. Qed.
Ltac same_inbox := apply stays_settled_same; reflexivity.

Lemma settled_rewritten i j db db' : device_rewritten j db db' → stays_settled i db db'.
Proof. intros [->|(d & d' & _ & _ & ->)]; same_inbox. Qed.

(** An update to a settled status, or of another row. *)
Definition settling (i j : string) (st : DeviceMessageInboxStatus) : Prop :=
  j = i → st = DeviceMessageInboxStatusProcessed ∨ st = DeviceMessageInboxStatusDeadLettered.

Lemma settled_update_inbox i j st n e p : settling i j st → steps (stays_settled i) (update_inbox j st n e p).
Proof.
  intros Hst db r db' H. destruct (update_inbox_cases _ _ _ _ _ _ _ _ H) as [->|Hr]; [reflexivity|].
  destruct r as [r|]; [|done]. apply update_inbox_ok in H.
  destruct (device_message_inbox db !! j) as [x|] eqn:Hx; [|destruct H as [_ ->]; reflexivity].
  destruct H as (_ & _ & ->). intros m Hm Hs. destruct (decide (j = i)) as [->|Hne].
  - eexists. split; [apply lookup_insert_eq|]. by apply Hst.
  - exists m. simpl. by rewrite lookup_insert_ne.
Qed.

Lemma respects_settled i : respects_for (stays_settled i) (settling i).
Proof.
  split; intros; try (intros db r db' H).
  - injection H as _ <-. same_inbox.
  - rewrite insert_operation_run in H.
    repeat case_match; injection H as _ <-; same_inbox.
  - rewrite update_operation_run in H. repeat case_match; injection H as _ <-; same_inbox.
  - destruct (insert_outbox_cases _ _ _ _ H) as [->| ->]; [reflexivity|].
    apply insert_outbox_ok in H as (_ & _ & _ & _ & ->). same_inbox.
  - destruct (update_outbox_cases _ _ _ _ _ _ _ _ _ H) as [->|Hr]; [reflexivity|].
    destruct r as [r|]; [|done]. apply update_outbox_ok in H.
    destruct (device_message_outbox db !! i0); [destruct H as (_ & _ & ->)|destruct H as [_ ->]]; same_inbox.
  - rewrite claim_run in H. destruct (n <? 0); injection H as _ <-; same_inbox.
  - destruct (insert_inbox_cases _ _ _ _ H) as [->|Hr]; [reflexivity|].
    destruct r as [r|]; [|done]. apply insert_inbox_ok in H as [_ H].
    destruct (device_message_inbox db !! _) eqn:Hm; destruct H as [_ ->]; [reflexivity|].
    intros x Hx Hs. exists x. simpl. rewrite lookup_insert_ne; [done|]. congruence.
  - by eapply settled_update_inbox.
  - by eapply settled_rewritten, update_device_rewritten.
  - by eapply settled_rewritten, updateDevice_rewritten.
  - by eapply settled_rewritten, updateDeviceStatus_rewritten.
  - injection H as _ <-. eapply settled_rewritten, disable_rewritten.
  - destruct (delete_device_cases _ _ _ _ _ H) as [->| ->]; same_inbox.
  - injection H as _ <-. same_inbox.
Qed.

Lemma registers_settled i : registers (stays_settled i).
Proof.
  split.
  - intros o input db [d|e] db' H.
    + apply createDeviceTx_ok in H as (_ & _ & _ & H). apply insert_device_ok in H as (_ & _ & ->).
      same_inbox.
    + apply createDeviceTx_writes_last in H as ->. reflexivity.
  - intros clock input grants db [t|e] db' H.
    + apply createDeviceClaimTokenTx_insert, insert_claim_token_ok in H as (_ & _ & _ & ->). same_inbox.
    + apply createDeviceClaimTokenTx_writes_last in H as ->. reflexivity.
  - intros clock j t db r db' H. rewrite revoke_run in H.
    destruct (device_claim_tokens (registry db) !! j); injection H as _ <-; same_inbox.
  - intros clock input db [r|e] db' H.
    + apply ResolveDeviceClaimToken_ok in H as (_ & id & row & db1 & _ & _ & _ & Hcl & ->).
      destruct (claimed_state _ _ _ _ _ _ Hcl) as (row' & _ & ->). same_inbox.
    + apply transaction_err in H as ->. reflexivity.
Qed.

(** With the consistency an override needs. *)
Definition settled_on (i : string) (db db' : DB) : Prop :=
  keeps_consistent db db' ∧ (consistent db → stays_settled i db db').

#[export] Instance settled_on_preorder i : PreOrder (settled_on i).
Proof.
  split; [by intros db; split|]. intros db db1 db2 [C1 S1] [C2 S2]. split; [by etrans|].
  intros Hc. etrans; [by apply S1|]. by apply S2, C1.
Qed.

Lemma steps_settled {A} i (m : Store A) :
  steps keeps_consistent m → steps (stays_settled i) m → steps (settled_on i) m.
Proof. intros Hc Hs db r db' H. split; [by eapply Hc|]. intros _. by eapply Hs. Qed.

Lemma reachable_settled i db db' :
  consistent db → reachable_by (λ q, ¬ reopens i q) db db' → stays_settled i db db'.
Proof.
  intros Hc Hr. apply (reachable_by_respects_for (settled_on i) (settling i)) in Hr as [_ Hr]; [auto|..].
  - pose proof respects_consistent as C. pose proof (respects_settled i) as S.
    split; intros; apply steps_settled; (by apply C) || (by apply S).
  - pose proof registers_consistent as C. pose proof (registers_settled i) as S.
    split; intros; apply steps_settled; (by apply C) || (by apply S).
  - intros q Hq j st Hw ->. destruct (decide (st = DeviceMessageInboxStatusProcessed)); [by left|].
    destruct (decide (st = DeviceMessageInboxStatusDeadLettered)); [by right|].
    destruct Hq. by exists st.
  - intros q _. apply override_steps. intros db1 db2 He. split; [by apply override_consistent|].
    intros Hc1. destruct (He (c_claims _ Hc1))
      as [->|(clock & input & claim & token & device & reservation & result & _ & Ho)]; [reflexivity|].
    destruct (ov_state _ _ _ _ _ _ _ _ _ Ho) as (hash & payload & _ & ->). same_inbox.
Qed.

Lemma reachable_by_reachable allowed db db' : reachable_by allowed db db' → reachable db db'.
Proof. induction 1; [apply reach_refl|by eapply reach_step]. Qed.

(** Handling a record keeps the tables consistent. *)
Lemma steps_ignore {A} (R : relation DB) (m : Store A) : steps R (ignore m) → steps R m.
Proof.
  intros H db r db' E. apply (H db (match r with Ok _ => Ok tt | Err e => Err e end) db').
  unfold ignore, mbind, M_bind. rewrite E. by destruct r.
Qed.

Lemma request_consistent q : overriding q = false → steps keeps_consistent (handle q).
Proof.
  intros Hq. apply (handle_steps _ _ respects_consistent registers_consistent); [done|].
  by rewrite Hq.
Qed.

Lemma with_now_consistent db t : keeps_consistent db (with_now t db).
Proof. by intros []. Qed.

Lemma process_registered_consistent tr svc record m :
  steps (on_db keeps_consistent) (process_registered tr svc record m).
Proof.
  apply process_registered_steps; [typeclasses eauto|apply (clock_on_db keeps_consistent)|..].
  - intros id. apply (in_db_steps keeps_consistent); [apply with_now_consistent|].
    intros db r db' Hr. apply get_operation_tables in Hr as [t ->]. apply with_now_consistent.
  - intros x st n e p y. apply (in_db_steps keeps_consistent); [apply with_now_consistent|].
    apply steps_ignore. exact (request_consistent (RecordProcess _) eq_refl).
Qed.

Lemma processMessage_consistent tr svc record :
  steps (on_db keeps_consistent) (processMessage (S:=World) tr svc record).
Proof.
  intros w r w' Hr. destruct (processMessage_run tr svc record w) as (at_ & t & w1 & Hw1 & E).
  rewrite E in Hr. destruct (CreateOrGetInboxMessage _ _) as [x db] eqn:Hc.
  assert (keeps_consistent (w_db w) db) as Hdb.
  { etrans; [apply (with_now_consistent _ t)|].
    by eapply (steps_ignore _ _ (request_consistent (RegisterEvent _) eq_refl)). }
  destruct x as [[m created]|e]; [|by injection Hr as _ <-].
  destruct (negb created && settledb m); [by injection Hr as _ <-|].
  red. etrans; [exact Hdb|]. change db with (w_db (w_with_db db w1)).
  by eapply process_registered_consistent.
Qed.

(** Whatever requests run after an acknowledged record, if none opens its message again,
    the next delivery is a matter of the stored row alone. *)
Lemma acknowledged_stays tr svc record w o w1 w2 :
  consistent (w_db w) →
  processMessage tr svc record w = (Ok o, w1) → shouldAcknowledgeOutcome o = true →
  reachable_by (λ q, ¬ reopens (MessageID (Message_Envelope record)) q) (w_db w1) (w_db w2) →
  (blank (PartitionKey (Message_Envelope record)) = true →
     is_Some (device_operations (w_db w1) !! OperationID (Message_Envelope record))) →
  ∃ row at_, device_message_inbox (w_db w2) !! MessageID (Message_Envelope record) = Some row ∧
    settled row ∧
    same_inbox_message row (keyed_input (device_operations (w_db w2)) (inbox_create record at_)) ∧
    inbox_row_ok (inbox_row_of
      (keyed_input (device_operations (w_db w2)) (inbox_create record at_)) (w_db w2)).
Proof.
  intros Hc Hr Hack Hreach Hkey.
  destruct (processMessage_acknowledged tr svc record w o w1 (c_inbox _ Hc) Hr Hack)
    as (row & at_ & Hrow & Hset & Hsame & Hok).
  assert (consistent (w_db w1)) as Hc1 by (by eapply processMessage_consistent).
  destruct (reachable_settled _ _ _ Hc1 Hreach row Hrow Hset) as (row2 & Hrow2 & Hset2).
  destruct (reachable_history _ _ Hc1 (reachable_by_reachable _ _ _ Hreach)) as (Hops & _ & Hin & _).
  destruct (Hin _ _ Hrow) as (row2' & Hrow2' & Hev). rewrite Hrow2 in Hrow2'. injection Hrow2' as <-.
  assert (keyed_input (device_operations (w_db w2)) (inbox_create record at_) =
    keyed_input (device_operations (w_db w1)) (inbox_create record at_)) as Hk.
  { unfold keyed_input. simpl. destruct (blank _) eqn:Eb; [|done].
    destruct (Hkey eq_refl) as [x Hx]. destruct (Hops _ _ Hx) as (x' & Hx' & (_ & _ & _ & _ & Hd & _)).
    by rewrite Hx, Hx', Hd. }
  exists row2, at_. rewrite Hk. split_and!; [done|done|by eapply same_event_message|exact Hok].
Qed.

(** C8: every event takes effect once.  After a record has been handled to the point where it is
    acknowledged, let any requests run, at any times and with any outcomes, among them
    the handling of other records, as long as none opens the record's message again (the
    operator's requeue does, and so does a second worker that was still handling the same
    record and records a retry).  Then handling the same record again is answered with nothing
    to do and leaves every table as it is.  The record names its device, or the operation it is
    about is known by then: a blank key is filled in from the operation. *)
Theorem redelivery_changes_nothing tr svc record w o w1 w2 :
  consistent (w_db w) →
  processMessage tr svc record w = (Ok o, w1) → shouldAcknowledgeOutcome o = true →
  reachable_by (λ q, ¬ reopens (MessageID (Message_Envelope record)) q) (w_db w1) (w_db w2) →
  (blank (PartitionKey (Message_Envelope record)) = true →
     is_Some (device_operations (w_db w1) !! OperationID (Message_Envelope record))) →
  ∃ w3, processMessage tr svc record w2 = (Ok None, w3) ∧ same_tables (w_db w2) (w_db w3).
Proof.
  intros Hc Hr Hack Hreach Hkey.
  destruct (acknowledged_stays tr svc record w o w1 w2 Hc Hr Hack Hreach Hkey)
    as (row & at_ & Hrow & Hset & Hsame & Hok).
  by apply (processMessage_skips tr svc record w2 row at_).
Qed.

(** ** The theorems at work: a provisioning is requested *)

Lemma sample_consistent : consistent sample_db.
Proof.
  split; try apply map_Forall_empty; try (by apply map_Forall_singleton);
    split; intros; simpl in *; by simplify_eq.
Qed.

Lemma sample_reachable : ∃ db', reachable sample_db db' ∧ device_operations db' !! "op-2" ≠ None.
Proof.
  destruct (run_check (λ _ db', bool_decide (is_Some (device_operations db' !! "op-2")))
    (handle (StartProvision false sample_provision_input)) sample_db)
    as (u & db' & E & Hop%bool_decide_eq_true); [vm_compute; reflexivity|].
  exists db'. split; [|by apply not_eq_None_Some].
  eapply reach_step; [apply reach_refl|done|exact E].
Qed.

Lemma reachable_consistent_witness :
  ∃ db', reachable sample_db db' ∧ device_operations db' !! "op-2" ≠ None ∧ consistent db'.
Proof.
  destruct sample_reachable as (db' & Hr & Hop). exists db'. split_and!; [exact Hr|exact Hop|].
  exact (reachable_consistent sample_db db' sample_consistent Hr).
Defined.

(** Between the two deliveries another event about the device is handled and time passes. *)
Definition sample_between : list request :=
  [Tick (GoTime.Add sample_time (60 * Second));
   Project sample_org sample_uuid (OnlineChangedProjection
     (mkOnlineChanged sample_org sample_uuid "devid-1" "online" (mkTime (1700000050 * Second) 0)))].

Fixpoint handle_all (qs : list request) (db : DB) : DB :=
  match qs with [] => db | q :: qs => handle_all qs (handle q db).2 end.

Lemma handle_all_reach allowed qs db db' :
  Forall allowed qs → reachable_by allowed db db' → reachable_by allowed db (handle_all qs db').
Proof.
  intros Hq. revert db'. induction Hq as [|q qs Hq _ IH]; intros db' H; simpl; [done|].
  apply IH. destruct (handle q db') as [r db1] eqn:E. by eapply reach_step.
Qed.

Lemma sample_between_allowed i : Forall (λ q, ¬ reopens i q) sample_between.
Proof. repeat constructor; intros (st & [] & _). Qed.

Lemma redelivery_changes_nothing_witness :
  ∃ w1 w2 w3, processMessage buildTransitionForPayload sample_inbox_service sample_success
      (sample_world sample_db []) = (Ok (Some DeviceMessageInboxStatusProcessed), w1) ∧
    w_db w2 = handle_all sample_between (w_db w1) ∧
    processMessage buildTransitionForPayload sample_inbox_service sample_success w2 = (Ok None, w3) ∧
    same_tables (w_db w2) (w_db w3).
Proof.
  destruct (run_check (λ o _, bool_decide (o = Some DeviceMessageInboxStatusProcessed))
    (processMessage buildTransitionForPayload sample_inbox_service sample_success)
    (sample_world sample_db [])) as (o & w1 & E & ->%bool_decide_eq_true); [vm_compute; reflexivity|].
  destruct (redelivery_changes_nothing buildTransitionForPayload sample_inbox_service sample_success
    (sample_world sample_db []) (Some DeviceMessageInboxStatusProcessed) w1
    (w_with_db (handle_all sample_between (w_db w1)) w1)) as (w3 & H & Hs).
  - exact sample_consistent.
  - exact E.
  - reflexivity.
  - apply handle_all_reach; [apply sample_between_allowed|apply reach_refl].
  - discriminate.
  - exists w1, (w_with_db (handle_all sample_between (w_db w1)) w1), w3.
    split_and!; [exact E|reflexivity|exact H|exact Hs].
Defined.

Lemma history_is_append_only_witness :
  ∃ db', reachable sample_db db' ∧ device_operations db' !! "op-2" ≠ None ∧
    rows_stay same_request (device_operations sample_db) (device_operations db').
Proof.
  destruct sample_reachable as (db' & Hr & Hop). exists db'. split_and!; [exact Hr|exact Hop|].
  apply (history_is_append_only sample_db db' sample_consistent Hr).
Defined.
