(* ===== verification/ClaimInvariants.v ===== *)
(** * Claims along every run

    Three statements about every store the requests of Requests.v lead to: a
    token that was resolved is never resolved again, a claim, its token and its
    device stay in one organization, and an evaluation organization keeps its
    quota as long as no device is moved into it. *)

From S2P Require Export Pipeline.

Local Open Scope Z_scope.

(** ** A token is spent once *)

(** A request for this token, whatever else it says, fails and changes nothing. *)
Definition refuses_token (hash : string) (db : DB) : Prop :=
  ∀ clock input, CRI_TokenHash input = hash → ∃ e, ResolveDeviceClaimToken clock input db = (Err e, db).

Lemma resolve_step clock input db r db' :
  ResolveDeviceClaimToken clock input db = (r, db') → reachable db db'.
Proof.
  intros H. eapply (reach_step _ _ (ResolveClaim clock input) (_ ← r; Ok tt)); [apply reach_refl|done|].
  simpl. unfold ignore, mbind, M_bind. rewrite H. by destruct r.
Qed.

Lemma used_up_kept hash id row db db' :
  consistent db' → device_claim_tokens (registry db) !! id = Some row → token_hash row = hash →
  used_up hash db →
  rows_stay token_kept (device_claim_tokens (registry db)) (device_claim_tokens (registry db')) →
  used_up hash db'.
Proof.
  intros Hc Hrow Hh Hu Hstay j x Hx Hxh. destruct (Hstay _ _ Hrow) as (row' & Hrow' & Hk).
  assert (j = id) as ->.
  { apply (hashes_unique _ (c_tokens _ Hc) _ _ _ _ Hx Hrow'). rewrite Hxh, <-Hh. symmetry. apply Hk. }
  rewrite Hrow' in Hx. injection Hx as <-. pose proof (Hu _ _ Hrow Hh) as Hs.
  destruct Hk as (_ & _ & _ & _ & _ & _ & _ & _ & _ & _ & -> & _); done.
Qed.

(** C10: a token is good for one device, for ever: once it has been resolved, whatever requests
    follow, no request that presents the same token succeeds, whoever makes it, for whatever
    organization and at whatever time, and it changes nothing. *)
Theorem spent_token_stays_spent clock input db r db1 db2 :
  consistent db → ResolveDeviceClaimToken clock input db = (Ok r, db1) → reachable db1 db2 →
  refuses_token (CRI_TokenHash input) db2.
Proof.
  intros Hc Hres Hr clock' input' Hh. pose proof (reachable_by_consistent _ _ _ (resolve_step _ _ _ _ _ Hres) Hc) as Hc1.
  pose proof (reachable_by_consistent _ _ _ Hr Hc1) as Hc2.
  destruct (reachable_history _ _ Hc1 Hr) as (_ & _ & _ & _ & Htok & _).
  apply ResolveDeviceClaimToken_ok in Hres as (_ & id & row & db0 & Hrow & Hrh & _ & Hcl & ->).
  apply resolve_used_up. rewrite Hh, <-Hrh.
  pose proof (claimed_used_up _ _ _ _ _ _ _ (c_tokens _ Hc) Hrow Hcl) as Hu.
  destruct (claimed_state _ _ _ _ _ _ Hcl) as (row' & Hrow' & Hdb0).
  rewrite (tokens_keyed _ (c_tokens _ Hc) _ _ Hrow), Hrow in Hrow'. injection Hrow' as <-.
  eapply (used_up_kept _ id _ db0); [done| | |exact Hu|exact Htok].
  - rewrite Hdb0. simpl. by rewrite (tokens_keyed _ (c_tokens _ Hc) _ _ Hrow), lookup_insert_eq.
  - reflexivity.
Qed.

(** ** What the pipeline leaves alone *)

(** The claims and the other tables it only reads; no device appears, moves or
    is enabled again. *)
Record undisturbed (db db' : DB) : Prop := {
  un_registry : registry db' = registry db;
  un_uuid : gen_random_uuid db' = gen_random_uuid db;
  un_serial : (uuid_serial db ≤ uuid_serial db')%nat;
  un_devices : ∀ i d', devices db' !! i = Some d' → ∃ d, devices db !! i = Some d ∧ device_kept d' d;
}.

#[export] Instance undisturbed_preorder : PreOrder undisturbed.
Proof.
  split.
  - intros db. constructor; try done. intros i d Hd. exists d. by split_and!.
  - intros x y z [R1 G1 S1 D1] [R2 G2 S2 D2]. constructor; [congruence|congruence|lia|].
    intros i d' Hd. destruct (D2 _ _ Hd) as (d1 & H1 & I1 & O1 & E1).
    destruct (D1 _ _ H1) as (d0 & H0 & I0 & O0 & E0). exists d0. split; [done|].
    split_and!; [congruence|congruence|auto].
Qed.

(** The devices are the same. *)
Lemma undisturbed_same db db' :
  registry db' = registry db → gen_random_uuid db' = gen_random_uuid db →
  (uuid_serial db ≤ uuid_serial db')%nat → devices db' = devices db → undisturbed db db'.
Proof. intros ? ? ? Hd. constructor; try done. rewrite Hd. intros i d Hi. exists d. by split_and!. Qed.

Ltac same_devices := apply undisturbed_same; simpl; (done || lia).

Lemma undisturbed_rewritten i db db' : device_rewritten i db db' → undisturbed db db'.
Proof.
  intros [->|(d & d' & Hd & Hk & ->)]; [reflexivity|]. constructor; try done.
  intros j x. simpl. rewrite lookup_insert_Some. intros [[<- <-]|[_ Hx]]; [by exists d|].
  exists x. by split_and!.
Qed.

Lemma respects_undisturbed : respects undisturbed.
Proof.
  each_statement; intros db r db' H.
  - injection H as _ <-. same_devices.
  - rewrite insert_operation_run in H. destruct (cloud_deletion_fenced _ _); [by injection H as _ <-|].
    destruct (device_operations db !! _); injection H as _ <-; [done|same_devices].
  - rewrite update_operation_run in H. destruct (device_operations db !! i); [|by injection H as _ <-].
    destruct (cloud_deletion_fenced _ _); injection H as _ <-; [done|same_devices].
  - destruct (insert_outbox_cases _ _ _ _ H) as [->| ->]; [done|].
    apply insert_outbox_ok in H as (_ & _ & _ & _ & ->). same_devices.
  - destruct (update_outbox_cases _ _ _ _ _ _ _ _ _ H) as [->|Hr]; [done|].
    destruct r as [r|]; [|done]. apply update_outbox_ok in H.
    destruct (device_message_outbox db !! i); [destruct H as (_ & _ & ->)|by destruct H as [_ ->]].
    same_devices.
  - rewrite claim_run in H. destruct (n <? 0); injection H as _ <-; [done|same_devices].
  - destruct (insert_inbox_cases _ _ _ _ H) as [->|Hr]; [done|].
    destruct r as [r|]; [|done]. apply insert_inbox_ok in H as [_ H].
    destruct (device_message_inbox db !! _); destruct H as [_ ->]; [done|same_devices].
  - destruct (update_inbox_cases _ _ _ _ _ _ _ _ H) as [->|Hr]; [done|].
    destruct r as [r|]; [|done]. apply update_inbox_ok in H.
    destruct (device_message_inbox db !! i); [destruct H as (_ & _ & ->)|by destruct H as [_ ->]].
    same_devices.
  - by eapply undisturbed_rewritten, update_device_rewritten.
  - by eapply undisturbed_rewritten, updateDevice_rewritten.
  - by eapply undisturbed_rewritten, updateDeviceStatus_rewritten.
  - injection H as _ <-. eapply undisturbed_rewritten, disable_rewritten.
  - destruct (delete_device_cases _ _ _ _ _ H) as [->| ->]; [done|]. constructor; try done.
    intros j d. simpl. rewrite lookup_delete_Some. intros [_ Hd]. exists d. by split_and!.
  - injection H as _ <-. same_devices.
Qed.

(** ** A claim, its token and its device stay together *)

(** Where the device of a claim still exists it is in the claim's organization,
    and so is the token, which was claimed; no other claim and no later row has
    the device's id. *)
Record together (db : DB) : Prop := {
  to_device : ∀ id row d, device_claims (registry db) !! id = Some row →
    devices db !! DeviceClaim_DeviceID (claim_row row) = Some d →
    Device_OrganizationID d = DeviceClaim_OrganizationID (claim_row row);
  to_token : ∀ id row, device_claims (registry db) !! id = Some row →
    ∃ t, device_claim_tokens (registry db) !! DeviceClaim_TokenID (claim_row row) = Some t ∧
      is_Some (Token_ClaimedAt (token_row t)) ∧
      (Token_OrganizationID (token_row t) = None ∨
       Token_OrganizationID (token_row t) = Some (DeviceClaim_OrganizationID (claim_row row)));
  to_later : ∀ id row n, device_claims (registry db) !! id = Some row → (uuid_serial db ≤ n)%nat →
    DeviceClaim_DeviceID (claim_row row) ≠ gen_random_uuid db n;
  to_one : ∀ i j x y, device_claims (registry db) !! i = Some x →
    device_claims (registry db) !! j = Some y →
    DeviceClaim_DeviceID (claim_row x) = DeviceClaim_DeviceID (claim_row y) → i = j;
  to_distinct : ∀ m n, gen_random_uuid db m = gen_random_uuid db n → m = n;
}.

Lemma together_undisturbed db db' : undisturbed db db' → together db → together db'.
Proof.
  intros [Hr Hg Hs Hd] [Td Tt Tl T1 Tu]. constructor; rewrite ?Hr, ?Hg.
  - intros id row d' Hrow Hd'. destruct (Hd _ _ Hd') as (d & Hdev & _ & -> & _). by eapply Td.
  - exact Tt.
  - intros id row n Hrow Hn. eapply Tl; [done|lia].
  - exact T1.
  - exact Tu.
Qed.

(** A device that no claim names. *)
Lemma together_new_device d db :
  Device_ID d = next_uuid db → together db →
  together (use_uuid (with_devices (<[Device_ID d := d]> (devices db)) db)).
Proof.
  intros Hid [Td Tt Tl T1 Tu]. constructor; simpl; [|exact Tt| |exact T1|exact Tu].
  - intros id row d' Hrow. rewrite lookup_insert_Some. intros [[Heq _]|[_ Hd']]; [|by eapply Td].
    rewrite Hid in Heq. by destruct (Tl _ _ (uuid_serial db) Hrow).
  - intros id row n Hrow Hn. eapply Tl; [done|lia].
Qed.

Lemma together_audit e db : together db → together (with_audit e db).
Proof. apply together_undisturbed. same_devices. Qed.

Lemma together_claimed clock input id row db r db' :
  tokens_ok (registry db) → device_claim_tokens (registry db) !! id = Some row →
  claimed clock input (token_row row) db r db' → together db → together db'.
Proof.
  intros Hok Hrow Hcl Hto. destruct (claimed_state _ _ _ _ _ _ Hcl) as (row' & Hrow' & ->).
  destruct (claimed_row _ _ _ _ _ _ Hcl) as (name & category & _ & Hd).
  destruct (claimed_claim _ _ _ _ _ _ Hcl) as (Ht & Ho & Hdev & _).
  destruct (claimed_claim_fresh _ _ _ _ _ _ Hcl) as [_ Hone].
  pose proof (together_new_device (CRR_Device r) db ltac:(by rewrite Hd) Hto) as [Td Tt Tl T1 Tu].
  rewrite (tokens_keyed _ Hok _ _ Hrow), Hrow in *. injection Hrow' as <-.
  assert (∀ i x, device_claims (registry db) !! i = Some x →
    DeviceClaim_DeviceID (claim_row x) ≠ DeviceClaim_DeviceID (CRR_Claim r)) as Hnew.
  { intros i x Hx. rewrite Hdev, Hd. by apply (to_later _ Hto _ _ (uuid_serial db) Hx). }
  constructor; simpl in *; [| | | |exact Tu].
  - intros i x d. rewrite lookup_insert_Some. intros [[_ <-]|[_ Hx]]; simpl; [|by eapply Td].
    rewrite Hdev, lookup_insert_eq, Ho. intros [= <-]. by rewrite Hd.
  - intros i x. rewrite lookup_insert_Some. intros [[_ <-]|[_ Hx]]; simpl.
    + rewrite Ht, lookup_insert_eq. eexists. split; [done|]. simpl. split; [done|]. rewrite Ho.
      destruct (Token_OrganizationID (token_row row)) as [o|] eqn:Eo; [right|by left].
      f_equal. by apply (claimed_org _ _ _ _ _ _ Hcl).
    + destruct (Tt _ _ Hx) as (t & Htok & Hrest). exists t. split; [|done].
      rewrite lookup_insert_ne; [done|]. intros Heq. by destruct (Hone _ _ Hx).
  - intros i x n. rewrite lookup_insert_Some. intros [[_ <-]|[_ Hx]] Hn; simpl; [|by eapply Tl; [|lia]].
    rewrite Hdev, Hd. simpl. unfold next_uuid. intros Heq%Tu. lia.
  - intros i j x y. rewrite !lookup_insert_Some. intros [[<- <-]|[? Hx]] [[<- <-]|[? Hy]] Heq; simpl in *.
    + done.
    + by destruct (Hnew _ _ Hy).
    + by destruct (Hnew _ _ Hx).
    + by eapply T1.
Qed.

Lemma together_overridden clock (input : @claimOverrideInput unit) claim token device reservation db
    result db' :
  consistent db → transferable input claim token device db →
  overridden clock input claim token device reservation db result db' → together db → together db'.
Proof.
  intros Hc Ht Ho [Td Tt Tl T1 Tu]. destruct (ov_state _ _ _ _ _ _ _ _ _ Ho) as (hash & payload & Hh & ->).
  apply together_audit. pose proof (transferable_claim _ _ _ _ _ (c_claims _ Hc) Ht) as Hcl.
  destruct (device_claims (registry db) !! DeviceClaim_ID claim) as [crow|] eqn:Hcrow; [|done].
  simpl in Hcl. injection Hcl as Hcl.
  rewrite (ov_claim _ _ _ _ _ _ _ _ _ Ho), (ov_token _ _ _ _ _ _ _ _ _ Ho),
    (ov_device _ _ _ _ _ _ _ _ _ Ho).
  constructor; simpl; [| | | |exact Tu].
  - intros i x d. rewrite lookup_insert_Some. intros [[_ <-]|[Hne Hx]]; simpl.
    + rewrite (tr_device_id _ _ _ _ _ Ht), lookup_insert_eq. by intros [= <-].
    + rewrite lookup_insert_ne; [by eapply Td|]. intros Heq. apply Hne.
      apply (T1 _ _ _ _ Hcrow Hx). by rewrite Hcl.
  - intros i x. rewrite lookup_insert_Some. intros [[_ <-]|[Hne Hx]]; simpl.
    + rewrite lookup_insert_eq. eexists. split; [done|]. split; [|by right]. apply (tr_claimed _ _ _ _ _ Ht).
    + destruct (Tt _ _ Hx) as (t & Htok & Hrest). exists t. split; [|done].
      rewrite lookup_insert_ne; [done|]. intros Heq. apply Hne.
      apply (claims_per_token _ (c_claims _ Hc) _ _ _ _ Hcrow Hx). by rewrite Hcl.
  - intros i x n. rewrite lookup_insert_Some. intros [[_ <-]|[Hne Hx]]; simpl; [|by eapply Tl].
    rewrite (tr_device_id _ _ _ _ _ Ht), <-Hcl. by eapply Tl.
  - assert (DeviceClaim_DeviceID (claim_row crow) = Device_ID device) as Hid.
    { by rewrite Hcl, (tr_device_id _ _ _ _ _ Ht). }
    intros i j x y. rewrite !lookup_insert_Some. intros [[<- <-]|[? Hx]] [[<- <-]|[? Hy]] Heq; simpl in *.
    + done.
    + apply (T1 _ _ _ _ Hcrow Hy). congruence.
    + symmetry. apply (T1 _ _ _ _ Hcrow Hx). congruence.
    + by eapply T1.
Qed.

(** From a consistent store on. *)
Definition stays_together (db db' : DB) : Prop :=
  keeps_consistent db db' ∧ (consistent db → together db → together db').

#[export] Instance stays_together_preorder : PreOrder stays_together.
Proof.
  split.
  - intros db. split; [reflexivity|]. done.
  - intros x y z [C1 T1] [C2 T2]. split; [by etrans|]. unfold keeps_consistent in *. auto.
Qed.

Lemma steps_together {A} (m : Store A) :
  steps keeps_consistent m →
  (∀ db r db', consistent db → m db = (r, db') → together db → together db') →
  steps stays_together m.
Proof. intros Hc Ht db r db' Hr. split; [by eapply Hc|]. intros ?. by eapply Ht. Qed.

Lemma respects_together : respects stays_together.
Proof.
  pose proof respects_consistent as C. pose proof respects_undisturbed as U.
  each_statement; apply steps_together; try (by apply C); intros db r db' _ H;
    apply together_undisturbed; revert H; by apply U.
Qed.

Lemma registers_together : registers stays_together.
Proof.
  pose proof registers_consistent as C. split; intros; (apply steps_together; [by apply C|]).
  - intros db [d|e] db' _ H; [|by apply createDeviceTx_writes_last in H as ->].
    apply createDeviceTx_ok in H as (_ & _ & -> & H). apply insert_device_ok in H as (_ & _ & ->).
    by apply together_new_device.
  - intros db [t|e] db' _ H; [|by apply createDeviceClaimTokenTx_writes_last in H as ->].
    apply createDeviceClaimTokenTx_insert, insert_claim_token_ok in H as (_ & Hfree & _ & ->).
    intros [Td Tt Tl T1 Tu]. constructor; simpl; [exact Td| | |exact T1|exact Tu].
    + intros id row Hrow. destruct (Tt _ _ Hrow) as (t' & Ht' & Hrest). exists t'. split; [|done].
      rewrite lookup_insert_ne; [done|]. congruence.
    + intros id row n Hrow Hn. eapply Tl; [done|lia].
  - intros db r db' _ H. rewrite revoke_run in H.
    destruct (device_claim_tokens (registry db) !! i) as [row|] eqn:Hrow; injection H as _ <-; [|done].
    intros [Td Tt Tl T1 Tu]. constructor; simpl; [exact Td| |exact Tl|exact T1|exact Tu].
    intros id c Hrow'. destruct (Tt _ _ Hrow') as (t' & Ht' & Hrest).
    destruct (decide (i = DeviceClaim_TokenID (claim_row c))) as [->|Hne].
    + rewrite lookup_insert_eq. rewrite Hrow in Ht'. injection Ht' as <-. by eexists.
    + exists t'. by rewrite lookup_insert_ne.
  - intros db [r|e] db' Hc H; [|by apply transaction_err in H as ->].
    apply ResolveDeviceClaimToken_ok in H as (_ & id & row & db1 & Hrow & _ & _ & Hcl & ->).
    intros Hto. apply together_audit. by eapply together_claimed; [apply (c_tokens _ Hc)|..].
Qed.

Lemma override_together db db' : override_effect db db' → stays_together db db'.
Proof.
  intros He. split; [by apply override_consistent|]. intros Hc. destruct (He (c_claims _ Hc))
    as [->|(clock & input & claim & token & device & reservation & result & Ht & Ho)]; [done|].
  by eapply together_overridden.
Qed.

(** C11: a claim, its token and its device never part: whatever is created, claimed, transferred,
    reclaimed, updated, unprovisioned or revoked, in every store that is reached the device of a
    claim, if it still exists, belongs to the claim's organization, the token was claimed and
    names no other organization, and no other claim has the device.  (New ids are distinct.) *)
Theorem claim_token_device_together db db' :
  consistent db → together db → reachable db db' → together db'.
Proof.
  intros Hc Hto Hr.
  apply (reachable_by_respects stays_together respects_together registers_together _ _ _) in Hr
    as [_ Hr]; [auto|]. intros q _. by apply override_steps, override_together.
Qed.

(** ** The quota *)

Definition enabled_in (org : string) (kd : string * Device) : Prop :=
  Device_OrganizationID kd.2 = org ∧ Device_DisabledAt kd.2 = None.

#[export] Instance enabled_in_dec org kd : Decision (enabled_in org kd).
Proof. unfold enabled_in. apply _. Defined.

Lemma length_enabled_devices org db :
  length (enabled_devices org db) = size (filter (enabled_in org) (devices db)).
Proof.
  unfold enabled_devices, rows_of. induction (devices db) as [|i d m Hi IH] using map_ind; [done|].
  rewrite (map_to_list_insert m i d Hi), fmap_cons, filter_cons. simpl. case_decide as Hd.
  - rewrite map_filter_insert_True by done. rewrite map_size_insert_None; [|by apply map_lookup_filter_None; left].
    simpl. by rewrite IH.
  - rewrite map_filter_insert_not'; [done|done|]. intros y Hy. by rewrite Hi in Hy.
Qed.

(** A step that leaves the devices alone enables none. *)
Lemma enabled_undisturbed org db db' :
  undisturbed db db' → (length (enabled_devices org db') ≤ length (enabled_devices org db))%nat.
Proof.
  intros Hu. rewrite !length_enabled_devices, <-!size_dom. apply subseteq_size.
  intros i. rewrite !elem_of_dom. intros [d' [Hd' [Ho He]]%map_lookup_filter_Some].
  destruct (un_devices _ _ Hu _ _ Hd') as (d & Hd & _ & Hoo & Hee). exists d.
  apply map_lookup_filter_Some. split; [done|]. split; simpl in *; [congruence|auto].
Qed.

Definition keeps_quota (db db' : DB) : Prop :=
  organizations (registry db') = organizations (registry db) ∧ (within_quota db → within_quota db').

#[export] Instance keeps_quota_preorder : PreOrder keeps_quota.
Proof. split; unfold keeps_quota; [naive_solver|]. intros x y z [] []. split; [congruence|auto]. Qed.

Lemma quota_undisturbed db db' : undisturbed db db' → keeps_quota db db'.
Proof.
  intros Hu. split; [by rewrite (un_registry _ _ Hu)|]. intros Hw org o Ho Ht.
  rewrite (un_registry _ _ Hu) in Ho. specialize (Hw _ _ Ho Ht).
  pose proof (enabled_undisturbed org _ _ Hu). lia.
Qed.

Lemma quota_same_devices tokens claims db :
  keeps_quota db (with_claims tokens claims db).
Proof. by split. Qed.

Definition reachable_without_overrides : DB → DB → Prop :=
  reachable_by (λ q, overriding q = false).

Lemma registers_quota : registers keeps_quota.
Proof.
  split.
  - intros o input db [d|e] db' H; [|by apply createDeviceTx_writes_last in H as ->].
    split; [|by eapply createDeviceTx_within_quota].
    apply createDeviceTx_ok in H as (_ & _ & _ & H). by apply insert_device_ok in H as (_ & _ & ->).
  - intros clock input grants db [t|e] db' H; [|by apply createDeviceClaimTokenTx_writes_last in H as ->].
    by apply createDeviceClaimTokenTx_insert, insert_claim_token_ok in H as (_ & _ & _ & ->).
  - intros clock i t db r db' H. rewrite revoke_run in H.
    by destruct (device_claim_tokens (registry db) !! i) as [row|]; injection H as _ <-.
  - intros clock input db [r|e] db' H; [|by apply transaction_err in H as ->].
    apply ResolveDeviceClaimToken_ok in H as (_ & id & row & db1 & _ & _ & _ & Hcl & ->).
    split; [|intros Hw; by apply (claimed_within_quota _ _ _ _ _ _ Hcl) in Hw].
    by destruct (claimed_state _ _ _ _ _ _ Hcl) as (row' & _ & ->).
Qed.

(** C33: an evaluation organization never has more enabled devices than its quota, whatever is
    created, claimed, updated, disabled or deleted, as long as no claim is transferred or
    reclaimed. *)
Theorem quota_holds db db' :
  within_quota db → reachable_without_overrides db db' → within_quota db'.
Proof.
  intros Hw Hr.
  apply (reachable_by_respects keeps_quota
    (respects_mono _ _ quota_undisturbed respects_undisturbed) registers_quota _ _ _) in Hr
    as [_ Hr]; [auto|]. intros q Hq Ho. by rewrite Hq in Ho.
Qed.

(** ** The theorems at work *)

(** The ids of the examples are the numbers in unary. *)
Lemma unary_length n : String.length (unary n) = n.
Proof. induction n as [|n IH]; simpl; congruence. Qed.

(** A token is issued, and a device claimed with it. *)
Definition sample_issue : request :=
  IssueToken false sample_clock (mkTokenCreate None (Some "admin-1") None "hash-2" "ip_camera" "devid-2"
    "act-2" "key-1" ["mqtt"] ∅ None (mkTime (1700009000 * Second) 0) zero_time).
Definition sample_claim_request : request := ResolveClaim sample_clock sample_resolve.

Definition sample_admin_db : DB :=
  with_registry
    (let r := registry sample_claims_db in
     mkRegistry (<["admin-1" := mkUser "admin-1" "admin@example.com" true false true None]> (users r))
       {[sample_org := mkOrganization sample_org "Org" OrganizationKindCustomerOrg
           OrganizationStatusActive OrganizationTierEvaluation 2 None]}
       (organization_members r) (roles r) (role_assignments r) (device_item_profiles r) [] [] [] [] ∅ ∅
       []) sample_claims_db.

Lemma sample_admin_reached :
  ∃ db1 db2, handle sample_issue sample_admin_db = (Ok tt, db1) ∧
    handle sample_claim_request db1 = (Ok tt, db2) ∧
    length (enabled_devices sample_org db2) = 2%nat ∧
    map_to_list (device_claims (registry db2)) ≠ [].
Proof.
  destruct (run_check (λ _ s, bool_decide (length (enabled_devices sample_org s) = 2%nat) &&
    negb (Nat.eqb (length (map_to_list (device_claims (registry s)))) 0))
    (handle sample_issue ;; handle sample_claim_request) sample_admin_db)
    as ([] & db2 & E & Hlen); [vm_compute; reflexivity|].
  apply bind_ok in E as ([] & db1 & E1 & E2). exists db1, db2. destruct_bools.
  split_and!; try done. by destruct (map_to_list _).
Qed.

Lemma sample_admin_consistent : consistent sample_admin_db.
Proof.
  split; try apply map_Forall_empty; try (by apply map_Forall_singleton);
    split; intros; simpl in *; by simplify_eq.
Qed.

(** A transfer does not look at the quota of the organization it moves the device to. *)
Definition sample_full_db : DB :=
  with_devices (<["device-9" := mkDevice "device-9" "org-2" "Other" DeviceCategoryGeneric None None None None
      DeviceStatusUnknown None ∅ sample_time sample_time None None]> (devices sample_transfer_db))
    (with_registry
      (let r := registry sample_transfer_db in
       mkRegistry (users r)
         (<["org-2" := mkOrganization "org-2" "Other" OrganizationKindCustomerOrg
              OrganizationStatusActive OrganizationTierEvaluation 1 None]> (organizations r))
         [] ∅ [] ∅ [] [] [] [] (device_claim_tokens r) (device_claims r) []) sample_transfer_db).
Definition sample_full_transfer : @DeviceClaimTransferInput unit :=
  mkClaimTransfer "claim-1" "org-2" "admin-1" "moved" (map_literal [("ticket", AString "T-1")])
    (Some (λ _ _ _ _, mret tt)) (Some (λ _ _, mret tt)) zero_time.

Lemma transfer_exceeds_quota :
  ∃ db', handle (TransferClaim sample_clock Committed sample_full_transfer) sample_full_db = (Ok tt, db') ∧
    length (enabled_devices "org-2" sample_full_db) = 1%nat ∧
    length (enabled_devices "org-2" db') = 2%nat.
Proof.
  destruct (run_check (λ _ s, bool_decide (length (enabled_devices "org-2" s) = 2%nat))
    (handle (TransferClaim sample_clock Committed sample_full_transfer)) sample_full_db)
    as ([] & db' & E & Hlen%bool_decide_eq_true); [vm_compute; reflexivity|].
  by exists db'.
Qed.

Lemma quota_holds_witness :
  ∃ db', reachable_without_overrides sample_admin_db db' ∧
    length (enabled_devices sample_org db') = 2%nat ∧ within_quota db'.
Proof.
  destruct sample_admin_reached as (db1 & db2 & E1 & E2 & Hlen & _).
  assert (reachable_without_overrides sample_admin_db db2) as Hr.
  { eapply (reach_step _ _ sample_claim_request); [|reflexivity|exact E2].
    eapply (reach_step _ _ sample_issue); [apply reach_refl|reflexivity|exact E1]. }
  exists db2. split; [exact Hr|]. split; [exact Hlen|].
  apply (quota_holds sample_admin_db db2); [|exact Hr].
  intros org o Ho _. simpl in Ho. apply lookup_singleton_Some in Ho as [<- <-]. vm_compute. discriminate.
Defined.

Lemma claim_token_device_together_witness :
  ∃ db', reachable sample_admin_db db' ∧ map_to_list (device_claims (registry db')) ≠ [] ∧
    together db'.
Proof.
  destruct sample_admin_reached as (db1 & db2 & E1 & E2 & _ & Hne).
  assert (reachable sample_admin_db db2) as Hr.
  { eapply reach_step; [|exact I|exact E2]. eapply reach_step; [apply reach_refl|exact I|exact E1]. }
  exists db2. split; [exact Hr|]. split; [exact Hne|].
  apply (claim_token_device_together sample_admin_db db2 sample_admin_consistent); [|exact Hr].
  constructor; try (intros; simpl in *; simplify_eq; fail).
  intros m n Hmn. simpl in Hmn. by rewrite <-(unary_length m), Hmn, unary_length.
Defined.

Lemma spent_token_stays_spent_witness :
  ∃ db1 r db2 e, ResolveDeviceClaimToken sample_clock sample_resolve db1 = (Ok r, db2) ∧
    ResolveDeviceClaimToken sample_clock sample_resolve db2 = (Err e, db2).
Proof.
  destruct sample_admin_reached as (db1 & db2 & E1 & E2 & _).
  assert (reachable sample_admin_db db1) as Hr.
  { eapply reach_step; [apply reach_refl|exact I|exact E1]. }
  unfold handle, sample_claim_request, ignore in E2. apply bind_ok in E2 as (r & db2' & E2 & E3).
  injection E3 as ->.
  destruct (spent_token_stays_spent sample_clock sample_resolve db1 r db2 db2)
    with (clock := sample_clock) (input := sample_resolve) as [e He].
  - exact (reachable_by_consistent _ _ _ Hr sample_admin_consistent).
  - exact E2.
  - apply reach_refl.
  - reflexivity.
  - exists db1, r, db2, e. split; [exact E2|exact He].
Defined.
