(* ===== verification/EmailDelivery.v ===== *)
(** * internal/emaildelivery: payload encryption and the mail gateway client

    [Cipher] seals the JSON of a payload with an AEAD ([crypto/cipher.AEAD], an
    interface: any implementation that opens what it sealed), and
    [SendMailHTTPClient.Send] hands one message to the mail gateway, sorting
    its failures into transient and permanent ones.  The key handling of
    [NewCipher], the URL checks of [NewSendMailHTTPClient] and the message
    templates of message.go are not modelled. *)

From S2P Require Export Broker.

Local Open Scope Z_scope.

(** ** Payload *)

Record EmailPayload := mkEmailPayload {
  RecipientEmail : string;
  RecipientName : option string;
  EmailToken : string;
  EmailExpiresAt : string;
  EmailOrganizationID : string;
  EmailOrganizationName : string;
  RequestedQuota : Z;
  ApprovedQuota : option Z;
  DecisionReason : option string;
}.

#[export] Instance EmailPayload_eq_dec : EqDecision EmailPayload.
Proof. solve_decision. Defined.

Definition payload_schema : schema :=
  [("recipient_email", KString); ("recipient_name", KStringPtr); ("token", KString);
   ("expires_at", KString); ("organization_id", KString); ("organization_name", KString);
   ("requested_quota", KInt64); ("approved_quota", KInt64Ptr); ("decision_reason", KStringPtr)].

(** [json.Marshal(payload)]: members in field order. *)
Definition marshal_payload (p : EmailPayload) : RawMessage :=
  let v := AMap
    ([("recipient_email", AString (RecipientEmail p))] ++
     member_ptr AString "recipient_name" (RecipientName p) ++
     member_string "token" (EmailToken p) ++
     member_string "expires_at" (EmailExpiresAt p) ++
     member_string "organization_id" (EmailOrganizationID p) ++
     member_string "organization_name" (EmailOrganizationName p) ++
     member_int "requested_quota" (RequestedQuota p) ++
     member_ptr AInt "approved_quota" (ApprovedQuota p) ++
     member_ptr AString "decision_reason" (DecisionReason p)) in
  RawValue (json_text v) v.

Definition get_string_ptr (t : fields) (name : string) : option string :=
  match t !! name with Some (AString s) => Some s | _ => None end.

Definition payload_of_fields (t : fields) : EmailPayload :=
  mkEmailPayload (get_string t "recipient_email") (get_string_ptr t "recipient_name")
    (get_string t "token") (get_string t "expires_at") (get_string t "organization_id")
    (get_string t "organization_name") (get_int t "requested_quota")
    (get_int_ptr t "approved_quota") (get_string_ptr t "decision_reason").

(** ** Cipher; the nil slice is [None]

    A nonce is a string; plaintext and ciphertext are byte slices in the form of
    GoJSON.v, a text with what parsing it gives. *)

Record AEAD := mkAEAD {
  Seal : string → RawMessage → RawMessage;                  (* nonce, plaintext *)
  Open : option string → option RawMessage → res RawMessage; (* nonce, ciphertext *)
}.

(** What the code relies on: the ciphertext opens under its nonce. *)
Definition AEAD_opens (a : AEAD) : Prop :=
  ∀ nonce plain, Open a (Some nonce) (Some (Seal a nonce plain)) = Ok plain.

(** [*Cipher]; [None] when it or its AEAD is nil. *)
Abbreviation Cipher := (option AEAD).

Definition cipher_unavailable : error := ErrText "email outbox cipher unavailable".

(** [random] is what reading a nonce from [rand.Reader] gives. *)
Definition Encrypt (c : Cipher) (random : res string) (payload : EmailPayload)
    : res (string * RawMessage) :=
  match c with
  | None => Err cipher_unavailable
  | Some aead =>
      let plain := marshal_payload payload in
      nonce ← random;
      Ok (nonce, Seal aead nonce plain)
  end.

Definition Decrypt (c : Cipher) (nonce : option string) (ciphertext : option RawMessage)
    : res EmailPayload :=
  match c with
  | None => Err cipher_unavailable
  | Some aead =>
      match Open aead nonce ciphertext with
      | Err err => Err (ErrWrap "decrypt email payload" err)
      | Ok plain =>
          match unmarshal_struct payload_schema plain with
          | Err err => Err (ErrWrap "decode email payload" err)
          | Ok t => Ok (payload_of_fields t)
          end
      end
  end.

(** ** Messages and their delivery *)

Record EmailMessage := mkEmailMessage {
  Message_Recipient : string;
  Message_ReplyTo : string;
  Message_Subject : string;
  Message_Text : string;
  Message_HTML : string;
}.

#[export] Instance EmailMessage_eq_dec : EqDecision EmailMessage.
Proof. solve_decision. Defined.

(** [DeliveryError]; [IsTransient] of this package is the one of Broker.v. *)
Definition DeliveryError (err : error) (transient : bool) : error := ErrPublish err transient.

(** *** SendMailHTTPClient *)

Record SendMailHTTPClient := mkSendMailHTTPClient {
  SM_endpoint : string;
  SM_bearerToken : string;
}.

Record HTTPRequest := mkHTTPRequest {
  Request_Method : string;
  Request_URL : string;
  Request_Header : list (string * string);
  Request_Body : RawMessage;
}.

(** [Response_Body]: what reading the body gives. *)
Record HTTPResponse := mkHTTPResponse {
  Response_StatusCode : Z;
  Response_Body : res RawMessage;
}.

(** [url.Parse], whose result is only tested, and [client.Do]. *)
Class HTTPClient (S : Type) := {
  url_Parse : string → res unit;
  Do : HTTPRequest → M S HTTPResponse;
}.

(** [http.NewRequestWithContext]; the method is a literal of the code. *)
Definition NewRequest {S} `{HTTPClient S} (method url : string) (body : RawMessage)
    : res HTTPRequest :=
  url_Parse url ;; Ok (mkHTTPRequest method url [] body).

Definition StatusAccepted : Z := 202.
Definition StatusRequestTimeout : Z := 408.
Definition StatusTooManyRequests : Z := 429.
Definition StatusInternalServerError : Z := 500.

(** [json.Marshal(sendMailHTTPRequest{...})] *)
Definition marshal_sendmail (message : EmailMessage) : RawMessage :=
  let v := AMap
    ([("to", ASlice [AString (Message_Recipient message)])] ++
     member_string "reply_to" (Message_ReplyTo message) ++
     [("subject", AString (Message_Subject message))] ++
     member_string "text" (Message_Text message) ++
     member_string "html" (Message_HTML message)) in
  RawValue (json_text v) v.

Definition transient_status (code : Z) : bool :=
  (code =? StatusRequestTimeout) || (code =? StatusTooManyRequests)
  || (StatusInternalServerError <=? code).

(** What becomes of a response whose body was read. *)
Definition sendmail_result (code : Z) (body : RawMessage) : res unit :=
  if 4096 <? str_len (raw_text body) then
    Err (DeliveryError (ErrText "sendmail_http response exceeded 4096 bytes") false)
  else if negb (code =? StatusAccepted) then
    Err (DeliveryError (ErrText ("sendmail_http returned HTTP " +:+ dec_text code))
      (transient_status code))
  else match unmarshal_struct [("status", KString)] body with
       | Ok t =>
           if bool_decide (get_string t "status" = "sent") then Ok tt
           else Err (DeliveryError
             (ErrText "sendmail_http returned an invalid accepted response") false)
       | Err _ => Err (DeliveryError
           (ErrText "sendmail_http returned an invalid accepted response") false)
       end.

Definition SendMail {S} `{HTTPClient S} (s : SendMailHTTPClient) (message : EmailMessage)
    : M S unit :=
  reject_if (blank (Message_Recipient message))
    (DeliveryError (ErrText "sendmail_http recipient is required") false) ;;
  reject_if (blank (Message_Subject message))
    (DeliveryError (ErrText "sendmail_http subject is required") false) ;;
  reject_if (bool_decide (Message_Text message = "") && bool_decide (Message_HTML message = ""))
    (DeliveryError (ErrText "sendmail_http text or html body is required") false) ;;
  let body := marshal_sendmail message in
  match NewRequest "POST" (SM_endpoint s) body with
  | Err err => throw (DeliveryError (ErrWrap "create sendmail_http request" err) false)
  | Ok request =>
      let request := mkHTTPRequest (Request_Method request) (Request_URL request)
        (Request_Header request ++
         [("Authorization", "Bearer " +:+ SM_bearerToken s);
          ("Content-Type", "application/json"); ("Accept", "application/json")])
        (Request_Body request) in
      response ← attempt (Do request);
      match response with
      | Err err => throw (DeliveryError (ErrWrap "sendmail_http request failed" err) true)
      | Ok response =>
          match Response_Body response with
          | Err err => throw (DeliveryError (ErrWrap "read sendmail_http response" err) true)
          | Ok responseBody =>
              lift_res (sendmail_result (Response_StatusCode response) responseBody)
          end
      end
  end.

(** ** Round trip of the payload *)

(** Which field values the encoder drops, as a map of the rest. *)
Definition set_if (keep : bool) (name : string) (v : any) (t : fields) : fields :=
  if keep then <[name := v]> t else t.

Lemma set_if_eq keep name v (t : fields) :
  set_if keep name v t !! name = if keep then Some v else t !! name.
Proof. destruct keep; simpl; [apply lookup_insert_eq|done]. Qed.
Lemma set_if_ne keep name name' v (t : fields) :
  name ≠ name' → set_if keep name v t !! name' = t !! name'.
Proof. intros. destruct keep; simpl; [by apply lookup_insert_ne|done]. Qed.

Section unmarshal_optional.
Context (sc : schema) (name : string).

Lemma unmarshal_string v ms t :
  find_field sc name = Some (name, KString) →
  unmarshal_members sc (member_string name v ++ ms) t =
  unmarshal_members sc ms (set_if (negb (bool_decide (v = ""))) name (AString v) t).
Proof. intros Hf. unfold member_string. case_bool_decide; simpl; [done|]. by rewrite Hf. Qed.

Lemma unmarshal_string_ptr v ms t :
  find_field sc name = Some (name, KStringPtr) →
  unmarshal_members sc (member_ptr AString name v ++ ms) t =
  unmarshal_members sc ms
    (set_if (bool_decide (is_Some v)) name (AString (default "" v)) t).
Proof. intros Hf. destruct v; simpl; [by rewrite Hf|done]. Qed.

Lemma unmarshal_int v ms t :
  find_field sc name = Some (name, KInt64) → int64_range v = true →
  unmarshal_members sc (member_int name v ++ ms) t =
  unmarshal_members sc ms (set_if (negb (v =? 0)) name (AInt v) t).
Proof.
  intros Hf Hr. unfold member_int. destruct (v =? 0); [done|].
  cbn [app unmarshal_members]. rewrite Hf. cbn [decode_field]. by rewrite Hr.
Qed.

Lemma unmarshal_int_ptr v ms t :
  find_field sc name = Some (name, KInt64Ptr) → int64_range (default 0 v) = true →
  unmarshal_members sc (member_ptr AInt name v ++ ms) t =
  unmarshal_members sc ms (set_if (bool_decide (is_Some v)) name (AInt (default 0 v)) t).
Proof.
  intros Hf Hr. destruct v as [v|]; [|done]. change (int64_range v = true) in Hr.
  cbn [member_ptr app unmarshal_members]. rewrite Hf. cbn [decode_field]. by rewrite Hr.
Qed.
End unmarshal_optional.

(** The integers of a payload are Go [int]s. *)
Definition payload_in_range (p : EmailPayload) : Prop :=
  int64_range (RequestedQuota p) = true ∧ int64_range (default 0 (ApprovedQuota p)) = true.

Lemma unmarshal_marshal_payload p :
  payload_in_range p →
  unmarshal_struct payload_schema (marshal_payload p) =
  Ok (set_if (bool_decide (is_Some (DecisionReason p))) "decision_reason"
        (AString (default "" (DecisionReason p)))
     (set_if (bool_decide (is_Some (ApprovedQuota p))) "approved_quota"
        (AInt (default 0 (ApprovedQuota p)))
     (set_if (negb (RequestedQuota p =? 0)) "requested_quota" (AInt (RequestedQuota p))
     (set_if (negb (bool_decide (EmailOrganizationName p = ""))) "organization_name"
        (AString (EmailOrganizationName p))
     (set_if (negb (bool_decide (EmailOrganizationID p = ""))) "organization_id"
        (AString (EmailOrganizationID p))
     (set_if (negb (bool_decide (EmailExpiresAt p = ""))) "expires_at"
        (AString (EmailExpiresAt p))
     (set_if (negb (bool_decide (EmailToken p = ""))) "token" (AString (EmailToken p))
     (set_if (bool_decide (is_Some (RecipientName p))) "recipient_name"
        (AString (default "" (RecipientName p)))
     (set_if true "recipient_email" (AString (RecipientEmail p)) ∅))))))))).
Proof.
  intros [Hq Ha]. unfold unmarshal_struct, marshal_payload.
  change ([("recipient_email", AString (RecipientEmail p))] ++ ?ms) with
    (("recipient_email", AString (RecipientEmail p)) :: ms).
  rewrite <-(app_nil_r (member_ptr AString "decision_reason" _)).
  cbn [unmarshal_members].
  replace (find_field payload_schema "recipient_email") with
    (Some ("recipient_email", KString)) by reflexivity. cbn [decode_field mbind res_bind].
  do 1 rewrite unmarshal_string_ptr by reflexivity.
  do 4 rewrite unmarshal_string by reflexivity.
  rewrite unmarshal_int, unmarshal_int_ptr, unmarshal_string_ptr by (reflexivity || done).
  reflexivity.
Qed.

Lemma Decrypt_of_Encrypt aead nonce payload sealed :
  AEAD_opens aead → payload_in_range payload →
  Encrypt (Some aead) (Ok nonce) payload = Ok sealed →
  Decrypt (Some aead) (Some sealed.1) (Some sealed.2) = Ok payload.
Proof.
  intros Hopen Hrange [= <-]. simpl. rewrite Hopen, unmarshal_marshal_payload by done. f_equal.
  unfold payload_of_fields, get_string, get_string_ptr, get_int, get_int_ptr.
  repeat (rewrite set_if_eq || (rewrite set_if_ne by discriminate)).
  rewrite !lookup_empty. destruct payload as [re rn tok ex oi on rq aq dr]; simpl.
  f_equal; first [by case_bool_decide; subst | by destruct rn | by destruct aq | by destruct dr
    | by destruct (Z.eqb_spec rq 0)].
Qed.

(** What the outbox stores can be read back: decrypting the nonce and ciphertext that
    encryption gave returns the payload itself, absent names, empty strings and zero quotas
    included, under any AEAD that opens what it sealed. *)
Theorem Decrypt_Encrypt aead nonce payload sealed :
  AEAD_opens aead → payload_in_range payload →
  Encrypt (Some aead) (Ok nonce) payload = Ok sealed →
  Decrypt (Some aead) (Some sealed.1) (Some sealed.2) = Ok payload.
Proof. apply Decrypt_of_Encrypt. Qed.

(** ** Delivery *)

(** A gateway answer after which the message is worth another attempt. *)
Definition transient_reply (reply : res HTTPResponse) : bool :=
  match reply with
  | Err _ => true
  | Ok response =>
      match Response_Body response with
      | Err _ => true
      | Ok body => (str_len (raw_text body) <=? 4096)
                   && bool_decide (Response_StatusCode response = 408 ∨ Response_StatusCode response = 429
                                   ∨ 500 ≤ Response_StatusCode response)
      end
  end.

(** The one answer that counts as delivered. *)
Definition accepted_reply (reply : res HTTPResponse) : Prop :=
  ∃ body t, reply = Ok (mkHTTPResponse StatusAccepted (Ok body)) ∧
    str_len (raw_text body) ≤ 4096 ∧
    unmarshal_struct [("status", KString)] body = Ok t ∧ get_string t "status" = "sent".

Lemma transient_status_spec code :
  transient_status code = bool_decide (code = 408 ∨ code = 429 ∨ 500 ≤ code).
Proof.
  unfold transient_status, StatusRequestTimeout, StatusTooManyRequests, StatusInternalServerError.
  destruct (Z.eqb_spec code 408), (Z.eqb_spec code 429), (Z.leb_spec 500 code); simpl; symmetry;
    first [apply bool_decide_eq_true; lia|apply bool_decide_eq_false; lia].
Qed.

Lemma sendmail_result_spec code body :
  let response := Ok (mkHTTPResponse code (Ok body)) in
  match sendmail_result code body with
  | Ok _ => accepted_reply response
  | Err e => ¬ accepted_reply response ∧ IsTransient e = transient_reply response
  end.
Proof.
  unfold sendmail_result, accepted_reply, transient_reply. simpl. rewrite <-transient_status_spec.
  destruct (Z.ltb_spec 4096 (str_len (raw_text body))) as [Hl|Hl].
  { split; [intros (b & t & [= _ <-] & ? & _); lia|]. by rewrite (proj2 (Z.leb_gt _ _)) by lia. }
  rewrite (proj2 (Z.leb_le _ _)) by lia. destruct (Z.eqb_spec code StatusAccepted) as [->|Hc]; simpl.
  - destruct (unmarshal_struct _ body) as [t|e] eqn:E; simpl.
    + case_bool_decide as Hs; simpl; [by exists body, t|]. split; [|done].
      intros (b & t' & [= <-] & _ & E' & ?). congruence.
    + split; [|done]. intros (b & t' & [= <-] & _ & E' & _). congruence.
  - split; [|done]. intros (b & t' & [= ? _] & _). done.
Qed.

(** A delivery succeeds exactly when the gateway answers 202 with a short body whose status is
    "sent".  A failure is worth a retry exactly when the request or the reading of the answer
    failed, or a short answer came with 408, 429 or a status of 500 or more; a message without
    recipient, subject or body never reaches the gateway and is not retried. *)
Theorem SendMail_outcome {S} `{HTTPClient S} s message (st : S) r st' :
  SendMail s message st = (r, st') →
  (st' = st ∧ ∃ e, r = Err e ∧ IsTransient e = false) ∨
  (∃ request reply, Do request st = (reply, st') ∧
     Request_Body request = marshal_sendmail message ∧
     (r = Ok tt ↔ accepted_reply reply) ∧
     ∀ e, r = Err e → IsTransient e = transient_reply reply).
Proof.
  unfold SendMail. rewrite bind_reject_run. destruct (blank _); [intros [= <- <-]; left; eauto|].
  rewrite bind_reject_run. destruct (blank _); [intros [= <- <-]; left; eauto|].
  rewrite bind_reject_run. destruct (_ && _); [intros [= <- <-]; left; eauto|].
  unfold NewRequest. destruct (url_Parse _) as [[]|err]; simpl;
    [|intros [= <- <-]; left; eauto].
  match goal with |- context [attempt (Do ?req)] => set (request := req) end.
  unfold attempt, mbind, M_bind. destruct (Do request st) as [reply s1] eqn:E.
  intros Hr. right. exists request, reply.
  destruct reply as [[code [body|err]]|err]; simpl in Hr.
  - unfold lift_res in Hr. injection Hr as <- <-. do 2 (split; [done|]).
    pose proof (sendmail_result_spec code body) as Hs. simpl in Hs.
    destruct (sendmail_result code body) as [[]|e]; [done|]. destruct Hs as [Hn Ht].
    split; [by split|]. by intros e' [= <-].
  - injection Hr as <- <-. do 2 (split; [done|]). split; [|by intros e' [= <-]].
    split; [done|]. by intros (b & t & [=] & _).
  - injection Hr as <- <-. do 2 (split; [done|]). split; [|by intros e' [= <-]].
    split; [done|]. by intros (b & t & [=] & _).
Qed.

(** ** The theorems at work *)

(** A test double in the place of AES-GCM: it seals by keeping the plaintext. *)
Definition sample_aead : AEAD :=
  mkAEAD (λ _ plain, plain)
    (λ nonce ciphertext, match nonce, ciphertext with
                         | Some _, Some plain => Ok plain
                         | _, _ => Err (ErrText "cipher: message authentication failed")
                         end).
Lemma sample_aead_opens : AEAD_opens sample_aead.
Proof. done. Qed.

Definition sample_payload : EmailPayload :=
  mkEmailPayload "user@example.com" (Some "User") "token-1" "" "" "" 0 (Some 20) None.

Lemma Decrypt_Encrypt_witness :
  ∃ sealed, Encrypt (Some sample_aead) (Ok "nonce") sample_payload = Ok sealed ∧
    Decrypt (Some sample_aead) (Some sealed.1) (Some sealed.2) = Ok sample_payload.
Proof.
  exists ("nonce", marshal_payload sample_payload). split; [reflexivity|].
  apply (Decrypt_Encrypt sample_aead "nonce" sample_payload);
    [exact sample_aead_opens|split; reflexivity|reflexivity].
Defined.

(** A gateway that answers from a script. *)
Definition scripted_client : HTTPClient (list (res HTTPResponse)) := {|
  url_Parse := λ _, Ok tt;
  Do := λ _ script, match script with
                    | Ok response :: script => (Ok response, script)
                    | Err err :: script => (Err err, script)
                    | [] => (Err (ErrText "EOF"), [])
                    end;
|}.
Definition sample_mail : EmailMessage :=
  mkEmailMessage "user@example.com" "" "Verify your account" "text" "".
Definition sample_error_page : res HTTPResponse := Ok (mkHTTPResponse 503 (Ok (RawInvalid "busy" "invalid"))).

(** A busy gateway: the answer is transient. *)
Lemma SendMail_outcome_witness :
  ∃ e, SendMail (H:=scripted_client) (mkSendMailHTTPClient "https://mail/send" "key") sample_mail
      [sample_error_page] = (Err e, []) ∧ IsTransient e = true.
Proof.
  destruct (SendMail (H:=scripted_client) (mkSendMailHTTPClient "https://mail/send" "key") sample_mail
      [sample_error_page]) as [[[]|e] script] eqn:E; [discriminate E|].
  exists e. assert (script = []) as Hs by (injection E as _ Hs; exact (eq_sym Hs)).
  split; [by rewrite Hs|].
  destruct (SendMail_outcome (H:=scripted_client) _ _ _ _ _ E)
    as [[Hst _]|(request & reply & Hdo & _ & _ & He)]; [by rewrite Hs in Hst|].
  rewrite (He e eq_refl). injection Hdo as <- _. vm_compute; reflexivity.
Defined.
