(* ===== verification/EmailOutbox.v ===== *)
(** * store/email_outbox.go: the e-mail outbox

    The table email_outbox (migrations 036 and 047) and the statements on it:
    enqueueing under an idempotency key, the leased claim, the fenced recording
    of an outcome, listing, requeueing and counting.  The state is this table
    alone: no other table of the model is read or written together with it.
    What a row can go through is the relation [email_step]; every operation
    refines it, and the theorems about histories of the table follow. *)

From S2P Require Export EmailDelivery.

Local Open Scope Z_scope.

(** ** model/email_outbox.go *)

Inductive EmailOutboxStatus :=
  | EmailOutboxStatusPending
  | EmailOutboxStatusSending
  | EmailOutboxStatusRetrying
  | EmailOutboxStatusSent
  | EmailOutboxStatusDeadLettered
  | EmailOutboxStatusExpired
  | EmailOutboxStatusOther (s : string). (* not one of the constants *)

#[export] Instance EmailOutboxStatus_eq_dec : EqDecision EmailOutboxStatus.
Proof. solve_decision. Defined.

Record EmailOutbox := mkEmailOutbox {
  EO_ID : string;
  EO_IdempotencyKey : string;
  EO_MessageType : string;
  EO_TemplateVersion : Z;
  EO_PayloadNonce : option string;
  EO_PayloadCiphertext : option RawMessage;
  EO_Status : EmailOutboxStatus;
  EO_AttemptCount : Z;
  EO_AvailableAt : Time;
  EO_LeaseUntil : option Time;
  EO_LastError : option string;
  EO_ExpiresAt : option Time;
  EO_SentAt : option Time;
  EO_CreatedAt : Time;
  EO_UpdatedAt : Time;
}.

#[export] Instance EmailOutbox_eq_dec : EqDecision EmailOutbox.
Proof. solve_decision. Defined.

(** ** The table *)

Record EmailDB := mkEmailDB {
  email_now : Time;                  (* now() of the transaction *)
  email_uuid : nat → string;         (* gen_random_uuid() *)
  email_serial : nat;
  email_outbox : gmap string EmailOutbox; (* by id *)
}.

Definition with_emails (rows : gmap string EmailOutbox) (db : EmailDB) : EmailDB :=
  mkEmailDB (email_now db) (email_uuid db) (email_serial db) rows.
Definition at_email_now (t : Time) (db : EmailDB) : EmailDB :=
  mkEmailDB t (email_uuid db) (email_serial db) (email_outbox db).

Abbreviation Mail A := (M EmailDB A).

(** A text the server accepts: UTF-8 without NUL.  Elsewhere this is assumed;
    the error texts of this table are cut at a byte and may violate it. *)
Definition pg_text (s : string) : bool :=
  utf8_Valid s && forallb (λ c, negb (byte_is 0 c)) (to_bytes s).

(** The CHECK on message_type after migration 047. *)
Definition email_message_types : list string :=
  ["email_verification"; "login_activation"; "password_reset"; "brand_cloud_owner_transfer";
   "brand_cloud_user_activation"; "brand_cloud_membership_invitation";
   "product_collaborator_invitation"; "quota_approved"; "quota_declined"].

Definition email_final (status : EmailOutboxStatus) : bool :=
  match status with EmailOutboxStatusSent | EmailOutboxStatusExpired => true | _ => false end.

(** [(status IN ('sent','expired') AND both NULL) OR (... NOT IN ... AND neither NULL)] *)
Definition payload_matches_status (m : EmailOutbox) : bool :=
  match EO_PayloadNonce m, EO_PayloadCiphertext m with
  | None, None => email_final (EO_Status m)
  | Some _, Some _ => negb (email_final (EO_Status m))
  | _, _ => false
  end.

Definition valid_email_status (status : EmailOutboxStatus) : bool :=
  match status with EmailOutboxStatusOther _ => false | _ => true end.

Definition email_checks (m : EmailOutbox) : Mail unit :=
  reject_if (negb (int4_range (EO_AttemptCount m) && int4_range (EO_TemplateVersion m)))
    (ErrPg "int4") ;;
  reject_if (btrim_blank (EO_IdempotencyKey m)) (ErrPg "email_outbox_idempotency_key_check") ;;
  reject_if (negb (bool_decide (EO_MessageType m ∈ email_message_types)))
    (ErrPg "email_outbox_message_type_check") ;;
  reject_if (EO_TemplateVersion m <=? 0) (ErrPg "email_outbox_template_version_check") ;;
  reject_if (negb (valid_email_status (EO_Status m))) (ErrPg "email_outbox_status_check") ;;
  reject_if (EO_AttemptCount m <? 0) (ErrPg "email_outbox_attempt_count_check") ;;
  reject_if (negb (payload_matches_status m)) (ErrPg "email_outbox_check").

(** [INSERT ... ON CONFLICT (idempotency_key) DO NOTHING] *)
Definition insert_email (m : EmailOutbox) : Mail unit :=
  email_checks m ;;
  db ← gets (λ db, db);
  if existsb (λ row, bool_decide (EO_IdempotencyKey row = EO_IdempotencyKey m))
       (rows_of (email_outbox db))
  then mret tt
  else
    reject_if (bool_decide (is_Some (email_outbox db !! EO_ID m))) (ErrPg "email_outbox_pkey") ;;
    modify (λ db, mkEmailDB (email_now db) (email_uuid db) (S (email_serial db))
                    (<[EO_ID m := m]> (email_outbox db))).

(** ** Operations *)

Record EmailOutboxInput := mkEmailOutboxInput {
  EI_IdempotencyKey : string;
  EI_MessageType : string;
  EI_TemplateVersion : Z;
  EI_Payload : EmailPayload;
  EI_ExpiresAt : option Time;
}.

Record EmailOutboxTransitionInput := mkEmailTransition {
  ET_ID : string;
  ET_FromAttempt : Z;
  ET_Status : EmailOutboxStatus;
  ET_AttemptCount : Z;
  ET_AvailableAt : Time;
  ET_LastError : option string;
  ET_SentAt : option Time;
  ET_ClearPayload : bool;
}.

(** The row of an input; [available_at], [created_at] and [updated_at] default to [now()]. *)
Definition email_row_of (input : EmailOutboxInput) (sealed : string * RawMessage) (db : EmailDB)
    : EmailOutbox :=
  mkEmailOutbox (email_uuid db (email_serial db)) (EI_IdempotencyKey input)
    (EI_MessageType input)
    (if EI_TemplateVersion input <=? 0 then 1 else EI_TemplateVersion input)
    (Some sealed.1) (Some sealed.2) EmailOutboxStatusPending 0 (email_now db) None None
    (pg_timestamptz <$> EI_ExpiresAt input) None (email_now db) (email_now db).

Definition enqueueEmailTx (emailOutboxCipher : option Cipher) (random : res string)
    (input : EmailOutboxInput) : Mail unit :=
  cipher ← row_or ErrEmailOutboxEncryptionUnavailable emailOutboxCipher;
  sealed ← lift_res (Encrypt cipher random (EI_Payload input));
  db ← gets (λ db, db);
  insert_email (email_row_of input sealed db).

Definition EnqueueEmail (emailOutboxCipher : option Cipher) (random : res string)
    (input : EmailOutboxInput) : Mail unit :=
  transaction (enqueueEmailTx emailOutboxCipher random input).

(** The WHERE of the candidates. *)
Definition email_claimable (now : Time) (m : EmailOutbox) : bool :=
  let due t := t_nanos t <=? t_nanos (pg_timestamptz now) in
  match EO_Status m with
  | EmailOutboxStatusPending | EmailOutboxStatusRetrying => due (EO_AvailableAt m)
  | EmailOutboxStatusSending => match EO_LeaseUntil m with Some t => due t | None => false end
  | _ => false
  end.

(** [ORDER BY available_at ASC, created_at ASC] *)
Definition email_before (a b : EmailOutbox) : bool :=
  (t_nanos (EO_AvailableAt a) <? t_nanos (EO_AvailableAt b)) ||
  ((t_nanos (EO_AvailableAt a) =? t_nanos (EO_AvailableAt b)) &&
   (t_nanos (EO_CreatedAt a) <=? t_nanos (EO_CreatedAt b))).

Definition email_candidates (now : Time) (n : Z) (rows : gmap string EmailOutbox)
    : list EmailOutbox :=
  limit n (order_by email_before (filter (λ m, email_claimable now m = true) (rows_of rows))).

(** [SET status = 'sending', lease_until = $3]; the trigger sets [updated_at]. *)
Definition email_lease (leaseUntil updated : Time) (m : EmailOutbox) : EmailOutbox :=
  mkEmailOutbox (EO_ID m) (EO_IdempotencyKey m) (EO_MessageType m) (EO_TemplateVersion m)
    (EO_PayloadNonce m) (EO_PayloadCiphertext m) EmailOutboxStatusSending (EO_AttemptCount m)
    (EO_AvailableAt m) (Some (pg_timestamptz leaseUntil)) (EO_LastError m) (EO_ExpiresAt m)
    (EO_SentAt m) (EO_CreatedAt m) updated.

(** [UPDATE email_outbox ... WHERE id IN ids] *)
Definition update_emails (ids : list string) (f : EmailOutbox → EmailOutbox)
    (rows : gmap string EmailOutbox) : gmap string EmailOutbox :=
  map_imap (λ id m, Some (if bool_decide (id ∈ ids) then f m else m)) rows.

Definition ClaimEmailOutboxReady (now leaseUntil : Time) (n : Z) : Mail (list EmailOutbox) :=
  reject_if (n <? 0) (ErrPg "LIMIT must not be negative") ;;
  db ← gets (λ db, db);
  let candidates := email_candidates now n (email_outbox db) in
  let lease := email_lease leaseUntil (email_now db) in
  modify (with_emails (update_emails (EO_ID <$> candidates) lease (email_outbox db))) ;;
  mret (order_by (λ a b, t_nanos (EO_CreatedAt a) <=? t_nanos (EO_CreatedAt b))
          (lease <$> candidates)).

(** The SET of TransitionEmailOutbox. *)
Definition email_outcome (input : EmailOutboxTransitionInput) (updated : Time) (m : EmailOutbox)
    : EmailOutbox :=
  let keep {A} (payload : option A) := if ET_ClearPayload input then None else payload in
  mkEmailOutbox (EO_ID m) (EO_IdempotencyKey m) (EO_MessageType m) (EO_TemplateVersion m)
    (keep (EO_PayloadNonce m)) (keep (EO_PayloadCiphertext m)) (ET_Status input)
    (ET_AttemptCount input) (pg_timestamptz (ET_AvailableAt input)) None (ET_LastError input)
    (EO_ExpiresAt m) (pg_timestamptz <$> ET_SentAt input) (EO_CreatedAt m) updated.

Definition email_fence (input : EmailOutboxTransitionInput) (m : EmailOutbox) : bool :=
  bool_decide (EO_Status m = EmailOutboxStatusSending) && (EO_AttemptCount m =? ET_FromAttempt input).

Definition TransitionEmailOutbox (input : EmailOutboxTransitionInput) : Mail bool :=
  reject_if (negb (int4_range (ET_FromAttempt input) && int4_range (ET_AttemptCount input)))
    (ErrText "cannot encode int4") ;;
  reject_if (negb (pg_text (default "" (ET_LastError input)))) (ErrPg "invalid byte sequence") ;;
  db ← gets (λ db, db);
  match email_outbox db !! ET_ID input with
  | Some m =>
      if email_fence input m then
        let m' := email_outcome input (email_now db) m in
        email_checks m' ;;
        modify (with_emails (<[ET_ID input := m']> (email_outbox db))) ;;
        mret true
      else mret false
  | None => mret false
  end.

Definition hide_payload (m : EmailOutbox) : EmailOutbox :=
  mkEmailOutbox (EO_ID m) (EO_IdempotencyKey m) (EO_MessageType m) (EO_TemplateVersion m)
    None None (EO_Status m) (EO_AttemptCount m) (EO_AvailableAt m) (EO_LeaseUntil m)
    (EO_LastError m) (EO_ExpiresAt m) (EO_SentAt m) (EO_CreatedAt m) (EO_UpdatedAt m).

Definition ListEmailOutbox (status : EmailOutboxStatus) (n : Z) : Mail (list EmailOutbox) :=
  let n := if (n <=? 0) || (200 <? n) then 50 else n in
  db ← gets (λ db, db);
  mret (hide_payload <$> limit n
    (order_by (λ a b, t_nanos (EO_CreatedAt b) <=? t_nanos (EO_CreatedAt a))
      (filter (λ m, status = EmailOutboxStatusOther "" ∨ EO_Status m = status)
        (rows_of (email_outbox db))))).

Definition email_requeue (now updated : Time) (m : EmailOutbox) : EmailOutbox :=
  mkEmailOutbox (EO_ID m) (EO_IdempotencyKey m) (EO_MessageType m) (EO_TemplateVersion m)
    (EO_PayloadNonce m) (EO_PayloadCiphertext m) EmailOutboxStatusRetrying 0
    (pg_timestamptz now) None None (EO_ExpiresAt m) (EO_SentAt m) (EO_CreatedAt m) updated.

(** [expires_at IS NULL OR expires_at > $2] *)
Definition email_unexpired (now : Time) (m : EmailOutbox) : bool :=
  match EO_ExpiresAt m with
  | None => true
  | Some t => t_nanos (pg_timestamptz now) <? t_nanos t
  end.

Definition email_requeueable (now : Time) (m : EmailOutbox) : bool :=
  bool_decide (EO_Status m = EmailOutboxStatusDeadLettered) &&
  bool_decide (is_Some (EO_PayloadNonce m)) && bool_decide (is_Some (EO_PayloadCiphertext m)) &&
  email_unexpired now m.

Definition RequeueEmailOutbox (id : string) (now : Time) : Mail bool :=
  db ← gets (λ db, db);
  match email_outbox db !! id with
  | Some m =>
      if email_requeueable now m then
        let m' := email_requeue now (email_now db) m in
        email_checks m' ;;
        modify (with_emails (<[id := m']> (email_outbox db))) ;;
        mret true
      else mret false
  | None => mret false
  end.

Record EmailOutboxCounts := mkEmailOutboxCounts {
  Pending_ : Z;
  Retrying_ : Z;
  Sent_ : Z;
  DeadLettered_ : Z;
  Expired_ : Z;
}.

(** Without the two ages, which are floating-point averages. *)
Definition GetEmailOutboxCounts : Mail EmailOutboxCounts :=
  db ← gets (λ db, db);
  let count status := Z.of_nat (length (filter (λ m, EO_Status m = status)
    (rows_of (email_outbox db)))) in
  mret (mkEmailOutboxCounts (count EmailOutboxStatusPending) (count EmailOutboxStatusRetrying)
    (count EmailOutboxStatusSent) (count EmailOutboxStatusDeadLettered)
    (count EmailOutboxStatusExpired)).

(** ** Well-formed tables *)

(** The constraints of a row. *)
Definition email_row_ok (m : EmailOutbox) : Prop :=
  0 ≤ EO_AttemptCount m < 2 ^ 31 ∧ 0 < EO_TemplateVersion m < 2 ^ 31 ∧
  btrim_blank (EO_IdempotencyKey m) = false ∧ EO_MessageType m ∈ email_message_types ∧
  valid_email_status (EO_Status m) = true ∧ payload_matches_status m = true.

Lemma email_checks_run m db :
  (email_checks m db = (Ok tt, db) ∧ email_row_ok m) ∨
  (∃ e, email_checks m db = (Err (ErrPg e), db) ∧ ¬ email_row_ok m).
Proof.
  unfold email_checks, email_row_ok, int4_range. run_simpl.
  destruct (Z.leb_spec (- 2 ^ 31) (EO_AttemptCount m)),
    (Z.ltb_spec (EO_AttemptCount m) (2 ^ 31)), (Z.leb_spec (- 2 ^ 31) (EO_TemplateVersion m)),
    (Z.ltb_spec (EO_TemplateVersion m) (2 ^ 31)); simpl; try (right; eexists; split; [done|lia]).
  destruct (btrim_blank _); simpl; [right; eexists; split; [done|naive_solver]|].
  case_bool_decide; simpl; [|right; eexists; split; [done|tauto]].
  destruct (Z.leb_spec (EO_TemplateVersion m) 0); simpl; [right; eexists; split; [done|lia]|].
  destruct (valid_email_status _); simpl; [|right; eexists; split; [done|naive_solver]].
  destruct (Z.ltb_spec (EO_AttemptCount m) 0); simpl; [right; eexists; split; [done|lia]|].
  destruct (payload_matches_status m); simpl; [left|right; eexists; split; [done|naive_solver]].
  split; [done|]. split_and!; done || lia.
Qed.

(** Rows sit under their id, satisfy the constraints, and have distinct idempotency keys. *)
Record email_ok (db : EmailDB) : Prop := {
  email_keyed : map_Forall (λ k m, EO_ID m = k) (email_outbox db);
  email_rows_ok : map_Forall (λ _, email_row_ok) (email_outbox db);
  email_keys_distinct i j m m' :
    email_outbox db !! i = Some m → email_outbox db !! j = Some m' →
    EO_IdempotencyKey m = EO_IdempotencyKey m' → i = j;
}.

Lemma lookup_update_emails ids f rows k :
  update_emails ids f rows !! k = (λ m, if bool_decide (k ∈ ids) then f m else m) <$> rows !! k.
Proof. unfold update_emails. rewrite map_lookup_imap. by destruct (rows !! k). Qed.

Lemma fmap_sublist {A B} (f : A → B) l k : sublist l k → sublist (f <$> l) (f <$> k).
Proof. intros H. induction H; simpl; by constructor. Qed.

(** What a lease is given to. *)
Lemma email_candidates_spec now n rows :
  map_Forall (λ k m, EO_ID m = k) rows →
  NoDup (EO_ID <$> email_candidates now n rows) ∧
  (length (email_candidates now n rows) ≤ Z.to_nat n)%nat ∧
  (∀ m, m ∈ email_candidates now n rows →
     rows !! EO_ID m = Some m ∧ email_claimable now m = true) ∧
  ((length (email_candidates now n rows) < Z.to_nat n)%nat →
     ∀ k m, rows !! k = Some m → email_claimable now m = true →
       m ∈ email_candidates now n rows).
Proof.
  intros Hk. unfold email_candidates, limit. set (ready := filter _ _).
  assert (∀ m, m ∈ ready ↔ email_claimable now m = true ∧ ∃ k, rows !! k = Some m) as Hready.
  { intros m. unfold ready. by rewrite list_elem_of_filter, elem_of_rows_of. }
  split_and!.
  - apply (sublist_NoDup _ (EO_ID <$> order_by email_before ready));
      [|apply fmap_sublist, sublist_take].
    rewrite (order_by_perm email_before ready).
    apply (sublist_NoDup _ (EO_ID <$> rows_of rows)); [|apply fmap_sublist, sublist_filter].
    replace (EO_ID <$> rows_of rows) with (map_to_list rows).*1; [apply NoDup_fst_map_to_list|].
    unfold rows_of. rewrite <-list_fmap_compose. apply list_fmap_ext.
    intros i [k m] Hi. apply list_elem_of_lookup_2, elem_of_map_to_list in Hi. symmetry. by apply Hk.
  - rewrite length_take. lia.
  - intros m Hm. apply elem_of_take in Hm as (i & Hi & _).
    apply list_elem_of_lookup_2, elem_of_order_by, Hready in Hi as [Hr [k Hi]].
    rewrite (Hk _ _ Hi). done.
  - rewrite length_take. intros Hlt k m Hm Hr. rewrite take_ge by lia.
    apply elem_of_order_by, Hready. eauto.
Qed.

(** ** What each operation does *)

Definition email_leased (now leaseUntil : Time) (n : Z) (db : EmailDB) : list EmailOutbox :=
  email_lease leaseUntil (email_now db) <$> email_candidates now n (email_outbox db).

Lemma email_leased_ids now leaseUntil n db :
  EO_ID <$> email_leased now leaseUntil n db = EO_ID <$> email_candidates now n (email_outbox db).
Proof. unfold email_leased. by rewrite <-list_fmap_compose. Qed.

Lemma ClaimEmailOutboxReady_run now leaseUntil n db :
  ClaimEmailOutboxReady now leaseUntil n db =
    if n <? 0 then (Err (ErrPg "LIMIT must not be negative"), db)
    else (Ok (order_by (λ a b, t_nanos (EO_CreatedAt a) <=? t_nanos (EO_CreatedAt b))
                (email_leased now leaseUntil n db)),
          with_emails (update_emails (EO_ID <$> email_candidates now n (email_outbox db))
            (email_lease leaseUntil (email_now db)) (email_outbox db)) db).
Proof. unfold ClaimEmailOutboxReady. rewrite bind_reject_run. by destruct (n <? 0). Qed.

Lemma TransitionEmailOutbox_cases input db r db' :
  TransitionEmailOutbox input db = (r, db') →
  (r ≠ Ok true ∧ db' = db ∧
     (r = Ok false → ∀ m, email_outbox db !! ET_ID input = Some m → email_fence input m = false)) ∨
  (r = Ok true ∧ ∃ m, email_outbox db !! ET_ID input = Some m ∧ email_fence input m = true ∧
     email_row_ok (email_outcome input (email_now db) m) ∧
     db' = with_emails (<[ET_ID input := email_outcome input (email_now db) m]> (email_outbox db)) db).
Proof.
  unfold TransitionEmailOutbox. rewrite bind_reject_run.
  destruct (negb _); [intros [= <- <-]; by left|]. cbv beta. rewrite bind_reject_run.
  destruct (negb _); [intros [= <- <-]; by left|]. run_simpl.
  destruct (email_outbox db !! ET_ID input) as [m|] eqn:Hm; [|intros [= <- <-]; by left].
  destruct (email_fence input m) eqn:Hf.
  2: { intros [= <- <-]. left. split_and!; [done|done|]. intros _ m' [= <-]. done. }
  destruct (email_checks_run (email_outcome input (email_now db) m) db) as [[-> Hok]|(e & -> & _)];
    intros [= <- <-]; [right|by left]. eauto 8.
Qed.

Lemma RequeueEmailOutbox_cases id now db r db' :
  RequeueEmailOutbox id now db = (r, db') →
  (r ≠ Ok true ∧ db' = db) ∨
  (r = Ok true ∧ ∃ m, email_outbox db !! id = Some m ∧ email_requeueable now m = true ∧
     db' = with_emails (<[id := email_requeue now (email_now db) m]> (email_outbox db)) db).
Proof.
  unfold RequeueEmailOutbox. run_simpl.
  destruct (email_outbox db !! id) as [m|] eqn:Hm; [|intros [= <- <-]; by left].
  destruct (email_requeueable now m) eqn:Hf; [|intros [= <- <-]; by left].
  destruct (email_checks_run (email_requeue now (email_now db) m) db) as [[-> Hok]|(e & -> & _)];
    intros [= <- <-]; [right|by left]. eauto 8.
Qed.

Lemma insert_email_cases m db r db' :
  insert_email m db = (r, db') →
  (db' = db ∧ (r = Ok tt → ∃ k row, email_outbox db !! k = Some row ∧
     EO_IdempotencyKey row = EO_IdempotencyKey m)) ∨
  (r = Ok tt ∧ email_row_ok m ∧ email_outbox db !! EO_ID m = None ∧
   (∀ k row, email_outbox db !! k = Some row → EO_IdempotencyKey row ≠ EO_IdempotencyKey m) ∧
   email_outbox db' = <[EO_ID m := m]> (email_outbox db)).
Proof.
  unfold insert_email. run_simpl.
  destruct (email_checks_run m db) as [[-> Hok]|(e & -> & _)]; [|intros [= <- <-]; by left].
  destruct (existsb _ _) eqn:He.
  - intros [= <- <-]. left. split; [done|]. intros _. apply existsb_exists in He as (row & Hin & He).
    apply list_elem_of_In, elem_of_rows_of in Hin as [k Hk]. apply bool_decide_eq_true in He. eauto.
  - case_bool_decide as Hpk; intros [= <- <-]; [by left|right]. do 2 (split; [done|]).
    split; [by apply eq_None_not_Some|]. split; [|done]. intros k row Hk Heq.
    apply not_true_iff_false in He. apply He, existsb_exists. exists row.
    split; [apply list_elem_of_In, elem_of_rows_of; eauto|by apply bool_decide_eq_true].
Qed.

Lemma EnqueueEmail_cases c random input db r db' :
  EnqueueEmail c random input db = (r, db') →
  (db' = db ∧ (r = Ok tt → ∃ k row, email_outbox db !! k = Some row ∧
     EO_IdempotencyKey row = EI_IdempotencyKey input)) ∨
  (r = Ok tt ∧ ∃ cipher sealed, c = Some cipher ∧
     Encrypt cipher random (EI_Payload input) = Ok sealed ∧
     let row := email_row_of input sealed db in
     email_row_ok row ∧ email_outbox db !! EO_ID row = None ∧
     (∀ k row, email_outbox db !! k = Some row → EO_IdempotencyKey row ≠ EI_IdempotencyKey input) ∧
     email_outbox db' = <[EO_ID row := row]> (email_outbox db)).
Proof.
  unfold EnqueueEmail. destruct r as [[]|e]; intros Hr; [|by apply transaction_err in Hr as ->; left].
  rewrite transaction_ok in Hr. unfold enqueueEmailTx in Hr.
  apply bind_row_ok in Hr as (cipher & Hc & Hr). apply bind_lift_ok in Hr as (sealed & He & Hr).
  apply bind_gets_ok in Hr. apply insert_email_cases in Hr as [[-> Hdup]|(_ & Hok & Hid & Hkey & Hr)].
  - left. split; [done|]. intros _. by apply Hdup.
  - right. split; [done|]. by exists cipher, sealed.
Qed.

(** ** Histories of the table *)

Inductive mail_op :=
  | OpEnqueue (cipher : option Cipher) (random : res string) (input : EmailOutboxInput)
  | OpClaim (now leaseUntil : Time) (n : Z)
  | OpTransition (input : EmailOutboxTransitionInput)
  | OpList (status : EmailOutboxStatus) (n : Z)
  | OpRequeue (id : string) (now : Time)
  | OpCounts.

(** An operation and whether it failed. *)
Definition mail_run (op : mail_op) : Mail unit :=
  match op with
  | OpEnqueue cipher random input => EnqueueEmail cipher random input
  | OpClaim now leaseUntil n => ClaimEmailOutboxReady now leaseUntil n ;; mret tt
  | OpTransition input => TransitionEmailOutbox input ;; mret tt
  | OpList status n => ListEmailOutbox status n ;; mret tt
  | OpRequeue id now => RequeueEmailOutbox id now ;; mret tt
  | OpCounts => GetEmailOutboxCounts ;; mret tt
  end.

(** Operations one after the other, each at its own time, failures included. *)
Definition mail_runs (ops : list (Time * mail_op)) (db : EmailDB) : EmailDB :=
  foldl (λ db op, (mail_run op.2 (at_email_now op.1 db)).2) db ops.

(** What an operation may do to the row stored under [id]. *)
Inductive email_step (id : string) : mail_op → relation EmailOutbox :=
  | step_keep op m : email_step id op m m
  | step_lease now leaseUntil n t m :
      email_claimable now m = true →
      email_step id (OpClaim now leaseUntil n) m (email_lease leaseUntil t m)
  | step_outcome input t m :
      ET_ID input = id → email_fence input m = true → email_row_ok (email_outcome input t m) →
      email_step id (OpTransition input) m (email_outcome input t m)
  | step_requeue now t m :
      email_requeueable now m = true → email_step id (OpRequeue id now) m (email_requeue now t m).

Inductive email_trace (id : string) : list (Time * mail_op) → relation EmailOutbox :=
  | trace_nil m : email_trace id [] m m
  | trace_cons t op ops m m1 m' :
      email_step id op m m1 → email_trace id ops m1 m' → email_trace id ((t, op) :: ops) m m'.

#[export] Hint Constructors email_step email_trace : rtk.

(** Steps keep who the message is for and, until the end, what it says. *)
Definition same_email (m m' : EmailOutbox) : Prop :=
  EO_ID m = EO_ID m' ∧ EO_IdempotencyKey m = EO_IdempotencyKey m' ∧
  EO_MessageType m = EO_MessageType m' ∧ EO_TemplateVersion m = EO_TemplateVersion m' ∧
  EO_ExpiresAt m = EO_ExpiresAt m' ∧ EO_CreatedAt m = EO_CreatedAt m'.

#[export] Instance same_email_equivalence : Equivalence same_email.
Proof. unfold same_email. split; red; naive_solver congruence. Qed.

Lemma email_step_same id op m m' : email_step id op m m' → same_email m' m.
Proof. by destruct 1. Qed.

Lemma email_lease_ok now leaseUntil t m :
  email_claimable now m = true → email_row_ok m → email_row_ok (email_lease leaseUntil t m).
Proof.
  intros Hc (Ha & Hv & Hk & Ht & _ & Hp). do 5 (split; [done|]). unfold payload_matches_status in *.
  unfold email_claimable in Hc. simpl.
  destruct (EO_PayloadNonce m), (EO_PayloadCiphertext m); try done; by destruct (EO_Status m).
Qed.

Lemma email_requeue_ok now t m :
  email_requeueable now m = true → email_row_ok m → email_row_ok (email_requeue now t m).
Proof.
  unfold email_requeueable. intros Hr (Ha & Hv & Hk & Ht & _ & Hp). destruct_bools.
  split; [by split|]. split; [done|]. do 3 (split; [done|]). unfold payload_matches_status. simpl.
  by destruct (EO_PayloadNonce m) as [|], (EO_PayloadCiphertext m) as [|];
    repeat match goal with H : is_Some None |- _ => by destruct H end.
Qed.

Lemma email_step_ok id op m m' : email_step id op m m' → email_row_ok m → email_row_ok m'.
Proof. destruct 1; eauto using email_lease_ok, email_requeue_ok. Qed.

(** Every operation refines [email_step] and keeps the table well-formed. *)
Record mail_refines (op : mail_op) (db db' : EmailDB) : Prop := {
  mr_ok : email_ok db';
  mr_step id m : email_outbox db !! id = Some m →
    ∃ m', email_outbox db' !! id = Some m' ∧ email_step id op m m';
  mr_new id m' : email_outbox db' !! id = Some m' → email_outbox db !! id = None →
    EO_AttemptCount m' = 0;
}.

Lemma refines_same op db : email_ok db → mail_refines op db db.
Proof. split; [done|eauto with rtk|congruence]. Qed.

Lemma refines_update op rows db :
  email_ok db →
  (∀ k, rows !! k = None ∨ ∃ m m', email_outbox db !! k = Some m ∧ rows !! k = Some m' ∧
     email_step k op m m') →
  dom rows = dom (email_outbox db) →
  mail_refines op db (with_emails rows db).
Proof.
  intros [Hk Hr Hd] Hstep Hdom.
  assert (∀ k m', rows !! k = Some m' → ∃ m, email_outbox db !! k = Some m ∧
    email_step k op m m' ∧ same_email m' m) as Hback.
  { intros k m' Hm'. destruct (Hstep k) as [?|(m & x & ? & ? & Hs)]; simplify_eq.
    eauto using email_step_same. }
  split; [split; simpl|..].
  - intros k m' Hm'. destruct (Hback _ _ Hm') as (m & Hm & _ & (-> & _)). by apply Hk.
  - intros k m' Hm'. destruct (Hback _ _ Hm') as (m & Hm & Hs & _).
    eapply email_step_ok; [done|]. by eapply Hr.
  - intros i j m m' Hi Hj Heq. destruct (Hback _ _ Hi) as (a & Ha & _ & (_ & Hka & _)).
    destruct (Hback _ _ Hj) as (b & Hb & _ & (_ & Hkb & _)). eapply Hd; [done..|congruence].
  - intros id m Hm. simpl. destruct (Hstep id) as [Hn|(m0 & m' & ? & ? & ?)]; [|simplify_eq; eauto].
    apply not_elem_of_dom in Hn. rewrite Hdom in Hn.
    destruct Hn. apply elem_of_dom. eauto.
  - simpl. intros id m' Hm' Hn. destruct (Hback _ _ Hm') as (m & Hm & _). congruence.
Qed.

Lemma refines_update_one op id m m' db :
  email_ok db → email_outbox db !! id = Some m → email_step id op m m' →
  mail_refines op db (with_emails (<[id := m']> (email_outbox db)) db).
Proof.
  intros Hok Hm Hs. apply refines_update; [done|..].
  - intros k. destruct (decide (k = id)) as [->|Hne].
    + right. exists m, m'. by rewrite lookup_insert_eq.
    + rewrite lookup_insert_ne by done. destruct (email_outbox db !! k); eauto 7 with rtk.
  - apply dom_insert_lookup_L. eauto.
Qed.

Lemma refines_enqueue c random input db r db' :
  email_ok db → EnqueueEmail c random input db = (r, db') →
  mail_refines (OpEnqueue c random input) db db'.
Proof.
  intros Hok Hr. apply EnqueueEmail_cases in Hr as [[-> _]|(_ & cipher & sealed & _ & _ & Hrow)];
    [by apply refines_same|]. simpl in Hrow. destruct Hrow as (Hrow & Hid & Hkey & Hdb).
  split.
  - destruct Hok as [Hk Hr Hd]. split; rewrite Hdb.
    + by apply map_Forall_insert_2.
    + by apply map_Forall_insert_2.
    + intros i j m m' [[<- <-]|[Hi Hm]]%lookup_insert_Some [[<- <-]|[Hj Hm']]%lookup_insert_Some Heq.
      * done.
      * exfalso. by eapply Hkey.
      * exfalso. by eapply Hkey.
      * by eapply Hd.
  - intros id m Hm. exists m. split; [|constructor]. rewrite Hdb, lookup_insert_ne; congruence.
  - intros id m'. rewrite Hdb. intros [[<- <-]|[_ ?]]%lookup_insert_Some Hn; [done|congruence].
Qed.

Lemma refines_claim now until n db r db' :
  email_ok db → ClaimEmailOutboxReady now until n db = (r, db') →
  mail_refines (OpClaim now until n) db db'.
Proof.
  intros Hok. rewrite ClaimEmailOutboxReady_run. destruct (n <? 0); intros [= _ <-];
    [by apply refines_same|]. apply refines_update; [done|..].
  - intros k. rewrite lookup_update_emails. destruct (email_outbox db !! k) as [m|] eqn:Hm; [|by left].
    right. simpl. do 2 eexists. do 2 (split; [done|]). case_bool_decide as Hin; [|constructor].
    apply list_elem_of_fmap in Hin as (m0 & -> & Hin).
    apply email_candidates_spec in Hin as [Hm0 ?]; [|apply Hok]. simplify_eq. by constructor.
  - apply set_eq. intros k. rewrite !elem_of_dom, lookup_update_emails. by rewrite fmap_is_Some.
Qed.

Lemma refines_requeue id now db r db' :
  email_ok db → RequeueEmailOutbox id now db = (r, db') → mail_refines (OpRequeue id now) db db'.
Proof.
  intros Hok [[_ ->]|(_ & m & Hm & Hf & ->)]%RequeueEmailOutbox_cases; [by apply refines_same|].
  eapply refines_update_one; [done..|by constructor].
Qed.

Lemma mail_run_refines op db r db' :
  email_ok db → mail_run op db = (r, db') → mail_refines op db db'.
Proof.
  intros Hok Hr.
  assert (∀ {A} (f : Mail A), (f ;; mret tt) db = (r, db') → ∃ r', f db = (r', db')) as Hsnd.
  { intros A f. unfold mbind, M_bind. destruct (f db) as [[?|?] ?]; intros [= _ <-]; eauto. }
  destruct op as [c random input|now until n|input|status n|id0 now|]; simpl in Hr.
  - by eapply refines_enqueue.
  - apply Hsnd in Hr as [r' Hr]. by eapply refines_claim.
  - apply Hsnd in Hr as [r' [(_ & -> & _)|(_ & m & Hm & Hf & Hrow & ->)]%TransitionEmailOutbox_cases];
      [by apply refines_same|]. eapply refines_update_one; [done..|by constructor].
  - apply Hsnd in Hr as [r' [= _ <-]]. by apply refines_same.
  - apply Hsnd in Hr as [r' Hr]. by eapply refines_requeue.
  - apply Hsnd in Hr as [r' [= _ <-]]. by apply refines_same.
Qed.

Lemma at_email_now_ok t db : email_ok db → email_ok (at_email_now t db).
Proof. by intros [? ? ?]. Qed.

Lemma mail_runs_trace ops db :
  email_ok db →
  email_ok (mail_runs ops db) ∧
  ∀ id m, email_outbox db !! id = Some m →
    ∃ m', email_outbox (mail_runs ops db) !! id = Some m' ∧ email_trace id ops m m'.
Proof.
  revert db. induction ops as [|[t op] ops IH]; intros db Hok; simpl; [eauto with rtk|].
  destruct (mail_run op (at_email_now t db)) as [r db1] eqn:E. simpl.
  apply mail_run_refines in E as [Hok1 Hstep _]; [|by apply at_email_now_ok].
  destruct (IH _ Hok1) as [Hok' Htrace]. split; [done|]. intros id m Hm.
  destruct (Hstep id m Hm) as (m1 & Hm1 & ?). destruct (Htrace _ _ Hm1) as (m' & ? & ?). eauto with rtk.
Qed.

(** *** The abstract machine *)

(** What the life of a message is meant to be, without rows, texts and times: the state of a
    message and the attempts it has used. *)
Inductive mail_phase :=
  | MailWaiting (attempts : Z)
  | MailLeased (attempts : Z)
  | MailDead (attempts : Z)
  | MailDone (sent : bool) (attempts : Z).

Definition mail_phase_of (status : EmailOutboxStatus) (attempts : Z) : mail_phase :=
  match status with
  | EmailOutboxStatusSending => MailLeased attempts
  | EmailOutboxStatusDeadLettered => MailDead attempts
  | EmailOutboxStatusSent => MailDone true attempts
  | EmailOutboxStatusExpired => MailDone false attempts
  | _ => MailWaiting attempts
  end.

Abbreviation phase_of m := (mail_phase_of (EO_Status m) (EO_AttemptCount m)).

(** Only a claim leases, only the holder of the attempt ends a lease, only an operator gives a dead
    letter new attempts, and nothing leaves [MailDone]. *)
Inductive phase_step (id : string) : mail_op → relation mail_phase :=
  | phase_keep op p : phase_step id op p p
  | phase_lease now leaseUntil n a :
      phase_step id (OpClaim now leaseUntil n) (MailWaiting a) (MailLeased a)
  | phase_outcome input :
      ET_ID input = id →
      phase_step id (OpTransition input) (MailLeased (ET_FromAttempt input))
        (mail_phase_of (ET_Status input) (ET_AttemptCount input))
  | phase_requeue now a :
      phase_step id (OpRequeue id now) (MailDead a) (MailWaiting 0).

Inductive phase_trace (id : string) : list (Time * mail_op) → relation mail_phase :=
  | phases_nil p : phase_trace id [] p p
  | phases_cons t op ops p p1 p' :
      phase_step id op p p1 → phase_trace id ops p1 p' → phase_trace id ((t, op) :: ops) p p'.

#[export] Hint Constructors phase_step phase_trace : rtk.

Lemma email_step_phase id op m m' :
  email_step id op m m' → phase_step id op (phase_of m) (phase_of m').
Proof.
  destruct 1 as [|now lease n t m Hc|input t m Hid Hf _|now t m Hr]; [by constructor|..].
  - unfold email_claimable in Hc. simpl. destruct (EO_Status m); try done; simpl; auto with rtk.
  - unfold email_fence in Hf. destruct_bools. simpl.
    rewrite H, (proj1 (Z.eqb_eq _ _) H0). by apply phase_outcome.
  - unfold email_requeueable in Hr. destruct_bools. simpl.
    rewrite H. apply phase_requeue.
Qed.

Lemma email_trace_same id ops m m' : email_trace id ops m m' → same_email m' m.
Proof.
  induction 1 as [|t op ops m m1 m' Hs _ IH]; [done|]. etrans; [exact IH|].
  by eapply email_step_same.
Qed.

Lemma email_trace_phases id ops m m' :
  email_trace id ops m m' → phase_trace id ops (phase_of m) (phase_of m').
Proof. induction 1; eauto using email_step_phase with rtk. Qed.

(** C40: the outbox implements the abstract machine: whatever sequence of operations runs on a
    well-formed table, in any order and at any times, failing ones included, the table stays
    well-formed (constraints, distinct idempotency keys), no row disappears, and each message goes
    through the phases in the order of the operations: waiting messages are leased by claims, a
    lease ends by an outcome for its own attempt, dead letters restart when requeued, and
    nothing else happens to it. *)
Theorem mail_runs_refine ops db :
  email_ok db →
  email_ok (mail_runs ops db) ∧
  ∀ id m, email_outbox db !! id = Some m →
    ∃ m', email_outbox (mail_runs ops db) !! id = Some m' ∧ same_email m' m ∧
      phase_trace id ops (phase_of m) (phase_of m').
Proof.
  intros Hok. destruct (mail_runs_trace ops db Hok) as [Hok' Htrace]. split; [done|].
  intros id m Hm. destruct (Htrace id m Hm) as (m' & Hm' & T). exists m'.
  eauto using email_trace_phases, email_trace_same.
Qed.

(** ** Properties of histories *)

Lemma email_fence_true input m :
  email_fence input m = true ↔
  EO_Status m = EmailOutboxStatusSending ∧ EO_AttemptCount m = ET_FromAttempt input.
Proof. unfold email_fence. by rewrite andb_true_iff, bool_decide_eq_true, Z.eqb_eq. Qed.

(** What a step may change, and that it ends with the final statuses. *)
Definition payload_kept (m m' : EmailOutbox) : Prop :=
  if email_final (EO_Status m') then EO_PayloadNonce m' = None ∧ EO_PayloadCiphertext m' = None
  else EO_PayloadNonce m' = EO_PayloadNonce m ∧ EO_PayloadCiphertext m' = EO_PayloadCiphertext m.

Lemma email_row_ok_payload m :
  email_row_ok m → if email_final (EO_Status m)
    then EO_PayloadNonce m = None ∧ EO_PayloadCiphertext m = None
    else is_Some (EO_PayloadNonce m) ∧ is_Some (EO_PayloadCiphertext m).
Proof.
  intros (_ & _ & _ & _ & _ & Hp). unfold payload_matches_status in Hp.
  destruct (EO_PayloadNonce m), (EO_PayloadCiphertext m); try done; destruct (email_final _);
    naive_solver.
Qed.

Lemma email_step_final id op m m' :
  email_step id op m m' → email_final (EO_Status m) = true → m' = m.
Proof.
  destruct 1 as [|????? Hc|??? _ Hf ?|??? Hr]; [done|..]; intros Hfin.
  - unfold email_claimable in Hc. by destruct (EO_Status m).
  - apply email_fence_true in Hf as [Hs _]. by rewrite Hs in Hfin.
  - unfold email_requeueable in Hr. destruct (EO_Status m); done.
Qed.

Lemma email_step_payload id op m m' :
  email_step id op m m' → email_row_ok m → payload_kept m m'.
Proof.
  intros Hs Hok. pose proof (email_step_ok _ _ _ _ Hs Hok) as Hok'.
  apply email_row_ok_payload in Hok'. unfold payload_kept.
  destruct (email_final (EO_Status m')) eqn:Hfin; [done|]. destruct Hs; try done.
  simpl in *. destruct (ET_ClearPayload input); [|done]. by destruct Hok' as [[? [=]] _].
Qed.

Lemma email_trace_facts id ops m m' :
  email_trace id ops m m' → email_row_ok m →
  same_email m' m ∧ payload_kept m m' ∧ (email_final (EO_Status m) = true → m' = m).
Proof.
  induction 1 as [m|t op ops m m1 m' Hs Ht IH]; intros Hok.
  - apply email_row_ok_payload in Hok. unfold payload_kept. split_and!; [done| |done].
    by destruct (email_final _).
  - pose proof (email_step_payload _ _ _ _ Hs Hok) as Hp1.
    destruct (IH (email_step_ok _ _ _ _ Hs Hok)) as (Hsame & Hp & Hfin). split_and!.
    + etrans; [done|]. by eapply email_step_same.
    + unfold payload_kept in *. destruct (email_final (EO_Status m')) eqn:Hf'; [done|].
      destruct (email_final (EO_Status m1)) eqn:Hf1; [by rewrite Hfin, Hf1 in Hf'|].
      destruct Hp as [-> ->]. done.
    + intros Hf. pose proof (email_step_final _ _ _ _ Hs Hf) as ->. by apply Hfin.
Qed.

(** A settled e-mail is final: once a message is sent or expired no operation ever touches its
    row again, and its payload is gone; until then the sealed payload is kept exactly as it was
    enqueued, through every retry, dead letter and requeue. *)
Theorem settled_email_is_final ops db id m :
  email_ok db → email_outbox db !! id = Some m →
  ∃ m', email_outbox (mail_runs ops db) !! id = Some m' ∧ same_email m' m ∧
    (email_final (EO_Status m) = true → m' = m) ∧
    if email_final (EO_Status m') then EO_PayloadNonce m' = None ∧ EO_PayloadCiphertext m' = None
    else EO_PayloadNonce m' = EO_PayloadNonce m ∧ EO_PayloadCiphertext m' = EO_PayloadCiphertext m.
Proof.
  intros Hok Hm. destruct (mail_runs_trace ops db Hok) as [_ Htrace].
  destruct (Htrace _ _ Hm) as (m' & Hm' & Ht). exists m'. split; [done|].
  by destruct (email_trace_facts _ _ _ _ Ht) as (? & ? & ?); [by eapply email_rows_ok|].
Qed.

(** *** The fence *)

(** Operations that do not take the message back to an earlier attempt: no requeue of it, and
    outcomes that count forward. *)
Definition forward (id : string) (op : mail_op) : Prop :=
  match op with
  | OpRequeue id' _ => id' ≠ id
  | OpTransition input => ET_ID input = id → ET_FromAttempt input ≤ ET_AttemptCount input
  | _ => True
  end.

(** An outcome that uses its attempt up: it counts one, or it is final. *)
Definition uses_attempt (input : EmailOutboxTransitionInput) : Prop :=
  ET_FromAttempt input < ET_AttemptCount input ∨ email_final (ET_Status input) = true.

Definition past_attempt (n : Z) (m : EmailOutbox) : Prop :=
  email_final (EO_Status m) = true ∨ n < EO_AttemptCount m.

Lemma past_attempt_step id op n m m' :
  email_step id op m m' → forward id op → past_attempt n m → past_attempt n m'.
Proof.
  intros Hs Hf [Hfin|Hn]; [left; by rewrite (email_step_final _ _ _ _ Hs Hfin)|].
  destruct Hs as [| |input t m Hid Hfence _|]; simpl in *; [by right..| |done].
  right. simpl. apply email_fence_true in Hfence as [_ Hfence]. specialize (Hf Hid). lia.
Qed.

Lemma past_attempt_trace id ops n m m' :
  email_trace id ops m m' → Forall (λ op, forward id op.2) ops → past_attempt n m →
  past_attempt n m'.
Proof.
  induction 1 as [|t op ops m m1 m' Hs Ht IH]; [done|].
  intros [Hf Hfs]%Forall_cons Hp. eauto using past_attempt_step.
Qed.

(** An attempt is recorded once: after the outcome of an attempt has been recorded, no other
    worker that still holds the same attempt of the message, its lease having run out, can record
    another one, whatever happens in between, as long as the message is not requeued. *)
Theorem email_attempt_recorded_once first second ops db db1 r db2 :
  email_ok db → ET_ID second = ET_ID first → ET_FromAttempt second = ET_FromAttempt first →
  uses_attempt first → Forall (λ op, forward (ET_ID first) op.2) ops →
  TransitionEmailOutbox first db = (Ok true, db1) →
  TransitionEmailOutbox second (mail_runs ops db1) = (r, db2) →
  r ≠ Ok true ∧ db2 = mail_runs ops db1.
Proof.
  intros Hok Hid Hn Huse Hfwd H1 H2.
  assert (email_ok db1) as Hok1.
  { apply (mail_run_refines (OpTransition first) db (Ok tt)); [done|]. simpl.
    unfold mbind, M_bind. by rewrite H1. }
  apply TransitionEmailOutbox_cases in H1 as [[? _]|(_ & m & Hm & Hf & Hrow & ->)]; [done|].
  set (m1 := email_outcome first (email_now db) m) in *.
  destruct (mail_runs_trace ops _ Hok1) as [_ Htrace].
  destruct (Htrace (ET_ID first) m1) as (m2 & Hm2 & Ht); [apply lookup_insert_eq|].
  apply past_attempt_trace with (n := ET_FromAttempt first) in Ht as Hp; [|done|].
  2: { destruct Huse; [right|left]; done. }
  apply TransitionEmailOutbox_cases in H2 as [(? & ? & _)|(_ & m2' & Hm2' & Hf2 & _)]; [done|].
  rewrite Hid, Hm2 in Hm2'. injection Hm2' as <-. exfalso.
  apply email_fence_true in Hf2 as [Hs2 Hn2]. destruct Hp as [Hp|Hp]; [by rewrite Hs2 in Hp|lia].
Qed.

(** *** Enqueueing and requeueing *)

(** A message is queued once per idempotency key: a successful enqueue leaves a row under its
    key, and from then on no enqueue with that key, whatever else it carries and whatever has
    happened to the row meanwhile, changes the table. *)
Theorem EnqueueEmail_once c random input db db1 :
  email_ok db → EnqueueEmail c random input db = (Ok tt, db1) →
  (∃ id m, email_outbox db1 !! id = Some m ∧ EO_IdempotencyKey m = EI_IdempotencyKey input) ∧
  ∀ ops c' random' input' r db',
    EI_IdempotencyKey input' = EI_IdempotencyKey input →
    EnqueueEmail c' random' input' (mail_runs ops db1) = (r, db') →
    db' = mail_runs ops db1.
Proof.
  intros Hok H1. pose proof (refines_enqueue _ _ _ _ _ _ Hok H1) as [Hok1 _ _].
  assert (∃ id m, email_outbox db1 !! id = Some m ∧
    EO_IdempotencyKey m = EI_IdempotencyKey input) as (id & m & Hm & Hkey).
  { apply EnqueueEmail_cases in H1 as [[-> Hdup]|(_ & cipher & sealed & _ & _ & Hrow)]; [by apply Hdup|].
    simpl in Hrow. destruct Hrow as (_ & _ & _ & ->).
    do 2 eexists. split; [apply lookup_insert_eq|done]. }
  split; [by exists id, m|]. intros ops c' random' input' r db' Hkey' H2.
  destruct (mail_runs_trace ops db1 Hok1) as [Hok2 Htrace].
  destruct (Htrace _ _ Hm) as (m2 & Hm2 & Ht).
  apply email_trace_facts in Ht as ((_ & Hk2 & _) & _); [|by eapply (email_rows_ok _ Hok1)].
  apply EnqueueEmail_cases in H2 as [[-> _]|(_ & cipher & sealed & _ & _ & Hrow)]; [done|].
  simpl in Hrow. destruct Hrow as (_ & _ & Hnew & _). exfalso. eapply Hnew; [exact Hm2|]. congruence.
Qed.

(** What a fresh row says: the payload opens to the one that was enqueued, and nothing has been
    tried yet. *)
Lemma EnqueueEmail_row aead random input db db' :
  AEAD_opens aead → payload_in_range (EI_Payload input) →
  EnqueueEmail (Some (Some aead)) random input db = (Ok tt, db') →
  db' = db ∨ ∃ m, email_outbox db' !! EO_ID m = Some m ∧
    EO_Status m = EmailOutboxStatusPending ∧ EO_AttemptCount m = 0 ∧
    EO_IdempotencyKey m = EI_IdempotencyKey input ∧ EO_MessageType m = EI_MessageType input ∧
    Decrypt (Some aead) (EO_PayloadNonce m) (EO_PayloadCiphertext m) = Ok (EI_Payload input).
Proof.
  intros Hopen Hrange H.
  apply EnqueueEmail_cases in H as [[-> _]|(_ & cipher & sealed & [= <-] & He & Hrow)]; [by left|].
  right. simpl in Hrow. destruct Hrow as (_ & _ & _ & ->).
  exists (email_row_of input sealed db). split; [apply lookup_insert_eq|].
  do 4 (split; [done|]). destruct random as [nonce|]; [|discriminate He].
  simpl. by eapply (Decrypt_of_Encrypt aead nonce).
Qed.

(** Requeueing never fails and does exactly what the operator is told: it takes a message back to
    its first attempt, due at once, if and only if it is a dead letter that has not expired; any
    other message, and any other row, is left alone. *)
Theorem RequeueEmailOutbox_exact id now db :
  email_ok db →
  RequeueEmailOutbox id now db =
    match email_outbox db !! id with
    | Some m =>
        if bool_decide (EO_Status m = EmailOutboxStatusDeadLettered) && email_unexpired now m
        then (Ok true, with_emails (<[id := email_requeue now (email_now db) m]> (email_outbox db)) db)
        else (Ok false, db)
    | None => (Ok false, db)
    end.
Proof.
  intros [_ Hrows _]. unfold RequeueEmailOutbox. run_simpl.
  destruct (email_outbox db !! id) as [m|] eqn:Hm; [|done]. apply Hrows in Hm as Hok.
  apply email_row_ok_payload in Hok as Hp. unfold email_requeueable.
  case_bool_decide as Hs; [|done]. rewrite Hs in Hp. destruct Hp as [Hp1 Hp2].
  rewrite !bool_decide_true by done. simpl. destruct (email_unexpired now m) eqn:He; [|done].
  destruct (email_checks_run (email_requeue now (email_now db) m) db) as [[-> _]|(e & _ & [])]; [done|].
  apply (email_requeue_ok now); [|done]. unfold email_requeueable.
  by rewrite Hs, He, !bool_decide_true by done.
Qed.

(** *** Claims *)

(** What the worker gets from a claim. *)
Lemma ClaimEmailOutboxReady_spec now leaseUntil n db ms db' :
  email_ok db → ClaimEmailOutboxReady now leaseUntil n db = (Ok ms, db') →
  NoDup (EO_ID <$> ms) ∧
  (∀ m, m ∈ ms → ∃ m0, email_outbox db !! EO_ID m = Some m0 ∧ email_claimable now m0 = true ∧
     m = email_lease leaseUntil (email_now db) m0 ∧ email_outbox db' !! EO_ID m = Some m) ∧
  (∀ k, k ∉ EO_ID <$> ms → email_outbox db' !! k = email_outbox db !! k) ∧
  ((length ms < Z.to_nat n)%nat → ∀ k m, email_outbox db !! k = Some m →
     email_claimable now m = true → k ∈ EO_ID <$> ms) ∧
  (length ms ≤ Z.to_nat n)%nat.
Proof.
  intros Hok. rewrite ClaimEmailOutboxReady_run. destruct (n <? 0); [done|]. intros [= <- <-].
  destruct (email_candidates_spec now n (email_outbox db) (email_keyed _ Hok)) as (Hnd & Hlen & Hin & Hall).
  set (leased := email_leased now leaseUntil n db).
  assert (order_by (λ a b, t_nanos (EO_CreatedAt a) <=? t_nanos (EO_CreatedAt b)) leased ≡ₚ leased)
    as Hperm by apply order_by_perm.
  assert (EO_ID <$> order_by (λ a b, t_nanos (EO_CreatedAt a) <=? t_nanos (EO_CreatedAt b)) leased ≡ₚ
    EO_ID <$> email_candidates now n (email_outbox db)) as Hids.
  { rewrite Hperm. unfold leased. by rewrite email_leased_ids. }
  split_and!.
  - by rewrite Hids.
  - intros m. rewrite Hperm. intros Hm. unfold leased, email_leased in Hm.
    apply list_elem_of_fmap in Hm as (m0 & -> & Hm0). destruct (Hin _ Hm0) as [Hrow Hc].
    exists m0. split_and!; [done..|]. simpl. rewrite lookup_update_emails, Hrow. simpl.
    rewrite bool_decide_true; [done|]. by apply list_elem_of_fmap_2.
  - intros k. rewrite Hids. intros Hk. simpl. rewrite lookup_update_emails.
    rewrite bool_decide_false by done. by destruct (email_outbox db !! k).
  - rewrite Hperm. unfold leased at 1, email_leased. rewrite length_fmap. intros Hlt k m Hm Hc.
    rewrite Hids. apply list_elem_of_fmap. exists m. split; [|by eapply Hall].
    symmetry. by apply (email_keyed _ Hok).
  - rewrite Hperm. unfold leased, email_leased. by rewrite length_fmap.
Qed.

(** A batch that holds every due message gets them all. *)
Lemma ClaimEmailOutboxReady_all now leaseUntil n db ms db' :
  email_ok db → ClaimEmailOutboxReady now leaseUntil n db = (Ok ms, db') →
  (length (filter (λ m, email_claimable now m = true) (rows_of (email_outbox db))) ≤ Z.to_nat n)%nat →
  ∀ k m, email_outbox db !! k = Some m → email_claimable now m = true → k ∈ EO_ID <$> ms.
Proof.
  intros Hok. rewrite ClaimEmailOutboxReady_run. destruct (n <? 0); [done|]. intros [= <- _] Hlen k m Hm Hc.
  rewrite (order_by_perm _ (email_leased now leaseUntil n db)), email_leased_ids.
  apply list_elem_of_fmap. exists m. split; [symmetry; by apply (email_keyed _ Hok)|].
  unfold email_candidates, limit. rewrite take_ge by by rewrite order_by_perm.
  apply elem_of_order_by, list_elem_of_filter. split; [done|]. apply elem_of_rows_of. eauto.
Qed.

(** ** The theorems at work on a small table *)

Definition sample_email_input : EmailOutboxInput :=
  mkEmailOutboxInput "key-1" "email_verification" 0 sample_payload None.

(** A verification mail, as a worker holds it or an operator finds it. *)
Definition sample_email (status : EmailOutboxStatus) (attempts : Z) : EmailOutbox :=
  mkEmailOutbox "mail-1" "key-1" "email_verification" 1 (Some "nonce")
    (Some (marshal_payload sample_payload)) status attempts sample_time (Some sample_time)
    None None None sample_time sample_time.
Definition sample_email_db (status : EmailOutboxStatus) (attempts : Z) : EmailDB :=
  mkEmailDB sample_time unary 0 {["mail-1" := sample_email status attempts]}.
Definition empty_email_db : EmailDB := mkEmailDB sample_time unary 0 ∅.

Lemma empty_email_ok : email_ok empty_email_db.
Proof. by split; [apply map_Forall_empty..|]. Qed.

Lemma sample_email_ok status attempts :
  valid_email_status status = true → email_final status = false → 0 ≤ attempts < 2 ^ 31 →
  email_ok (sample_email_db status attempts).
Proof.
  intros Hv Hf Ha. split; simpl.
  - by apply map_Forall_singleton.
  - apply map_Forall_singleton. split; [done|]. split; [done|]. split; [done|].
    split; [vm_compute; left|]. split; [done|]. unfold payload_matches_status. simpl. by rewrite Hf.
  - intros i j m m' [<- _]%lookup_singleton_Some [<- _]%lookup_singleton_Some _. done.
Qed.

(** The outcomes a worker records for the first attempt. *)
Definition sample_outcome (status : EmailOutboxStatus) (clear : bool) : EmailOutboxTransitionInput :=
  mkEmailTransition "mail-1" 0 status 1 sample_time None None clear.

Definition sample_mail_ops : list (Time * mail_op) :=
  [(sample_time, OpEnqueue (Some (Some sample_aead)) (Ok "nonce") sample_email_input);
   (sample_time, OpTransition (sample_outcome EmailOutboxStatusSent true));
   (sample_time, OpRequeue "mail-1" sample_time)].

Lemma mail_runs_refine_witness :
  ∃ m', email_outbox (mail_runs sample_mail_ops (sample_email_db EmailOutboxStatusSending 0))
          !! "mail-1" = Some m' ∧ same_email m' (sample_email EmailOutboxStatusSending 0) ∧
    phase_trace "mail-1" sample_mail_ops (MailLeased 0) (phase_of m').
Proof.
  refine (proj2 (mail_runs_refine sample_mail_ops (sample_email_db EmailOutboxStatusSending 0) _)
    "mail-1" _ _); [|vm_compute; reflexivity].
  apply sample_email_ok; [reflexivity|reflexivity|lia].
Defined.

(** Once sent, the row of the sample is final. *)
Lemma settled_email_is_final_witness :
  ∃ m', email_outbox (mail_runs sample_mail_ops (sample_email_db EmailOutboxStatusSending 0))
          !! "mail-1" = Some m' ∧ EO_Status m' = EmailOutboxStatusSent ∧ EO_PayloadNonce m' = None.
Proof.
  destruct (settled_email_is_final sample_mail_ops (sample_email_db EmailOutboxStatusSending 0)
    "mail-1" (sample_email EmailOutboxStatusSending 0)) as (m' & Hm' & _ & _ & Hp).
  - apply sample_email_ok; [reflexivity|reflexivity|lia].
  - vm_compute; reflexivity.
  - exists m'. split; [exact Hm'|].
    assert (EO_Status m' = EmailOutboxStatusSent) as Hs.
    { assert (EO_Status <$> email_outbox (mail_runs sample_mail_ops
        (sample_email_db EmailOutboxStatusSending 0)) !! "mail-1" = Some EmailOutboxStatusSent) as E
        by (vm_compute; reflexivity).
      rewrite Hm' in E. by injection E. }
    split; [exact Hs|]. rewrite Hs in Hp. exact (proj1 Hp).
Defined.

(** Two workers hold the first attempt; the first records a retry, the lease is given out again,
    and the second comes too late. *)
Lemma email_attempt_recorded_once_witness :
  ∃ db1 r db2,
    TransitionEmailOutbox (sample_outcome EmailOutboxStatusRetrying false)
      (sample_email_db EmailOutboxStatusSending 0) = (Ok true, db1) ∧
    TransitionEmailOutbox (sample_outcome EmailOutboxStatusSent true)
      (mail_runs [(sample_time, OpClaim sample_time sample_time 5)] db1) = (r, db2) ∧ r ≠ Ok true.
Proof.
  destruct (run_check (λ b _, b) (TransitionEmailOutbox (sample_outcome EmailOutboxStatusRetrying false))
    (sample_email_db EmailOutboxStatusSending 0)) as ([|] & db1 & E1 & Hb);
    [vm_compute; reflexivity| |discriminate Hb].
  destruct (TransitionEmailOutbox (sample_outcome EmailOutboxStatusSent true)
    (mail_runs [(sample_time, OpClaim sample_time sample_time 5)] db1)) as [r db2] eqn:E2.
  exists db1, r, db2. split; [exact E1|]. split; [exact E2|].
  refine (proj1 (email_attempt_recorded_once (sample_outcome EmailOutboxStatusRetrying false)
    (sample_outcome EmailOutboxStatusSent true) _ _ _ _ _ _ eq_refl eq_refl _ _ E1 E2)).
  - apply sample_email_ok; [reflexivity|reflexivity|lia].
  - left. reflexivity.
  - constructor; [exact I|constructor].
Defined.

(** The requeue is what takes a fence down: a worker that still holds the first attempt of a
    message that was dead-lettered, requeued and leased again records its outcome. *)
Example requeue_reopens_attempt :
  (TransitionEmailOutbox (sample_outcome EmailOutboxStatusSent true)
    (mail_runs [(sample_time, OpRequeue "mail-1" sample_time);
                (sample_time, OpClaim sample_time sample_time 5)]
       (sample_email_db EmailOutboxStatusDeadLettered 1))).1 = Ok true.
Proof. vm_compute. reflexivity. Qed.

Lemma EnqueueEmail_once_witness :
  ∃ db1, EnqueueEmail (Some (Some sample_aead)) (Ok "nonce") sample_email_input empty_email_db
      = (Ok tt, db1) ∧
    (EnqueueEmail (Some (Some sample_aead)) (Ok "other") sample_email_input
       (mail_runs sample_mail_ops db1)).2 = mail_runs sample_mail_ops db1.
Proof.
  destruct (run_succeeds (EnqueueEmail (Some (Some sample_aead)) (Ok "nonce") sample_email_input)
    empty_email_db) as ([] & db1 & E1); [vm_compute; reflexivity|].
  exists db1. split; [exact E1|].
  destruct (EnqueueEmail_once _ _ _ _ _ empty_email_ok E1) as [_ H].
  destruct (EnqueueEmail (Some (Some sample_aead)) (Ok "other") sample_email_input
    (mail_runs sample_mail_ops db1)) as [r db2] eqn:E2.
  exact (H _ _ _ _ _ _ eq_refl E2).
Defined.

Lemma RequeueEmailOutbox_exact_witness :
  (RequeueEmailOutbox "mail-1" sample_time (sample_email_db EmailOutboxStatusDeadLettered 3)).1 = Ok true.
Proof.
  rewrite (RequeueEmailOutbox_exact "mail-1" sample_time);
    [vm_compute; reflexivity|apply sample_email_ok; [reflexivity|reflexivity|lia]].
Defined.
