(* ===== verification/EmailWorker.v ===== *)
(** * worker/emailoutbox/service.go: delivering e-mail

    A round claims due messages and starts a goroutine for each; [deliver] is
    what a goroutine does, [delivery_step] the same cut at the three points
    where it meets the rest of the world (the context, the mail gateway, the
    store), so that a schedule of goroutine numbers is one interleaving of a
    round.  The results channel receives the results in the order in which the
    goroutines finish.  The theorems: the steps are the goroutine, the retry
    delay, and the error text of a row.  EmailDeliveries.v runs the worker on
    the store of EmailOutbox.v. *)

From S2P Require Export EmailOutbox.

Local Open Scope Z_scope.

(** ** Interfaces *)

Class EmailStore (S : Type) := {
  store_ClaimEmailOutboxReady : Time → Time → Z → M S (list EmailOutbox);
  store_TransitionEmailOutbox : EmailOutboxTransitionInput → M S bool;
}.
Class EmailSender (S : Type) := {
  Send : EmailMessage → M S unit;
}.
(** math/rand: a number in [0, n) for a positive n. *)
Class Random (S : Type) := {
  rand_Int63n : Z → S → Z * S;
}.

(** ** Options and defaults; durations are nanoseconds *)

Record EmailOptions := mkEmailOptions {
  EOpt_MaxAttempts : Z;
  EOpt_PollInterval : Z;
  EOpt_RetryBase : Z;
  EOpt_RetryMax : Z;
  EOpt_LeaseDuration : Z;
  EOpt_BatchSize : Z;
  EOpt_Jitter : option (Z → Z);
}.

(** [ES_jitter] is [None] for the random jitter [NewService] fills in. *)
Record EmailService := mkEmailService {
  ES_cipher : Cipher;
  ES_renderer : string → string → EmailPayload → res EmailMessage; (* outbox id, type *)
  ES_maxAttempts : Z;
  ES_pollInterval : Z;
  ES_retryBase : Z;
  ES_retryMax : Z;
  ES_leaseDuration : Z;
  ES_batchSize : Z;
  ES_jitter : option (Z → Z);
}.

Definition NewEmailService (cipher : Cipher)
    (renderer : string → string → EmailPayload → res EmailMessage) (options : EmailOptions)
    : EmailService :=
  let or_default v d := if v <=? 0 then d else v in
  mkEmailService cipher renderer (or_default (EOpt_MaxAttempts options) 8)
    (or_default (EOpt_PollInterval options) (5 * Second))
    (or_default (EOpt_RetryBase options) (30 * Second))
    (or_default (EOpt_RetryMax options) (30 * Minute))
    (or_default (EOpt_LeaseDuration options) (30 * Second))
    (or_default (EOpt_BatchSize options) 20) (EOpt_Jitter options).

Record EmailStats := mkEmailStats {
  EStats_Claimed : Z;
  EStats_Sent : Z;
  EStats_Retrying : Z;
  EStats_DeadLettered : Z;
  EStats_Expired : Z;
}.

(** ** Numbers *)

(** [float64(z)]: to 53 significant bits, ties to even. *)
Definition float64_of_int (z : Z) : Z :=
  let a := Z.abs z in
  let e := Z.log2 a - 52 in
  if e <=? 0 then z
  else
    let q := a / 2 ^ e in
    let r := a mod 2 ^ e in
    let up := (2 ^ (e - 1) <? r) || ((r =? 2 ^ (e - 1)) && Z.odd q) in
    Z.sgn z * ((if up then q + 1 else q) * 2 ^ e).

(** [int64(f)] of an integral float.  Out of range, infinity included, the
    result depends on the platform: [overflow], -2^63 on amd64. *)
Definition int64_of_float (overflow : Z) (z : Z) : Z := if int64_range z then z else overflow.

Definition sanitizeError (err : error) : string :=
  let message := (λ c, if byte_is 13 c || byte_is 10 c then " "%char else c)
                   <$> to_bytes (error_text err) in
  of_bytes (if (500 <? length message)%nat then take 500 message else message).

(** ** The service *)

Section email_service.
Context {S : Type} `{Environment S, EmailStore S, EmailSender S, Random S}.
Context (float_overflow : Z).
Context (s : EmailService).

Definition email_jitter (delay : Z) : M S Z := λ st,
  match ES_jitter s with
  | Some jitter => (Ok (jitter delay), st)
  | None =>
      if delay <=? 0 then (Ok 0, st)
      else let '(n, st') := rand_Int63n (Z.max (Z.quot delay 5) 1) st in (Ok n, st')
  end.

(** The delay before the jitter: the base doubled for every earlier attempt. *)
Definition base_delay (attempt : Z) : Z :=
  let factor := 2 ^ Z.max (attempt - 1) 0 in
  let delay := int64_of_float float_overflow (float64_of_int (ES_retryBase s) * factor) in
  if ES_retryMax s <? delay then ES_retryMax s else delay.

Definition email_retryDelay (attempt : Z) : M S Z :=
  let delay := base_delay attempt in
  jitter ← email_jitter delay;
  mret (wrap64 (delay + jitter)).

(** The input [transition] builds. *)
Definition transition_input (item : EmailOutbox) (status : EmailOutboxStatus) (attempt : Z)
    (availableAt : Time) (sentAt : option Time) (clear : bool) (lastError : option string)
    : EmailOutboxTransitionInput :=
  mkEmailTransition (EO_ID item) (EO_AttemptCount item) status attempt availableAt lastError
    sentAt clear.

(** [None] is the empty status of an outcome that was not applied. *)
Definition email_transition (status : EmailOutboxStatus) (input : EmailOutboxTransitionInput)
    : M S (option EmailOutboxStatus) :=
  applied ← store_TransitionEmailOutbox input;
  mret (if applied : bool then Some status else None).

Definition dead_letter_input (item : EmailOutbox) (attempt : Z) (now : Time) (cause : error)
    : EmailOutboxTransitionInput :=
  transition_input item EmailOutboxStatusDeadLettered attempt now None false
    (Some (sanitizeError cause)).
Definition expired_input (item : EmailOutbox) (now : Time) : EmailOutboxTransitionInput :=
  transition_input item EmailOutboxStatusExpired (EO_AttemptCount item) now None true None.
Definition sent_input (item : EmailOutbox) (attempt : Z) (now : Time) : EmailOutboxTransitionInput :=
  transition_input item EmailOutboxStatusSent attempt now (Some now) true None.
Definition retry_input (item : EmailOutbox) (attempt : Z) (now : Time) (delay : Z) (err : error)
    : EmailOutboxTransitionInput :=
  transition_input item EmailOutboxStatusRetrying attempt (Add now delay) None false
    (Some (sanitizeError err)).

(** [item.ExpiresAt != nil && !item.ExpiresAt.After(now)] *)
Definition email_expired (item : EmailOutbox) (now : Time) : bool :=
  match EO_ExpiresAt item with Some t => negb (After t now) | None => false end.

Definition deliver (item : EmailOutbox) (now : Time) : M S (option EmailOutboxStatus) :=
  if email_expired item now then
    email_transition EmailOutboxStatusExpired (expired_input item now)
  else
    let attempt_ := EO_AttemptCount item + 1 in
    match Decrypt (ES_cipher s) (EO_PayloadNonce item) (EO_PayloadCiphertext item) with
    | Err err =>
        email_transition EmailOutboxStatusDeadLettered (dead_letter_input item attempt_ now err)
    | Ok payload =>
        match ES_renderer s (EO_ID item) (EO_MessageType item) payload with
        | Err err =>
            email_transition EmailOutboxStatusDeadLettered (dead_letter_input item attempt_ now err)
        | Ok message =>
            sent ← attempt (Send message);
            match sent with
            | Ok _ => email_transition EmailOutboxStatusSent (sent_input item attempt_ now)
            | Err err =>
                if IsTransient err && (attempt_ <? ES_maxAttempts s) then
                  delay ← email_retryDelay attempt_;
                  email_transition EmailOutboxStatusRetrying
                    (retry_input item attempt_ now delay err)
                else
                  email_transition EmailOutboxStatusDeadLettered
                    (dead_letter_input item attempt_ now err)
            end
        end
    end.

(** The body of the goroutine. *)
Definition delivery_goroutine (item : EmailOutbox) (now : Time)
    : M S (res (option EmailOutboxStatus)) :=
  live ← attempt ctx_Err;
  match live with
  | Err err => mret (Err err)
  | Ok _ => attempt (deliver item now)
  end.

(** *** The same, one meeting with the world at a time *)

Inductive delivery :=
  | D_start (item : EmailOutbox)
  | D_send (item : EmailOutbox) (message : EmailMessage)
  | D_record (status : EmailOutboxStatus) (input : EmailOutboxTransitionInput)
  | D_done (result : res (option EmailOutboxStatus)).

(** What [deliver] does before it calls [Send] or the store. *)
Definition prepare (item : EmailOutbox) (now : Time) : delivery :=
  if email_expired item now then D_record EmailOutboxStatusExpired (expired_input item now)
  else
    let attempt_ := EO_AttemptCount item + 1 in
    let dead err := D_record EmailOutboxStatusDeadLettered (dead_letter_input item attempt_ now err) in
    match Decrypt (ES_cipher s) (EO_PayloadNonce item) (EO_PayloadCiphertext item) with
    | Err err => dead err
    | Ok payload =>
        match ES_renderer s (EO_ID item) (EO_MessageType item) payload with
        | Err err => dead err
        | Ok message => D_send item message
        end
    end.

Definition delivery_step (now : Time) (d : delivery) : M S delivery :=
  match d with
  | D_start item =>
      live ← attempt ctx_Err;
      mret (match live with Err err => D_done (Err err) | Ok _ => prepare item now end)
  | D_send item message =>
      let attempt_ := EO_AttemptCount item + 1 in
      sent ← attempt (Send message);
      match sent with
      | Ok _ => mret (D_record EmailOutboxStatusSent (sent_input item attempt_ now))
      | Err err =>
          if IsTransient err && (attempt_ <? ES_maxAttempts s) then
            delay ← email_retryDelay attempt_;
            mret (D_record EmailOutboxStatusRetrying (retry_input item attempt_ now delay err))
          else
            mret (D_record EmailOutboxStatusDeadLettered (dead_letter_input item attempt_ now err))
      end
  | D_record status input =>
      result ← attempt (email_transition status input);
      mret (D_done result)
  | D_done _ => mret d
  end.

(** *** A round *)

(** The goroutine whose number comes next in the schedule takes a step; one that finishes
    sends its result. *)
Fixpoint run_deliveries (now : Time) (schedule : list nat) (ds : list delivery)
    (results : list (res (option EmailOutboxStatus)))
    : M S (list (res (option EmailOutboxStatus))) :=
  match schedule with
  | [] => mret results
  | i :: schedule =>
      match ds !! i with
      | None | Some (D_done _) => run_deliveries now schedule ds results
      | Some d =>
          d' ← delivery_step now d;
          run_deliveries now schedule (<[i := d']> ds)
            (match d' with D_done result => results ++ [result] | _ => results end)
      end
  end.

Definition count_email (status : EmailOutboxStatus) (stats : EmailStats) : EmailStats :=
  let add a b c d := mkEmailStats (EStats_Claimed stats) (EStats_Sent stats + a)
    (EStats_Retrying stats + b) (EStats_DeadLettered stats + c) (EStats_Expired stats + d) in
  match status with
  | EmailOutboxStatusSent => add 1 0 0 0
  | EmailOutboxStatusRetrying => add 0 1 0 0
  | EmailOutboxStatusDeadLettered => add 0 0 1 0
  | EmailOutboxStatusExpired => add 0 0 0 1
  | _ => stats
  end.

(** The loop that receives the results. *)
Fixpoint receive_results (results : list (res (option EmailOutboxStatus))) (stats : EmailStats)
    (firstErr : option error) : EmailStats * option error :=
  match results with
  | [] => (stats, firstErr)
  | Err err :: results =>
      receive_results results stats (match firstErr with None => Some err | _ => firstErr end)
  | Ok None :: results => receive_results results stats firstErr
  | Ok (Some status) :: results => receive_results results (count_email status stats) firstErr
  end.

(** [None]: at the end of the schedule the round still waits for a result. *)
Definition email_RunOnce (schedule : list nat) : M S (option (EmailStats * option error)) :=
  now ← time_Now;
  let now := UTC now in
  claimed ← attempt
    (store_ClaimEmailOutboxReady now (Add now (ES_leaseDuration s)) (ES_batchSize s));
  match claimed with
  | Err err => mret (Some (mkEmailStats 0 0 0 0 0, Some err))
  | Ok messages =>
      results ← run_deliveries now schedule (D_start <$> messages) [];
      mret (if (length results =? length messages)%nat
            then Some (receive_results results
                         (mkEmailStats (Z.of_nat (length messages)) 0 0 0 0) None)
            else None)
  end.

(** One turn of [Run]: [None] while the round waits, else what [Run] returns, if it does. *)
Definition email_Run_round (schedule : list nat) : M S (option (option (res unit))) :=
  round ← email_RunOnce schedule;
  match round with
  | None => mret None
  | Some (_, Some err) => mret (Some (Some (if errors_Is err ErrCanceled then Ok tt else Err err)))
  | Some (_, None) =>
      waited ← attempt (sleepContext (ES_pollInterval s));
      mret (Some (match waited with Ok _ => None | Err _ => Some (Ok tt) end))
  end.

(** Rounds under one schedule each; [None] while [Run] has not returned. *)
Fixpoint email_Run (schedules : list (list nat)) : M S (option (res unit)) :=
  match schedules with
  | [] => mret None
  | schedule :: schedules =>
      round ← email_Run_round schedule;
      match round with
      | None => mret None
      | Some (Some returned) => mret (Some returned)
      | Some None => email_Run schedules
      end
  end.
End email_service.

(** ** A goroutine is its steps *)

Section email_steps.
Context {S : Type} `{Environment S, EmailStore S, EmailSender S, Random S}.
Context (float_overflow : Z) (s : EmailService).

Lemma email_retryDelay_total n st :
  ∃ d st', email_retryDelay float_overflow s n st = (Ok d, st').
Proof.
  unfold email_retryDelay, email_jitter, mbind, M_bind, mret, M_ret.
  destruct (ES_jitter s); [by do 2 eexists|]. destruct (_ <=? 0); [by do 2 eexists|].
  destruct (rand_Int63n _ st). by do 2 eexists.
Qed.

(** Cutting a delivery at its meetings with the world loses nothing: a goroutine that takes its
    three steps without interruption does exactly what the body of the goroutine does, with the
    same result and the same effects, whatever the context, the gateway and the store answer. *)
Theorem delivery_steps_are_goroutine item now st :
  (d1 ← delivery_step float_overflow s now (D_start item);
   d2 ← delivery_step float_overflow s now d1;
   delivery_step float_overflow s now d2) st =
  (result ← delivery_goroutine float_overflow s item now; mret (D_done result)) st.
Proof.
  unfold delivery_goroutine, delivery_step, attempt, email_transition, mbind, M_bind, mret, M_ret.
  destruct (ctx_Err st) as [[[]|e] s1]; simpl; [|done].
  unfold prepare, deliver, email_transition, mbind, M_bind, mret, M_ret, attempt.
  destruct (email_expired item now); simpl; [|
    destruct (Decrypt _ _ _) as [payload|err]; simpl;
    [destruct (ES_renderer s _ _ payload) as [message|err]; simpl|]].
  2: { destruct (Send message s1) as [[[]|err] s2]; simpl; [|
         destruct (IsTransient err && _); simpl;
         [destruct (email_retryDelay_total (EO_AttemptCount item + 1) s2) as (d & s3 & ->); simpl|]].
       all: by destruct (store_TransitionEmailOutbox _ _) as [[?|?] ?]. }
  all: by destruct (store_TransitionEmailOutbox _ _) as [[?|?] ?].
Qed.
End email_steps.

(** ** Retry delays *)

Lemma float64_exact z : 0 ≤ z < 2 ^ 53 → float64_of_int z = z.
Proof.
  intros Hz. unfold float64_of_int. rewrite (proj2 (Z.leb_le _ _)); [done|].
  rewrite Z.abs_eq by lia. destruct (Z.eq_dec z 0) as [->|Hn]; [done|].
  assert (Z.log2 z < 53); [|lia]. apply Z.log2_lt_pow2; lia.
Qed.

(** The options of a service are positive whatever it is created with. *)
Lemma NewEmailService_positive cipher renderer options :
  let s := NewEmailService cipher renderer options in
  0 < ES_maxAttempts s ∧ 0 < ES_pollInterval s ∧ 0 < ES_retryBase s ∧ 0 < ES_retryMax s ∧
  0 < ES_leaseDuration s ∧ 0 < ES_batchSize s.
Proof.
  unfold NewEmailService, Minute, Second. simpl.
  split_and!; match goal with |- context [?a <=? 0] => destruct (Z.leb_spec a 0) end; lia.
Qed.

Section email_delays.
Context {S : Type} `{Random S}.
Context (Hrandom : ∀ n (st : S), 0 < n → 0 ≤ (rand_Int63n n st).1 < n).
Context (float_overflow : Z) (s : EmailService).

Lemma doubled_positive n : 0 < ES_retryBase s → 1 ≤ n → 0 < ES_retryBase s * 2 ^ (n - 1).
Proof. intros. apply Z.mul_pos_pos; [done|]. apply Z.pow_pos_nonneg; lia. Qed.

Lemma base_delay_exact n :
  0 < ES_retryBase s < 2 ^ 53 → 1 ≤ n → ES_retryBase s * 2 ^ (n - 1) < 2 ^ 63 →
  base_delay float_overflow s n = Z.min (ES_retryBase s * 2 ^ (n - 1)) (ES_retryMax s).
Proof.
  intros Hb Hn Hlt. unfold base_delay. rewrite float64_exact, Z.max_l by lia.
  pose proof (doubled_positive n ltac:(lia) ltac:(lia)).
  assert (int64_range (ES_retryBase s * 2 ^ (n - 1)) = true) as Hrange.
  { apply andb_true_iff. split; [apply Z.leb_le|apply Z.ltb_lt]; lia. }
  unfold int64_of_float. rewrite Hrange. destruct (Z.ltb_spec (ES_retryMax s) (ES_retryBase s * 2 ^ (n - 1))); lia.
Qed.

(** A retry waits for the configured time: as long as doubling the base has not left the range of
    an [int64], the delay of attempt n is the base times 2^(n-1), capped at the maximum, plus
    less than a fifth of that (and at least nothing) when the jitter is the random one; it is
    positive and the sum does not overflow. *)
Theorem email_retryDelay_bounds n (st : S) d st' :
  ES_jitter s = None → 0 < ES_retryBase s < 2 ^ 53 → 0 < ES_retryMax s < 2 ^ 62 → 1 ≤ n →
  ES_retryBase s * 2 ^ (n - 1) < 2 ^ 63 →
  email_retryDelay float_overflow s n st = (Ok d, st') →
  let delay := Z.min (ES_retryBase s * 2 ^ (n - 1)) (ES_retryMax s) in
  0 < delay ≤ d ∧ d ≤ delay + delay / 5.
Proof.
  intros Hj Hb Hm Hn Hlt. unfold email_retryDelay. rewrite base_delay_exact by done.
  set (delay := Z.min _ _). assert (0 < delay < 2 ^ 62) as Hd.
  { pose proof (doubled_positive n ltac:(lia) ltac:(lia)). subst delay. lia. }
  unfold email_jitter. rewrite Hj. unfold mbind, M_bind, mret, M_ret.
  rewrite (proj2 (Z.leb_gt _ _)) by lia. rewrite Z.quot_div_nonneg by lia.
  pose proof (Hrandom (Z.max (delay / 5) 1) st ltac:(lia)) as Hr.
  destruct (rand_Int63n _ st) as [j st1]. simpl in Hr. intros [= <- <-]. simpl.
  assert (0 ≤ delay / 5 ≤ delay) by (split; [apply Z.div_pos|apply Z.div_le_upper_bound]; lia).
  assert (wrap64 (delay + j) = delay + j) as ->; [|lia].
  unfold wrap64. rewrite Z.mod_small; lia.
Qed.
End email_delays.

(** Past that range the delay is whatever the conversion gives.  With the default base of 30
    seconds it is the thirtieth attempt; on amd64 the next attempt is then due at once instead of
    after the maximum. *)
Example retry_delay_overflows cipher renderer options :
  EOpt_RetryBase options = 0 → EOpt_RetryMax options = 0 →
  base_delay (- 2 ^ 63) (NewEmailService cipher renderer options) 29 = 30 * Minute ∧
  base_delay (- 2 ^ 63) (NewEmailService cipher renderer options) 30 = - 2 ^ 63.
Proof.
  intros Hb Hm. unfold base_delay, NewEmailService. simpl. rewrite Hb, Hm. split; reflexivity.
Qed.

(** ** Error texts *)

Lemma length_of_bytes l : String.length (String.string_of_list_ascii l) = length l.
Proof. induction l as [|c l IH]; simpl; [done|by rewrite IH]. Qed.

(** The error text a row keeps is one line of at most 500 bytes. *)
Theorem sanitizeError_bounded err :
  str_len (sanitizeError err) ≤ 500 ∧
  Forall (λ c, byte_is 13 c || byte_is 10 c = false) (to_bytes (sanitizeError err)).
Proof.
  unfold sanitizeError. set (message := _ <$> to_bytes (error_text err)).
  assert (Forall (λ c, byte_is 13 c || byte_is 10 c = false) message) as Hline.
  { apply Forall_fmap, Forall_forall. intros c _. simpl.
    destruct (byte_is 13 c || byte_is 10 c) eqn:E; [reflexivity|done]. }
  unfold str_len, of_bytes, to_bytes.
  rewrite length_of_bytes, String.list_ascii_of_string_of_list_ascii. destruct (Nat.ltb_spec 500 (length message)).
  - rewrite length_take. split; [lia|]. by apply Forall_take.
  - split; [lia|done].
Qed.

(** The cut is made at a byte: a text the server accepts can become one it refuses. *)
Example sanitizeError_splits_rune :
  let text := of_bytes (replicate 499 "e"%char ++ [ascii_of_N 195; ascii_of_N 169]) in
  pg_text text = true ∧ pg_text (sanitizeError (ErrText text)) = false.
Proof. vm_compute. by split. Qed.
