(* ===== verification/EmailDeliveries.v ===== *)
(** * The e-mail worker on its store

    [MailWorld] has the table of EmailOutbox.v, an oracle for the clock, the
    context, the gateway and random numbers, and the messages the gateway has
    accepted.  The theorems: what a round does to the table under any
    interleaving of its goroutines, what any number of workers and operators
    can do together, and that the outbox drains. *)

From S2P Require Export EmailWorker.

Local Open Scope Z_scope.

(** What one meeting with the outside finds. *)
Record MailAnswer := mkMailAnswer {
  ma_time : Time;         (* time.Now() *)
  ma_now : Time;          (* now() of a database transaction *)
  ma_context : res unit;  (* ctx.Err() *)
  ma_reply : res unit;    (* the gateway's answer *)
  ma_random : Z;
}.

Record MailWorld := mkMailWorld {
  mw_db : EmailDB;
  mw_oracle : nat → MailAnswer;
  mw_tick : nat;
  mw_accepted : list EmailMessage;
}.

Definition mw_answer (w : MailWorld) : MailAnswer := mw_oracle w (mw_tick w).
Definition mw_step (w : MailWorld) : MailWorld :=
  mkMailWorld (mw_db w) (mw_oracle w) (S (mw_tick w)) (mw_accepted w).
Definition mw_with_db (db : EmailDB) (w : MailWorld) : MailWorld :=
  mkMailWorld db (mw_oracle w) (mw_tick w) (mw_accepted w).
Definition mw_rows (w : MailWorld) : gmap string EmailOutbox := email_outbox (mw_db w).

(** A call of a store method, at its own time. *)
Definition in_mail {A} (m : Mail A) : M MailWorld A := λ w,
  let '(r, db) := m (at_email_now (ma_now (mw_answer w)) (mw_db w)) in
  (r, mw_with_db db (mw_step w)).

#[export] Instance MailWorld_environment : Environment MailWorld := {
  ctx_Err := λ w, (ma_context (mw_answer w), mw_step w);
  time_Now := λ w, (Ok (ma_time (mw_answer w)), mw_step w);
  sleepContext := λ _ w, (ma_context (mw_answer w), mw_step w);
}.
#[export] Instance MailWorld_store : EmailStore MailWorld := {
  store_ClaimEmailOutboxReady := λ now until n, in_mail (ClaimEmailOutboxReady now until n);
  store_TransitionEmailOutbox := λ input, in_mail (TransitionEmailOutbox input);
}.
#[export] Instance MailWorld_sender : EmailSender MailWorld := {
  Send := λ message w,
    match ma_reply (mw_answer w) with
    | Ok _ => (Ok tt, mkMailWorld (mw_db w) (mw_oracle w) (S (mw_tick w)) (mw_accepted w ++ [message]))
    | Err err => (Err err, mw_step w)
    end;
}.
#[export] Instance MailWorld_random : Random MailWorld := {
  rand_Int63n := λ n w, (ma_random (mw_answer w) mod n, mw_step w);
}.

Lemma MailWorld_random_range n (w : MailWorld) : 0 < n → 0 ≤ (rand_Int63n n w).1 < n.
Proof. simpl. apply Z.mod_pos_bound. Qed.

Lemma in_mail_run {A} (m : Mail A) w r w' :
  in_mail m w = (r, w') →
  ∃ db', m (at_email_now (ma_now (mw_answer w)) (mw_db w)) = (r, db') ∧
    w' = mw_with_db db' (mw_step w).
Proof. unfold in_mail. destruct (m _) as [r' db']. intros [= <- <-]. eauto. Qed.

Lemma at_now_ok_iff t db : email_ok (at_email_now t db) ↔ email_ok db.
Proof. split; intros [? ? ?]; by split. Qed.

(** Neither the table nor the accepted messages change. *)
Definition mail_same (w w' : MailWorld) : Prop :=
  mw_db w' = mw_db w ∧ mw_accepted w' = mw_accepted w.

Section email_rounds.
Context (float_overflow : Z) (s : EmailService).

Abbreviation step := (delivery_step (S:=MailWorld) float_overflow s).

Lemma email_retryDelay_same n w r w' :
  email_retryDelay float_overflow s n w = (r, w') → mail_same w w'.
Proof.
  unfold email_retryDelay, email_jitter, mbind, M_bind, mret, M_ret.
  destruct (ES_jitter s); [by intros [= _ <-]|]. destruct (_ <=? 0); by intros [= _ <-].
Qed.

(** ** What a delivery may record *)

(** The message of a row. *)
Definition email_message (item : EmailOutbox) : res EmailMessage :=
  payload ← Decrypt (ES_cipher s) (EO_PayloadNonce item) (EO_PayloadCiphertext item);
  ES_renderer s (EO_ID item) (EO_MessageType item) payload.

Definition next_attempt (item : EmailOutbox) : Z := EO_AttemptCount item + 1.

(** The outcomes of an attempt, given the messages accepted so far. *)
Inductive possible_outcome (now : Time) (accepted : list EmailMessage) (item : EmailOutbox)
    : EmailOutboxStatus → EmailOutboxTransitionInput → Prop :=
  | outcome_expired :
      email_expired item now = true →
      possible_outcome now accepted item EmailOutboxStatusExpired (expired_input item now)
  | outcome_unsendable err cause :
      email_expired item now = false → email_message item = Err err →
      possible_outcome now accepted item EmailOutboxStatusDeadLettered
        (dead_letter_input item (next_attempt item) now cause)
  | outcome_sent message :
      email_expired item now = false → email_message item = Ok message → message ∈ accepted →
      possible_outcome now accepted item EmailOutboxStatusSent (sent_input item (next_attempt item) now)
  | outcome_retry message err delay :
      email_expired item now = false → email_message item = Ok message →
      IsTransient err = true → next_attempt item < ES_maxAttempts s →
      possible_outcome now accepted item EmailOutboxStatusRetrying
        (retry_input item (next_attempt item) now delay err)
  | outcome_given_up message err :
      email_expired item now = false → email_message item = Ok message →
      (IsTransient err = true → ES_maxAttempts s ≤ next_attempt item) →
      possible_outcome now accepted item EmailOutboxStatusDeadLettered
        (dead_letter_input item (next_attempt item) now err).

Lemma possible_outcome_mono now accepted accepted' item status input :
  accepted ⊆ accepted' → possible_outcome now accepted item status input →
  possible_outcome now accepted' item status input.
Proof.
  intros Hsub []; [eapply outcome_expired|eapply outcome_unsendable|eapply outcome_sent
    |eapply outcome_retry|eapply outcome_given_up]; try done. by apply Hsub.
Qed.

(** The parts every outcome shares. *)
Lemma possible_outcome_input now accepted item status input :
  possible_outcome now accepted item status input →
  ET_ID input = EO_ID item ∧ ET_FromAttempt input = EO_AttemptCount item ∧
  ET_Status input = status ∧ ET_ClearPayload input = email_final status.
Proof. by intros []. Qed.

(** Where a goroutine stands with its item. *)
Definition in_flight (now : Time) (accepted : list EmailMessage) (item : EmailOutbox)
    (d : delivery) : Prop :=
  match d with
  | D_start i => i = item
  | D_send i message => i = item ∧ email_expired item now = false ∧ email_message item = Ok message
  | D_record status input => possible_outcome now accepted item status input
  | D_done _ => True
  end.

Lemma in_flight_mono now accepted accepted' item d :
  accepted ⊆ accepted' → in_flight now accepted item d → in_flight now accepted' item d.
Proof. intros Hsub. destruct d; simpl; eauto using possible_outcome_mono. Qed.

Lemma prepare_in_flight now accepted item : in_flight now accepted item (prepare s item now).
Proof.
  unfold prepare. destruct (email_expired item now) eqn:He; [by constructor|].
  destruct (Decrypt _ _ _) as [payload|err] eqn:Hd; simpl.
  2: { eapply (outcome_unsendable _ _ _ err); [done|]. unfold email_message. by rewrite Hd. }
  destruct (ES_renderer s _ _ payload) as [message|err] eqn:Hr; simpl.
  - split; [done|]. split; [done|]. unfold email_message. by rewrite Hd.
  - eapply (outcome_unsendable _ _ _ err); [done|]. unfold email_message. rewrite Hd. exact Hr.
Qed.

(** ** One step of a goroutine *)

(** The table after a step: as it was, or with the outcome a record step wrote. *)
Inductive step_effect (w : MailWorld) (d d' : delivery) (w' : MailWorld) : Prop :=
  | effect_none :
      mw_db w' = mw_db w ∨ (∃ t, mw_db w' = at_email_now t (mw_db w)) →
      (∀ o, d' = D_done (Ok o) → d = d') →
      step_effect w d d' w'
  | effect_refused status input t :
      d = D_record status input → d' = D_done (Ok None) →
      (∀ m, mw_rows w !! ET_ID input = Some m → email_fence input m = false) →
      mw_db w' = at_email_now t (mw_db w) →
      step_effect w d d' w'
  | effect_recorded status input m t :
      d = D_record status input → d' = D_done (Ok (Some status)) →
      mw_rows w !! ET_ID input = Some m → email_fence input m = true →
      email_row_ok (email_outcome input t m) →
      mw_db w' = with_emails (<[ET_ID input := email_outcome input t m]> (mw_rows w))
                   (at_email_now t (mw_db w)) →
      step_effect w d d' w'.

Lemma delivery_step_spec now item d w r w' :
  in_flight now (mw_accepted w) item d → step now d w = (r, w') →
  ∃ d', r = Ok d' ∧ in_flight now (mw_accepted w') item d' ∧ mw_accepted w ⊆ mw_accepted w' ∧
    step_effect w d d' w'.
Proof.
  intros Hf Hr. destruct d as [i|i message|status input|result]; simpl in Hf.
  - subst i. unfold delivery_step, attempt, mbind, M_bind, mret, M_ret in Hr. simpl in Hr.
    injection Hr as <- <-. eexists. split; [done|].
    destruct (ma_context (mw_answer w)) as [[]|e]; simpl;
      (split; [by try apply prepare_in_flight|split; [done|apply effect_none; [by left|]]]).
    + intros o. unfold prepare. destruct (email_expired _ _); [done|].
      destruct (Decrypt _ _ _); [|done]. by destruct (ES_renderer _ _ _ _).
    + done.
  - destruct Hf as (-> & He & Hm). unfold delivery_step, attempt, mbind, M_bind in Hr. simpl in Hr.
    destruct (ma_reply (mw_answer w)) as [[]|err] eqn:Ha; simpl in Hr.
    + unfold mret, M_ret in Hr. injection Hr as <- <-. eexists. split; [done|]. simpl. split_and!.
      * eapply outcome_sent; [done..|]. set_solver.
      * set_solver.
      * apply effect_none; [by left|done].
    + destruct (IsTransient err && _) eqn:Ht.
      * destruct (email_retryDelay float_overflow s _ (mw_step w)) as [[delay|e] w1] eqn:E.
        2: { destruct (email_retryDelay_total float_overflow s (EO_AttemptCount item + 1) (mw_step w))
               as (? & ? & E'). rewrite E in E'. done. }
        apply email_retryDelay_same in E as [Hdb Hacc]. simpl in Hdb, Hacc.
        unfold mret, M_ret in Hr. injection Hr as <- <-. eexists. split; [done|]. rewrite Hacc.
        apply andb_true_iff in Ht as [Ht Hlt%Z.ltb_lt]. split_and!; [by eapply outcome_retry|done|].
        apply effect_none; [by left|done].
      * unfold mret, M_ret in Hr. injection Hr as <- <-. eexists. split; [done|]. simpl.
        split_and!; [|done|apply effect_none; [by left|done]]. eapply outcome_given_up; [done..|].
        intros Hi. rewrite Hi in Ht. simpl in Ht. by apply Z.ltb_ge in Ht.
  - unfold delivery_step, attempt, email_transition, mbind, M_bind, mret, M_ret in Hr. simpl in Hr.
    destruct (in_mail (TransitionEmailOutbox input) w) as [r1 w1] eqn:E.
    apply in_mail_run in E as (db' & E & ->).
    apply TransitionEmailOutbox_cases in E as [(Hno & -> & Hfence)|(-> & m & Hm & Hfe & Hok & ->)].
    + destruct r1 as [[|]|e]; [done|..]; injection Hr as <- <-; eexists;
        (split; [done|split; [done|split; [done|]]]).
      * eapply effect_refused; [done|done|by apply Hfence|done].
      * apply effect_none; [eauto|done].
    + injection Hr as <- <-. eexists. split; [done|]. split; [done|]. split; [done|]. by eapply effect_recorded.
  - unfold delivery_step, mret, M_ret in Hr. injection Hr as <- <-. eexists. split; [done|].
    split; [done|]. split; [done|]. apply effect_none; [by left|done].
Qed.

(** ** A round *)

(** What the table says about an item while its goroutine stands at [d]: its claimed row, until
    the outcome is recorded. *)
Definition stands (now : Time) (w : MailWorld) (item : EmailOutbox) (d : delivery) : Prop :=
  match d with
  | D_done (Ok o) => ∃ status input t, o = Some status ∧
      possible_outcome now (mw_accepted w) item status input ∧
      mw_rows w !! EO_ID item = Some (email_outcome input t item)
  | _ => mw_rows w !! EO_ID item = Some item
  end.

Record round_stands (now : Time) (rows0 : gmap string EmailOutbox) (items : list EmailOutbox)
    (ds : list delivery) (w : MailWorld) : Prop := {
  rs_length : length ds = length items;
  rs_each i item d : items !! i = Some item → ds !! i = Some d →
    in_flight now (mw_accepted w) item d ∧ stands now w item d;
  rs_others k : k ∉ EO_ID <$> items → mw_rows w !! k = rows0 !! k;
}.

Lemma stands_other now w w' item d :
  mw_accepted w ⊆ mw_accepted w' → mw_rows w' !! EO_ID item = mw_rows w !! EO_ID item →
  stands now w item d → stands now w' item d.
Proof.
  intros Hsub Hrow. unfold stands. rewrite Hrow. destruct d as [| | |[o|e]]; try done.
  intros (status & input & t & -> & Ho & Hr). exists status, input, t.
  split; [done|]. split; [by eapply possible_outcome_mono|done].
Qed.

(** The row of an item between its claim and its outcome. *)
Definition leased_item (item : EmailOutbox) : Prop := EO_Status item = EmailOutboxStatusSending.

(** What a step does to the rows: nothing, or its own outcome. *)
Lemma step_effect_rows now w item d d' w' :
  in_flight now (mw_accepted w) item d → leased_item item → mw_accepted w ⊆ mw_accepted w' →
  stands now w item d → (∀ r, d ≠ D_done r) → step_effect w d d' w' →
  stands now w' item d' ∧ ∀ k, k ≠ EO_ID item → mw_rows w' !! k = mw_rows w !! k.
Proof.
  intros Hf Hleased Hsub Hst Hopen [Hdb Hno|status input t -> -> Hfence Hdb
    |status input m t -> -> Hm Hfence Hok Hdb].
  - assert (mw_rows w' = mw_rows w) as Hrows.
    { unfold mw_rows. destruct Hdb as [->|[t ->]]; done. }
    split; [|by intros k _; rewrite Hrows].
    assert (mw_rows w !! EO_ID item = Some item) as Hrow.
    { destruct d as [| | |r]; try done. by destruct (Hopen r). }
    unfold stands. destruct d' as [| | |[o|e]]; rewrite ?Hrows; try done.
    by destruct (Hopen (Ok o)); apply (Hno o).
  - exfalso. simpl in Hf, Hst. apply possible_outcome_input in Hf as (Hid & Hn & _).
    rewrite Hid in Hfence. specialize (Hfence _ Hst). apply not_true_iff_false in Hfence. apply Hfence.
    apply email_fence_true. by rewrite Hn.
  - simpl in Hf, Hst. pose proof (possible_outcome_input _ _ _ _ _ Hf) as (Hid & _).
    rewrite Hid in *. rewrite Hst in Hm. injection Hm as <-.
    assert (mw_rows w' = <[EO_ID item := email_outcome input t item]> (mw_rows w)) as Hrows.
    { unfold mw_rows at 1. by rewrite Hdb. }
    rewrite Hrows. split.
    + exists status, input, t. split; [done|]. split; [by eapply possible_outcome_mono|].
      rewrite Hrows. apply lookup_insert_eq.
    + intros k Hk. by apply lookup_insert_ne.
Qed.

Lemma round_step now rows0 items ds w i item d d' w' :
  NoDup (EO_ID <$> items) → Forall leased_item items → round_stands now rows0 items ds w →
  items !! i = Some item → ds !! i = Some d → (∀ r, d ≠ D_done r) →
  step now d w = (Ok d', w') →
  round_stands now rows0 items (<[i := d']> ds) w'.
Proof.
  intros Hnd Hleased [Hlen Heach Hothers] Hi Hd Hopen Hstep.
  destruct (Heach _ _ _ Hi Hd) as [Hf Hst].
  apply (delivery_step_spec _ item) in Hstep as (d1 & [= <-] & Hf' & Hsub & Heff); [|done].
  pose proof (proj1 (Forall_lookup _ _) Hleased _ _ Hi) as Hl.
  destruct (step_effect_rows _ _ _ _ _ _ Hf Hl Hsub Hst Hopen Heff) as [Hst' Hrest].
  split.
  - by rewrite length_insert.
  - intros j x e Hx He. destruct (decide (i = j)) as [<-|Hne].
    + rewrite list_lookup_insert_eq in He by (by eapply lookup_lt_Some). simplify_eq. done.
    + rewrite list_lookup_insert_ne in He by done. destruct (Heach _ _ _ Hx He) as [Hfx Hsx].
      split; [by eapply in_flight_mono|]. eapply stands_other; [done| |done].
      apply Hrest. intros Heq. apply Hne. eapply NoDup_lookup; [exact Hnd|..];
        rewrite list_lookup_fmap; [rewrite Hi; done|by rewrite Hx; simpl; rewrite Heq].
  - intros k Hk. rewrite Hrest; [by apply Hothers|]. intros ->. apply Hk.
    apply list_elem_of_fmap_2. by eapply list_elem_of_lookup_2.
Qed.

(** The results received so far are those of the finished goroutines. *)
Definition finished (d : delivery) : option (res (option EmailOutboxStatus)) :=
  match d with D_done r => Some r | _ => None end.

Lemma omap_finished_insert ds i d d' :
  ds !! i = Some d → finished d = None →
  omap finished (<[i := d']> ds) ≡ₚ omap finished ds ++ option_list (finished d').
Proof.
  intros Hd Hn. rewrite insert_take_drop by (by eapply lookup_lt_Some).
  assert (omap finished ds = omap finished (take i ds ++ d :: drop (S i) ds)) as ->
    by (by rewrite take_drop_middle).
  rewrite !omap_app, <-app_assoc. apply Permutation_app_head.
  change (omap finished (?x :: ?l)) with (omap finished ([x] ++ l)). rewrite !omap_app.
  rewrite (Permutation_app_comm (omap finished [d'])).
  destruct d; [..|done]; simpl; apply Permutation_app_head; by destruct d'.
Qed.

Lemma run_deliveries_cons now i schedule ds results w :
  run_deliveries float_overflow s now (i :: schedule) ds results w =
  match ds !! i with
  | None => run_deliveries float_overflow s now schedule ds results w
  | Some d =>
      match finished d with
      | Some _ => run_deliveries float_overflow s now schedule ds results w
      | None =>
          (d' ← step now d;
           run_deliveries float_overflow s now schedule (<[i := d']> ds)
             (results ++ option_list (finished d'))) w
      end
  end.
Proof.
  simpl. destruct (ds !! i) as [[]|]; try done; unfold mbind, M_bind;
    destruct (step now _ w) as [[[]|] w1]; simpl; by rewrite ?app_nil_r.
Qed.

Lemma run_deliveries_stands now rows0 items schedule ds results w r w' :
  NoDup (EO_ID <$> items) → Forall leased_item items → round_stands now rows0 items ds w →
  results ≡ₚ omap finished ds →
  run_deliveries float_overflow s now schedule ds results w = (r, w') →
  ∃ results' ds', r = Ok results' ∧ results' ≡ₚ omap finished ds' ∧
    round_stands now rows0 items ds' w'.
Proof.
  intros Hnd Hleased. revert ds results w. induction schedule as [|i schedule IH];
    intros ds results w Hst Hres.
  { intros [= <- <-]. by exists results, ds. }
  rewrite run_deliveries_cons. destruct (ds !! i) as [d|] eqn:Hd; [|by apply IH].
  destruct (finished d) eqn:Hfin; [by apply IH|].
  assert (∀ x, d ≠ D_done x) as Hopen by (intros x ->; done). unfold mbind, M_bind.
  assert (is_Some (items !! i)) as [item Hi].
  { apply lookup_lt_is_Some. rewrite <-(rs_length _ _ _ _ _ Hst). by eapply lookup_lt_Some. }
  destruct (step now d w) as [r1 w1] eqn:E.
  pose proof E as E1. apply (delivery_step_spec _ item) in E1 as (d' & -> & _);
    [|by eapply rs_each].
  apply IH; [by eapply round_step|].
  by rewrite omap_finished_insert, Hres by done.
Qed.

(** *** The results *)

Definition counted_stats (claimed : Z) (statuses : list EmailOutboxStatus) : EmailStats :=
  foldr count_email (mkEmailStats claimed 0 0 0 0) statuses.

Lemma count_email_comm a b stats :
  count_email a (count_email b stats) = count_email b (count_email a stats).
Proof. destruct a, b; try done; unfold count_email; simpl; f_equal; lia. Qed.

Lemma counted_stats_perm n statuses statuses' :
  statuses ≡ₚ statuses' → counted_stats n statuses = counted_stats n statuses'.
Proof.
  apply (foldr_permutation eq); [solve_proper|]. intros _ a _ b stats _ _ _. apply count_email_comm.
Qed.

Lemma receive_results_failed results stats e : (receive_results results stats (Some e)).2 ≠ None.
Proof. revert stats. by induction results as [|[[?|]|?] results IH]; simpl. Qed.

Lemma receive_results_ok results stats stats' :
  receive_results results stats None = (stats', None) →
  ∃ os, results = Ok <$> os ∧ stats' = foldr count_email stats (reverse (omap id os)).
Proof.
  revert stats. induction results as [|[[status|]|e] results IH]; intros stats; simpl.
  - intros [= <-]. by exists [].
  - intros (os & -> & ->)%IH. exists (Some status :: os). split; [done|]. simpl.
    by rewrite reverse_cons, foldr_app.
  - intros (os & -> & ->)%IH. by exists (None :: os).
  - intros H. pose proof (receive_results_failed results stats e) as Hf. by rewrite H in Hf.
Qed.

Lemma omap_all {A B} (f : A → option B) l :
  length (omap f l) = length l → ∀ x, x ∈ l → is_Some (f x).
Proof.
  assert (∀ x l, omap f (x :: l) = match f x with Some y => y :: omap f l | None => omap f l end)
    as Hcons by done.
  assert (∀ l, (length (omap f l) ≤ length l)%nat) as Hle.
  { intros k. induction k as [|x k IH]; [done|]. rewrite Hcons. destruct (f x); simpl; lia. }
  induction l as [|x l IH]; [set_solver|]. rewrite Hcons. pose proof (Hle l).
  destruct (f x) eqn:E; simpl; intros Hlen; [|lia].
  intros y [->|Hy]%elem_of_cons; [eauto|]. apply IH; [lia|done].
Qed.

(** When every result is in and none is an error, every item has its outcome in the table. *)
Lemma round_complete now rows0 items ds results stats w :
  round_stands now rows0 items ds w → results ≡ₚ omap finished ds →
  length results = length items →
  receive_results results (mkEmailStats (Z.of_nat (length items)) 0 0 0 0) None = (stats, None) →
  ∃ statuses,
    Forall2 (λ item status, ∃ input t,
      possible_outcome now (mw_accepted w) item status input ∧
      mw_rows w !! EO_ID item = Some (email_outcome input t item)) items statuses ∧
    stats = counted_stats (Z.of_nat (length items)) statuses.
Proof.
  intros Hst Hres Hlen Hrec. apply receive_results_ok in Hrec as (os & -> & ->).
  assert (∀ d, d ∈ ds → ∃ o, d = D_done (Ok o)) as Hall.
  { intros d Hd. assert (is_Some (finished d)) as [r Hr].
    { apply (omap_all finished ds); [|done]. rewrite <-Hres, Hlen. by rewrite (rs_length _ _ _ _ _ Hst). }
    assert (r ∈ Ok (A:=option EmailOutboxStatus) <$> os) as Hin.
    { rewrite Hres. apply list_elem_of_omap. eauto. }
    apply list_elem_of_fmap in Hin as (o & -> & _). exists o. by destruct d; simplify_eq/=. }
  set (status_of d := match d with D_done (Ok (Some x)) => x | _ => EmailOutboxStatusPending end).
  exists (status_of <$> ds).
  assert (∀ i item d, items !! i = Some item → ds !! i = Some d →
    d = D_done (Ok (Some (status_of d))) ∧ ∃ input t,
      possible_outcome now (mw_accepted w) item (status_of d) input ∧
      mw_rows w !! EO_ID item = Some (email_outcome input t item)) as Heach.
  { intros i item d Hi Hd. destruct (rs_each _ _ _ _ _ Hst _ _ _ Hi Hd) as [_ Hs].
    destruct (Hall d) as [o ->]; [by eapply list_elem_of_lookup_2|].
    destruct Hs as (status & input & t & -> & ? & ?). simpl. eauto. }
  split.
  - apply Forall2_fmap_r, Forall2_same_length_lookup. split; [symmetry; apply Hst|].
    intros i item d Hi Hd. by destruct (Heach _ _ _ Hi Hd).
  - unfold counted_stats. apply counted_stats_perm. rewrite reverse_Permutation.
    assert (omap finished ds = (λ d, Ok (Some (status_of d))) <$> ds) as Hds.
    { clear -Heach Hst. pose proof (rs_length _ _ _ _ _ Hst) as Hl. clear Hst.
      revert items Hl Heach. induction ds as [|d ds IH]; intros [|item items] Hl Heach; try done.
      destruct (Heach O item d eq_refl eq_refl) as [Hd _].
      rewrite fmap_cons, <-(IH items); [|by injection Hl|intros j; apply (Heach (S j))].
      rewrite Hd at 1. done. }
    rewrite Hds in Hres.
    assert (omap id (A:=option EmailOutboxStatus) os ≡ₚ
      omap id ((λ d, Some (status_of d)) <$> ds)) as ->.
    { assert (∀ l : list (option EmailOutboxStatus),
        omap (λ r : res (option EmailOutboxStatus), match r with Ok o => o | _ => None end) (Ok <$> l) =
        omap id l) as Hom.
      { clear. intros l. induction l as [|[x|] l IH]; simpl; [done|by f_equal|done]. }
      rewrite <-!Hom, Hres, <-list_fmap_compose. done. }
    apply reflexive_eq. clear. induction ds as [|d ds IH]; simpl; [done|by f_equal].
Qed.

Lemma claimed_round_stands now rows0 messages w :
  NoDup (EO_ID <$> messages) → (∀ m, m ∈ messages → rows0 !! EO_ID m = Some m) →
  mw_rows w = rows0 → round_stands now rows0 messages (D_start <$> messages) w.
Proof.
  intros Hnd Hrows Hw. split; [by rewrite length_fmap| |by intros k _; rewrite Hw].
  intros i item d Hi. rewrite list_lookup_fmap, Hi. intros [= <-]. split; [done|]. simpl.
  rewrite Hw. apply Hrows. by eapply list_elem_of_lookup_2.
Qed.

(** The rows a round takes on, and what it has recorded for them when it is over. *)
Definition round_report (w : MailWorld) (leased : list EmailOutbox) (stats : EmailStats)
    (w' : MailWorld) : Prop :=
  let now := UTC (ma_time (mw_answer w)) in
  NoDup (EO_ID <$> leased) ∧ (length leased ≤ Z.to_nat (ES_batchSize s))%nat ∧
  (* the messages were due, and no other row has been touched *)
  (∀ m, m ∈ leased → ∃ m0 t, mw_rows w !! EO_ID m = Some m0 ∧ email_claimable now m0 = true ∧
     m = email_lease (Add now (ES_leaseDuration s)) t m0) ∧
  (∀ k, k ∉ EO_ID <$> leased → mw_rows w' !! k = mw_rows w !! k) ∧
  (* each has one outcome, recorded in its row and counted *)
  ∃ statuses,
    Forall2 (λ m status, ∃ input t, possible_outcome now (mw_accepted w') m status input ∧
      mw_rows w' !! EO_ID m = Some (email_outcome input t m)) leased statuses ∧
    stats = counted_stats (Z.of_nat (length leased)) statuses.

Lemma email_RunOnce_report schedule w stats w' :
  email_ok (mw_db w) →
  email_RunOnce float_overflow s schedule w = (Ok (Some (stats, None)), w') →
  ∃ leased, round_report w leased stats w' ∧
    let now := UTC (ma_time (mw_answer w)) in
    ((length (filter (λ m, email_claimable now m = true) (rows_of (mw_rows w)))
       ≤ Z.to_nat (ES_batchSize s))%nat →
     ∀ k m, mw_rows w !! k = Some m → email_claimable now m = true → k ∈ EO_ID <$> leased).
Proof.
  intros Hok. unfold email_RunOnce, attempt, mbind, M_bind. simpl.
  set (now := UTC (ma_time (mw_answer w))).
  destruct (in_mail (ClaimEmailOutboxReady now _ _) (mw_step w)) as [[ms|e] w1] eqn:E; [|by intros [= _]].
  apply in_mail_run in E as (db' & E & ->). simpl in E.
  set (db0 := at_email_now (ma_now (mw_answer (mw_step w))) (mw_db w)) in E.
  assert (email_ok db0) as Hok0 by by apply at_now_ok_iff.
  pose proof (ClaimEmailOutboxReady_all _ _ _ _ _ _ Hok0 E) as Hall.
  apply ClaimEmailOutboxReady_spec in E as (Hnd & Hms & Hothers & _ & Hlen); [|done].
  set (w2 := mw_with_db db' (mw_step (mw_step w))).
  destruct (run_deliveries float_overflow s now schedule (D_start <$> ms) [] w2)
    as [[results|e] w3] eqn:E3; [|done].
  apply (run_deliveries_stands now (email_outbox db') ms) in E3
    as (results' & ds' & [= <-] & Hres & Hst); [|done|..]; cycle 1.
  { apply Forall_forall. intros m Hm. by destruct (Hms m Hm) as (m0 & _ & _ & -> & _). }
  { apply claimed_round_stands; [done| |done]. intros m Hm. by destruct (Hms m Hm) as (? & ? & ? & ? & ?). }
  { clear. by induction ms. }
  destruct (Nat.eqb_spec (length results) (length ms)) as [Hl|]; [|by intros [= _]].
  intros [= Hrec <-]. exists ms. split; [|exact Hall].
  destruct (round_complete _ _ _ _ _ _ _ Hst Hres Hl Hrec) as (statuses & Hout & ->).
  split_and!; [done|done| | |by exists statuses].
  - intros m Hm. destruct (Hms m Hm) as (m0 & ? & ? & ? & _). by exists m0, (email_now db0).
  - intros k Hk. rewrite (rs_others _ _ _ _ _ Hst) by done. by apply Hothers.
Qed.

(** A round does its work once, in whatever order its goroutines take turns: when a round ends
    without an error, the messages it claimed were due, each of them has exactly the outcome its own
    attempt called for, recorded in its row (sent only if the gateway accepted the message rendered
    from its payload, retried only on a transient error with attempts left, expired only when its time
    was over), no other row has been touched, and the statistics count these outcomes. *)
Theorem email_RunOnce_outcomes schedule w stats w' :
  email_ok (mw_db w) →
  email_RunOnce float_overflow s schedule w = (Ok (Some (stats, None)), w') →
  ∃ leased, round_report w leased stats w'.
Proof. intros Hok Hr. destruct (email_RunOnce_report _ _ _ _ Hok Hr) as (leased & ? & _). eauto. Qed.

(** ** Rounds end *)

(** Steps a goroutine still has before it at most. *)
Definition delivery_rank (d : delivery) : nat :=
  match d with D_start _ => 3 | D_send _ _ => 2 | D_record _ _ => 1 | D_done _ => 0 end.

Lemma delivery_step_rank now d w r w' :
  (∀ x, d ≠ D_done x) → step now d w = (r, w') →
  ∃ d', r = Ok d' ∧ (delivery_rank d' < delivery_rank d)%nat.
Proof.
  intros Hopen. destruct d as [item|item message|status input|x]; [..|by destruct (Hopen x)];
    unfold delivery_step, attempt, mbind, M_bind, mret, M_ret; simpl.
  - intros [= <- _]. eexists. split; [done|]. destruct (ma_context _); simpl; [|lia].
    unfold prepare. destruct (email_expired _ _); simpl; [lia|]. destruct (Decrypt _ _ _); simpl; [|lia].
    destruct (ES_renderer _ _ _ _); simpl; lia.
  - destruct (ma_reply _); simpl; [intros [= <- _]; eexists; split; [done|]; simpl; lia|].
    destruct (_ && _); [|intros [= <- _]; eexists; split; [done|]; simpl; lia].
    destruct (email_retryDelay_total float_overflow s (EO_AttemptCount item + 1) (mw_step w))
      as (delay & w1 & ->). intros [= <- _]. eexists. split; [done|]. simpl. lia.
  - destruct (email_transition status input w). intros [= <- _]. eexists. split; [done|]. simpl. lia.
Qed.

Lemma run_deliveries_complete now schedule ds results w r w' :
  length results = length (omap finished ds) →
  (∀ i d, ds !! i = Some d → (delivery_rank d ≤ count_occ Nat.eq_dec schedule i)%nat) →
  run_deliveries float_overflow s now schedule ds results w = (r, w') →
  ∃ results', r = Ok results' ∧ length results' = length ds.
Proof.
  revert ds results w. induction schedule as [|i schedule IH]; intros ds results w Hlen Hrank.
  { intros [= <- _]. exists results. split; [done|]. rewrite Hlen. clear Hlen.
    assert (∀ d, d ∈ ds → is_Some (finished d)) as Hall.
    { intros d [j Hj]%list_elem_of_lookup. specialize (Hrank _ _ Hj). simpl in Hrank.
      destruct d; simpl in *; try lia. eauto. }
    clear Hrank. induction ds as [|d ds IH]; [done|].
    destruct (Hall d) as [x Hx]; [left|]. destruct d; try done. cbn. f_equal. apply IH.
    intros d Hd. apply Hall. by right. }
  rewrite run_deliveries_cons. simpl in Hrank.
  destruct (ds !! i) as [d|] eqn:Hd; [destruct (finished d) eqn:Hfin|].
  1, 3: apply IH; [done|]; intros j y Hj; specialize (Hrank _ _ Hj);
    destruct (Nat.eq_dec i j) as [->|]; [|done]; rewrite Hd in Hj; simplify_eq.
  { destruct y; try done. simpl. lia. }
  assert (∀ x, d ≠ D_done x) as Hopen by (intros x ->; done). unfold mbind, M_bind.
  destruct (step now d w) as [r1 w1] eqn:E. apply delivery_step_rank in E as (d' & -> & Hlt); [|done].
  intros Hr. apply IH in Hr as (results' & -> & Hlen').
  - exists results'. split; [done|]. by rewrite Hlen', length_insert.
  - by rewrite (omap_finished_insert _ _ _ _ Hd Hfin), !length_app, Hlen.
  - intros j x Hj. destruct (decide (i = j)) as [<-|Hne].
    + rewrite list_lookup_insert_eq in Hj by (by eapply lookup_lt_Some). injection Hj as <-.
      specialize (Hrank _ _ Hd). destruct (Nat.eq_dec i i); [lia|done].
    + rewrite list_lookup_insert_ne in Hj by done. specialize (Hrank _ _ Hj).
      by destruct (Nat.eq_dec i j).
Qed.

(** A round ends: no goroutine waits for another, so under every schedule that lets each of the
    goroutines of a batch take three steps, in whatever order, [RunOnce] has all its results and
    returns. *)
Theorem email_RunOnce_terminates schedule (w : MailWorld) :
  (∀ i, (Z.of_nat i < ES_batchSize s)%Z → (3 ≤ count_occ Nat.eq_dec schedule i)%nat) →
  email_ok (mw_db w) →
  ∃ stats err w', email_RunOnce float_overflow s schedule w = (Ok (Some (stats, err)), w').
Proof.
  intros Hfair Hok. unfold email_RunOnce, attempt, mbind, M_bind. simpl.
  set (now := UTC (ma_time (mw_answer w))).
  destruct (in_mail (ClaimEmailOutboxReady now _ _) (mw_step w)) as [[ms|e] w1] eqn:E;
    [|by do 3 eexists].
  apply in_mail_run in E as (db' & E & ->). simpl in E.
  apply ClaimEmailOutboxReady_spec in E as (_ & _ & _ & _ & Hlen); [|by apply at_now_ok_iff].
  destruct (run_deliveries float_overflow s now schedule (D_start <$> ms) [] _) as [r w3] eqn:E3.
  apply run_deliveries_complete in E3 as (results & -> & Hl).
  - rewrite length_fmap in Hl. rewrite (proj2 (Nat.eqb_eq _ _) Hl).
    destruct (receive_results results _ None) as [stats err]. by do 3 eexists.
  - clear. by induction ms.
  - intros i d. rewrite list_lookup_fmap. intros (m & Hm & ->)%fmap_Some_1. simpl. apply Hfair.
    apply lookup_lt_Some in Hm. lia.
Qed.

(** ** The outbox drains *)

(** Nothing is left to do for the message. *)
Definition email_settled (m : EmailOutbox) : Prop :=
  match EO_Status m with
  | EmailOutboxStatusPending | EmailOutboxStatusSending | EmailOutboxStatusRetrying => False
  | _ => True
  end.

#[export] Instance email_settled_dec m : Decision (email_settled m).
Proof. unfold email_settled. destruct (EO_Status m); apply _. Defined.

Lemma claimable_unsettled now m : email_claimable now m = true → ¬ email_settled m.
Proof. unfold email_claimable, email_settled. intros Hc. destruct (EO_Status m); try discriminate; tauto. Qed.

(** A row that waits has attempts left. *)
Definition attempts_left (m : EmailOutbox) : Prop :=
  email_settled m ∨ EO_AttemptCount m < ES_maxAttempts s.

(** What an outcome leaves behind. *)
Lemma possible_outcome_settles now accepted item status input t :
  possible_outcome now accepted item status input →
  email_settled (email_outcome input t item) ∨
  (EO_AttemptCount (email_outcome input t item) = next_attempt item ∧
   next_attempt item < ES_maxAttempts s).
Proof.
  destruct 1; [left; exact I|left; exact I|left; exact I|by right|left; exact I].
Qed.

Lemma delivery_step_ok now item d w d' w' :
  email_ok (mw_db w) → in_flight now (mw_accepted w) item d → step now d w = (Ok d', w') →
  email_ok (mw_db w').
Proof.
  intros Hok Hf Hr. apply (delivery_step_spec _ item) in Hr as (d1 & [= <-] & _ & _ & Heff); [|done].
  destruct Heff as [[->|[t ->]] _|status input t _ _ _ ->|status input m t -> _ Hm Hfe Hrow ->].
  - done.
  - by apply at_now_ok_iff.
  - by apply at_now_ok_iff.
  - apply (refines_update_one (OpTransition input) (ET_ID input) m _ (at_email_now t (mw_db w)));
      [by apply at_now_ok_iff|done|by constructor].
Qed.

Lemma run_deliveries_ok now schedule ds results w r w' :
  email_ok (mw_db w) →
  (∀ i d, ds !! i = Some d → ∃ item, in_flight now (mw_accepted w) item d) →
  run_deliveries float_overflow s now schedule ds results w = (r, w') → email_ok (mw_db w').
Proof.
  revert ds results w. induction schedule as [|i schedule IH]; intros ds results w Hok Hds.
  { by intros [= _ <-]. }
  rewrite run_deliveries_cons. destruct (ds !! i) as [d|] eqn:Hd; [|by apply IH].
  destruct (finished d); [by apply IH|]. unfold mbind, M_bind.
  destruct (Hds _ _ Hd) as [item Hf]. destruct (step now d w) as [r1 w1] eqn:E.
  pose proof E as E1. apply (delivery_step_spec _ item) in E1 as (d' & -> & Hf' & Hsub & _); [|done].
  apply IH; [by eapply delivery_step_ok|]. intros j x Hj. destruct (decide (i = j)) as [<-|Hne].
  - rewrite list_lookup_insert_eq in Hj by (by eapply lookup_lt_Some). injection Hj as <-. eauto.
  - rewrite list_lookup_insert_ne in Hj by done. destruct (Hds _ _ Hj) as [y Hy].
    exists y. by eapply in_flight_mono.
Qed.

Lemma email_RunOnce_ok schedule w r w' :
  email_ok (mw_db w) → email_RunOnce float_overflow s schedule w = (r, w') → email_ok (mw_db w').
Proof.
  intros Hok. unfold email_RunOnce, attempt, mbind, M_bind. simpl.
  set (now := UTC (ma_time (mw_answer w))).
  destruct (in_mail (ClaimEmailOutboxReady now _ _) (mw_step w)) as [[ms|e] w1] eqn:E;
    apply in_mail_run in E as (db' & E & ->); simpl in E;
    apply refines_claim in E as [Hok' _ _]; [|by apply at_now_ok_iff| |by apply at_now_ok_iff];
    [|by intros [= _ <-]].
  destruct (run_deliveries float_overflow s now schedule (D_start <$> ms) [] _) as [r3 w3] eqn:E3.
  apply run_deliveries_ok in E3; [|done|].
  - destruct r3; by intros [= _ <-].
  - intros i d. rewrite list_lookup_fmap. intros (m & Hm & ->)%fmap_Some_1. by exists m.
Qed.

(** Rounds one after the other, each of which ends without an error and finds every waiting row
    due and room for all of them in its batch. *)
Inductive quiet_rounds : nat → MailWorld → MailWorld → Prop :=
  | quiet_O w : quiet_rounds 0 w w
  | quiet_S n schedule w stats w1 w2 :
      let now := UTC (ma_time (mw_answer w)) in
      (∀ k m, mw_rows w !! k = Some m → ¬ email_settled m → email_claimable now m = true) →
      (length (filter (λ m, email_claimable now m = true) (rows_of (mw_rows w)))
        ≤ Z.to_nat (ES_batchSize s))%nat →
      email_RunOnce float_overflow s schedule w = (Ok (Some (stats, None)), w1) →
      quiet_rounds n w1 w2 → quiet_rounds (S n) w w2.

(** A round takes every waiting row one attempt further or settles it. *)
Lemma quiet_round_progress schedule w stats w1 n :
  let now := UTC (ma_time (mw_answer w)) in
  email_ok (mw_db w) →
  (∀ k m, mw_rows w !! k = Some m → ¬ email_settled m → email_claimable now m = true) →
  (length (filter (λ m, email_claimable now m = true) (rows_of (mw_rows w)))
    ≤ Z.to_nat (ES_batchSize s))%nat →
  email_RunOnce float_overflow s schedule w = (Ok (Some (stats, None)), w1) →
  (∀ k m, mw_rows w !! k = Some m → email_settled m ∨ n ≤ EO_AttemptCount m < ES_maxAttempts s) →
  ∀ k m, mw_rows w1 !! k = Some m → email_settled m ∨ n + 1 ≤ EO_AttemptCount m < ES_maxAttempts s.
Proof.
  intros now Hok Hdue Hroom Hr Hbefore k m' Hm'.
  destruct (email_RunOnce_report _ _ _ _ Hok Hr) as (leased & Hrep & Hall).
  destruct Hrep as (_ & _ & Hms & Hothers & statuses & Hout & _).
  destruct (decide (k ∈ EO_ID <$> leased)) as [Hin|Hnot].
  - apply list_elem_of_fmap in Hin as (m & -> & Hm).
    destruct (Hms _ Hm) as (m0 & t0 & Hm0 & Hc & Heq).
    apply list_elem_of_lookup in Hm as [i Hi].
    destruct (Forall2_lookup_l _ _ _ _ _ Hout Hi) as (status & _ & input & t & Hp & Hrow).
    rewrite Hrow in Hm'. injection Hm' as <-.
    destruct (possible_outcome_settles _ _ _ _ _ t Hp) as [?|[-> Hlt]]; [by left|right].
    destruct (Hbefore _ _ Hm0) as [Hs|Hb]; [by apply claimable_unsettled in Hc|].
    unfold next_attempt in *. rewrite Heq in *. simpl in *. lia.
  - rewrite Hothers in Hm' by done. left. destruct (decide (email_settled m')) as [|Hopen]; [done|].
    destruct Hnot. eapply Hall; eauto.
Qed.

(** C37: the outbox drains: from a well-formed table in which every row that is not settled has an
    attempt left, as it has in those the system writes, as long as no round fails, and every waiting message is due and fits the
    batch when a round starts, [maxAttempts] rounds settle everything: each message is sent, expired
    or a dead letter, whatever the gateway answers and however the goroutines interleave. *)
Theorem email_outbox_drains w w' :
  email_ok (mw_db w) → (∀ k m, mw_rows w !! k = Some m → attempts_left m) →
  quiet_rounds (Z.to_nat (ES_maxAttempts s)) w w' →
  ∀ k m, mw_rows w' !! k = Some m → email_settled m.
Proof.
  intros Hok Hleft Hrounds.
  assert (∀ rounds n w w', email_ok (mw_db w) → quiet_rounds rounds w w' →
    (∀ k m, mw_rows w !! k = Some m → email_settled m ∨ n ≤ EO_AttemptCount m < ES_maxAttempts s) →
    ∀ k m, mw_rows w' !! k = Some m →
      email_settled m ∨ n + Z.of_nat rounds ≤ EO_AttemptCount m < ES_maxAttempts s) as Hprog.
  { clear. intros rounds. induction rounds as [|rounds IH]; intros n w w' Hok Hr Hb k m Hm.
    - inversion Hr; subst. destruct (Hb _ _ Hm); [by left|right; lia].
    - inversion Hr as [|? schedule ? stats w1 ? now Hdue Hroom Hrun Hrest]; subst.
      pose proof (quiet_round_progress _ _ _ _ n Hok Hdue Hroom Hrun Hb) as Hb1.
      destruct (IH (n + 1) _ _ (email_RunOnce_ok _ _ _ _ Hok Hrun) Hrest Hb1 _ _ Hm); [by left|right; lia]. }
  intros k m Hm. destruct (Hprog _ 0 _ _ Hok Hrounds) with (k := k) (m := m) as [|Hb]; [|done|done|lia].
  intros k0 m0 Hm0. destruct (Hleft _ _ Hm0) as [|Hlt]; [by left|right].
  pose proof (email_rows_ok _ Hok _ _ Hm0) as (Ha & _). lia.
Qed.

(** ** Any number of workers, enqueuers and operators together *)

(** Deliveries under way, each with the time of the round it belongs to. *)
Abbreviation pool := (list (Time * delivery)).

Inductive mail_move :=
  | MoveClaim                 (* a worker starts a round *)
  | MoveDeliver (i : nat)     (* a goroutine takes a step *)
  | MoveEnqueue (c : option Cipher) (random : res string) (input : EmailOutboxInput)
  | MoveRequeue (id : string) (now : Time).

Definition mail_move_run (move : mail_move) (p : pool) : M MailWorld pool :=
  match move with
  | MoveClaim =>
      now ← time_Now;
      let now := UTC now in
      claimed ← attempt
        (store_ClaimEmailOutboxReady now (Add now (ES_leaseDuration s)) (ES_batchSize s));
      mret (match claimed with Ok ms => p ++ ((λ m, (now, D_start m)) <$> ms) | Err _ => p end)
  | MoveDeliver i =>
      match p !! i with
      | Some (now, d) => d' ← step now d; mret (<[i := (now, d')]> p)
      | None => mret p
      end
  | MoveEnqueue c random input => attempt (in_mail (EnqueueEmail c random input)) ;; mret p
  | MoveRequeue id now => attempt (in_mail (RequeueEmailOutbox id now)) ;; mret p
  end.

Fixpoint mail_moves (moves : list mail_move) (p : pool) : M MailWorld pool :=
  match moves with
  | [] => mret p
  | move :: moves => p ← mail_move_run move p; mail_moves moves p
  end.

(** What the row of a message still says, seen from an earlier copy of it. *)
Definition copy_of (item row : EmailOutbox) : Prop := same_email row item ∧ payload_kept item row.

(** A delivery under way is about a copy of a row that had attempts left. *)
Definition delivery_sound (w : MailWorld) (nd : Time * delivery) : Prop :=
  (∃ r, nd.2 = D_done r) ∨
  ∃ item row, in_flight nd.1 (mw_accepted w) item nd.2 ∧ mw_rows w !! EO_ID item = Some row ∧
    copy_of item row ∧ email_final (EO_Status item) = false ∧
    EO_AttemptCount item < ES_maxAttempts s.

Record mail_sound (w : MailWorld) (p : pool) : Prop := {
  ms_ok : email_ok (mw_db w);
  ms_attempts k m : mw_rows w !! k = Some m →
    EO_AttemptCount m ≤ ES_maxAttempts s ∧ (email_settled m ∨ EO_AttemptCount m < ES_maxAttempts s);
  ms_pool : Forall (delivery_sound w) p;
}.

(** The message of a row that was not final once: kept in the row, or sent and accepted. *)
Definition accounted_for (w : MailWorld) (m : EmailOutbox) : Prop :=
  ∃ row, mw_rows w !! EO_ID m = Some row ∧ copy_of m row ∧
    (EO_Status row = EmailOutboxStatusSent →
       ∃ message, email_message m = Ok message ∧ message ∈ mw_accepted w).

Lemma copy_message item row :
  copy_of item row → email_final (EO_Status row) = false → email_message row = email_message item.
Proof.
  intros [(Hid & _ & Hty & _) Hp] Hf. unfold payload_kept in Hp. rewrite Hf in Hp.
  destruct Hp as [Hn Hc]. unfold email_message. by rewrite Hid, Hty, Hn, Hc.
Qed.

Lemma copy_step id op item row row' :
  copy_of item row → email_row_ok row → email_step id op row row' → copy_of item row'.
Proof.
  intros [Hs Hp] Hok Hstep. pose proof (email_step_payload _ _ _ _ Hstep Hok) as Hp'.
  pose proof (email_step_same _ _ _ _ Hstep) as Hs'. split; [by etrans|].
  unfold payload_kept in *. destruct (email_final (EO_Status row')) eqn:Hf'; [done|].
  destruct (email_final (EO_Status row)) eqn:Hf;
    [by rewrite (email_step_final _ _ _ _ Hstep Hf), Hf in Hf'|].
  destruct Hp as [<- <-]. done.
Qed.

Context (Hmax : 0 < ES_maxAttempts s).

(** An outcome that a sound delivery records on a row. *)
Definition earned (accepted : list EmailMessage) (m : EmailOutbox) (op : mail_op) : Prop :=
  match op with
  | OpTransition input => ∃ now item status,
      possible_outcome now accepted item status input ∧ copy_of item m ∧
      email_final (EO_Status item) = false ∧ EO_AttemptCount item < ES_maxAttempts s
  | _ => True
  end.

(** What every move does to the world. *)
Record fair_move (w w' : MailWorld) : Prop := {
  fm_ok : email_ok (mw_db w');
  fm_accepted : mw_accepted w ⊆ mw_accepted w';
  fm_step id m : mw_rows w !! id = Some m → ∃ m' op, mw_rows w' !! id = Some m' ∧
    email_step id op m m' ∧ earned (mw_accepted w') m op;
  fm_new id m' : mw_rows w' !! id = Some m' → mw_rows w !! id = None → EO_AttemptCount m' = 0;
}.

(** A store operation that is not an outcome, run at its own time. *)
Lemma fair_refines op t db w w' :
  mw_db w = db → mw_accepted w' = mw_accepted w → mail_refines op (at_email_now t db) (mw_db w') →
  (∀ m, earned (mw_accepted w') m op) → fair_move w w'.
Proof.
  intros <- Hacc [Hok Hs Hn] He. split; [done|by rewrite Hacc| |done].
  intros id m Hm. destruct (Hs id m Hm) as (m' & ? & ?). exists m', op. by split_and!.
Qed.

Lemma fair_same w w' :
  email_ok (mw_db w) → mw_rows w' = mw_rows w → email_ok (mw_db w') →
  mw_accepted w ⊆ mw_accepted w' → fair_move w w'.
Proof.
  intros Hok Hrows Hok' Hacc. split; [done|done|..]; rewrite Hrows.
  - intros id m Hm. exists m, OpCounts. by split_and!; [|constructor|].
  - intros id m'. congruence.
Qed.

Lemma possible_outcome_attempts now accepted item status input :
  possible_outcome now accepted item status input →
  ET_AttemptCount input ≤ next_attempt item ∧
  (match status with
   | EmailOutboxStatusRetrying => ET_AttemptCount input < ES_maxAttempts s
   | EmailOutboxStatusPending | EmailOutboxStatusSending => False
   | _ => True
   end).
Proof. unfold next_attempt. destruct 1; simpl; unfold next_attempt in *; split; lia || done. Qed.

(** The attempts of a row stay within bounds. *)
Definition attempts_within (m : EmailOutbox) : Prop :=
  EO_AttemptCount m ≤ ES_maxAttempts s ∧ (email_settled m ∨ EO_AttemptCount m < ES_maxAttempts s).

Lemma attempts_step id op accepted m m' :
  email_step id op m m' → earned accepted m op → attempts_within m → attempts_within m'.
Proof.
  destruct 1 as [op m|now until n t m Hc|input t m Hid Hf _|now t m Hr]; intros He [Hle Hopen]; [done|..].
  - apply claimable_unsettled in Hc. split; [done|]. right. simpl. tauto.
  - destruct He as (now & item & status & Hp & _ & _ & Hlt).
    pose proof (possible_outcome_input _ _ _ _ _ Hp) as (_ & _ & Hst & _).
    apply possible_outcome_attempts in Hp as [Hle' Hb]. unfold next_attempt in Hle'.
    unfold attempts_within, email_settled. simpl. rewrite Hst. split; [lia|].
    destruct status; auto; done.
  - split; simpl; [lia|right; lia].
Qed.

Lemma fair_attempts w w' :
  fair_move w w' → (∀ k m, mw_rows w !! k = Some m → attempts_within m) →
  ∀ k m, mw_rows w' !! k = Some m → attempts_within m.
Proof.
  intros [_ _ Hs Hn] Hb k m' Hm'. destruct (mw_rows w !! k) as [m|] eqn:Hm.
  - destruct (Hs _ _ Hm) as (m1 & op & Hm1 & Hstep & He). rewrite Hm1 in Hm'. injection Hm' as <-.
    eapply attempts_step; eauto.
  - specialize (Hn _ _ Hm' Hm). split; [lia|right; lia].
Qed.

Lemma fair_delivery w w' nd :
  email_ok (mw_db w) → fair_move w w' → delivery_sound w nd → delivery_sound w' nd.
Proof.
  intros Hok [_ Hacc Hs _] [?|(item & row & Hf & Hrow & Hcopy & Hopen & Hlt)]; [by left|right].
  destruct (Hs _ _ Hrow) as (row' & op & Hrow' & Hstep & _). exists item, row'. split_and!; try done.
  - by eapply in_flight_mono.
  - eapply copy_step; [done| |done]. by eapply (email_rows_ok _ Hok).
Qed.

Lemma fair_accounted w w' m :
  email_ok (mw_db w) → fair_move w w' → email_final (EO_Status m) = false →
  accounted_for w m → accounted_for w' m.
Proof.
  intros Hok [_ Hacc Hs _] Hopen (row & Hrow & Hcopy & Hsent).
  destruct (Hs _ _ Hrow) as (row' & op & Hrow' & Hstep & He). exists row'. split; [done|].
  pose proof (email_rows_ok _ Hok _ _ Hrow) as Hrok.
  split; [by eapply copy_step|]. intros Hst'. destruct (email_final (EO_Status row)) eqn:Hfin.
  - pose proof (email_step_final _ _ _ _ Hstep Hfin) as ->.
    destruct (Hsent Hst') as (message & ? & ?). exists message. split; [done|by apply Hacc].
  - destruct Hstep as [| |input t row Hid Hfe _|]; simpl in *; try done.
    + by rewrite Hst' in Hfin.
    + destruct He as (now & item & status & Hp & Hitem & _).
      pose proof (possible_outcome_input _ _ _ _ _ Hp) as (_ & _ & Hst & _).
      rewrite Hst' in Hst. rewrite <-Hst in Hp.
      assert (∃ message, email_message item = Ok message ∧ message ∈ mw_accepted w') as Hmsg
        by (inversion Hp; eauto).
      rewrite <-(copy_message m row), (copy_message item row) by done. exact Hmsg.
Qed.

Lemma fair_sound w w' p :
  mail_sound w p → fair_move w w' → mail_sound w' p.
Proof.
  intros [Hok Hb Hp] Hfair. split; [apply Hfair| |].
  - by eapply fair_attempts.
  - eapply Forall_impl; [exact Hp|]. intros nd. by apply fair_delivery.
Qed.

(** *** Every move is fair and keeps the pool sound *)

Lemma claim_move w p r w' :
  mail_sound w p → mail_move_run MoveClaim p w = (r, w') →
  ∃ p', r = Ok p' ∧ fair_move w w' ∧ mail_sound w' p'.
Proof.
  intros Hsound. pose proof (ms_ok _ _ Hsound) as Hok.
  unfold mail_move_run, attempt, mbind, M_bind. simpl.
  set (now := UTC (ma_time (mw_answer w))).
  destruct (in_mail (ClaimEmailOutboxReady now _ _) (mw_step w)) as [[ms|e] w1] eqn:E;
    apply in_mail_run in E as (db' & E & ->); simpl in E; unfold mret, M_ret; intros [= <- <-];
    (eexists; split; [done|]);
    match goal with |- fair_move w ?w1 ∧ _ => assert (fair_move w w1) as Hfair end;
    try (eapply fair_refines; [done|done|by eapply refines_claim; [apply at_now_ok_iff|]|done]);
    (split; [done|]); pose proof (fair_sound _ _ _ Hsound Hfair) as Hs; [|done].
  apply ClaimEmailOutboxReady_spec in E as (_ & Hms & _); [|by apply at_now_ok_iff].
  destruct Hs as [Hok' Hb Hp]. split; [done|done|]. apply Forall_app. split; [done|].
  apply Forall_fmap, Forall_forall. intros m Hm. right. exists m, m. simpl.
  destruct (Hms m Hm) as (m0 & Hm0 & Hc & Heq & Hrow). split_and!; [done|exact Hrow| |by rewrite Heq|].
  - split; [done|]. pose proof (email_rows_ok _ Hok' _ _ Hrow) as Hrok.
    apply email_row_ok_payload in Hrok. unfold payload_kept. by destruct (email_final _).
  - destruct (ms_attempts _ _ Hsound _ _ Hm0) as [_ [Hset|Hlt]]; [|by rewrite Heq].
    by apply claimable_unsettled in Hc.
Qed.

Lemma deliver_fair now d item row w w' d' :
  email_ok (mw_db w) → in_flight now (mw_accepted w) item d → mw_rows w !! EO_ID item = Some row →
  copy_of item row → email_final (EO_Status item) = false → EO_AttemptCount item < ES_maxAttempts s →
  step now d w = (Ok d', w') → fair_move w w'.
Proof.
  intros Hok Hf Hrow Hcopy Hopen Hlt E. pose proof (delivery_step_ok _ _ _ _ _ _ Hok Hf E) as Hok'.
  apply (delivery_step_spec _ item) in E as (d1 & [= <-] & Hf' & Hsub & Heff); [|done].
  destruct Heff as [Hdb _|status input t _ _ _ Hdb|status input m t -> _ Hm Hfe Hrok Hdb].
  - apply fair_same; [done| |done|done]. unfold mw_rows. by destruct Hdb as [->|[t ->]].
  - apply fair_same; [done| |done|done]. unfold mw_rows. by rewrite Hdb.
  - assert (mail_refines (OpTransition input) (at_email_now t (mw_db w)) (mw_db w')) as [_ Hst Hn].
    { rewrite Hdb. apply (refines_update_one _ (ET_ID input) m); [by apply at_now_ok_iff|done|].
      by constructor. }
    simpl in Hf. pose proof (possible_outcome_input _ _ _ _ _ Hf) as (Hid & _).
    split; [done|done| |done]. intros id m1 Hm1. destruct (Hst _ _ Hm1) as (m' & Hm' & Hs').
    destruct (decide (id = ET_ID input)) as [->|Hne].
    + exists m', (OpTransition input). split_and!; [done|done|]. exists now, item, status.
      rewrite Hid, Hrow in Hm1. injection Hm1 as <-.
      split_and!; [by eapply possible_outcome_mono|done..].
    + exists m1, OpCounts. split_and!; [|constructor|done]. unfold mw_rows. rewrite Hdb. simpl.
      by rewrite lookup_insert_ne.
Qed.

Lemma deliver_move i w p r w' :
  mail_sound w p → mail_move_run (MoveDeliver i) p w = (r, w') →
  ∃ p', r = Ok p' ∧ fair_move w w' ∧ mail_sound w' p'.
Proof.
  intros Hsound. pose proof (ms_ok _ _ Hsound) as Hok. unfold mail_move_run.
  destruct (p !! i) as [[now d]|] eqn:Hi.
  2: { intros [= <- <-]. exists p. split; [done|]. split; [|done]. by apply fair_same. }
  unfold mbind, M_bind. destruct (step now d w) as [r1 w1] eqn:E.
  destruct (proj1 (Forall_lookup _ _) (ms_pool _ _ Hsound) _ _ Hi)
    as [[x Hx]|(item & row & Hf & Hrow & Hcopy & Hopen & Hlt)]; simpl in *.
  { subst d. injection E as <- <-. unfold mret, M_ret. intros [= <- <-].
    rewrite list_insert_id by done. exists p. split; [done|]. split; [|done]. by apply fair_same. }
  pose proof E as E1. apply (delivery_step_spec _ item) in E1 as (d' & -> & Hf' & Hsub & _); [|done].
  pose proof (deliver_fair _ _ _ _ _ _ _ Hok Hf Hrow Hcopy Hopen Hlt E) as Hfair.
  unfold mret, M_ret. intros [= <- <-]. eexists. split; [done|]. split; [done|].
  destruct (fair_sound _ _ _ Hsound Hfair) as [Hok' Hb Hp]. split; [done|done|].
  apply Forall_insert; [done|]. right.
  destruct (fm_step _ _ Hfair _ _ Hrow) as (row' & op & Hrow' & Hs' & _).
  exists item, row'. split_and!; try done. eapply copy_step; [done| |done]. by eapply (email_rows_ok _ Hok).
Qed.

Lemma store_move {A} op (m : Mail A) w p r w' :
  (∀ db r db', email_ok db → m db = (r, db') → mail_refines op db db') →
  (∀ accepted row, earned accepted row op) →
  mail_sound w p → (attempt (in_mail m) ;; mret p) w = (r, w') →
  ∃ p', r = Ok p' ∧ fair_move w w' ∧ mail_sound w' p'.
Proof.
  intros Href He Hsound. unfold attempt, mbind, M_bind, mret, M_ret.
  destruct (in_mail m w) as [r1 w1] eqn:E. intros [= <- <-]. exists p. split; [done|].
  apply in_mail_run in E as (db' & E & ->).
  assert (fair_move w (mw_with_db db' (mw_step w))) as Hfair.
  { eapply fair_refines; [done|done| |done]. eapply Href; [|done].
    apply at_now_ok_iff, (ms_ok _ _ Hsound). }
  split; [done|by eapply fair_sound].
Qed.

Lemma mail_moves_sound moves w p r w' :
  mail_sound w p → mail_moves moves p w = (r, w') →
  ∃ p', r = Ok p' ∧ mail_sound w' p' ∧ mw_accepted w ⊆ mw_accepted w' ∧
    ∀ m, email_final (EO_Status m) = false → accounted_for w m → accounted_for w' m.
Proof.
  revert w p. induction moves as [|move moves IH]; intros w p Hsound.
  { intros [= <- <-]. by exists p. }
  simpl. unfold mbind, M_bind. destruct (mail_move_run move p w) as [r1 w1] eqn:E.
  assert (∃ p', r1 = Ok p' ∧ fair_move w w1 ∧ mail_sound w1 p') as (p1 & -> & Hfair & Hs1).
  { destruct move as [|i|c random input|id now].
    - by eapply claim_move.
    - by eapply deliver_move.
    - eapply (store_move (OpEnqueue c random input)); [apply refines_enqueue|done|done|exact E].
    - eapply (store_move (OpRequeue id now)); [apply refines_requeue|done|done|exact E]. }
  intros Hr. destruct (IH _ _ Hs1 Hr) as (p' & -> & Hs' & Hacc & Hkeep).
  exists p'. split; [done|]. split; [done|]. split; [etrans; [apply Hfair|done]|].
  intros m Hopen Hm. apply Hkeep; [done|]. eapply fair_accounted; [apply Hsound|done..].
Qed.

(** C36: workers, applications and operators can share the outbox: start from any well-formed table
    whose rows are within the configured attempts, as those the system writes are, and let any number of workers claim and deliver, step by step and in any order, while messages
    are enqueued and dead letters requeued.  No row ever exceeds the configured attempts, none
    that waits has used them up; and whatever message is open at some point and found sent later,
    the gateway accepted exactly the message rendered from the payload it had then. *)
Theorem email_workers_safe moves1 moves2 w p1 w1 p2 w2 :
  email_ok (mw_db w) → (∀ k m, mw_rows w !! k = Some m → attempts_within m) →
  mail_moves moves1 [] w = (Ok p1, w1) → mail_moves moves2 p1 w1 = (Ok p2, w2) →
  (∀ k m, mw_rows w2 !! k = Some m →
     EO_AttemptCount m ≤ ES_maxAttempts s ∧ (email_settled m ∨ EO_AttemptCount m < ES_maxAttempts s)) ∧
  ∀ k m m', mw_rows w1 !! k = Some m → email_final (EO_Status m) = false →
    mw_rows w2 !! k = Some m' → EO_Status m' = EmailOutboxStatusSent →
    ∃ message, email_message m = Ok message ∧ message ∈ mw_accepted w2.
Proof.
  intros Hok Hb H1 H2.
  destruct (mail_moves_sound _ _ _ _ _ (Build_mail_sound _ _ Hok Hb (Forall_nil_2 _)) H1)
    as (? & [= <-] & Hs1 & _).
  destruct (mail_moves_sound _ _ _ _ _ Hs1 H2) as (? & [= <-] & Hs2 & _ & Hkeep).
  split; [apply Hs2|]. intros k m m' Hm Hopen Hm' Hsent.
  assert (EO_ID m = k) as <- by (by apply (email_keyed _ (ms_ok _ _ Hs1))).
  destruct (Hkeep m Hopen) as (row & Hrow & _ & Hacc); [|simplify_eq; by apply Hacc].
  exists m. split; [done|]. split.
  - split; [done|]. unfold payload_kept. by rewrite Hopen.
  - intros E. by rewrite E in Hopen.
Qed.
End email_rounds.

(** ** The theorems at work *)

Definition sample_renderer (_ _ : string) (payload : EmailPayload) : res EmailMessage :=
  Ok (mkEmailMessage (RecipientEmail payload) "" "Verify your account" (EmailToken payload) "").
(** Two attempts, everything else by default. *)
Definition sample_email_service : EmailService :=
  NewEmailService (Some sample_aead) sample_renderer (mkEmailOptions 2 0 0 0 0 0 None).
Definition sample_mail_world (reply : res unit) (db : EmailDB) : MailWorld :=
  mkMailWorld db (λ tick, mkMailAnswer (Add sample_time (Z.of_nat tick * Hour))
    (Add sample_time (Z.of_nat tick * Hour)) (Ok tt) reply 7) 0 [].
Definition sample_busy : res unit := Err (DeliveryError (ErrText "busy") true).
Definition sample_pending : EmailDB := sample_email_db EmailOutboxStatusPending 0.

Lemma sample_pending_ok : email_ok sample_pending.
Proof. apply sample_email_ok; [reflexivity|reflexivity|lia]. Qed.

Lemma sample_pending_row reply k m :
  mw_rows (sample_mail_world reply sample_pending) !! k = Some m →
  m = sample_email EmailOutboxStatusPending 0.
Proof.
  change (mw_rows _) with ({["mail-1" := sample_email EmailOutboxStatusPending 0]} : gmap string EmailOutbox).
  by intros [_ ->]%lookup_singleton_Some.
Qed.

Abbreviation sample_round := (email_RunOnce (- 2 ^ 63) sample_email_service [0; 0; 0]%nat).

(** An attempt of the default service waits between 30 and 36 seconds. *)
Lemma email_retryDelay_bounds_witness :
  ∃ d w', email_retryDelay (- 2 ^ 63) sample_email_service 1 (sample_mail_world sample_busy sample_pending)
      = (Ok d, w') ∧ 30 * Second ≤ d ≤ 36 * Second.
Proof.
  destruct (email_retryDelay (- 2 ^ 63) sample_email_service 1
    (sample_mail_world sample_busy sample_pending)) as [[d|e] w'] eqn:E; [|discriminate E].
  exists d, w'. split; [reflexivity|].
  destruct (email_retryDelay_bounds MailWorld_random_range (- 2 ^ 63) sample_email_service 1
    (sample_mail_world sample_busy sample_pending) d w')
    as [[_ H1] H2]; [reflexivity|split; reflexivity|split; reflexivity|lia|reflexivity|exact E|].
  split; [exact H1|]. etrans; [exact H2|]. vm_compute. discriminate.
Defined.

Lemma email_RunOnce_outcomes_witness :
  ∃ stats w' leased, sample_round (sample_mail_world (Ok tt) sample_pending) = (Ok (Some (stats, None)), w') ∧
    EStats_Sent stats = 1 ∧
    round_report sample_email_service (sample_mail_world (Ok tt) sample_pending) leased stats w'.
Proof.
  destruct (run_check (λ r _, match r with Some (stats, None) => EStats_Sent stats =? 1 | _ => false end)
    sample_round (sample_mail_world (Ok tt) sample_pending)) as ([[stats [e|]]|] & w' & E & Hs);
    [vm_compute; reflexivity|discriminate Hs| |discriminate Hs].
  destruct (email_RunOnce_outcomes (- 2 ^ 63) sample_email_service [0; 0; 0]%nat
    (sample_mail_world (Ok tt) sample_pending) _ _ sample_pending_ok E)
    as [leased Hr].
  exists stats, w', leased. split; [exact E|]. split; [by apply Z.eqb_eq|exact Hr].
Defined.

(** Three steps for each of the twenty goroutines a batch can have, one goroutine after the other
    and then all over again. *)
Lemma email_RunOnce_terminates_witness :
  ∃ stats err w', email_RunOnce (- 2 ^ 63) sample_email_service (seq 0 20 ++ seq 0 20 ++ seq 0 20)
    (sample_mail_world sample_busy sample_pending) = (Ok (Some (stats, err)), w').
Proof.
  apply email_RunOnce_terminates; [|exact sample_pending_ok].
  intros i Hi. change (ES_batchSize sample_email_service) with 20 in Hi.
  assert (i < 20)%nat as Hlt by lia. clear Hi.
  do 20 (destruct i as [|i]; [vm_compute; lia|]). lia.
Defined.

Definition sample_mail_start : MailWorld := sample_mail_world sample_busy sample_pending.
Definition sample_mail_mid : MailWorld := (sample_round sample_mail_start).2.
Definition sample_mail_end : MailWorld := (sample_round sample_mail_mid).2.

Lemma sample_quiet_rounds : quiet_rounds (- 2 ^ 63) sample_email_service 2 sample_mail_start sample_mail_end.
Proof.
  assert (∀ w now, bool_decide (map_Forall (λ _ m, ¬ email_settled m → email_claimable now m = true)
    (mw_rows w)) = true → ∀ k m, mw_rows w !! k = Some m → ¬ email_settled m →
    email_claimable now m = true) as Hdue.
  { intros w now H%bool_decide_eq_true k m Hm. by apply (H k m). }
  assert (∀ {A B} (p : A * B) a, p.1 = a → p = (a, p.2)) as Hpair by by intros A B [] ? <-.
  apply (quiet_S _ _ _ [0; 0; 0]%nat _ (mkEmailStats 1 0 1 0 0) sample_mail_mid).
  { apply Hdue. vm_compute. reflexivity. }
  { apply Nat.leb_le. vm_compute. reflexivity. }
  { apply Hpair. vm_compute. reflexivity. }
  apply (quiet_S _ _ _ [0; 0; 0]%nat _ (mkEmailStats 1 0 0 1 0) sample_mail_end).
  { apply Hdue. vm_compute. reflexivity. }
  { apply Nat.leb_le. vm_compute. reflexivity. }
  { apply Hpair. vm_compute. reflexivity. }
  constructor.
Qed.

(** The gateway is busy twice: the message is a dead letter. *)
Lemma email_outbox_drains_witness :
  ∃ m, mw_rows sample_mail_end !! "mail-1" = Some m ∧ email_settled m.
Proof.
  destruct (mw_rows sample_mail_end !! "mail-1") as [m|] eqn:Hm; [|vm_compute in Hm; discriminate Hm].
  exists m. split; [reflexivity|].
  refine (email_outbox_drains (- 2 ^ 63) sample_email_service sample_mail_start sample_mail_end
    sample_pending_ok _ sample_quiet_rounds "mail-1" m Hm).
  intros k m' Hm'. apply sample_pending_row in Hm' as ->. right. reflexivity.
Defined.

Lemma email_workers_safe_witness :
  ∃ p1 w1 p2 w2 message,
    mail_moves (- 2 ^ 63) sample_email_service [MoveClaim] []
      (sample_mail_world (Ok tt) sample_pending) = (Ok p1, w1) ∧
    mail_moves (- 2 ^ 63) sample_email_service [MoveDeliver 0; MoveDeliver 0; MoveDeliver 0] p1 w1
      = (Ok p2, w2) ∧
    message ∈ mw_accepted w2.
Proof.
  set (first := mail_moves (- 2 ^ 63) sample_email_service [MoveClaim] []).
  set (w0 := sample_mail_world (Ok tt) sample_pending).
  assert (succeeds_with (λ p w, bool_decide (EO_Status <$> mw_rows w !! "mail-1" = Some EmailOutboxStatusSending)
    && succeeds_with (λ _ w, bool_decide (EO_Status <$> mw_rows w !! "mail-1" = Some EmailOutboxStatusSent))
    (mail_moves (- 2 ^ 63) sample_email_service [MoveDeliver 0; MoveDeliver 0; MoveDeliver 0] p) w) first w0
    = true) as H1 by (vm_compute; reflexivity).
  apply run_check in H1 as (p1 & w1 & E1 & [H1%bool_decide_eq_true H2]%andb_true_iff).
  apply run_check in H2 as (p2 & w2 & E2 & H2%bool_decide_eq_true).
  destruct (mw_rows w1 !! "mail-1") as [m|] eqn:Hm; [|discriminate H1].
  destruct (mw_rows w2 !! "mail-1") as [m'|] eqn:Hm'; [|discriminate H2].
  injection H1 as H1. injection H2 as H2.
  assert (∃ message, email_message sample_email_service m = Ok message ∧ message ∈ mw_accepted w2)
    as (message & _ & Hin).
  { refine (proj2 (email_workers_safe (- 2 ^ 63) sample_email_service _ [MoveClaim]
      [MoveDeliver 0; MoveDeliver 0; MoveDeliver 0] (sample_mail_world (Ok tt) sample_pending)
      p1 w1 p2 w2 sample_pending_ok _ E1 E2)
      "mail-1" m m' Hm _ Hm' H2).
    - reflexivity.
    - intros k x Hx. apply sample_pending_row in Hx as ->. split; [discriminate|right; reflexivity].
    - by rewrite H1. }
  exists p1, w1, p2, w2, message. split; [exact E1|]. split; [exact E2|exact Hin].
Defined.
