(* ===== verification/CloudDeletion.v ===== *)
(** * The tables of a cloud deletion: migrations 061 to 063

    A deletion is an operation row with a phase, and evidence around it: the
    participants that have to hold the cloud, their receipts, the commands to
    close the account at Billing and their retirements, the cancellation and
    the releases, the completion.  The triggers allow a phase only with its
    evidence.  This file has the tables, the statements on them with the
    constraints and triggers, and the queries more than one operation issues;
    DeletionStore.v has the transactions made of them.

    The state extends the store of Database.v: its [cloud_deletion_operations]
    column, which fences everything else, is computed from the operations. *)

From S2P Require Export GoSHA256 DeviceClaims.

Local Open Scope Z_scope.

(** ** Rows *)

Inductive DeletionPhase :=
  | PhasePreparing
  | PhaseClosing
  | PhaseCanceling
  | PhaseCanceled
  | PhaseSucceeded.

#[export] Instance DeletionPhase_eq_dec : EqDecision DeletionPhase.
Proof. solve_decision. Defined.

Definition DeletionPhase_text (p : DeletionPhase) : string :=
  match p with
  | PhasePreparing => "preparing"
  | PhaseClosing => "closing"
  | PhaseCanceling => "canceling"
  | PhaseCanceled => "canceled"
  | PhaseSucceeded => "succeeded"
  end.

(** A row of cloud_deletion_operations; [Type] is the constant "delete". *)
Record CloudDeletionOperation := mkDeletion {
  Deletion_ID : string;
  Deletion_CloudID : string;
  Deletion_Phase : DeletionPhase;
  Deletion_Blockers : list CloudBlocker;
  Deletion_CreatedAt : Time;
  Deletion_UpdatedAt : Time;
  Deletion_OwnerUserID : string;
  Deletion_OwnershipVersion : Z;
  Deletion_AuthorizationVersion : Z;
  Deletion_Cutoff : Time;
  Deletion_RequestSHA256 : string;
  Deletion_Key : string;
}.

#[export] Instance CloudDeletionOperation_eq_dec : EqDecision CloudDeletionOperation.
Proof. solve_decision. Defined.

(** The [State] that [scanDeletion] derives. *)
Inductive DeletionState := StateRunning | StateSucceeded | StateCanceled | StateBlocked.

#[export] Instance DeletionState_eq_dec : EqDecision DeletionState.
Proof. solve_decision. Defined.

Definition Deletion_State (op : CloudDeletionOperation) : DeletionState :=
  match Deletion_Phase op with
  | PhaseSucceeded => StateSucceeded
  | PhaseCanceled => StateCanceled
  | _ => match Deletion_Blockers op with [] => StateRunning | _ => StateBlocked end
  end.

(** A row of cloud_deletion_close_attempts, as [activeDeletionClose] reads it. *)
Record deletionCloseAttempt := mkAttempt {
  Attempt_Receipt : string; (* settlement_id *)
  Attempt_SHA : string;     (* readiness_sha256 *)
}.

#[export] Instance deletionCloseAttempt_eq_dec : EqDecision deletionCloseAttempt.
Proof. solve_decision. Defined.

Record AttemptRow := mkAttemptRow {
  attempt_operation : string;
  attempt_command : deletionCloseAttempt;
  attempt_created : Time;
}.

Record CompletionRow := mkCompletion {
  completion_billing_closed_at : Time;
  completion_billing_receipt : string;
  completion_deleted_at : Time;
}.

Record JobRow := mkJob {
  job_available_at : Time;
  job_lease : option (string * Time); (* lease_id, lease_until *)
  job_attempts : Z;
  job_generation : Z;
}.

(** Keys of the evidence: operation and participant, or operation and command. *)
Record DeletionTables := mkTables {
  dt_operations : gmap string CloudDeletionOperation;
  dt_participants : gset (string * string);
  dt_holds : gmap (string * string) string;              (* cloud_deletion_resource_receipts *)
  dt_commands : gmap string deletionCloseAttempt;        (* cloud_deletion_close_commands *)
  dt_attempts : gmap (string * string) AttemptRow;       (* cloud_deletion_close_attempts *)
  dt_retirements : gmap (string * string) (string * Time);
  dt_cancellations : gmap string (string * string);      (* id, decision_sha256 *)
  dt_releases : gmap (string * string) string;           (* cloud_deletion_release_receipts *)
  dt_completions : gmap string CompletionRow;
  dt_jobs : gmap string JobRow;
}.

(** Columns and tables of the rest of the schema that only a deletion touches. *)
Record CloudTables := mkCloudTables {
  ct_versions : gmap string (Z * Z); (* organizations: ownership_version, authorization_version *)
  ct_invitations : list (string * string);    (* brand_cloud_member_invitations: cloud, status *)
  ct_transfers : list (string * string);      (* brand_cloud_owner_transfers: cloud, status *)
  ct_group_mappings : list (string * option Time); (* external_group_mappings: organization, disabled *)
  ct_production_runs : list (string * string * Time); (* cloud, status, valid_until *)
}.

Record DeletionDB := mkDeletionDB {
  del_store : DB;
  del_tables : DeletionTables;
  del_clouds : CloudTables;
  del_clock : nat → Time;      (* clock_timestamp(), reading after reading *)
  del_readings : nat;
}.

Abbreviation Del A := (M DeletionDB A).

Definition with_del_store (db : DB) (s : DeletionDB) : DeletionDB :=
  mkDeletionDB db (del_tables s) (del_clouds s) (del_clock s) (del_readings s).
Definition with_del_tables (t : DeletionTables) (s : DeletionDB) : DeletionDB :=
  mkDeletionDB (del_store s) t (del_clouds s) (del_clock s) (del_readings s).
Definition with_del_clouds (c : CloudTables) (s : DeletionDB) : DeletionDB :=
  mkDeletionDB (del_store s) (del_tables s) c (del_clock s) (del_readings s).

Definition set_operations v t := mkTables v (dt_participants t) (dt_holds t) (dt_commands t)
  (dt_attempts t) (dt_retirements t) (dt_cancellations t) (dt_releases t) (dt_completions t)
  (dt_jobs t).
Definition set_participants v t := mkTables (dt_operations t) v (dt_holds t) (dt_commands t)
  (dt_attempts t) (dt_retirements t) (dt_cancellations t) (dt_releases t) (dt_completions t)
  (dt_jobs t).
Definition set_holds v t := mkTables (dt_operations t) (dt_participants t) v (dt_commands t)
  (dt_attempts t) (dt_retirements t) (dt_cancellations t) (dt_releases t) (dt_completions t)
  (dt_jobs t).
Definition set_commands v t := mkTables (dt_operations t) (dt_participants t) (dt_holds t) v
  (dt_attempts t) (dt_retirements t) (dt_cancellations t) (dt_releases t) (dt_completions t)
  (dt_jobs t).
Definition set_attempts v t := mkTables (dt_operations t) (dt_participants t) (dt_holds t)
  (dt_commands t) v (dt_retirements t) (dt_cancellations t) (dt_releases t) (dt_completions t)
  (dt_jobs t).
Definition set_retirements v t := mkTables (dt_operations t) (dt_participants t) (dt_holds t)
  (dt_commands t) (dt_attempts t) v (dt_cancellations t) (dt_releases t) (dt_completions t)
  (dt_jobs t).
Definition set_cancellations v t := mkTables (dt_operations t) (dt_participants t) (dt_holds t)
  (dt_commands t) (dt_attempts t) (dt_retirements t) v (dt_releases t) (dt_completions t)
  (dt_jobs t).
Definition set_releases v t := mkTables (dt_operations t) (dt_participants t) (dt_holds t)
  (dt_commands t) (dt_attempts t) (dt_retirements t) (dt_cancellations t) v (dt_completions t)
  (dt_jobs t).
Definition set_completions v t := mkTables (dt_operations t) (dt_participants t) (dt_holds t)
  (dt_commands t) (dt_attempts t) (dt_retirements t) (dt_cancellations t) (dt_releases t) v
  (dt_jobs t).
Definition set_jobs v t := mkTables (dt_operations t) (dt_participants t) (dt_holds t)
  (dt_commands t) (dt_attempts t) (dt_retirements t) (dt_cancellations t) (dt_releases t)
  (dt_completions t) v.

Definition tables (f : DeletionTables → DeletionTables) : Del unit :=
  modify (λ s, with_del_tables (f (del_tables s)) s).

(** ** The store a deletion is part of *)

Definition with_deletions (ds : list (string * string)) (r : Registry) : Registry :=
  mkRegistry (users r) (organizations r) (organization_members r) (roles r) (role_assignments r)
    (device_item_profiles r) (brand_cloud_product_admissions r) (cloud_ownership_handoffs r) ds
    (product_service_grants r) (device_claim_tokens r) (device_claims r) (factory_reservations r).

(** The phases the fences look at. *)
Definition deletion_phases (t : DeletionTables) : list (string * string) :=
  (λ op, (Deletion_CloudID op, DeletionPhase_text (Deletion_Phase op))) <$> rows_of (dt_operations t).

Definition store_of (s : DeletionDB) : DB :=
  let db := del_store s in
  with_registry (with_deletions (deletion_phases (del_tables s)) (registry db)) db.

(** A statement of the other files, on this state. *)
Definition on_store {A} (m : Store A) : Del A := zoom store_of with_del_store m.

Definition del_registry (s : DeletionDB) : Registry := registry (store_of s).
Definition del_now (s : DeletionDB) : Time := now (del_store s).

Definition clock_timestamp : Del Time := λ s,
  (Ok (del_clock s (del_readings s)),
   mkDeletionDB (del_store s) (del_tables s) (del_clouds s) (del_clock s) (S (del_readings s))).

Definition del_uuid : Del string := on_store (λ db, (Ok (next_uuid db), use_uuid db)).

(** ** Digests and names *)

Definition lower_hex (c : ascii) : bool := byte_in 48 57 c || byte_in 97 102 c.
(** [^[0-9a-f]{64}$] *)
Definition handoffEvidenceDigest (s : string) : bool :=
  (str_len s =? 64) && forallb lower_hex (to_bytes s).

(** [^[a-z][a-z0-9_-]{0,63}$] *)
Definition handoffParticipantName (s : string) : bool :=
  match to_bytes s with
  | c :: rest =>
      byte_in 97 122 c && (length rest <=? 63)%nat &&
      forallb (λ c, byte_in 97 122 c || byte_in 48 57 c || byte_is 95 c || byte_is 45 c) rest
  | [] => false
  end.

(** [hex(sha256(json.Marshal(value)))] *)
Definition handoffDigest (value : any) : string := sha256_hex (json_text value).

(** ** organizations *)

Definition versions_of (s : DeletionDB) (org : string) : Z * Z :=
  default (1, 1) (ct_versions (del_clouds s) !! org).
Definition set_versions (org : string) (v : Z * Z) (s : DeletionDB) : DeletionDB :=
  let c := del_clouds s in
  with_del_clouds (mkCloudTables (<[org := v]> (ct_versions c)) (ct_invitations c) (ct_transfers c)
    (ct_group_mappings c) (ct_production_runs c)) s.

Definition is_brand_cloud (o : Organization) : bool :=
  bool_decide (Organization_Kind o = OrganizationKindBrandCloud).

(** Trigger [guard_cloud_deletion_tombstone] for an UPDATE that changes some column: a deleted cloud
    is never modified. *)
Definition guard_tombstone (org : string) : Del unit :=
  r ← gets del_registry;
  reject_if (match organizations r !! org with
             | Some o => is_brand_cloud o && bool_decide (is_Some (Organization_DeletedAt o))
             | None => false
             end) (ErrPg "cloud_deletion_fence").

(** [UPDATE organizations SET updated_at = clock_timestamp()]; the column is not modelled. *)
Definition touch_organization (org : string) : Del unit := clock_timestamp ;; guard_tombstone org.

(** [SET authorization_version = authorization_version + 1] *)
Definition bump_authorization (org : string) : Del unit :=
  guard_tombstone org ;;
  modify (λ s, let v := versions_of s org in set_versions org (v.1, v.2 + 1) s).

(** ** Evidence, as the triggers look at it *)

Definition participants_of (t : DeletionTables) (id : string) : list string :=
  snd <$> filter (λ p, p.1 = id) (elements (dt_participants t)).

Definition held_by_all (t : DeletionTables) (id : string) : bool :=
  forallb (λ p, bool_decide (is_Some (dt_holds t !! (id, p)))) (participants_of t id).
Definition released_by_all (t : DeletionTables) (id : string) : bool :=
  forallb (λ p, bool_decide (is_Some (dt_releases t !! (id, p)))) (participants_of t id).

Definition attempts_of (t : DeletionTables) (id : string) : list AttemptRow :=
  filter (λ a, attempt_operation a = id) (map_to_list (dt_attempts t)).*2.
Definition retired_attempt (t : DeletionTables) (a : AttemptRow) : bool :=
  bool_decide (is_Some (dt_retirements t !! (attempt_operation a, Attempt_SHA (attempt_command a)))).
Definition open_attempts (t : DeletionTables) (id : string) : list AttemptRow :=
  filter (λ a, retired_attempt t a = false) (attempts_of t id).
Definition all_retired (t : DeletionTables) (id : string) : bool :=
  match open_attempts t id with [] => true | _ => false end.

(** ** Statements on cloud_deletion_operations *)

Definition deletion_transition (old new : DeletionPhase) : bool :=
  bool_decide (new = old) ||
  match old, new with
  | PhasePreparing, (PhaseClosing | PhaseCanceling) => true
  | PhaseClosing, (PhaseSucceeded | PhaseCanceling) => true
  | PhaseCanceling, (PhaseCanceled | PhaseSucceeded) => true
  | _, _ => false
  end.

(** "closure command needs all producer holds" *)
Definition closing_evidence (t : DeletionTables) (id : string) : bool :=
  bool_decide (is_Some (dt_commands t !! id)) && negb (bool_decide (participants_of t id = []))
  && held_by_all t id.

(** "all close attempts and remote holds must be resolved before cancellation completes" *)
Definition canceled_evidence (t : DeletionTables) (id : string) : bool :=
  bool_decide (is_Some (dt_releases t !! (id, "billing"))) && released_by_all t id
  && all_retired t id.

(** "deletion requires Billing completion and matching tombstone" *)
Definition succeeded_evidence (r : Registry) (t : DeletionTables) (id cloud : string) : bool :=
  match dt_completions t !! id, organizations r !! cloud with
  | Some c, Some o => bool_decide (Organization_DeletedAt o = Some (completion_deleted_at c))
  | _, _ => false
  end.

(** The conditions of trigger [guard_cloud_deletion_operation] on an UPDATE that keeps the identity
    of the row. *)
Definition guard_phase (old : CloudDeletionOperation) (new : DeletionPhase) : Del unit :=
  let id := Deletion_ID old in
  s ← gets (λ s, s);
  let t := del_tables s in
  reject_if (negb (deletion_transition (Deletion_Phase old) new))
    (ErrPg "invalid deletion transition") ;;
  reject_if (bool_decide (new = PhaseClosing ∨ new = PhaseSucceeded)
             && negb (closing_evidence t id))
    (ErrPg "closure command needs all producer holds") ;;
  reject_if (bool_decide (new = PhaseCanceling ∨ new = PhaseCanceled)
             && (bool_decide (dt_cancellations t !! id = None)
                 || bool_decide (is_Some (dt_completions t !! id))))
    (ErrPg "completed deletion cannot be canceled") ;;
  reject_if (bool_decide (new = PhaseCanceled) && negb (canceled_evidence t id))
    (ErrPg "all close attempts and remote holds must be resolved before cancellation completes") ;;
  reject_if (bool_decide (new = PhaseSucceeded)
             && negb (succeeded_evidence (del_registry s) t id (Deletion_CloudID old)))
    (ErrPg "deletion requires Billing completion and matching tombstone").

(** Trigger [wake_cloud_deletion_job] *)
Definition wake_job (id : string) : Del unit :=
  t ← clock_timestamp;
  tables (λ dt, set_jobs (alter (λ j,
    mkJob t (job_lease j) (job_attempts j) (job_generation j + 1)) id (dt_jobs dt)) dt).

Definition deletion_set (phase : DeletionPhase) (blockers : list CloudBlocker) (updated : Time)
    (op : CloudDeletionOperation) : CloudDeletionOperation :=
  mkDeletion (Deletion_ID op) (Deletion_CloudID op) phase blockers (Deletion_CreatedAt op) updated
    (Deletion_OwnerUserID op) (Deletion_OwnershipVersion op) (Deletion_AuthorizationVersion op)
    (Deletion_Cutoff op) (Deletion_RequestSHA256 op) (Deletion_Key op).

(** [UPDATE cloud_deletion_operations SET phase, blockers, updated_at WHERE id = $1 AND guard
    RETURNING *] *)
Definition update_deletion (id : string) (guard : CloudDeletionOperation → bool)
    (phase : CloudDeletionOperation → DeletionPhase) (blockers : list CloudBlocker)
    : Del (option CloudDeletionOperation) :=
  s ← gets (λ s, s);
  match dt_operations (del_tables s) !! id with
  | None => mret None
  | Some old =>
      if negb (guard old) then mret None
      else
        let new := deletion_set (phase old) blockers (del_now s) old in
        guard_phase old (phase old) ;;
        (if bool_decide (phase old = PhaseCanceled) && negb (bool_decide (Deletion_Phase old = PhaseCanceled))
         then bump_authorization (Deletion_CloudID old) else mret tt) ;;
        (if negb (bool_decide (phase old = Deletion_Phase old))
            && bool_decide (phase old = PhaseClosing ∨ phase old = PhaseCanceling)
         then touch_organization (Deletion_CloudID old) else mret tt) ;;
        tables (λ t, set_operations (<[id := new]> (dt_operations t)) t) ;;
        (if bool_decide (phase old = Deletion_Phase old) then mret tt else wake_job id) ;;
        mret (Some new)
  end.

Definition is_owner_row (cloud user : string) (m : Member) : bool :=
  is_member_of cloud user m && bool_decide (Member_Role m = RoleOwner).

(** Trigger [guard_cloud_deletion_operation] on INSERT, up to the UPDATE it makes. *)
Definition insertable (s : DeletionDB) (op : CloudDeletionOperation) : bool :=
  let r := del_registry s in
  match organizations r !! Deletion_CloudID op with
  | Some o =>
      bool_decide (Deletion_Phase op = PhasePreparing) && is_brand_cloud o
      && bool_decide (Organization_DeletedAt o = None)
      && bool_decide (versions_of s (Deletion_CloudID op) =
                      (Deletion_OwnershipVersion op, Deletion_AuthorizationVersion op))
      && existsb (is_owner_row (Deletion_CloudID op) (Deletion_OwnerUserID op)) (organization_members r)
      && user_can_access_brand_cloud r (Deletion_OwnerUserID op) (Deletion_CloudID op)
  | None => false
  end.

Definition insert_deletion (op : CloudDeletionOperation) : Del CloudDeletionOperation :=
  s ← gets (λ s, s);
  reject_if (negb (insertable s op)) (ErrPg "invalid deletion owner or lifecycle") ;;
  bump_authorization (Deletion_CloudID op) ;;
  reject_if (negb (handoffEvidenceDigest (Deletion_RequestSHA256 op))
             || negb ((1 <=? str_len (Deletion_Key op)) && (str_len (Deletion_Key op) <=? 200))
             || (Deletion_OwnershipVersion op <=? 0) || (Deletion_AuthorizationVersion op <=? 0))
    (ErrPg "cloud_deletion_operations_check") ;;
  reject_if (bool_decide (is_Some (dt_operations (del_tables s) !! Deletion_ID op)))
    (ErrPg "cloud_deletion_operations_pkey") ;;
  reject_if (existsb (λ d, bool_decide (Deletion_CloudID d = Deletion_CloudID op)
                           && negb (bool_decide (Deletion_Phase d = PhaseCanceled)))
               (rows_of (dt_operations (del_tables s))))
    (ErrPg "cloud_deletion_one_active") ;;
  reject_if (existsb (λ d, bool_decide (Deletion_CloudID d = Deletion_CloudID op)
                           && bool_decide (Deletion_OwnerUserID d = Deletion_OwnerUserID op)
                           && bool_decide (Deletion_Key d = Deletion_Key op))
               (rows_of (dt_operations (del_tables s))))
    (ErrPg "cloud_deletion_operations_owner_user_id_brand_cloud_id_idempotency_key_key") ;;
  tables (λ t, set_operations (<[Deletion_ID op := op]> (dt_operations t)) t) ;;
  (* trigger [schedule_cloud_deletion] *)
  tables (λ t, set_jobs (<[Deletion_ID op := mkJob (del_now s) None 0 0]> (dt_jobs t)) t) ;;
  mret op.

(** ** Statements on the evidence: rows are inserted, and never change *)

Definition insert_participant (id name : string) : Del unit :=
  t ← gets del_tables;
  reject_if (negb (handoffParticipantName name) || bool_decide (name = "billing"))
    (ErrPg "cloud_deletion_participants_participant_check") ;;
  reject_if (bool_decide ((id, name) ∈ dt_participants t)) (ErrPg "cloud_deletion_participants_pkey") ;;
  tables (λ t, set_participants ({[(id, name)]} ∪ dt_participants t) t).

(** [INSERT ... SELECT id, $2, $3 FROM cloud_deletion_operations WHERE id = $1 AND phase = 'preparing'];
    whether a row was inserted. *)
Definition insert_hold (id name receipt : string) : Del bool :=
  t ← gets del_tables;
  match dt_operations t !! id with
  | Some op =>
      if bool_decide (Deletion_Phase op = PhasePreparing) then
        reject_if (negb (handoffEvidenceDigest receipt)) (ErrPg "receipt_sha256_check") ;;
        reject_if (bool_decide (is_Some (dt_holds t !! (id, name))))
          (ErrPg "cloud_deletion_resource_receipts_pkey") ;;
        reject_if (negb (bool_decide ((id, name) ∈ dt_participants t)))
          (ErrPg "cloud_deletion_resource_receipts_fkey") ;;
        tables (λ t, set_holds (<[(id, name) := receipt]> (dt_holds t)) t) ;;
        mret true
      else mret false
  | None => mret false
  end.

(** Trigger [guard_cloud_deletion_attempt], then the row. *)
Definition insert_attempt (id : string) (command : deletionCloseAttempt) : Del unit :=
  s ← gets (λ s, s);
  let t := del_tables s in
  match dt_operations t !! id with
  | None => throw (ErrPg "no_data_found")
  | Some op =>
      reject_if (negb (bool_decide (Deletion_Phase op = PhasePreparing ∨ Deletion_Phase op = PhaseClosing))
                 || bool_decide (is_Some (dt_cancellations t !! id)) || negb (all_retired t id))
        (ErrPg "previous close must be retired before replacement; cancellation prohibits new commands") ;;
      touch_organization (Deletion_CloudID op) ;;
      reject_if (negb (handoffEvidenceDigest (Attempt_SHA command))) (ErrPg "readiness_sha256_check") ;;
      reject_if (bool_decide (is_Some (dt_attempts t !! (id, Attempt_SHA command))))
        (ErrPg "cloud_deletion_close_attempts_pkey") ;;
      tables (λ t, set_attempts
        (<[(id, Attempt_SHA command) := mkAttemptRow id command (del_now s)]> (dt_attempts t)) t)
  end.

(** The first command; trigger [copy_initial_cloud_deletion_command] copies it to the attempts. *)
Definition insert_command (id : string) (command : deletionCloseAttempt) : Del unit :=
  t ← gets del_tables;
  reject_if (bool_decide (is_Some (dt_commands t !! id))) (ErrPg "cloud_deletion_close_commands_pkey") ;;
  tables (λ t, set_commands (<[id := command]> (dt_commands t)) t) ;;
  insert_attempt id command.

Definition insert_cancellation (id cancellation sha : string) : Del unit :=
  t ← gets del_tables;
  reject_if (bool_decide (is_Some (dt_cancellations t !! id))) (ErrPg "cloud_deletion_cancellations_pkey") ;;
  reject_if (existsb (λ c, bool_decide (c.1 = cancellation)) (rows_of (dt_cancellations t)))
    (ErrPg "cloud_deletion_cancellations_id_key") ;;
  reject_if (bool_decide (dt_operations t !! id = None)) (ErrPg "cloud_deletion_cancellations_fkey") ;;
  tables (λ t, set_cancellations (<[id := (cancellation, sha)]> (dt_cancellations t)) t).

(** Trigger [guard_cloud_deletion_recovery_receipt] on the two tables. *)
Definition insert_retirement (id sha receipt : string) (retired : Time) : Del unit :=
  t ← gets del_tables;
  match dt_operations t !! id with
  | None => throw (ErrPg "no_data_found")
  | Some op =>
      reject_if (bool_decide (is_Some (dt_completions t !! id)))
        (ErrPg "completed deletion cannot gain retirement or release evidence") ;;
      reject_if (negb (bool_decide (Deletion_Phase op = PhaseClosing ∨ Deletion_Phase op = PhaseCanceling)))
        (ErrPg "retirement requires a pending close command") ;;
      reject_if (bool_decide (is_Some (dt_retirements t !! (id, sha))))
        (ErrPg "cloud_deletion_command_retirements_pkey") ;;
      reject_if (bool_decide (dt_attempts t !! (id, sha) = None))
        (ErrPg "cloud_deletion_command_retirements_fkey") ;;
      tables (λ t, set_retirements (<[(id, sha) := (receipt, pg_timestamptz retired)]> (dt_retirements t)) t) ;;
      wake_job id
  end.

Definition insert_release (id name receipt : string) : Del unit :=
  t ← gets del_tables;
  match dt_operations t !! id with
  | None => throw (ErrPg "no_data_found")
  | Some op =>
      reject_if (bool_decide (is_Some (dt_completions t !! id)))
        (ErrPg "completed deletion cannot gain retirement or release evidence") ;;
      reject_if (negb (bool_decide (Deletion_Phase op = PhaseCanceling))
                 || negb (bool_decide (name = "billing" ∨ (id, name) ∈ dt_participants t))
                 || negb (all_retired t id))
        (ErrPg "release requires cancellation and retirement of every pending command") ;;
      reject_if (bool_decide (is_Some (dt_releases t !! (id, name))))
        (ErrPg "cloud_deletion_release_receipts_pkey") ;;
      reject_if (bool_decide (dt_cancellations t !! id = None))
        (ErrPg "cloud_deletion_release_receipts_fkey") ;;
      tables (λ t, set_releases (<[(id, name) := receipt]> (dt_releases t)) t) ;;
      wake_job id
  end.

(** [deleted_at] defaults to [clock_timestamp()]. *)
Definition insert_completion (id : string) (closed : Time) (receipt : string) : Del Time :=
  t ← gets del_tables;
  deleted ← clock_timestamp;
  reject_if (bool_decide (is_Some (dt_completions t !! id))) (ErrPg "cloud_deletion_completions_pkey") ;;
  reject_if (bool_decide (dt_commands t !! id = None)) (ErrPg "cloud_deletion_completions_fkey") ;;
  tables (λ t, set_completions
    (<[id := mkCompletion (pg_timestamptz closed) receipt (pg_timestamptz deleted)]> (dt_completions t)) t) ;;
  mret (pg_timestamptz deleted).
