(* ===== verification/DeletionStore.v ===== *)
(** * store/cloud_deletion.go, cloud_deletion_recovery.go: the transactions of a deletion

    Each definition is one transaction or one query of the store: admission
    and its replay, the receipts of the producers, the durable close command,
    the completion with the tombstone, the cancellation, the retirement of a
    command, the releases.  The calls to Billing and the producers between
    them are in DeletionCoordinator.v. *)

From S2P Require Export CloudDeletion.

Local Open Scope Z_scope.

(** ** internal/billinghandoff: what AM and Billing tell each other *)

Record CloudDeletionScope := mkScope {
  Scope_CloudID : string;
  Scope_OwnerUserID : string;
  Scope_OwnershipVersion : Z;
}.

#[export] Instance CloudDeletionScope_eq_dec : EqDecision CloudDeletionScope.
Proof. solve_decision. Defined.

Record ClosureBinding := mkBinding {
  CB_Scope : CloudDeletionScope;
  CB_OperationID : string;
  CB_Cutoff : Time;
}.

#[export] Instance ClosureBinding_eq_dec : EqDecision ClosureBinding.
Proof. solve_decision. Defined.

Record ClosureOperation := mkClosureOperation {
  CO_ID : string;
  CO_AccountID : string;
  CO_OwnerUserID : string;
  CO_OwnershipVersion : Z;
  CO_Cutoff : Time;
  CO_Phase : string;
  CO_Version : Z;
  CO_CreatedAt : Time;
}.

Record ClosureStatus := mkClosureStatus {
  CS_Operation : ClosureOperation;
  CS_Ready : bool;
  CS_ReceiptID : string;
  CS_Blockers : list string;
}.

Record ClosureAcknowledgment := mkClosureAck {
  CAck_OperationID : string;
  CAck_Phase : string;
  CAck_ClosedAt : Time;
  CAck_ReceiptSHA256 : string;
}.

Record CloseCommandResolution := mkResolution {
  CR_OperationID : string;
  CR_SettlementID : string;
  CR_AMReadinessSHA256 : string;
  CR_Outcome : string;
  CR_ReceiptSHA256 : string;
  CR_RetiredAt : option Time;
  CR_Acknowledgment : option ClosureAcknowledgment;
}.

(** What a producer answers. *)
Record CloudDeletionHold := mkHold {
  Hold_Binding : ClosureBinding;
  Hold_AuthorizationVersion : Z;
  Hold_Participant : string;
  Hold_Held : bool;
  Hold_Empty : bool;
  Hold_ReceiptSHA256 : string;
}.

Record CloudDeletionRelease := mkRelease {
  Release_Binding : ClosureBinding;
  Release_CancellationID : string;
  Release_Participant : string;
  Release_ReceiptSHA256 : string;
  Release_Released : bool;
}.

Definition Deletion_binding (op : CloudDeletionOperation) : ClosureBinding :=
  mkBinding (mkScope (Deletion_CloudID op) (Deletion_OwnerUserID op) (Deletion_OwnershipVersion op))
    (Deletion_ID op) (Deletion_Cutoff op).

(** Struct comparison of the scopes, and [Time.Equal] on the cutoff. *)
Definition same_binding (b : ClosureBinding) (op : CloudDeletionOperation) : bool :=
  let own := Deletion_binding op in
  bool_decide (CB_Scope b = CB_Scope own) && bool_decide (CB_OperationID b = Deletion_ID op)
  && Equal (CB_Cutoff b) (Deletion_Cutoff op).

(** *** As JSON, for the digests *)

Definition binding_json (b : ClosureBinding) : any :=
  AMap [("cloud_id", AString (Scope_CloudID (CB_Scope b)));
        ("owner_user_id", AString (Scope_OwnerUserID (CB_Scope b)));
        ("ownership_version", AInt (Scope_OwnershipVersion (CB_Scope b)));
        ("operation_id", AString (CB_OperationID b)); ("cutoff", ATime (CB_Cutoff b))].

Definition closure_operation_json (o : ClosureOperation) : any :=
  AMap [("id", AString (CO_ID o)); ("account_id", AString (CO_AccountID o));
        ("owner_user_id", AString (CO_OwnerUserID o));
        ("ownership_version", AInt (CO_OwnershipVersion o)); ("cutoff", ATime (CO_Cutoff o));
        ("phase", AString (CO_Phase o)); ("version", AInt (CO_Version o));
        ("created_at", ATime (CO_CreatedAt o))].

Definition request_digest (b : ClosureBinding) (authorization : Z) (key : string) : string :=
  handoffDigest (AMap [("Binding", binding_json b); ("AuthorizationVersion", AInt authorization);
                       ("Key", AString key)]).
Definition close_digest (b : ClosureBinding) (receipt : string) (manifest : any) : string :=
  handoffDigest (AMap [("Binding", binding_json b); ("Receipt", AString receipt); ("Manifest", manifest)]).
Definition cancellation_digest (b : ClosureBinding) (id : string) : string :=
  handoffDigest (AMap [("Binding", binding_json b); ("CancellationID", AString id)]).
Definition billing_release_digest (id sha : string) (response : ClosureOperation) : string :=
  handoffDigest (AMap [("CancellationID", AString id); ("DecisionSHA", AString sha);
                       ("Operation", closure_operation_json response)]).

(** ** Queries *)

(** [scanDeletion] of the row with this id. *)
Definition scan_deletion (id : string) : Del CloudDeletionOperation :=
  t ← gets del_tables; row_or ErrNotFound (dt_operations t !! id).

Definition loadDeletion (cloud operation : string) : Del CloudDeletionOperation :=
  t ← gets del_tables;
  row_or ErrNotFound
    (op ← dt_operations t !! operation; if bool_decide (Deletion_CloudID op = cloud) then Some op else None).

Definition GetDeveloperCloudDeletion (user cloud operation : string) : Del CloudDeletionOperation :=
  s ← gets (λ s, s);
  row_or ErrNotFound
    (op ← dt_operations (del_tables s) !! operation;
     if bool_decide (Deletion_CloudID op = cloud) && bool_decide (Deletion_OwnerUserID op = user)
        && eligible_user (del_registry s) user
     then Some op else None).

Definition activeDeletionClose (operation : string) : Del deletionCloseAttempt :=
  t ← gets del_tables;
  row_or ErrNotFound (attempt_command <$> latest attempt_created (open_attempts t operation)).

(** store/developer_brand_clouds.go *)
Definition getDeveloperUserTx (userID : string) : Del User :=
  r ← gets del_registry;
  row_or ErrNotFound
    (u ← users r !! userID; if bool_decide (User_DisabledAt u = None) then Some u else None).

(** The owner's cloud, locked: ownership_version and authorization_version. *)
Definition lockDeletionOwner (user cloud : string) : Del (Z * Z) :=
  u ← getDeveloperUserTx user;
  reject_if (negb (User_EmailVerified u) || User_SignupPendingVerification u) ErrAccountNotActivated ;;
  s ← gets (λ s, s);
  row_or ErrNotFound
    (o ← organizations (del_registry s) !! cloud;
     if is_brand_cloud o && existsb (is_owner_row cloud user) (organization_members (del_registry s))
     then Some (versions_of s cloud) else None).

(** [status NOT IN ('succeeded','failed') OR completed_at IS NULL] *)
Definition unfinished_operation (o : DeviceOperation) : bool :=
  match DeviceOperation_Status o with
  | DeviceOperationStatusSucceeded | DeviceOperationStatusFailed =>
      bool_decide (DeviceOperation_CompletedAt o = None)
  | _ => true
  end.

(** [status = 'active' AND valid_until > now()] *)
Definition active_run (cloud : string) (now : Time) (run : string * string * Time) : bool :=
  bool_decide (run.1.1 = cloud) && bool_decide (run.1.2 = "active") && (t_nanos now <? t_nanos run.2).

Definition cloud_products (s : DeletionDB) (cloud : string) : list DeviceItemProfile :=
  filter (λ p, Profile_BrandCloudID p = cloud) (rows_of (device_item_profiles (del_registry s))).
Definition cloud_devices (s : DeletionDB) (cloud : string) : list Device :=
  filter (λ d, Device_OrganizationID d = cloud) (rows_of (devices (del_store s))).
Definition cloud_jobs (s : DeletionDB) (cloud : string) : list DeviceOperation :=
  filter (λ o, DeviceOperation_OrganizationID o = cloud ∧ unfinished_operation o = true)
    (rows_of (device_operations (del_store s))).
Definition cloud_runs (s : DeletionDB) (cloud : string) : list (string * string * Time) :=
  filter (λ run, active_run cloud (del_now s) run = true) (ct_production_runs (del_clouds s)).

Definition cloud_empty (s : DeletionDB) (cloud : string) : bool :=
  bool_decide (cloud_products s cloud = []) && bool_decide (cloud_devices s cloud = [])
  && bool_decide (cloud_jobs s cloud = []) && bool_decide (cloud_runs s cloud = []).

Definition cloudDeletionEmptyTx (cloud : string) : Del unit :=
  s ← gets (λ s, s); reject_if (negb (cloud_empty s cloud)) ErrCloudDeletionBlocked.

Definition deletionAudit (op : CloudDeletionOperation) (action sha : string) : Del unit :=
  on_store (create_audit_event (String.append "brand_cloud_deletion_" action)
    (Some (Deletion_OwnerUserID op)) (Some (Deletion_CloudID op)) "cloud_deletion" (Deletion_ID op)
    (list_to_map [("evidence_sha256", AString sha);
                  ("ownership_version", AInt (Deletion_OwnershipVersion op))])).

(** ** Admission *)

Definition ValidManagedCloudKey (key : string) : bool :=
  (1 <=? str_len key) && (str_len key <=? 200) && forallb (byte_in 33 126) (to_bytes key).

(** The operation a request is compared with: the one under its own key, else the one that is not
    canceled. *)
Definition prior_deletion (t : DeletionTables) (user cloud key : string) : option CloudDeletionOperation :=
  let own op := bool_decide (Deletion_OwnerUserID op = user) && bool_decide (Deletion_Key op = key) in
  head (order_by (λ a b, own a || negb (own b))
    (filter (λ op, Deletion_CloudID op = cloud ∧ (own op = true ∨ Deletion_Phase op ≠ PhaseCanceled))
      (rows_of (dt_operations t)))).

Definition replay_deletion (user cloud key : string) : Del (option CloudDeletionOperation) :=
  t ← gets del_tables;
  match prior_deletion t user cloud key with
  | None => mret None
  | Some prior =>
      reject_if (negb (bool_decide (Deletion_OwnerUserID prior = user))
                 || negb (bool_decide (Deletion_Key prior = key))) ErrConflict ;;
      mret (Some prior)
  end.

(** The first transaction of a request. *)
Definition request_replay (user cloud key : string) : Del (Z * Z * option CloudDeletionOperation) :=
  transaction (
    versions ← lockDeletionOwner user cloud;
    prior ← replay_deletion user cloud key;
    mret (versions, prior)).

(** The last one. *)
Definition request_admission (producers : list string) (user cloud key : string) (versions : Z * Z)
    : Del CloudDeletionOperation :=
  transaction (
    current ← lockDeletionOwner user cloud;
    prior ← replay_deletion user cloud key;
    match prior with
    | Some prior => mret prior
    | None =>
        reject_if (negb (bool_decide (current = versions))) ErrConflict ;;
        cloudDeletionEmptyTx cloud ;;
        id ← del_uuid;
        cutoff ← clock_timestamp;
        s ← gets (λ s, s);
        let binding := mkBinding (mkScope cloud user versions.1) id (pg_timestamptz cutoff) in
        op ← insert_deletion (mkDeletion id cloud PhasePreparing [] (del_now s) (del_now s) user
               versions.1 versions.2 (pg_timestamptz cutoff)
               (request_digest binding versions.2 key) key);
        mapM (insert_participant id) (order_by String.leb producers) ;;
        deletionAudit op "requested" (Deletion_RequestSHA256 op) ;;
        mret op
    end).

(** The replay after a failed preflight. *)
Definition replay_same_request (user cloud key : string) : Del CloudDeletionOperation :=
  t ← gets del_tables;
  row_or ErrNotFound (head (filter (λ op, Deletion_CloudID op = cloud ∧ Deletion_Key op = key ∧
    Deletion_OwnerUserID op = user) (rows_of (dt_operations t)))).

(** ** Preparation and the close command *)

Definition recordDeletionHold (op : CloudDeletionOperation) (hold : CloudDeletionHold) : Del unit :=
  reject_if (negb (same_binding (Hold_Binding hold) op)
             || negb (Hold_AuthorizationVersion hold =? Deletion_AuthorizationVersion op + 1)
             || negb (Hold_Held hold) || negb (Hold_Empty hold)
             || negb (handoffEvidenceDigest (Hold_ReceiptSHA256 hold))) ErrHandoffUnavailable ;;
  transaction (
    lockDeletionOwner (Deletion_OwnerUserID op) (Deletion_CloudID op) ;;
    t ← gets del_tables;
    match dt_holds t !! (Deletion_ID op, Hold_Participant hold) with
    | Some old => reject_if (negb (bool_decide (old = Hold_ReceiptSHA256 hold))) ErrConflict
    | None =>
        inserted ← insert_hold (Deletion_ID op) (Hold_Participant hold) (Hold_ReceiptSHA256 hold);
        reject_if (negb inserted) ErrConflict ;;
        deletionAudit op "producer_held" (Hold_ReceiptSHA256 hold)
    end).

(** [jsonb_agg(jsonb_build_array(participant, receipt_sha256) ORDER BY participant)] *)
Definition hold_manifest (t : DeletionTables) (id : string) : any :=
  ASlice ((λ h : (string * string) * string, ASlice [AString h.1.2; AString h.2]) <$>
    order_by (λ a b, String.leb a.1.2 b.1.2)
      (filter (λ h, h.1.1 = id) (map_to_list (dt_holds t)))).

Definition prepareDeletionClose (op : CloudDeletionOperation) (receipt : string) : Del string :=
  let id := Deletion_ID op in
  transaction (
    versions ← lockDeletionOwner (Deletion_OwnerUserID op) (Deletion_CloudID op);
    reject_if (negb (versions.1 =? Deletion_OwnershipVersion op)) ErrConflict ;;
    current ← scan_deletion id;
    reject_if (negb (bool_decide (Deletion_Phase current = PhasePreparing ∨
                                  Deletion_Phase current = PhaseClosing))) ErrConflict ;;
    active ← attempt (activeDeletionClose id);
    match active with
    | Ok command => mret (Attempt_SHA command)
    | Err _ =>
        s ← gets (λ s, s);
        reject_if (negb (user_can_access_brand_cloud_without_handoff (del_registry s)
                           (Deletion_OwnerUserID op) (Deletion_CloudID op))) ErrDisabled ;;
        cloudDeletionEmptyTx (Deletion_CloudID op) ;;
        t ← gets del_tables;
        let sha := close_digest (Deletion_binding op) receipt (hold_manifest t id) in
        (if bool_decide (Deletion_Phase current = PhaseClosing)
         then insert_attempt id (mkAttempt receipt sha) else insert_command id (mkAttempt receipt sha)) ;;
        update_deletion id (λ op, bool_decide (Deletion_Phase op = PhasePreparing)) (λ _, PhaseClosing) [] ;;
        deletionAudit op "close_requested" sha ;;
        mret sha
    end).

(** ** Completion *)

Definition del_modify_registry (f : Registry → Registry) : Del unit :=
  modify (λ s, with_del_store (with_registry (f (registry (del_store s))) (del_store s)) s).

Definition with_access (orgs : gmap string Organization) (members : list Member)
    (assignments : list RoleAssignment) (tokens : gmap string TokenRow) (r : Registry) : Registry :=
  mkRegistry (users r) orgs members (roles r) assignments (device_item_profiles r)
    (brand_cloud_product_admissions r) (cloud_ownership_handoffs r) (cloud_deletion_operations r)
    (product_service_grants r) tokens (device_claims r) (factory_reservations r).

Definition coalesce_time (t : option Time) (now : Time) : option Time :=
  match t with Some t => Some t | None => Some now end.

Definition disable_member (cloud : string) (now : Time) (m : Member) : Member :=
  if bool_decide (Member_OrganizationID m = cloud)
  then mkMember (Member_OrganizationID m) (Member_UserID m) (Member_Role m) (Member_AccessScope m)
         (coalesce_time (Member_DisabledAt m) now)
  else m.

(** Every row fires [serialize_brand_cloud_membership_write], which changes the version of the cloud. *)
Definition disable_members (cloud : string) : Del unit :=
  s ← gets (λ s, s);
  let rows := filter (λ m, Member_OrganizationID m = cloud) (organization_members (del_registry s)) in
  (if bool_decide (rows = []) then mret tt else guard_tombstone cloud) ;;
  modify (λ s, let v := versions_of s cloud in
    set_versions cloud (v.1, v.2 + Z.of_nat (length rows)) s) ;;
  del_modify_registry (λ r, with_access (organizations r)
    (disable_member cloud (del_now s) <$> organization_members r) (role_assignments r)
    (device_claim_tokens r) r).

Definition cancel_pending (cloud : string) (rows : list (string * string)) : list (string * string) :=
  (λ row, if bool_decide (row = (cloud, "pending")) then (cloud, "canceled") else row) <$> rows.
Definition disable_mapping (cloud : string) (now : Time) (m : string * option Time)
    : string * option Time :=
  if bool_decide (m.1 = cloud) then (m.1, coalesce_time m.2 now) else m.
Definition cancel_invitations (cloud : string) : Del unit :=
  modify (λ s, let c := del_clouds s in
    with_del_clouds (mkCloudTables (ct_versions c) (cancel_pending cloud (ct_invitations c))
      (cancel_pending cloud (ct_transfers c))
      (disable_mapping cloud (del_now s) <$> ct_group_mappings c) (ct_production_runs c)) s).

Definition disable_assignment (cloud : string) (now : Time) (a : RoleAssignment) : RoleAssignment :=
  if bool_decide (ra_organization_id a = Some cloud)
  then mkRoleAssignment (ra_actor_type a) (ra_actor_id a) (ra_organization_id a) (ra_scope_type a)
         (ra_scope_id a) (ra_role_id a) (coalesce_time (ra_disabled_at a) now)
  else a.
Definition revoke_unclaimed (cloud : string) (now : Time) (row : TokenRow) : TokenRow :=
  let t := token_row row in
  if bool_decide (Token_OrganizationID t = Some cloud) && bool_decide (Token_ClaimedAt t = None)
  then mkTokenRow (token_update (Token_OrganizationID t) (Token_ClaimedAt t)
         (coalesce_time (Token_RevokedAt t) now) now t) (token_hash row)
  else row.
Definition revoke_access (cloud : string) : Del unit :=
  s ← gets (λ s, s);
  del_modify_registry (λ r, with_access (organizations r) (organization_members r)
    (disable_assignment cloud (del_now s) <$> role_assignments r)
    (revoke_unclaimed cloud (del_now s) <$> device_claim_tokens r) r).

Definition tombstoned (deletedAt : Time) (o : Organization) : Organization :=
  mkOrganization (Organization_ID o) (Organization_Name o) (Organization_Kind o) (Organization_Status o)
    (Organization_Tier o) (Organization_EvaluationDeviceQuota o) (Some deletedAt).

(** [UPDATE organizations SET deleted_at = $2, authorization_version = authorization_version + 1],
    with trigger [guard_cloud_deletion_tombstone]. *)
Definition set_tombstone (cloud : string) (deletedAt : Time) : Del unit :=
  s ← gets (λ s, s);
  match organizations (del_registry s) !! cloud with
  | None => mret tt
  | Some o =>
      guard_tombstone cloud ;;
      reject_if (is_brand_cloud o && negb (existsb (λ d,
          bool_decide (Deletion_CloudID d = cloud)
          && bool_decide (Deletion_Phase d = PhaseClosing ∨ Deletion_Phase d = PhaseCanceling)
          && bool_decide (completion_deleted_at <$> dt_completions (del_tables s) !! Deletion_ID d
                          = Some deletedAt)) (rows_of (dt_operations (del_tables s)))))
        (ErrPg "tombstone requires durable Billing closure evidence") ;;
      modify (λ s, let v := versions_of s cloud in set_versions cloud (v.1, v.2 + 1) s) ;;
      del_modify_registry (λ r, with_access (<[cloud := tombstoned deletedAt o]> (organizations r))
        (organization_members r) (role_assignments r) (device_claim_tokens r) r)
  end.

(** The deferred constraint [cloud_deletion_completion_consistency], at COMMIT. *)
Definition verify_completion (id : string) (deletedAt : Time) : Del unit :=
  s ← gets (λ s, s);
  let consistent :=
    match dt_operations (del_tables s) !! id with
    | Some op =>
        let cloud := Deletion_CloudID op in
        match organizations (del_registry s) !! cloud with
        | Some o =>
            bool_decide (Deletion_Phase op = PhaseSucceeded)
            && bool_decide (Organization_DeletedAt o = Some deletedAt)
            && bool_decide (cloud_products s cloud = []) && bool_decide (cloud_devices s cloud = [])
            && negb (existsb (λ m, bool_decide (Member_OrganizationID m = cloud)
                                   && bool_decide (Member_DisabledAt m = None))
                       (organization_members (del_registry s)))
            && negb (bool_decide ((cloud, "pending") ∈ ct_invitations (del_clouds s)))
        | None => false
        end
    | None => false
    end in
  reject_if (negb consistent) (ErrPg "incomplete cloud tombstone").

Definition valid_ack (op : CloudDeletionOperation) (ack : ClosureAcknowledgment) : bool :=
  bool_decide (CAck_OperationID ack = Deletion_ID op) && bool_decide (CAck_Phase ack = "closed")
  && negb (IsZero (CAck_ClosedAt ack)) && handoffEvidenceDigest (CAck_ReceiptSHA256 ack).

Definition completeDeletion (op : CloudDeletionOperation) (ack : ClosureAcknowledgment) : Del unit :=
  let id := Deletion_ID op in
  let cloud := Deletion_CloudID op in
  reject_if (negb (valid_ack op ack)) ErrHandoffUnavailable ;;
  transaction (
    current ← scan_deletion id;
    if bool_decide (Deletion_Phase current = PhaseSucceeded) then mret tt
    else
      reject_if (negb (bool_decide (Deletion_Phase current = PhaseClosing ∨
                                    Deletion_Phase current = PhaseCanceling))) ErrConflict ;;
      cloudDeletionEmptyTx cloud ;;
      deletedAt ← insert_completion id (CAck_ClosedAt ack) (CAck_ReceiptSHA256 ack);
      disable_members cloud ;;
      cancel_invitations cloud ;;
      revoke_access cloud ;;
      set_tombstone cloud deletedAt ;;
      update_deletion id (λ _, true) (λ _, PhaseSucceeded) [] ;;
      deletionAudit op "succeeded" (CAck_ReceiptSHA256 ack) ;;
      verify_completion id deletedAt).

(** ** Recovery *)

(** The transaction of [resolveDeletionClose] that records a retired command. *)
Definition record_retirement (op : CloudDeletionOperation) (command : deletionCloseAttempt)
    (receipt : string) (retired : Time) : Del unit :=
  transaction (
    t ← gets del_tables;
    match dt_retirements t !! (Deletion_ID op, Attempt_SHA command) with
    | Some prior => reject_if (negb (bool_decide (prior.1 = receipt))) ErrConflict
    | None =>
        insert_retirement (Deletion_ID op) (Attempt_SHA command) receipt retired ;;
        deletionAudit op "command_retired" receipt
    end).

(** The transaction of [RequestCloudDeletionCancellation]. *)
Definition cancellation_tx (op : CloudDeletionOperation) (user cloud : string)
    : Del CloudDeletionOperation :=
  transaction (
    versions ← lockDeletionOwner user cloud;
    reject_if (negb (versions.1 =? Deletion_OwnershipVersion op)) ErrConflict ;;
    op ← scan_deletion (Deletion_ID op);
    match Deletion_Phase op with
    | PhaseSucceeded => throw ErrConflict
    | PhaseCanceling | PhaseCanceled => mret op
    | _ =>
        id ← del_uuid;
        let sha := cancellation_digest (Deletion_binding op) id in
        insert_cancellation (Deletion_ID op) id sha ;;
        row ← update_deletion (Deletion_ID op) (λ _, true) (λ _, PhaseCanceling) [];
        op ← row_or ErrNotFound row;
        t ← clock_timestamp;
        tables (λ dt, set_jobs (alter (λ j,
          mkJob t (job_lease j) (job_attempts j) (job_generation j)) (Deletion_ID op) (dt_jobs dt)) dt) ;;
        deletionAudit op "cancellation_requested" sha ;;
        mret op
    end).

Definition recordDeletionRelease (op : CloudDeletionOperation) (participant sha : string) : Del unit :=
  let id := Deletion_ID op in
  reject_if (negb (handoffEvidenceDigest sha)) ErrHandoffUnavailable ;;
  transaction (
    t ← gets del_tables;
    match dt_releases t !! (id, participant) with
    | Some prior => reject_if (negb (bool_decide (prior = sha))) ErrConflict
    | None =>
        reject_if (negb (bool_decide (Deletion_Phase <$> dt_operations t !! id = Some PhaseCanceling)
                         && bool_decide (participant = "billing" ∨ (id, participant) ∈ dt_participants t)))
          ErrConflict ;;
        insert_release id participant sha ;;
        deletionAudit op "hold_released" sha
    end).

(** The last transaction of [advanceDeletionCancellation]. *)
Definition finish_cancellation (op : CloudDeletionOperation) (sha : string) : Del CloudDeletionOperation :=
  transaction (
    row ← update_deletion (Deletion_ID op)
            (λ op, bool_decide (Deletion_Phase op = PhaseCanceling ∨ Deletion_Phase op = PhaseCanceled))
            (λ _, PhaseCanceled) [];
    op ← row_or ErrNotFound row;
    deletionAudit op "canceled" sha ;;
    mret op).

(** Participants without a receipt, or without a release, in name order. *)
Definition missing_participants (receipts : DeletionTables → gmap (string * string) string) (id : string)
    : Del (list string) :=
  t ← gets del_tables;
  mret (order_by String.leb (filter (λ p, receipts t !! (id, p) = None) (participants_of t id))).

Definition load_cancellation (id : string) : Del (string * string) :=
  t ← gets del_tables; row_or ErrNoRows (dt_cancellations t !! id).

(** What [AdvanceCloudDeletion] keeps of a failed attempt. *)
Definition record_blockers (cloud operation : string) (blockers : list CloudBlocker) : Del unit :=
  transaction (
    update_deletion operation
      (λ op, bool_decide (Deletion_CloudID op = cloud)
             && negb (bool_decide (Deletion_Phase op = PhaseSucceeded ∨ Deletion_Phase op = PhaseCanceled)))
      Deletion_Phase blockers ;;
    mret tt).
