(* ===== verification/DeletionCoordinator.v ===== *)
(** * store/cloud_deletion.go, cloud_deletion_recovery.go: the coordinator of a deletion

    [AdvanceCloudDeletion] alternates transactions with calls to Billing and
    to the producers, and several workers may run it for one operation at the
    same time.  Its code is therefore a program of calls ([prog]): the tree of
    what it does next for every answer.  [run] executes a program alone;
    DeletionSaga.v interleaves programs call by call.

    Billing, the producers and the preflight observers are not part of the
    program: [Remote] has their operations on a state of their own. *)

From S2P Require Export DeletionStore.

Local Open Scope Z_scope.

(** ** store/cloud_deletion_preflight.go: what the observers answer *)

Record CloudDeletionResourceScope := mkResourceScope {
  RS_Scope : CloudDeletionScope;
  RS_AuthorizationVersion : Z;
}.

#[export] Instance CloudDeletionResourceScope_eq_dec : EqDecision CloudDeletionResourceScope.
Proof. solve_decision. Defined.

(** [Evidence_Blockers]: the nil slice is [None]. *)
Record CloudDeletionResourceEvidence := mkEvidence {
  Evidence_Scope : CloudDeletionResourceScope;
  Evidence_Complete : bool;
  Evidence_ReceiptID : string;
  Evidence_EvidenceSHA256 : string;
  Evidence_Blockers : option (list string);
  Evidence_ObservedAt : Time;
  Evidence_ExpiresAt : Time;
}.

(** billinghandoff.CloudDeletionPreflight *)
Record BillingPreflight := mkBillingPreflight {
  BP_Scope : CloudDeletionScope;
  BP_Eligible : bool;
  BP_Blockers : option (list string);
  BP_BalanceMinor : Z;
  BP_Currency : string;
  BP_ObservedAt : Time;
  BP_ExpiresAt : Time;
}.

(** ** Programs *)

Inductive call : Type → Type :=
  | Transact {A} (m : Del A) : call (res A)
  | Clock : call Time
  | DependencyErr : call (res unit) (* dependencyCtx.Err() *)
  | CloudDeletionPreflight_ (scope : CloudDeletionScope) : call (res BillingPreflight)
  | ObserveCloudDeletion (name : string) (scope : CloudDeletionResourceScope)
      : call (res CloudDeletionResourceEvidence)
  | PrepareCloudClosure (b : ClosureBinding) (sha : string) : call (res ClosureOperation)
  | CloudClosureStatus (b : ClosureBinding) : call (res ClosureStatus)
  | CloseCloud (b : ClosureBinding) (receipt sha : string) : call (res ClosureAcknowledgment)
  | RetireCloudClose (b : ClosureBinding) (receipt sha : string) : call (res CloseCommandResolution)
  | CancelCloudClosure (b : ClosureBinding) (id sha : string) : call (res ClosureOperation)
  | PrepareCloudDeletion (name : string) (b : ClosureBinding) (version : Z)
      : call (res CloudDeletionHold)
  | CancelCloudDeletion (name : string) (b : ClosureBinding) (version : Z) (id sha : string)
      : call (res CloudDeletionRelease).

Inductive prog (A : Type) :=
  | Done (a : A)
  | Call {X} (c : call X) (k : X → prog A).
Arguments Done {A} a.
Arguments Call {A X} c k.

Fixpoint prog_bind_ {A B} (f : A → prog B) (p : prog A) : prog B :=
  match p with
  | Done a => f a
  | Call c k => Call c (λ x, prog_bind_ f (k x))
  end.
#[export] Instance prog_ret : MRet prog := λ A a, Done a.
#[export] Instance prog_bind : MBind prog := @prog_bind_.

Definition perform {X} (c : call X) : prog X := Call c Done.

(** ** Configuration: [CloudDeletionOptions] *)

Record CloudDeletionOptions := mkDeletionOptions {
  opt_Producers : list string;
  opt_CancelProducers : list string; (* those that are CloudDeletionCancelProducer *)
  opt_RecoveryBilling : bool;        (* Billing is a CloudDeletionRecoveryBilling *)
  opt_recoveryOnly : bool;
}.

(** [CloudDeletionPreflightOptions]: the observers by name. *)
Record StoreOptions := mkStoreOptions {
  s_deletion : option CloudDeletionOptions;
  s_deletionPreflight : option (list string);
}.

(** [ConfigureCloudDeletion] and [ConfigureCloudDeletionRecovery]; [None] for a nil producer or
    Billing. *)
Definition ConfigureCloudDeletion (billing : option bool) (producers : list (string * option bool))
    (s : StoreOptions) : res StoreOptions :=
  match s_deletion s, s_deletionPreflight s, billing with
  | None, Some resources, Some recovery =>
      if bool_decide (producers = []) || negb (length producers =? length resources)%nat
         || negb (forallb (λ p, bool_decide (is_Some p.2) && bool_decide (p.1 ∈ resources)) producers)
      then Err ErrConflict
      else Ok (mkStoreOptions (Some (mkDeletionOptions producers.*1
                 (filter (λ p : string * option bool, p.2 = Some true) producers).*1 recovery false))
                (s_deletionPreflight s))
  | _, _, _ => Err ErrConflict
  end.

Definition ConfigureCloudDeletionRecovery (billing : option bool)
    (producers : list (string * option bool)) (s : StoreOptions) : res StoreOptions :=
  match s_deletion s, s_deletionPreflight s, billing with
  | None, None, Some true =>
      if negb (forallb (λ p, negb (bool_decide (p.1 = "billing")) && handoffParticipantName p.1
                             && bool_decide (p.2 = Some true)) producers)
      then Err ErrConflict
      else Ok (mkStoreOptions (Some (mkDeletionOptions producers.*1 producers.*1 true true)) None)
  | _, _, _ => Err ErrConflict
  end.

Definition ConfigureCloudDeletionPreflight (billing : bool) (resources : list (string * bool))
    (s : StoreOptions) : res StoreOptions :=
  if bool_decide (is_Some (s_deletionPreflight s)) || negb billing
     || negb (forallb (λ r, negb (bool_decide (r.1 = "billing")) && handoffParticipantName r.1 && r.2)
                resources)
  then Err ErrConflict
  else Ok (mkStoreOptions (s_deletion s) (Some resources.*1)).

(** ** Blockers *)

Definition closure_code (code : string) : string :=
  if bool_decide (code ∈ ["balance_negative"; "balance_positive"]) then "balance_nonzero"
  else if bool_decide (code = "usage_unsettled") then code
  else if bool_decide (code ∈ ["outstanding_debt"; "unpaid_invoices"]) then "debt_outstanding"
  else if bool_decide (code ∈ ["payments_pending"; "payment_setups_pending";
                               "provider_revocations_pending"]) then "payment_pending"
  else if bool_decide (code = "refunds_pending") then "refund_pending"
  else if bool_decide (code = "disputes_open") then "dispute_pending"
  else if bool_decide (code = "account_not_active") then "lifecycle_conflict"
  else "evidence_unavailable".

Fixpoint closure_blockers (codes seen : list string) : list CloudBlocker :=
  match codes with
  | [] => []
  | code :: codes =>
      let code := closure_code code in
      if bool_decide (code ∈ seen) then closure_blockers codes seen
      else mkBlocker code true None None :: closure_blockers codes (code :: seen)
  end.

Definition closureFinancialBlockers (codes : list string) : list CloudBlocker :=
  match closure_blockers codes [] with
  | [] => [mkBlocker "evidence_unavailable" true None None]
  | blockers => blockers
  end.

(** [errors.As] for the two error types with content. *)
Fixpoint as_blockers (err : error) : option (list CloudBlocker) :=
  match err with
  | ErrBlockers blockers => Some blockers
  | ErrWrap _ inner | ErrPublish inner _ => as_blockers inner
  | ErrJoin first second =>
      match as_blockers first with Some b => Some b | None => as_blockers second end
  | _ => None
  end.
Fixpoint as_http (err : error) : option (Z * string) :=
  match err with
  | ErrHTTP status code => Some (status, code)
  | ErrWrap _ inner | ErrPublish inner _ => as_http inner
  | ErrJoin first second => match as_http first with Some h => Some h | None => as_http second end
  | _ => None
  end.

(** A 409 that says the command will not close the account as it stands. *)
Definition close_rejected (err : error) : bool :=
  match as_http err with
  | Some (status, code) =>
      (status =? 409) && bool_decide (code ∈ ["BILLING_CLOSURE_NOT_READY"; "BILLING_CLOSURE_COMMAND_RETIRED"])
  | None => false
  end.

(** ** AdvanceCloudDeletion *)

(** [(CloudDeletionOperation, error)]: the zero operation is [None]. *)
Abbreviation outcome := (option CloudDeletionOperation * option error)%type.

Definition try_call {X} (op : CloudDeletionOperation) (c : call (res X)) (k : X → prog outcome)
    : prog outcome :=
  Call c (λ r, match r with Ok x => k x | Err err => Done (Some op, Some err) end).
Definition fail (op : CloudDeletionOperation) (err : error) : prog outcome := Done (Some op, Some err).

Definition load_outcome (cloud operation : string) : prog outcome :=
  Call (Transact (loadDeletion cloud operation)) (λ r,
    Done match r with Ok op => (Some op, None) | Err err => (None, Some err) end).

Section coordinator.
Context (deletion : CloudDeletionOptions).

Definition resolveDeletionClose (op : CloudDeletionOperation) (command : deletionCloseAttempt)
    : prog (res bool) :=
  if negb (opt_RecoveryBilling deletion) then Done (Err ErrHandoffUnavailable)
  else
    Call (RetireCloudClose (Deletion_binding op) (Attempt_Receipt command) (Attempt_SHA command)) (λ r,
      match r with
      | Err err => Done (Err err)
      | Ok out =>
          if negb (bool_decide (CR_OperationID out = Deletion_ID op))
             || negb (bool_decide (CR_SettlementID out = Attempt_Receipt command))
             || negb (bool_decide (CR_AMReadinessSHA256 out = Attempt_SHA command))
          then Done (Err ErrHandoffUnavailable)
          else if bool_decide (CR_Outcome out = "closed") then
            match CR_Acknowledgment out, CR_RetiredAt out with
            | Some ack, None =>
                if bool_decide (CR_ReceiptSHA256 out = "")
                then Call (Transact (completeDeletion op ack)) (λ r,
                       Done match r with Ok _ => Ok true | Err err => Err err end)
                else Done (Err ErrHandoffUnavailable)
            | _, _ => Done (Err ErrHandoffUnavailable)
            end
          else
            match CR_RetiredAt out, CR_Acknowledgment out with
            | Some retired, None =>
                if negb (bool_decide (CR_Outcome out = "retired")) || IsZero retired
                   || negb (handoffEvidenceDigest (CR_ReceiptSHA256 out))
                then Done (Err ErrHandoffUnavailable)
                else Call (Transact (record_retirement op command (CR_ReceiptSHA256 out) retired)) (λ r,
                       Done match r with Ok _ => Ok false | Err err => Err err end)
            | _, _ => Done (Err ErrHandoffUnavailable)
            end
      end).

Definition valid_release (op : CloudDeletionOperation) (id name : string) (out : CloudDeletionRelease)
    : bool :=
  same_binding (Release_Binding out) op && bool_decide (Release_CancellationID out = id)
  && bool_decide (Release_Participant out = name) && Release_Released out.

(** The releases of the producers, then what follows. *)
Fixpoint release_all (op : CloudDeletionOperation) (id sha : string) (names : list string)
    (k : prog outcome) : prog outcome :=
  match names with
  | [] => k
  | name :: names =>
      if negb (bool_decide (name ∈ opt_CancelProducers deletion)) then fail op ErrHandoffUnavailable
      else
        try_call op (CancelCloudDeletion name (Deletion_binding op) (Deletion_AuthorizationVersion op + 1) id sha) (λ out,
        if negb (valid_release op id name out) then fail op ErrHandoffUnavailable
        else try_call op (Transact (recordDeletionRelease op name (Release_ReceiptSHA256 out))) (λ _,
          release_all op id sha names k))
  end.

Definition valid_cancel_response (op : CloudDeletionOperation) (response : ClosureOperation) : bool :=
  bool_decide (CO_ID response = Deletion_ID op)
  && bool_decide (CO_OwnerUserID response = Deletion_OwnerUserID op)
  && (CO_OwnershipVersion response =? Deletion_OwnershipVersion op)
  && (bool_decide (CO_Phase response = "canceling") || bool_decide (CO_Phase response = "canceled")).

(** The rest of the cancellation, once no close command is open. *)
Definition cancel_holds (op : CloudDeletionOperation) : prog outcome :=
  try_call op (Transact (load_cancellation (Deletion_ID op))) (λ '(id, sha),
  try_call op (PrepareCloudClosure (Deletion_binding op) (Deletion_RequestSHA256 op)) (λ _,
  try_call op (CancelCloudClosure (Deletion_binding op) id sha) (λ response,
  if negb (valid_cancel_response op response) then fail op ErrHandoffUnavailable
  else
  try_call op (Transact (missing_participants dt_releases (Deletion_ID op))) (λ names,
  release_all op id sha names (
    if negb (bool_decide (CO_Phase response = "canceled")) then fail op ErrHandoffSnapshotNotReady
    else
    try_call op (Transact (recordDeletionRelease op "billing" (billing_release_digest id sha response))) (λ _,
    Call (Transact (finish_cancellation op sha)) (λ r,
      Done match r with
           | Ok op => (Some op, None)
           (* the statement itself was refused: nothing was scanned *)
           | Err ((ErrNotFound | ErrPg _) as err) => (None, Some err)
           | Err err => (Some op, Some err)
           end))))))).

Definition advanceDeletionCancellation (op : CloudDeletionOperation) : prog outcome :=
  if negb (opt_RecoveryBilling deletion) then fail op ErrHandoffUnavailable
  else
    Call (Transact (activeDeletionClose (Deletion_ID op))) (λ r,
      match r with
      | Ok command =>
          closed ← resolveDeletionClose op command;
          match closed with
          | Err err => fail op err
          | Ok true => load_outcome (Deletion_CloudID op) (Deletion_ID op)
          | Ok false => cancel_holds op
          end
      | Err ErrNotFound => cancel_holds op
      | Err err => fail op err
      end).

(** The producers that have not acknowledged, one after the other. *)
Fixpoint hold_all (op : CloudDeletionOperation) (names : list string) (k : prog outcome) : prog outcome :=
  match names with
  | [] => k
  | name :: names =>
      if negb (bool_decide (name ∈ opt_Producers deletion)) then fail op ErrHandoffUnavailable
      else
        try_call op (PrepareCloudDeletion name (Deletion_binding op) (Deletion_AuthorizationVersion op + 1)) (λ hold,
        if negb (bool_decide (Hold_Participant hold = name)) then fail op ErrHandoffUnavailable
        else try_call op (Transact (recordDeletionHold op hold)) (λ _, hold_all op names k))
  end.

(** Billing has settled the account: the receipt a close command is made of. *)
Definition closure_receipt (op : CloudDeletionOperation) (k : string → prog outcome) : prog outcome :=
  try_call op (CloudClosureStatus (Deletion_binding op)) (λ status,
  if negb (CS_Ready status) || bool_decide (CS_ReceiptID status = "")
  then fail op (ErrBlockers (closureFinancialBlockers (CS_Blockers status)))
  else k (CS_ReceiptID status)).

(** The command is durable: deliver it. *)
Definition close_and_complete (cloud operation : string) (op : CloudDeletionOperation)
    (command : deletionCloseAttempt) : prog outcome :=
  Call (CloseCloud (Deletion_binding op) (Attempt_Receipt command) (Attempt_SHA command)) (λ r,
    match r with
    | Err err =>
        if close_rejected err then
          closed ← resolveDeletionClose op command;
          match closed with
          | Err err => fail op err
          | Ok true => load_outcome cloud operation
          | Ok false => fail op ErrHandoffSnapshotNotReady
          end
        else fail op err
    | Ok ack =>
        try_call op (Transact (completeDeletion op ack)) (λ _, load_outcome cloud operation)
    end).

Definition close_phase (cloud operation : string) (op : CloudDeletionOperation) : prog outcome :=
  Call (Transact (activeDeletionClose (Deletion_ID op))) (λ r,
    match r with
    | Ok command => close_and_complete cloud operation op command
    | Err ErrNotFound =>
        closure_receipt op (λ receipt,
        try_call op (Transact (prepareDeletionClose op receipt)) (λ _,
        try_call op (Transact (activeDeletionClose (Deletion_ID op))) (λ command,
        close_and_complete cloud operation op command)))
    | Err err => fail op err
    end).

Definition valid_prepared (op : CloudDeletionOperation) (prepared : ClosureOperation) : bool :=
  bool_decide (CO_ID prepared = Deletion_ID op)
  && bool_decide (CO_OwnerUserID prepared = Deletion_OwnerUserID op)
  && (CO_OwnershipVersion prepared =? Deletion_OwnershipVersion op)
  && bool_decide (CO_Phase prepared = "preparing").

Definition prepare_phase (cloud operation : string) (op : CloudDeletionOperation) : prog outcome :=
  try_call op (PrepareCloudClosure (Deletion_binding op) (Deletion_RequestSHA256 op)) (λ prepared,
  if negb (valid_prepared op prepared) then fail op ErrHandoffUnavailable
  else
  try_call op (Transact (missing_participants dt_holds (Deletion_ID op))) (λ names,
  hold_all op names (
    closure_receipt op (λ receipt,
    try_call op (Transact (prepareDeletionClose op receipt)) (λ _,
    close_phase cloud operation op))))).
End coordinator.

Definition advanceCloudDeletion (s : StoreOptions) (cloud operation : string) : prog outcome :=
  Call (Transact (loadDeletion cloud operation)) (λ r,
    match r with
    | Err err => Done (None, Some err)
    | Ok op =>
        match Deletion_Phase op with
        | PhaseSucceeded | PhaseCanceled => Done (Some op, None)
        | phase =>
            match s_deletion s with
            | None => fail op ErrHandoffUnavailable
            | Some deletion =>
                match phase with
                | PhaseCanceling => advanceDeletionCancellation deletion op
                | PhasePreparing => prepare_phase deletion cloud operation op
                | _ => close_phase deletion cloud operation op
                end
            end
        end
    end).

Definition safe_blockers (err : error) : list CloudBlocker :=
  match as_blockers err with
  | Some blockers => blockers
  | None => [mkBlocker (if errors_Is err ErrCloudDeletionBlocked then "lifecycle_conflict"
                        else "evidence_unavailable") true None None]
  end.

Definition AdvanceCloudDeletion (s : StoreOptions) (cloud operation : string) : prog outcome :=
  result ← advanceCloudDeletion s cloud operation;
  match result with
  | (Some op, Some err) =>
      Call (Transact (record_blockers cloud operation (safe_blockers err))) (λ r,
        match r with
        | Err writeErr => Done (Some op, Some writeErr)
        | Ok _ =>
            Call (Transact (loadDeletion cloud operation)) (λ r,
              Done (match r with Ok current => Some current | Err _ => Some op end, Some err))
        end)
  | result => Done result
  end.

(** ** RequestCloudDeletionCancellation *)

Definition RequestCloudDeletionCancellation (user cloud operation : string)
    : prog (res CloudDeletionOperation) :=
  Call (Transact (loadDeletion cloud operation)) (λ r,
    match r with
    | Err err => Done (Err err)
    | Ok op =>
        if negb (bool_decide (Deletion_OwnerUserID op = user)) then Done (Err ErrNotFound)
        else perform (Transact (cancellation_tx op user cloud))
    end).
