(* ===== verification/DeletionPreflight.v ===== *)
(** * store/cloud_deletion_preflight.go and the request for a deletion

    The advisory check of a cloud (its own resources, Billing's evidence, the
    observers'), with the validation of that evidence, and
    [RequestDeveloperCloudDeletion], which runs the check between two
    transactions.  DeletionEvidence.v has the theorems. *)

From S2P Require Export DeletionCoordinator.

Local Open Scope Z_scope.

Definition CurrentCurrency : string := "TWD".

(** ** internal/billinghandoff/cloud_preflight.go *)

Definition billing_codes : list string :=
  ["balance_nonzero"; "usage_unsettled"; "debt_outstanding"; "payment_pending"; "refund_pending";
   "dispute_pending"; "evidence_unavailable"; "lifecycle_conflict"].

(** The loop over the blockers: known codes, none twice. *)
Fixpoint valid_codes (known : list string) (codes seen : list string) : bool :=
  match codes with
  | [] => true
  | code :: codes =>
      bool_decide (code ∈ known) && negb (bool_decide (code ∈ seen)) && valid_codes known codes (code :: seen)
  end.

(** [true] where the Go function returns nil. *)
Definition ValidateCloudDeletionPreflight (scope : CloudDeletionScope) (out : BillingPreflight)
    (now : Time) : bool :=
  match BP_Blockers out with
  | None => false
  | Some blockers =>
      bool_decide (BP_Scope out = scope) && bool_decide (BP_Currency out = CurrentCurrency)
      && bool_decide (BP_Eligible out = bool_decide (blockers = []))
      && negb (BP_Eligible out && negb (BP_BalanceMinor out =? 0))
      && negb (After (BP_ObservedAt out) now) && negb (Before (BP_ObservedAt out) (Add now (- (5 * Minute))))
      && After (BP_ExpiresAt out) now
      && negb (After (BP_ExpiresAt out) (Add (BP_ObservedAt out) (5 * Minute)))
      && valid_codes billing_codes blockers []
      && ((BP_BalanceMinor out =? 0) || bool_decide ("balance_nonzero" ∈ blockers))
  end.

(** ** The local snapshot *)

Record deletionLocalSnapshot := mkSnapshot {
  snap_scope : CloudDeletionResourceScope;
  snap_products : Z;
  snap_devices : Z;
  snap_jobs : Z;
  snap_lifecycleConflict : bool;
}.

Definition read_snapshot (userID cloudID : string) : Del deletionLocalSnapshot :=
  s ← gets (λ s, s);
  let r := del_registry s in
  let count {A} (rows : list A) := Z.of_nat (length rows) in
  row_or ErrNotFound
    (o ← organizations r !! cloudID;
     if existsb (is_owner_row cloudID userID) (organization_members r) && is_brand_cloud o
        && bool_decide (Organization_DeletedAt o = None)
        && user_can_access_brand_cloud_without_handoff r userID cloudID
     then
       let v := versions_of s cloudID in
       Some (mkSnapshot (mkResourceScope (mkScope cloudID userID v.1) v.2)
         (count (cloud_products s cloudID)) (count (cloud_devices s cloudID))
         (count (cloud_jobs s cloudID) + count (cloud_runs s cloudID))
         (handoff_in_progress r cloudID || deletion_in_progress r cloudID))
     else None).

(** ** The check *)

Record CloudDeletionPreflight := mkPreflight {
  Preflight_Eligible : bool;
  Preflight_Blockers : list CloudBlocker;
}.

(** [dependencyBlockers]: a map by code. *)
Abbreviation blockers := (gmap string CloudBlocker).

Definition add_blocker (code : string) (m : blockers) : blockers :=
  <[code := mkBlocker code
      (bool_decide (code ∈ ["evidence_unavailable"; "usage_unsettled"; "jobs_running"])) None None]> m.

Definition observer_codes : list string :=
  ["products_present"; "devices_present"; "jobs_running"; "lifecycle_conflict"; "evidence_unavailable"].

Definition valid_evidence (scope : CloudDeletionResourceScope) (e : CloudDeletionResourceEvidence)
    (now : Time) : option (list string) :=
  match Evidence_Blockers e with
  | None => None
  | Some codes =>
      if bool_decide (Evidence_Scope e = scope) && Evidence_Complete e
         && negb (bool_decide (Evidence_ReceiptID e = "")) && handoffEvidenceDigest (Evidence_EvidenceSHA256 e)
         && negb (After (Evidence_ObservedAt e) now)
         && negb (Before (Evidence_ObservedAt e) (Add now (- (5 * Minute))))
         && After (Evidence_ExpiresAt e) now
         && negb (After (Evidence_ExpiresAt e) (Add (Evidence_ObservedAt e) (5 * Minute)))
      then Some codes else None
  end.

Definition earlier (a : option Time) (b : Time) : option Time :=
  match a with Some a => Some (if Before b a then b else a) | None => Some b end.

Definition observer_blocker (m : blockers) (code : string) : blockers :=
  add_blocker (if bool_decide (code ∈ observer_codes) then code else "evidence_unavailable") m.

(** The loop over the observers: the blockers, and when the first evidence expires. *)
Fixpoint observe_all (scope : CloudDeletionResourceScope) (names : list string) (m : blockers)
    (expiry : option Time) : prog (blockers * option Time) :=
  match names with
  | [] => mret (m, expiry)
  | name :: names =>
      Call DependencyErr (λ live,
        match live with
        | Err _ => mret (add_blocker "evidence_unavailable" m, expiry)
        | Ok _ =>
            Call (ObserveCloudDeletion name scope) (λ r,
            Call Clock (λ now,
              match r with
              | Err _ => observe_all scope names (add_blocker "evidence_unavailable" m) expiry
              | Ok e =>
                  match valid_evidence scope e now with
                  | None => observe_all scope names (add_blocker "evidence_unavailable" m) expiry
                  | Some codes =>
                      observe_all scope names (foldl observer_blocker m codes)
                        (earlier expiry (Evidence_ExpiresAt e))
                  end
              end))
        end)
  end.

Definition local_blocker (entry : string * Z) (m : blockers) : blockers :=
  if (0 <? entry.2) && bool_decide (m !! entry.1 = None)
  then <[entry.1 := mkBlocker entry.1 (bool_decide (entry.1 = "jobs_running")) (Some entry.2) None]> m
  else m.

Definition set_balance (amount : Z) (m : blockers) : blockers :=
  let b := default (mkBlocker "" false None None) (m !! "balance_nonzero") in
  <["balance_nonzero" := mkBlocker (Blocker_Code b) (Blocker_Retryable b) (Blocker_Count b) (Some amount)]> m.

(** In the order they are reported in. *)
Definition reported_codes : list string :=
  ["products_present"; "devices_present"; "jobs_running"; "balance_nonzero"; "usage_unsettled";
   "debt_outstanding"; "payment_pending"; "refund_pending"; "dispute_pending"; "lifecycle_conflict";
   "evidence_unavailable"].

Definition expired (t : option Time) (now : Time) : bool :=
  match t with Some t => negb (After t now) | None => false end.

(** What the two snapshots and the dependencies' answers amount to; [now1] and [now2] are the two last
    readings of the clock. *)
Definition conclude (initial final : deletionLocalSnapshot) (financial : option BillingPreflight)
    (m : blockers) (expiry : option Time) (now1 now2 : Time) : CloudDeletionPreflight :=
  let changed := negb (bool_decide (snap_scope final = snap_scope initial)) in
  let m := if changed then add_blocker "evidence_unavailable" ∅ else m in
  let financial := if changed then None else financial in
  let m := if expired (BP_ExpiresAt <$> financial) now1 then add_blocker "evidence_unavailable" m else m in
  let m := if expired expiry now2 then add_blocker "evidence_unavailable" m else m in
  let m := local_blocker ("jobs_running", snap_jobs final)
             (local_blocker ("devices_present", snap_devices final)
               (local_blocker ("products_present", snap_products final) m)) in
  let m := if snap_lifecycleConflict final then add_blocker "lifecycle_conflict" m else m in
  let m := match financial with
           | Some f => if BP_BalanceMinor f =? 0 then m else set_balance (BP_BalanceMinor f) m
           | None => m
           end in
  let reported := omap (λ code, m !! code) reported_codes in
  mkPreflight (bool_decide (reported = [])) reported.

(** Billing's part: its answer when it is valid, with the blockers it names. *)
Definition billing_evidence (scope : CloudDeletionScope) (k : option BillingPreflight → blockers → prog (res CloudDeletionPreflight))
    : prog (res CloudDeletionPreflight) :=
  Call (CloudDeletionPreflight_ scope) (λ r,
    match r with
    | Err _ => k None (add_blocker "evidence_unavailable" ∅)
    | Ok result =>
        Call Clock (λ now,
          if ValidateCloudDeletionPreflight scope result now
          then k (Some result) (foldl (λ m code, add_blocker code m) ∅ (default [] (BP_Blockers result)))
          else k None (add_blocker "evidence_unavailable" ∅))
    end).

(** From the second snapshot on. *)
Definition recheck (userID cloudID : string) (initial : deletionLocalSnapshot)
    (financial : option BillingPreflight) (m : blockers) (expiry : option Time)
    : prog (res CloudDeletionPreflight) :=
  Call (Transact (read_snapshot userID cloudID)) (λ r,
    match r with
    | Err err => Done (Err err)
    | Ok final =>
        let skip := Done zero_time in
        now1 ← (if bool_decide (is_Some financial) && bool_decide (snap_scope final = snap_scope initial)
                then perform Clock else skip);
        now2 ← (if bool_decide (is_Some expiry) then perform Clock else skip);
        Done (Ok (conclude initial final financial m expiry now1 now2))
    end).

Definition PreflightDeveloperBrandCloudDeletion (s : StoreOptions) (userID cloudID : string)
    : prog (res CloudDeletionPreflight) :=
  Call (Transact (read_snapshot userID cloudID)) (λ r,
    match r with
    | Err err => Done (Err err)
    | Ok initial =>
        match s_deletionPreflight s with
        | None => recheck userID cloudID initial None (add_blocker "evidence_unavailable" ∅) None
        | Some resources =>
            billing_evidence (RS_Scope (snap_scope initial)) (λ financial m,
            let m := if bool_decide (resources = []) then add_blocker "evidence_unavailable" m else m in
            observed ← observe_all (snap_scope initial) (order_by String.leb resources) m None;
            recheck userID cloudID initial financial observed.1 observed.2)
        end
    end).

(** ** RequestDeveloperCloudDeletion *)

Definition RequestDeveloperCloudDeletion (s : StoreOptions) (user cloud key : string)
    : prog (res CloudDeletionOperation) :=
  if negb (ValidManagedCloudKey key) then Done (Err ErrInvalidManagedCloudWrite)
  else
    Call (Transact (request_replay user cloud key)) (λ r,
      match r with
      | Err err => Done (Err err)
      | Ok (_, Some prior) => Done (Ok prior)
      | Ok (versions, None) =>
          match s_deletion s with
          | None => Done (Err ErrHandoffUnavailable)
          | Some deletion =>
              if opt_recoveryOnly deletion then Done (Err ErrHandoffUnavailable)
              else
                preflight ← PreflightDeveloperBrandCloudDeletion s user cloud;
                match preflight with
                | Err err => Done (Err err)
                | Ok preflight =>
                    if Preflight_Eligible preflight
                    then perform (Transact (request_admission (opt_Producers deletion) user cloud key versions))
                    else
                      Call (Transact (replay_same_request user cloud key)) (λ r,
                        match r with
                        | Ok prior => perform (Transact (GetDeveloperCloudDeletion user cloud (Deletion_ID prior)))
                        | Err _ => Done (Err (ErrBlockers (Preflight_Blockers preflight)))
                        end)
                end
          end
      end).
