(* ===== verification/DeletionJobs.v ===== *)
(** * store/cloud_deletion_jobs.go: scheduling the coordinator

    A job per operation: leased by the database's clock, attempted by running
    the coordinator, and put back with a delay unless something woke it in the
    meantime.  A statement reads the clock once. *)

From S2P Require Export DeletionPreflight.

Local Open Scope Z_scope.

Record CloudDeletionJob := mkDeletionJob {
  Job_OperationID : string;
  Job_CloudID : string;
  Job_LeaseID : string;
  Job_Generation : Z;
  Job_Attempts : Z;
}.

#[export] Instance CloudDeletionJob_eq_dec : EqDecision CloudDeletionJob.
Proof. solve_decision. Defined.

Definition Millisecond : Z := 1000000.
(** [$2 * interval '1 millisecond'] for [d.Milliseconds()]. *)
Definition interval_ms (d : Z) : Z := Z.quot d Millisecond * Millisecond.

(** [j.available_at <= clock AND (j.lease_until IS NULL OR j.lease_until <= clock)] of an operation under
    way. *)
Definition job_ready (t : DeletionTables) (clock : Time) (id : string) (j : JobRow) : bool :=
  match dt_operations t !! id with
  | Some op =>
      negb (bool_decide (Deletion_Phase op = PhaseSucceeded ∨ Deletion_Phase op = PhaseCanceled))
      && (t_nanos (job_available_at j) <=? t_nanos clock)
      && match job_lease j with None => true | Some (_, until) => t_nanos until <=? t_nanos clock end
  | None => false
  end.

(** [ORDER BY available_at, operation_id] *)
Definition job_before (a b : string * JobRow) : bool :=
  let ta := t_nanos (job_available_at a.2) in
  let tb := t_nanos (job_available_at b.2) in
  (ta <? tb) || ((ta =? tb) && String.leb a.1 b.1).

Definition job_candidates (t : DeletionTables) (clock : Time) (limit_ : Z) : list (string * JobRow) :=
  limit limit_ (order_by job_before
    (filter (λ j, job_ready t clock j.1 j.2 = true) (map_to_list (dt_jobs t)))).

(** Lease the rows one after the other. *)
Fixpoint lease_jobs (until : Time) (rows : list (string * JobRow)) : Del (list CloudDeletionJob) :=
  match rows with
  | [] => mret []
  | (id, j) :: rows =>
      lease ← del_uuid;
      tables (λ t, set_jobs (<[id := mkJob (job_available_at j) (Some (lease, until)) (job_attempts j + 1)
                                       (job_generation j)]> (dt_jobs t)) t) ;;
      t ← gets del_tables;
      rest ← lease_jobs until rows;
      mret (mkDeletionJob id (default "" (Deletion_CloudID <$> dt_operations t !! id)) lease
              (job_generation j) (job_attempts j + 1) :: rest)
  end.

Definition ClaimCloudDeletionJobs (limit_ lease : Z) : Del (list CloudDeletionJob) :=
  reject_if ((limit_ <? 1) || (128 <? limit_) || (lease <? 30 * Second) || (5 * Minute <? lease))
    ErrConflict ;;
  transaction (
    clock ← clock_timestamp;
    t ← gets del_tables;
    lease_jobs (Add clock (interval_ms lease)) (job_candidates t clock limit_)).

(** The row of a job that is still this lease's. *)
Definition leased_job (t : DeletionTables) (clock : Time) (job : CloudDeletionJob) : option JobRow :=
  j ← dt_jobs t !! Job_OperationID job;
  op ← dt_operations t !! Job_OperationID job;
  match job_lease j with
  | Some (lease, until) =>
      if bool_decide (Deletion_CloudID op = Job_CloudID job) && bool_decide (lease = Job_LeaseID job)
         && (t_nanos clock <? t_nanos until) then Some j else None
  | None => None
  end.

Definition check_lease (job : CloudDeletionJob) : Del bool :=
  clock ← clock_timestamp;
  t ← gets del_tables;
  mret (bool_decide (is_Some (leased_job t clock job))).

Definition ProcessCloudDeletionJob (s : StoreOptions) (job : CloudDeletionJob) : prog outcome :=
  Call (Transact (check_lease job)) (λ r,
    match r with
    | Err err => Done (None, Some err)
    | Ok valid =>
        if valid : bool then AdvanceCloudDeletion s (Job_CloudID job) (Job_OperationID job)
        else Done (None, Some ErrHandoffLeaseLost)
    end).

Definition FinishCloudDeletionJob (job : CloudDeletionJob) (delay : Z) : Del bool :=
  reject_if ((delay <? 0) || (Hour <? delay)) ErrConflict ;;
  clock ← clock_timestamp;
  t ← gets del_tables;
  match leased_job t clock job with
  | Some j =>
      let available := if job_generation j =? Job_Generation job
                       then Add clock (interval_ms delay) else clock in
      tables (λ t, set_jobs (<[Job_OperationID job := mkJob available None (job_attempts j)
                                         (job_generation j)]> (dt_jobs t)) t) ;;
      mret true
  | None => mret false
  end.
