(* ===== verification/DeletionWorker.v ===== *)
(** * worker/clouddeletion/service.go: the worker that finishes deletions

    A round claims jobs and starts a goroutine for each: it runs the
    coordinator and puts the job back, with a delay that doubles.  A goroutine
    is a program of calls like the coordinator's ([job_goroutine]), so that
    DeletionSaga.v interleaves goroutines with everything else; the results
    arrive in any order.  The theorems: the options a service starts with, the
    delay in closed form, and that the statistics do not depend on the order. *)

From S2P Require Export DeletionJobs EmailWorker.

Local Open Scope Z_scope.

(** ** Options; durations are nanoseconds, 0 stands for the default *)

Record DeletionWorkerOptions := mkDeletionWorkerOptions {
  DW_PollInterval : Z;
  DW_LeaseDuration : Z;
  DW_StepTimeout : Z;
  DW_RetryBase : Z;
  DW_RetryMax : Z;
  DW_BatchSize : Z;
}.

Definition deletion_defaults (o : DeletionWorkerOptions) : DeletionWorkerOptions :=
  let or_default v d := if v =? 0 then d else v in
  mkDeletionWorkerOptions (or_default (DW_PollInterval o) (5 * Second))
    (or_default (DW_LeaseDuration o) (2 * Minute)) (or_default (DW_StepTimeout o) (45 * Second))
    (or_default (DW_RetryBase o) (5 * Second)) (or_default (DW_RetryMax o) (5 * Minute))
    (or_default (DW_BatchSize o) 10).

Definition deletion_options_ok (o : DeletionWorkerOptions) : bool :=
  negb ((DW_PollInterval o <=? 0) || (Minute <? DW_PollInterval o)
        || (DW_LeaseDuration o <? 30 * Second) || (5 * Minute <? DW_LeaseDuration o)
        || (DW_StepTimeout o <=? 0) || (DW_LeaseDuration o - 5 * Second <=? DW_StepTimeout o)
        || (DW_RetryBase o <=? 0) || (DW_RetryMax o <? DW_RetryBase o) || (Hour <? DW_RetryMax o)
        || (DW_BatchSize o <? 1) || (128 <? DW_BatchSize o)).

(** [repository]: whether a repository was passed. *)
Definition NewDeletionService (repository : bool) (o : DeletionWorkerOptions) : res DeletionWorkerOptions :=
  if negb repository then Err (ErrText "cloud deletion repository is required")
  else
    let o := deletion_defaults o in
    if deletion_options_ok o then Ok o
    else Err (ErrText "invalid cloud deletion worker timing or batch size").

(** ** The delay *)

(** The loop of [retryDelay], at most [fuel] times; [int64] arithmetic. *)
Fixpoint retry_loop (o : DeletionWorkerOptions) (fuel : nat) (i attempt delay : Z) : Z :=
  match fuel with
  | O => Z.min delay (DW_RetryMax o)
  | S fuel =>
      if (i <? attempt) && (delay <? DW_RetryMax o) then
        if Z.quot (DW_RetryMax o) 2 <? delay then DW_RetryMax o
        else retry_loop o fuel (i + 1) attempt (wrap64 (delay * 2))
      else Z.min delay (DW_RetryMax o)
  end.

Definition deletion_retryDelay (o : DeletionWorkerOptions) (attempt : Z) : Z :=
  retry_loop o (Z.to_nat attempt) 1 attempt (DW_RetryBase o).

(** ** A round *)

Record job_result := mkJobResult {
  result_completed : bool;
  result_lost : bool;
  result_err : option error;
}.

(** [op.State == "succeeded" || op.State == "canceled"] *)
Definition decided (op : option CloudDeletionOperation) : bool :=
  match op with
  | Some op => bool_decide (Deletion_State op = StateSucceeded ∨ Deletion_State op = StateCanceled)
  | None => false
  end.

(** The body of the goroutine; the context is the worker's own. *)
Definition job_goroutine (s : StoreOptions) (o : DeletionWorkerOptions) (job : CloudDeletionJob)
    : prog job_result :=
  result ← ProcessCloudDeletionJob s job;
  let '(op, err) := result in
  if match err with Some err => errors_Is err ErrHandoffLeaseLost | None => false end
  then Done (mkJobResult false true None)
  else
    Call DependencyErr (λ live,
      match live with
      | Err err => Done (mkJobResult false false (Some err))
      | Ok _ =>
          let completed := bool_decide (err = None) && decided op in
          let delay := if completed then 0 else deletion_retryDelay o (Job_Attempts job) in
          Call (Transact (FinishCloudDeletionJob job delay)) (λ r,
            Done match r with
                 | Ok applied => mkJobResult completed (negb applied) None
                 | Err err => mkJobResult completed false (Some err)
                 end)
      end).

(** What happens before the goroutines start. *)
Definition claim_round (o : DeletionWorkerOptions) : prog (res (list CloudDeletionJob)) :=
  Call DependencyErr (λ live,
    match live with
    | Err err => Done (Err err)
    | Ok _ => perform (Transact (ClaimCloudDeletionJobs (DW_BatchSize o) (DW_LeaseDuration o)))
    end).

Record DeletionStats := mkDeletionStats {
  DS_Claimed : Z;
  DS_Completed : Z;
  DS_Retrying : Z;
  DS_LeaseLost : Z;
}.

Definition count_result (r : job_result) (stats : DeletionStats) : DeletionStats :=
  if result_lost r
  then mkDeletionStats (DS_Claimed stats) (DS_Completed stats) (DS_Retrying stats) (DS_LeaseLost stats + 1)
  else if result_completed r
  then mkDeletionStats (DS_Claimed stats) (DS_Completed stats + 1) (DS_Retrying stats) (DS_LeaseLost stats)
  else mkDeletionStats (DS_Claimed stats) (DS_Completed stats) (DS_Retrying stats + 1) (DS_LeaseLost stats).

(** The loop that receives the results, in the order in which they arrive. *)
Fixpoint receive_jobs (results : list job_result) (stats : DeletionStats) (firstErr : option error)
    : DeletionStats * option error :=
  match results with
  | [] => (stats, firstErr)
  | r :: results =>
      match result_err r with
      | Some err => receive_jobs results stats (match firstErr with None => Some err | _ => firstErr end)
      | None => receive_jobs results (count_result r stats) firstErr
      end
  end.

(** What [RunOnce] returns, for the answer of the claim and the results as they arrive. *)
Definition deletion_RunOnce (claimed : res (list CloudDeletionJob)) (results : list job_result)
    : DeletionStats * option error :=
  match claimed with
  | Err err => (mkDeletionStats 0 0 0 0, Some err)
  | Ok jobs => receive_jobs results (mkDeletionStats (Z.of_nat (length jobs)) 0 0 0) None
  end.

(** ** Theorems *)

Lemma deletion_options_bounds o :
  deletion_options_ok o = true →
  0 < DW_PollInterval o ≤ Minute ∧ 30 * Second ≤ DW_LeaseDuration o ≤ 5 * Minute ∧
  0 < DW_StepTimeout o < DW_LeaseDuration o - 5 * Second ∧
  0 < DW_RetryBase o ≤ DW_RetryMax o ∧ DW_RetryMax o ≤ Hour ∧ 1 ≤ DW_BatchSize o ≤ 128.
Proof. unfold deletion_options_ok. intros H%negb_true_iff. rewrite !orb_false_iff in H. lia. Qed.

(** The delay at the top of the loop, and the one it ends with. *)
Lemma retry_loop_min o fuel i attempt delay :
  0 < delay → DW_RetryMax o ≤ Hour → attempt - i ≤ Z.of_nat fuel →
  retry_loop o fuel i attempt delay = Z.min (delay * 2 ^ Z.max (attempt - i) 0) (DW_RetryMax o).
Proof.
  unfold Hour, Minute, Second. intros Hd Hm. revert i delay Hd.
  induction fuel as [|fuel IH]; intros i delay Hd Hf; simpl.
  - rewrite Z.max_r by lia. by rewrite Z.pow_0_r, Z.mul_1_r.
  - destruct (Z.ltb_spec i attempt) as [Hi|Hi]; simpl.
    2: { rewrite Z.max_r by lia. by rewrite Z.pow_0_r, Z.mul_1_r. }
    rewrite (Z.max_l (attempt - i) 0) by lia.
    assert (2 ^ (attempt - i) = 2 * 2 ^ (attempt - (i + 1))) as Ep.
    { rewrite <-Z.pow_succ_r by lia. f_equal. lia. }
    assert (1 ≤ 2 ^ (attempt - (i + 1))) by (assert (0 < 2 ^ (attempt - (i + 1))) by (apply Z.pow_pos_nonneg; lia); lia).
    destruct (Z.ltb_spec delay (DW_RetryMax o)) as [Hlt|Hge]; [|rewrite Ep; nia].
    assert (DW_RetryMax o = 2 * Z.quot (DW_RetryMax o) 2 + Z.rem (DW_RetryMax o) 2) by (apply Z.quot_rem'; lia).
    assert (0 ≤ Z.rem (DW_RetryMax o) 2 < 2) by (apply Z.rem_bound_pos; lia).
    destruct (Z.ltb_spec (Z.quot (DW_RetryMax o) 2) delay); [rewrite Ep; nia|].
    rewrite wrap64_id by lia. rewrite IH by lia. rewrite Z.max_l by lia. rewrite Ep. f_equal. lia.
Qed.

(** For every service the constructor returns, the delay after attempt n is the base doubled
    n - 1 times and at most the maximum: the loop never overflows, the delay is positive and at most
    an hour, so putting a job back with it is never refused; and the claim's arguments are in the
    range the store accepts. *)
Theorem deletion_retryDelay_bounds (repository : bool) (o o' : DeletionWorkerOptions) (attempt : Z)
    (job : CloudDeletionJob) (s : DeletionDB) :
  NewDeletionService repository o = Ok o' →
  deletion_retryDelay o' attempt = Z.min (DW_RetryBase o' * 2 ^ Z.max (attempt - 1) 0) (DW_RetryMax o') ∧
  0 < deletion_retryDelay o' attempt ≤ Hour ∧
  (∃ applied s', FinishCloudDeletionJob job (deletion_retryDelay o' attempt) s = (Ok applied, s')) ∧
  1 ≤ DW_BatchSize o' ≤ 128 ∧ 30 * Second ≤ DW_LeaseDuration o' ≤ 5 * Minute.
Proof.
  unfold NewDeletionService. destruct repository; [simpl|done].
  destruct (deletion_options_ok (deletion_defaults o)) eqn:Eo; [|done]. intros [= <-].
  apply deletion_options_bounds in Eo as (_ & ? & _ & Hb & Hm & ?). set (o' := deletion_defaults o) in *.
  assert (deletion_retryDelay o' attempt = Z.min (DW_RetryBase o' * 2 ^ Z.max (attempt - 1) 0) (DW_RetryMax o')) as E.
  { apply retry_loop_min; lia. }
  assert (1 ≤ 2 ^ Z.max (attempt - 1) 0) by (assert (0 < 2 ^ Z.max (attempt - 1) 0) by (apply Z.pow_pos_nonneg; lia); lia).
  assert (0 < deletion_retryDelay o' attempt ≤ Hour) as Hr by (rewrite E; nia).
  split_and!; try done; try lia.
  unfold FinishCloudDeletionJob. rewrite bind_reject_run.
  assert ((deletion_retryDelay o' attempt <? 0) || (Hour <? deletion_retryDelay o' attempt) = false) as ->
    by (rewrite orb_false_iff; lia).
  unfold mbind at 1, M_bind, clock_timestamp. simpl.
  unfold mbind, M_bind, gets. simpl. destruct (leased_job _ _ _); eauto.
Qed.

Lemma deletion_retryDelay_bounds_witness :
  deletion_retryDelay (deletion_defaults (mkDeletionWorkerOptions 0 0 0 0 0 0)) 3 = 20 * Second.
Proof.
  rewrite (proj1 (deletion_retryDelay_bounds true (mkDeletionWorkerOptions 0 0 0 0 0 0) _ 3
    (mkDeletionJob "" "" "" 0 0) (mkDeletionDB sample_db (mkTables ∅ ∅ ∅ ∅ ∅ ∅ ∅ ∅ ∅ ∅)
      (mkCloudTables ∅ [] [] [] []) (λ _, sample_time) 0) eq_refl)).
  reflexivity.
Defined.

Definition failed (r : job_result) : bool :=
  match result_err r with Some _ => true | None => false end.

(** What the results add to the counters, and the number of those that failed. *)
Definition tally (results : list job_result) : Z * Z * Z * Z :=
  let count (f : job_result → bool) := Z.of_nat (length (List.filter f results)) in
  (count (λ r, negb (failed r) && negb (result_lost r) && result_completed r),
   count (λ r, negb (failed r) && negb (result_lost r) && negb (result_completed r)),
   count (λ r, negb (failed r) && result_lost r),
   count failed).

Lemma receive_jobs_tally results stats firstErr :
  receive_jobs results stats firstErr =
  (mkDeletionStats (DS_Claimed stats) (DS_Completed stats + (tally results).1.1.1)
     (DS_Retrying stats + (tally results).1.1.2) (DS_LeaseLost stats + (tally results).1.2),
   match firstErr with Some err => Some err | None => head (omap result_err results) end).
Proof.
  revert stats firstErr. induction results as [|[completed lost err] results IH]; intros stats firstErr; simpl.
  - destruct stats, firstErr; simpl; repeat f_equal; lia.
  - destruct err as [err|]; simpl; rewrite IH; unfold tally; simpl.
    + destruct firstErr; reflexivity.
    + destruct lost, completed; unfold count_result; simpl; f_equal; f_equal; lia.
Qed.

Lemma tally_perm results results' : results ≡ₚ results' → tally results = tally results'.
Proof.
  intros Hp. unfold tally.
  assert (∀ f, length (List.filter f results) = length (List.filter f results')) as E.
  { intros f. induction Hp; simpl; [done|destruct (f x); simpl; lia|destruct (f x), (f y); simpl; lia|lia]. }
  by rewrite !E.
Qed.

Lemma tally_sum results :
  (tally results).1.1.1 + (tally results).1.1.2 + (tally results).1.2 + (tally results).2 =
  Z.of_nat (length results).
Proof.
  unfold tally. induction results as [|[completed lost [err|]] results IH]; [done|..]; simpl in *;
    [|destruct lost, completed; simpl in *]; lia.
Qed.

(** A round's statistics and whether it fails do not depend on the order in which the goroutines
    finish; every job is counted exactly once, as completed, retrying, lost or failed; and the round
    reports an error if and only if some goroutine did. *)
Theorem deletion_round_accounted (jobs : list CloudDeletionJob) (results results' : list job_result) :
  results ≡ₚ results' → length results = length jobs →
  let '(stats, err) := deletion_RunOnce (Ok jobs) results in
  let '(stats', err') := deletion_RunOnce (Ok jobs) results' in
  stats' = stats ∧ (err' = None ↔ err = None) ∧
  (err = None ↔ Forall (λ r, result_err r = None) results) ∧
  DS_Completed stats + DS_Retrying stats + DS_LeaseLost stats +
    Z.of_nat (length (omap result_err results)) = DS_Claimed stats.
Proof.
  intros Hp Hl. unfold deletion_RunOnce. rewrite !receive_jobs_tally, <-(tally_perm _ _ Hp).
  cbn [DS_Claimed DS_Completed DS_Retrying DS_LeaseLost].
  assert (∀ l, head (omap result_err l) = None ↔ Forall (λ r, result_err r = None) l) as Hnone.
  { intros l. induction l as [|[c o [e|]] l IH]; simpl; [done|split; [done|by intros [? _]%Forall_cons]|].
    rewrite IH, Forall_cons. simpl. tauto. }
  split_and!; [done| |apply Hnone|].
  - rewrite !Hnone. by rewrite Hp.
  - pose proof (tally_sum results) as Hs. rewrite Hl in Hs.
    assert ((tally results).2 = Z.of_nat (length (omap result_err results))) as <-; [|lia].
    unfold tally. cbn [snd]. f_equal. clear.
    induction results as [|[c o [e|]] l IH]; [done| |exact IH]. exact (f_equal S IH).
Qed.

Lemma deletion_round_accounted_witness :
  let r := mkJobResult true false None in
  let r' := mkJobResult false true None in
  let jobs := [mkDeletionJob "1" "" "" 0 0; mkDeletionJob "2" "" "" 0 0] in
  (deletion_RunOnce (Ok jobs) [r'; r]).1 = (deletion_RunOnce (Ok jobs) [r; r']).1.
Proof.
  intros r r' jobs.
  exact (proj1 (deletion_round_accounted jobs [r; r'] [r'; r] (Permutation_swap r' r []) eq_refl)).
Defined.
