(* ===== verification/DeletionInvariants.v ===== *)
(** * What the deletion tables always satisfy

    Whatever sequence of transactions runs (with stale copies of the operation
    and arbitrary answers of the remote services as their arguments, failing
    or not), the evidence tables only grow, every operation follows the
    life cycle of its phases, and the phases it decides in have their
    evidence. *)

From S2P Require Export DeletionJobs Requests.

Local Open Scope Z_scope.

(** ** The life cycle of an operation *)

Definition phase_next (p q : DeletionPhase) : Prop := p ≠ q ∧ deletion_transition p q = true.

(** Identity never changes, and phases follow the life cycle. *)
Definition same_deletion (op op' : CloudDeletionOperation) : Prop :=
  Deletion_ID op' = Deletion_ID op ∧ Deletion_CloudID op' = Deletion_CloudID op ∧
  Deletion_OwnerUserID op' = Deletion_OwnerUserID op ∧
  Deletion_OwnershipVersion op' = Deletion_OwnershipVersion op ∧
  Deletion_AuthorizationVersion op' = Deletion_AuthorizationVersion op ∧
  Deletion_Cutoff op' = Deletion_Cutoff op ∧ Deletion_RequestSHA256 op' = Deletion_RequestSHA256 op ∧
  Deletion_Key op' = Deletion_Key op ∧ Deletion_CreatedAt op' = Deletion_CreatedAt op.

#[export] Instance same_deletion_equivalence : Equivalence same_deletion.
Proof. unfold same_deletion. split; red; naive_solver congruence. Qed.

Definition op_follows (op op' : CloudDeletionOperation) : Prop :=
  same_deletion op op' ∧ rtc phase_next (Deletion_Phase op) (Deletion_Phase op').

#[export] Instance op_follows_preorder : PreOrder op_follows.
Proof.
  unfold op_follows. split; [done|]. intros a b c [? ?] [? ?]. split; by etrans.
Qed.

Lemma final_phase p q : rtc phase_next p q → p = PhaseSucceeded ∨ p = PhaseCanceled → q = p.
Proof.
  intros H Hp. destruct H as [|p q r [Hne Hs] _]; [done|].
  unfold deletion_transition in Hs. destruct Hp as [-> | ->], q; done.
Qed.

(** Evidence is append-only, operations stay. *)
Record tables_evolve (t t' : DeletionTables) : Prop := {
  ev_operations id op : dt_operations t !! id = Some op →
    ∃ op', dt_operations t' !! id = Some op' ∧ op_follows op op';
  ev_participants : dt_participants t ⊆ dt_participants t';
  ev_holds : dt_holds t ⊆ dt_holds t';
  ev_commands : dt_commands t ⊆ dt_commands t';
  ev_attempts : dt_attempts t ⊆ dt_attempts t';
  ev_retirements : dt_retirements t ⊆ dt_retirements t';
  ev_cancellations : dt_cancellations t ⊆ dt_cancellations t';
  ev_releases : dt_releases t ⊆ dt_releases t';
  ev_completions : dt_completions t ⊆ dt_completions t';
  ev_frozen id sha : is_Some (dt_cancellations t !! id) →
    dt_attempts t' !! (id, sha) = dt_attempts t !! (id, sha);
  ev_new id op : dt_operations t' !! id = Some op → dt_operations t !! id = None →
    rtc phase_next PhasePreparing (Deletion_Phase op);
  ev_jobs id : is_Some (dt_jobs t !! id) → is_Some (dt_jobs t' !! id);
  ev_scheduled id : is_Some (dt_operations t' !! id) →
    is_Some (dt_operations t !! id) ∨ is_Some (dt_jobs t' !! id);
}.

#[export] Instance tables_evolve_preorder : PreOrder tables_evolve.
Proof.
  split.
  - intros t. split; [intros id op Hop; exists op; split; [done|reflexivity]|reflexivity..|congruence|done|tauto].
  - intros a b c [H1 ? ? ? ? ? Hc ? ? F1 N1 J1 S1] [H2 ? ? ? ? ? ? ? ? F2 N2 J2 S2].
    split; [|by etrans..| | |auto|].
    + intros id op Hop. destruct (H1 _ _ Hop) as (op1 & Hop1 & ?). destruct (H2 _ _ Hop1) as (op2 & ? & ?).
      exists op2. split; [done|by etrans].
    + intros id sha [x Hx]. rewrite F2, F1; eauto using lookup_weaken.
    + intros id op Hop Hnone. destruct (dt_operations b !! id) as [op1|] eqn:E; [|by eapply N2].
      destruct (H2 _ _ E) as (op2 & ? & _ & ?). simplify_eq. etrans; [by eapply N1|done].
    + intros id [H|?]%S2; [|by right]. apply S1 in H as [?|?]; [by left|right; auto].
Qed.

(** ** Evidence *)

Lemma elem_of_participants t id p : p ∈ participants_of t id ↔ (id, p) ∈ dt_participants t.
Proof.
  unfold participants_of. rewrite list_elem_of_fmap. split.
  - intros ([i q] & -> & [Hi He]%list_elem_of_filter). simpl in *. subst. by apply elem_of_elements.
  - intros H. exists (id, p). split; [done|]. apply list_elem_of_filter. split; [done|].
    by apply elem_of_elements.
Qed.

Lemma forallb_participants t id (f : string → bool) :
  forallb f (participants_of t id) = true ↔ ∀ p, (id, p) ∈ dt_participants t → f p = true.
Proof.
  rewrite forallb_Forall, Forall_forall. split; intros H p Hp; apply H; by apply elem_of_participants.
Qed.

Lemma held_by_all_spec t id :
  held_by_all t id = true ↔ ∀ p, (id, p) ∈ dt_participants t → is_Some (dt_holds t !! (id, p)).
Proof.
  unfold held_by_all. rewrite forallb_participants. split; intros H p Hp;
    [by eapply bool_decide_eq_true_1, H|by apply bool_decide_eq_true_2, H].
Qed.
Lemma released_by_all_spec t id :
  released_by_all t id = true ↔ ∀ p, (id, p) ∈ dt_participants t → is_Some (dt_releases t !! (id, p)).
Proof.
  unfold released_by_all. rewrite forallb_participants. split; intros H p Hp;
    [by eapply bool_decide_eq_true_1, H|by apply bool_decide_eq_true_2, H].
Qed.

Definition attempts_keyed (t : DeletionTables) : Prop :=
  map_Forall (λ k a, k = (attempt_operation a, Attempt_SHA (attempt_command a))) (dt_attempts t).

Lemma elem_of_open_attempts t id a :
  attempts_keyed t →
  a ∈ open_attempts t id ↔
  attempt_operation a = id ∧ dt_attempts t !! (id, Attempt_SHA (attempt_command a)) = Some a ∧
  dt_retirements t !! (id, Attempt_SHA (attempt_command a)) = None.
Proof.
  intros Hk. unfold open_attempts, attempts_of. rewrite !list_elem_of_filter, list_elem_of_fmap.
  unfold retired_attempt. rewrite bool_decide_eq_false, <-eq_None_not_Some. split.
  - intros (Hr & <- & [k a'] & -> & Hin%elem_of_map_to_list). simpl in *.
    pose proof (Hk _ _ Hin) as ->. done.
  - intros (<- & Ha & Hr). split_and!; [done..|]. exists ((attempt_operation a, Attempt_SHA (attempt_command a)), a).
    by rewrite elem_of_map_to_list.
Qed.

Lemma all_retired_spec t id :
  attempts_keyed t →
  all_retired t id = true ↔
  ∀ sha a, dt_attempts t !! (id, sha) = Some a → is_Some (dt_retirements t !! (id, sha)).
Proof.
  intros Hk. unfold all_retired. destruct (open_attempts t id) as [|a l] eqn:E; split; try done.
  - intros _ sha a Ha. pose proof (Hk _ _ Ha) as [= Hi Hs].
    destruct (dt_retirements t !! (id, sha)) eqn:Hr; [eauto|].
    assert (a ∈ open_attempts t id) as Hin; [|rewrite E in Hin; by apply not_elem_of_nil in Hin].
    apply elem_of_open_attempts; [done|]. by rewrite <-Hs.
  - intros H. assert (a ∈ open_attempts t id) as Hin by (rewrite E; left).
    apply elem_of_open_attempts in Hin as (_ & Ha & Hr); [|done]. apply H in Ha as [? ?]. congruence.
Qed.

Record close_ready (t : DeletionTables) (id : string) : Prop := {
  cr_command : is_Some (dt_commands t !! id);
  cr_someone : ∃ p, (id, p) ∈ dt_participants t;
  cr_held p : (id, p) ∈ dt_participants t → is_Some (dt_holds t !! (id, p));
}.

Lemma closing_evidence_spec t id : closing_evidence t id = true → close_ready t id.
Proof.
  unfold closing_evidence. intros H. destruct_bools. split; [done| |by apply held_by_all_spec].
  match goal with H : participants_of t id ≠ [] |- _ => revert H end.
  destruct (participants_of t id) as [|p l] eqn:E; [done|]. intros _. exists p.
  apply elem_of_participants. rewrite E. left.
Qed.

Record cancel_ready (t : DeletionTables) (id : string) : Prop := {
  cc_cancellation : is_Some (dt_cancellations t !! id);
  cc_open : dt_completions t !! id = None;
  cc_billing : is_Some (dt_releases t !! (id, "billing"));
  cc_released p : (id, p) ∈ dt_participants t → is_Some (dt_releases t !! (id, p));
  cc_retired sha a : dt_attempts t !! (id, sha) = Some a → is_Some (dt_retirements t !! (id, sha));
}.

(** What a phase needs. *)
Definition phase_evidence (t : DeletionTables) (id : string) (p : DeletionPhase) : Prop :=
  match p with
  | PhasePreparing => True
  | PhaseClosing => close_ready t id
  | PhaseCanceling => is_Some (dt_cancellations t !! id)
  | PhaseCanceled => cancel_ready t id
  | PhaseSucceeded => close_ready t id ∧ is_Some (dt_completions t !! id)
  end.

Record tables_ok (t : DeletionTables) : Prop := {
  ok_keyed : map_Forall (λ id op, Deletion_ID op = id) (dt_operations t);
  ok_active i j a b :
    dt_operations t !! i = Some a → dt_operations t !! j = Some b →
    Deletion_CloudID a = Deletion_CloudID b → Deletion_Phase a ≠ PhaseCanceled →
    Deletion_Phase b ≠ PhaseCanceled → i = j;
  ok_attempts : attempts_keyed t;
  ok_participants id : (id, "billing") ∉ dt_participants t;
  ok_one_open id sha sha' :
    is_Some (dt_attempts t !! (id, sha)) → dt_retirements t !! (id, sha) = None →
    is_Some (dt_attempts t !! (id, sha')) → dt_retirements t !! (id, sha') = None → sha = sha';
  ok_phase : map_Forall (λ id op, phase_evidence t id (Deletion_Phase op)) (dt_operations t);
}.

(** Evidence outlasts whatever does not take part in the operation: only a new participant or a new
    command could undo it. *)
Lemma phase_evidence_mono t t' id p :
  phase_evidence t id p →
  dt_holds t ⊆ dt_holds t' → dt_commands t ⊆ dt_commands t' → dt_retirements t ⊆ dt_retirements t' →
  dt_cancellations t ⊆ dt_cancellations t' → dt_releases t ⊆ dt_releases t' →
  dt_completions t ⊆ dt_completions t' →
  (p ≠ PhasePreparing → ∀ q, (id, q) ∈ dt_participants t ↔ (id, q) ∈ dt_participants t') →
  (p = PhaseCanceled → ∀ sha, dt_attempts t' !! (id, sha) = dt_attempts t !! (id, sha)) →
  (p = PhaseCanceled → dt_completions t' !! id = None) →
  phase_evidence t' id p.
Proof.
  assert (∀ {K A} `{Countable K} (m m' : gmap K A) k, m ⊆ m' → is_Some (m !! k) → is_Some (m' !! k)) as Hmono.
  { intros K A ? ? m m' k Hs [x Hx]. exists x. by eapply lookup_weaken. }
  intros He ? ? ? ? ? ? Hp Ha Hc.
  assert (p ≠ PhasePreparing → close_ready t id → close_ready t' id) as Hready.
  { intros Hne [Hcmd [q Hq] Hh]. split; [eauto|exists q; by apply Hp|]. intros q' Hq'. apply Hp in Hq'; eauto. }
  destruct p; simpl in *; try done; eauto.
  - destruct He as [? ? ? Hr Hret]. specialize (Ha eq_refl). specialize (Hc eq_refl).
    specialize (Hp ltac:(done)). split; [by eauto..|by eauto| |].
    + intros q Hq. apply Hp in Hq. eauto.
    + intros sha a. rewrite Ha. eauto.
  - destruct He. eauto.
Qed.

(** ** The relation every statement respects

    [closed], [canceled] and [retired] are what the remote answers allow a
    transaction to record. *)

Section statements.
Context (closed canceled : string → Prop) (retired : string → string → Prop) (commanded : string → Prop).

Record tables_add (t t' : DeletionTables) : Prop := {
  add_completion id : is_Some (dt_completions t' !! id) → is_Some (dt_completions t !! id) ∨ closed id;
  add_release id : is_Some (dt_releases t' !! (id, "billing")) →
    is_Some (dt_releases t !! (id, "billing")) ∨ canceled id;
  add_retirement id sha : is_Some (dt_retirements t' !! (id, sha)) →
    is_Some (dt_retirements t !! (id, sha)) ∨ retired id sha;
  add_attempt id sha : is_Some (dt_attempts t' !! (id, sha)) →
    is_Some (dt_attempts t !! (id, sha)) ∨ commanded id;
}.

#[local] Instance tables_add_preorder : PreOrder tables_add.
Proof.
  split; [split; tauto|].
  intros a b c [A1 A2 A3 A4] [B1 B2 B3 B4]. split.
  - intros id [?|?]%B1; auto.
  - intros id [?|?]%B2; auto.
  - intros id sha [?|?]%B3; auto.
  - intros id sha [?|?]%B4; auto.
Qed.

Definition tables_rel (t t' : DeletionTables) : Prop :=
  tables_ok t → tables_ok t' ∧ tables_evolve t t' ∧ tables_add t t'.
Definition del_rel (s s' : DeletionDB) : Prop := tables_rel (del_tables s) (del_tables s').

#[local] Instance tables_rel_preorder : PreOrder tables_rel.
Proof.
  split; [intros t Hok; split_and!; [done|reflexivity|reflexivity]|].
  intros a b c H1 H2 Ha. destruct (H1 Ha) as (Hb & ? & ?). destruct (H2 Hb) as (? & ? & ?).
  split_and!; [done|by etrans..].
Qed.
#[local] Instance del_rel_preorder : PreOrder del_rel.
Proof. split; [intros s; red; reflexivity|]. intros a b c. unfold del_rel. apply transitivity. Qed.

(** Nothing but the jobs changes. *)
Definition leaves_evidence {A} (m : Del A) : Prop :=
  ∀ s r s', m s = (r, s') → del_tables s' = del_tables s.

Lemma rel_leaves {A} (m : Del A) : leaves_evidence m → steps del_rel m.
Proof. intros H s r s' Hm%H. unfold del_rel. rewrite Hm. reflexivity. Qed.

Lemma leaves_gets {A} (f : DeletionDB → A) : leaves_evidence (gets f).
Proof. by intros s r s' [= _ <-]. Qed.
Lemma leaves_row {A} e (o : option A) : leaves_evidence (row_or e o).
Proof. destruct o; by intros s r s' [= _ <-]. Qed.
Lemma leaves_reject b e : leaves_evidence (reject_if b e).
Proof. destruct b; by intros s r s' [= _ <-]. Qed.
Lemma leaves_throw {A} e : leaves_evidence (throw (A:=A) e).
Proof. by intros s r s' [= _ <-]. Qed.
Lemma leaves_clock : leaves_evidence clock_timestamp.
Proof. by intros s r s' [= _ <-]. Qed.
Lemma leaves_store {A} (m : Store A) : leaves_evidence (on_store m).
Proof. intros s r s'. unfold on_store, zoom. destruct (m _). by intros [= _ <-]. Qed.
Lemma leaves_modify_store f : leaves_evidence (modify (λ s, with_del_store (f s) s)).
Proof. by intros s r s' [= _ <-]. Qed.
Lemma leaves_modify_clouds f : leaves_evidence (modify (λ s, with_del_clouds (f s) s)).
Proof. by intros s r s' [= _ <-]. Qed.
Lemma leaves_bind {A B} (m : Del A) (f : A → Del B) :
  leaves_evidence m → (∀ a, leaves_evidence (f a)) → leaves_evidence (m ≫= f).
Proof.
  intros Hm Hf s r s'. unfold mbind, M_bind. destruct (m s) as [[a|e] s1] eqn:E.
  - intros H. rewrite (Hf _ _ _ _ H). by eapply Hm.
  - intros [= _ <-]. by eapply Hm.
Qed.
Lemma leaves_ret {A} (a : A) : leaves_evidence (mret a).
Proof. by intros s r s' [= _ <-]. Qed.
Lemma leaves_attempt {A} (m : Del A) : leaves_evidence m → leaves_evidence (attempt m).
Proof.
  intros Hm s r s'. unfold attempt. destruct (m s) as [r1 s1] eqn:E. intros [= _ <-]. by eapply Hm.
Qed.
Lemma leaves_transaction {A} (m : Del A) : leaves_evidence m → leaves_evidence (transaction m).
Proof.
  intros Hm s r s'. unfold transaction. destruct (m s) as [[a|e] s1] eqn:E; intros [= _ <-]; [by eapply Hm|done].
Qed.
End statements.

#[export] Hint Resolve leaves_throw leaves_gets leaves_row leaves_reject leaves_clock leaves_store leaves_ret
  leaves_modify_store leaves_modify_clouds leaves_bind leaves_attempt leaves_transaction rel_leaves : rtk.

(** ** What each kind of write does to the tables *)

Section writes.
Context (closed canceled : string → Prop) (retired : string → string → Prop) (commanded : string → Prop).
#[local] Abbreviation rel := (tables_rel closed canceled retired commanded).
#[local] Abbreviation adds := (tables_add closed canceled retired commanded).

Lemma lookup_mono {K A} `{Countable K} (m m' : gmap K A) k : m ⊆ m' → m' !! k = None → m !! k = None.
Proof. intros Hs Hk. destruct (m !! k) eqn:E; [|done]. eapply lookup_weaken in E; [|done]. congruence. Qed.

(** Evidence other than participants and commands. *)
Lemma rel_grow t t' :
  dt_operations t' = dt_operations t → dt_participants t' = dt_participants t →
  dt_attempts t' = dt_attempts t →
  dt_holds t ⊆ dt_holds t' → dt_commands t ⊆ dt_commands t' → dt_retirements t ⊆ dt_retirements t' →
  dt_cancellations t ⊆ dt_cancellations t' → dt_releases t ⊆ dt_releases t' →
  dt_completions t ⊆ dt_completions t' →
  (∀ id op, dt_operations t !! id = Some op → Deletion_Phase op = PhaseCanceled →
     dt_completions t !! id = None → dt_completions t' !! id = None) →
  (∀ id, is_Some (dt_jobs t !! id) → is_Some (dt_jobs t' !! id)) →
  adds t t' → rel t t'.
Proof.
  intros Ho Hp Ha ? ? Hr ? ? ? Hc Hj Hadd Hok. split_and!; [|split; rewrite ?Ho, ?Hp, ?Ha; try done; try congruence; try tauto|done].
  2: { intros id op Hop. exists op. split; [done|reflexivity]. }
  destruct Hok as [Hk Hact Hat Hpa Hone Hph]. split; rewrite ?Ho; try done.
  - unfold attempts_keyed. by rewrite Ha.
  - by rewrite Hp.
  - rewrite Ha. intros id sha sha' A1 A2 A3 A4. eapply Hone; [done| |exact A3|];
      by eapply lookup_mono.
  - intros id op Hop. eapply phase_evidence_mono; [by apply Hph|done..| | |].
    + intros _ q. by rewrite Hp.
    + intros _ sha. by rewrite Ha.
    + intros Hcan. eapply Hc; [done..|]. specialize (Hph _ _ Hop); simpl in Hph; rewrite Hcan in Hph. apply Hph.
Qed.

Lemma adds_same t t' :
  dt_completions t' = dt_completions t → dt_releases t' = dt_releases t →
  dt_retirements t' = dt_retirements t → dt_attempts t' = dt_attempts t → adds t t'.
Proof. intros E1 E2 E3 E4. split; rewrite ?E1, ?E2, ?E3, ?E4; tauto. Qed.

Lemma rel_hold t id name receipt :
  dt_holds t !! (id, name) = None → rel t (set_holds (<[(id, name) := receipt]> (dt_holds t)) t).
Proof. intros. apply rel_grow; try done; [by apply insert_subseteq|by apply adds_same]. Qed.

Lemma rel_command t id command :
  dt_commands t !! id = None → rel t (set_commands (<[id := command]> (dt_commands t)) t).
Proof. intros. apply rel_grow; try done; [by apply insert_subseteq|by apply adds_same]. Qed.

Lemma rel_cancellation t id c :
  dt_cancellations t !! id = None → rel t (set_cancellations (<[id := c]> (dt_cancellations t)) t).
Proof. intros. apply rel_grow; try done; [by apply insert_subseteq|by apply adds_same]. Qed.

Lemma rel_retirement t id sha v :
  dt_retirements t !! (id, sha) = None → retired id sha →
  rel t (set_retirements (<[(id, sha) := v]> (dt_retirements t)) t).
Proof.
  intros Hn Hr. apply rel_grow; try done; [by apply insert_subseteq|]. split; simpl; try tauto.
  intros i h. rewrite lookup_insert_is_Some. intros [[= <- <-]|[_ ?]]; auto.
Qed.

Lemma rel_release t id name v :
  dt_releases t !! (id, name) = None → (name = "billing" → canceled id) →
  rel t (set_releases (<[(id, name) := v]> (dt_releases t)) t).
Proof.
  intros Hn Hr. apply rel_grow; try done; [by apply insert_subseteq|]. split; simpl; try tauto.
  intros i. rewrite lookup_insert_is_Some. intros [[= -> ->]|[_ ?]]; auto.
Qed.

Lemma rel_completion t id op v :
  dt_completions t !! id = None → dt_operations t !! id = Some op → Deletion_Phase op ≠ PhaseCanceled →
  closed id → rel t (set_completions (<[id := v]> (dt_completions t)) t).
Proof.
  intros Hn Hop Hph Hr. apply rel_grow; try done; [by apply insert_subseteq| |].
  - simpl. intros i op' Hop' Hcan Hi. rewrite lookup_insert_ne; [done|]. intros ->. congruence.
  - split; simpl; try tauto. intros i. rewrite lookup_insert_is_Some. intros [->|[_ ?]]; auto.
Qed.

Lemma rel_participant t id name op :
  dt_operations t !! id = Some op → Deletion_Phase op = PhasePreparing → name ≠ "billing" →
  rel t (set_participants ({[(id, name)]} ∪ dt_participants t) t).
Proof.
  intros Hop Hprep Hname Hok. split_and!; [|split; simpl; try done; try congruence; try tauto; [|set_solver]|by apply adds_same].
  2: { intros i o Ho. exists o. split; [done|reflexivity]. }
  destruct Hok as [Hk Hact Hat Hpa Hone Hph]. split; simpl; try done; [set_solver|].
  intros i o Ho. eapply phase_evidence_mono; [by apply Hph|done..| |done|].
  - simpl. intros Hne q. rewrite elem_of_union, elem_of_singleton. split; [tauto|].
    intros [[= -> ->]|?]; [|done]. congruence.
  - intros Hcan. specialize (Hph _ _ Ho); simpl in Hph; rewrite Hcan in Hph. apply Hph.
Qed.

Lemma rel_attempt t id op command created :
  dt_operations t !! id = Some op →
  Deletion_Phase op = PhasePreparing ∨ Deletion_Phase op = PhaseClosing →
  dt_cancellations t !! id = None → commanded id →
  all_retired t id = true → dt_attempts t !! (id, Attempt_SHA command) = None →
  rel t (set_attempts (<[(id, Attempt_SHA command) := mkAttemptRow id command created]> (dt_attempts t)) t).
Proof.
  intros Hop Hphase Hcan0 Hcom Hret Hn Hok.
  split_and!; [|split; simpl; try done; try congruence; try tauto; [|by apply insert_subseteq|]|split; simpl; try tauto].
  2: { intros i o Ho. exists o. split; [done|reflexivity]. }
  2: { intros i sha [? ?]. rewrite lookup_insert_ne; [done|]. intros [= -> _]. congruence. }
  2: { intros i sha. rewrite lookup_insert_is_Some. intros [[= <- _]|[_ ?]]; auto. }
  destruct Hok as [Hk Hact Hat Hpa Hone Hph].
  rewrite all_retired_spec in Hret by done.
  assert (∀ sha, is_Some (dt_attempts t !! (id, sha)) → dt_retirements t !! (id, sha) = None → False) as Hopen.
  { intros sha [a Ha] Hr. destruct (Hret _ _ Ha). congruence. }
  split; simpl; try done.
  - intros k a. simpl. rewrite lookup_insert_Some. intros [[<- <-]|[_ Ha]]; [done|by apply Hat].
  - intros i sha sha'. rewrite !lookup_insert_is_Some.
    intros [[= <- <-]|[_ H1]] H2 [[= E]|[_ H3]] H4; try done.
    + by destruct (Hopen sha').
    + subst. by destruct (Hopen sha).
    + by eapply Hone.
  - intros i o Ho. eapply phase_evidence_mono; [by apply Hph|done..| |].
    + simpl. intros Hcan sha. rewrite lookup_insert_ne; [done|]. intros [= -> _].
      destruct Hphase; congruence.
    + intros Hcan. specialize (Hph _ _ Ho); simpl in Hph; rewrite Hcan in Hph. apply Hph.
Qed.
End writes.

(** ** The statements *)

(** Run a short statement, with all its branches. *)
Ltac run_statement H :=
  unfold tables, touch_organization, guard_tombstone, clock_timestamp in H;
  unfold reject_if, row_or in H; unfold mbind, M_bind, mret, M_ret, gets, modify, throw in H; simpl in H;
  repeat (case_match; simpl in *; simplify_eq/=; try done); simplify_eq/=.

(** The next [reject_if] of a run. *)
Ltac reject_case H :=
  rewrite bind_reject_run in H;
  match type of H with (if ?b then _ else _) = _ => let E := fresh "E" in destruct b eqn:E end.

Section steps.
Context (closed canceled : string → Prop) (retired : string → string → Prop) (commanded : string → Prop).
#[local] Abbreviation R := (del_rel closed canceled retired commanded).
#[local] Abbreviation rel := (tables_rel closed canceled retired commanded).

#[local] Instance rel_pre : PreOrder rel := tables_rel_preorder closed canceled retired commanded.
#[local] Instance R_pre : PreOrder R := del_rel_preorder closed canceled retired commanded.

Lemma del_rel_tables s s' : rel (del_tables s) (del_tables s') → R s s'.
Proof. done. Qed.

Lemma steps_insert_hold id name receipt : steps R (insert_hold id name receipt).
Proof.
  intros s r s' H. unfold insert_hold in H. run_statement H; try reflexivity.
  apply del_rel_tables. simpl. apply rel_hold. destruct_bools. by apply eq_None_not_Some.
Qed.

Lemma steps_insert_attempt id command : commanded id → steps R (insert_attempt id command).
Proof.
  intros Hcom s r s' H. unfold insert_attempt in H. run_statement H; try reflexivity.
  all: apply del_rel_tables; simpl; destruct_bools; try reflexivity.
  all: eapply rel_attempt; try done; by apply eq_None_not_Some.
Qed.

Lemma steps_insert_command id command : commanded id → steps R (insert_command id command).
Proof.
  intros Hcom s r s' H. unfold insert_command in H. run_statement H; try reflexivity.
  eapply transitivity; [|by eapply steps_insert_attempt].
  apply del_rel_tables. simpl. apply rel_command. destruct_bools. by apply eq_None_not_Some.
Qed.

Lemma steps_insert_cancellation id c sha : steps R (insert_cancellation id c sha).
Proof.
  intros s r s' H. unfold insert_cancellation in H. run_statement H; try reflexivity.
  apply del_rel_tables. simpl. apply rel_cancellation. destruct_bools. by apply eq_None_not_Some.
Qed.

Lemma rel_jobs t v : (∀ id, is_Some (dt_jobs t !! id) → is_Some (v !! id)) → rel t (set_jobs v t).
Proof. intros. apply rel_grow; try done. by apply adds_same. Qed.

Lemma alter_keeps (f : JobRow → JobRow) i (m : gmap string JobRow) id :
  is_Some (m !! id) → is_Some (alter f i m !! id).
Proof. by rewrite lookup_alter_is_Some. Qed.
Lemma insert_keeps i (j : JobRow) (m : gmap string JobRow) id :
  is_Some (m !! id) → is_Some (<[i := j]> m !! id).
Proof. rewrite lookup_insert_is_Some'. tauto. Qed.

Lemma steps_alter_jobs f i : steps R (tables (λ t, set_jobs (alter f i (dt_jobs t)) t)).
Proof. intros s r s' [= _ <-]. apply del_rel_tables, rel_jobs, alter_keeps. Qed.
Lemma steps_insert_jobs i j : steps R (tables (λ t, set_jobs (<[i := j]> (dt_jobs t)) t)).
Proof. intros s r s' [= _ <-]. apply del_rel_tables, rel_jobs, insert_keeps. Qed.

Lemma steps_wake_job id : steps R (wake_job id).
Proof.
  intros s r s' H. unfold wake_job in H. run_statement H. apply del_rel_tables, rel_jobs, alter_keeps.
Qed.

Lemma steps_insert_retirement id sha receipt t :
  retired id sha → steps R (insert_retirement id sha receipt t).
Proof.
  intros Hr s r s' H. unfold insert_retirement in H. run_statement H; try reflexivity.
  eapply transitivity; [|by eapply steps_wake_job].
  apply del_rel_tables. simpl. apply rel_retirement; [|done]. destruct_bools. by apply eq_None_not_Some.
Qed.

Lemma steps_insert_release id name receipt :
  (name = "billing" → canceled id) → steps R (insert_release id name receipt).
Proof.
  intros Hr s r s' H. unfold insert_release in H. run_statement H; try reflexivity.
  eapply transitivity; [|by eapply steps_wake_job].
  apply del_rel_tables. simpl. apply rel_release; [|done]. destruct_bools. by apply eq_None_not_Some.
Qed.

(** *** Phases *)

Lemma phase_evidence_operations t v id p :
  phase_evidence t id p → phase_evidence (set_operations v t) id p.
Proof. intros He. eapply phase_evidence_mono; try done. by intros ->; apply He. Qed.

Lemma rel_update t id old new :
  dt_operations t !! id = Some old → same_deletion old new →
  deletion_transition (Deletion_Phase old) (Deletion_Phase new) = true →
  phase_evidence t id (Deletion_Phase new) →
  rel t (set_operations (<[id := new]> (dt_operations t)) t).
Proof.
  intros Hop Hsame Htr Hev Hok. split_and!; [|split; simpl; try done|by apply adds_same].
  - destruct Hok as [Hk Hact Hat Hpa Hone Hph]. split; simpl; try done.
    + intros i o. rewrite lookup_insert_Some. intros [[<- <-]|[_ ?]]; [|by apply Hk].
      destruct Hsame as [-> _]. by apply Hk.
    + assert (Deletion_Phase new ≠ PhaseCanceled → Deletion_Phase old ≠ PhaseCanceled) as Hlive.
      { intros Hn Ho. rewrite Ho in Htr. unfold deletion_transition in Htr. destruct (Deletion_Phase new); done. }
      destruct Hsame as (_ & Hcloud & _).
      intros i j a b. rewrite !lookup_insert_Some.
      intros [[<- <-]|[? Ha]] [[<- <-]|[? Hb]] Hc Hna Hnb; eauto; rewrite ?Hcloud in Hc; eauto.
    + intros i o. rewrite lookup_insert_Some. intros [[<- <-]|[_ Ho]].
      * by apply phase_evidence_operations.
      * by apply phase_evidence_operations, (Hph i o).
  - intros i o Ho. destruct (decide (i = id)) as [->|Hne].
    + rewrite Hop in Ho. injection Ho as <-. exists new. rewrite lookup_insert_eq. split; [done|]. split; [done|].
      destruct (decide (Deletion_Phase old = Deletion_Phase new)) as [->|?]; [done|]. by apply rtc_once.
    + exists o. rewrite lookup_insert_ne by done. split; [done|reflexivity].
  - intros i o. rewrite lookup_insert_Some. intros [[<- <-]|[_ ?]]; congruence.
  - intros i. rewrite lookup_insert_is_Some'. intros [<-|?]; left; eauto.
Qed.

Lemma required {P : Prop} `{Decision P} b : bool_decide P && negb b = false → P → b = true.
Proof. intros Hb Hp. rewrite bool_decide_eq_true_2 in Hb by done. by destruct b. Qed.

Lemma guard_phase_ok old new s u s' :
  guard_phase old new s = (Ok u, s') →
  s' = s ∧ deletion_transition (Deletion_Phase old) new = true ∧
  (attempts_keyed (del_tables s) → phase_evidence (del_tables s) (Deletion_ID old) new) ∧
  (new = PhaseSucceeded →
   succeeded_evidence (del_registry s) (del_tables s) (Deletion_ID old) (Deletion_CloudID old) = true).
Proof.
  unfold guard_phase. rewrite bind_gets_ok, !bind_reject_ok, reject_if_ok.
  intros (Htr & Hcl & Hca & Hcan & Hsu & ->). split; [done|]. destruct_bools. split; [done|].
  assert (new = PhaseCanceling ∨ new = PhaseCanceled →
    is_Some (dt_cancellations (del_tables s) !! Deletion_ID old) ∧
    dt_completions (del_tables s) !! Deletion_ID old = None) as Hcc.
  { intros Hn. rewrite bool_decide_eq_true_2 in Hca by done. simpl in Hca. destruct_bools.
    split; [by apply not_eq_None_Some|by apply eq_None_not_Some]. }
  split; [|by apply required].
  intros Hk. destruct new; simpl; try done.
  - apply closing_evidence_spec, (required _ Hcl). by left.
  - apply Hcc. by left.
  - destruct (Hcc (or_intror eq_refl)) as [? ?].
    pose proof (required _ Hcan eq_refl) as He. unfold canceled_evidence in He. destruct_bools.
    split; try done; [by apply released_by_all_spec|by apply all_retired_spec].
  - split; [apply closing_evidence_spec, (required _ Hcl); by right|].
    pose proof (required _ Hsu eq_refl) as He. unfold succeeded_evidence in He.
    by destruct (dt_completions _ !! _); [|done].
Qed.

Lemma bind_inv {A B} (m : Del A) (f : A → Del B) s r s' :
  (m ≫= f) s = (r, s') →
  (∃ a s1, m s = (Ok a, s1) ∧ f a s1 = (r, s')) ∨ (∃ e, m s = (Err e, s') ∧ r = Err e).
Proof. unfold mbind, M_bind. destruct (m s) as [[a|e] s1]; [eauto|]. intros [= <- <-]. eauto. Qed.

(** A first part that leaves the evidence alone. *)
Lemma rel_bind_leaves {A B} (m : Del A) (f : A → Del B) s r s' :
  leaves_evidence m → (m ≫= f) s = (r, s') →
  (∀ a s1, m s = (Ok a, s1) → del_tables s1 = del_tables s → f a s1 = (r, s') → R s1 s') → R s s'.
Proof.
  intros Hm H Hf. unfold mbind, M_bind in H. destruct (m s) as [[a|e] s1] eqn:E.
  - specialize (Hf _ _ eq_refl (Hm _ _ _ E) H). apply Hm in E. unfold del_rel in *. by rewrite <-E.
  - injection H as _ <-. by eapply rel_leaves.
Qed.

Lemma leaves_guard_tombstone org : leaves_evidence (guard_tombstone org).
Proof. unfold guard_tombstone. auto with rtk. Qed.
Lemma leaves_bump org : leaves_evidence (bump_authorization org).
Proof. apply leaves_bind; [apply leaves_guard_tombstone|intros _]. by intros s r s' [= _ <-]. Qed.
Lemma leaves_touch org : leaves_evidence (touch_organization org).
Proof. apply leaves_bind; [auto with rtk|intros _; apply leaves_guard_tombstone]. Qed.
Lemma leaves_if {A} (b : bool) (m n : Del A) :
  leaves_evidence m → leaves_evidence n → leaves_evidence (if b then m else n).
Proof. by destruct b. Qed.

Lemma bind_tables_run {B} f (k : unit → Del B) s :
  (tables f ≫= k) s = k tt (with_del_tables (f (del_tables s)) s).
Proof. done. Qed.

Lemma steps_update_deletion id guard phase blockers : steps R (update_deletion id guard phase blockers).
Proof.
  intros s r s' H. unfold update_deletion in H. rewrite bind_gets_run in H.
  destruct (dt_operations (del_tables s) !! id) as [old|] eqn:Hop; [|by injection H as _ <-].
  destruct (guard old); simpl in H; [|by injection H as _ <-].
  eapply rel_bind_leaves; [|exact H|]; [unfold guard_phase; auto 10 with rtk|]. clear H.
  intros [] s1 (-> & Htr & Hev & _)%guard_phase_ok _ H.
  eapply rel_bind_leaves; [|exact H|]; [apply leaves_if; [apply leaves_bump|apply leaves_ret]|]. clear H.
  intros [] s2 _ E2 H.
  eapply rel_bind_leaves; [|exact H|]; [apply leaves_if; [apply leaves_touch|apply leaves_ret]|]. clear H.
  intros [] s3 _ E3 H. rewrite E2 in E3. clear E2 s2.
  rewrite bind_tables_run in H.
  eapply transitivity; [|eapply (steps_bind R); [| |exact H]].
  - apply del_rel_tables. simpl. rewrite E3. intros Hok. assert (Deletion_ID old = id) as Hid by by apply Hok.
    rewrite Hid in Hev. pose proof (Hev (ok_attempts _ Hok)) as He. revert Hok.
    by eapply rel_update; [exact Hop|by repeat split|..].
  - destruct (bool_decide _); [apply steps_ret, _|apply steps_wake_job].
  - intros ?. apply steps_ret, _.
Qed.

(** *** A new operation *)

Lemma rel_insert t op j :
  dt_operations t !! Deletion_ID op = None → Deletion_Phase op = PhasePreparing →
  (∀ i d, dt_operations t !! i = Some d → Deletion_CloudID d = Deletion_CloudID op →
     Deletion_Phase d = PhaseCanceled) →
  rel t (set_jobs (<[Deletion_ID op := j]> (dt_jobs t))
    (set_operations (<[Deletion_ID op := op]> (dt_operations t)) t)).
Proof.
  intros Hnew Hprep Hfree Hok. split_and!; [|split; simpl; try done|by apply adds_same].
  - destruct Hok as [Hk Hact Hat Hpa Hone Hph]. split; simpl; try done.
    + intros i o. rewrite lookup_insert_Some. intros [[<- <-]|[_ ?]]; [done|by apply Hk].
    + intros i i' a b. rewrite !lookup_insert_Some.
      intros [[<- <-]|[? Ha]] [[<- <-]|[? Hb]] Hc Hna Hnb; eauto; exfalso; eauto.
    + intros i o. rewrite lookup_insert_Some. intros [[<- <-]|[_ Ho]]; [by rewrite Hprep|].
      eapply phase_evidence_mono; [by apply (Hph i o)|done..|].
      intros Hcan. specialize (Hph _ _ Ho); simpl in Hph; rewrite Hcan in Hph. apply Hph.
  - intros i o Ho. exists o. rewrite lookup_insert_ne; [split; [done|reflexivity]|congruence].
  - intros i o. rewrite lookup_insert_Some. intros [[<- <-]|[_ ?]]; [|congruence]. by rewrite Hprep.
  - intros i. apply insert_keeps.
  - intros i. rewrite !lookup_insert_is_Some'. tauto.
Qed.

(** The conditions of an insertion. *)
Lemma insert_deletion_ok op s r s' :
  insert_deletion op s = (r, s') →
  (del_tables s' = del_tables s ∧ ∃ e, r = Err e) ∨
  (r = Ok op ∧ insertable s op = true ∧
   dt_operations (del_tables s) !! Deletion_ID op = None ∧
   (∀ i d, dt_operations (del_tables s) !! i = Some d → Deletion_CloudID d = Deletion_CloudID op →
     Deletion_Phase d = PhaseCanceled) ∧
   del_tables s' = set_jobs (<[Deletion_ID op := mkJob (del_now s) None 0 0]> (dt_jobs (del_tables s)))
     (set_operations (<[Deletion_ID op := op]> (dt_operations (del_tables s))) (del_tables s))).
Proof.
  intros H. unfold insert_deletion in H. rewrite bind_gets_run, bind_reject_run in H.
  destruct (insertable s op) eqn:Hins; simpl in H; [|left; injection H as <- <-; eauto].
  apply bind_inv in H as [([] & s1 & Et%leaves_bump & H)|(e & Et%leaves_bump & ->)]; [|left; eauto].
  reject_case H; [injection H as <- <-; left; eauto|].
  rewrite bind_reject_run in H. case_bool_decide as Hid; [injection H as <- <-; left; eauto|].
  rewrite bind_reject_run in H. destruct (existsb _ _) eqn:Hone; [injection H as <- <-; left; eauto|].
  reject_case H; [injection H as <- <-; left; eauto|].
  rewrite !bind_tables_run in H. injection H as <- <-. right. simpl. rewrite Et.
  split_and!; [done|done|by apply eq_None_not_Some| |done].
  intros i d Hd Hcloud. destruct (decide (Deletion_Phase d = PhaseCanceled)) as [|Hlive]; [done|].
  rewrite <-not_true_iff_false, existsb_exists in Hone. destruct Hone. exists d.
  split; [apply list_elem_of_In, elem_of_rows_of; eauto|].
  by rewrite bool_decide_eq_true_2, bool_decide_eq_false_2.
Qed.

Lemma steps_insert_deletion op : Deletion_Phase op = PhasePreparing → steps R (insert_deletion op).
Proof.
  intros Hprep s r s' [[E _]|(_ & _ & Hnew & Hfree & E)]%insert_deletion_ok; unfold del_rel; rewrite E; [reflexivity|].
  by apply rel_insert.
Qed.

Lemma steps_del_transaction {A} (m : Del A) : steps R m → steps R (transaction m).
Proof.
  intros Hm s r s'. unfold transaction. destruct (m s) as [[a|e] s1] eqn:E; intros [= _ <-];
    [by eapply Hm|reflexivity].
Qed.

Lemma leaves_audit op action sha : leaves_evidence (deletionAudit op action sha).
Proof. apply leaves_store. Qed.
Lemma leaves_owner user cloud : leaves_evidence (lockDeletionOwner user cloud).
Proof. unfold lockDeletionOwner, getDeveloperUserTx. auto 10 with rtk. Qed.
Lemma leaves_replay user cloud key : leaves_evidence (replay_deletion user cloud key).
Proof.
  apply leaves_bind; [auto with rtk|]. intros t. destruct (prior_deletion _ _ _ _); auto with rtk.
Qed.
Lemma leaves_empty cloud : leaves_evidence (cloudDeletionEmptyTx cloud).
Proof. unfold cloudDeletionEmptyTx. auto with rtk. Qed.
Lemma leaves_active id : leaves_evidence (activeDeletionClose id).
Proof. unfold activeDeletionClose. auto with rtk. Qed.
Lemma leaves_scan id : leaves_evidence (scan_deletion id).
Proof. unfold scan_deletion. auto with rtk. Qed.
Lemma leaves_members cloud : leaves_evidence (disable_members cloud).
Proof.
  apply leaves_bind; [auto with rtk|intros s].
  apply leaves_bind; [apply leaves_if; [auto with rtk|apply leaves_guard_tombstone]|intros _].
  apply leaves_bind; [by intros s0 r s' [= _ <-]|intros _]. by intros s0 r s' [= _ <-].
Qed.
Lemma leaves_invitations cloud : leaves_evidence (cancel_invitations cloud).
Proof. by intros s r s' [= _ <-]. Qed.
Lemma leaves_access cloud : leaves_evidence (revoke_access cloud).
Proof. apply leaves_bind; [auto with rtk|intros s]. by intros s0 r s' [= _ <-]. Qed.
Lemma leaves_tombstone cloud t : leaves_evidence (set_tombstone cloud t).
Proof.
  apply leaves_bind; [auto with rtk|intros s]. destruct (organizations _ !! cloud) as [o|]; [|auto with rtk].
  apply leaves_bind; [apply leaves_guard_tombstone|intros _]. apply leaves_bind; [auto with rtk|intros _].
  apply leaves_bind; [by intros s0 r s' [= _ <-]|intros _]. by intros s0 r s' [= _ <-].
Qed.
Lemma leaves_verify id t : leaves_evidence (verify_completion id t).
Proof. unfold verify_completion. auto with rtk. Qed.
Lemma leaves_uuid : leaves_evidence del_uuid.
Proof. apply leaves_store. Qed.

#[local] Hint Resolve leaves_audit leaves_owner leaves_replay leaves_empty leaves_active leaves_scan
  leaves_members leaves_invitations leaves_access leaves_tombstone leaves_verify leaves_uuid : rtk.
#[local] Hint Resolve steps_alter_jobs steps_insert_jobs steps_insert_hold steps_insert_attempt steps_insert_command
  steps_insert_cancellation steps_insert_retirement steps_insert_release steps_update_deletion : rtk.

(** Statement after statement. *)
Ltac del_steps :=
  repeat first
    [ progress intros
    | solve [auto with rtk]
    | apply rel_leaves; solve [auto 10 with rtk]
    | lazymatch goal with |- steps _ (_ ≫= _) => apply steps_bind; [apply _| |] end
    | apply steps_del_transaction
    | match goal with |- steps _ (match ?x with _ => _ end) => destruct x end ].

(** *** The transactions *)

Lemma steps_hold op hold : steps R (recordDeletionHold op hold).
Proof. unfold recordDeletionHold. del_steps. Qed.
Lemma steps_prepare_close op receipt :
  commanded (Deletion_ID op) → steps R (prepareDeletionClose op receipt).
Proof. intros Hcom. unfold prepareDeletionClose. del_steps. Qed.

(** The participants of an operation are named while it is being prepared. *)
Lemma steps_participants id names s r s' :
  (∃ op, dt_operations (del_tables s) !! id = Some op ∧ Deletion_Phase op = PhasePreparing) →
  mapM (insert_participant id) names s = (r, s') → R s s'.
Proof.
  revert s r. induction names as [|name names IH]; intros s r (op & Hop & Hprep) H; [by injection H as _ <-|].
  simpl in H. apply bind_inv in H as [(a & s1 & H1 & H)|(e & H1 & _)].
  - assert (R s s1 ∧ dt_operations (del_tables s1) = dt_operations (del_tables s)) as [HR Ho].
    { unfold insert_participant in H1. rewrite bind_gets_run in H1. reject_case H1; [done|].
      reject_case H1; [done|]. injection H1 as _ <-. split; [|done].
      destruct_bools. apply del_rel_tables. by eapply rel_participant. }
    transitivity s1; [done|]. apply bind_inv in H as [(b & s2 & H2 & H)|(e & H2 & _)];
      [injection H as _ <-|]; (eapply IH; [|exact H2]); rewrite Ho; eauto.
  - unfold insert_participant in H1. rewrite bind_gets_run in H1.
    reject_case H1; [by injection H1 as _ <-|]. reject_case H1; [by injection H1 as _ <-|done].
Qed.

Lemma steps_admission producers user cloud key versions :
  steps R (request_admission producers user cloud key versions).
Proof.
  apply steps_del_transaction. apply steps_bind; [apply _|auto with rtk|]. intros current.
  apply steps_bind; [apply _|auto with rtk|]. intros [prior|]; [auto with rtk|].
  apply steps_bind; [apply _|auto with rtk|]. intros _.
  apply steps_bind; [apply _|auto with rtk|]. intros _.
  apply steps_bind; [apply _|auto with rtk|]. intros id.
  apply steps_bind; [apply _|auto with rtk|]. intros cutoff.
  intros s r s' H. rewrite bind_gets_run in H. cbv zeta in H.
  apply bind_inv in H as [(op & s1 & H1 & H)|(e & H1 & _)]; [|by eapply steps_insert_deletion in H1].
  transitivity s1; [by eapply steps_insert_deletion in H1|].
  apply insert_deletion_ok in H1 as [[_ [? ?]]|(Hr & _ & _ & _ & E)]; [done|]. injection Hr as ->.
  apply bind_inv in H as [(names & s2 & H2 & H)|(e & H2 & _)].
  - transitivity s2.
    + eapply steps_participants; [|exact H2]. rewrite E. simpl. eexists. by rewrite lookup_insert_eq.
    + eapply rel_leaves; [|exact H]. auto with rtk.
  - eapply steps_participants; [|exact H2]. rewrite E. simpl. eexists. by rewrite lookup_insert_eq.
Qed.

Lemma steps_completion id v receipt s r s' :
  closed id → (∃ op, dt_operations (del_tables s) !! id = Some op ∧ Deletion_Phase op ≠ PhaseCanceled) →
  insert_completion id v receipt s = (r, s') → R s s'.
Proof.
  intros Hc (op & Hop & Hph) H. unfold insert_completion in H.
  run_statement H; try (apply del_rel_tables; simpl; reflexivity).
  apply del_rel_tables. simpl. destruct_bools. eapply rel_completion; [|done..]. by apply eq_None_not_Some.
Qed.

Lemma steps_complete op ack : closed (Deletion_ID op) → steps R (completeDeletion op ack).
Proof.
  intros Hc. apply steps_bind; [apply _|auto with rtk|]. intros _. apply steps_del_transaction.
  intros s r s' H. apply bind_inv in H as [(current & s1 & H1 & H)|(e & H1 & _)];
    [|by eapply rel_leaves, H1; auto with rtk].
  unfold scan_deletion in H1. apply bind_gets_ok, row_or_ok in H1 as [Hop ->].
  case_bool_decide; [by injection H as _ <-|]. reject_case H; [by injection H as _ <-|].
  eapply rel_bind_leaves; [|exact H|]; [auto with rtk|]. clear H. intros [] s1 _ Et H.
  apply bind_inv in H as [(deleted & s2 & H2 & H)|(e & H2 & _)].
  - transitivity s2.
    + eapply steps_completion; [done| |exact H2]. rewrite Et. eexists. split; [done|]. destruct_bools. naive_solver congruence.
    + revert H. generalize r. assert (steps R (disable_members (Deletion_CloudID op) ;; cancel_invitations (Deletion_CloudID op) ;; revoke_access (Deletion_CloudID op) ;; set_tombstone (Deletion_CloudID op) deleted ;; update_deletion (Deletion_ID op) (λ _, true) (λ _, PhaseSucceeded) [] ;; deletionAudit op "succeeded" (CAck_ReceiptSHA256 ack) ;; verify_completion (Deletion_ID op) deleted)) as Hs by del_steps.
      intros r0 H. by eapply Hs.
  - eapply steps_completion; [done| |exact H2]. rewrite Et. eexists. split; [done|]. destruct_bools. naive_solver congruence.
Qed.

Lemma steps_retirement op command receipt t :
  retired (Deletion_ID op) (Attempt_SHA command) → steps R (record_retirement op command receipt t).
Proof. intros Hr. unfold record_retirement. del_steps. Qed.

Lemma steps_cancel op user cloud : steps R (cancellation_tx op user cloud).
Proof. unfold cancellation_tx. del_steps. Qed.

Lemma steps_release op participant sha :
  (participant = "billing" → canceled (Deletion_ID op)) → steps R (recordDeletionRelease op participant sha).
Proof. intros Hr. unfold recordDeletionRelease. del_steps. Qed.

Lemma steps_finish op sha : steps R (finish_cancellation op sha).
Proof. unfold finish_cancellation. del_steps. Qed.

Lemma steps_blockers cloud operation blockers : steps R (record_blockers cloud operation blockers).
Proof. unfold record_blockers. del_steps. Qed.
(** *** The jobs *)

Lemma steps_lease until rows : steps R (lease_jobs until rows).
Proof. induction rows as [|[id j] rows IH]; simpl; del_steps. Qed.

Lemma steps_claim limit_ lease : steps R (ClaimCloudDeletionJobs limit_ lease).
Proof. unfold ClaimCloudDeletionJobs. del_steps. apply steps_lease. Qed.

Lemma steps_check job : steps R (check_lease job).
Proof. unfold check_lease. del_steps. Qed.

Lemma steps_finish_job job delay : steps R (FinishCloudDeletionJob job delay).
Proof. unfold FinishCloudDeletionJob. del_steps. Qed.
End steps.

(** ** The transaction that makes the close command durable *)

(** The first part of a successful run, when it leaves the evidence alone. *)
Lemma leaves_bind_ok {A B} (m : Del A) (f : A → Del B) s b s' :
  leaves_evidence m → (m ≫= f) s = (Ok b, s') →
  ∃ a s1, m s = (Ok a, s1) ∧ del_tables s1 = del_tables s ∧ f a s1 = (Ok b, s').
Proof. intros Hm (a & s1 & H & Hf)%bind_ok. exists a, s1. split_and!; [done|by eapply Hm|done]. Qed.

Lemma update_deletion_operations id guard phase blockers s row s' :
  update_deletion id guard phase blockers s = (Ok row, s') →
  match dt_operations (del_tables s) !! id with
  | Some old =>
      if guard old
      then row = Some (deletion_set (phase old) blockers (del_now s) old) ∧
        dt_operations (del_tables s') =
          <[id := deletion_set (phase old) blockers (del_now s) old]> (dt_operations (del_tables s))
      else row = None ∧ s' = s
  | None => row = None ∧ s' = s
  end.
Proof.
  unfold update_deletion. rewrite bind_gets_run.
  destruct (dt_operations (del_tables s) !! id) as [old|] eqn:Hop; [|by intros [= <- <-]].
  destruct (guard old); simpl; [|by intros [= <- <-]].
  intros (? & s1 & _ & E1 & H)%leaves_bind_ok; [|unfold guard_phase; auto 10 with rtk].
  apply leaves_bind_ok in H as (? & s2 & _ & E2 & H); [|apply leaves_if; [apply leaves_bump|apply leaves_ret]].
  apply leaves_bind_ok in H as (? & s3 & _ & E3 & H); [|apply leaves_if; [apply leaves_touch|apply leaves_ret]].
  rewrite bind_tables_run in H. apply bind_ok in H as ([] & s4 & H & [= <- <-]). split; [done|].
  assert (dt_operations (del_tables s4) = dt_operations (del_tables (with_del_tables
    (set_operations (<[id := deletion_set (phase old) blockers (del_now s) old]>
       (dt_operations (del_tables s3))) (del_tables s3)) s3))) as ->.
  { destruct (bool_decide _); [by injection H as <-|]. unfold wake_job in H. by run_statement H. }
  simpl. by rewrite E3, E2, E1.
Qed.

Lemma insert_attempt_operations id command s u s' :
  insert_attempt id command s = (Ok u, s') →
  dt_operations (del_tables s') = dt_operations (del_tables s).
Proof. unfold insert_attempt. intros H. by run_statement H. Qed.
Lemma insert_command_operations id command s u s' :
  insert_command id command s = (Ok u, s') →
  dt_operations (del_tables s') = dt_operations (del_tables s).
Proof.
  unfold insert_command. rewrite bind_gets_ok, bind_reject_ok, bind_tables_run.
  by intros [_ ->%insert_attempt_operations].
Qed.

(** Once it has run the operation is closing, unless it found a command to deliver. *)
Lemma prepare_close_phase op receipt s sha s' :
  prepareDeletionClose op receipt s = (Ok sha, s') →
  del_tables s' = del_tables s ∨
  ∃ current, dt_operations (del_tables s') !! Deletion_ID op = Some current ∧
    Deletion_Phase current = PhaseClosing.
Proof.
  unfold prepareDeletionClose. cbv zeta. rewrite transaction_ok. intros H.
  apply leaves_bind_ok in H as (versions & s1 & _ & E1 & H); [|apply leaves_owner].
  rewrite bind_reject_ok in H. destruct H as [_ H].
  apply leaves_bind_ok in H as (current & s2 & Hcur & E2 & H); [|apply leaves_scan].
  unfold scan_deletion in Hcur. apply bind_gets_ok, row_or_ok in Hcur as [Hcur ->].
  rewrite bind_reject_ok in H. destruct H as [Hphase H].
  apply leaves_bind_ok in H as (active & s3 & _ & E3 & H); [|apply leaves_attempt, leaves_active].
  destruct active as [command|e]; [left; injection H as _ <-; congruence|right].
  rewrite bind_gets_ok, bind_reject_ok in H. destruct H as [_ H].
  apply leaves_bind_ok in H as (? & s4 & _ & E4 & H); [|apply leaves_empty].
  rewrite bind_gets_ok in H. cbv zeta in H.
  apply bind_ok in H as ([] & s5 & Hins & H).
  assert (dt_operations (del_tables s5) = dt_operations (del_tables s1)) as E5.
  { rewrite <-E3, <-E4. case_bool_decide; [by eapply insert_attempt_operations|by eapply insert_command_operations]. }
  apply bind_ok in H as (row & s6 & Hup%update_deletion_operations & H).
  apply leaves_bind_ok in H as (? & s7 & _ & E7 & [= _ <-]); [|apply leaves_audit].
  rewrite E7. rewrite E5, Hcur in Hup. case_bool_decide as Hprep.
  - destruct Hup as [_ ->]. eexists. by rewrite lookup_insert_eq.
  - destruct Hup as [_ ->]. rewrite E5. exists current. split; [done|]. destruct_bools. naive_solver.
Qed.
