(* ===== verification/DeletionSaga.v ===== *)
(** * Coordinators, Billing and everything else, interleaved

    Programs run call by call, in any order and number, each call committing,
    failing, or committing with its answer lost; a process may stop between two
    calls; Billing and the producers act by their contract ([Billing]), also on
    their own (requests that arrive late).  Here is the invariant of every
    world such a system reaches; what follows from it is in DeletionAgreement.v. *)

From S2P Require Export DeletionInvariants DeletionWorker.

Local Open Scope Z_scope.

(** ** Billing's contract *)

(** The close command a call delivers, if it delivers one. *)
Definition close_command {X} (c : call X) : option (string * string) :=
  match c with
  | CloseCloud b _ sha => Some (CB_OperationID b, sha)
  | _ => None
  end.

(** What a Billing service and the producers do, and the promises the program relies on: an account
    closes by a command it has received, that nobody retired, and that was not canceled before; what
    Billing says has happened.  [received] counts the requests still on their way. *)
Class Billing (B : Type) := {
  answer {X} : call X → B → X → B → Prop;
  drift : B → B → Prop;
  billing_ok : B → Prop;
  closed_by : B → string → option string; (* the command, by its readiness digest *)
  canceled_at : B → string → bool;
  retired_at : B → string → string → Prop;
  received : B → string → string → Prop;
  grows (b b' : B) := billing_ok b' ∧
    (∀ id sha, closed_by b id = Some sha → closed_by b' id = Some sha) ∧
    (∀ id, canceled_at b id = true → canceled_at b' id = true) ∧
    (∀ id sha, retired_at b id sha → retired_at b' id sha);
  law_answer {X} (c : call X) b x b' : billing_ok b → answer c b x b' →
    grows b b' ∧
    (∀ id sha, received b' id sha → received b id sha ∨ close_command c = Some (id, sha));
  law_drift b b' : billing_ok b → drift b b' →
    grows b b' ∧ (∀ id sha, received b' id sha → received b id sha);
  law_closed b id sha : billing_ok b → closed_by b id = Some sha →
    received b id sha ∧ canceled_at b id = false ∧ ¬ retired_at b id sha;
  law_acknowledged binding receipt sha b ack b' : billing_ok b →
    answer (CloseCloud binding receipt sha) b (Ok ack) b' →
    is_Some (closed_by b' (CB_OperationID binding));
  law_resolved binding receipt sha b out b' : billing_ok b →
    answer (RetireCloudClose binding receipt sha) b (Ok out) b' →
    (CR_Outcome out = "closed" → is_Some (closed_by b' (CB_OperationID binding))) ∧
    (CR_Outcome out = "retired" → retired_at b' (CB_OperationID binding) sha);
  law_canceled binding id sha b response b' : billing_ok b →
    answer (CancelCloudClosure binding id sha) b (Ok response) b' →
    CO_Phase response = "canceled" → canceled_at b' (CB_OperationID binding) = true;
}.

(** ** The world *)

Section saga.
Context {B : Type} `{!Billing B}.

Record core := mkCore { c_db : DeletionDB; c_remote : B }.
#[local] Abbreviation tabs w := (del_tables (c_db w)).

(** One call.  A transaction that fails for reasons of its own (the connection, the deadline) may
    still have been committed. *)
Definition called {X} (c : call X) (w : core) : X → core → Prop :=
  match c in call X return X → core → Prop with
  | Transact m => λ x w', ∃ r s', m (c_db w) = (r, s') ∧ c_remote w' = c_remote w ∧
      ((x = r ∧ c_db w' = s') ∨ ∃ t, x = Err (ErrText t) ∧ (c_db w' = s' ∨ c_db w' = c_db w))
  | c => λ x w', c_db w' = c_db w ∧ answer c (c_remote w) x (c_remote w')
  end.

Inductive thread :=
  | Thread {A} (p : prog A).

(** What processes start. *)
Inductive work :=
  | ProcessJob (s : StoreOptions) (job : CloudDeletionJob)
  | WorkerJob (s : StoreOptions) (o : DeletionWorkerOptions) (job : CloudDeletionJob)
  | RequestDeletion (s : StoreOptions) (user cloud key : string)
  | RequestCancellation (user cloud operation : string)
  | ClaimJobs (limit lease : Z)
  | FinishJob (job : CloudDeletionJob) (delay : Z)
  | OtherRequest (q : request).

Definition program (k : work) : thread :=
  match k with
  | ProcessJob s job => Thread (ProcessCloudDeletionJob s job)
  | WorkerJob s o job => Thread (job_goroutine s o job)
  | RequestDeletion s user cloud key => Thread (RequestDeveloperCloudDeletion s user cloud key)
  | RequestCancellation user cloud operation => Thread (RequestCloudDeletionCancellation user cloud operation)
  | ClaimJobs limit lease => Thread (perform (Transact (ClaimCloudDeletionJobs limit lease)))
  | FinishJob job delay => Thread (perform (Transact (FinishCloudDeletionJob job delay)))
  | OtherRequest q => Thread (perform (Transact (on_store (handle q))))
  end.

Record world := mkWorld { w_core : core; w_threads : list thread }.

Inductive world_step : world → world → Prop :=
  | world_spawn w ts k : world_step (mkWorld w ts) (mkWorld w (program k :: ts))
  | world_call w ts1 ts2 A X (c : call X) (k : X → prog A) x w' :
      called c w x w' →
      world_step (mkWorld w (ts1 ++ Thread (Call c k) :: ts2)) (mkWorld w' (ts1 ++ Thread (k x) :: ts2))
  | world_crash w ts1 ts2 t : world_step (mkWorld w (ts1 ++ t :: ts2)) (mkWorld w (ts1 ++ ts2))
  | world_drift s b ts b' :
      drift b b' → world_step (mkWorld (mkCore s b) ts) (mkWorld (mkCore s b') ts).

(** ** The invariant *)

Definition closed (w : core) (id : string) : Prop := is_Some (closed_by (c_remote w) id).

Record saga_inv (w : core) : Prop := {
  inv_tables : tables_ok (tabs w);
  inv_billing : billing_ok (c_remote w);
  inv_completion id : is_Some (dt_completions (tabs w) !! id) → closed w id;
  inv_release id : is_Some (dt_releases (tabs w) !! (id, "billing")) → canceled_at (c_remote w) id = true;
  inv_retirement id sha : is_Some (dt_retirements (tabs w) !! (id, sha)) → retired_at (c_remote w) id sha;
  inv_received id sha : received (c_remote w) id sha → is_Some (dt_attempts (tabs w) !! (id, sha));
  inv_started id sha : is_Some (dt_attempts (tabs w) !! (id, sha)) →
    ∃ op, dt_operations (tabs w) !! id = Some op ∧ Deletion_Phase op ≠ PhasePreparing;
}.

Definition evolves (w w' : core) : Prop :=
  saga_inv w → saga_inv w' ∧ tables_evolve (tabs w) (tabs w') ∧ grows (c_remote w) (c_remote w').

#[export] Instance evolves_preorder : PreOrder evolves.
Proof.
  split.
  - intros w Hw. split_and!; [done|reflexivity|]. split_and!; [apply Hw|done..].
  - intros a b c H1 H2 Ha. destruct (H1 Ha) as (Hb & ? & G1). destruct (H2 Hb) as (? & ? & G2).
    split_and!; [done|by etrans|]. unfold grows in *. destruct G1 as (? & ? & ? & ?), G2 as (? & ? & ? & ?).
    split_and!; eauto.
Qed.

(** ** Single calls *)

Definition sound {X} (c : call X) (w : core) : Prop := ∀ x w', called c w x w' → evolves w w'.

(** No close command can be accepted any more. *)
Definition halted (w : core) (id : string) : Prop :=
  is_Some (dt_cancellations (tabs w) !! id) ∧
  ∀ sha, is_Some (dt_attempts (tabs w) !! (id, sha)) → is_Some (dt_retirements (tabs w) !! (id, sha)).

(** A producer is released only then. *)
Definition permitted {X} (c : call X) (w : core) : Prop :=
  match c with
  | CancelCloudDeletion _ b _ _ _ => halted w (CB_OperationID b)
  | _ => True
  end.

Lemma phase_not_back p q : rtc phase_next p q → p ≠ PhasePreparing → q ≠ PhasePreparing.
Proof.
  induction 1 as [|p q r [Hne Hs] _ IH]; [done|]. intros Hp. apply IH.
  unfold deletion_transition in Hs. by destruct p, q.
Qed.

(** What a transaction has to respect, at this state of Billing. *)
#[local] Abbreviation del_rel_at w commanded :=
  (del_rel (closed w) (λ id, canceled_at (c_remote w) id = true) (retired_at (c_remote w)) commanded).
#[local] Existing Instance tables_rel_preorder.

Lemma run_evolves (w : core) s' commanded :
  del_rel_at w commanded (c_db w) s' →
  (∀ id, commanded id → ∃ op, dt_operations (del_tables s') !! id = Some op ∧ Deletion_Phase op ≠ PhasePreparing) →
  evolves w (mkCore s' (c_remote w)).
Proof.
  intros Hrel Hcom [Hok Hb Hc Hr Ht Hrec Hst]. destruct (Hrel Hok) as (Hok' & He & [A1 A2 A3 A4]).
  split_and!; [|done|done..]. split; simpl; try done.
  - intros id [?|?]%A1; [by apply Hc|done].
  - intros id [?|?]%A2; [by apply Hr|done].
  - intros id sha [?|?]%A3; [by apply Ht|done].
  - intros id sha [a Ha]%Hrec. exists a. eapply lookup_weaken; [done|apply He].
  - intros id sha [H|H]%A4; [|by apply Hcom].
    apply Hst in H as (op & Hop & Hph). destruct (ev_operations _ _ He _ _ Hop) as (op' & ? & _ & ?).
    exists op'. split; [done|]. by eapply phase_not_back.
Qed.

(** Whatever the answer to a transaction is, the state is one of two. *)
Lemma sound_run {A} (m : Del A) w :
  (∀ r s', m (c_db w) = (r, s') → evolves w (mkCore s' (c_remote w))) → sound (Transact m) w.
Proof.
  intros H x [s b] (r & s' & Hm & Hb & Hx). simpl in *. subst b.
  destruct Hx as [[_ ->]|(t & _ & [-> | ->])]; [by eapply H..|]. destruct w. reflexivity.
Qed.

Lemma sound_steps {A} (m : Del A) w : steps (del_rel_at w (λ _, False)) m → sound (Transact m) w.
Proof. intros Hm. apply sound_run. intros r s' H%Hm. by eapply run_evolves. Qed.

Lemma sound_prepare_close op receipt w : sound (Transact (prepareDeletionClose op receipt)) w.
Proof.
  apply sound_run. intros [sha|e] s' H.
  - pose proof (prepare_close_phase _ _ _ _ _ H) as [E|(cur & Hcur & Hph)].
    + eapply (run_evolves _ _ (λ _, False)); [|done]. unfold del_rel. rewrite E. reflexivity.
    + eapply (run_evolves _ _ (λ i, i = Deletion_ID op)); [by eapply steps_prepare_close|].
      intros ? ->. exists cur. by rewrite Hph.
  - unfold prepareDeletionClose in H. cbv zeta in H. apply transaction_err in H as ->. destruct w. reflexivity.
Qed.

(** A call to a service. *)
Definition remote_call {X} (c : call X) : bool :=
  match c with Transact _ => false | _ => true end.

Lemma called_remote {X} (c : call X) w x w' :
  remote_call c = true → called c w x w' →
  c_db w' = c_db w ∧ answer c (c_remote w) x (c_remote w').
Proof. by destruct c. Qed.

Lemma grow_evolves w b' :
  grows (c_remote w) b' →
  (∀ id sha, received b' id sha → received (c_remote w) id sha ∨ is_Some (dt_attempts (tabs w) !! (id, sha))) →
  evolves w (mkCore (c_db w) b').
Proof.
  intros Hg Hrec [Hok Hb Hc Hr Ht Hre Hst]. split_and!; [|reflexivity|done].
  destruct Hg as (? & G1 & G2 & G3). split; simpl; eauto.
  - intros id [sha ?]%Hc. exists sha. by apply G1.
  - intros id sha [?|?]%Hrec; auto.
Qed.

Lemma sound_remote {X} (c : call X) w :
  remote_call c = true →
  (∀ id sha, close_command c = Some (id, sha) → is_Some (dt_attempts (tabs w) !! (id, sha))) →
  sound c w.
Proof.
  intros Hc Hcmd x [s b] Hx Hw. apply called_remote in Hx as [E Ha]; [|done]. simpl in *. subst s.
  pose proof (law_answer _ _ _ _ (inv_billing _ Hw) Ha) as [Hg Hrec]. revert Hw.
  apply grow_evolves; [done|]. intros id sha [?|?]%Hrec; auto.
Qed.
(** ** Programs *)

(** Whatever else runs in between, every call of the program is sound and permitted, and the result
    satisfies the postcondition. *)
Fixpoint wp {A} (p : prog A) (Q : A → core → Prop) (w : core) : Prop :=
  match p with
  | Done a => Q a w
  | Call c k => ∀ w1, evolves w w1 → saga_inv w1 →
      (sound c w1 ∧ permitted c w1) ∧ ∀ x w2, called c w1 x w2 → wp (k x) Q w2
  end.
#[local] Abbreviation safe p := (wp p (λ _ _, True)).

Lemma wp_call {A X} (c : call X) (k : X → prog A) Q w :
  (∀ w1, evolves w w1 → saga_inv w1 → sound c w1 ∧ permitted c w1) →
  (∀ w1 x w2, evolves w w1 → saga_inv w1 → called c w1 x w2 → saga_inv w2 → evolves w1 w2 →
     wp (k x) Q w2) →
  wp (Call c k) Q w.
Proof.
  intros Hpre Hk w1 Hev Hinv. destruct (Hpre _ Hev Hinv) as [Hs Hp]. split; [done|].
  intros x w2 Hx. pose proof (Hs _ _ Hx) as He. eapply Hk; eauto. by apply He.
Qed.

Lemma wp_mono {A} (p : prog A) (Q Q' : A → core → Prop) w :
  (∀ a w, Q a w → Q' a w) → wp p Q w → wp p Q' w.
Proof.
  intros HQ. revert w. induction p as [a|X c k IH]; intros w; simpl; [apply HQ|].
  intros H w1 He Hi. destruct (H _ He Hi) as [? Hk]. split; [done|]. intros x w2 Hx. by apply IH, Hk.
Qed.

Lemma wp_bind {A C} (p : prog A) (f : A → prog C) Q w :
  wp p (λ a w, wp (f a) Q w) w → wp (p ≫= f) Q w.
Proof.
  revert w. induction p as [a|X c k IH]; intros w; simpl; [done|].
  intros H w1 He Hi. destruct (H _ He Hi) as [? Hk]. split; [done|]. intros x w2 Hx. by apply IH, Hk.
Qed.

(** The result is in the future of the start. *)
Lemma wp_track {A} (p : prog A) (Q : A → core → Prop) w :
  saga_inv w → wp p Q w → wp p (λ a w', Q a w' ∧ evolves w w' ∧ saga_inv w') w.
Proof.
  intros Hi Hp. assert (∀ w0, evolves w0 w → wp p (λ a w', Q a w' ∧ evolves w0 w' ∧ saga_inv w') w) as H;
    [|by apply H].
  revert w Hi Hp. induction p as [a|X c k IH]; intros w Hi Hp w0 He0; simpl in *; [done|].
  intros w1 He1 Hi1. destruct (Hp _ He1 Hi1) as [Hs Hk]. split; [done|]. intros x w2 Hx.
  pose proof (proj1 Hs _ _ Hx) as He2. apply IH; [by apply He2|by apply Hk|]. do 2 (etrans; [eassumption|]). done.
Qed.

Lemma safe_evolves {A} (p : prog A) w w' : evolves w w' → safe p w → safe p w'.
Proof. destruct p as [a|X c k]; simpl; [done|]. intros He H w1 He1. apply H. by etrans. Qed.

(** The answer of a transaction that says so has run. *)
Lemma called_run {A} (m : Del A) w r w' :
  called (Transact m) w r w' → (∀ t, r ≠ Err (ErrText t)) →
  m (c_db w) = (r, c_db w') ∧ c_remote w' = c_remote w.
Proof.
  intros (r0 & s & Hm & Hb & [[-> <-]|(t & -> & _)]) Hr; [done|]. by destruct (Hr t).
Qed.

Lemma wp_try {X} op (c : call (res X)) (k : X → prog outcome) w :
  (∀ w1, evolves w w1 → saga_inv w1 → sound c w1 ∧ permitted c w1) →
  (∀ w1 x w2, evolves w w1 → saga_inv w1 → called c w1 (Ok x) w2 → saga_inv w2 → evolves w1 w2 →
     safe (k x) w2) →
  safe (try_call op c k) w.
Proof. intros Hpre Hk. apply wp_call; [done|]. intros w1 [x|e] w2 ? ? Hc ? ?; [by eapply Hk|exact I]. Qed.

(** ** Soundness of the calls *)

Lemma sound_leaves {A} (m : Del A) w : leaves_evidence m → sound (Transact m) w ∧ permitted (Transact m) w.
Proof. intros. split; [|done]. by apply sound_steps, rel_leaves. Qed.

Lemma sound_tx {A} (m : Del A) w :
  steps (del_rel_at w (λ _, False)) m → sound (Transact m) w ∧ permitted (Transact m) w.
Proof. intros. split; [by apply sound_steps|done]. Qed.

(** Calls that neither close an account nor release a producer. *)
Definition plain {X} (c : call X) : bool :=
  match c with
  | Transact _ | CloseCloud _ _ _ | CancelCloudDeletion _ _ _ _ _ => false
  | _ => true
  end.

Lemma sound_plain {X} (c : call X) w : plain c = true → sound c w ∧ permitted c w.
Proof. intros Hc. split; [apply sound_remote; by destruct c|by destruct c]. Qed.

#[local] Hint Extern 1 (sound _ _ ∧ permitted _ _) => by apply sound_plain : rtk.

Lemma leaves_load cloud operation : leaves_evidence (loadDeletion cloud operation).
Proof. unfold loadDeletion. auto with rtk. Qed.
Lemma leaves_get user cloud operation : leaves_evidence (GetDeveloperCloudDeletion user cloud operation).
Proof. unfold GetDeveloperCloudDeletion. auto with rtk. Qed.
Lemma leaves_missing receipts id : leaves_evidence (missing_participants receipts id).
Proof. unfold missing_participants. auto with rtk. Qed.
Lemma leaves_cancellation id : leaves_evidence (load_cancellation id).
Proof. unfold load_cancellation. auto with rtk. Qed.
Lemma leaves_snapshot user cloud : leaves_evidence (read_snapshot user cloud).
Proof. unfold read_snapshot. auto with rtk. Qed.
Lemma leaves_same user cloud key : leaves_evidence (replay_same_request user cloud key).
Proof. unfold replay_same_request. auto with rtk. Qed.
Lemma leaves_request_replay user cloud key : leaves_evidence (request_replay user cloud key).
Proof.
  apply leaves_transaction, leaves_bind; [apply leaves_owner|intros v].
  apply leaves_bind; [apply leaves_replay|auto with rtk].
Qed.
#[local] Hint Resolve leaves_load leaves_get leaves_missing leaves_cancellation leaves_snapshot leaves_same
  leaves_request_replay leaves_active : rtk.
#[local] Hint Extern 2 (sound _ _ ∧ permitted _ _) => apply sound_leaves : rtk.
(** ** What answers establish *)

Lemma active_found id s command s' :
  tables_ok (del_tables s) → activeDeletionClose id s = (Ok command, s') →
  s' = s ∧ is_Some (dt_attempts (del_tables s) !! (id, Attempt_SHA command)) ∧
  dt_retirements (del_tables s) !! (id, Attempt_SHA command) = None.
Proof.
  unfold activeDeletionClose. intros Hok. rewrite bind_gets_ok, row_or_ok. intros [H ->].
  apply fmap_Some in H as (a & Ha%latest_in & ->).
  apply elem_of_open_attempts in Ha as (_ & ? & ?); [eauto|apply Hok].
Qed.

Lemma latest_none {A} (created : A → Time) rows : latest created rows = None → rows = [].
Proof.
  unfold latest. destruct (order_by _ rows) eqn:E; [|done]. intros _.
  apply Permutation_nil_r. by rewrite <-E, order_by_perm.
Qed.

Lemma active_none id s s' :
  tables_ok (del_tables s) → activeDeletionClose id s = (Err ErrNotFound, s') →
  s' = s ∧ ∀ sha, is_Some (dt_attempts (del_tables s) !! (id, sha)) →
    is_Some (dt_retirements (del_tables s) !! (id, sha)).
Proof.
  unfold activeDeletionClose. intros Hok. rewrite bind_gets_run.
  destruct (latest _ _) eqn:E; simpl; intros [= <-]. split; [done|]. intros sha [a Ha].
  eapply all_retired_spec; [apply Hok| |done]. unfold all_retired.
  by rewrite (latest_none _ _ E).
Qed.

Lemma retirement_recorded op command receipt t s u s' :
  record_retirement op command receipt t s = (Ok u, s') →
  is_Some (dt_retirements (del_tables s') !! (Deletion_ID op, Attempt_SHA command)).
Proof.
  unfold record_retirement. rewrite transaction_ok, bind_gets_ok.
  destruct (dt_retirements _ !! _) as [prior|] eqn:E.
  - rewrite reject_if_ok. intros [_ ->]. eauto.
  - intros ([] & s1 & H & ->%leaves_audit)%bind_ok. unfold insert_retirement, wake_job in H.
    run_statement H. rewrite lookup_insert_eq. eauto.
Qed.

Lemma stable_halted w w' id : saga_inv w → evolves w w' → halted w id → halted w' id.
Proof.
  intros Hi He [Hc Hr]. destruct (He Hi) as (_ & Ht & _). split.
  - destruct Hc as [c Hc]. exists c. eapply lookup_weaken; [done|apply Ht].
  - intros sha. rewrite (ev_frozen _ _ Ht) by done. intros [r ?]%Hr. exists r.
    eapply lookup_weaken; [done|apply Ht].
Qed.

Lemma stable_closed w w' id : saga_inv w → evolves w w' → closed w id → closed w' id.
Proof. intros Hi He [sha ?]. destruct (He Hi) as (_ & _ & _ & G & _). exists sha. by apply G. Qed.

Lemma stable_attempted w w' id sha :
  saga_inv w → evolves w w' → is_Some (dt_attempts (tabs w) !! (id, sha)) →
  is_Some (dt_attempts (tabs w') !! (id, sha)).
Proof.
  intros Hi He [a ?]. destruct (He Hi) as (_ & Ht & _). exists a. eapply lookup_weaken; [done|apply Ht].
Qed.

(** ** The coordinator *)

Section coordinator.
Context (deletion : CloudDeletionOptions).

Lemma wp_resolve op command w :
  saga_inv w →
  wp (resolveDeletionClose deletion op command) (λ r w', r = Ok false →
    is_Some (dt_retirements (tabs w') !! (Deletion_ID op, Attempt_SHA command))) w.
Proof.
  intros _. unfold resolveDeletionClose. destruct (opt_RecoveryBilling deletion); simpl negb; cbv iota; [|done].
  apply wp_call; [auto with rtk|]. intros w1 [out|e] w2 He1 Hi1 Hc Hi2 He2; [|done].
  apply called_remote in Hc as [_ Hout]; [|done].
  pose proof (law_resolved _ _ _ _ _ _ (inv_billing _ Hi1) Hout) as [Hclosed Hretired].
  simpl in Hclosed, Hretired.
  destruct (_ || _); [done|]. case_bool_decide as Eo.
  - destruct (CR_Acknowledgment out) as [ack|], (CR_RetiredAt out); try done. case_bool_decide; [|done].
    apply wp_call.
    + intros w3 He3 Hi3. apply sound_tx, steps_complete. by eapply stable_closed; [|done|apply Hclosed].
    + intros w3 [u|e] w4 _ _ _ _ _; done.
  - destruct (CR_RetiredAt out) as [retired|], (CR_Acknowledgment out); try done.
    destruct (_ || _) eqn:Eg; [done|]. destruct_bools. apply wp_call.
    + intros w3 He3 Hi3. apply sound_tx, steps_retirement.
      destruct (He3 Hi2) as (_ & _ & _ & _ & _ & G). auto.
    + intros w3 [u|e] w4 _ _ Hc _ _; [|done]. intros _. apply called_run in Hc as [Hc _]; [|done].
      by eapply retirement_recorded.
Qed.
Lemma safe_release_all op id sha names k w :
  saga_inv w → halted w (Deletion_ID op) → Forall (.≠ "billing") names →
  (∀ w', evolves w w' → saga_inv w' → safe k w') → safe (release_all deletion op id sha names k) w.
Proof.
  intros Hi Hh Hn. revert w Hi Hh. induction Hn as [|name names Hname _ IH]; intros w Hi Hh Hk; simpl;
    [by apply Hk|].
  destruct (negb _); [exact I|]. apply wp_try.
  { intros w1 He1 Hi1. split; [by apply sound_remote|]. exact (stable_halted _ _ _ Hi He1 Hh). }
  intros w1 out w2 He1 Hi1 _ Hi2 He2. destruct (negb _); [exact I|]. apply wp_try.
  { intros w3 He3 Hi3. by apply sound_tx, steps_release. }
  intros w3 _ w4 He3 Hi3 _ Hi4 He4.
  assert (evolves w w4) as Hw4 by (do 3 (etrans; [eassumption|]); done).
  apply IH; [done|exact (stable_halted _ _ _ Hi Hw4 Hh)|]. intros w' He' Hi'. apply Hk; [by etrans|done].
Qed.

Lemma missing_named receipts id s names s' :
  tables_ok (del_tables s) → missing_participants receipts id s = (Ok names, s') →
  Forall (.≠ "billing") names.
Proof.
  intros Hok [= <- _]. apply Forall_forall. intros p Hp ->.
  apply elem_of_order_by, list_elem_of_filter in Hp as [_ Hp%elem_of_participants].
  by apply (ok_participants _ Hok id).
Qed.

Lemma safe_cancel_holds op w :
  saga_inv w → halted w (Deletion_ID op) → safe (cancel_holds deletion op) w.
Proof.
  intros Hi Hh. unfold cancel_holds. apply wp_try; [auto with rtk|].
  intros w1 [id sha] w2 He1 Hi1 _ Hi2 He2. apply wp_try; [auto with rtk|].
  intros w3 _ w4 He3 Hi3 _ Hi4 He4. apply wp_try; [auto with rtk|].
  intros w5 response w6 He5 Hi5 Hc Hi6 He6.
  assert (CO_Phase response = "canceled" → canceled_at (c_remote w6) (Deletion_ID op) = true) as Hcan.
  { apply called_remote in Hc as [_ Hc]; [|done]. exact (law_canceled _ _ _ _ _ _ (inv_billing _ Hi5) Hc). }
  destruct (negb _); [exact I|]. apply wp_try; [auto with rtk|].
  intros w7 names w8 He7 Hi7 Hm Hi8 He8. apply called_run in Hm as [Hm _]; [|done].
  assert (evolves w w8) as Hw8 by (do 7 (etrans; [eassumption|]); done).
  apply safe_release_all; [done|exact (stable_halted _ _ _ Hi Hw8 Hh)|eapply missing_named; [apply Hi7|done]|].
  intros w9 He9 Hi9. case_bool_decide as Eph; simpl; [|exact I]. apply wp_try.
  { intros w10 He10 Hi10. apply sound_tx, steps_release. intros _.
    assert (evolves w6 w10) as He by (do 3 (etrans; [eassumption|]); done).
    destruct (He Hi6) as (_ & _ & _ & _ & G & _). auto. }
  intros w10 _ w11 _ _ _ _ _. apply wp_call; [intros; apply sound_tx, steps_finish|].
  intros w12 [o|e] w13 _ _ _ _ _; exact I.
Qed.

Lemma safe_load cloud operation w : safe (load_outcome cloud operation) w.
Proof. apply wp_call; [auto with rtk|]. intros; exact I. Qed.

(** The one open command, once retired, leaves none. *)
Lemma last_retired w w' id sha0 :
  saga_inv w → evolves w w' → is_Some (dt_cancellations (tabs w) !! id) →
  is_Some (dt_attempts (tabs w) !! (id, sha0)) → dt_retirements (tabs w) !! (id, sha0) = None →
  is_Some (dt_retirements (tabs w') !! (id, sha0)) →
  ∀ sha, is_Some (dt_attempts (tabs w') !! (id, sha)) → is_Some (dt_retirements (tabs w') !! (id, sha)).
Proof.
  intros Hi He Hcan Ha Hr Hret sha. destruct (He Hi) as (_ & Ht & _). rewrite (ev_frozen _ _ Ht) by done.
  intros Hsha. destruct (dt_retirements (tabs w) !! (id, sha)) as [r|] eqn:E.
  - exists r. eapply lookup_weaken; [done|apply Ht].
  - by rewrite (ok_one_open _ (inv_tables _ Hi) id sha sha0).
Qed.

Lemma safe_cancellation op w :
  saga_inv w → is_Some (dt_cancellations (tabs w) !! Deletion_ID op) →
  safe (advanceDeletionCancellation deletion op) w.
Proof.
  intros Hi Hcan. unfold advanceDeletionCancellation. destruct (negb _); [exact I|].
  apply wp_call; [auto with rtk|]. intros w1 r w2 He1 Hi1 Hc Hi2 He2.
  assert (∀ w', evolves w w' → is_Some (dt_cancellations (tabs w') !! Deletion_ID op)) as Hcan'.
  { intros w' He. destruct (He Hi) as (_ & Ht & _). destruct Hcan as [c Hcan]. exists c.
    eapply lookup_weaken; [done|apply Ht]. }
  destruct r as [command|err].
  - apply called_run in Hc as [Hc _]; [|done]. apply active_found in Hc as (Es & Ha & Hr); [|apply Hi1].
    apply wp_bind. eapply wp_mono; [|apply wp_track, wp_resolve; exact Hi2].
    intros [[|]|e] w3 (Hret & He3 & Hi3); [apply safe_load| |exact I]. specialize (Hret eq_refl).
    apply safe_cancel_holds; [done|]. split; [apply Hcan'; by do 2 (etrans; [eassumption|])|].
    assert (evolves w w1 ∧ evolves w1 w3) as [? ?] by (split; [done|by etrans]).
    apply (last_retired w1 w3 _ (Attempt_SHA command)); try done. by apply Hcan'.
  - destruct err; try exact I. apply called_run in Hc as [Hc _]; [|done].
    apply active_none in Hc as [Es Hr]; [|apply Hi1].
    apply safe_cancel_holds; [done|]. split; [apply Hcan'; by etrans|]. by rewrite Es.
Qed.
Lemma safe_hold_all op names k w :
  (∀ w', evolves w w' → saga_inv w' → safe k w') → saga_inv w → safe (hold_all deletion op names k) w.
Proof.
  revert w. induction names as [|name names IH]; intros w Hk Hi; simpl; [by apply Hk|].
  destruct (negb _); [exact I|]. apply wp_try; [auto with rtk|]. intros w1 hold w2 He1 Hi1 _ Hi2 He2.
  destruct (negb _); [exact I|]. apply wp_try; [intros; apply sound_tx, steps_hold|].
  intros w3 _ w4 He3 Hi3 _ Hi4 He4. apply IH; [|done]. intros w' He' Hi'. apply Hk; [|done].
  do 4 (etrans; [eassumption|]). done.
Qed.

Lemma safe_receipt op k w :
  (∀ receipt w', evolves w w' → saga_inv w' → safe (k receipt) w') → safe (closure_receipt op k) w.
Proof.
  intros Hk. apply wp_try; [auto with rtk|]. intros w1 status w2 He1 Hi1 _ Hi2 He2.
  destruct (_ || _); [exact I|]. apply Hk; [by etrans|done].
Qed.

Lemma safe_close_and_complete cloud operation op command w :
  saga_inv w → is_Some (dt_attempts (tabs w) !! (Deletion_ID op, Attempt_SHA command)) →
  safe (close_and_complete deletion cloud operation op command) w.
Proof.
  intros Hi Ha. apply wp_call.
  { intros w1 He1 Hi1. split; [|done]. apply sound_remote; [done|]. intros id sha [= <- <-].
    exact (stable_attempted _ _ _ _ Hi He1 Ha). }
  intros w1 [ack|err] w2 He1 Hi1 Hc Hi2 He2.
  - apply called_remote in Hc as [_ Hc]; [|done].
    pose proof (law_acknowledged _ _ _ _ _ _ (inv_billing _ Hi1) Hc) as Hclosed. simpl in Hclosed.
    apply wp_try; [|intros; apply safe_load]. intros w3 He3 Hi3. apply sound_tx, steps_complete.
    exact (stable_closed _ _ _ Hi2 He3 Hclosed).
  - destruct (close_rejected err); [|exact I]. apply wp_bind. eapply wp_mono; [|apply wp_resolve, Hi2].
    intros [[|]|e] w3 _; [apply safe_load|exact I..].
Qed.

Lemma safe_close_phase cloud operation op w :
  saga_inv w → safe (close_phase deletion cloud operation op) w.
Proof.
  intros Hi. apply wp_call; [auto with rtk|]. intros w1 r w2 He1 Hi1 Hc Hi2 He2.
  assert (∀ w1 command w2, saga_inv w1 → called (Transact (activeDeletionClose (Deletion_ID op))) w1 (Ok command) w2 →
    is_Some (dt_attempts (tabs w2) !! (Deletion_ID op, Attempt_SHA command))) as Hfound.
  { intros w3 command w4 Hi3 [H _]%called_run; [|done]. apply active_found in H as (-> & ? & _); [done|apply Hi3]. }
  destruct r as [command|err]; [apply safe_close_and_complete; [done|exact (Hfound _ _ _ Hi1 Hc)]|].
  destruct err; try exact I. apply safe_receipt. intros receipt w3 He3 Hi3.
  apply wp_try; [intros; split; [apply sound_prepare_close|done]|].
  intros w4 _ w5 _ _ _ Hi5 _. apply wp_try; [auto with rtk|].
  intros w6 command w7 _ Hi6 Hc' Hi7 _. apply safe_close_and_complete; [done|exact (Hfound _ _ _ Hi6 Hc')].
Qed.

Lemma safe_prepare_phase cloud operation op w :
  saga_inv w → safe (prepare_phase deletion cloud operation op) w.
Proof.
  intros Hi. apply wp_try; [auto with rtk|]. intros w1 prepared w2 _ _ _ _ _. destruct (negb _); [exact I|].
  apply wp_try; [auto with rtk|]. intros w3 names w4 _ _ _ Hi4 _. apply safe_hold_all; [|done].
  intros w5 _ Hi5. apply safe_receipt. intros receipt w6 _ Hi6.
  apply wp_try; [intros; split; [apply sound_prepare_close|done]|].
  intros w7 _ w8 _ _ _ Hi8 _. by apply safe_close_phase.
Qed.
End coordinator.

Lemma safe_advance s cloud operation w : safe (AdvanceCloudDeletion s cloud operation) w.
Proof.
  unfold AdvanceCloudDeletion. apply wp_bind.
  eapply wp_mono with (Q := λ _ _, True).
  { intros [[op|] [err|]] w1 _; try exact I. apply wp_call; [intros; apply sound_tx, steps_blockers|].
    intros w2 [u|e] w3 _ _ _ _ _; [|exact I]. apply wp_call; [auto with rtk|]. intros; exact I. }
  apply wp_call; [auto with rtk|]. intros w1 [op|err] w2 _ Hi1 Hc Hi2 _; [|exact I].
  destruct (Deletion_Phase op) eqn:Hph; try exact I;
    (destruct (s_deletion s) as [deletion|]; [|exact I]); simpl;
    [by apply safe_prepare_phase|by apply safe_close_phase|].
  apply safe_cancellation; [done|]. apply called_run in Hc as [Hc _]; [|done].
  unfold loadDeletion in Hc. apply bind_gets_ok, row_or_ok in Hc as [Hop ->].
  apply bind_Some in Hop as (op' & Hop & Hcl). case_bool_decide; [|done]. injection Hcl as ->.
  pose proof (ok_phase _ (inv_tables _ Hi1) _ _ Hop) as He. simpl in He. rewrite Hph in He.
  by rewrite (ok_keyed _ (inv_tables _ Hi1) _ _ Hop).
Qed.

(** ** The preflight and the request *)

Lemma safe_recheck user cloud initial financial m expiry w :
  safe (recheck user cloud initial financial m expiry) w.
Proof.
  apply wp_call; [auto with rtk|]. intros w1 [final|err] w2 _ _ _ _ _; [|exact I]. apply wp_bind.
  assert (∀ b w, safe (if b : bool then perform Clock else Done zero_time) w) as Hclock.
  { intros [|] w3; [|exact I]. apply wp_call; [auto with rtk|]. intros; exact I. }
  eapply wp_mono; [|apply Hclock]. intros now1 w3 _. apply wp_bind.
  eapply wp_mono; [|apply Hclock]. intros; exact I.
Qed.

Lemma safe_observe scope names m expiry w : safe (observe_all scope names m expiry) w.
Proof.
  revert m expiry w. induction names as [|name names IH]; intros m expiry w; simpl; [exact I|].
  apply (wp_call DependencyErr); [auto with rtk|]. intros w1 [u|e] w2 _ _ _ _ _; [|exact I].
  apply (wp_call (ObserveCloudDeletion name scope)); [auto with rtk|]. intros w3 r w4 _ _ _ _ _.
  apply (wp_call Clock); [auto with rtk|]. intros w5 now w6 _ _ _ _ _.
  destruct r as [e|]; [|apply IH]. destruct (valid_evidence scope e now); apply IH.
Qed.

Lemma safe_preflight s user cloud w : safe (PreflightDeveloperBrandCloudDeletion s user cloud) w.
Proof.
  apply wp_call; [auto with rtk|]. intros w1 [initial|err] w2 _ _ _ _ _; [|exact I].
  destruct (s_deletionPreflight s) as [resources|]; [|apply safe_recheck].
  apply wp_call; [auto with rtk|].
  assert (∀ financial m w, safe (let m := if bool_decide (resources = []) then add_blocker "evidence_unavailable" m else m in
    observed ← observe_all (snap_scope initial) (order_by String.leb resources) m None;
    recheck user cloud initial financial observed.1 observed.2) w) as Hrest.
  { intros. apply wp_bind. eapply wp_mono; [|apply safe_observe]. intros; apply safe_recheck. }
  intros w3 [result|err] w4 _ _ _ _ _; [|apply Hrest].
  apply wp_call; [auto with rtk|]. intros w5 now w6 _ _ _ _ _. destruct (ValidateCloudDeletionPreflight _ _ _); apply Hrest.
Qed.

Lemma safe_request s user cloud key w : safe (RequestDeveloperCloudDeletion s user cloud key) w.
Proof.
  unfold RequestDeveloperCloudDeletion. destruct (negb _); [exact I|].
  apply wp_call; [auto with rtk|]. intros w1 [[versions [prior|]]|err] w2 _ _ _ _ _; try exact I.
  destruct (s_deletion s) as [deletion|]; [|exact I]. destruct (opt_recoveryOnly deletion); [exact I|].
  apply wp_bind. eapply wp_mono; [|apply safe_preflight]. intros [preflight|err] w3 _; [|exact I].
  destruct (Preflight_Eligible preflight).
  - apply wp_call; [intros; apply sound_tx, steps_admission|]. intros; exact I.
  - apply wp_call; [auto with rtk|]. intros w4 [prior|err] w5 _ _ _ _ _; [|exact I].
    apply wp_call; [auto with rtk|]. intros; exact I.
Qed.

(** ** Everything that runs *)

Definition thread_safe (t : thread) (w : core) : Prop :=
  match t with Thread p => safe p w end.

Lemma safe_process s job w : safe (ProcessCloudDeletionJob s job) w.
Proof.
  apply wp_call; [intros; apply sound_tx, steps_check|]. intros w1 [[|]|err] w2 _ _ _ _ _; try exact I.
  apply safe_advance.
Qed.

Lemma program_safe k w : thread_safe (program k) w.
Proof.
  destruct k; unfold thread_safe, program, perform.
  - apply safe_process.
  - apply wp_bind. eapply wp_mono; [|apply safe_process]. intros [op err] w1 _.
    destruct (match err with Some err => errors_Is err ErrHandoffLeaseLost | None => false end); [exact I|].
    apply wp_call; [auto with rtk|]. intros w2 [u|e] w3 _ _ _ _ _; [|exact I].
    apply wp_call; [intros; apply sound_tx, steps_finish_job|]. intros; exact I.
  - apply safe_request.
  - apply wp_call; [auto with rtk|]. intros w1 [op|err] w2 _ _ _ _ _; [|exact I]. destruct (negb _); [exact I|].
    apply wp_call; [intros; apply sound_tx, steps_cancel|]. intros; exact I.
  - apply wp_call; [intros; apply sound_tx, steps_claim|]. intros; exact I.
  - apply wp_call; [intros; apply sound_tx, steps_finish_job|]. intros; exact I.
  - apply wp_call; [intros; apply sound_leaves, leaves_store|]. intros; exact I.
Qed.
Definition world_inv (W : world) : Prop :=
  saga_inv (w_core W) ∧ Forall (λ t, thread_safe t (w_core W)) (w_threads W).

Lemma thread_evolves t w w' : evolves w w' → thread_safe t w → thread_safe t w'.
Proof. destruct t. apply safe_evolves. Qed.

Lemma world_step_evolves W W' :
  world_inv W → world_step W W' → world_inv W' ∧ evolves (w_core W) (w_core W').
Proof.
  intros [Hi Ht] Hs. destruct Hs as [w ts k|w ts1 ts2 A X c k x w' Hc|w ts1 ts2 t|s b ts b' Hd]; simpl in *.
  - split; [|reflexivity]. split; [done|]. constructor; [apply program_safe|done].
  - apply Forall_app in Ht as [Ht1 [Ht Ht2]%Forall_cons].
    destruct (Ht w ltac:(reflexivity) Hi) as [[Hs _] Hk]. pose proof (Hs _ _ Hc) as He. split; [|done].
    split; simpl; [by apply He|]. apply Forall_app; split; [|constructor; [by apply Hk|]];
      (eapply Forall_impl; [done|]); intros t; by apply thread_evolves.
  - split; [|reflexivity]. split; [done|]. apply Forall_app in Ht as [? [_ ?]%Forall_cons]. by apply Forall_app.
  - destruct (law_drift _ _ (inv_billing _ Hi) Hd) as [Hg Hrec].
    assert (evolves (mkCore s b) (mkCore s b')) as He by (apply (grow_evolves (mkCore s b)); auto).
    split; [|done]. split; [by apply He|]. eapply Forall_impl; [done|]. intros t. by apply thread_evolves.
Qed.

Lemma world_steps_evolve W W' :
  world_inv W → rtc world_step W W' → world_inv W' ∧ evolves (w_core W) (w_core W').
Proof.
  intros Hi Hs. induction Hs as [W|W W1 W2 H1 _ IH]; [done|].
  destruct (world_step_evolves _ _ Hi H1) as [Hi1 He1]. destruct (IH Hi1). split; [done|by etrans].
Qed.

(** Where everything starts: no deletion was ever requested, no command received. *)
Definition no_deletions : DeletionTables := mkTables ∅ ∅ ∅ ∅ ∅ ∅ ∅ ∅ ∅ ∅.
Definition fresh (w : core) : Prop :=
  tabs w = no_deletions ∧ billing_ok (c_remote w) ∧ ∀ id sha, ¬ received (c_remote w) id sha.

Lemma fresh_inv w : fresh w → world_inv (mkWorld w []).
Proof.
  intros (E & Hb & Hr). split; [|constructor]. simpl. split; rewrite ?E; simpl; try done.
  - split; simpl; try done. intros i sha sha' []; done.
  - intros id [? ?]; done.
  - intros id [? ?]; done.
  - intros id sha [? ?]; done.
  - intros id sha ?%Hr. done.
  - intros id sha [? ?]; done.
Qed.
End saga.
