(* ===== verification/DeletionAgreement.v ===== *)
(** * What the account manager and Billing agree on

    The theorems about the system of DeletionSaga.v: for every operation the
    two systems follow one protocol; a decision here is the decision there; a
    producer is released only when the account can no longer be closed.  At the
    end, a Billing service that keeps the contract, and the theorems at work on
    runs with it. *)

From S2P Require Export DeletionSaga.

Local Open Scope Z_scope.

Section agreement.
Context {B : Type} `{!Billing B}.
#[local] Abbreviation tabs w := (del_tables (c_db w)).
#[local] Abbreviation world := (@DeletionSaga.world B).

Definition phase_of (W : world) (id : string) : option DeletionPhase :=
  Deletion_Phase <$> dt_operations (tabs (w_core W)) !! id.
Definition account_closed (W : world) (id : string) : bool :=
  bool_decide (is_Some (closed_by (c_remote (w_core W)) id)).
Definition account_canceled (W : world) (id : string) : bool := canceled_at (c_remote (w_core W)) id.

(** An operation under which Billing closed the account is past its point of no return. *)
Lemma closed_phase w id :
  saga_inv w → closed w id →
  ∃ op, dt_operations (tabs w) !! id = Some op ∧
    Deletion_Phase op ≠ PhasePreparing ∧ Deletion_Phase op ≠ PhaseCanceled ∧
    canceled_at (c_remote w) id = false.
Proof.
  intros Hi [sha Hc]. destruct (law_closed _ _ _ (inv_billing _ Hi) Hc) as (Hrec & Hcan & _).
  destruct (inv_started _ Hi id sha) as (op & Hop & Hph); [by apply Hi|].
  exists op. split_and!; [done|done| |done]. intros Hcanceled.
  pose proof (ok_phase _ (inv_tables _ Hi) _ _ Hop) as He. simpl in He. rewrite Hcanceled in He.
  pose proof (inv_release _ Hi _ (cc_billing _ _ He)). congruence.
Qed.
(** ** The protocol the two systems follow *)

(** The phase here, and whether Billing has closed or canceled the account. *)
Inductive protocol_step : option DeletionPhase * bool * bool → option DeletionPhase * bool * bool → Prop :=
  | protocol_admit c k : protocol_step (None, c, k) (Some PhasePreparing, c, k)
  | protocol_phase p q c k :
      phase_next p q → (q = PhaseSucceeded → c = true) → (q = PhaseCanceled → k = true) →
      protocol_step (Some p, c, k) (Some q, c, k)
  | protocol_close p :
      p = PhaseClosing ∨ p = PhaseCanceling →
      protocol_step (Some p, false, false) (Some p, true, false)
  | protocol_cancel p : protocol_step (p, false, false) (p, false, true).

Definition protocol (W : world) (id : string) : option DeletionPhase * bool * bool :=
  (phase_of W id, account_closed W id, account_canceled W id).

(** Phases on the way to a decision are not decisions. *)
Lemma protocol_phases p q c k :
  rtc phase_next p q → (q = PhaseSucceeded → c = true) → (q = PhaseCanceled → k = true) →
  rtc protocol_step (Some p, c, k) (Some q, c, k).
Proof.
  intros H Hs Hc. induction H as [p|p r q H1 H2 IH]; [done|].
  eapply rtc_l; [|by apply IH]. apply protocol_phase; [done|..]; intros ->.
  - apply Hs. eapply final_phase; [done|]. by left.
  - apply Hc. eapply final_phase; [done|]. by right.
Qed.

Lemma decided_phase W id q :
  saga_inv (w_core W) → phase_of W id = Some q →
  (q = PhaseSucceeded → account_closed W id = true) ∧ (q = PhaseCanceled → account_canceled W id = true).
Proof.
  intros Hi H. apply fmap_Some in H as (op & Hop & ->).
  pose proof (ok_phase _ (inv_tables _ Hi) _ _ Hop) as He. simpl in He. split; intros Hp; rewrite Hp in He.
  - apply bool_decide_eq_true_2. destruct He as [_ He]. by apply (inv_completion _ Hi).
  - apply (inv_release _ Hi), He.
Qed.

(** The two systems never both decide. *)
Lemma closed_not_canceled W id :
  saga_inv (w_core W) → account_closed W id = true → account_canceled W id = false.
Proof. intros Hi (_ & _ & _ & _ & ?)%bool_decide_eq_true_1%closed_phase; done. Qed.

Lemma protocol_evolves W W' id :
  saga_inv (w_core W) → evolves (w_core W) (w_core W') →
  c_db (w_core W') = c_db (w_core W) ∨ c_remote (w_core W') = c_remote (w_core W) →
  rtc protocol_step (protocol W id) (protocol W' id).
Proof.
  intros Hi He [E|E]; destruct (He Hi) as (Hi' & Ht & _ & G1 & G2 & _); unfold protocol.
  - assert (phase_of W' id = phase_of W id) as -> by (unfold phase_of; by rewrite E).
    destruct (account_closed W id) eqn:Ec.
    { assert (account_closed W' id = true) as Ec'.
      { apply bool_decide_eq_true_1 in Ec as [sha ?]. apply bool_decide_eq_true_2. exists sha. by apply G1. }
      by rewrite Ec', !closed_not_canceled. }
    destruct (account_canceled W id) eqn:Ek.
    { rewrite (G2 _ Ek : account_canceled W' id = true). destruct (account_closed W' id) eqn:Ec'; [|done].
      apply closed_not_canceled in Ec'; [|done]. by rewrite (G2 _ Ek : account_canceled W' id = true) in Ec'. }
    destruct (account_closed W' id) eqn:Ec'.
    + rewrite (closed_not_canceled W') by done. apply bool_decide_eq_true_1 in Ec'.
      destruct (closed_phase _ _ Hi' Ec') as (op & Hop & Hp1 & Hp2 & _).
      assert (phase_of W id = Some (Deletion_Phase op)) as Hph by (unfold phase_of; by rewrite <-E, Hop).
      rewrite Hph. apply rtc_once, protocol_close.
      pose proof (decided_phase _ _ _ Hi Hph) as [Hs _].
      destruct (Deletion_Phase op); try tauto. by rewrite Hs in Ec.
    + destruct (account_canceled W' id); [apply rtc_once, protocol_cancel|done].
  - assert (account_closed W' id = account_closed W id) as -> by (unfold account_closed; by rewrite E).
    assert (account_canceled W' id = account_canceled W id) as -> by (unfold account_canceled; by rewrite E).
    assert (∀ p op', dt_operations (tabs (w_core W')) !! id = Some op' → rtc phase_next p (Deletion_Phase op') →
      rtc protocol_step (Some p, account_closed W id, account_canceled W id)
        (phase_of W' id, account_closed W id, account_canceled W id)) as Hrun.
    { intros p op' Hop' Hp. assert (phase_of W' id = Some (Deletion_Phase op')) as Hph
        by (unfold phase_of; by rewrite Hop'). rewrite Hph.
      pose proof (decided_phase _ _ _ Hi' Hph) as [? ?].
      apply protocol_phases; [done|unfold account_closed; by rewrite <-E|unfold account_canceled; by rewrite <-E]. }
    destruct (dt_operations (tabs (w_core W)) !! id) as [op|] eqn:Hop.
    + assert (phase_of W id = Some (Deletion_Phase op)) as -> by (unfold phase_of; by rewrite Hop).
      destruct (ev_operations _ _ Ht _ _ Hop) as (op' & Hop' & _ & Hp). by eapply Hrun.
    + assert (phase_of W id = None) as -> by (unfold phase_of; by rewrite Hop).
      destruct (dt_operations (tabs (w_core W')) !! id) as [op'|] eqn:Hop'.
      * eapply rtc_l; [apply protocol_admit|]. eapply Hrun; [done|]. by apply (ev_new _ _ Ht id).
      * unfold phase_of. by rewrite Hop'.
Qed.

Lemma world_step_half W W' :
  world_step W W' →
  c_db (w_core W') = c_db (w_core W) ∨ c_remote (w_core W') = c_remote (w_core W).
Proof.
  intros [w ts k|w ts1 ts2 A X c k x w' Hc|w ts1 ts2 t|s b ts b' Hd]; simpl; auto.
  destruct c; simpl in Hc; destruct Hc as [? Hc]; auto. destruct Hc as (? & ? & ? & _). auto.
Qed.

Lemma protocol_runs W W' id :
  world_inv W → rtc world_step W W' → rtc protocol_step (protocol W id) (protocol W' id).
Proof.
  intros Hi Hs. induction Hs as [W|W W1 W2 H1 _ IH]; [done|].
  destruct (world_step_evolves _ _ Hi H1) as [Hi1 He1]. etrans; [|by apply IH].
  apply protocol_evolves; [apply Hi|done|by apply world_step_half].
Qed.
(** ** The theorems *)

(** A thread whose next call releases a producer of this operation. *)
Definition releasing (id : string) (t : thread) : bool :=
  match t with
  | Thread p =>
      match p with
      | Call c _ => match c with
                    | CancelCloudDeletion _ b _ _ _ => bool_decide (CB_OperationID b = id)
                    | _ => false
                    end
      | Done _ => false
      end
  end.

Lemma releasing_halted id t w : saga_inv w → thread_safe t w → releasing id t = true → halted w id.
Proof.
  intros Hi. destruct t as [A [a|X c k]]; [done|]. intros Hs. destruct c; try done. simpl.
  intros <-%bool_decide_eq_true_1. exact (proj2 (proj1 (Hs w ltac:(reflexivity) Hi))).
Qed.

Lemma halted_open w id : saga_inv w → halted w id → closed_by (c_remote w) id = None.
Proof.
  intros Hi [_ Hr]. destruct (closed_by (c_remote w) id) as [sha|] eqn:E; [|done].
  destruct (law_closed _ _ _ (inv_billing _ Hi) E) as (Hrec & _ & []).
  by apply (inv_retirement _ Hi), Hr, (inv_received _ Hi).
Qed.

(** C2: Whatever runs, in whatever order and with whatever faults: a deletion this program calls
    succeeded is one whose account Billing closed; one it calls canceled has its closure canceled at
    Billing, and the account is not closed; and an account is closed only by a command that was
    recorded here first, for an operation that is past preparation and not canceled. *)
Theorem deletion_agrees_with_Billing (w : @core B) (W : world) (id : string) :
  fresh w → rtc world_step (mkWorld w []) W →
  (phase_of W id = Some PhaseSucceeded → account_closed W id = true) ∧
  (phase_of W id = Some PhaseCanceled → account_canceled W id = true ∧ account_closed W id = false) ∧
  (∀ sha, closed_by (c_remote (w_core W)) id = Some sha →
     is_Some (dt_attempts (tabs (w_core W)) !! (id, sha)) ∧
     ∃ p, phase_of W id = Some p ∧ p ≠ PhasePreparing ∧ p ≠ PhaseCanceled).
Proof.
  intros Hf Hr. destruct (world_steps_evolve _ _ (fresh_inv _ Hf) Hr) as [[Hi _] _]. split_and!.
  - intros H. by apply (decided_phase _ _ _ Hi H).
  - intros H. pose proof (proj2 (decided_phase _ _ _ Hi H) eq_refl) as Hc. split; [done|].
    destruct (account_closed W id) eqn:E; [|done]. apply closed_not_canceled in E; [congruence|done].
  - intros sha Hc. split; [by apply (inv_received _ Hi), (law_closed _ _ _ (inv_billing _ Hi))|].
    destruct (closed_phase _ id Hi) as (op & Hop & ? & ? & _); [by exists sha|].
    exists (Deletion_Phase op). unfold phase_of. by rewrite Hop.
Qed.

(** C3: The account manager and Billing together refine a protocol with one state per operation,
    its phase and whether the account was closed or the closure canceled: phases only move along the
    life cycle, [succeeded] only with the account closed, [canceled] only with the closure canceled,
    and the account is closed only while the operation is closing or canceling, never after the
    closure was canceled. *)
Theorem deletion_refines_protocol (w : @core B) (W W' : world) (id : string) :
  fresh w → rtc world_step (mkWorld w []) W → rtc world_step W W' →
  rtc protocol_step (protocol W id) (protocol W' id).
Proof.
  intros Hf Hr Hs. apply protocol_runs; [|done]. by apply (world_steps_evolve _ _ (fresh_inv _ Hf) Hr).
Qed.

(** C6: A producer is asked to release its hold only when the account can never be closed under
    this operation any more: from a world in which some coordinator is about to release one, no
    world is reached in which Billing has closed the account, late requests included. *)
Theorem released_account_stays_open (w : @core B) (W W' : world) (id : string) :
  fresh w → rtc world_step (mkWorld w []) W → Exists (λ t, releasing id t = true) (w_threads W) →
  rtc world_step W W' → account_closed W' id = false.
Proof.
  intros Hf Hr Ht Hs. destruct (world_steps_evolve _ _ (fresh_inv _ Hf) Hr) as [Hi _].
  destruct (world_steps_evolve _ _ Hi Hs) as [[Hi' _] He]. destruct Hi as [Hi Hsafe].
  apply Exists_exists in Ht as (t & Hin & Ht). rewrite Forall_forall in Hsafe.
  pose proof (releasing_halted _ _ _ Hi (Hsafe _ Hin) Ht) as Hh.
  unfold account_closed. rewrite (halted_open _ _ Hi' (stable_halted _ _ _ Hi He Hh)). done.
Qed.

(** C27: In every reachable world a cloud has at most one deletion that is not canceled, an
    operation at most one close command that is not retired, and every phase has its evidence:
    closing and succeeded a recorded command and the receipts of all participants, canceled the
    releases of all of them and of Billing and the retirement of every command. *)
Theorem deletion_tables_well_formed (w : @core B) (W : world) :
  fresh w → rtc world_step (mkWorld w []) W → tables_ok (tabs (w_core W)).
Proof. intros Hf Hr. by destruct (world_steps_evolve _ _ (fresh_inv _ Hf) Hr) as [[[] _] _]. Qed.
End agreement.

(** ** A Billing service that keeps the contract *)

Record RefBilling := mkRefBilling {
  ref_closed : gmap string string;
  ref_canceled : gset string;
  ref_retired : gset (string * string);
  ref_received : gset (string * string);
  ref_now : Time;
}.

Definition ref_digest : string := "5e1f0000000000000000000000000000000000000000000000000000000000aa".
Definition ref_receipt : string := "00000000-0000-4000-8000-00000000beef".

Definition ref_operation (b : RefBilling) (binding : ClosureBinding) (phase : string) : ClosureOperation :=
  mkClosureOperation (CB_OperationID binding) "account-1" (Scope_OwnerUserID (CB_Scope binding))
    (Scope_OwnershipVersion (CB_Scope binding)) (CB_Cutoff binding) phase 1 (ref_now b).
Definition ref_ack (b : RefBilling) (id : string) : ClosureAcknowledgment :=
  mkClosureAck id "closed" (ref_now b) ref_digest.

Definition ref_receive (id sha : string) (b : RefBilling) : RefBilling :=
  mkRefBilling (ref_closed b) (ref_canceled b) (ref_retired b) ({[(id, sha)]} ∪ ref_received b) (ref_now b).
Definition ref_close (id sha : string) (b : RefBilling) : RefBilling :=
  mkRefBilling (<[id := sha]> (ref_closed b)) (ref_canceled b) (ref_retired b) (ref_received b) (ref_now b).
Definition ref_retire (id sha : string) (b : RefBilling) : RefBilling :=
  mkRefBilling (ref_closed b) (ref_canceled b) ({[(id, sha)]} ∪ ref_retired b) (ref_received b) (ref_now b).
Definition ref_cancel (id : string) (b : RefBilling) : RefBilling :=
  mkRefBilling (ref_closed b) ({[id]} ∪ ref_canceled b) (ref_retired b) (ref_received b) (ref_now b).

(** Its answers: it closes an account when asked to, unless the command was retired or the closure
    canceled; it retires a command unless the account is closed; every check passes. *)
Definition serve {X} (c : call X) (b : RefBilling) : X * RefBilling :=
  match c in call X return X * RefBilling with
  | Transact _ => (Err ErrCanceled, b)
  | Clock => (ref_now b, b)
  | DependencyErr => (Ok tt, b)
  | CloudDeletionPreflight_ scope =>
      (Ok (mkBillingPreflight scope true (Some []) 0 CurrentCurrency (ref_now b) (GoTime.Add (ref_now b) Minute)), b)
  | ObserveCloudDeletion _ scope =>
      (Ok (mkEvidence scope true "receipt-1" ref_digest (Some []) (ref_now b) (GoTime.Add (ref_now b) Minute)), b)
  | PrepareCloudClosure binding _ => (Ok (ref_operation b binding "preparing"), b)
  | CloudClosureStatus binding =>
      (Ok (mkClosureStatus (ref_operation b binding "preparing") true ref_receipt []), b)
  | CloseCloud binding _ sha =>
      let id := CB_OperationID binding in
      let b := ref_receive id sha b in
      match ref_closed b !! id with
      | Some _ => (Ok (ref_ack b id), b)
      | None =>
          if bool_decide (id ∈ ref_canceled b) || bool_decide ((id, sha) ∈ ref_retired b)
          then (Err (ErrHTTP 409 "BILLING_CLOSURE_COMMAND_RETIRED"), b)
          else (Ok (ref_ack b id), ref_close id sha b)
      end
  | RetireCloudClose binding receipt sha =>
      let id := CB_OperationID binding in
      match ref_closed b !! id with
      | Some _ => (Ok (mkResolution id receipt sha "closed" "" None (Some (ref_ack b id))), b)
      | None => (Ok (mkResolution id receipt sha "retired" ref_digest (Some (ref_now b)) None), ref_retire id sha b)
      end
  | CancelCloudClosure binding _ _ =>
      let id := CB_OperationID binding in
      match ref_closed b !! id with
      | Some _ => (Err (ErrHTTP 409 "BILLING_CLOSURE_CLOSED"), b)
      | None => (Ok (ref_operation b binding "canceled"), ref_cancel id b)
      end
  | PrepareCloudDeletion name binding version => (Ok (mkHold binding version name true true ref_digest), b)
  | CancelCloudDeletion name binding _ id _ => (Ok (mkRelease binding id name ref_digest true), b)
  end.

Definition ref_ok (b : RefBilling) : Prop :=
  ∀ id sha, ref_closed b !! id = Some sha →
    ((id, sha) ∈ ref_received b) ∧ (id ∉ ref_canceled b) ∧ ((id, sha) ∉ ref_retired b).

(** The contract, for one step. *)
Record ref_grows (b b' : RefBilling) : Prop := {
  ref_grows_ok : ref_ok b';
  ref_grows_closed id sha : ref_closed b !! id = Some sha → ref_closed b' !! id = Some sha;
  ref_grows_canceled id : id ∈ ref_canceled b → id ∈ ref_canceled b';
  ref_grows_retired id sha : (id, sha) ∈ ref_retired b → (id, sha) ∈ ref_retired b';
}.

Lemma ref_grows_refl b : ref_ok b → ref_grows b b.
Proof. by split. Qed.
Lemma ref_grows_receive b id sha : ref_ok b → ref_grows b (ref_receive id sha b).
Proof.
  intros Hok. split; simpl; try done. intros i h Hc. simpl. apply Hok in Hc as (? & ? & ?). set_solver.
Qed.
Lemma ref_grows_close b id sha :
  ref_ok b → ref_closed b !! id = None → (id, sha) ∈ ref_received b → id ∉ ref_canceled b →
  (id, sha) ∉ ref_retired b → ref_grows b (ref_close id sha b).
Proof.
  intros Hok Hn Hr Hc Ht. split; simpl; try done.
  - intros i h. simpl. rewrite lookup_insert_Some. intros [[<- <-]|[_ H]]; [done|by apply Hok].
  - intros i h H. rewrite lookup_insert_ne; [done|congruence].
Qed.
Lemma ref_grows_retire b id sha :
  ref_ok b → ref_closed b !! id = None → ref_grows b (ref_retire id sha b).
Proof.
  intros Hok Hn. split; simpl; try done; [|set_solver].
  intros i h Hc. simpl in *. pose proof (Hok _ _ Hc) as (? & ? & ?).
  split_and!; try done. rewrite elem_of_union, elem_of_singleton. naive_solver congruence.
Qed.
Lemma ref_grows_cancel b id : ref_ok b → ref_closed b !! id = None → ref_grows b (ref_cancel id b).
Proof.
  intros Hok Hn. split; simpl; try done; [|set_solver].
  intros i h Hc. simpl in *. pose proof (Hok _ _ Hc) as (? & ? & ?).
  split_and!; try done. rewrite elem_of_union, elem_of_singleton. naive_solver congruence.
Qed.

Lemma serve_close binding receipt sha b :
  let id := CB_OperationID binding in
  ref_ok b → ref_grows b (serve (CloseCloud binding receipt sha) b).2.
Proof.
  intros id Hok. pose proof (ref_grows_receive b id sha Hok) as Hrec. simpl. fold id.
  destruct (ref_closed b !! id) as [sha0|] eqn:E; [done|].
  destruct (bool_decide (id ∈ ref_canceled b) || bool_decide ((id, sha) ∈ ref_retired b)) eqn:Eg; [done|]. simpl. destruct_bools.
  destruct Hrec as [Hok' G1 G2 G3].
  assert (ref_grows (ref_receive id sha b) (ref_close id sha (ref_receive id sha b))) as [Hok'' H1 H2 H3]
    by (apply ref_grows_close; try done; set_solver).
  split; auto.
Qed.

Lemma serve_grows {X} (c : call X) b : ref_ok b → ref_grows b (serve c b).2.
Proof.
  intros Hok. destruct c; try (by apply ref_grows_refl); [by apply serve_close|..]; simpl;
    (destruct (ref_closed b !! _) as [sha0|] eqn:E; [by apply ref_grows_refl|]);
    [by apply ref_grows_retire|by apply ref_grows_cancel].
Qed.

Lemma serve_received {X} (c : call X) b id sha :
  (id, sha) ∈ ref_received (serve c b).2 → (id, sha) ∈ ref_received b ∨ close_command c = Some (id, sha).
Proof.
  destruct c; simpl; repeat case_match; simpl; rewrite ?elem_of_union, ?elem_of_singleton; try tauto;
    intros [[= -> ->]|?]; auto.
Qed.

#[export] Program Instance RefBilling_contract : Billing RefBilling := {
  answer X c b x b' := serve c b = (x, b');
  drift b b' := b' = b;
  billing_ok := ref_ok;
  closed_by b id := ref_closed b !! id;
  canceled_at b id := bool_decide (id ∈ ref_canceled b);
  retired_at b id sha := (id, sha) ∈ ref_retired b;
  received b id sha := (id, sha) ∈ ref_received b;
}.
Next Obligation.
  simpl. intros X c b x b' Hok Ha. pose proof (serve_grows c b Hok) as [? ? G ?]. rewrite Ha in *. split.
  - split_and!; try done. intros id. rewrite !bool_decide_eq_true. apply G.
  - intros id sha H. apply (serve_received c b). by rewrite Ha.
Qed.
Next Obligation. simpl. intros b b' Hok ->. split; [split_and!; auto|auto]. Qed.
Next Obligation. simpl. intros b id sha Hok (? & ? & ?)%Hok. by rewrite bool_decide_eq_false_2. Qed.
Next Obligation.
  simpl. intros binding receipt sha b ack b' Hok. repeat case_match; intros; simplify_eq/=; eauto.
  rewrite lookup_insert_eq. eauto.
Qed.
Next Obligation.
  simpl. intros binding receipt sha b out b' Hok. case_match; intros; simplify_eq/=; split; try done; eauto.
  intros _. set_solver.
Qed.
Next Obligation.
  simpl. intros binding id sha b response b' Hok. case_match; intros; simplify_eq/=.
  apply bool_decide_eq_true_2. set_solver.
Qed.

(** ** Runs with it *)

(** A call without faults. *)
Definition exec {X} (c : call X) (w : @core RefBilling) : X * @core RefBilling :=
  match c in call X return X * core with
  | Transact m => ((m (c_db w)).1, mkCore (m (c_db w)).2 (c_remote w))
  | c => ((serve c (c_remote w)).1, mkCore (c_db w) (serve c (c_remote w)).2)
  end.

Fixpoint run {A} (p : prog A) (w : @core RefBilling) : A * @core RefBilling :=
  match p with
  | Done a => (a, w)
  | Call c k => let '(x, w) := exec c w in run (k x) w
  end.

(** The first calls of a program. *)
Fixpoint run_for (n : nat) {A} (p : prog A) (w : @core RefBilling) : prog A * @core RefBilling :=
  match n, p with
  | S n, Call c k => let '(x, w) := exec c w in run_for n (k x) w
  | _, _ => (p, w)
  end.

Definition run_work (w : @core RefBilling) (k : work) : @core RefBilling :=
  match program k with Thread p => (run p w).2 end.

Lemma served {X} (c : call X) b : answer c b (serve c b).1 (serve c b).2.
Proof. simpl. apply surjective_pairing. Qed.

Lemma exec_called {X} (c : call X) w : called c w (exec c w).1 (exec c w).2.
Proof.
  destruct c; try (split; [done|apply served]).
  eexists _, _. split; [apply surjective_pairing|]. auto.
Qed.

Lemma run_steps {A} (p : prog A) w ts :
  rtc world_step (mkWorld w (Thread p :: ts)) (mkWorld (run p w).2 (Thread (Done (run p w).1) :: ts)).
Proof.
  revert w. induction p as [a|X c k IH]; intros w; simpl; [done|].
  pose proof (exec_called c w) as Hc. destruct (exec c w) as [x w']. eapply rtc_l; [|apply IH].
  by apply (world_call w [] ts).
Qed.

Lemma run_for_steps n {A} (p : prog A) w ts :
  rtc world_step (mkWorld w (Thread p :: ts)) (mkWorld (run_for n p w).2 (Thread (run_for n p w).1 :: ts)).
Proof.
  revert p w. induction n as [|n IH]; intros p w; simpl; [done|]. destruct p as [a|X c k]; [done|].
  pose proof (exec_called c w) as Hc. destruct (exec c w) as [x w']. eapply rtc_l; [|apply IH].
  by apply (world_call w [] ts).
Qed.

Lemma runs_reach ks w ts : ∃ ts', rtc world_step (mkWorld w ts) (mkWorld (foldl run_work w ks) ts').
Proof.
  revert w ts. induction ks as [|k ks IH]; intros w ts; simpl; [by exists ts|].
  unfold run_work at 2. pose proof (world_spawn w ts k) as Hk. destruct (program k) as [A p] eqn:E.
  destruct (IH (run p w).2 (Thread (Done (run p w).1) :: ts)) as [ts' H]. exists ts'.
  eapply rtc_l; [exact Hk|]. etrans; [apply run_steps|done].
Qed.

(** An empty brand cloud, and a Billing service that has not heard of it. *)
Definition sample_cloud : Registry :=
  mkRegistry {["user-1" := sample_user]}
    {[sample_org := mkOrganization sample_org "Cloud" OrganizationKindBrandCloud
        OrganizationStatusActive OrganizationTierCommercial 5 None]}
    [mkMember sample_org "user-1" RoleOwner None None] ∅ [] ∅ [] [] [] [] ∅ ∅ [].
Definition sample_cloud_store : DB :=
  mkDB sample_cloud (mkTime (1700000100 * Second) 0) unary 1 ∅ [] ∅ ∅ ∅ [].
Definition sample_deletion_db : DeletionDB :=
  mkDeletionDB sample_cloud_store no_deletions (mkCloudTables ∅ [] [] [] [])
    (λ n, mkTime (1700000100 * Second + Z.of_nat n * Second) 0) 0.
Definition sample_core : @core RefBilling :=
  mkCore sample_deletion_db (mkRefBilling ∅ ∅ ∅ ∅ (mkTime (1700000100 * Second) 0)).
Definition sample_options : StoreOptions :=
  mkStoreOptions (Some (mkDeletionOptions ["video"] ["video"] true false)) (Some ["video"]).

Definition sample_deletion_request : work := RequestDeletion sample_options "user-1" sample_org "key-1".
Definition sample_job (lease : string) (generation attempts : Z) : work :=
  ProcessJob sample_options (mkDeletionJob "1" sample_org lease generation attempts).

Lemma sample_fresh : fresh sample_core.
Proof. split_and!; [done|by intros id sha|set_solver]. Qed.

(** The deletion, run to its end by one worker. *)
Definition sample_deleted : @core RefBilling :=
  foldl run_work sample_core
    [sample_deletion_request; ClaimJobs 10 (60 * Second); sample_job "11" 0 1].

(** The deletion, canceled before a worker had it; the worker stops before it releases the producer. *)
Definition sample_canceling : @core RefBilling :=
  foldl run_work sample_core
    [sample_deletion_request; RequestCancellation "user-1" sample_org "1"; ClaimJobs 10 (60 * Second)].
Definition sample_worker : prog outcome :=
  ProcessCloudDeletionJob sample_options (mkDeletionJob "1" sample_org "111" 1 1).
Definition sample_releasing (ts : list thread) : world :=
  mkWorld (run_for 7 sample_worker sample_canceling).2 (Thread (run_for 7 sample_worker sample_canceling).1 :: ts).

Lemma sample_deleted_reached : ∃ ts, rtc world_step (mkWorld sample_core []) (mkWorld sample_deleted ts).
Proof. apply runs_reach. Qed.

Lemma sample_releasing_reached :
  ∃ ts, rtc world_step (mkWorld sample_core []) (sample_releasing ts).
Proof.
  destruct (runs_reach [sample_deletion_request; RequestCancellation "user-1" sample_org "1";
    ClaimJobs 10 (60 * Second)] sample_core []) as [ts H]. exists ts.
  etrans; [exact H|]. eapply rtc_l; [|apply run_for_steps].
  apply (world_spawn sample_canceling ts (ProcessJob sample_options (mkDeletionJob "1" sample_org "111" 1 1))).
Qed.

Lemma deletion_agrees_with_Billing_witness :
  ∃ ts, phase_of (mkWorld sample_deleted ts) "1" = Some PhaseSucceeded ∧
    account_closed (mkWorld sample_deleted ts) "1" = true.
Proof.
  destruct sample_deleted_reached as [ts H]. exists ts.
  assert (phase_of (mkWorld sample_deleted ts) "1" = Some PhaseSucceeded) as Hp by (vm_compute; reflexivity).
  split; [exact Hp|]. exact (proj1 (deletion_agrees_with_Billing _ _ "1" sample_fresh H) Hp).
Defined.

Lemma deletion_refines_protocol_witness :
  ∃ ts, rtc protocol_step (None, false, false) (protocol (mkWorld sample_deleted ts) "1") ∧
    protocol (mkWorld sample_deleted ts) "1" = (Some PhaseSucceeded, true, false).
Proof.
  destruct sample_deleted_reached as [ts H]. exists ts.
  split; [|vm_compute; reflexivity].
  exact (deletion_refines_protocol _ _ _ "1" sample_fresh (rtc_refl _ _) H).
Defined.

Lemma released_account_stays_open_witness :
  ∃ ts, account_closed (sample_releasing ts) "1" = false.
Proof.
  destruct sample_releasing_reached as [ts H]. exists ts.
  refine (released_account_stays_open _ _ _ "1" sample_fresh H _ (rtc_refl _ _)).
  apply Exists_cons_hd. vm_compute. reflexivity.
Defined.

Lemma deletion_tables_well_formed_witness : tables_ok (del_tables (c_db sample_deleted)).
Proof.
  destruct sample_deleted_reached as [ts H]. exact (deletion_tables_well_formed _ _ sample_fresh H).
Defined.
