(* ===== verification/DeletionEvidence.v ===== *)
(** * On which evidence a cloud counts as ready to be deleted

    A run of a program is its calls with their answers ([returns]).  The
    theorem about the check of DeletionPreflight.v is over every such run: if
    it says a cloud is eligible, then every party asked has answered in that
    run, validly and without a blocker, and nothing has expired.  A request
    admits an operation only right after such a check. *)

From S2P Require Export DeletionAgreement.

Local Open Scope Z_scope.

(** ** Runs *)

Inductive event :=
  | Event {X} (c : call X) (x : X).

(** The program makes these calls, is answered so, and returns that. *)
Fixpoint returns {A} (p : prog A) (es : list event) (a : A) : Prop :=
  match p with
  | Done b => es = [] ∧ b = a
  | Call c k => ∃ x es', es = Event c x :: es' ∧ returns (k x) es' a
  end.

Lemma returns_bind {A C} (p : prog A) (f : A → prog C) es b :
  returns (p ≫= f) es b → ∃ es1 a es2, es = es1 ++ es2 ∧ returns p es1 a ∧ returns (f a) es2 b.
Proof.
  revert es. induction p as [a|X c k IH]; intros es; simpl.
  - intros H. by exists [], a, es.
  - intros (x & es' & -> & (es1 & a & es2 & -> & H1 & H2)%IH).
    exists (Event c x :: es1), a, es2. split_and!; [done|by exists x, es1|done].
Qed.

Lemma run_returns {A} (p : prog A) w : ∃ es, returns p es (run p w).1.
Proof.
  revert w. induction p as [a|X c k IH]; intros w; simpl; [by exists []|].
  destruct (exec c w) as [x w']. destruct (IH x w') as [es H]. by exists (Event c x :: es), x, es.
Qed.

(** ** Blockers *)

Definition clean (m : blockers) : Prop := ∀ code, code ∈ reported_codes → m !! code = None.

Lemma clean_insert code b m : clean (<[code := b]> m) → (code ∉ reported_codes) ∧ clean m.
Proof.
  intros H. split.
  - intros Hc%H. by rewrite lookup_insert_eq in Hc.
  - intros c Hc%H. by apply lookup_insert_None in Hc as [? _].
Qed.

Lemma clean_add code m : clean (add_blocker code m) → (code ∉ reported_codes) ∧ clean m.
Proof. apply clean_insert. Qed.

Lemma unavailable_reported m : ¬ clean (add_blocker "evidence_unavailable" m).
Proof. intros [[] _]%clean_add. set_solver. Qed.

Lemma observer_codes_reported code : code ∈ observer_codes → code ∈ reported_codes.
Proof. set_solver. Qed.
Lemma billing_codes_reported code : code ∈ billing_codes → code ∈ reported_codes.
Proof. set_solver. Qed.

Lemma clean_observer m code : ¬ clean (observer_blocker m code).
Proof.
  unfold observer_blocker. intros [Hn _]%clean_add. case_bool_decide as Hc; [|set_solver].
  by apply Hn, observer_codes_reported.
Qed.

Lemma clean_foldl_observer codes m : clean (foldl observer_blocker m codes) → codes = [] ∧ clean m.
Proof.
  induction codes as [|code codes _] using rev_ind; [done|].
  rewrite foldl_app. simpl. by intros []%clean_observer.
Qed.

Lemma clean_foldl_billing codes m :
  clean (foldl (λ m code, add_blocker code m) m codes) → Forall (.∈ billing_codes) codes → codes = [].
Proof.
  induction codes as [|code codes _] using rev_ind; [done|]. rewrite foldl_app. simpl.
  intros [Hn _]%clean_add [_ [Hc _]%Forall_cons]%Forall_app. by destruct Hn; apply billing_codes_reported.
Qed.

Lemma valid_codes_known known codes seen : valid_codes known codes seen = true → Forall (.∈ known) codes.
Proof.
  revert seen. induction codes as [|code codes IH]; intros seen; simpl; [constructor|].
  intros H. destruct_bools. constructor; [done|]. by eapply IH.
Qed.

(** ** The observers *)

(** The first expiry is no later than this one. *)
Definition expires_by (expiry : option Time) (t : Time) : Prop :=
  ∃ x, expiry = Some x ∧ t_nanos x ≤ t_nanos t.

Lemma expires_by_earlier expiry t : expires_by (earlier expiry t) t.
Proof.
  destruct expiry as [x|]; simpl; [|by exists t]. unfold Before.
  destruct (t_nanos t <? t_nanos x) eqn:E; [by exists t|]. exists x. split; [done|]. lia.
Qed.
Lemma expires_by_mono expiry t b : expires_by expiry t → expires_by (earlier expiry b) t.
Proof.
  intros (x & -> & Hx). simpl. unfold Before.
  destruct (t_nanos b <? t_nanos x) eqn:E; [exists b|by exists x]. split; [done|]. lia.
Qed.

(** What one of them must have said, and at the clock reading [t] after its answer. *)
Record evidence_clean (scope : CloudDeletionResourceScope) (e : CloudDeletionResourceEvidence) (t : Time)
    : Prop := {
  clean_scope : Evidence_Scope e = scope;
  clean_complete : Evidence_Complete e = true;
  clean_receipt : Evidence_ReceiptID e ≠ "";
  clean_digest : handoffEvidenceDigest (Evidence_EvidenceSHA256 e) = true;
  clean_nothing_left : Evidence_Blockers e = Some [];
  clean_observed : After (Evidence_ObservedAt e) t = false;
  clean_recent : Before (Evidence_ObservedAt e) (GoTime.Add t (- (5 * Minute))) = false;
  clean_unexpired : After (Evidence_ExpiresAt e) t = true;
  clean_lifetime : After (Evidence_ExpiresAt e) (GoTime.Add (Evidence_ObservedAt e) (5 * Minute)) = false;
}.

Lemma valid_evidence_clean scope e t : valid_evidence scope e t = Some [] → evidence_clean scope e t.
Proof.
  unfold valid_evidence. destruct (Evidence_Blockers e) as [codes|] eqn:Eb; [|done].
  destruct (_ && _) eqn:E; [|done]. intros [= ->]. destruct_bools. by split.
Qed.

(** The calls that ask one: its name, its answer, and the clock after it. *)
Definition observer_calls (scope : CloudDeletionResourceScope)
    (a : string * CloudDeletionResourceEvidence * Time) : list event :=
  let '(name, e, t) := a in
  [Event DependencyErr (Ok tt); Event (ObserveCloudDeletion name scope) (Ok e); Event Clock t].

Lemma observe_clean scope names m expiry es m' expiry' :
  returns (observe_all scope names m expiry) es (m', expiry') → clean m' →
  clean m ∧ (∀ t, expires_by expiry t → expires_by expiry' t) ∧
  ∃ answers, answers.*1.*1 = names ∧ es = answers ≫= observer_calls scope ∧
    ∀ name e t, (name, e, t) ∈ answers →
      evidence_clean scope e t ∧ expires_by expiry' (Evidence_ExpiresAt e).
Proof.
  revert m expiry es. induction names as [|name names IH]; intros m expiry es; simpl.
  - intros [-> [= <- <-]] Hc. split_and!; [done|done|]. exists []. split_and!; [done|done|].
    intros ? ? ? []%not_elem_of_nil.
  - intros ([[]|e] & es1 & -> & H) Hc.
    2: { destruct H as [_ [= <- _]]. by apply unavailable_reported in Hc. }
    destruct H as (r & es2 & -> & now & es3 & -> & H).
    destruct r as [e|err].
    2: { exfalso. exact (unavailable_reported _ (proj1 (IH _ _ _ H Hc))). }
    destruct (valid_evidence scope e now) as [codes|] eqn:Ev.
    2: { exfalso. exact (unavailable_reported _ (proj1 (IH _ _ _ H Hc))). }
    destruct (IH _ _ _ H Hc) as (Hm & He & answers & <- & -> & Hall).
    apply clean_foldl_observer in Hm as [-> Hm].
    split_and!; [done|intros t Ht; by apply He, expires_by_mono|].
    exists ((name, e, now) :: answers). split_and!; [done|done|].
    intros name' e' t' [[= -> -> ->]|Hin]%elem_of_cons; [|by eapply Hall].
    split; [by apply valid_evidence_clean|apply He, expires_by_earlier].
Qed.

(** ** The conclusion *)

Lemma clean_reported m : omap (λ code, m !! code) reported_codes = [] → clean m.
Proof.
  intros H code Hc. destruct (m !! code) as [b|] eqn:E; [|done].
  assert (b ∈ omap (λ code, m !! code) reported_codes) as Hin by (apply list_elem_of_omap; eauto).
  rewrite H in Hin. by apply not_elem_of_nil in Hin.
Qed.

Lemma clean_local entry m : entry.1 ∈ reported_codes → clean (local_blocker entry m) → clean m ∧ entry.2 ≤ 0.
Proof.
  intros Hr. unfold local_blocker. destruct (0 <? entry.2) eqn:E; simpl; [|intros; split; [done|lia]].
  case_bool_decide as Hm; [by intros [? _]%clean_insert|]. intros Hc. by apply Hc in Hr.
Qed.

Lemma clean_if (b : bool) code m :
  code ∈ reported_codes → clean (if b then add_blocker code m else m) → b = false ∧ clean m.
Proof. destruct b; [by intros ? [? _]%clean_add|done]. Qed.

Lemma conclude_eligible initial final financial m expiry now1 now2 :
  Preflight_Eligible (conclude initial final financial m expiry now1 now2) = true →
  snap_scope final = snap_scope initial ∧ clean m ∧
  snap_products final ≤ 0 ∧ snap_devices final ≤ 0 ∧ snap_jobs final ≤ 0 ∧
  snap_lifecycleConflict final = false ∧
  expired (BP_ExpiresAt <$> financial) now1 = false ∧ expired expiry now2 = false.
Proof.
  unfold conclude. cbv zeta. cbn [Preflight_Eligible]. intros H%bool_decide_eq_true_1%clean_reported.
  assert (∀ f (m0 : blockers), clean match f with Some f => if BP_BalanceMinor f =? 0 then m0 else set_balance (BP_BalanceMinor f) m0
                 | None => m0 end → clean m0) as Hbal.
  { intros [f|] m0; [|done]. destruct (_ =? 0); [done|]. by intros [_ ?]%clean_insert. }
  apply Hbal in H. clear Hbal.
  apply clean_if in H as [Hl H]; [|set_solver].
  apply clean_local in H as [H Hj]; [|set_solver]. apply clean_local in H as [H Hd]; [|set_solver].
  apply clean_local in H as [H Hp]; [|set_solver].
  apply clean_if in H as [Hx2 H]; [|set_solver]. apply clean_if in H as [Hx1 H]; [|set_solver].
  destruct (decide (snap_scope final = snap_scope initial)) as [Hs|Hs];
    [rewrite bool_decide_eq_true_2 in H, Hx1 by done|rewrite bool_decide_eq_false_2 in H by done;
     by apply unavailable_reported in H].
  by split_and!.
Qed.

(** ** The theorem *)

Lemma billing_evidence_returns scope k es r :
  returns (billing_evidence scope k) es r →
  (∃ err es1, es = Event (CloudDeletionPreflight_ scope) (Err err) :: es1 ∧
     returns (k None (add_blocker "evidence_unavailable" ∅)) es1 r) ∨
  (∃ bp now es1, es = Event (CloudDeletionPreflight_ scope) (Ok bp) :: Event Clock now :: es1 ∧
     if ValidateCloudDeletionPreflight scope bp now
     then returns (k (Some bp) (foldl (λ m code, add_blocker code m) ∅ (default [] (BP_Blockers bp)))) es1 r
     else returns (k None (add_blocker "evidence_unavailable" ∅)) es1 r).
Proof.
  intros ([bp|err] & es1 & -> & H); [right|left; eauto].
  destruct H as (now & es2 & -> & H). exists bp, now, es2. split; [done|].
  by destruct (ValidateCloudDeletionPreflight scope bp now).
Qed.

(** Billing's answer is about this cloud, in force at the clock reading [t] after it, positive
    and without a balance. *)
Record billing_clean (scope : CloudDeletionScope) (bp : BillingPreflight) (t : Time) : Prop := {
  billing_scope : BP_Scope bp = scope;
  billing_currency : BP_Currency bp = CurrentCurrency;
  billing_no_blocker : BP_Blockers bp = Some [];
  billing_eligible : BP_Eligible bp = true;
  billing_settled : BP_BalanceMinor bp = 0;
  billing_observed : After (BP_ObservedAt bp) t = false;
  billing_recent : Before (BP_ObservedAt bp) (GoTime.Add t (- (5 * Minute))) = false;
  billing_unexpired : After (BP_ExpiresAt bp) t = true;
  billing_lifetime : After (BP_ExpiresAt bp) (GoTime.Add (BP_ObservedAt bp) (5 * Minute)) = false;
}.

(** A valid and clean answer of Billing is a plain yes. *)
Lemma validated_clean scope bp now :
  ValidateCloudDeletionPreflight scope bp now = true →
  clean (foldl (λ m code, add_blocker code m) ∅ (default [] (BP_Blockers bp))) →
  billing_clean scope bp now.
Proof.
  unfold ValidateCloudDeletionPreflight. destruct (BP_Blockers bp) as [codes|] eqn:Eb; [|done]. intros Hv Hc.
  destruct_bools.
  match goal with H : valid_codes _ _ _ = true |- _ => apply valid_codes_known in H; rename H into Hk end.
  apply clean_foldl_billing in Hc; [|done]. simpl in Hc. subst codes.
  match goal with H : BP_Eligible bp = bool_decide ([] = []) |- _ => rename H into He end.
  rewrite bool_decide_eq_true_2 in He by done. split; try done.
  match goal with H : BP_Eligible bp && _ = false |- _ => rewrite He in H; simpl in H; apply negb_false_iff in H end.
  lia.
Qed.

(** From the second snapshot on: the calls are the snapshot, and a clock reading for each
    expiry there is. *)
Lemma recheck_returns user cloud initial financial m expiry es pf :
  returns (recheck user cloud initial financial m expiry) es (Ok pf) →
  ∃ final now1 now2, pf = conclude initial final financial m expiry now1 now2 ∧
    es = Event (Transact (read_snapshot user cloud)) (Ok final) ::
      (if bool_decide (is_Some financial) && bool_decide (snap_scope final = snap_scope initial)
       then [Event Clock now1] else []) ++
      (if bool_decide (is_Some expiry) then [Event Clock now2] else []).
Proof.
  intros ([final|err] & es1 & -> & H); [|by destruct H as [_ ?]].
  cbv zeta in H. apply returns_bind in H as (e1 & now1 & e2 & -> & H1 & H).
  apply returns_bind in H as (e3 & now2 & e4 & -> & H2 & [-> [= <-]]).
  exists final, now1, now2. split; [done|]. rewrite app_nil_r. f_equal. f_equal.
  - destruct (_ && _); [by destruct H1 as (x & e5 & -> & -> & ->)|by destruct H1 as [-> _]].
  - case_bool_decide; [by destruct H2 as (x & e5 & -> & -> & ->)|by destruct H2 as [-> _]].
Qed.

(** The cloud was empty here at the end, in the state Billing and the observers were asked about. *)
Definition empty_snapshot (initial final : deletionLocalSnapshot) : Prop :=
  snap_scope final = snap_scope initial ∧ snap_products final ≤ 0 ∧ snap_devices final ≤ 0 ∧
  snap_jobs final ≤ 0 ∧ snap_lifecycleConflict final = false.

Lemma expires_by_after expiry now t : expires_by expiry t → expired expiry now = false → After t now = true.
Proof.
  intros (x & -> & Hx). simpl. intros H%negb_false_iff. unfold After in *. lia.
Qed.

(** From the observers on, with or without Billing's answer. *)
Lemma eligible_rest (user cloud : string) initial resources financial m es pf :
  returns (let m := if bool_decide (resources = []) then add_blocker "evidence_unavailable" m else m in
    observed ← observe_all (snap_scope initial) (order_by String.leb resources) m None;
    recheck user cloud initial financial observed.1 observed.2) es (Ok pf) →
  Preflight_Eligible pf = true →
  clean m ∧ resources ≠ [] ∧ ∃ answers final later now,
    answers.*1.*1 = order_by String.leb resources ∧
    es = (answers ≫= observer_calls (snap_scope initial)) ++
      Event (Transact (read_snapshot user cloud)) (Ok final) ::
      (if bool_decide (is_Some financial) then [Event Clock later] else []) ++ [Event Clock now] ∧
    empty_snapshot initial final ∧ expired (BP_ExpiresAt <$> financial) later = false ∧
    ∀ name e t, (name, e, t) ∈ answers →
      evidence_clean (snap_scope initial) e t ∧ After (Evidence_ExpiresAt e) now = true.
Proof.
  cbv zeta. intros H Hel.
  apply returns_bind in H as (e1 & [m' expiry] & e2 & -> & Hobs & H). simpl in H.
  apply recheck_returns in H as (final & n1 & n2 & -> & ->).
  apply conclude_eligible in Hel as (Hs & Hc & ? & ? & ? & ? & Hx1 & Hx).
  destruct (observe_clean _ _ _ _ _ _ _ Hobs Hc) as (Hm & _ & answers & Hn & -> & Hall).
  case_bool_decide as Er; [by apply unavailable_reported in Hm|].
  assert (is_Some expiry) as Hexp.
  { destruct answers as [|[[name e] t] answers].
    - simpl in Hn. symmetry in Hn. pose proof (order_by_perm String.leb resources) as P.
      rewrite Hn in P. by apply Permutation_nil in P.
    - destruct (Hall name e t) as [_ (x & -> & _)]; [left|by exists x]. }
  split_and!; [done|done|]. exists answers, final, n1, n2. split_and!; [done| |by split_and!|done|].
  - rewrite (bool_decide_eq_true_2 (snap_scope final = _)), andb_true_r, (bool_decide_eq_true_2 (is_Some expiry))
      by done. done.
  - intros name e t (Hv & Hb)%Hall. split; [done|by eapply expires_by_after].
Qed.

(** C12: A cloud is reported ready for deletion only in runs of one shape.  The cloud is read; Billing is
    asked about the cloud with the owner and the ownership that were read, and answers, for
    the reading of the clock that follows, validly that the account can be closed, with no
    balance and nothing in the way; every configured observer, and there is one, is asked about
    the same scope in the order of the names, and each answers, for the reading of the clock that
    follows its answer, validly and completely that nothing is left; then the cloud is read
    again: the scope is still the one they were asked about, the cloud is empty and no other
    operation holds it; and by the two readings of the clock that come last Billing's answer
    and every observer's have not expired. *)
Theorem eligible_cloud_has_evidence (s : StoreOptions) (user cloud : string) (es : list event)
    (pf : CloudDeletionPreflight) :
  returns (PreflightDeveloperBrandCloudDeletion s user cloud) es (Ok pf) → Preflight_Eligible pf = true →
  ∃ resources initial bp validated answers final later now,
    s_deletionPreflight s = Some resources ∧ resources ≠ [] ∧
    answers.*1.*1 = order_by String.leb resources ∧
    es = [Event (Transact (read_snapshot user cloud)) (Ok initial);
          Event (CloudDeletionPreflight_ (RS_Scope (snap_scope initial))) (Ok bp); Event Clock validated]
      ++ (answers ≫= observer_calls (snap_scope initial))
      ++ [Event (Transact (read_snapshot user cloud)) (Ok final); Event Clock later; Event Clock now] ∧
    empty_snapshot initial final ∧
    billing_clean (RS_Scope (snap_scope initial)) bp validated ∧ After (BP_ExpiresAt bp) later = true ∧
    ∀ name e t, (name, e, t) ∈ answers →
      evidence_clean (snap_scope initial) e t ∧ After (Evidence_ExpiresAt e) now = true.
Proof.
  intros ([initial|err] & es1 & -> & H) Hel; [|by destruct H as [_ ?]].
  destruct (s_deletionPreflight s) as [resources|].
  2: { apply recheck_returns in H as (final & n1 & n2 & -> & _).
       by apply conclude_eligible in Hel as (_ & []%unavailable_reported & _). }
  apply billing_evidence_returns in H as [(err & es2 & -> & H)|(bp & validated & es2 & -> & H)].
  { by apply eligible_rest in H as [[]%unavailable_reported _]. }
  destruct (ValidateCloudDeletionPreflight _ bp validated) eqn:Ev;
    [|by apply eligible_rest in H as [[]%unavailable_reported _]].
  apply eligible_rest in H as (Hc & ? & answers & final & later & now & ? & -> & ? & Hx & Hall); [|done].
  exists resources, initial, bp, validated, answers, final, later, now.
  rewrite (bool_decide_eq_true_2 (is_Some (Some bp))) by eauto.
  split_and!; try done; [by apply validated_clean|]. simpl in Hx. by apply negb_false_iff in Hx.
Qed.

Definition sample_check : prog (res CloudDeletionPreflight) :=
  PreflightDeveloperBrandCloudDeletion sample_options "user-1" sample_org.

Lemma eligible_cloud_has_evidence_witness :
  ∃ es initial answers, returns sample_check es (Ok (mkPreflight true [])) ∧
    answers.*1.*1 = ["video"] ∧
    ∀ name e t, (name, e, t) ∈ answers → evidence_clean (snap_scope initial) e t.
Proof.
  destruct (run_returns sample_check sample_core) as [es H].
  assert ((run sample_check sample_core).1 = Ok (mkPreflight true [])) as E by (vm_compute; reflexivity).
  rewrite E in H.
  destruct (eligible_cloud_has_evidence sample_options "user-1" sample_org es (mkPreflight true []) H eq_refl)
    as (resources & initial & bp & validated & answers & final & later & now & [= <-] & _ & Hn & _ & _ & _ & _ & Hall).
  exists es, initial, answers. split_and!; [exact H|exact Hn|]. intros name e t Hin. apply (Hall name e t Hin).
Defined.

(** A request for a deletion succeeds in three ways only: the first transaction found the
    caller's operation; or deletions are configured, not for recovery only, the check of the cloud ran
    and found it eligible, and the very next call admitted the operation, with the versions the first
    transaction saw and the configured producers; or the check did not find the cloud eligible and the
    operation was there by then. *)
Theorem request_admits_after_check (s : StoreOptions) (user cloud key : string) (es : list event)
    (op : CloudDeletionOperation) :
  returns (RequestDeveloperCloudDeletion s user cloud key) es (Ok op) →
  ValidManagedCloudKey key = true ∧
  ((∃ versions, es = [Event (Transact (request_replay user cloud key)) (Ok (versions, Some op))]) ∨
   ∃ deletion versions es1 es2 pf,
     s_deletion s = Some deletion ∧ opt_recoveryOnly deletion = false ∧
     es = Event (Transact (request_replay user cloud key)) (Ok (versions, None)) :: es1 ++ es2 ∧
     returns (PreflightDeveloperBrandCloudDeletion s user cloud) es1 (Ok pf) ∧
     if Preflight_Eligible pf
     then es2 = [Event (Transact (request_admission (opt_Producers deletion) user cloud key versions)) (Ok op)]
     else ∃ prior, es2 = [Event (Transact (replay_same_request user cloud key)) (Ok prior);
                          Event (Transact (GetDeveloperCloudDeletion user cloud (Deletion_ID prior))) (Ok op)]).
Proof.
  unfold RequestDeveloperCloudDeletion. destruct (ValidManagedCloudKey key); simpl negb; cbv iota; [|by intros [_ ?]].
  intros ([[versions [prior|]]|err] & es0 & -> & H); split; try done.
  - destruct H as [-> [= ->]]. left. by exists versions.
  - destruct (s_deletion s) as [deletion|] eqn:Ed; [|by destruct H]. destruct (opt_recoveryOnly deletion) eqn:Er; [by destruct H|].
    apply returns_bind in H as (es1 & [pf|err] & es2 & -> & Hp & H); [|by destruct H].
    right. exists deletion, versions, es1, es2, pf. split_and!; [done|done|done|done|].
    destruct (Preflight_Eligible pf).
    + destruct H as (x & es' & -> & -> & <-). done.
    + destruct H as ([prior|err] & es' & -> & H); [|by destruct H]. destruct H as (x & es3 & -> & -> & <-). eauto.
  - by destruct H.
Qed.

Lemma request_admits_after_check_witness :
  ∃ es op, ValidManagedCloudKey "key-1" = true ∧
    returns (RequestDeveloperCloudDeletion sample_options "user-1" sample_org "key-1") es (Ok op).
Proof.
  destruct (run_returns (RequestDeveloperCloudDeletion sample_options "user-1" sample_org "key-1") sample_core) as [es H].
  destruct ((run (RequestDeveloperCloudDeletion sample_options "user-1" sample_org "key-1") sample_core).1) as [op|e] eqn:E;
    [|vm_compute in E; discriminate].
  exists es, op. split; [|exact H]. exact (proj1 (request_admits_after_check _ _ _ _ _ _ H)).
Defined.
