(* ===== verification/DeletionOutcomes.v ===== *)
(** * What the operations of a deletion achieve

    The functional side: what a completed deletion leaves of the cloud, what a
    request finds when it is repeated, and that a deletion that is not finished is claimed by
    the next worker. *)

From S2P Require Export DeletionAgreement.

Local Open Scope Z_scope.

(** ** Completion *)

(** Nothing of the cloud is usable any more. *)
Record cloud_gone (s : DeletionDB) (cloud : string) (deletedAt : Time) : Prop := {
  gone_organization : ∃ o, organizations (del_registry s) !! cloud = Some o ∧
    Organization_DeletedAt o = Some deletedAt;
  gone_products : cloud_products s cloud = [];
  gone_devices : cloud_devices s cloud = [];
  gone_members m : m ∈ organization_members (del_registry s) →
    Member_OrganizationID m = cloud → Member_DisabledAt m ≠ None;
  gone_assignments a : a ∈ role_assignments (del_registry s) →
    ra_organization_id a = Some cloud → ra_disabled_at a ≠ None;
  gone_tokens id row : device_claim_tokens (del_registry s) !! id = Some row →
    Token_OrganizationID (token_row row) = Some cloud →
    Token_ClaimedAt (token_row row) ≠ None ∨ Token_RevokedAt (token_row row) ≠ None;
  gone_invitations : (cloud, "pending") ∉ ct_invitations (del_clouds s);
}.

Lemma verify_completion_ok id deletedAt s u s' :
  verify_completion id deletedAt s = (Ok u, s') →
  s' = s ∧ ∃ op o, dt_operations (del_tables s) !! id = Some op ∧
    organizations (del_registry s) !! Deletion_CloudID op = Some o ∧
    Deletion_Phase op = PhaseSucceeded ∧ Organization_DeletedAt o = Some deletedAt ∧
    cloud_products s (Deletion_CloudID op) = [] ∧ cloud_devices s (Deletion_CloudID op) = [] ∧
    (∀ m, m ∈ organization_members (del_registry s) → Member_OrganizationID m = Deletion_CloudID op →
       Member_DisabledAt m ≠ None) ∧
    (Deletion_CloudID op, "pending") ∉ ct_invitations (del_clouds s).
Proof.
  unfold verify_completion. rewrite bind_gets_ok. cbv zeta. rewrite reject_if_ok. intros [H ->]. split; [done|].
  apply negb_false_iff in H. destruct (dt_operations _ !! id) as [op|]; [|done].
  destruct (organizations _ !! _) as [o|] eqn:Ho; [|done]. destruct_bools. exists op, o.
  split_and!; try done. intros m Hm Hcloud Hd.
  match goal with H : existsb _ _ = false |- _ => rename H into Hx end.
  rewrite <-not_true_iff_false, existsb_exists in Hx. apply Hx. exists m.
  split; [by apply list_elem_of_In|]. by rewrite !bool_decide_eq_true_2.
Qed.

(** What the last statements of the completion leave alone: the grants that were revoked before. *)
Definition grants (s : DeletionDB) : list RoleAssignment * gmap string TokenRow :=
  (role_assignments (registry (del_store s)), device_claim_tokens (registry (del_store s))).
Definition same_grants (s s' : DeletionDB) : Prop := grants s' = grants s.

#[local] Instance same_grants_preorder : PreOrder same_grants.
Proof. unfold same_grants. split; [done|]. intros a b c ? ?. congruence. Qed.
Abbreviation leaves_grants := (steps same_grants).

Lemma grants_gets {A} (f : DeletionDB → A) : leaves_grants (gets f).
Proof. by intros s r s' [= _ <-]. Qed.
Lemma grants_row {A} e (o : option A) : leaves_grants (row_or e o).
Proof. destruct o; by intros s r s' [= _ <-]. Qed.
Lemma grants_reject b e : leaves_grants (reject_if b e).
Proof. destruct b; by intros s r s' [= _ <-]. Qed.
Lemma grants_clock : leaves_grants clock_timestamp.
Proof. by intros s r s' [= _ <-]. Qed.
Lemma grants_tables f : leaves_grants (tables f).
Proof. by intros s r s' [= _ <-]. Qed.
Lemma grants_versions org f : leaves_grants (modify (λ s, set_versions org (f s) s)).
Proof. by intros s r s' [= _ <-]. Qed.
Lemma grants_if {A} (b : bool) (m n : Del A) : leaves_grants m → leaves_grants n → leaves_grants (if b then m else n).
Proof. by destruct b. Qed.
#[local] Hint Resolve grants_gets grants_row grants_reject grants_clock grants_tables grants_versions : rtk.

#[local] Hint Extern 1 (PreOrder _) => apply _ : rtk.

Lemma grants_guard_tombstone org : leaves_grants (guard_tombstone org).
Proof. unfold guard_tombstone. eauto with rtk. Qed.
Lemma grants_bump org : leaves_grants (bump_authorization org).
Proof. apply steps_bind; [apply _|apply grants_guard_tombstone|intros _]. by intros s r s' [= _ <-]. Qed.
Lemma grants_touch org : leaves_grants (touch_organization org).
Proof. apply steps_bind; [apply _|apply grants_clock|intros _; apply grants_guard_tombstone]. Qed.
Lemma grants_wake id : leaves_grants (wake_job id).
Proof. unfold wake_job. eauto with rtk. Qed.
Lemma grants_guard_phase old new : leaves_grants (guard_phase old new).
Proof. unfold guard_phase. eauto 20 with rtk. Qed.
#[local] Hint Resolve grants_guard_tombstone grants_bump grants_touch grants_wake grants_guard_phase grants_if : rtk.

Lemma grants_update id guard phase blockers : leaves_grants (update_deletion id guard phase blockers).
Proof.
  unfold update_deletion. apply steps_bind; [apply _|auto with rtk|]. intros s.
  destruct (dt_operations _ !! id) as [old|]; [|auto with rtk]. destruct (negb _); [auto with rtk|].
  cbv zeta. repeat (apply steps_bind; [apply _|auto with rtk|intros _]). auto with rtk.
Qed.

Lemma grants_audit op action sha : leaves_grants (deletionAudit op action sha).
Proof. intros s r s' [= _ <-]. reflexivity. Qed.

(** The tombstone itself. *)
Lemma grants_tombstone cloud t : leaves_grants (set_tombstone cloud t).
Proof.
  apply steps_bind; [apply _|auto with rtk|]. intros s. destruct (organizations _ !! cloud) as [o|]; [|auto with rtk].
  apply steps_bind; [apply _|auto with rtk|intros _]. apply steps_bind; [apply _|auto with rtk|intros _].
  apply steps_bind; [apply _|auto with rtk|intros _]. by intros s0 r s' [= _ <-].
Qed.

Lemma coalesce_some t now : coalesce_time t now ≠ None.
Proof. by destruct t. Qed.

(** Revocation reaches every assignment and every token nobody claimed. *)
Lemma revoke_access_ok cloud s u s' :
  revoke_access cloud s = (Ok u, s') →
  (∀ a, a ∈ (grants s').1 → ra_organization_id a = Some cloud → ra_disabled_at a ≠ None) ∧
  (∀ id row, (grants s').2 !! id = Some row → Token_OrganizationID (token_row row) = Some cloud →
     Token_ClaimedAt (token_row row) ≠ None ∨ Token_RevokedAt (token_row row) ≠ None).
Proof.
  unfold revoke_access. rewrite bind_gets_ok. intros [= _ <-]. simpl. split.
  - intros a (a0 & -> & Ha)%list_elem_of_fmap. unfold disable_assignment.
    case_bool_decide; simpl; [intros _; apply coalesce_some|done].
  - intros id row. rewrite lookup_fmap_Some. intros (row0 & <- & _). unfold revoke_unclaimed.
    case_bool_decide as Ho; simpl; [|done]. case_bool_decide as Hc; simpl; [|by left].
    intros _. right. apply coalesce_some.
Qed.

(** Evidence that an UPDATE of an operation leaves alone. *)
Definition same_completions (s s' : DeletionDB) : Prop :=
  dt_completions (del_tables s') = dt_completions (del_tables s).
#[local] Instance same_completions_preorder : PreOrder same_completions.
Proof. unfold same_completions. split; [done|]. intros a b c ? ?. congruence. Qed.

Lemma completions_leaves {A} (m : Del A) : leaves_evidence m → steps same_completions m.
Proof. intros H s r s' Hm%H. unfold same_completions. by rewrite Hm. Qed.

Lemma completions_update id guard phase blockers : steps same_completions (update_deletion id guard phase blockers).
Proof.
  unfold update_deletion. apply steps_bind; [apply _|apply completions_leaves; auto with rtk|]. intros s.
  destruct (dt_operations _ !! id) as [old|]; [|auto with rtk]. destruct (negb _); [auto with rtk|]. cbv zeta.
  apply steps_bind; [apply _|apply completions_leaves; unfold guard_phase; auto 10 with rtk|intros _].
  apply steps_bind; [apply _|apply completions_leaves, leaves_if; [apply leaves_bump|auto with rtk]|intros _].
  apply steps_bind; [apply _|apply completions_leaves, leaves_if; [apply leaves_touch|auto with rtk]|intros _].
  apply steps_bind; [apply _|by intros s0 r s' [= _ <-]|intros _].
  apply steps_bind; [apply _| |auto with rtk].
  destruct (bool_decide _); [auto with rtk|]. intros s0 r s' H. unfold wake_job in H. by run_statement H.
Qed.

Lemma insert_completion_ok id closed receipt s deleted s' :
  insert_completion id closed receipt s = (Ok deleted, s') →
  dt_operations (del_tables s') = dt_operations (del_tables s) ∧
  dt_completions (del_tables s') !! id = Some (mkCompletion (pg_timestamptz closed) receipt deleted).
Proof.
  unfold insert_completion. intros H. run_statement H. split; [done|]. by rewrite lookup_insert_eq.
Qed.

(** C7: When a completion succeeds, either the operation was complete before and nothing changed, or
    Billing's receipt and closing time are recorded, the operation has succeeded, and the cloud is
    gone as a whole: its organization is deleted at the recorded time, it has no products and no
    devices, every member and role assignment is disabled, every claim token nobody used is revoked
    and no invitation is pending. *)
Theorem completeDeletion_tombstones (op : CloudDeletionOperation) (ack : ClosureAcknowledgment)
    (s s' : DeletionDB) (u : unit) :
  Deletion_CloudID <$> dt_operations (del_tables s) !! Deletion_ID op = Some (Deletion_CloudID op) →
  completeDeletion op ack s = (Ok u, s') →
  valid_ack op ack = true ∧
  ((Deletion_Phase <$> dt_operations (del_tables s) !! Deletion_ID op = Some PhaseSucceeded ∧ s' = s) ∨
   ∃ deletedAt,
     Deletion_Phase <$> dt_operations (del_tables s') !! Deletion_ID op = Some PhaseSucceeded ∧
     dt_completions (del_tables s') !! Deletion_ID op =
       Some (mkCompletion (pg_timestamptz (CAck_ClosedAt ack)) (CAck_ReceiptSHA256 ack) deletedAt) ∧
     cloud_gone s' (Deletion_CloudID op) deletedAt).
Proof.
  intros Hcloud. unfold completeDeletion. cbv zeta. rewrite bind_reject_ok. intros [Hv H]. apply negb_false_iff in Hv.
  split; [done|]. rewrite transaction_ok in H.
  apply bind_ok in H as (current & s1 & Hcur & H). unfold scan_deletion in Hcur.
  apply bind_gets_ok, row_or_ok in Hcur as [Hcur ->]. rewrite Hcur in *. injection Hcloud as Hcloud.
  case_bool_decide as Hph; [left; injection H as _ <-; simpl; by rewrite Hph|right].
  apply bind_reject_ok in H as [_ H]. apply leaves_bind_ok in H as (? & s2 & _ & E2 & H); [|apply leaves_empty].
  apply bind_ok in H as (deleted & s3 & [E3 Hc]%insert_completion_ok & H). exists deleted.
  apply leaves_bind_ok in H as (? & s4 & _ & E4 & H); [|apply leaves_members].
  apply leaves_bind_ok in H as (? & s5 & _ & E5 & H); [|apply leaves_invitations].
  apply leaves_bind_ok in H as (? & s6 & [Hassign Htok]%revoke_access_ok & E6 & H); [|apply leaves_access].
  apply bind_ok in H as (? & s7 & H7 & H). pose proof (leaves_tombstone _ _ _ _ _ H7) as E7.
  apply grants_tombstone in H7.
  apply bind_ok in H as (row & s8 & H8 & H). pose proof (completions_update _ _ _ _ _ _ _ H8) as C8.
  pose proof (grants_update _ _ _ _ _ _ _ H8) as G8. apply update_deletion_operations in H8.
  apply bind_ok in H as (? & s9 & H9 & H). pose proof (leaves_audit _ _ _ _ _ _ H9) as E9.
  apply grants_audit in H9. apply verify_completion_ok in H as (-> & op' & o & Hop & Ho & Hp & Hd & Hpr & Hdv & Hm & Hin).
  assert (Deletion_CloudID op' = Deletion_CloudID op) as Ecloud.
  { rewrite E7, E6, E5, E4, E3, E2, Hcur in H8. destruct H8 as [_ H8].
    rewrite E9, H8, lookup_insert_eq in Hop. by injection Hop as <-. }
  rewrite Ecloud in *. assert (grants s9 = grants s6) as Eg by (unfold same_grants in *; congruence).
  rewrite <-Eg in Hassign, Htok. split_and!.
  - by rewrite Hop, <-Hp.
  - unfold same_completions in C8. by rewrite E9, C8, E7, E6, E5, E4.
  - split; eauto.
Qed.

(** ** Requests *)

(** In the order of the query the row under the caller's own key comes first. *)
Lemma head_order_by {A} (own : A → bool) l x :
  x ∈ l → own x = true → (∀ y, y ∈ l → own y = true → y = x) →
  head (order_by (λ a b, own a || negb (own b)) l) = Some x.
Proof.
  intros Hx Ho Hu. assert (∃ y, head (order_by (λ a b, own a || negb (own b)) l) = Some y ∧ own y = true) as (y & Hy & Hoy).
  { clear Hu. induction l as [|z l IH]; [by apply not_elem_of_nil in Hx|]. simpl.
    apply elem_of_cons in Hx as [<-|Hx].
    - destruct (order_by _ l) as [|y rest]; simpl; [by eauto|]. rewrite Ho. simpl. eauto.
    - destruct (IH Hx) as (y & Hy & Hoy). destruct (order_by _ l) as [|y' rest]; [done|]. simpl in *.
      injection Hy as ->. destruct (own z) eqn:Ez; simpl; [by eauto|]. rewrite Hoy. simpl. eauto. }
  rewrite Hy. f_equal. apply Hu; [|done]. rewrite <-elem_of_order_by.
  destruct (order_by _ l) as [|y' rest] eqn:E; [done|]. injection Hy as ->. rewrite E. left.
Qed.

(** The caller's own operation is what a request is compared with. *)
Lemma prior_own t user cloud key id op :
  dt_operations t !! id = Some op → Deletion_CloudID op = cloud → Deletion_OwnerUserID op = user →
  Deletion_Key op = key →
  (∀ i d, dt_operations t !! i = Some d → Deletion_CloudID d = cloud → Deletion_OwnerUserID d = user →
     Deletion_Key d = key → d = op) →
  prior_deletion t user cloud key = Some op.
Proof.
  intros Hop <- <- <- Hu. unfold prior_deletion. apply head_order_by.
  - apply list_elem_of_filter. rewrite !bool_decide_eq_true_2 by done. split; [by auto|].
    apply elem_of_rows_of. eauto.
  - by rewrite !bool_decide_eq_true_2.
  - intros y [[Hc _] [i Hi]%elem_of_rows_of]%list_elem_of_filter Hy. destruct_bools. by eapply Hu.
Qed.

Lemma head_none_order {A} before (l : list A) : head (order_by before l) = None → ∀ x, x ∉ l.
Proof.
  intros H x Hx. rewrite <-(elem_of_order_by before x l) in Hx. destruct (order_by before l); [|done].
  by apply not_elem_of_nil in Hx.
Qed.

Lemma prior_none t user cloud key i d :
  prior_deletion t user cloud key = None → dt_operations t !! i = Some d → Deletion_CloudID d = cloud →
  Deletion_Phase d = PhaseCanceled ∧ ¬ (Deletion_OwnerUserID d = user ∧ Deletion_Key d = key).
Proof.
  unfold prior_deletion. intros Hn Hd Hc. pose proof (head_none_order _ _ Hn d) as Hd'. clear Hn.
  rename Hd' into Hn.
  rewrite list_elem_of_filter in Hn. split.
  - destruct (decide (Deletion_Phase d = PhaseCanceled)) as [|Hne]; [done|]. destruct Hn.
    split; [by auto|]. apply elem_of_rows_of. eauto.
  - intros [Hu Hk]. apply Hn. rewrite !bool_decide_eq_true_2 by done.
    split; [by auto|]. apply elem_of_rows_of. eauto.
Qed.

Lemma insert_participants_ok id names s u s' :
  mapM (insert_participant id) names s = (Ok u, s') →
  dt_operations (del_tables s') = dt_operations (del_tables s) ∧
  ∀ p, (id, p) ∈ dt_participants (del_tables s') ↔ p ∈ names ∨ (id, p) ∈ dt_participants (del_tables s).
Proof.
  revert s u. induction names as [|name names IH]; intros s u H; [injection H as _ <-; set_solver|].
  simpl in H. apply bind_ok in H as (v & s1 & H1 & H). apply bind_ok in H as (vs & s2 & H2 & [= _ <-]).
  unfold insert_participant in H1. rewrite bind_gets_ok, !bind_reject_ok in H1. destruct H1 as (_ & _ & [= _ <-]).
  destruct (IH _ _ H2) as [-> Hp]. split; [done|]. intros p. rewrite Hp. simpl. set_solver.
Qed.

Lemma lock_owner_ok user cloud s v s' :
  lockDeletionOwner user cloud s = (Ok v, s') → s' = s ∧ v = versions_of s cloud.
Proof.
  unfold lockDeletionOwner, getDeveloperUserTx. intros H. apply bind_ok in H as (u & s1 & Hu & H).
  apply bind_gets_ok, row_or_ok in Hu as [_ ->]. apply bind_reject_ok in H as [_ H].
  apply bind_gets_ok, row_or_ok in H as [Hv ->]. split; [done|].
  apply bind_Some in Hv as (o & _ & Hv). by destruct (_ && _); simplify_eq.
Qed.

(** Asking for a deletion again changes nothing: a request that succeeds leaves an operation
    with the caller's key; it created that operation only if the caller had none under the key and
    the cloud no other that is not canceled, and then the cloud was empty, the versions were those
    the caller saw, and exactly the configured producers take part; and until the operation is
    there, every repetition of the request finds this very operation. *)
Theorem deletion_request_idempotent (producers : list string) (user cloud key : string) (versions : Z * Z)
    (s s' : DeletionDB) (op : CloudDeletionOperation) :
  request_admission producers user cloud key versions s = (Ok op, s') →
  Deletion_OwnerUserID op = user ∧ Deletion_Key op = key ∧
  replay_deletion user cloud key s' = (Ok (Some op), s') ∧
  ((prior_deletion (del_tables s) user cloud key = Some op ∧ del_tables s' = del_tables s) ∨
   (prior_deletion (del_tables s) user cloud key = None ∧ cloud_empty s cloud = true ∧
    versions_of s cloud = versions ∧ Deletion_Phase op = PhasePreparing ∧
    dt_operations (del_tables s') = <[Deletion_ID op := op]> (dt_operations (del_tables s)) ∧
    (∀ id d, dt_operations (del_tables s) !! id = Some d → Deletion_CloudID d = cloud →
       Deletion_Phase d = PhaseCanceled) ∧
    ∀ p, (Deletion_ID op, p) ∈ dt_participants (del_tables s') ↔
      p ∈ producers ∨ (Deletion_ID op, p) ∈ dt_participants (del_tables s))).
Proof.
  unfold request_admission. rewrite transaction_ok.
  intros H. apply leaves_bind_ok in H as (current & s1 & Hl & E1 & H); [|apply leaves_owner].
  apply lock_owner_ok in Hl as [-> ->]. apply bind_ok in H as (prior & s2 & Hp & H).
  unfold replay_deletion in Hp. rewrite bind_gets_ok in Hp.
  destruct (prior_deletion (del_tables s) user cloud key) as [prior'|] eqn:Epr.
  { apply bind_reject_ok in Hp as [Hown [= <- <-]]. injection H as <- <-. destruct_bools.
    split_and!; [done|done| |by left]. unfold replay_deletion. rewrite bind_gets_run, Epr, bind_reject_run.
    by rewrite !bool_decide_eq_true_2. }
  injection Hp as <- <-. apply bind_reject_ok in H as [Hv H]. destruct_bools.
  apply bind_ok in H as (? & s3 & He & H). unfold cloudDeletionEmptyTx in He.
  apply bind_gets_ok, reject_if_ok in He as [He ->]. apply negb_false_iff in He.
  apply leaves_bind_ok in H as (id & s4 & _ & E4 & H); [|apply leaves_uuid].
  apply leaves_bind_ok in H as (cutoff & s5 & _ & E5 & H); [|auto with rtk].
  rewrite bind_gets_run in H. cbv zeta in H. apply bind_ok in H as (op' & s6 & Hins & H).
  apply insert_deletion_ok in Hins as [[_ [? ?]]|([= ->] & _ & Hnew & Hfree & E6)]; [done|].
  apply bind_ok in H as (names & s7 & [Eo Hp]%insert_participants_ok & H).
  apply leaves_bind_ok in H as (? & s8 & _ & E8 & [= <- <-]); [|apply leaves_audit].
  rewrite E6, E5, E4 in Eo, Hp. rewrite E5, E4 in Hfree. simpl in Eo, Hp.
  split_and!; [done|done| |right; split_and!; try done].
  - unfold replay_deletion. rewrite bind_gets_run.
    rewrite (prior_own _ user cloud key id (mkDeletion id cloud PhasePreparing [] (del_now s5) (del_now s5) user
      versions.1 versions.2 (pg_timestamptz cutoff) (request_digest (mkBinding (mkScope cloud user versions.1) id
      (pg_timestamptz cutoff)) versions.2 key) key)); [by rewrite bind_reject_run, !bool_decide_eq_true_2|..|];
      rewrite ?E8, ?Eo; [by rewrite lookup_insert_eq|done..|].
    intros i d. rewrite lookup_insert_Some. intros [[_ <-]|[_ Hd]] Hc Hu Hk; [done|].
    destruct (prior_none _ _ _ _ _ _ Epr Hd Hc) as [_ []]. done.
  - by rewrite E8, Eo.
  - intros p. rewrite E8, Hp, elem_of_order_by. done.
Qed.


(** ** The jobs *)

Lemma lease_jobs_ids until rows s :
  ∃ jobs s', lease_jobs until rows s = (Ok jobs, s') ∧ Job_OperationID <$> jobs = rows.*1.
Proof.
  revert s. induction rows as [|[id j] rows IH]; intros s; simpl; [by exists [], s|].
  unfold del_uuid, on_store, zoom, tables, modify, gets. unfold mbind at 1, M_bind. simpl.
  unfold mbind at 1, M_bind. simpl. unfold mbind at 1, M_bind. simpl.
  unfold mbind at 1, M_bind.
  match goal with |- context [lease_jobs until rows ?s1] => destruct (IH s1) as (jobs & s' & -> & Hi) end.
  eexists _, s'. split; [done|]. simpl. by f_equal.
Qed.

(** What a claim returns, when its arguments are in range. *)
Lemma claim_ids limit_ lease s :
  1 ≤ limit_ ≤ 128 → 30 * Second ≤ lease ≤ 5 * Minute →
  ∃ jobs s', ClaimCloudDeletionJobs limit_ lease s = (Ok jobs, s') ∧
    Job_OperationID <$> jobs = (job_candidates (del_tables s) (del_clock s (del_readings s)) limit_).*1.
Proof.
  intros Hl Hd. unfold ClaimCloudDeletionJobs. rewrite bind_reject_run.
  assert ((limit_ <? 1) || (128 <? limit_) || (lease <? 30 * Second) || (5 * Minute <? lease) = false) as ->
    by (rewrite !orb_false_iff; lia).
  set (clock := del_clock s (del_readings s)).
  destruct (lease_jobs_ids (GoTime.Add clock (interval_ms lease)) (job_candidates (del_tables s) clock limit_)
    (mkDeletionDB (del_store s) (del_tables s) (del_clouds s) (del_clock s) (S (del_readings s))))
    as (jobs & s' & Hj & Hi).
  exists jobs, s'. split; [|done]. apply transaction_ok. exact Hj.
Qed.

Section scheduling.
Context {B : Type} `{!Billing B}.
#[local] Abbreviation world := (@DeletionSaga.world B).
#[local] Abbreviation tabs W := (del_tables (c_db (w_core W))).

(** C31: No deletion is forgotten, whatever crashed: in every reachable world an operation that is
    neither succeeded nor canceled has a job, and there is a time from which on every claim that has
    room for all jobs returns it, until somebody leases it or puts it back. *)
Theorem unfinished_deletion_is_claimed (w : @core B) (W : world) (id : string) (p : DeletionPhase)
    (limit_ lease : Z) :
  fresh w → rtc world_step (mkWorld w []) W →
  phase_of W id = Some p → p ≠ PhaseSucceeded → p ≠ PhaseCanceled →
  1 ≤ limit_ ≤ 128 → Z.of_nat (size (dt_jobs (tabs W))) ≤ limit_ → 30 * Second ≤ lease ≤ 5 * Minute →
  ∃ due, ∀ s, del_tables s = tabs W → t_nanos due ≤ t_nanos (del_clock s (del_readings s)) →
    ∃ jobs s', ClaimCloudDeletionJobs limit_ lease s = (Ok jobs, s') ∧ id ∈ Job_OperationID <$> jobs.
Proof.
  intros Hf Hr Hp Hs Hc Hl Hsize Hd. destruct (world_steps_evolve _ _ (fresh_inv _ Hf) Hr) as [_ He].
  destruct (fresh_inv _ Hf) as [Hi _]. destruct (He Hi) as (_ & Ht & _). clear He.
  apply fmap_Some in Hp as (op & Hop & ->).
  assert (is_Some (dt_jobs (tabs W) !! id)) as [j Hj].
  { destruct (ev_scheduled _ _ Ht id) as [[x Hx]|?]; [by exists op| |done].
    destruct Hf as (E & _). simpl in Hx. by rewrite E in Hx. }
  set (until := match job_lease j with None => t_nanos (job_available_at j) | Some (_, u) => t_nanos u end).
  exists (mkTime (t_nanos (job_available_at j) `max` until) 0). simpl. intros s Es Hdue.
  destruct (claim_ids limit_ lease s Hl Hd) as (jobs & s' & Hcl & Hids). exists jobs, s'. split; [done|].
  rewrite Hids, Es. apply list_elem_of_fmap. exists (id, j). split; [done|].
  unfold job_candidates, limit. rewrite take_ge.
  - apply elem_of_order_by, list_elem_of_filter. split; [|by apply elem_of_map_to_list]. simpl.
    unfold job_ready. rewrite Hop. rewrite bool_decide_eq_false_2 by tauto. simpl.
    apply andb_true_iff. split; [lia|]. unfold until in Hdue. destruct (job_lease j) as [[l u]|]; [lia|done].
  - rewrite (Permutation_length (order_by_perm _ _)).
    etrans; [apply length_filter|]. rewrite length_map_to_list. lia.
Qed.
End scheduling.

(** ** The theorems on the sample cloud *)

Definition sample_requested : @core RefBilling := run_work sample_core sample_deletion_request.

Lemma sample_requested_reached : ∃ ts, rtc world_step (mkWorld sample_core []) (mkWorld sample_requested ts).
Proof. apply (runs_reach [sample_deletion_request]). Qed.

Definition sample_operation_of (w : @core RefBilling) : CloudDeletionOperation :=
  default (mkDeletion "" "" PhasePreparing [] sample_time sample_time "" 0 0 sample_time "" "")
    (dt_operations (del_tables (c_db w)) !! "1").

(** The state in which Billing has just acknowledged the close command. *)
Definition sample_acknowledged : @core RefBilling :=
  (run_for 10 (ProcessCloudDeletionJob sample_options (mkDeletionJob "1" sample_org "11" 0 1))
    (run_work sample_requested (ClaimJobs 10 (60 * Second)))).2.
Definition sample_ack : ClosureAcknowledgment :=
  mkClosureAck "1" "closed" sample_time ref_digest.
Definition sample_completion : res unit * DeletionDB :=
  completeDeletion (sample_operation_of sample_acknowledged) sample_ack (c_db sample_acknowledged).

Lemma completeDeletion_tombstones_witness :
  ∃ deletedAt, cloud_gone sample_completion.2
    (Deletion_CloudID (sample_operation_of sample_acknowledged)) deletedAt.
Proof.
  assert (completeDeletion (sample_operation_of sample_acknowledged) sample_ack (c_db sample_acknowledged) =
    (Ok tt, sample_completion.2)) as H.
  { assert (sample_completion.1 = Ok tt) as <- by (vm_compute; reflexivity). apply surjective_pairing. }
  apply (completeDeletion_tombstones (sample_operation_of sample_acknowledged) sample_ack
    (c_db sample_acknowledged) sample_completion.2 tt) in H as [_ [[Hp _]|(deletedAt & _ & _ & Hg)]].
  - vm_compute in Hp. discriminate.
  - exists deletedAt. exact Hg.
  - vm_compute. reflexivity.
Defined.

Definition sample_admission : res CloudDeletionOperation * DeletionDB :=
  request_admission ["video"] "user-1" sample_org "key-1" (1, 1) sample_deletion_db.

Lemma deletion_request_idempotent_witness :
  ∃ op, replay_deletion "user-1" sample_org "key-1" sample_admission.2 = (Ok (Some op), sample_admission.2).
Proof.
  destruct sample_admission.1 as [op|e] eqn:E; [|vm_compute in E; discriminate]. exists op.
  assert (request_admission ["video"] "user-1" sample_org "key-1" (1, 1) sample_deletion_db =
    (Ok op, sample_admission.2)) as H by (rewrite <-E; apply surjective_pairing).
  exact (proj1 (proj2 (proj2 (deletion_request_idempotent _ _ _ _ _ _ _ _ H)))).
Defined.

Lemma unfinished_deletion_is_claimed_witness :
  ∃ due, ∀ s, del_tables s = del_tables (c_db sample_requested) →
    t_nanos due ≤ t_nanos (del_clock s (del_readings s)) →
    ∃ jobs s', ClaimCloudDeletionJobs 10 (60 * Second) s = (Ok jobs, s') ∧ "1" ∈ Job_OperationID <$> jobs.
Proof.
  destruct sample_requested_reached as [ts H].
  assert (phase_of (mkWorld sample_requested ts) "1" = Some PhasePreparing) as Hp by (vm_compute; reflexivity).
  assert (Z.of_nat (size (dt_jobs (del_tables (c_db sample_requested)))) ≤ 10) as Hsize
    by (vm_compute; discriminate).
  assert (1 ≤ 10 ≤ 128 ∧ 30 * Second ≤ 60 * Second ≤ 5 * Minute) as [Hl Hd] by (unfold Minute, Second; lia).
  exact (unfinished_deletion_is_claimed sample_core (mkWorld sample_requested ts) "1" PhasePreparing 10
    (60 * Second) sample_fresh H Hp ltac:(discriminate) ltac:(discriminate) Hl Hsize Hd).
Defined.
